(* ===== verification/_CoqProject ===== *)
-Q . S2P
Prelude.v
IpcTypes.v
IpcBits.v
IpcTable.v
IpcHash.v
IpcEntry.v
IpcGrow.v
IpcState.v
IpcLedger.v
IpcPort.v
IpcRequest.v
IpcDestroy.v
IpcRight.v
IpcObject.v
IpcSpace.v
MachPort.v
IpcKmsg.v
IpcGentle.v
IpcFocus.v
IpcSample.v
IpcRightOk.v
IpcDeltaOk.v
IpcPortOk.v
IpcPsetOk.v
IpcCopyOk.v
IpcDesk.v
IpcDestroyOk.v
IpcCircularOk.v
IpcFrame.v
IpcAllocOk.v
IpcReceiveOk.v
IpcCopyoutOk.v
IpcBodyOk.v
IpcSendOk.v
IpcBuffer.v
IpcArriveOk.v
IpcDeliverOk.v
IpcReturnOk.v
IpcBirthOk.v
MachPortOk.v
IpcAge.v
IpcSystem.v
