(* ===== verification/Prelude.v ===== *)
(** * A verification of the Mach IPC capability layer of XNU

    Mach IPC (src/osfmk/ipc) is the capability system of the kernel.  A task has a _space_, a
    table of _entries_; an entry gives a task-local _name_ to rights to a _port_ (send, receive,
    send-once), to a port set, or is a dead name.  A port counts its references, its send and
    send-once rights, and keeps a table of notification requests.  Rights move between spaces
    inside messages, which wait in the queues of ports.  The layer has no garbage collector: it
    is correct when every counter is, at all times, the number of things it counts.

    This development translates the layer into Rocq, routine by routine, and proves that the
    books balance.

    ** The model

    A kernel state [kstate] (IpcState.v) is the ports, port sets, spaces and messages by
    address, the fields of the current thread that the code uses, the answers the allocators are
    going to give, and a log.  C code is a program of the monad [K A = kstate -> res (A * kstate)]
    (below): it ends in a value, or in a fault (a failed assertion, a panic, an access through a
    pointer to no live object, a bound of the model that was too small).  Machine integers are
    [Z] with their wrap-around written out, pointers are addresses, a pointer to an entry is its
    index.  The configuration is x86_64 with MACH_ASSERT and IMPORTANCE_INHERITANCE.

    Calls that leave the layer (MIG notification stubs, thread wakeups, guard exceptions, the
    importance and kernel-object layers, deallocation of memory) are events of the log; the
    rights handed over with a notification are held by its event.  What the layer asks of the
    rest of the kernel is the class [ipc_env] (IpcState.v): the kernel's own space, the two
    arrays of table sizes, the importance of tasks.  The calls of the VM layer that move bodies
    of messages are answered by the class [vm_env] (IpcKmsg.v).  Freed objects are removed from their map.

    Sections under a lock run atomically, and no other thread runs when a routine drops a lock
    and takes it again, with one exception: [ipc_entry_grow_table] copies a table while the
    space is unlocked, and IpcGrow.v lets other threads do anything that marks what it changes.

    ** The parts

    - IpcTypes.v, IpcBits.v: the structures, constants and macros of the headers; the arithmetic
      of the packed word [ie_bits] and of names.
    - IpcTable.v: ipc_table.c, the table sizes.
    - IpcHash.v: ipc_hash.c, the reverse hash table in the [ie_index] fields.
    - IpcEntry.v, IpcGrow.v: ipc_entry.c, the free list, names and their generations, and the
      growth of a table under interference.
    - IpcState.v: the state, references of objects (ipc_object.c), notifications (ipc_notify.c).
    - IpcPort.v, IpcRequest.v: ipc_port.c and what it uses of ipc_mqueue.c and ipc_pset.c.
    - IpcDestroy.v: the destruction of ports, messages and port sets (ipc_port.c, ipc_kmsg.c,
      ipc_mqueue.c, ipc_object.c, ipc_pset.c, ipc_importance.c, kern/ipc_kobject.c).
    - IpcRight.v: ipc_right.c, every operation on a capability.
    - IpcObject.v: ipc_object.c: translation, allocation, copyin, copyout, rename.
    - IpcSpace.v: ipc_space.c.
    - MachPort.v: mach_port.c, the kernel calls.
    - IpcKmsg.v: ipc_kmsg.c, the copyin and copyout of the header and body of a message, for
      tasks and for the kernel, and the check for circular messages (ipc_importance.c).  What
      the user wrote or reads is a [mach_msg_user], the kernel's message an [ipc_kmsg].

    ** What is proved

    - Tables: IpcTable.v proves the contract of ipc_table.h; IpcHash.v that the hash table
      represents a set and that its loops end; IpcEntry.v and IpcGrow.v that allocation, freeing
      and growing keep free list, hash table and entries in shape, with what they return.
    - IpcLedger.v defines the _ledger_: the list of rights that each holder has (entries,
      messages, request slots, pending notifications, the code in progress) and the statement
      that each counter is the number of its holders.  A port in transit and a message that is
      not circular have a token each ([RTransit], [RPlain]), so that a receive right in a
      message is accounted for, too.  IpcFocus.v defines the invariant [kwf] of
      a state between operations, [focus] for an operation at work on one entry, and a rule for
      each primitive step; IpcDesk.v has the same for destructions, which sweep the whole state.
      IpcSample.v decides the ledger of a concrete state and has the states of the witnesses.
      IpcFrame.v has [aside], a balanced kernel with one message laid aside for the thread that
      copies it, and [oblivious], said of programs that do not look at it; IpcGentle.v bounds
      what a program does to ports it has no right to.
    - One theorem per operation, in the files ending in Ok: in every balanced state it runs to
      its end without a fault, leaves a balanced state, does what it promises to the entry, the
      port, the log and the rights in hand, and changes nothing else.  IpcRightOk.v
      (deallocation), IpcDeltaOk.v (user references), IpcPortOk.v (naked rights), IpcPsetOk.v
      (port sets), IpcCopyOk.v (copyin), IpcDestroyOk.v (destruction of ports and messages),
      IpcAllocOk.v and IpcCopyoutOk.v (copyout), IpcReceiveOk.v (giving up receive rights),
      IpcBirthOk.v (creation), MachPortOk.v (the calls of mach_port.c).
    - Messages: IpcCircularOk.v shows that [ipc_port_check_circularity] terminates, decides
      whether a receive right would be sent to the end of its own chain, and keeps the chains of
      ports in transit free of cycles; IpcSendOk.v that copying a body in puts in the message
      the objects its names stand for and takes them from the sender, or gives everything up
      again; IpcBodyOk.v, IpcArriveOk.v and IpcDeliverOk.v that copying a message out moves
      every right of its header and body to the receiver's space, under the name the receiver
      reads, or gives it up; IpcReturnOk.v the same for messages that are refused or come back to their sender;
      IpcBuffer.v that arrays of ports can be converted in place, as the code does.
    - IpcSystem.v composes them: a transition system whose steps are 25 calls, made in any
      order with arguments their callers owe ([owed]).  Its state is the kernel, the rights in
      the callers' hands, and the references that [ipc_right_delta] forgot.  In every reachable
      state the books balance, no permitted call ends in a fault, the references of live ports
      are exact and those of dead ports are but for the forgotten ones, capabilities are typed,
      and a port has one receiver.  IpcAge.v shows what this needs: no call makes a dead port
      live.
    - Where the code does not do what it is meant to, a theorem says what it does instead: a
      leaked reference ([ipc_right_delta_leaks]), assertions and a panic that users can reach
      ([ipc_entry_alloc_name_asserts], [mach_port_mod_refs_panics]), a space left out of shape
      ([mach_port_destroy_guarded]), guards and queue limits ([mach_port_guard_zero],
      [ipc_mqueue_set_qlimit_overfull]), an entry that is freed twice
      ([header_dealloc_same_entry]), a receive right the kernel cannot send
      ([kernel_descriptor_receive]).

    ** Bounds

    Loops that are not structural have fuel.  The hash loops get the size of the table, the
    growth of a table one pass per window, [ipc_entry_alloc] two growths, the copyout loop two
    turns, the loop that holds entries for a header three, the reaping loop the number of
    messages, the walk along a chain of ports in transit the number of ports, and
    [ipc_port_destroy] a nesting depth of 2; the theorems show that the bound is never reached
    ([ipc_port_destroy_depth] that a larger one gives the same result).

    ** Not modelled

    - Sending and receiving (ipc_mqueue.c, mach_msg.c): threads block in the middle, on wait
      queues (kern/waitq.c) with continuations.  For the same reason the operations that link
      ports to port sets or walk the links ([ipc_pset_add], [ipc_pset_member],
      [mach_port_move_member], [mach_port_insert_member], [mach_port_get_set_status],
      [mach_port_peek]).
    - The bytes of message buffers, their allocation, trailers and the copying from and to user
      memory ([ipc_kmsg_get], [ipc_kmsg_put] and their variants), [ipc_kmsg_send], and the
      variants for the old message format.
    - The invariant [kwf] is about states without preallocated messages ([IP_PREALLOC], which
      [mach_port_allocate_full] and [mach_port_allocate_qos] can make), and without queued
      messages that raised the importance of their destination ([MACH_MSGH_BITS_RAISEIMP]);
      the definitions have both.
    - The steps of IpcSystem.v leave out the calls on messages and on the members of port
      sets, dead-name and send-possible requests, the attributes
      [MACH_PORT_DNREQUESTS_SIZE] and [MACH_PORT_TEMPOWNER], and what [owed] excludes because
      the code faults or loses track there: [mach_port_destroy] on a guarded port, right
      numbers that [ipc_right_delta] does not know.
    - What concerns other threads only: the waits for a table that grows in [ipc_space_clean]
      and [ipc_space_terminate], and the assertion of [ipc_entry_grow_table] that the space
      still has the table it copied; and the further rounds of [mach_port_names], which asks
      for memory again only if the table grew meanwhile.
    - The [deallocate] bit of memory out of line in the kernel's own message: copying out to a
      task writes it anew, only servers in the kernel could read it.
    - [ipc_kmsg_copyin_header], [ipc_kmsg_copyin_from_kernel] and [ipc_kmsg_copyout_to_kernel]
      are defined, but there is no theorem on the whole of them.  Copying in a body and copying
      out are not among the steps of IpcSystem.v.
    - Vouchers (ipc_voucher.c), importance elements (ipc_importance.c), the generated MIG code,
      debugging calls; tasks, threads, virtual memory, the BSD kernel, drivers. *)

From Stdlib Require Export ZArith Lia.
From stdpp Require Export base list gmap numbers.
Export list_basics.list list_relations.list list_misc.list list_monad.list list_numbers.list.

Declare Scope ipc_scope.
Delimit Scope ipc_scope with ipc.

Open Scope Z_scope.

(** ** Outcomes of kernel code

    [FAssert]: an [assert] of the C code failed (a kernel built with MACH_ASSERT);
    [FPanic]: the code called [panic]; [FBadAccess]: it read or wrote outside of a
    table, or through a pointer to no live object; [FFuel]: a loop ran longer than
    the bound of its Rocq model. *)
Inductive fault :=
  | FAssert
  | FPanic
  | FBadAccess
  | FFuel.

#[global] Instance fault_eq_dec : EqDecision fault.
Proof. solve_decision. Defined.

Inductive res (A : Type) :=
  | Ok (a : A)
  | Fail (f : fault).
Arguments Ok {_} _.
Arguments Fail {_} _.

#[global] Instance res_ret : MRet res := fun A a => Ok a.
#[global] Instance res_bind : MBind res :=
  fun A B f m => match m with Ok a => f a | Fail e => Fail e end.
#[global] Instance res_fmap : FMap res :=
  fun A B f m => match m with Ok a => Ok (f a) | Fail e => Fail e end.

(** C's [assert(b)] *)
Definition rassert (b : bool) : res unit :=
  if b then Ok tt else Fail FAssert.

(** Reading through a pointer that may be dangling *)
Definition rderef {A} (o : option A) : res A :=
  match o with Some a => Ok a | None => Fail FBadAccess end.

(** ** Stateful code *)
Definition M (S A : Type) : Type := S -> res (A * S).

#[global] Instance M_ret S : MRet (M S) := fun A a s => Ok (a, s).
#[global] Instance M_bind S : MBind (M S) :=
  fun A B f m s => match m s with Ok (a, s') => f a s' | Fail e => Fail e end.
#[global] Instance M_fmap S : FMap (M S) :=
  fun A B f m s => match m s with Ok (a, s') => Ok (f a, s') | Fail e => Fail e end.

Definition lift {S A} (r : res A) : M S A :=
  fun s => match r with Ok a => Ok (a, s) | Fail e => Fail e end.
Definition get {S} : M S S := fun s => Ok (s, s).
Definition gets {S A} (f : S -> A) : M S A := fun s => Ok (f s, s).
Definition modify {S} (f : S -> S) : M S unit := fun s => Ok (tt, f s).
Definition fail {S A} (e : fault) : M S A := fun _ => Fail e.
Definition massert {S} (b : bool) : M S unit := lift (rassert b).
Definition mderef {S A} (o : option A) : M S A := lift (rderef o).
Definition mwhen {S} (b : bool) (m : M S unit) : M S unit :=
  if b then m else mret tt.

(** Total correctness: [m] runs from [s] without a fault, and its result and final
    state satisfy [Q]. *)
Definition wp {S A} (m : M S A) (s : S) (Q : A -> S -> Prop) : Prop :=
  match m s with Ok (a, s') => Q a s' | Fail _ => False end.

Section wp_rules.
Context {S A B : Type}.
Implicit Types (s : S) (m : M S A).

Lemma wp_ret (a : A) s (Q : A -> S -> Prop) : Q a s -> wp (mret a) s Q.
Proof. done. Qed.

Lemma wp_bind m (f : A -> M S B) s Q :
  wp m s (fun a s' => wp (f a) s' Q) -> wp (m ≫= f) s Q.
Proof.
  unfold wp, mbind, M_bind. destruct (m s) as [[a s']|e]; done.
Qed.

Lemma wp_mono m s (P Q : A -> S -> Prop) :
  (forall a s', P a s' -> Q a s') -> wp m s P -> wp m s Q.
Proof. unfold wp. destruct (m s) as [[a s']|]; eauto. Qed.

Lemma wp_Ok m s a s' Q : m s = Ok (a, s') -> Q a s' -> wp m s Q.
Proof. unfold wp. by intros ->. Qed.

Lemma wp_inv m s Q : wp m s Q -> exists a s', m s = Ok (a, s') /\ Q a s'.
Proof. unfold wp. destruct (m s) as [[a s']|]; [eauto|done]. Qed.

Lemma wp_lift (r : res A) s Q a : r = Ok a -> Q a s -> wp (lift r) s Q.
Proof. intros ->. done. Qed.
End wp_rules.

Lemma wp_gets {S A} (f : S -> A) s Q : Q (f s) s -> wp (gets f) s Q.
Proof. done. Qed.

Lemma wp_modify {S} (f : S -> S) s Q : Q tt (f s) -> wp (modify f) s Q.
Proof. done. Qed.

Lemma wp_massert {S} (b : bool) (s : S) Q :
  b = true -> Q tt s -> wp (massert b) s Q.
Proof. by intros ->. Qed.

Lemma wp_mderef {S A} (o : option A) (s : S) Q a :
  o = Some a -> Q a s -> wp (mderef o) s Q.
Proof. by intros ->. Qed.

Create HintDb ipc.

(** ** Tactics *)

(** Turn boolean tests of the code into propositions. *)
Ltac bool_to_prop :=
  repeat match goal with
  | H : (_ && _)%bool = true |- _ => apply andb_prop in H as [? ?]
  | H : (_ || _)%bool = false |- _ => apply orb_false_elim in H as [? ?]
  | H : negb _ = true |- _ => apply negb_true_iff in H
  | H : negb _ = false |- _ => apply negb_false_iff in H
  | H : (_ =? _) = true |- _ => apply Z.eqb_eq in H
  | H : (_ =? _) = false |- _ => apply Z.eqb_neq in H
  | H : (_ <? _) = true |- _ => apply Z.ltb_lt in H
  | H : (_ <? _) = false |- _ => apply Z.ltb_ge in H
  | H : (_ <=? _) = true |- _ => apply Z.leb_le in H
  | H : (_ <=? _) = false |- _ => apply Z.leb_gt in H
  end.

Lemma wp_get {S} (s : S) Q : Q s s -> wp get s Q.
Proof. done. Qed.

Lemma wp_mwhen {S} (b : bool) (m : M S unit) (s : S) Q :
  (b = true -> wp m s Q) -> (b = false -> Q tt s) -> wp (mwhen b m) s Q.
Proof. destruct b; intros H1 H2; [by apply H1|by apply H2]. Qed.

(** Step through a monadic program: one rule per construct.  Component files extend it
    with the rules of their primitives. *)
Ltac wp_prim := fail.
Ltac wp_step :=
  lazymatch goal with
  | |- wp (mbind _ _) _ _ => apply wp_bind
  | |- wp (mret _) _ _ => apply wp_ret
  | |- wp get _ _ => apply wp_get
  | |- wp (gets _) _ _ => apply wp_gets
  | |- wp (modify _) _ _ => apply wp_modify
  | |- wp (massert _) _ _ => apply wp_massert
  | |- wp (mwhen _ _) _ _ => apply wp_mwhen; intros
  | _ => wp_prim
  end.
