(* ===== verification/IpcTypes.v ===== *)
(** * Data types, constants and macros of Mach IPC

    The structures of osfmk/ipc (ipc_entry.h, ipc_space.h, ipc_port.h, ipc_mqueue.h,
    ipc_pset.h) and the constants and macros of osfmk/mach/port.h, mach/message.h and
    ipc/port.h.  Machine integers are [Z] with their wrap-around written out
    ([u16], [u32], [u64]); a pointer is its address, a [Z] too. *)

From S2P Require Export Prelude.

(** ** Machine integers *)
Definition u16 (x : Z) : Z := x mod 2 ^ 16.
Definition u24 (x : Z) : Z := x mod 2 ^ 24.
Definition u32 (x : Z) : Z := x mod 2 ^ 32.
Definition u64 (x : Z) : Z := x mod 2 ^ 64.

(** ** Port names (mach/port.h) *)
Definition MACH_PORT_NULL : Z := 0.
Definition MACH_PORT_DEAD : Z := 0xffffffff.
Definition MACH_PORT_VALID (name : Z) : bool :=
  negb (name =? MACH_PORT_NULL) && negb (name =? MACH_PORT_DEAD).

Definition MACH_PORT_INDEX (name : Z) : Z := Z.shiftr name 8.
Definition MACH_PORT_GEN (name : Z) : Z := u32 (Z.shiftl (Z.land name 0xff) 24).
Definition MACH_PORT_MAKE (index gen : Z) : Z :=
  Z.lor (u32 (Z.shiftl index 8)) (Z.shiftr gen 24).

Definition IO_NULL : Z := 0.
Definition IO_DEAD : Z := 0xffffffffffffffff.
Definition IO_VALID (io : Z) : bool := negb (io =? IO_NULL) && negb (io =? IO_DEAD).
Definition IP_NULL : Z := 0.
Definition IP_DEAD : Z := 0xffffffffffffffff.
Definition IP_VALID (port : Z) : bool := negb (port =? IP_NULL) && negb (port =? IP_DEAD).
Definition IS_NULL : Z := 0.
Definition IKM_NULL : Z := 0.
Definition IIT_NULL : Z := 0.
Definition TASK_NULL : Z := 0.

(** The low 32 bits of a pointer ([CAST_MACH_PORT_TO_NAME]) *)
Definition CAST_MACH_PORT_TO_NAME (x : Z) : Z := u32 x.

(** ** Rights and their type bits *)
Definition MACH_PORT_RIGHT_SEND : Z := 0.
Definition MACH_PORT_RIGHT_RECEIVE : Z := 1.
Definition MACH_PORT_RIGHT_SEND_ONCE : Z := 2.
Definition MACH_PORT_RIGHT_PORT_SET : Z := 3.
Definition MACH_PORT_RIGHT_DEAD_NAME : Z := 4.
Definition MACH_PORT_RIGHT_LABELH : Z := 5.
Definition MACH_PORT_RIGHT_NUMBER : Z := 6.

Definition MACH_PORT_TYPE (right : Z) : Z := u32 (Z.shiftl 1 (right + 16)).
Definition MACH_PORT_TYPE_NONE : Z := 0.
Definition MACH_PORT_TYPE_SEND : Z := 0x10000.
Definition MACH_PORT_TYPE_RECEIVE : Z := 0x20000.
Definition MACH_PORT_TYPE_SEND_ONCE : Z := 0x40000.
Definition MACH_PORT_TYPE_PORT_SET : Z := 0x80000.
Definition MACH_PORT_TYPE_DEAD_NAME : Z := 0x100000.
Definition MACH_PORT_TYPE_SEND_RECEIVE : Z := 0x30000.
Definition MACH_PORT_TYPE_SEND_RIGHTS : Z := 0x50000.
Definition MACH_PORT_TYPE_PORT_RIGHTS : Z := 0x70000.
Definition MACH_PORT_TYPE_PORT_OR_DEAD : Z := 0x170000.
Definition MACH_PORT_TYPE_ALL_RIGHTS : Z := 0x1f0000.
Definition MACH_PORT_TYPE_DNREQUEST : Z := 0x80000000.
Definition MACH_PORT_TYPE_SPREQUEST : Z := 0x40000000.
Definition MACH_PORT_TYPE_SPREQUEST_DELAYED : Z := 0x20000000.

(** ** User references (ipc/port.h)

    [urefs] is an unsigned, [delta] a signed 32-bit integer. *)
Definition MACH_PORT_UREFS_MAX : Z := 0xffff.
Definition MACH_PORT_UREFS_OVERFLOW (urefs delta : Z) : bool :=
  (0 <? delta) &&
  ((u32 (urefs + delta) <=? urefs) || (MACH_PORT_UREFS_MAX <? u32 (urefs + delta))).
Definition MACH_PORT_UREFS_UNDERFLOW (urefs delta : Z) : bool :=
  (delta <? 0) && (urefs <? u32 (- delta)).

(** ** Entry bits (ipc_entry.h) *)
Definition IE_REQ_NONE : Z := 0.
Definition IE_BITS_UREFS_MASK : Z := 0x0000ffff.
Definition IE_BITS_UREFS (bits : Z) : Z := Z.land bits IE_BITS_UREFS_MASK.
Definition IE_BITS_TYPE_MASK : Z := 0x001f0000.
Definition IE_BITS_TYPE (bits : Z) : Z := Z.land bits IE_BITS_TYPE_MASK.
Definition IE_BITS_GEN_MASK : Z := 0xff000000.
Definition IE_BITS_GEN (bits : Z) : Z := Z.land bits IE_BITS_GEN_MASK.
Definition IE_BITS_GEN_ONE : Z := 0x04000000.
Definition IE_BITS_NEW_GEN (old : Z) : Z :=
  Z.land (u32 (old + IE_BITS_GEN_ONE)) IE_BITS_GEN_MASK.
Definition IE_BITS_RIGHT_MASK : Z := 0x007fffff.

(** [bits & mask] as a C condition, and [bits &~ mask] *)
Definition has (bits mask : Z) : bool := negb (Z.land bits mask =? 0).
Definition clr (bits mask : Z) : Z := Z.ldiff bits mask.

(** ** Message dispositions (mach/message.h) *)
Definition MACH_MSG_TYPE_PORT_NONE : Z := 0.
Definition MACH_MSG_TYPE_MOVE_RECEIVE : Z := 16.
Definition MACH_MSG_TYPE_MOVE_SEND : Z := 17.
Definition MACH_MSG_TYPE_MOVE_SEND_ONCE : Z := 18.
Definition MACH_MSG_TYPE_COPY_SEND : Z := 19.
Definition MACH_MSG_TYPE_MAKE_SEND : Z := 20.
Definition MACH_MSG_TYPE_MAKE_SEND_ONCE : Z := 21.
Definition MACH_MSG_TYPE_PORT_RECEIVE : Z := MACH_MSG_TYPE_MOVE_RECEIVE.
Definition MACH_MSG_TYPE_PORT_SEND : Z := MACH_MSG_TYPE_MOVE_SEND.
Definition MACH_MSG_TYPE_PORT_SEND_ONCE : Z := MACH_MSG_TYPE_MOVE_SEND_ONCE.
Definition MACH_MSG_TYPE_PORT_ANY_SEND (x : Z) : bool :=
  (MACH_MSG_TYPE_MOVE_SEND <=? x) && (x <=? MACH_MSG_TYPE_MAKE_SEND_ONCE).

(** ** Queue limits (mach/port.h) *)
Definition MACH_PORT_QLIMIT_KERNEL : Z := 65534.
Definition MACH_PORT_QLIMIT_DEFAULT : Z := 5.
Definition MACH_PORT_QLIMIT_MAX : Z := 1024.

(** ** Return codes of kernel calls *)
Inductive kern_return_t :=
  | KERN_SUCCESS
  | KERN_NO_SPACE
  | KERN_INVALID_ARGUMENT
  | KERN_FAILURE
  | KERN_RESOURCE_SHORTAGE
  | KERN_NAME_EXISTS
  | KERN_INVALID_NAME
  | KERN_INVALID_TASK
  | KERN_INVALID_RIGHT
  | KERN_INVALID_VALUE
  | KERN_UREFS_OVERFLOW
  | KERN_INVALID_CAPABILITY
  | KERN_RIGHT_EXISTS
  | KERN_NOT_IN_SET
  | KERN_NOT_SUPPORTED.

#[global] Instance kern_return_eq_dec : EqDecision kern_return_t.
Proof. solve_decision. Defined.

(** ** Objects (ipc_object.h) *)
Definition IO_BITS_KOTYPE : Z := 0x00000fff.
Definition IO_BITS_OTYPE : Z := 0x7fff0000.
Definition IO_BITS_ACTIVE : Z := 0x80000000.
Definition io_bits_active (bits : Z) : bool := has bits IO_BITS_ACTIVE.
Definition io_bits_otype (bits : Z) : Z := Z.shiftr (Z.land bits IO_BITS_OTYPE) 16.
Definition io_bits_kotype (bits : Z) : Z := Z.land bits IO_BITS_KOTYPE.
Definition IOT_PORT : Z := 0.
Definition IOT_PORT_SET : Z := 1.
Definition IOT_NUMBER : Z := 2.
Definition io_makebits (active : bool) (otype kotype : Z) : Z :=
  Z.lor (Z.lor (if active then IO_BITS_ACTIVE else 0) (u32 (Z.shiftl otype 16))) kotype.
Definition IO_MAX_REFERENCES : Z := 0x7fffffff.
Definition IP_BIT_PREALLOC : Z := 0x00008000.

(** ** Spaces (ipc_space.h) *)
Definition IS_REFS_MAX : Z := 0x0fffffff.
Definition IS_INACTIVE : Z := 0x40000000.
Definition IS_GROWING : Z := 0x20000000.
Definition ITS_SIZE_NONE : Z := 0xffffffff.

(** [struct ipc_entry] (ipc_entry.h).  The union [index] is the one field
    [ie_request]; the macro [ie_next] names the same word. *)
Record ipc_entry := mk_ipc_entry {
  ie_object : Z;
  ie_bits : Z;
  ie_index : Z;
  ie_request : Z;
}.

Definition set_ie_object (v : Z) (r : ipc_entry) : ipc_entry :=
    mk_ipc_entry v (ie_bits r) (ie_index r) (ie_request r).
Definition set_ie_bits (v : Z) (r : ipc_entry) : ipc_entry :=
    mk_ipc_entry (ie_object r) v (ie_index r) (ie_request r).
Definition set_ie_index (v : Z) (r : ipc_entry) : ipc_entry :=
    mk_ipc_entry (ie_object r) (ie_bits r) v (ie_request r).
Definition set_ie_request (v : Z) (r : ipc_entry) : ipc_entry :=
    mk_ipc_entry (ie_object r) (ie_bits r) (ie_index r) v.

(** [struct ipc_space] (ipc_space.h), less its lock.  [is_table] is the entry
    array; [is_table_next] is an index into the array [ipc_table_entries]. *)
Record ipc_space := mk_ipc_space {
  is_bits : Z;
  is_table_size : Z;
  is_table_free : Z;
  is_table : list ipc_entry;
  is_task : Z;
  is_table_next : Z;
  is_low_mod : Z;
  is_high_mod : Z;
}.

Definition set_is_bits (v : Z) (r : ipc_space) : ipc_space :=
    mk_ipc_space v (is_table_size r) (is_table_free r) (is_table r) (is_task r) (is_table_next
    r) (is_low_mod r) (is_high_mod r).
Definition set_is_table_size (v : Z) (r : ipc_space) : ipc_space :=
    mk_ipc_space (is_bits r) v (is_table_free r) (is_table r) (is_task r) (is_table_next r)
    (is_low_mod r) (is_high_mod r).
Definition set_is_table_free (v : Z) (r : ipc_space) : ipc_space :=
    mk_ipc_space (is_bits r) (is_table_size r) v (is_table r) (is_task r) (is_table_next r)
    (is_low_mod r) (is_high_mod r).
Definition set_is_table (v : list ipc_entry) (r : ipc_space) : ipc_space :=
    mk_ipc_space (is_bits r) (is_table_size r) (is_table_free r) v (is_task r) (is_table_next r)
    (is_low_mod r) (is_high_mod r).
Definition set_is_task (v : Z) (r : ipc_space) : ipc_space :=
    mk_ipc_space (is_bits r) (is_table_size r) (is_table_free r) (is_table r) v (is_table_next
    r) (is_low_mod r) (is_high_mod r).
Definition set_is_table_next (v : Z) (r : ipc_space) : ipc_space :=
    mk_ipc_space (is_bits r) (is_table_size r) (is_table_free r) (is_table r) (is_task r) v
    (is_low_mod r) (is_high_mod r).
Definition set_is_low_mod (v : Z) (r : ipc_space) : ipc_space :=
    mk_ipc_space (is_bits r) (is_table_size r) (is_table_free r) (is_table r) (is_task r)
    (is_table_next r) v (is_high_mod r).
Definition set_is_high_mod (v : Z) (r : ipc_space) : ipc_space :=
    mk_ipc_space (is_bits r) (is_table_size r) (is_table_free r) (is_table r) (is_task r)
    (is_table_next r) (is_low_mod r) v.

(** [struct ipc_port_request] (ipc_port.h): two unions, each one machine word. *)
Record ipc_port_request := mk_ipc_port_request {
  ipr_notify : Z;
  ipr_nameword : Z;
}.

Definition set_ipr_notify (v : Z) (r : ipc_port_request) : ipc_port_request :=
    mk_ipc_port_request v (ipr_nameword r).
Definition set_ipr_nameword (v : Z) (r : ipc_port_request) : ipc_port_request :=
    mk_ipc_port_request (ipr_notify r) v.

(** The port half of [struct ipc_mqueue] (ipc_mqueue.h).  [imq_messages] holds
    the queued kmsgs in order.  The wait queue is its three lists: the port sets it
    is linked to ([imq_in_pset] is non-zero when there is one), the threads waiting
    for [IPC_MQUEUE_RECEIVE], the threads waiting for [IPC_MQUEUE_FULL]. *)
Record ipc_mqueue := mk_ipc_mqueue {
  imq_messages : list Z;
  imq_seqno : Z;
  imq_receiver_name : Z;
  imq_msgcount : Z;
  imq_qlimit : Z;
  imq_fullwaiters : bool;
  imq_set_links : list Z;
  imq_receivers : list Z;
  imq_senders : list Z;
}.

Definition set_imq_messages (v : list Z) (r : ipc_mqueue) : ipc_mqueue :=
    mk_ipc_mqueue v (imq_seqno r) (imq_receiver_name r) (imq_msgcount r) (imq_qlimit r)
    (imq_fullwaiters r) (imq_set_links r) (imq_receivers r) (imq_senders r).
Definition set_imq_seqno (v : Z) (r : ipc_mqueue) : ipc_mqueue :=
    mk_ipc_mqueue (imq_messages r) v (imq_receiver_name r) (imq_msgcount r) (imq_qlimit r)
    (imq_fullwaiters r) (imq_set_links r) (imq_receivers r) (imq_senders r).
Definition set_imq_receiver_name (v : Z) (r : ipc_mqueue) : ipc_mqueue :=
    mk_ipc_mqueue (imq_messages r) (imq_seqno r) v (imq_msgcount r) (imq_qlimit r)
    (imq_fullwaiters r) (imq_set_links r) (imq_receivers r) (imq_senders r).
Definition set_imq_msgcount (v : Z) (r : ipc_mqueue) : ipc_mqueue :=
    mk_ipc_mqueue (imq_messages r) (imq_seqno r) (imq_receiver_name r) v (imq_qlimit r)
    (imq_fullwaiters r) (imq_set_links r) (imq_receivers r) (imq_senders r).
Definition set_imq_qlimit (v : Z) (r : ipc_mqueue) : ipc_mqueue :=
    mk_ipc_mqueue (imq_messages r) (imq_seqno r) (imq_receiver_name r) (imq_msgcount r) v
    (imq_fullwaiters r) (imq_set_links r) (imq_receivers r) (imq_senders r).
Definition set_imq_fullwaiters (v : bool) (r : ipc_mqueue) : ipc_mqueue :=
    mk_ipc_mqueue (imq_messages r) (imq_seqno r) (imq_receiver_name r) (imq_msgcount r)
    (imq_qlimit r) v (imq_set_links r) (imq_receivers r) (imq_senders r).
Definition set_imq_set_links (v : list Z) (r : ipc_mqueue) : ipc_mqueue :=
    mk_ipc_mqueue (imq_messages r) (imq_seqno r) (imq_receiver_name r) (imq_msgcount r)
    (imq_qlimit r) (imq_fullwaiters r) v (imq_receivers r) (imq_senders r).
Definition set_imq_receivers (v : list Z) (r : ipc_mqueue) : ipc_mqueue :=
    mk_ipc_mqueue (imq_messages r) (imq_seqno r) (imq_receiver_name r) (imq_msgcount r)
    (imq_qlimit r) (imq_fullwaiters r) (imq_set_links r) v (imq_senders r).
Definition set_imq_senders (v : list Z) (r : ipc_mqueue) : ipc_mqueue :=
    mk_ipc_mqueue (imq_messages r) (imq_seqno r) (imq_receiver_name r) (imq_msgcount r)
    (imq_qlimit r) (imq_fullwaiters r) (imq_set_links r) (imq_receivers r) v.

(** [struct ipc_port] (ipc_port.h), less the debugging fields.  [ip_data] is
    the word of the union [data] ([ip_receiver], [ip_destination], [ip_timestamp])
    and [ip_kdata] that of [kdata] ([ip_kobject], [ip_imp_task], [ip_alias]). *)
Record ipc_port := mk_ipc_port {
  ip_bits : Z;
  ip_references : Z;
  ip_messages : ipc_mqueue;
  ip_sprequests : bool;
  ip_spimportant : bool;
  ip_impdonation : bool;
  ip_tempowner : bool;
  ip_guarded : bool;
  ip_strict_guard : bool;
  ip_impcount : Z;
  ip_data : Z;
  ip_kdata : Z;
  ip_nsrequest : Z;
  ip_pdrequest : Z;
  ip_requests : option (list ipc_port_request);
  ip_premsg : Z;
  ip_context : Z;
  ip_mscount : Z;
  ip_srights : Z;
  ip_sorights : Z;
}.

Definition set_ip_bits (v : Z) (r : ipc_port) : ipc_port :=
    mk_ipc_port v (ip_references r) (ip_messages r) (ip_sprequests r) (ip_spimportant r)
    (ip_impdonation r) (ip_tempowner r) (ip_guarded r) (ip_strict_guard r) (ip_impcount r)
    (ip_data r) (ip_kdata r) (ip_nsrequest r) (ip_pdrequest r) (ip_requests r) (ip_premsg r)
    (ip_context r) (ip_mscount r) (ip_srights r) (ip_sorights r).
Definition set_ip_references (v : Z) (r : ipc_port) : ipc_port :=
    mk_ipc_port (ip_bits r) v (ip_messages r) (ip_sprequests r) (ip_spimportant r)
    (ip_impdonation r) (ip_tempowner r) (ip_guarded r) (ip_strict_guard r) (ip_impcount r)
    (ip_data r) (ip_kdata r) (ip_nsrequest r) (ip_pdrequest r) (ip_requests r) (ip_premsg r)
    (ip_context r) (ip_mscount r) (ip_srights r) (ip_sorights r).
Definition set_ip_messages (v : ipc_mqueue) (r : ipc_port) : ipc_port :=
    mk_ipc_port (ip_bits r) (ip_references r) v (ip_sprequests r) (ip_spimportant r)
    (ip_impdonation r) (ip_tempowner r) (ip_guarded r) (ip_strict_guard r) (ip_impcount r)
    (ip_data r) (ip_kdata r) (ip_nsrequest r) (ip_pdrequest r) (ip_requests r) (ip_premsg r)
    (ip_context r) (ip_mscount r) (ip_srights r) (ip_sorights r).
Definition set_ip_sprequests (v : bool) (r : ipc_port) : ipc_port :=
    mk_ipc_port (ip_bits r) (ip_references r) (ip_messages r) v (ip_spimportant r)
    (ip_impdonation r) (ip_tempowner r) (ip_guarded r) (ip_strict_guard r) (ip_impcount r)
    (ip_data r) (ip_kdata r) (ip_nsrequest r) (ip_pdrequest r) (ip_requests r) (ip_premsg r)
    (ip_context r) (ip_mscount r) (ip_srights r) (ip_sorights r).
Definition set_ip_spimportant (v : bool) (r : ipc_port) : ipc_port :=
    mk_ipc_port (ip_bits r) (ip_references r) (ip_messages r) (ip_sprequests r) v
    (ip_impdonation r) (ip_tempowner r) (ip_guarded r) (ip_strict_guard r) (ip_impcount r)
    (ip_data r) (ip_kdata r) (ip_nsrequest r) (ip_pdrequest r) (ip_requests r) (ip_premsg r)
    (ip_context r) (ip_mscount r) (ip_srights r) (ip_sorights r).
Definition set_ip_impdonation (v : bool) (r : ipc_port) : ipc_port :=
    mk_ipc_port (ip_bits r) (ip_references r) (ip_messages r) (ip_sprequests r) (ip_spimportant
    r) v (ip_tempowner r) (ip_guarded r) (ip_strict_guard r) (ip_impcount r) (ip_data r)
    (ip_kdata r) (ip_nsrequest r) (ip_pdrequest r) (ip_requests r) (ip_premsg r) (ip_context r)
    (ip_mscount r) (ip_srights r) (ip_sorights r).
Definition set_ip_tempowner (v : bool) (r : ipc_port) : ipc_port :=
    mk_ipc_port (ip_bits r) (ip_references r) (ip_messages r) (ip_sprequests r) (ip_spimportant
    r) (ip_impdonation r) v (ip_guarded r) (ip_strict_guard r) (ip_impcount r) (ip_data r)
    (ip_kdata r) (ip_nsrequest r) (ip_pdrequest r) (ip_requests r) (ip_premsg r) (ip_context r)
    (ip_mscount r) (ip_srights r) (ip_sorights r).
Definition set_ip_guarded (v : bool) (r : ipc_port) : ipc_port :=
    mk_ipc_port (ip_bits r) (ip_references r) (ip_messages r) (ip_sprequests r) (ip_spimportant
    r) (ip_impdonation r) (ip_tempowner r) v (ip_strict_guard r) (ip_impcount r) (ip_data r)
    (ip_kdata r) (ip_nsrequest r) (ip_pdrequest r) (ip_requests r) (ip_premsg r) (ip_context r)
    (ip_mscount r) (ip_srights r) (ip_sorights r).
Definition set_ip_strict_guard (v : bool) (r : ipc_port) : ipc_port :=
    mk_ipc_port (ip_bits r) (ip_references r) (ip_messages r) (ip_sprequests r) (ip_spimportant
    r) (ip_impdonation r) (ip_tempowner r) (ip_guarded r) v (ip_impcount r) (ip_data r)
    (ip_kdata r) (ip_nsrequest r) (ip_pdrequest r) (ip_requests r) (ip_premsg r) (ip_context r)
    (ip_mscount r) (ip_srights r) (ip_sorights r).
Definition set_ip_impcount (v : Z) (r : ipc_port) : ipc_port :=
    mk_ipc_port (ip_bits r) (ip_references r) (ip_messages r) (ip_sprequests r) (ip_spimportant
    r) (ip_impdonation r) (ip_tempowner r) (ip_guarded r) (ip_strict_guard r) v (ip_data r)
    (ip_kdata r) (ip_nsrequest r) (ip_pdrequest r) (ip_requests r) (ip_premsg r) (ip_context r)
    (ip_mscount r) (ip_srights r) (ip_sorights r).
Definition set_ip_data (v : Z) (r : ipc_port) : ipc_port :=
    mk_ipc_port (ip_bits r) (ip_references r) (ip_messages r) (ip_sprequests r) (ip_spimportant
    r) (ip_impdonation r) (ip_tempowner r) (ip_guarded r) (ip_strict_guard r) (ip_impcount r) v
    (ip_kdata r) (ip_nsrequest r) (ip_pdrequest r) (ip_requests r) (ip_premsg r) (ip_context r)
    (ip_mscount r) (ip_srights r) (ip_sorights r).
Definition set_ip_kdata (v : Z) (r : ipc_port) : ipc_port :=
    mk_ipc_port (ip_bits r) (ip_references r) (ip_messages r) (ip_sprequests r) (ip_spimportant
    r) (ip_impdonation r) (ip_tempowner r) (ip_guarded r) (ip_strict_guard r) (ip_impcount r)
    (ip_data r) v (ip_nsrequest r) (ip_pdrequest r) (ip_requests r) (ip_premsg r) (ip_context r)
    (ip_mscount r) (ip_srights r) (ip_sorights r).
Definition set_ip_nsrequest (v : Z) (r : ipc_port) : ipc_port :=
    mk_ipc_port (ip_bits r) (ip_references r) (ip_messages r) (ip_sprequests r) (ip_spimportant
    r) (ip_impdonation r) (ip_tempowner r) (ip_guarded r) (ip_strict_guard r) (ip_impcount r)
    (ip_data r) (ip_kdata r) v (ip_pdrequest r) (ip_requests r) (ip_premsg r) (ip_context r)
    (ip_mscount r) (ip_srights r) (ip_sorights r).
Definition set_ip_pdrequest (v : Z) (r : ipc_port) : ipc_port :=
    mk_ipc_port (ip_bits r) (ip_references r) (ip_messages r) (ip_sprequests r) (ip_spimportant
    r) (ip_impdonation r) (ip_tempowner r) (ip_guarded r) (ip_strict_guard r) (ip_impcount r)
    (ip_data r) (ip_kdata r) (ip_nsrequest r) v (ip_requests r) (ip_premsg r) (ip_context r)
    (ip_mscount r) (ip_srights r) (ip_sorights r).
Definition set_ip_requests (v : option (list ipc_port_request)) (r : ipc_port) : ipc_port :=
    mk_ipc_port (ip_bits r) (ip_references r) (ip_messages r) (ip_sprequests r) (ip_spimportant
    r) (ip_impdonation r) (ip_tempowner r) (ip_guarded r) (ip_strict_guard r) (ip_impcount r)
    (ip_data r) (ip_kdata r) (ip_nsrequest r) (ip_pdrequest r) v (ip_premsg r) (ip_context r)
    (ip_mscount r) (ip_srights r) (ip_sorights r).
Definition set_ip_premsg (v : Z) (r : ipc_port) : ipc_port :=
    mk_ipc_port (ip_bits r) (ip_references r) (ip_messages r) (ip_sprequests r) (ip_spimportant
    r) (ip_impdonation r) (ip_tempowner r) (ip_guarded r) (ip_strict_guard r) (ip_impcount r)
    (ip_data r) (ip_kdata r) (ip_nsrequest r) (ip_pdrequest r) (ip_requests r) v (ip_context r)
    (ip_mscount r) (ip_srights r) (ip_sorights r).
Definition set_ip_context (v : Z) (r : ipc_port) : ipc_port :=
    mk_ipc_port (ip_bits r) (ip_references r) (ip_messages r) (ip_sprequests r) (ip_spimportant
    r) (ip_impdonation r) (ip_tempowner r) (ip_guarded r) (ip_strict_guard r) (ip_impcount r)
    (ip_data r) (ip_kdata r) (ip_nsrequest r) (ip_pdrequest r) (ip_requests r) (ip_premsg r) v
    (ip_mscount r) (ip_srights r) (ip_sorights r).
Definition set_ip_mscount (v : Z) (r : ipc_port) : ipc_port :=
    mk_ipc_port (ip_bits r) (ip_references r) (ip_messages r) (ip_sprequests r) (ip_spimportant
    r) (ip_impdonation r) (ip_tempowner r) (ip_guarded r) (ip_strict_guard r) (ip_impcount r)
    (ip_data r) (ip_kdata r) (ip_nsrequest r) (ip_pdrequest r) (ip_requests r) (ip_premsg r)
    (ip_context r) v (ip_srights r) (ip_sorights r).
Definition set_ip_srights (v : Z) (r : ipc_port) : ipc_port :=
    mk_ipc_port (ip_bits r) (ip_references r) (ip_messages r) (ip_sprequests r) (ip_spimportant
    r) (ip_impdonation r) (ip_tempowner r) (ip_guarded r) (ip_strict_guard r) (ip_impcount r)
    (ip_data r) (ip_kdata r) (ip_nsrequest r) (ip_pdrequest r) (ip_requests r) (ip_premsg r)
    (ip_context r) (ip_mscount r) v (ip_sorights r).
Definition set_ip_sorights (v : Z) (r : ipc_port) : ipc_port :=
    mk_ipc_port (ip_bits r) (ip_references r) (ip_messages r) (ip_sprequests r) (ip_spimportant
    r) (ip_impdonation r) (ip_tempowner r) (ip_guarded r) (ip_strict_guard r) (ip_impcount r)
    (ip_data r) (ip_kdata r) (ip_nsrequest r) (ip_pdrequest r) (ip_requests r) (ip_premsg r)
    (ip_context r) (ip_mscount r) (ip_srights r) v.

(** [struct ipc_pset] (ipc_pset.h) with the pset half of its [ipc_mqueue] *)
Record ipc_pset := mk_ipc_pset {
  ips_bits : Z;
  ips_references : Z;
  ips_local_name : Z;
  ips_receivers : list Z;
}.

Definition set_ips_bits (v : Z) (r : ipc_pset) : ipc_pset :=
    mk_ipc_pset v (ips_references r) (ips_local_name r) (ips_receivers r).
Definition set_ips_references (v : Z) (r : ipc_pset) : ipc_pset :=
    mk_ipc_pset (ips_bits r) v (ips_local_name r) (ips_receivers r).
Definition set_ips_local_name (v : Z) (r : ipc_pset) : ipc_pset :=
    mk_ipc_pset (ips_bits r) (ips_references r) v (ips_receivers r).
Definition set_ips_receivers (v : list Z) (r : ipc_pset) : ipc_pset :=
    mk_ipc_pset (ips_bits r) (ips_references r) (ips_local_name r) v.

(** ** Accessors that C writes as macros *)

(** The union word [ie_next] of a free entry is [ie_request]. *)
Notation ie_next := ie_request.
Notation set_ie_next := set_ie_request.

Definition is_active (s : ipc_space) : bool :=
  negb (Z.land (is_bits s) IS_INACTIVE =? IS_INACTIVE).
Definition is_growing (s : ipc_space) : bool :=
  Z.land (is_bits s) IS_GROWING =? IS_GROWING.
Definition set_inactive (s : ipc_space) : ipc_space :=
  set_is_bits (Z.lor (is_bits s) IS_INACTIVE) s.
Definition set_growing (s : ipc_space) : ipc_space :=
  set_is_bits (Z.lor (is_bits s) IS_GROWING) s.
Definition clear_growing (s : ipc_space) : ipc_space :=
  set_is_bits (clr (is_bits s) IS_GROWING) s.
Definition is_mark_inactive (s : ipc_space) : res ipc_space :=
  _ ← rassert (is_active s); Ok (set_inactive s).
Definition is_start_growing (s : ipc_space) : res ipc_space :=
  _ ← rassert (negb (is_growing s)); Ok (set_growing s).
Definition is_done_growing (s : ipc_space) : res ipc_space :=
  _ ← rassert (is_growing s); Ok (clear_growing s).
Definition is_refs (s : ipc_space) : Z := Z.land (is_bits s) IS_REFS_MAX.

Definition ip_active (p : ipc_port) : bool := io_bits_active (ip_bits p).
Definition ips_active (p : ipc_pset) : bool := io_bits_active (ips_bits p).

(** The union [data] of a port: one word under three names.  The timestamp is a
    32-bit member: writing it leaves the upper half of the word as it was. *)
Notation ip_receiver := ip_data.
Notation set_ip_receiver := set_ip_data.
Notation ip_destination := ip_data.
Notation set_ip_destination := set_ip_data.
Definition ip_timestamp (p : ipc_port) : Z := u32 (ip_data p).
Definition set_ip_timestamp (ts : Z) (p : ipc_port) : ipc_port :=
  set_ip_data (Z.lor (clr (ip_data p) 0xffffffff) ts) p.
Notation ip_imp_task := ip_kdata.
Notation set_ip_imp_task := set_ip_kdata.

Definition ip_receiver_name (p : ipc_port) : Z := imq_receiver_name (ip_messages p).
Definition set_ip_receiver_name (v : Z) (p : ipc_port) : ipc_port :=
  set_ip_messages (set_imq_receiver_name v (ip_messages p)) p.
Definition ip_in_pset (p : ipc_port) : bool :=
  match imq_set_links (ip_messages p) with [] => false | _ => true end.
Definition imq_full (m : ipc_mqueue) : bool := imq_qlimit m <=? imq_msgcount m.
Definition imq_full_kernel (m : ipc_mqueue) : bool := MACH_PORT_QLIMIT_KERNEL <=? imq_msgcount m.
Definition ip_full (p : ipc_port) : bool := imq_full (ip_messages p).
Definition ip_full_kernel (p : ipc_port) : bool := imq_full_kernel (ip_messages p).
Definition IP_PREALLOC (p : ipc_port) : bool := has (ip_bits p) IP_BIT_PREALLOC.

(** The two unions of a request slot.  [ipr_next] and [ipr_name] are 32-bit members
    of 64-bit unions. *)
Notation ipr_soright := ipr_notify.
Notation set_ipr_soright := set_ipr_notify.
Notation ipr_size := ipr_nameword.
Notation set_ipr_size := set_ipr_nameword.
Definition ipr_next (r : ipc_port_request) : Z := u32 (ipr_notify r).
Definition set_ipr_next (v : Z) (r : ipc_port_request) : ipc_port_request :=
  set_ipr_notify (Z.lor (clr (ipr_notify r) 0xffffffff) v) r.
Definition ipr_name (r : ipc_port_request) : Z := u32 (ipr_nameword r).
Definition set_ipr_name (v : Z) (r : ipc_port_request) : ipc_port_request :=
  set_ipr_nameword (Z.lor (clr (ipr_nameword r) 0xffffffff) v) r.

Definition IPR_SOR_SPARM_MASK : Z := 1.
Definition IPR_SOR_SPREQ_MASK : Z := 2.
Definition IPR_SOR_SPBIT_MASK : Z := 3.
Definition IPR_SOR_SPARMED (sor : Z) : bool := has sor IPR_SOR_SPARM_MASK.
Definition IPR_SOR_SPREQ (sor : Z) : bool := has sor IPR_SOR_SPREQ_MASK.
Definition IPR_SOR_PORT (sor : Z) : Z := clr sor IPR_SOR_SPBIT_MASK.
Definition IPR_SOR_MAKE (p m : Z) : Z := Z.lor p m.
