(* ===== verification/IpcBits.v ===== *)
(** * Arithmetic of entry bits and port names

    [ie_bits] is three fields in a 32-bit word: generation (8 bits), type (5 bits) and
    user references (16 bits).  The lemmas of this file say how the bit operations of
    the code act on each of them, and how the macros of mach/port.h make a name of an
    index and a generation. *)

From S2P Require Import IpcTypes.

(** ** Two fields in a word *)

Lemma testbit_pair k x y m :
  0 <= k -> 0 <= y < 2 ^ k -> 0 <= m ->
  Z.testbit (x * 2 ^ k + y) m = if m <? k then Z.testbit y m else Z.testbit x (m - k).
Proof.
  intros Hk Hy Hm. rewrite Z.add_comm. destruct (Z.ltb_spec m k) as [Hlt|Hge].
  - rewrite <- (Z.mod_pow2_bits_low (y + x * 2 ^ k) k m) by done.
    rewrite Z.mod_add by lia. by rewrite Z.mod_small.
  - replace m with ((m - k) + k) at 1 by lia.
    rewrite <- Z.div_pow2_bits by lia. rewrite Z.div_add by lia.
    by rewrite Z.div_small.
Qed.

Lemma land_pair k x y x' y' :
  0 <= k -> 0 <= y < 2 ^ k -> 0 <= y' < 2 ^ k ->
  Z.land (x * 2 ^ k + y) (x' * 2 ^ k + y') = Z.land x x' * 2 ^ k + Z.land y y'.
Proof.
  intros Hk Hy Hy'. apply Z.bits_inj'. intros m Hm.
  assert (0 <= Z.land y y' < 2 ^ k).
  { split; [apply Z.land_nonneg; lia|]. rewrite <- (Z.mod_small y (2 ^ k)) by done.
    rewrite <- Z.land_ones, <- Z.land_assoc, (Z.land_comm _ y'), Z.land_assoc, Z.land_ones by done.
    apply Z.mod_pos_bound. lia. }
  rewrite Z.land_spec, !testbit_pair, !Z.land_spec by done. by case_match.
Qed.

Lemma lor_pair k x y x' y' :
  0 <= k -> 0 <= y < 2 ^ k -> 0 <= y' < 2 ^ k ->
  Z.lor (x * 2 ^ k + y) (x' * 2 ^ k + y') = Z.lor x x' * 2 ^ k + Z.lor y y'.
Proof.
  intros Hk Hy Hy'. apply Z.bits_inj'. intros m Hm.
  assert (0 <= Z.lor y y' < 2 ^ k).
  { split; [apply Z.lor_nonneg; lia|].
    rewrite <- (Z.mod_small y (2 ^ k)), <- (Z.mod_small y' (2 ^ k)) by done.
    rewrite <- !Z.land_ones, <- Z.land_lor_distr_l, Z.land_ones by done.
    apply Z.mod_pos_bound. lia. }
  rewrite Z.lor_spec, !testbit_pair, !Z.lor_spec by done. by case_match.
Qed.

(** ** Fields of a word

    The macros [IE_BITS_GEN], [IE_BITS_TYPE] and [IE_BITS_UREFS] commute with the bit
    operations, and with the addition of user references that do not overflow. *)

Lemma has_type bits mask :
  Z.land mask IE_BITS_TYPE_MASK = mask -> has bits mask = has (IE_BITS_TYPE bits) mask.
Proof.
  intros Hm. unfold has, IE_BITS_TYPE.
  by rewrite <- Z.land_assoc, (Z.land_comm IE_BITS_TYPE_MASK), Hm.
Qed.

Lemma land_clr b m k : Z.land (clr b m) k = clr (Z.land b k) m.
Proof.
  unfold clr. apply Z.bits_inj'. intros n _.
  rewrite !Z.land_spec, !Z.ldiff_spec, !Z.land_spec.
  by destruct (Z.testbit b n), (Z.testbit m n), (Z.testbit k n).
Qed.

Lemma IE_BITS_TYPE_lor a b : IE_BITS_TYPE (Z.lor a b) = Z.lor (IE_BITS_TYPE a) (IE_BITS_TYPE b).
Proof. apply Z.land_lor_distr_l. Qed.
Lemma IE_BITS_UREFS_lor a b : IE_BITS_UREFS (Z.lor a b) = Z.lor (IE_BITS_UREFS a) (IE_BITS_UREFS b).
Proof. apply Z.land_lor_distr_l. Qed.
Lemma IE_BITS_GEN_lor a b : IE_BITS_GEN (Z.lor a b) = Z.lor (IE_BITS_GEN a) (IE_BITS_GEN b).
Proof. apply Z.land_lor_distr_l. Qed.

Lemma IE_BITS_TYPE_clr a m : IE_BITS_TYPE (clr a m) = clr (IE_BITS_TYPE a) m.
Proof. apply land_clr. Qed.
Lemma IE_BITS_UREFS_clr a m : IE_BITS_UREFS (clr a m) = clr (IE_BITS_UREFS a) m.
Proof. apply land_clr. Qed.
Lemma IE_BITS_GEN_clr a m : IE_BITS_GEN (clr a m) = clr (IE_BITS_GEN a) m.
Proof. apply land_clr. Qed.

(** Clearing bits outside of a field leaves the field. *)
Lemma clr_disjoint b k m : Z.land k m = 0 -> clr (Z.land b k) m = Z.land b k.
Proof.
  intros Hd. unfold clr. apply Z.bits_inj'. intros n Hn.
  apply (f_equal (fun x => Z.testbit x n)) in Hd.
  rewrite Z.land_spec, Z.bits_0 in Hd. rewrite !Z.ldiff_spec, !Z.land_spec.
  by destruct (Z.testbit b n), (Z.testbit m n), (Z.testbit k n).
Qed.

Lemma clr_type_disjoint b m :
  Z.land IE_BITS_TYPE_MASK m = 0 -> IE_BITS_TYPE (clr b m) = IE_BITS_TYPE b.
Proof. intros. rewrite IE_BITS_TYPE_clr. by apply clr_disjoint. Qed.
Lemma clr_urefs_disjoint b m :
  Z.land IE_BITS_UREFS_MASK m = 0 -> IE_BITS_UREFS (clr b m) = IE_BITS_UREFS b.
Proof. intros. rewrite IE_BITS_UREFS_clr. by apply clr_disjoint. Qed.
Lemma clr_gen_disjoint b m :
  Z.land IE_BITS_GEN_MASK m = 0 -> IE_BITS_GEN (clr b m) = IE_BITS_GEN b.
Proof. intros. rewrite IE_BITS_GEN_clr. by apply clr_disjoint. Qed.

Lemma IE_BITS_UREFS_mod b : IE_BITS_UREFS b = b mod 2 ^ 16.
Proof. apply (Z.land_ones b 16). lia. Qed.

Lemma IE_BITS_UREFS_range b : 0 <= IE_BITS_UREFS b < 2 ^ 16.
Proof. rewrite IE_BITS_UREFS_mod. apply Z.mod_pos_bound. lia. Qed.

Lemma land_upper b m k : 0 <= k -> Z.land b (m * 2 ^ k) = Z.land (b / 2 ^ k) m * 2 ^ k.
Proof.
  intros Hk. rewrite (Z.div_mod b (2 ^ k)) at 1 by lia.
  rewrite <- (Z.add_0_r (m * 2 ^ k)), Z.mul_comm, land_pair, Z.land_0_r by
    (done || lia || (apply Z.mod_pos_bound; lia)).
  lia.
Qed.

Lemma IE_BITS_TYPE_div b : IE_BITS_TYPE b = Z.land (b / 2 ^ 16) 0x1f * 2 ^ 16.
Proof. apply (land_upper b 0x1f 16). lia. Qed.

Lemma IE_BITS_GEN_div b : IE_BITS_GEN b = (b / 2 ^ 24) mod 2 ^ 8 * 2 ^ 24.
Proof. rewrite <- (Z.land_ones _ 8) by lia. apply (land_upper b 0xff 24). lia. Qed.

Lemma IE_BITS_UREFS_u32 b : IE_BITS_UREFS (u32 b) = IE_BITS_UREFS b.
Proof. rewrite !IE_BITS_UREFS_mod. unfold u32. Z.div_mod_to_equations. lia. Qed.

Lemma land_u32 b m : Z.land m (Z.ones 32) = m -> Z.land (u32 b) m = Z.land b m.
Proof.
  intros Hm. unfold u32. rewrite <- Z.land_ones by lia.
  by rewrite <- Z.land_assoc, (Z.land_comm (Z.ones 32)), Hm.
Qed.

Lemma IE_BITS_TYPE_u32 b : IE_BITS_TYPE (u32 b) = IE_BITS_TYPE b.
Proof. by apply land_u32. Qed.
Lemma IE_BITS_GEN_u32 b : IE_BITS_GEN (u32 b) = IE_BITS_GEN b.
Proof. by apply land_u32. Qed.

Section add_urefs.
Context (b n : Z) (Hn : 0 <= IE_BITS_UREFS b + n < 2 ^ 16).

Lemma add_urefs_div : (b + n) / 2 ^ 16 = b / 2 ^ 16.
Proof. rewrite IE_BITS_UREFS_mod in Hn. Z.div_mod_to_equations. lia. Qed.

Lemma IE_BITS_UREFS_add : IE_BITS_UREFS (b + n) = IE_BITS_UREFS b + n.
Proof. rewrite !IE_BITS_UREFS_mod in *. Z.div_mod_to_equations. lia. Qed.

Lemma IE_BITS_TYPE_add : IE_BITS_TYPE (b + n) = IE_BITS_TYPE b.
Proof. by rewrite !IE_BITS_TYPE_div, add_urefs_div. Qed.

Lemma IE_BITS_GEN_add : IE_BITS_GEN (b + n) = IE_BITS_GEN b.
Proof.
  rewrite !IE_BITS_GEN_div. change (2 ^ 24) with (2 ^ 16 * 2 ^ 8).
  by rewrite <- !Z.div_div, add_urefs_div by lia.
Qed.
End add_urefs.

Lemma IE_BITS_GEN_idemp b : IE_BITS_GEN (IE_BITS_GEN b) = IE_BITS_GEN b.
Proof. unfold IE_BITS_GEN. by rewrite <- Z.land_assoc, Z.land_diag. Qed.
Lemma IE_BITS_TYPE_GEN b : IE_BITS_TYPE (IE_BITS_GEN b) = 0.
Proof.
  unfold IE_BITS_GEN, IE_BITS_TYPE. rewrite <- Z.land_assoc.
  change (Z.land IE_BITS_GEN_MASK IE_BITS_TYPE_MASK) with 0. apply Z.land_0_r.
Qed.
Lemma IE_BITS_UREFS_GEN b : IE_BITS_UREFS (IE_BITS_GEN b) = 0.
Proof.
  unfold IE_BITS_GEN, IE_BITS_UREFS. rewrite <- Z.land_assoc.
  change (Z.land IE_BITS_GEN_MASK IE_BITS_UREFS_MASK) with 0. apply Z.land_0_r.
Qed.

(** ** Names *)

Definition index_ok (i : Z) : Prop := 0 <= i < 2 ^ 24.

(** A generation as it appears in [ie_bits]: the upper eight bits of a word *)
Definition gen_ok (g : Z) : Prop := IE_BITS_GEN g = g.

Lemma gen_ok_GEN b : gen_ok (IE_BITS_GEN b).
Proof. apply IE_BITS_GEN_idemp. Qed.

Lemma gen_ok_form g : gen_ok g -> g = (g / 2 ^ 24) * 2 ^ 24 /\ 0 <= g / 2 ^ 24 < 2 ^ 8.
Proof.
  unfold gen_ok. rewrite IE_BITS_GEN_div. intros Hg.
  pose proof (Z.mod_pos_bound (g / 2 ^ 24) (2 ^ 8)). Z.div_mod_to_equations. lia.
Qed.

Lemma MACH_PORT_MAKE_form i g :
  index_ok i -> gen_ok g -> MACH_PORT_MAKE i g = i * 2 ^ 8 + g / 2 ^ 24.
Proof.
  intros Hi Hg. unfold index_ok in Hi. destruct (gen_ok_form g Hg) as [_ Hr].
  unfold MACH_PORT_MAKE, u32. rewrite Z.shiftl_mul_pow2, Z.shiftr_div_pow2 by lia.
  rewrite Z.mod_small by lia.
  rewrite <- (Z.add_0_r (i * 2 ^ 8)), <- (Z.add_0_l (g / 2 ^ 24)).
  change (0 + g / 2 ^ 24) with (0 * 2 ^ 8 + g / 2 ^ 24).
  rewrite lor_pair, Z.lor_0_r, Z.lor_0_l by lia. lia.
Qed.

Lemma MACH_PORT_GEN_form name : MACH_PORT_GEN name = (name mod 2 ^ 8) * 2 ^ 24.
Proof.
  unfold MACH_PORT_GEN, u32. change 0xff with (Z.ones 8).
  rewrite Z.land_ones, Z.shiftl_mul_pow2 by lia. apply Z.mod_small.
  pose proof (Z.mod_pos_bound name (2 ^ 8)). lia.
Qed.

Lemma MACH_PORT_GEN_ok name : gen_ok (MACH_PORT_GEN name).
Proof.
  unfold gen_ok. rewrite IE_BITS_GEN_div, MACH_PORT_GEN_form.
  rewrite Z.div_mul, Z.mod_mod by lia. done.
Qed.

Lemma MACH_PORT_INDEX_div name : MACH_PORT_INDEX name = name / 2 ^ 8.
Proof. by apply Z.shiftr_div_pow2. Qed.

Lemma index_MAKE i g : index_ok i -> gen_ok g -> MACH_PORT_INDEX (MACH_PORT_MAKE i g) = i.
Proof.
  intros Hi Hg. rewrite MACH_PORT_MAKE_form, MACH_PORT_INDEX_div by done.
  destruct (gen_ok_form g Hg) as [_ Hr]. rewrite Z.div_add_l by lia.
  rewrite Z.div_small; lia.
Qed.

Lemma gen_MAKE i g : index_ok i -> gen_ok g -> MACH_PORT_GEN (MACH_PORT_MAKE i g) = g.
Proof.
  intros Hi Hg. rewrite MACH_PORT_MAKE_form, MACH_PORT_GEN_form by done.
  destruct (gen_ok_form g Hg) as [Hf Hr].
  rewrite Z.add_comm, Z.mod_add, Z.mod_small by lia. done.
Qed.

Lemma MAKE_index_gen name :
  0 <= name < 2 ^ 32 -> MACH_PORT_MAKE (MACH_PORT_INDEX name) (MACH_PORT_GEN name) = name.
Proof.
  intros Hn. rewrite MACH_PORT_MAKE_form.
  - rewrite MACH_PORT_INDEX_div, MACH_PORT_GEN_form, Z.div_mul by lia.
    Z.div_mod_to_equations. lia.
  - unfold index_ok. rewrite MACH_PORT_INDEX_div. Z.div_mod_to_equations. lia.
  - apply MACH_PORT_GEN_ok.
Qed.

Lemma MAKE_range i g : index_ok i -> gen_ok g -> 0 <= MACH_PORT_MAKE i g < 2 ^ 32.
Proof.
  intros Hi Hg. rewrite MACH_PORT_MAKE_form by done. unfold index_ok in Hi.
  destruct (gen_ok_form g Hg). lia.
Qed.

(** The names of a table that is small enough are neither null nor dead. *)
Lemma MAKE_valid i g :
  0 < i < MACH_PORT_INDEX MACH_PORT_DEAD -> gen_ok g ->
  MACH_PORT_VALID (MACH_PORT_MAKE i g) = true.
Proof.
  change (MACH_PORT_INDEX MACH_PORT_DEAD) with 0xffffff. intros Hi Hg.
  rewrite MACH_PORT_MAKE_form by (done || (unfold index_ok; lia)).
  destruct (gen_ok_form g Hg) as [_ Hr]. unfold MACH_PORT_VALID, MACH_PORT_NULL, MACH_PORT_DEAD.
  rewrite !(proj2 (Z.eqb_neq _ _)) by lia. done.
Qed.

(** ** Generations *)

Lemma NEW_GEN_form b : IE_BITS_NEW_GEN b = ((b / 2 ^ 24 + 4) mod 2 ^ 8) * 2 ^ 24.
Proof.
  unfold IE_BITS_NEW_GEN. change (Z.land (u32 (b + IE_BITS_GEN_ONE)) IE_BITS_GEN_MASK)
    with (IE_BITS_GEN (u32 (b + IE_BITS_GEN_ONE))).
  rewrite IE_BITS_GEN_u32, IE_BITS_GEN_div. do 2 f_equal.
  change IE_BITS_GEN_ONE with (4 * 2 ^ 24). by rewrite Z.div_add by lia.
Qed.

Lemma NEW_GEN_ok b : gen_ok (IE_BITS_NEW_GEN b).
Proof. apply gen_ok_GEN. Qed.

Lemma NEW_GEN_iter n b :
  Nat.iter n IE_BITS_NEW_GEN (IE_BITS_GEN b) =
  ((b / 2 ^ 24 + 4 * Z.of_nat n) mod 2 ^ 8) * 2 ^ 24.
Proof.
  induction n as [|n IH]; simpl Nat.iter.
  - rewrite IE_BITS_GEN_div. do 2 f_equal. lia.
  - rewrite IH, NEW_GEN_form, Z.div_mul, Zplus_mod_idemp_l by lia. do 2 f_equal. lia.
Qed.
