(* ===== verification/IpcTable.v ===== *)
(** * The table sizes (osfmk/ipc/ipc_table.c)

    [ipc_table_init] computes two arrays of table sizes at boot: the sizes an entry
    table grows through, and those of a request table.  The file proves the contract that
    ipc_table.h states for them, for every number of configured steps. *)

From S2P Require Import IpcTypes.

(** ** Translation *)

Definition PAGE_MAX_SIZE : Z := 4096.
Definition sizeof_ipc_entry : Z := 24.
Definition sizeof_ipc_port_request : Z := 16.

(** The array is filled in order: it is the list of the elements written so far, and
    [index] is its length. *)
Definition fill_one (minsize elemsize size : Z) (its : list Z) : list Z :=
  if minsize <=? size then its ++ [u32 (size / elemsize)] else its.

(** [for (index = 0, size = 1; (index < num) && (size < PAGE_MAX_SIZE); size <<= 1)];
    [size] has at most 64 values. *)
Fixpoint fill_powers (fuel : nat) (num : nat) (minsize elemsize size : Z) (its : list Z)
    : res (list Z * Z) :=
  if (length its <? num)%nat && (size <? PAGE_MAX_SIZE) then
    match fuel with
    | O => Fail FFuel
    | S fuel => fill_powers fuel num minsize elemsize (u64 (Z.shiftl size 1))
                  (fill_one minsize elemsize size its)
    end
  else Ok (its, size).

(** [for (period = 0; (period < 15) && (index < num); period++, size += incrsize)] *)
Fixpoint fill_period (periods : nat) (num : nat) (minsize elemsize incrsize size : Z)
    (its : list Z) : list Z * Z :=
  match periods with
  | O => (its, size)
  | S periods =>
    if (length its <? num)%nat then
      fill_period periods num minsize elemsize incrsize (u64 (size + incrsize))
        (fill_one minsize elemsize size its)
    else (its, size)
  end.

(** [for (incrsize = PAGE_MAX_SIZE; index < num;)] *)
Fixpoint fill_pages (fuel : nat) (num : nat) (minsize elemsize incrsize size : Z)
    (its : list Z) : res (list Z) :=
  if (length its <? num)%nat then
    match fuel with
    | O => Fail FFuel
    | S fuel =>
      let '(its, size) := fill_period 15 num minsize elemsize incrsize size its in
      let incrsize :=
        if incrsize <? Z.shiftl PAGE_MAX_SIZE 3 then u64 (Z.shiftl incrsize 1) else incrsize in
      fill_pages fuel num minsize elemsize incrsize size its
    end
  else Ok its.

Definition ipc_table_fill (num : nat) (min elemsize : Z) : res (list Z) :=
  let minsize := u64 (min * elemsize) in
  '(its, size) ← fill_powers 64 num minsize elemsize 1 [];
  fill_pages (S num) num minsize elemsize PAGE_MAX_SIZE size its.

(** [ipc_table_entries] and [ipc_table_requests], for
    [CONFIG_IPC_TABLE_ENTRIES_STEPS = steps]; both arrays are allocated. *)
Definition ipc_table_requests_size : nat := 64.

Definition ipc_table_init (steps : nat) : res (list Z * list Z) :=
  entries ← ipc_table_fill (steps - 1) 16 sizeof_ipc_entry;
  last ← rderef (entries !! (steps - 2)%nat);
  requests ← ipc_table_fill (ipc_table_requests_size - 1) 2 sizeof_ipc_port_request;
  Ok (entries ++ [last], requests ++ [0]).

(** ** The contract *)

Definition increasing (l : list Z) : Prop :=
  forall i j x y, (i < j)%nat -> l !! i = Some x -> l !! j = Some y -> x < y.

Lemma increasing_snoc l y : increasing l -> (forall x, x ∈ l -> x < y) -> increasing (l ++ [y]).
Proof.
  intros Hl Hy i j a b Hij Ha Hb.
  apply lookup_app_Some in Ha as [Ha|[Hi Ha]], Hb as [Hb|[Hj Hb]].
  - by apply (Hl i j).
  - apply list_lookup_singleton_Some in Hb as [_ <-]. apply Hy. by apply list_elem_of_lookup_2 in Ha.
  - apply lookup_lt_Some in Hb. lia.
  - apply list_lookup_singleton_Some in Ha as [? _], Hb as [? _]. lia.
Qed.

Section fill.
Context (num : nat) (minsize elemsize : Z).
Context (Helem : 0 < elemsize <= minsize) (Hpage : minsize <= PAGE_MAX_SIZE).
Context (Hnum : (num <= 4096)%nat).

(** The sizes found so far are increasing, and less than the next one. *)
Record fill_inv (its : list Z) (size : Z) : Prop := {
  fi_len : (length its <= num)%nat;
  fi_inc : increasing its;
  fi_next : forall x, x ∈ its -> 0 < x < size / elemsize;
  fi_size : 0 < size <= 8192 + 65536 * Z.of_nat (length its);
}.

Lemma fill_one_inv its size size' :
  fill_inv its size -> (length its < num)%nat -> size <= size' ->
  (minsize <= size -> size + elemsize <= size') ->
  size' <= 8192 + 65536 * Z.of_nat (length (fill_one minsize elemsize size its)) ->
  fill_inv (fill_one minsize elemsize size its) size'.
Proof.
  intros [Hl Hi Hn Hs] Hlt Hmono Hgrow Hb.
  assert (size / elemsize <= size' / elemsize) by (apply Z.div_le_mono; lia).
  unfold fill_one in *. destruct (Z.leb_spec minsize size) as [Hge|Hsm].
  - assert (Hdiv : size / elemsize + 1 <= size' / elemsize).
    { rewrite <- (Z.div_add _ 1) by lia. apply Z.div_le_mono; lia. }
    assert (1 <= size / elemsize) by (apply Z.div_le_lower_bound; lia).
    assert (u32 (size / elemsize) = size / elemsize) as ->.
    { unfold u32. apply Z.mod_small. split; [lia|].
      apply (Z.le_lt_trans _ size); [apply Z.div_le_upper_bound; nia|lia]. }
    rewrite length_app in Hb. simpl in Hb.
    split; [rewrite length_app; simpl; lia| | |rewrite length_app; simpl; lia].
    + apply increasing_snoc; [done|]. intros x Hx. apply Hn in Hx. lia.
    + intros x [Hx| ->%list_elem_of_singleton]%elem_of_app; [apply Hn in Hx; lia|lia].
  - split; [lia|done| |lia]. intros x Hx%Hn. lia.
Qed.

Lemma fill_powers_ok fuel its size :
  fill_inv its size -> size < 8192 -> 4096 <= size * 2 ^ Z.of_nat fuel ->
  exists its' size', fill_powers fuel num minsize elemsize size its = Ok (its', size') /\
    fill_inv its' size' /\ (length its' = num \/ 4096 <= size').
Proof.
  revert its size. induction fuel as [|fuel IH]; intros its size HI Hsz Hf; simpl;
    destruct ((length its <? num)%nat && (size <? PAGE_MAX_SIZE)) eqn:Hc.
  - apply andb_prop in Hc as [_ Hc]. unfold PAGE_MAX_SIZE in *. lia.
  - exists its, size. split_and!; [done..|]. destruct HI.
    apply andb_false_iff in Hc as [?%Nat.ltb_ge|?%Z.ltb_ge]; [left; lia|by right].
  - apply andb_prop in Hc as [Hlt%Nat.ltb_lt Hp%Z.ltb_lt]. unfold PAGE_MAX_SIZE in *.
    destruct HI as [? ? ? [Hpos ?]].
    assert (u64 (Z.shiftl size 1) = 2 * size) as ->.
    { unfold u64. rewrite Z.shiftl_mul_pow2 by lia. rewrite Z.mod_small; lia. }
    apply IH; [|lia|rewrite Nat2Z.inj_succ, Z.pow_succ_r in Hf; lia].
    apply (fill_one_inv its size); [by split|lia..].
  - exists its, size. split_and!; [done..|]. destruct HI.
    apply andb_false_iff in Hc as [?%Nat.ltb_ge|?%Z.ltb_ge]; [left; lia|by right].
Qed.

Lemma fill_period_ok periods incrsize its size :
  fill_inv its size -> 4096 <= size -> 4096 <= incrsize <= 65536 ->
  exists its' size', fill_period periods num minsize elemsize incrsize size its = (its', size') /\
    fill_inv its' size' /\ 4096 <= size' /\ (length its <= length its')%nat /\
    ((0 < periods)%nat -> (length its < num)%nat -> (length its < length its')%nat).
Proof.
  revert its size. induction periods as [|periods IH]; intros its size HI Hsz Hinc; simpl.
  { exists its, size. split_and!; [done..|lia|lia]. }
  destruct (Nat.ltb_spec (length its) num) as [Hlt|Hge].
  2:{ exists its, size. split_and!; [done..|lia|lia]. }
  assert (Hlen : length (fill_one minsize elemsize size its) = S (length its)).
  { unfold fill_one, PAGE_MAX_SIZE in *. rewrite (proj2 (Z.leb_le _ _)) by lia.
    rewrite length_app. simpl. lia. }
  assert (u64 (size + incrsize) = size + incrsize) as ->.
  { unfold u64. apply Z.mod_small. pose proof (fi_size _ _ HI). lia. }
  destruct (IH (fill_one minsize elemsize size its) (size + incrsize))
    as (its' & size' & -> & HI' & ? & ? & ?); [|lia|lia|].
  - unfold PAGE_MAX_SIZE in *. pose proof (fi_size _ _ HI).
    apply (fill_one_inv its size); [done|lia..].
  - exists its', size'. split_and!; [done..|lia|lia].
Qed.

Lemma fill_pages_ok fuel incrsize its size :
  fill_inv its size -> length its = num \/ 4096 <= size -> 4096 <= incrsize <= 65536 ->
  (num - length its < fuel)%nat ->
  exists its' size', fill_pages fuel num minsize elemsize incrsize size its = Ok its' /\
    fill_inv its' size' /\ length its' = num.
Proof.
  revert incrsize its size. induction fuel as [|fuel IH]; intros incrsize its size HI Hsz Hinc Hf;
    [lia|]. cbn [fill_pages]. pose proof (fi_len _ _ HI).
  destruct (Nat.ltb_spec (length its) num) as [Hlt|Hge]; [|exists its, size; split_and!; [done..|lia]].
  destruct (fill_period_ok 15 incrsize its size) as (its1 & size1 & -> & HI1 & ? & ? & Hgrow);
    [done|lia|lia|].
  apply (IH _ _ size1); [done|by right| |lia].
  unfold PAGE_MAX_SIZE. change (Z.shiftl 4096 3) with 32768.
  destruct (Z.ltb_spec incrsize 32768); [|lia].
  unfold u64. rewrite Z.shiftl_mul_pow2 by lia. rewrite Z.mod_small; lia.
Qed.

Lemma fill_ok :
  exists its size, ('(its, size) ← fill_powers 64 num minsize elemsize 1 [];
                fill_pages (S num) num minsize elemsize PAGE_MAX_SIZE size its) = Ok its /\
    fill_inv its size /\ length its = num.
Proof.
  destruct (fill_powers_ok 64 [] 1) as (its & size & -> & HI & Hsz); [|lia|done|].
  { split; simpl; [lia| |intros x Hx; by apply elem_of_nil in Hx|lia].
    intros i j x y _ Hx. done. }
  apply (fill_pages_ok (S num) PAGE_MAX_SIZE its size); [done..|unfold PAGE_MAX_SIZE; lia|lia].
Qed.
End fill.

Lemma ipc_table_fill_ok num min elemsize :
  0 < min -> 0 < elemsize -> min * elemsize <= PAGE_MAX_SIZE -> (num <= 4096)%nat ->
  exists its, ipc_table_fill num min elemsize = Ok its /\ length its = num /\
    increasing its /\ forall x, x ∈ its -> 0 < x < (2 ^ 28 + 2 ^ 13) / elemsize.
Proof.
  intros Hm He Hp Hn. unfold ipc_table_fill.
  assert (u64 (min * elemsize) = min * elemsize) as ->.
  { unfold u64, PAGE_MAX_SIZE in *. rewrite Z.mod_small; [done|nia]. }
  destruct (fill_ok num (min * elemsize) elemsize) as (its & size & -> & HI & Hl); [nia|done..|].
  exists its. split_and!; [done..|by destruct HI|]. intros x Hx.
  destruct HI as [_ _ Hnext Hsize]. apply Hnext in Hx.
  assert (size / elemsize <= (2 ^ 28 + 2 ^ 13) / elemsize) by (apply Z.div_le_mono; lia). lia.
Qed.

(** The entry sizes: increasing but for the last two, and small enough for names *)
Record sizes_ok (entries : list Z) : Prop := {
  so_split : exists front last, entries = front ++ [last] /\ increasing front /\
    front !! (length front - 1)%nat = Some last;
  so_range : forall x, x ∈ entries -> 0 < x <= MACH_PORT_INDEX MACH_PORT_DEAD;
}.

Lemma ipc_table_init_ok (steps : nat) :
  (2 <= steps <= 4097)%nat ->
  exists front requests last, ipc_table_init steps = Ok (front ++ [last], requests ++ [0]) /\
    (length front = steps - 1)%nat /\ sizes_ok (front ++ [last]) /\ increasing front /\
    front !! (steps - 2)%nat = Some last /\
    (length requests = ipc_table_requests_size - 1)%nat /\ increasing requests /\
    forall x, x ∈ requests -> 0 < x.
Proof.
  intros Hs. unfold ipc_table_init.
  destruct (ipc_table_fill_ok (steps - 1) 16 sizeof_ipc_entry) as (es & -> & Hl & Hi & Hb);
    [done..|lia|].
  destruct (ipc_table_fill_ok (ipc_table_requests_size - 1) 2 sizeof_ipc_port_request)
    as (rs & Hr & Hlr & Hir & Hbr); [done..|unfold ipc_table_requests_size; lia|].
  destruct (lookup_lt_is_Some_2 es (steps - 2)%nat) as [last Hlast]; [lia|].
  exists es, rs, last. cbn [mbind res_bind]. rewrite Hlast. cbn [rderef mbind res_bind].
  rewrite Hr. cbn [mbind res_bind]. split; [done|]. split; [assumption|].
  split; [split|do 4 (split; [assumption || reflexivity|])].
  - exists es, last. split; [done|]. split; [assumption|]. rewrite Hl. by replace (steps - 1 - 1)%nat
      with (steps - 2)%nat by lia.
  - change (MACH_PORT_INDEX MACH_PORT_DEAD) with 0xffffff.
    assert (Hall : forall x, x ∈ es -> 0 < x <= 0xffffff).
    { intros x [? Hx]%Hb. assert ((2 ^ 28 + 2 ^ 13) / sizeof_ipc_entry = 11185152) by done. lia. }
    intros x [Hx| ->%list_elem_of_singleton]%elem_of_app; [by apply Hall|].
    apply Hall. by apply list_elem_of_lookup_2 in Hlast.
  - by intros x [? _]%Hbr.
Qed.

(** C26 The arrays of table sizes meet the contract of ipc_table.h, for every configured
    number of steps from 2 to 4097 (the kernels are configured with 64 or 256): the entry
    sizes are strictly increasing but for the last two, which are equal, and none exceeds
    [MACH_PORT_INDEX(MACH_PORT_DEAD)]; the request sizes are strictly increasing and end with
    a zero. *)
Theorem ipc_table_init_contract (steps : nat) :
  (2 <= steps <= 4097)%nat ->
  exists entries requests last, ipc_table_init steps = Ok (entries ++ [last], requests ++ [0]) /\
    (length entries = steps - 1)%nat /\ entries !! (steps - 2)%nat = Some last /\
    increasing entries /\
    (forall x, x ∈ entries ++ [last] -> 0 < x <= MACH_PORT_INDEX MACH_PORT_DEAD) /\
    (length requests = ipc_table_requests_size - 1)%nat /\ increasing requests /\
    forall x, x ∈ requests -> 0 < x.
Proof.
  intros Hs. destruct (ipc_table_init_ok steps Hs)
    as (front & requests & last & -> & ? & [_ ?] & ? & ? & ? & ? & ?).
  exists front, requests, last. repeat (split; [assumption || reflexivity|]). assumption.
Qed.

Lemma ipc_table_init_witness :
  exists entries requests, ipc_table_init 256 = Ok (entries, requests) /\
    entries !! 255%nat = Some 299349 /\ forall x, x ∈ entries -> 0 < x <= MACH_PORT_INDEX MACH_PORT_DEAD.
Proof.
  destruct (ipc_table_init_contract 256) as (es & rs & l & Hrun & _ & _ & _ & Hall & _); [lia|].
  exists (es ++ [l]), (rs ++ [0]). split; [exact Hrun|]. split; [|exact Hall].
  assert (Hc : match ipc_table_init 256 with
               | Ok (entries, _) => entries !! 255%nat | Fail _ => None end = Some 299349)
    by (vm_compute; reflexivity).
  rewrite Hrun in Hc. exact Hc.
Defined.
