(* ===== verification/IpcHash.v ===== *)
(** * The reverse hash table of a space (osfmk/ipc/ipc_hash.c)

    The [ie_index] fields of a space's entry table form an open-addressing hash table
    with linear probing that finds, for an object, the index of the entry holding a
    pure send right for it.  This file translates its three operations and proves that
    they implement a finite set of indices: [hash_repr t H] says that table [t]
    represents the set [H]. *)

From S2P Require Import IpcTypes.

(** ** Translation *)

Definition IH_TABLE_HASH (obj size : Z) : Z := u32 (Z.shiftr obj 6 mod size).

(** [if (++h == size) h = 0;] *)
Definition next_slot (size h : Z) : Z := if h + 1 =? size then 0 else h + 1.

Definition table_get (table : list ipc_entry) (i : Z) : res ipc_entry :=
  if i <? 0 then Fail FBadAccess else rderef (table !! Z.to_nat i).

Definition table_update (f : ipc_entry -> ipc_entry) (table : list ipc_entry) (i : Z)
    : res (list ipc_entry) :=
  e ← table_get table i; Ok (<[Z.to_nat i := f e]> table).

Fixpoint hash_lookup_loop (fuel : nat) (table : list ipc_entry) (size obj hindex : Z)
    : res (option (Z * Z)) :=
  match fuel with
  | O => Fail FFuel
  | S fuel =>
    slot ← table_get table hindex;
    let index := ie_index slot in
    if index =? 0 then Ok None else
    _ ← rassert (index <? size);
    entry ← table_get table index;
    if ie_object entry =? obj
    then Ok (Some (MACH_PORT_MAKE index (IE_BITS_GEN (ie_bits entry)), index))
    else hash_lookup_loop fuel table size obj (next_slot size hindex)
  end.

(** The result pairs the name with the entry, given by its index. *)
Definition ipc_hash_table_lookup (table : list ipc_entry) (size obj : Z)
    : res (option (Z * Z)) :=
  if obj =? IO_NULL then Ok None
  else hash_lookup_loop (Z.to_nat size) table size obj (IH_TABLE_HASH obj size).

Fixpoint hash_insert_loop (fuel : nat) (table : list ipc_entry) (size hindex : Z) : res Z :=
  match fuel with
  | O => Fail FFuel
  | S fuel =>
    slot ← table_get table hindex;
    if ie_index slot =? 0 then Ok hindex
    else hash_insert_loop fuel table size (next_slot size hindex)
  end.

Definition ipc_hash_table_insert (table : list ipc_entry) (size obj index entry : Z)
    : res (list ipc_entry) :=
  _ ← rassert (negb (index =? 0));
  _ ← rassert (negb (obj =? IO_NULL));
  let hindex := IH_TABLE_HASH obj size in
  _ ← rassert (entry =? index);
  e ← table_get table entry;
  _ ← rassert (ie_object e =? obj);
  hindex ← hash_insert_loop (Z.to_nat size) table size hindex;
  table_update (set_ie_index index) table hindex.

Fixpoint hash_find_loop (fuel : nat) (table : list ipc_entry) (size index hindex : Z) : res Z :=
  match fuel with
  | O => Fail FFuel
  | S fuel =>
    slot ← table_get table hindex;
    if ie_index slot =? index then Ok hindex
    else hash_find_loop fuel table size index (next_slot size hindex)
  end.

(** The inner [for (;;)] of the deletion: advance [dindex] to the end of the clump or
    to an object displaced past the hole [hindex].  Returns [(index, dindex)]. *)
Fixpoint hash_delete_scan (fuel : nat) (table : list ipc_entry) (size hindex dindex : Z)
    : res (Z * Z) :=
  match fuel with
  | O => Fail FFuel
  | S fuel =>
    let dindex := next_slot size dindex in
    _ ← rassert (negb (dindex =? hindex));
    slot ← table_get table dindex;
    let index := ie_index slot in
    if index =? 0 then Ok (index, dindex) else
    te ← table_get table index;
    let tobj := ie_object te in
    _ ← rassert (negb (tobj =? IO_NULL));
    let tindex := IH_TABLE_HASH tobj size in
    if (if dindex <? hindex
        then (dindex <? tindex) && (tindex <=? hindex)
        else (dindex <? tindex) || (tindex <=? hindex))
    then Ok (index, dindex)
    else hash_delete_scan fuel table size hindex dindex
  end.

(** The outer [for (dindex = hindex; index != 0; hindex = dindex)] *)
Fixpoint hash_delete_loop (fuel : nat) (table : list ipc_entry) (size hindex dindex index : Z)
    : res (list ipc_entry) :=
  if index =? 0 then Ok table else
  match fuel with
  | O => Fail FFuel
  | S fuel =>
    '(index, dindex) ← hash_delete_scan (Z.to_nat size) table size hindex dindex;
    table ← table_update (set_ie_index index) table hindex;
    hash_delete_loop fuel table size dindex dindex index
  end.

Definition ipc_hash_table_delete (table : list ipc_entry) (size obj index entry : Z)
    : res (list ipc_entry) :=
  _ ← rassert (negb (index =? MACH_PORT_NULL));
  _ ← rassert (negb (obj =? IO_NULL));
  let hindex := IH_TABLE_HASH obj size in
  _ ← rassert (entry =? index);
  e ← table_get table entry;
  _ ← rassert (ie_object e =? obj);
  hindex ← hash_find_loop (Z.to_nat size) table size index hindex;
  hash_delete_loop (Z.to_nat size) table size hindex hindex index.

Definition ipc_hash_lookup (space : ipc_space) (obj : Z) : res (option (Z * Z)) :=
  ipc_hash_table_lookup (is_table space) (is_table_size space) obj.

Definition ipc_hash_insert (space : ipc_space) (obj name entry : Z) : res ipc_space :=
  let index := MACH_PORT_INDEX name in
  t ← ipc_hash_table_insert (is_table space) (is_table_size space) obj index entry;
  Ok (set_is_table t space).

Definition ipc_hash_delete (space : ipc_space) (obj name entry : Z) : res ipc_space :=
  let index := MACH_PORT_INDEX name in
  t ← ipc_hash_table_delete (is_table space) (is_table_size space) obj index entry;
  Ok (set_is_table t space).

(** ** Probing as arithmetic on a ring of [n] slots *)

(** [k] is met when probing from [a] before [b] is reached. *)
Definition cyc (a k b : Z) : Prop := (a <= k < b) \/ (b < a /\ (a <= k \/ k < b)).

(** The number of probes from [h] to [z] *)
Definition ring_dist (n h z : Z) : Z := if h <=? z then z - h else n - h + z.

(** [slot h] is the index stored in slot [h], [home i] the slot that index [i] hashes
    to; every slot a probe for a member passes is in use. *)
Record ring_inv (n : Z) (slot home : Z -> Z) (H : gset Z) : Prop := {
  ri_slot : forall h, 0 <= h < n -> slot h = 0 \/ slot h ∈ H;
  ri_mem : forall i, i ∈ H -> 0 < i < n /\ exists h, 0 <= h < n /\ slot h = i;
  ri_inj : forall h k, 0 <= h < n -> 0 <= k < n -> slot h <> 0 -> slot h = slot k -> h = k;
  ri_home : forall i, i ∈ H -> 0 <= home i < n;
  ri_path : forall h k, 0 <= h < n -> 0 <= k < n -> slot h <> 0 ->
    cyc (home (slot h)) k h -> slot k <> 0;
}.

(** The same with a hole at [h]: slot [h] is disregarded, and probes may meet it. *)
Record ring_hole (n : Z) (slot home : Z -> Z) (h : Z) (H : gset Z) : Prop := {
  rh_slot : forall k, 0 <= k < n -> k <> h -> slot k = 0 \/ slot k ∈ H;
  rh_mem : forall i, i ∈ H -> 0 < i < n /\ exists k, 0 <= k < n /\ k <> h /\ slot k = i;
  rh_inj : forall k m, 0 <= k < n -> 0 <= m < n -> k <> h -> m <> h ->
    slot k <> 0 -> slot k = slot m -> k = m;
  rh_home : forall i, i ∈ H -> 0 <= home i < n;
  rh_path : forall k m, 0 <= k < n -> 0 <= m < n -> k <> h -> slot k <> 0 ->
    cyc (home (slot k)) m k -> m = h \/ slot m <> 0;
}.

Definition upd (f : Z -> Z) (a v : Z) : Z -> Z := fun x => if x =? a then v else f x.

Lemma upd_eq f a v : upd f a v a = v.
Proof. unfold upd. by rewrite Z.eqb_refl. Qed.

Lemma upd_ne f a v x : x <> a -> upd f a v x = f x.
Proof. intros Hne. unfold upd. by rewrite (proj2 (Z.eqb_neq _ _) Hne). Qed.

Ltac ring_case x a := destruct (decide (x = a)) as [->|?];
  [rewrite ?upd_eq in * | rewrite ?(upd_ne _ a _ x) in * by done].

Lemma next_slot_range n h : 0 <= h < n -> 0 <= next_slot n h < n.
Proof. intros. unfold next_slot. destruct (Z.eqb_spec (h + 1) n); lia. Qed.

Lemma ring_dist_next n h z :
  0 <= h < n -> 0 <= z < n -> h <> z -> ring_dist n (next_slot n h) z = ring_dist n h z - 1.
Proof.
  intros. unfold ring_dist, next_slot.
  destruct (Z.eqb_spec (h + 1) n), (Z.leb_spec h z); try case_match; bool_to_prop; lia.
Qed.

Lemma ring_dist_range n h z : 0 <= h < n -> 0 <= z < n -> 0 <= ring_dist n h z < n.
Proof. intros. unfold ring_dist. case_match; bool_to_prop; lia. Qed.

Lemma cyc_next n a h k :
  0 <= a < n -> 0 <= h < n -> 0 <= k < n -> next_slot n h <> a ->
  cyc a k (next_slot n h) -> cyc a k h \/ k = h.
Proof. unfold cyc, next_slot. case_match; bool_to_prop; lia. Qed.

(** A ring of [n] slots holding distinct indices of [1..n-1] has a free slot. *)
Lemma ring_free_slot n slot home H :
  0 < n -> ring_inv n slot home H -> exists z, 0 <= z < n /\ slot z = 0.
Proof.
  intros Hn HR.
  destruct (decide (Exists (fun z => slot z = 0) (seqZ 0 n))) as [He|Hne].
  { apply list.Exists_exists in He as (z & Hz & Hs). apply elem_of_seqZ in Hz.
    exists z. split; [lia|done]. }
  exfalso. apply not_Exists_Forall in Hne; [|apply _].
  rewrite list.Forall_forall in Hne. setoid_rewrite elem_of_seqZ in Hne.
  assert (Hnd : NoDup (slot <$> seqZ 0 n)).
  { apply NoDup_fmap_2_strong; [|apply NoDup_seqZ].
    intros x y Hx Hy Heq. apply elem_of_seqZ in Hx, Hy.
    apply (ri_inj _ _ _ _ HR); [lia..| |done]. apply Hne. lia. }
  assert (Hsub : forall x, x ∈ slot <$> seqZ 0 n -> x ∈ seqZ 1 (n - 1)).
  { intros x Hx. apply list_elem_of_fmap in Hx as (h & -> & Hh). apply elem_of_seqZ in Hh.
    destruct (ri_slot _ _ _ _ HR h) as [Hz|Hm]; [lia| |].
    - exfalso. apply (Hne h); [lia|done].
    - apply (ri_mem _ _ _ _ HR) in Hm as [? _]. apply elem_of_seqZ. lia. }
  apply NoDup_submseteq in Hsub; [|done].
  apply submseteq_length in Hsub. rewrite length_fmap, !length_seqZ in Hsub. lia.
Qed.

(** Filling the first free slot of the probe sequence of [i] adds [i]. *)
Lemma ring_insert n slot home H i h0 :
  ring_inv n slot home H -> 0 < i < n -> i ∉ H -> 0 <= home i < n -> 0 <= h0 < n ->
  slot h0 = 0 -> (forall k, 0 <= k < n -> cyc (home i) k h0 -> slot k <> 0) ->
  ring_inv n (upd slot h0 i) home ({[i]} ∪ H).
Proof.
  intros HR Hi Hnew Hhome Hh0 Hfree Hprobe. split.
  - intros h Hh. ring_case h h0; [right; apply elem_of_union_l, elem_of_singleton_2; done|].
    destruct (ri_slot _ _ _ _ HR h Hh); [by left|right; by apply elem_of_union_r].
  - intros j [->%elem_of_singleton|Hj]%elem_of_union.
    { split; [done|]. exists h0. by rewrite upd_eq. }
    apply (ri_mem _ _ _ _ HR) in Hj as [Hr (h & Hh & Hs)]. split; [done|].
    exists h. split; [done|]. rewrite upd_ne; [done|]. intros ->. lia.
  - intros h k Hh Hk. ring_case h h0; ring_case k h0; [done| | |].
    + intros _ ->. exfalso. destruct (ri_slot _ _ _ _ HR k Hk); [lia|done].
    + intros _ Heq. exfalso. destruct (ri_slot _ _ _ _ HR h Hh); [lia|congruence].
    + apply (ri_inj _ _ _ _ HR); done.
  - intros j [->%elem_of_singleton|Hj]%elem_of_union; [done|]. by apply (ri_home _ _ _ _ HR).
  - intros h k Hh Hk. ring_case k h0; [lia|].
    ring_case h h0; [intros _; by apply Hprobe|]. apply (ri_path _ _ _ _ HR); done.
Qed.

(** Forgetting member [i] leaves a hole at its slot. *)
Lemma ring_open_hole n slot home H i h :
  ring_inv n slot home H -> 0 <= h < n -> slot h = i -> i ∈ H ->
  ring_hole n slot home h (H ∖ {[i]}).
Proof.
  intros HR Hh Hs Hi. pose proof (ri_mem _ _ _ _ HR i Hi) as [Hir _]. split.
  - intros k Hk Hne. destruct (ri_slot _ _ _ _ HR k Hk) as [?|Hm]; [by left|right].
    apply elem_of_difference. split; [done|]. intros Heq%elem_of_singleton.
    apply Hne, (ri_inj _ _ _ _ HR); [done..|lia|congruence].
  - intros j [Hj Hji]%elem_of_difference.
    apply (ri_mem _ _ _ _ HR) in Hj as [Hr (k & Hk & Hsk)]. split; [done|].
    exists k. split_and!; [lia..| |done]. intros ->. set_solver.
  - intros k m Hk Hm _ _. by apply (ri_inj _ _ _ _ HR).
  - intros j [Hj _]%elem_of_difference. by apply (ri_home _ _ _ _ HR).
  - intros k m Hk Hm Hne Hnz Hc. right. by apply (ri_path _ _ _ _ HR k m).
Qed.

(** A displaced index is moved into the hole, and leaves a hole behind. *)
Lemma ring_move_hole n slot home H h d :
  ring_hole n slot home h H -> 0 <= h < n -> 0 <= d < n -> d <> h -> slot d <> 0 ->
  cyc (home (slot d)) h d ->
  ring_hole n (upd slot h (slot d)) home d H.
Proof.
  intros HR Hh Hd Hdh Hnz Hc.
  assert (Hmem : slot d ∈ H) by (by destruct (rh_slot _ _ _ _ _ HR d)).
  pose proof (rh_home _ _ _ _ _ HR _ Hmem) as Hhome. split.
  - intros k Hk Hne. ring_case k h; [by right|]. by apply (rh_slot _ _ _ _ _ HR).
  - intros j Hj. apply (rh_mem _ _ _ _ _ HR) in Hj as [Hr (k & Hk & Hkh & Hs)].
    split; [done|]. destruct (decide (k = d)) as [->|].
    + exists h. rewrite upd_eq. done.
    + exists k. by rewrite upd_ne.
  - intros k m Hk Hm Hkd Hmd. ring_case k h; ring_case m h; [done| | |].
    + intros _ Heq. exfalso. apply Hmd. symmetry. by apply (rh_inj _ _ _ _ _ HR).
    + intros ? Heq. exfalso. apply Hkd. by apply (rh_inj _ _ _ _ _ HR).
    + by apply (rh_inj _ _ _ _ _ HR).
  - apply (rh_home _ _ _ _ _ HR).
  - intros k m Hk Hm Hkd. ring_case k h; ring_case m h.
    + intros _. unfold cyc. lia.
    + intros _ Hcm. right.
      destruct (rh_path _ _ _ _ _ HR d m); [done..| |done|done].
      unfold cyc in *. lia.
    + intros. by right.
    + intros Hnzk Hcm. right. by destruct (rh_path _ _ _ _ _ HR k m).
Qed.

(** At the end of the clump, with no index displaced past the hole, the hole closes. *)
Lemma ring_close_hole n slot home H h d :
  ring_hole n slot home h H -> 0 <= h < n -> 0 <= d < n -> d <> h -> slot d = 0 ->
  (forall m, 0 <= m < n -> m <> h -> cyc h m d -> ~ cyc (home (slot m)) h m) ->
  ring_inv n (upd slot h 0) home H.
Proof.
  intros HR Hh Hd Hdh Hz Hscan. split.
  - intros k Hk. ring_case k h; [by left|]. by apply (rh_slot _ _ _ _ _ HR).
  - intros j Hj. apply (rh_mem _ _ _ _ _ HR) in Hj as [Hr (k & Hk & Hkh & Hs)].
    split; [done|]. exists k. by rewrite upd_ne.
  - intros k m Hk Hm. ring_case k h; [done|]. ring_case m h; [done|].
    by apply (rh_inj _ _ _ _ _ HR).
  - apply (rh_home _ _ _ _ _ HR).
  - intros k m Hk Hm. ring_case k h; [done|]. intros Hnz Hc.
    assert (Hmem : slot k ∈ H) by (by destruct (rh_slot _ _ _ _ _ HR k)).
    pose proof (rh_home _ _ _ _ _ HR _ Hmem) as Hhome.
    ring_case m h; [exfalso|by destruct (rh_path _ _ _ _ _ HR k m)].
    destruct (decide (cyc h k d)) as [Hin|Hout]; [by apply (Hscan k)|].
    assert (k <> d) by (intros ->; done).
    destruct (rh_path _ _ _ _ _ HR k d); [done..| |lia|lia].
    unfold cyc in *. lia.
Qed.

Lemma ring_inv_ext n slot slot' home home' H :
  ring_inv n slot home H ->
  (forall h, 0 <= h < n -> slot' h = slot h) -> (forall i, i ∈ H -> home' i = home i) ->
  ring_inv n slot' home' H.
Proof.
  intros HR Hs Hh. split.
  - intros h Hr. rewrite Hs by done. by apply (ri_slot _ _ _ _ HR).
  - intros i Hi. apply (ri_mem _ _ _ _ HR) in Hi as [? (h & ? & ?)].
    split; [done|]. exists h. by rewrite Hs.
  - intros h k ? ?. rewrite !Hs by done. by apply (ri_inj _ _ _ _ HR).
  - intros i Hi. rewrite Hh by done. by apply (ri_home _ _ _ _ HR).
  - intros h k ? ?. rewrite !Hs by done. intros Hnz.
    rewrite Hh; [by apply (ri_path _ _ _ _ HR)|].
    by destruct (ri_slot _ _ _ _ HR h).
Qed.

Lemma ring_hole_ext n slot slot' home home' h H :
  ring_hole n slot home h H ->
  (forall k, 0 <= k < n -> slot' k = slot k) -> (forall i, home' i = home i) ->
  ring_hole n slot' home' h H.
Proof.
  intros HR Hs Hh. split.
  - intros k Hr. rewrite Hs by done. by apply (rh_slot _ _ _ _ _ HR).
  - intros i Hi. apply (rh_mem _ _ _ _ _ HR) in Hi as [? (k & ? & ? & ?)].
    split; [done|]. exists k. by rewrite Hs.
  - intros k m ? ?. rewrite !Hs by done. by apply (rh_inj _ _ _ _ _ HR).
  - intros i. rewrite Hh. apply (rh_home _ _ _ _ _ HR).
  - intros k m ? ?. rewrite Hh, !Hs by done. by apply (rh_path _ _ _ _ _ HR).
Qed.

(** A probe from [h0] meets a first slot with property [stop], no later than [z]. *)
Lemma probe_first n (stop : Z -> Prop) `{!forall x, Decision (stop x)} h0 z :
  0 <= h0 < n -> 0 <= z < n -> stop z ->
  exists h, 0 <= h < n /\ stop h /\ (h = z \/ cyc h0 h z) /\
    forall k, 0 <= k < n -> cyc h0 k h -> ~ stop k.
Proof.
  intros Hh0 Hz Hstop. remember (Z.to_nat (ring_dist n h0 z)) as d eqn:Hd.
  revert h0 Hh0 Hd. induction d as [|d IH]; intros h0 Hh0 Hd;
    pose proof (ring_dist_range n h0 z Hh0 Hz);
    (destruct (decide (h0 = z)) as [->|Hne];
      [exists z; split_and!; [lia..|done|by left|unfold cyc; lia]|]).
  { unfold ring_dist in *. case_match; bool_to_prop; lia. }
  destruct (decide (stop h0)) as [Hs|Hs].
  { exists h0. split_and!; [lia..|done| |unfold cyc; lia]. unfold cyc. lia. }
  destruct (IH (next_slot n h0)) as (h & Hh & Hsh & Hbefore & Hfirst);
    [by apply next_slot_range|rewrite ring_dist_next by done; lia|].
  exists h. split_and!; [lia..|done| |].
  - revert Hbefore. unfold cyc, next_slot. case_match; bool_to_prop; lia.
  - intros k Hk Hc. destruct (decide (k = h0)) as [->|]; [done|]. apply Hfirst; [done|].
    revert Hc. unfold cyc, next_slot. case_match; bool_to_prop; lia.
Qed.

Lemma cyc_shrink n h k hs :
  0 <= h < n -> 0 <= hs < n -> 0 <= k < n -> h <> hs ->
  cyc (next_slot n h) k hs -> cyc h k hs.
Proof. unfold cyc, next_slot. case_match; bool_to_prop; lia. Qed.

Lemma cyc_start h hs : h <> hs -> cyc h h hs.
Proof. unfold cyc. lia. Qed.

(** ** The table as a ring *)

Definition slot_of (t : list ipc_entry) (h : Z) : Z := from_option ie_index 0 (t !! Z.to_nat h).
Definition obj_of (t : list ipc_entry) (i : Z) : Z := from_option ie_object 0 (t !! Z.to_nat i).
Definition home_of (t : list ipc_entry) (i : Z) : Z :=
  IH_TABLE_HASH (obj_of t i) (Z.of_nat (length t)).

(** [t] is a table whose hash links represent the set [H] of indices: probing finds
    each of them, and nothing else is linked. *)
Record hash_repr (t : list ipc_entry) (H : gset Z) : Prop := {
  hr_pos : 0 < Z.of_nat (length t);
  hr_ring : ring_inv (Z.of_nat (length t)) (slot_of t) (home_of t) H;
  hr_obj : forall i, i ∈ H -> obj_of t i <> IO_NULL;
}.

(** Two tables that differ in nothing but their hash links *)
Definition same_entries (t t' : list ipc_entry) : Prop :=
  set_ie_index 0 <$> t' = set_ie_index 0 <$> t.

#[global] Instance same_entries_equiv : Equivalence same_entries.
Proof.
  unfold same_entries. split; [by intros ?|by intros ? ? ->|].
  intros t1 t2 t3 H1 H2. by rewrite H2, H1.
Qed.

Lemma same_entries_length t t' : same_entries t t' -> length t' = length t.
Proof. intros H%(f_equal length). by rewrite !length_fmap in H. Qed.

Lemma same_entries_lookup t t' i e :
  same_entries t t' -> t !! i = Some e ->
  exists h, t' !! i = Some (set_ie_index h e).
Proof.
  intros Hs He. apply (f_equal (fun l => l !! i)) in Hs. rewrite !list_lookup_fmap, He in Hs.
  destruct (t' !! i) as [e'|]; [|done]. exists (ie_index e'). simpl in Hs.
  destruct e as [a b c d], e'. unfold set_ie_index in *. simpl in *. by simplify_eq.
Qed.

Lemma same_entries_update t i v :
  same_entries t (<[i := default (mk_ipc_entry 0 0 0 0) (set_ie_index v <$> t !! i)]> t).
Proof.
  unfold same_entries. destruct (t !! i) as [e|] eqn:He; simpl.
  - rewrite list_fmap_insert. rewrite list_insert_id; [done|].
    rewrite list_lookup_fmap, He. by destruct e.
  - by rewrite list_insert_ge by by apply lookup_ge_None.
Qed.

Lemma same_entries_obj t t' i : same_entries t t' -> obj_of t' i = obj_of t i.
Proof.
  intros Hs. unfold obj_of. destruct (t !! Z.to_nat i) as [e|] eqn:He.
  - destruct (same_entries_lookup _ _ _ _ Hs He) as [h ->]. by destruct e.
  - apply lookup_ge_None in He. rewrite <- (same_entries_length _ _ Hs) in He.
    by apply lookup_ge_None in He as ->.
Qed.

Lemma same_entries_home t t' i : same_entries t t' -> home_of t' i = home_of t i.
Proof.
  intros Hs. unfold home_of.
  by rewrite (same_entries_length _ _ Hs), (same_entries_obj _ _ i Hs).
Qed.

Lemma table_get_Ok t i :
  0 <= i < Z.of_nat (length t) ->
  exists e, table_get t i = Ok e /\ t !! Z.to_nat i = Some e /\
    ie_index e = slot_of t i /\ ie_object e = obj_of t i.
Proof.
  intros Hi. unfold table_get, slot_of, obj_of. rewrite (proj2 (Z.ltb_ge i 0)) by lia.
  destruct (lookup_lt_is_Some_2 t (Z.to_nat i)) as [e He]; [lia|].
  exists e. by rewrite He.
Qed.

Lemma table_update_index t h v :
  0 <= h < Z.of_nat (length t) ->
  exists t', table_update (set_ie_index v) t h = Ok t' /\ same_entries t t' /\
    forall k, 0 <= k < Z.of_nat (length t) -> slot_of t' k = upd (slot_of t) h v k.
Proof.
  intros Hh. unfold table_update.
  destruct (table_get_Ok t h Hh) as (e & -> & He & _). simpl. eexists. split; [done|].
  split.
  - pose proof (same_entries_update t (Z.to_nat h) v) as Hs. by rewrite He in Hs.
  - intros k Hk. unfold slot_of at 1. ring_case k h.
    + rewrite list_lookup_insert_eq by lia. done.
    + rewrite list_lookup_insert_ne by lia. done.
Qed.

Lemma IH_TABLE_HASH_range obj n : 0 < n -> 0 <= IH_TABLE_HASH obj n < n.
Proof.
  intros Hn. unfold IH_TABLE_HASH, u32.
  pose proof (Z.mod_pos_bound (Z.shiftr obj 6) n Hn).
  pose proof (Z.mod_le (Z.shiftr obj 6 mod n) (2 ^ 32)).
  pose proof (Z.mod_pos_bound (Z.shiftr obj 6 mod n) (2 ^ 32)). lia.
Qed.

Section loops.
Context (t : list ipc_entry) (H : gset Z) (HR : hash_repr t H).
Let n : Z := Z.of_nat (length t).

Lemma slot_index_range h : 0 <= h < n -> slot_of t h <> 0 -> 0 < slot_of t h < n.
Proof.
  intros Hh Hnz. destruct (ri_slot _ _ _ _ (hr_ring _ _ HR) h Hh); [done|].
  by apply (ri_mem _ _ _ _ (hr_ring _ _ HR)).
Qed.

(** Where the probe for [obj] ends: a free slot, or an index of an entry for [obj]. *)
Definition lookup_stop (obj h : Z) : Prop := slot_of t h = 0 \/ obj_of t (slot_of t h) = obj.

Definition lookup_answer (h : Z) : res (option (Z * Z)) :=
  let i := slot_of t h in
  if i =? 0 then Ok None else
  e ← table_get t i; Ok (Some (MACH_PORT_MAKE i (IE_BITS_GEN (ie_bits e)), i)).

Lemma hash_lookup_loop_ok obj hs fuel h :
  0 <= h < n -> 0 <= hs < n -> lookup_stop obj hs ->
  (forall k, 0 <= k < n -> cyc h k hs -> ~ lookup_stop obj k) ->
  ring_dist n h hs < Z.of_nat fuel ->
  hash_lookup_loop fuel t n obj h = lookup_answer hs.
Proof.
  revert h. induction fuel as [|fuel IH]; intros h Hh Hhs Hstop Hfirst Hfuel.
  { pose proof (ring_dist_range n h hs Hh Hhs). lia. }
  simpl. destruct (table_get_Ok t h Hh) as (e & -> & _ & Hix & _). simpl. rewrite Hix.
  unfold lookup_answer. destruct (Z.eqb_spec (slot_of t h) 0) as [Hz|Hnz].
  { destruct (decide (h = hs)) as [<-|Hne]; [by rewrite Hz|].
    destruct (Hfirst h Hh (cyc_start _ _ Hne)). by left. }
  pose proof (slot_index_range h Hh Hnz) as Hr.
  unfold rassert. rewrite (proj2 (Z.ltb_lt _ _)) by lia. simpl.
  destruct (table_get_Ok t (slot_of t h)) as (e' & Hget & _ & _ & Hob); [lia|].
  rewrite Hget. simpl. rewrite Hob.
  destruct (Z.eqb_spec (obj_of t (slot_of t h)) obj) as [Heq|Hneq].
  - destruct (decide (h = hs)) as [<-|Hne].
    + rewrite (proj2 (Z.eqb_neq _ _)) by done. by rewrite Hget.
    + destruct (Hfirst h Hh (cyc_start _ _ Hne)). by right.
  - destruct (decide (h = hs)) as [<-|Hne]; [by destruct Hstop|].
    apply IH; [by apply next_slot_range|done..| |].
    + intros k Hk Hc. apply Hfirst; [done|]. by apply (cyc_shrink n).
    + rewrite ring_dist_next by done. lia.
Qed.

Lemma hash_find_loop_ok i hs fuel h :
  0 <= h < n -> 0 <= hs < n -> slot_of t hs = i ->
  (forall k, 0 <= k < n -> cyc h k hs -> slot_of t k <> i) ->
  ring_dist n h hs < Z.of_nat fuel ->
  hash_find_loop fuel t n i h = Ok hs.
Proof.
  revert h. induction fuel as [|fuel IH]; intros h Hh Hhs Hstop Hfirst Hfuel.
  { pose proof (ring_dist_range n h hs Hh Hhs). lia. }
  simpl. destruct (table_get_Ok t h Hh) as (e & -> & _ & Hix & _). simpl. rewrite Hix.
  destruct (decide (h = hs)) as [<-|Hne]; [by rewrite Hstop, Z.eqb_refl|].
  rewrite (proj2 (Z.eqb_neq _ _)) by (by apply Hfirst, cyc_start).
  apply IH; [by apply next_slot_range|done..| |].
  - intros k Hk Hc. apply Hfirst; [done|]. by apply (cyc_shrink n).
  - rewrite ring_dist_next by done. lia.
Qed.
End loops.

(** The search for a free slot is the search for index 0. *)
Lemma hash_insert_loop_find fuel t size h :
  hash_insert_loop fuel t size h = hash_find_loop fuel t size 0 h.
Proof.
  revert h. induction fuel as [|fuel IH]; intros h; simpl; [done|].
  destruct (table_get t h); simpl; [|done]. by rewrite IH.
Qed.

(** ** Deletion: moving the hole to the end of its clump *)

(** The entry in slot [m] would no longer be found if slot [h] became free. *)
Definition displaced (t : list ipc_entry) (h m : Z) : Prop :=
  cyc (home_of t (slot_of t m)) h m.

#[global] Instance cyc_dec a k b : Decision (cyc a k b).
Proof. unfold cyc. apply _. Defined.

Lemma displaced_test n ti h d :
  0 <= ti < n -> 0 <= h < n -> 0 <= d < n -> d <> h ->
  (if d <? h then (d <? ti) && (ti <=? h) else (d <? ti) || (ti <=? h)) = true
  <-> cyc ti h d.
Proof.
  intros. unfold cyc. destruct (Z.ltb_spec d h).
  - rewrite andb_true_iff, Z.ltb_lt, Z.leb_le. lia.
  - rewrite orb_true_iff, Z.ltb_lt, Z.leb_le. lia.
Qed.

(** A hole at [h], with a free slot [z] elsewhere. *)
Record hash_hole (t : list ipc_entry) (h z : Z) (H : gset Z) : Prop := {
  hh_range : 0 <= h < Z.of_nat (length t);
  hh_ring : ring_hole (Z.of_nat (length t)) (slot_of t) (home_of t) h H;
  hh_obj : forall i, i ∈ H -> obj_of t i <> IO_NULL;
  hh_free : 0 <= z < Z.of_nat (length t) /\ z <> h /\ slot_of t z = 0;
}.

Definition scan_stop (t : list ipc_entry) (h m : Z) : Prop :=
  slot_of t m = 0 \/ displaced t h m.

Section delete.
Context (t : list ipc_entry) (H : gset Z) (h z : Z) (HH : hash_hole t h z H).
Let n : Z := Z.of_nat (length t).

Lemma hole_member m : 0 <= m < n -> m <> h -> slot_of t m <> 0 -> slot_of t m ∈ H.
Proof. intros Hm Hne Hnz. by destruct (rh_slot _ _ _ _ _ (hh_ring _ _ _ _ HH) m). Qed.

Lemma hash_delete_scan_ok ds fuel d :
  0 <= d < n -> 0 <= ds < n -> ds <> h -> scan_stop t h ds ->
  (forall k, 0 <= k < n -> cyc (next_slot n d) k ds -> k <> h /\ ~ scan_stop t h k) ->
  ring_dist n (next_slot n d) ds < Z.of_nat fuel ->
  hash_delete_scan fuel t n h d = Ok (slot_of t ds, ds).
Proof.
  pose proof (hh_range _ _ _ _ HH) as Hh. fold n in Hh.
  revert d. induction fuel as [|fuel IH]; intros d Hd Hds Hdsh Hstop Hfirst Hfuel;
    pose proof (next_slot_range n d Hd) as Hnx.
  { pose proof (ring_dist_range n _ ds Hnx Hds). lia. }
  simpl. set (d' := next_slot n d) in *.
  assert (Hd'h : d' <> h).
  { destruct (decide (d' = ds)) as [->|Hne]; [done|]. by apply Hfirst, cyc_start. }
  unfold rassert at 1. rewrite (proj2 (Z.eqb_neq _ _)) by done. simpl.
  destruct (table_get_Ok t d' Hnx) as (e & -> & _ & Hix & _). simpl. rewrite Hix.
  destruct (Z.eqb_spec (slot_of t d') 0) as [Hz|Hnz].
  { destruct (decide (d' = ds)) as [->|Hne]; [done|].
    destruct (Hfirst d' Hnx (cyc_start _ _ Hne)) as [_ []]. by left. }
  pose proof (hole_member d' Hnx Hd'h Hnz) as Hmem.
  pose proof (rh_mem _ _ _ _ _ (hh_ring _ _ _ _ HH) _ Hmem) as [Hr _].
  pose proof (rh_home _ _ _ _ _ (hh_ring _ _ _ _ HH) _ Hmem) as Hhome.
  destruct (table_get_Ok t (slot_of t d')) as (e' & -> & _ & _ & Hob); [lia|]. simpl.
  rewrite Hob. unfold rassert.
  rewrite (proj2 (Z.eqb_neq _ _)) by (by apply (hh_obj _ _ _ _ HH)). simpl.
  fold n in Hhome. change (IH_TABLE_HASH (obj_of t (slot_of t d')) n)
    with (home_of t (slot_of t d')).
  pose proof (displaced_test n _ h d' Hhome Hh Hnx Hd'h) as Htest.
  destruct (if d' <? h then _ else _) eqn:Hb.
  - destruct (decide (d' = ds)) as [->|Hne]; [done|].
    destruct (Hfirst d' Hnx (cyc_start _ _ Hne)) as [_ []]. right. by apply Htest.
  - destruct (decide (d' = ds)) as [->|Hne].
    { destruct Hstop as [|Hdis]; [done|]. apply Htest in Hdis. congruence. }
    apply IH; [done..| |].
    + intros k Hk Hc. apply Hfirst; [done|]. by apply (cyc_shrink n).
    + rewrite ring_dist_next by done. lia.
Qed.

(** The scan from the hole ends, before [z] is passed. *)
Lemma hash_delete_scan_first :
  exists d, 0 <= d < n /\ d <> h /\ scan_stop t h d /\ (d = z \/ cyc (next_slot n h) d z) /\
    (forall m, 0 <= m < n -> m <> h -> cyc h m d -> ~ displaced t h m) /\
    hash_delete_scan (Z.to_nat n) t n h h = Ok (slot_of t d, d).
Proof.
  destruct (hh_free _ _ _ _ HH) as (Hz & Hzh & Hfree).
  pose proof (hh_range _ _ _ _ HH) as Hh. fold n in Hh, Hz.
  pose proof (next_slot_range n h Hh) as Hnx.
  assert (forall x, Decision (scan_stop t h x)) by (intros; unfold scan_stop, displaced; apply _).
  destruct (probe_first n (scan_stop t h) (next_slot n h) z Hnx Hz) as
    (d & Hd & Hs & Hb & Hf); [by left|].
  assert (Hnh : forall k, 0 <= k < n -> k = d \/ cyc (next_slot n h) k d -> k <> h).
  { intros k Hk Hkd ->. unfold cyc, next_slot in *. case_match; bool_to_prop; lia. }
  exists d. split_and!; [lia..|apply Hnh; auto|done|done| |].
  - intros m Hm Hmh Hc Hdis. apply (Hf m Hm); [|by right].
    revert Hc. unfold cyc, next_slot. case_match; bool_to_prop; lia.
  - apply hash_delete_scan_ok; [done..|apply Hnh; auto|done| |].
    + intros k Hk Hc. split; [apply Hnh; auto|by apply Hf].
    + pose proof (ring_dist_range n _ d Hnx Hd). lia.
Qed.

(** One round of the outer loop: the hole is closed, or moved closer to [z]. *)
Lemma hash_delete_round :
  exists d t', hash_delete_scan (Z.to_nat n) t n h h = Ok (slot_of t d, d) /\
    table_update (set_ie_index (slot_of t d)) t h = Ok t' /\ same_entries t t' /\
    ((slot_of t d = 0 /\ hash_repr t' H) \/
     (slot_of t d <> 0 /\ hash_hole t' d z H /\ ring_dist n d z < ring_dist n h z)).
Proof.
  destruct hash_delete_scan_first as (d & Hd & Hdh & Hs & Hb & Hnd & Hrun).
  pose proof (hh_range _ _ _ _ HH) as Hh.
  destruct (hh_free _ _ _ _ HH) as (Hz & Hzh & Hfree).
  destruct (table_update_index t h (slot_of t d)) as (t' & Hup & Hse & Hsl); [done|].
  exists d, t'. split_and!; [done..|].
  pose proof (same_entries_length _ _ Hse) as Hlen.
  assert (Hob : forall i, i ∈ H -> obj_of t' i <> IO_NULL).
  { intros i Hi. rewrite (same_entries_obj t t') by done. by apply (hh_obj _ _ _ _ HH). }
  assert (Hhm : forall i, home_of t' i = home_of t i) by (intros; by apply same_entries_home).
  destruct (decide (slot_of t d = 0)) as [Hz0|Hnz].
  - left. split; [done|]. rewrite Hz0 in Hsl. split; rewrite ?Hlen; [lia| |done].
    apply (ring_inv_ext _ (upd (slot_of t) h 0) _ (home_of t)); [|done|by intros].
    by apply (ring_close_hole _ _ _ _ h d); [apply (hh_ring _ _ _ _ HH)|..].
  - right. destruct Hs as [?|Hs]; [done|]. split_and!; [done| |].
    + split; rewrite ?Hlen; [done| |done|].
      * apply (ring_hole_ext _ (upd (slot_of t) h (slot_of t d)) _ (home_of t)); [|done..].
        by apply ring_move_hole; [apply (hh_ring _ _ _ _ HH)|..].
      * rewrite Hsl, upd_ne by done. repeat split; [lia|lia|congruence|done].
    + assert (d <> z) by congruence. unfold ring_dist, cyc, next_slot in *.
      repeat case_match; bool_to_prop; lia.
Qed.
End delete.

(** The outer loop closes the hole. *)
Lemma hash_delete_loop_ok fuel t h z H i :
  hash_hole t h z H -> i <> 0 -> ring_dist (Z.of_nat (length t)) h z < Z.of_nat fuel ->
  exists t', hash_delete_loop fuel t (Z.of_nat (length t)) h h i = Ok t' /\
    same_entries t t' /\ hash_repr t' H.
Proof.
  revert t h i. induction fuel as [|fuel IH]; intros t h i HH Hi Hf.
  { pose proof (ring_dist_range _ h z (hh_range _ _ _ _ HH) (proj1 (hh_free _ _ _ _ HH))). lia. }
  simpl. rewrite (proj2 (Z.eqb_neq i 0)) by done.
  destruct (hash_delete_round t H h z HH) as (d & t1 & -> & Hup & Hse & Hcase). simpl.
  rewrite Hup. simpl. destruct Hcase as [[Hz HR]|(Hnz & HH' & Hd)].
  - exists t1. rewrite Hz. by destruct fuel.
  - rewrite <- (same_entries_length _ _ Hse) in *.
    destruct (IH t1 d (slot_of t d) HH' Hnz) as (t' & -> & Hse' & HR'); [lia|].
    exists t'. split_and!; [done| |done]. by transitivity t1.
Qed.

(** ** The three operations *)

Lemma hash_repr_free t H :
  hash_repr t H -> exists z, 0 <= z < Z.of_nat (length t) /\ slot_of t z = 0.
Proof. intros HR. eapply ring_free_slot; apply HR. Qed.

(** The set [H] holds one index at most for an object. *)
Definition distinct_objects (t : list ipc_entry) (H : gset Z) : Prop :=
  forall i j, i ∈ H -> j ∈ H -> obj_of t i = obj_of t j -> i = j.

Definition entry_name (t : list ipc_entry) (i : Z) : Z :=
  MACH_PORT_MAKE i (IE_BITS_GEN (from_option ie_bits 0 (t !! Z.to_nat i))).

Lemma hash_lookup_cases t H obj :
  hash_repr t H -> obj <> IO_NULL ->
  (ipc_hash_table_lookup t (Z.of_nat (length t)) obj = Ok None /\
    forall i, i ∈ H -> obj_of t i <> obj) \/
  (exists i, i ∈ H /\ obj_of t i = obj /\
    ipc_hash_table_lookup t (Z.of_nat (length t)) obj = Ok (Some (entry_name t i, i))).
Proof.
  intros HR Hobj. set (n := Z.of_nat (length t)).
  unfold ipc_hash_table_lookup. rewrite (proj2 (Z.eqb_neq _ _)) by done.
  set (h0 := IH_TABLE_HASH obj n).
  assert (Hh0 : 0 <= h0 < n) by (apply IH_TABLE_HASH_range, HR).
  destruct (hash_repr_free t H HR) as (z & Hz & Hfree).
  assert (forall x, Decision (lookup_stop t obj x)) by (intros; unfold lookup_stop; apply _).
  destruct (probe_first n (lookup_stop t obj) h0 z) as (hs & Hhs & Hs & _ & Hf);
    [done..|by left|].
  rewrite (hash_lookup_loop_ok t H HR obj hs) by
    (fold n h0; assumption || (pose proof (ring_dist_range n h0 hs Hh0 Hhs); lia)).
  unfold lookup_answer. destruct (Z.eqb_spec (slot_of t hs) 0) as [Hz0|Hnz].
  - left. split; [done|]. intros i Hi Hio.
    destruct (ri_mem _ _ _ _ (hr_ring _ _ HR) i Hi) as [Hr (k & Hk & Hsk)].
    assert (Hhome : home_of t i = h0) by (unfold home_of; by rewrite Hio).
    destruct (decide (cyc h0 k hs)) as [Hc|Hnc].
    { apply (Hf k Hk Hc). right. by rewrite Hsk. }
    assert (k <> hs) by (intros ->; lia).
    apply (ri_path _ _ _ _ (hr_ring _ _ HR) k hs); [done..|lia| |done].
    rewrite Hsk, Hhome. unfold cyc in *. lia.
  - right. exists (slot_of t hs). destruct Hs as [?|Hs]; [done|].
    pose proof (slot_index_range t H HR hs Hhs Hnz).
    split_and!; [by destruct (ri_slot _ _ _ _ (hr_ring _ _ HR) hs Hhs)|done|].
    destruct (table_get_Ok t (slot_of t hs)) as (e & -> & He & _ & _); [lia|]. simpl.
    unfold entry_name. by rewrite He.
Qed.

Lemma hash_insert_ok t H i obj :
  hash_repr t H -> 0 < i < Z.of_nat (length t) -> i ∉ H -> obj_of t i = obj -> obj <> IO_NULL ->
  exists t', ipc_hash_table_insert t (Z.of_nat (length t)) obj i i = Ok t' /\
    same_entries t t' /\ hash_repr t' ({[i]} ∪ H).
Proof.
  intros HR Hi Hnew Hio Hobj. set (n := Z.of_nat (length t)) in *.
  destruct (hash_repr_free t H HR) as (z & Hz & Hfree).
  set (h0 := IH_TABLE_HASH obj n).
  assert (Hh0 : 0 <= h0 < n) by (apply IH_TABLE_HASH_range, HR).
  destruct (probe_first n (fun h => slot_of t h = 0) h0 z) as (hs & Hhs & Hs & _ & Hf); [done..|].
  cbv beta in Hs, Hf. destruct (table_update_index t hs i) as (t' & Hup & Hse & Hsl); [done|].
  exists t'. split_and!; [|done|].
  - unfold ipc_hash_table_insert, rassert. rewrite (proj2 (Z.eqb_neq i 0)) by lia.
    rewrite (proj2 (Z.eqb_neq obj IO_NULL)) by done.
    simpl. rewrite Z.eqb_refl. simpl.
    destruct (table_get_Ok t i) as (e & -> & _ & _ & Hob); [lia|]. simpl.
    rewrite Hob, Hio, Z.eqb_refl. simpl. rewrite hash_insert_loop_find.
    rewrite (hash_find_loop_ok t 0 hs) by
      (fold n h0; assumption || (pose proof (ring_dist_range n h0 hs Hh0 Hhs); lia)).
    done.
  - pose proof (same_entries_length _ _ Hse) as Hlen.
    split; rewrite ?Hlen; [apply HR| |].
    + apply (ring_inv_ext _ (upd (slot_of t) hs i) _ (home_of t)); [|done|].
      2:{ intros j _. by apply same_entries_home. }
      assert (Hhome : home_of t i = h0) by (unfold home_of; by rewrite Hio).
      apply ring_insert; rewrite ?Hhome; done || apply HR.
    + intros j Hj. rewrite (same_entries_obj t t') by done.
      apply elem_of_union in Hj as [->%elem_of_singleton|Hj]; [congruence|].
      by apply (hr_obj _ _ HR).
Qed.

Lemma hash_delete_ok t H i obj :
  hash_repr t H -> i ∈ H -> obj_of t i = obj ->
  exists t', ipc_hash_table_delete t (Z.of_nat (length t)) obj i i = Ok t' /\
    same_entries t t' /\ hash_repr t' (H ∖ {[i]}).
Proof.
  intros HR Hi Hio. set (n := Z.of_nat (length t)) in *.
  destruct (hash_repr_free t H HR) as (z & Hz & Hfree).
  destruct (ri_mem _ _ _ _ (hr_ring _ _ HR) i Hi) as [Hir (h & Hh & Hsh)].
  set (h0 := IH_TABLE_HASH obj n).
  assert (Hh0 : 0 <= h0 < n) by (apply IH_TABLE_HASH_range, HR).
  unfold ipc_hash_table_delete, rassert, MACH_PORT_NULL.
  rewrite (proj2 (Z.eqb_neq i 0)) by lia.
  rewrite (proj2 (Z.eqb_neq obj IO_NULL)) by (rewrite <- Hio; by apply (hr_obj _ _ HR)).
  simpl. rewrite Z.eqb_refl. simpl.
  destruct (table_get_Ok t i) as (e & -> & _ & _ & Hob); [lia|]. simpl.
  rewrite Hob, Hio, Z.eqb_refl. simpl.
  assert (Hf : forall k, 0 <= k < n -> cyc h0 k h -> slot_of t k <> i).
  { intros k Hk Hc Heq.
    assert (k = h) as -> by (apply (ri_inj _ _ _ _ (hr_ring _ _ HR)); [done..|lia|congruence]).
    unfold cyc in Hc. lia. }
  rewrite (hash_find_loop_ok t i h) by
    (fold n h0; assumption || (pose proof (ring_dist_range n h0 h Hh0 Hh); lia)).
  simpl. apply (hash_delete_loop_ok _ _ _ z); [|lia|].
  - split; [done|by apply ring_open_hole; [apply HR|..]| |].
    + intros j [Hj _]%elem_of_difference. by apply (hr_obj _ _ HR).
    + split; [done|]. split; [intros ->; lia|done].
  - fold n. pose proof (ring_dist_range n h z Hh Hz). lia.
Qed.

(** [hash_repr] depends on the objects of members only. *)
Lemma hash_repr_frame t t' H :
  hash_repr t H -> length t' = length t ->
  (forall h, 0 <= h < Z.of_nat (length t) -> slot_of t' h = slot_of t h) ->
  (forall i, i ∈ H -> obj_of t' i = obj_of t i) -> hash_repr t' H.
Proof.
  intros HR Hlen Hs Ho. split; rewrite ?Hlen; [apply HR| |].
  - eapply ring_inv_ext; [apply HR|done|]. intros i Hi. unfold home_of.
    by rewrite Hlen, Ho.
  - intros i Hi. rewrite Ho by done. by apply (hr_obj _ _ HR).
Qed.

(** An executable test for [hash_repr] *)
Definition hash_check (t : list ipc_entry) (H : gset Z) : bool :=
  let n := Z.of_nat (length t) in
  let slots := seqZ 0 n in
  (0 <? n)
  && forallb (fun h => (slot_of t h =? 0) || bool_decide (slot_of t h ∈ H)) slots
  && forallb (fun i => (0 <? i) && (i <? n) && existsb (fun h => slot_of t h =? i) slots
       && (0 <=? home_of t i) && (home_of t i <? n) && negb (obj_of t i =? IO_NULL)) (elements H)
  && forallb (fun h => forallb (fun k => (slot_of t h =? 0) ||
       (((h =? k) || negb (slot_of t h =? slot_of t k)) &&
        (negb (slot_of t k =? 0) || negb (bool_decide (displaced t k h))))) slots) slots.

Lemma forallb_elem {A} (f : A -> bool) l x : forallb f l = true -> x ∈ l -> f x = true.
Proof. rewrite List.forallb_forall. intros Hf Hx. by apply Hf, list_elem_of_In. Qed.

Lemma hash_check_sound t H : hash_check t H = true -> hash_repr t H.
Proof.
  unfold hash_check. set (n := Z.of_nat (length t)). intros Hc.
  rewrite !andb_true_iff in Hc. destruct Hc as [[[Hpos%Z.ltb_lt Hslots] Hmem] Hpairs].
  assert (Hin : forall h, 0 <= h < n -> h ∈ seqZ 0 n) by (intros; apply elem_of_seqZ; lia).
  assert (Hm : forall i, i ∈ H -> (0 < i < n /\ exists h, 0 <= h < n /\ slot_of t h = i) /\
                                 0 <= home_of t i < n /\ obj_of t i <> IO_NULL).
  { intros i Hi. apply (forallb_elem _ _ i) in Hmem; [|by apply elem_of_elements].
    rewrite !andb_true_iff, existsb_exists in Hmem.
    destruct Hmem as [[[[[??] (h & Hh%list_elem_of_In & Heq%Z.eqb_eq)]?]?]?].
    apply elem_of_seqZ in Hh. bool_to_prop. repeat split; [lia..| |lia|lia|done]. exists h. lia. }
  assert (Hp : forall h k, 0 <= h < n -> 0 <= k < n -> slot_of t h <> 0 ->
    (slot_of t h = slot_of t k -> h = k) /\ (displaced t k h -> slot_of t k <> 0)).
  { intros h k Hh Hk Hnz. apply (forallb_elem _ _ h) in Hpairs; [|by apply Hin].
    apply (forallb_elem _ _ k) in Hpairs; [|by apply Hin].
    rewrite (proj2 (Z.eqb_neq _ _) Hnz) in Hpairs. simpl in Hpairs.
    apply andb_prop in Hpairs as [Hi Hd].
    split; intros Hx.
    - apply orb_prop in Hi as [?|?]; bool_to_prop; [done|lia].
    - rewrite bool_decide_eq_true_2 in Hd by done.
      apply orb_prop in Hd as [?|?]; by bool_to_prop. }
  split; [done|split|by intros i (_ & _ & ?)%Hm].
  - intros h Hh. apply (forallb_elem _ _ h) in Hslots; [|by apply Hin].
    apply orb_prop in Hslots as [Hz|Hb]; [left; by bool_to_prop|right].
    by apply bool_decide_eq_true in Hb.
  - by intros i [? _]%Hm.
  - intros h k Hh Hk Hnz. by apply (Hp h k).
  - by intros i (_ & ? & _)%Hm.
  - intros h k Hh Hk Hnz Hcyc. by apply (Hp h k).
Qed.

(** ** The hash table of a space *)

Definition space_hash (s : ipc_space) (H : gset Z) : Prop :=
  is_table_size s = Z.of_nat (length (is_table s)) /\ hash_repr (is_table s) H.

(** C21 Looking up an object in a space terminates without a fault and finds exactly the
    entry that was inserted for it: the result is the name and the index of the member
    whose object it is, and [None] when no member has that object. *)
Theorem ipc_hash_lookup_correct (s : ipc_space) (H : gset Z) (obj : Z) :
  space_hash s H -> distinct_objects (is_table s) H -> obj <> IO_NULL ->
  (forall i, i ∈ H -> obj_of (is_table s) i = obj ->
    ipc_hash_lookup s obj = Ok (Some (entry_name (is_table s) i, i))) /\
  ((forall i, i ∈ H -> obj_of (is_table s) i <> obj) -> ipc_hash_lookup s obj = Ok None).
Proof.
  intros [Hsize HR] Hd Hobj. unfold ipc_hash_lookup. rewrite Hsize.
  destruct (hash_lookup_cases _ _ obj HR Hobj) as [[-> Hno]|(i & Hi & Hio & ->)].
  - split; [|done]. intros i Hi Hio. by destruct (Hno i Hi).
  - split.
    + intros j Hj Hjo. by rewrite (Hd i j) by (done || congruence).
    + intros Hno. by destruct (Hno i Hi).
Qed.

(** C22 Inserting a fresh index for an object terminates without a fault, changes nothing
    but hash links, and adds that index to the represented set. *)
Theorem ipc_hash_insert_correct (s : ipc_space) (H : gset Z) (obj name : Z) :
  let i := MACH_PORT_INDEX name in
  space_hash s H -> 0 < i < is_table_size s -> i ∉ H ->
  obj_of (is_table s) i = obj -> obj <> IO_NULL ->
  exists s', ipc_hash_insert s obj name i = Ok s' /\
    s' = set_is_table (is_table s') s /\ same_entries (is_table s) (is_table s') /\
    space_hash s' ({[i]} ∪ H).
Proof.
  intros i [Hsize HR] Hi Hnew Hio Hobj. rewrite Hsize in Hi.
  destruct (hash_insert_ok _ _ i obj HR Hi Hnew Hio Hobj) as (t' & Hrun & Hse & HR').
  exists (set_is_table t' s). unfold ipc_hash_insert. rewrite Hsize. fold i. rewrite Hrun.
  split_and!; [done..|]. split; [|done]. simpl. by rewrite (same_entries_length _ _ Hse).
Qed.

(** C23 Deleting a member terminates without a fault, changes nothing but hash links, and
    removes exactly that index: every other member is still found. *)
Theorem ipc_hash_delete_correct (s : ipc_space) (H : gset Z) (obj name : Z) :
  let i := MACH_PORT_INDEX name in
  space_hash s H -> i ∈ H -> obj_of (is_table s) i = obj ->
  exists s', ipc_hash_delete s obj name i = Ok s' /\
    s' = set_is_table (is_table s') s /\ same_entries (is_table s) (is_table s') /\
    space_hash s' (H ∖ {[i]}).
Proof.
  intros i [Hsize HR] Hi Hio.
  destruct (hash_delete_ok _ _ i obj HR Hi Hio) as (t' & Hrun & Hse & HR').
  exists (set_is_table t' s). unfold ipc_hash_delete. rewrite Hsize. fold i. rewrite Hrun.
  split_and!; [done..|]. split; [|done]. simpl. by rewrite (same_entries_length _ _ Hse).
Qed.

(** ** Witnesses

    A table of four entries: the objects of entries 1, 2 and 3 all hash to slot 3. *)
Module HashExample.
Definition bare : list ipc_entry :=
  [mk_ipc_entry 0 0 0 0; mk_ipc_entry 0xc0 0x4010001 0 0;
   mk_ipc_entry 0x1c0 0x8010001 0 0; mk_ipc_entry 0x2c0 0xc010001 0 0].
Definition linked : list ipc_entry :=
  [mk_ipc_entry 0 0 2 0; mk_ipc_entry 0xc0 0x4010001 3 0;
   mk_ipc_entry 0x1c0 0x8010001 0 0; mk_ipc_entry 0x2c0 0xc010001 1 0].
Definition space (t : list ipc_entry) : ipc_space := mk_ipc_space 1 4 0 t 0 1 4 0.

Lemma bare_hash : space_hash (space bare) ∅.
Proof. split; [done|]. apply hash_check_sound. by vm_compute. Qed.

Lemma linked_hash : space_hash (space linked) {[1; 2; 3]}.
Proof. split; [done|]. apply hash_check_sound. by vm_compute. Qed.

Lemma ipc_hash_lookup_witness : ipc_hash_lookup (space linked) 0x1c0 = Ok (Some (0x208, 2)).
Proof.
  destruct (ipc_hash_lookup_correct (space linked) {[1; 2; 3]} 0x1c0 linked_hash) as [Hf _];
    [|done|apply (Hf 2); [|done]].
  - intros i j Hi Hj. rewrite !elem_of_union, !elem_of_singleton in Hi, Hj.
    destruct Hi as [[->| ->]| ->], Hj as [[->| ->]| ->]; done.
  - rewrite !elem_of_union, !elem_of_singleton. by left; right.
Defined.

Lemma ipc_hash_insert_witness :
  exists s', ipc_hash_insert (space bare) 0x1c0 0x208 2 = Ok s' /\ space_hash s' ({[2]} ∪ ∅).
Proof.
  destruct (ipc_hash_insert_correct (space bare) ∅ 0x1c0 0x208 bare_hash)
    as (s' & Hrun & _ & _ & Hs'); [done|apply not_elem_of_empty|done..|].
  exists s'. done.
Defined.

Lemma ipc_hash_delete_witness :
  exists s', ipc_hash_delete (space linked) 0xc0 0x104 1 = Ok s' /\
    space_hash s' ({[1; 2; 3]} ∖ {[1]}).
Proof.
  destruct (ipc_hash_delete_correct (space linked) {[1; 2; 3]} 0xc0 0x104 linked_hash)
    as (s' & Hrun & _ & _ & Hs'); [|done|].
  - rewrite !elem_of_union, !elem_of_singleton. by left; left.
  - exists s'. done.
Defined.
End HashExample.
