(* ===== verification/IpcEntry.v ===== *)
(** * Entries of a space (osfmk/ipc/ipc_entry.c)

    The translation of ipc_entry.c less [ipc_entry_grow_table] and its two callers, which
    are in IpcGrow.v.  A pointer to an entry is its index.  [chain t 0 l] says that the
    free entries of table [t] are linked, in the order [l], from entry 0; [space_inv] adds
    what else every operation keeps, and [space_ok] is the space between operations. *)

From S2P Require Import IpcTypes IpcBits IpcHash.

(** ** Translation *)

Definition tget (i : Z) : M ipc_space ipc_entry :=
  fun s => e ← table_get (is_table s) i; Ok (e, s).
Definition tmod (f : ipc_entry -> ipc_entry) (i : Z) : M ipc_space unit :=
  fun s => t ← table_update f (is_table s) i; Ok (tt, set_is_table t s).

(** The result is the entry, [None] for [IE_NULL]. *)
Definition ipc_entry_lookup (name : Z) : M ipc_space (option Z) :=
  s ← get;
  _ ← massert (is_active s);
  let index := MACH_PORT_INDEX name in
  if index <? is_table_size s then
    entry ← tget index;
    if negb (IE_BITS_GEN (ie_bits entry) =? MACH_PORT_GEN name)
       || (IE_BITS_TYPE (ie_bits entry) =? MACH_PORT_TYPE_NONE)
    then mret None
    else
      _ ← massert (negb (IE_BITS_TYPE (ie_bits entry) =? 0));
      mret (Some index)
  else mret None.

(** [for (i = 0; i < entries_needed; i++)], with [needed] iterations left *)
Fixpoint entries_hold_loop (needed : nat) (next_free : Z) : M ipc_space kern_return_t :=
  match needed with
  | O => mret KERN_SUCCESS
  | S needed =>
    e ← tget next_free;
    let next_free := ie_next e in
    if next_free =? 0 then mret KERN_NO_SPACE else
    s ← get;
    _ ← massert (next_free <? is_table_size s);
    e ← tget next_free;
    _ ← massert (ie_object e =? IO_NULL);
    entries_hold_loop needed next_free
  end.

Definition ipc_entries_hold (entries_needed : Z) : M ipc_space kern_return_t :=
  s ← get;
  _ ← massert (is_active s);
  entries_hold_loop (Z.to_nat entries_needed) 0.

(** Returns the new name and its entry. *)
Definition ipc_entry_claim : M ipc_space (Z * Z) :=
  table ← tget 0;
  let first_free := ie_next table in
  _ ← massert (negb (first_free =? 0));
  entry ← tget first_free;
  _ ← tmod (set_ie_next (ie_next entry)) 0;
  _ ← modify (fun s => set_is_table_free (u32 (is_table_free s - 1)) s);
  table ← tget 0;
  s ← get;
  _ ← massert (ie_next table <? is_table_size s);
  let gen := IE_BITS_NEW_GEN (ie_bits entry) in
  _ ← tmod (set_ie_bits gen) first_free;
  _ ← tmod (set_ie_request IE_REQ_NONE) first_free;
  let new_name := MACH_PORT_MAKE first_free gen in
  _ ← massert (MACH_PORT_VALID new_name);
  mret (new_name, first_free).

Definition ipc_entry_get : M ipc_space (kern_return_t + Z * Z) :=
  kr ← ipc_entries_hold 1;
  if decide (kr = KERN_SUCCESS) then
    r ← ipc_entry_claim; mret (inr r)
  else mret (inl kr).

Definition ipc_entry_modified (name entry : Z) : M ipc_space unit :=
  s ← get;
  let index := MACH_PORT_INDEX name in
  let size := is_table_size s in
  _ ← massert (index <? size);
  _ ← massert (entry =? index);
  _ ← massert (is_low_mod s <=? size);
  _ ← massert (is_high_mod s <? size);
  _ ← mwhen (index <? is_low_mod s) (modify (set_is_low_mod index));
  mwhen (is_high_mod s <? index) (modify (set_is_high_mod index)).

Definition ipc_entry_dealloc (name entry : Z) : M ipc_space unit :=
  s ← get;
  _ ← massert (is_active s);
  e ← tget entry;
  _ ← massert (ie_object e =? IO_NULL);
  _ ← massert (ie_request e =? IE_REQ_NONE);
  _ ← (if negb (ie_request e =? IE_REQ_NONE) then fail FPanic else mret tt);
  let index := MACH_PORT_INDEX name in
  let size := is_table_size s in
  _ ← (if (index <? size) && (entry =? index) then
         _ ← massert (IE_BITS_GEN (ie_bits e) =? MACH_PORT_GEN name);
         _ ← tmod (set_ie_bits (Z.land (ie_bits e) IE_BITS_GEN_MASK)) entry;
         table ← tget 0;
         _ ← tmod (set_ie_next (ie_next table)) entry;
         _ ← tmod (set_ie_next index) 0;
         modify (fun s => set_is_table_free (u32 (is_table_free s + 1)) s)
       else
         _ ← massert (index <? size);
         _ ← massert (entry =? index);
         massert (IE_BITS_GEN (ie_bits e) =? MACH_PORT_GEN name));
  ipc_entry_modified name entry.

(** [ipc_entry_alloc_name], case 4: the loop that finds the predecessor of [index] in
    the free list *)
Fixpoint find_free_index (fuel : nat) (index free_index : Z) : M ipc_space Z :=
  match fuel with
  | O => fail FFuel
  | S fuel =>
    e ← tget free_index;
    let next_index := ie_next e in
    if next_index =? index then mret free_index
    else find_free_index fuel index next_index
  end.

(** One turn of the [for (;;)] of [ipc_entry_alloc_name] for an active space whose table
    has an entry [index]: [inr entry] with the space locked, or the error. *)
Definition alloc_name_at (index gen : Z) : M ipc_space (kern_return_t + Z) :=
  entry ← tget index;
  if index =? 0 then
    _ ← massert (IE_BITS_TYPE (ie_bits entry) =? 0);
    _ ← massert (IE_BITS_GEN (ie_bits entry) =? 0);
    mret (inl KERN_FAILURE)
  else if negb (IE_BITS_TYPE (ie_bits entry) =? 0) then
    if IE_BITS_GEN (ie_bits entry) =? gen then mret (inr index) else mret (inl KERN_FAILURE)
  else
    s ← get;
    free_index ← find_free_index (Z.to_nat (is_table_size s)) index 0;
    _ ← tmod (set_ie_next (ie_next entry)) free_index;
    _ ← modify (fun s => set_is_table_free (u32 (is_table_free s - 1)) s);
    prev ← tget free_index;
    _ ← ipc_entry_modified (MACH_PORT_MAKE free_index (IE_BITS_GEN (ie_bits prev))) free_index;
    _ ← tmod (set_ie_bits gen) index;
    _ ← tmod (set_ie_request IE_REQ_NONE) index;
    entry ← tget index;
    _ ← massert (ie_object entry =? IO_NULL);
    mret (inr index).

(** ** Tables as functions *)

Definition entry_null : ipc_entry := mk_ipc_entry 0 0 0 0.
Definition entry_at (t : list ipc_entry) (i : Z) : ipc_entry := default entry_null (t !! Z.to_nat i).
Definition put (t : list ipc_entry) (i : Z) (e : ipc_entry) : list ipc_entry := <[Z.to_nat i := e]> t.
Definition tlen (t : list ipc_entry) : Z := Z.of_nat (length t).

Lemma tlen_put t i e : tlen (put t i e) = tlen t.
Proof. unfold tlen, put. by rewrite length_insert. Qed.

Lemma entry_at_put t i j e :
  0 <= i < tlen t -> 0 <= j -> entry_at (put t i e) j = if decide (i = j) then e else entry_at t j.
Proof.
  unfold tlen, entry_at, put. intros Hi Hj. destruct (decide (i = j)) as [->|Hne].
  - rewrite list_lookup_insert_eq by lia. done.
  - rewrite list_lookup_insert_ne by lia. done.
Qed.

Lemma entry_at_put_eq t i e : 0 <= i < tlen t -> entry_at (put t i e) i = e.
Proof. intros. rewrite entry_at_put by lia. by rewrite decide_True. Qed.

Lemma entry_at_put_ne t i j e :
  0 <= i < tlen t -> 0 <= j -> i <> j -> entry_at (put t i e) j = entry_at t j.
Proof. intros. rewrite entry_at_put by lia. by rewrite decide_False. Qed.

Lemma slot_of_at t i : slot_of t i = ie_index (entry_at t i).
Proof. unfold slot_of, entry_at. by destruct (t !! _). Qed.
Lemma obj_of_at t i : obj_of t i = ie_object (entry_at t i).
Proof. unfold obj_of, entry_at. by destruct (t !! _). Qed.

Lemma table_get_at t i : 0 <= i < tlen t -> table_get t i = Ok (entry_at t i).
Proof.
  intros Hi. unfold entry_at. destruct (table_get_Ok t i) as (e & -> & -> & _); done.
Qed.

Lemma wp_tget i (s : ipc_space) Q :
  0 <= i < tlen (is_table s) -> Q (entry_at (is_table s) i) s -> wp (tget i) s Q.
Proof. intros Hi HQ. unfold wp, tget. rewrite table_get_at by done. done. Qed.

Lemma wp_tmod f i (s : ipc_space) Q :
  0 <= i < tlen (is_table s) ->
  Q tt (set_is_table (put (is_table s) i (f (entry_at (is_table s) i))) s) ->
  wp (tmod f i) s Q.
Proof.
  intros Hi HQ. unfold wp, tmod, table_update. rewrite table_get_at by done. done.
Qed.

(** ** The free list *)

Definition next_of (t : list ipc_entry) (i : Z) : Z := ie_next (entry_at t i).

Fixpoint chain (t : list ipc_entry) (a : Z) (l : list Z) : Prop :=
  match l with
  | [] => next_of t a = 0
  | x :: l => next_of t a = x /\ chain t x l
  end.

Lemma chain_ext t t' a l :
  (forall x, x = a \/ x ∈ l -> next_of t' x = next_of t x) -> chain t a l -> chain t' a l.
Proof.
  revert a. induction l as [|x l IH]; intros a Hn; simpl.
  - rewrite Hn; [done|by left].
  - intros [Hx Hc]. split; [rewrite Hn; [done|by left]|].
    apply IH; [|done]. intros y Hy. apply Hn. right. apply elem_of_cons.
    destruct Hy; auto.
Qed.

(** Chains from two places that continue alike *)
Lemma chain_from t t' a b l :
  next_of t' a = next_of t b -> (forall x, x ∈ l -> next_of t' x = next_of t x) ->
  chain t b l -> chain t' a l.
Proof.
  destruct l as [|x l]; intros Hab Hn; [simpl; congruence|].
  intros [Hx Hc]. split; [congruence|]. eapply chain_ext; [|done].
  intros y Hy. apply Hn. apply elem_of_cons. destruct Hy; auto.
Qed.

(** Unlinking [i] from the chain: its predecessor takes over its link. *)
Lemma chain_remove t t' a l1 i l2 :
  chain t a (l1 ++ i :: l2) -> NoDup (a :: l1 ++ i :: l2) ->
  next_of t' (default a (last l1)) = next_of t i ->
  (forall x, x = a \/ x ∈ l1 ++ l2 -> x <> default a (last l1) -> next_of t' x = next_of t x) ->
  chain t' a (l1 ++ l2).
Proof.
  revert a. induction l1 as [|b l1 IH]; intros a; simpl.
  - intros [Ha Hc] [Hna _]%NoDup_cons Hp Hn. apply (chain_from t t' a i); [done| |done].
    intros x Hx. apply Hn; [by right|]. intros ->. apply Hna. by right.
  - intros [Ha Hc] [Hna Hnd]%NoDup_cons Hp Hn.
    assert (Hlast : default a (last (b :: l1)) = default b (last l1)).
    { rewrite last_cons. by destruct (last l1). }
    rewrite Hlast in Hp, Hn. split.
    + rewrite Hn; [done|by left|]. intros ->. apply Hna.
      destruct (last l1) as [y|] eqn:Hl; simpl; [|by left].
      right. apply elem_of_app. left. by apply last_Some_elem_of.
    + apply IH; [done..|]. intros x Hx. apply Hn. right. apply elem_of_cons. destruct Hx; auto.
Qed.

Lemma chain_split t a l i :
  chain t a l -> i ∈ l -> exists l1 l2, l = l1 ++ i :: l2 /\ i ∉ l1.
Proof. intros _. intros (l1 & l2 & -> & ?)%list_elem_of_split_l. eauto. Qed.

(** A space between two steps of an operation: [X] are the entries the operation is
    working on, [H] the entries linked in the hash table, [l] the free list. *)
Record space_inv (X H : gset Z) (l : list Z) (s : ipc_space) : Prop := {
  si_size : is_table_size s = tlen (is_table s);
  si_bound : 0 < is_table_size s <= MACH_PORT_INDEX MACH_PORT_DEAD;
  si_low : 0 <= is_low_mod s <= is_table_size s;
  si_high : 0 <= is_high_mod s < is_table_size s;
  si_X : forall i, i ∈ X -> 0 < i < is_table_size s;
  si_chain : chain (is_table s) 0 l;
  si_nodup : NoDup l;
  si_count : is_table_free s = Z.of_nat (length l);
  si_zero : IE_BITS_TYPE (ie_bits (entry_at (is_table s) 0)) = MACH_PORT_TYPE_NONE /\
            ie_object (entry_at (is_table s) 0) = IO_NULL;
  si_free : forall i, i ∈ l -> 0 < i < is_table_size s /\ (i ∉ X) /\
            IE_BITS_TYPE (ie_bits (entry_at (is_table s) i)) = MACH_PORT_TYPE_NONE /\
            ie_object (entry_at (is_table s) i) = IO_NULL;
  si_all : forall i, 0 < i < is_table_size s -> i ∉ X ->
            IE_BITS_TYPE (ie_bits (entry_at (is_table s) i)) = MACH_PORT_TYPE_NONE -> i ∈ l;
  si_hash : hash_repr (is_table s) H;
  si_send : forall i, 0 < i < is_table_size s -> i ∉ X ->
            (i ∈ H <-> IE_BITS_TYPE (ie_bits (entry_at (is_table s) i)) = MACH_PORT_TYPE_SEND);
}.

(** A space no operation is working on *)
Definition space_ok (s : ipc_space) : Prop := exists H l, space_inv ∅ H l s.

Section space_inv.
Context (X H : gset Z) (l : list Z) (s : ipc_space) (HI : space_inv X H l s).

Lemma si_free_length : Z.of_nat (length l) < is_table_size s.
Proof.
  pose proof (si_bound _ _ _ _ HI).
  assert (Hsub : l ⊆+ seqZ 1 (is_table_size s - 1)).
  { apply NoDup_submseteq; [apply HI|]. intros x (? & _)%(si_free _ _ _ _ HI).
    apply elem_of_seqZ. lia. }
  apply submseteq_length in Hsub. rewrite length_seqZ in Hsub. lia.
Qed.

Lemma si_hash_range i : i ∈ H -> 0 < i < is_table_size s.
Proof.
  intros Hi. rewrite (si_size _ _ _ _ HI).
  by apply (ri_mem _ _ _ _ (hr_ring _ _ (si_hash _ _ _ _ HI))).
Qed.

Lemma si_hash_not_free i : i ∈ H -> i ∉ X -> i ∉ l.
Proof.
  intros Hi HX Hl. pose proof (si_hash_range i Hi) as Hr.
  apply (si_free _ _ _ _ HI) in Hl as (_ & _ & Ht & _).
  apply (si_send _ _ _ _ HI i Hr HX) in Hi. rewrite Hi in Ht. done.
Qed.

(** Start working on an entry that is in use. *)
Lemma space_inv_open i :
  0 < i < is_table_size s ->
  IE_BITS_TYPE (ie_bits (entry_at (is_table s) i)) <> MACH_PORT_TYPE_NONE ->
  space_inv ({[i]} ∪ X) H l s.
Proof.
  intros Hi Ht. destruct HI. split; try done.
  - intros j [->%elem_of_singleton|?]%elem_of_union; auto.
  - intros j Hj. destruct (si_free0 j Hj) as (? & ? & Hty & ?). split_and!; [lia..| |done|done].
    intros [->%elem_of_singleton|?]%elem_of_union; done.
  - intros j Hj HX. apply si_all0; [done|]. set_solver.
  - intros j Hj HX. apply si_send0; [done|]. set_solver.
Qed.

(** Be done with an entry that is in use. *)
Lemma space_inv_close i :
  IE_BITS_TYPE (ie_bits (entry_at (is_table s) i)) <> MACH_PORT_TYPE_NONE ->
  (i ∈ H <-> IE_BITS_TYPE (ie_bits (entry_at (is_table s) i)) = MACH_PORT_TYPE_SEND) ->
  space_inv (X ∖ {[i]}) H l s.
Proof.
  intros Ht Hs. destruct HI. split; try done.
  - intros j [??]%elem_of_difference. auto.
  - intros j Hj. destruct (si_free0 j Hj) as (? & ? & Hty & ?). split_and!; [lia..| |done|done].
    set_solver.
  - intros j Hj HX Hty. destruct (decide (j = i)) as [->|]; [done|].
    apply si_all0; [done| |done]. set_solver.
  - intros j Hj HX. destruct (decide (j = i)) as [->|]; [done|]. apply si_send0; [done|]. set_solver.
Qed.

(** Write to an entry that is being worked on. *)
Lemma space_inv_put i e :
  i ∈ X -> ie_index e = ie_index (entry_at (is_table s) i) ->
  (i ∈ H -> ie_object e = ie_object (entry_at (is_table s) i)) ->
  space_inv X H l (set_is_table (put (is_table s) i e) s).
Proof.
  intros HiX Hix Hob. pose proof (si_X _ _ _ _ HI i HiX) as Hi. destruct HI.
  assert (Hr : 0 <= i < tlen (is_table s)) by lia.
  assert (Hne : forall j, 0 <= j -> j ∉ X -> entry_at (put (is_table s) i e) j = entry_at (is_table s) j).
  { intros j Hj HX. apply entry_at_put_ne; [done..|]. by intros ->. }
  split; simpl; try done.
  - by rewrite tlen_put.
  - eapply chain_ext; [|done]. intros x Hx. unfold next_of. rewrite Hne; [done| |].
    + destruct Hx as [->|Hx%si_free0]; lia.
    + intros HX. destruct Hx as [->|Hx%si_free0]; [apply si_X0 in HX; lia|by destruct Hx as (_ & ? & _)].
  - rewrite Hne; [done|lia|]. intros ?%si_X0. lia.
  - intros j Hj. destruct (si_free0 j Hj) as (? & ? & ? & ?).
    rewrite Hne by (done || lia). done.
  - intros j Hj HX. rewrite Hne by (done || lia). by apply si_all0.
  - apply (hash_repr_frame (is_table s)); [done|unfold put; by rewrite length_insert| |].
    + intros h Hh. rewrite !slot_of_at, entry_at_put by (unfold tlen in *; lia).
      by destruct (decide (i = h)) as [->|].
    + intros j Hj. pose proof (si_hash_range j Hj). rewrite !obj_of_at, entry_at_put by lia.
      destruct (decide (i = j)) as [->|]; auto.
  - intros j Hj HX. rewrite Hne by (done || lia). by apply si_send0.
Qed.
End space_inv.

(** ** Operations *)

Ltac wp_prim ::=
  lazymatch goal with
  | |- wp (tget _) _ _ => apply wp_tget
  | |- wp (tmod _ _) _ _ => apply wp_tmod
  end.

Section ops.
Context (X H : gset Z) (l : list Z) (s : ipc_space) (HI : space_inv X H l s).

Lemma entries_hold_loop_ok n a (l1 l2 : list Z) :
  l = l1 ++ l2 -> chain (is_table s) a l2 -> 0 <= a < is_table_size s ->
  entries_hold_loop n a s =
    Ok (if (n <=? length l2)%nat then KERN_SUCCESS else KERN_NO_SPACE, s).
Proof.
  revert a l1 l2. induction n as [|n IH]; intros a l1 l2 Hl Hc Ha; [done|].
  pose proof (si_size _ _ _ _ HI) as Hsz.
  cut (wp (entries_hold_loop (S n) a) s (fun kr s' => s' = s /\
    kr = if (S n <=? length l2)%nat then KERN_SUCCESS else KERN_NO_SPACE)).
  { intros (kr & s' & -> & -> & ->)%wp_inv. done. }
  cbn [entries_hold_loop]. wp_step. wp_step; [lia|].
  change (ie_next (entry_at (is_table s) a)) with (next_of (is_table s) a).
  destruct l2 as [|x l2]; [simpl in Hc; rewrite Hc; cbn [Z.eqb]; by wp_step|]. destruct Hc as [Hx Hc].
  assert (Hxl : x ∈ l) by (rewrite Hl; apply elem_of_app; right; left).
  destruct (si_free _ _ _ _ HI x Hxl) as (Hr & _ & _ & Hob).
  rewrite Hx, (proj2 (Z.eqb_neq x 0)) by lia. do 4 wp_step; [apply Z.ltb_lt; lia|].
  do 2 wp_step; [lia|]. do 2 wp_step; [by apply Z.eqb_eq|].
  unfold wp. rewrite (IH x (l1 ++ [x]) l2); [done| |done|lia]. by rewrite <- app_assoc.
Qed.

(** [ipc_entries_hold] counts the free list. *)
Lemma ipc_entries_hold_ok n :
  is_active s = true ->
  ipc_entries_hold n s =
    Ok (if n <=? Z.of_nat (length l) then KERN_SUCCESS else KERN_NO_SPACE, s).
Proof.
  intros Hact. unfold ipc_entries_hold, mbind, M_bind, get, massert, lift, rassert. rewrite Hact.
  pose proof (si_bound _ _ _ _ HI).
  rewrite (entries_hold_loop_ok _ 0 [] l) by (done || lia || apply HI).
  do 2 f_equal. destruct (Nat.leb_spec (Z.to_nat n) (length l)), (Z.leb_spec n (Z.of_nat (length l)));
    (done || lia).
Qed.
End ops.

(** What an operation on entries leaves alone: the rights of every entry not in [Y] (a
    free entry may get another link), and everything of the space but its table, its
    free count and its modification marks. *)
Definition same_entry (e e' : ipc_entry) : Prop :=
  ie_object e' = ie_object e /\ ie_bits e' = ie_bits e /\
  (IE_BITS_TYPE (ie_bits e) <> MACH_PORT_TYPE_NONE -> e' = e).

#[global] Instance same_entry_refl : Reflexive same_entry.
Proof. by intros e. Qed.

Definition same_but (Y : gset Z) (s s' : ipc_space) : Prop :=
  s' = set_is_table_free (is_table_free s') (set_is_table (is_table s')
         (set_is_low_mod (is_low_mod s') (set_is_high_mod (is_high_mod s') s))) /\
  tlen (is_table s') = tlen (is_table s) /\
  forall j, 0 < j < tlen (is_table s) -> j ∉ Y ->
    same_entry (entry_at (is_table s) j) (entry_at (is_table s') j).

(** Unlinking a free entry from the free list *)
Lemma space_inv_unlink X H l1 i l2 s t' :
  space_inv X H (l1 ++ i :: l2) s ->
  let p := default 0 (last l1) in
  tlen t' = tlen (is_table s) ->
  (forall j, 0 <= j < tlen (is_table s) -> j <> i -> j <> p ->
    entry_at t' j = entry_at (is_table s) j) ->
  entry_at t' p = set_ie_next (next_of (is_table s) i) (entry_at (is_table s) p) ->
  ie_index (entry_at t' i) = ie_index (entry_at (is_table s) i) ->
  space_inv ({[i]} ∪ X) H (l1 ++ l2)
    (set_is_table_free (u32 (is_table_free s - 1)) (set_is_table t' s)).
Proof.
  intros HI p Hlen Hne Hp Hi. pose proof (si_free_length _ _ _ _ HI) as Hfl.
  assert (HHr : forall j, j ∈ H -> 0 <= j < is_table_size s)
    by (intros j Hj%(si_hash_range _ _ _ _ HI); lia).
  destruct HI. set (t := is_table s) in *.
  assert (Hnd0 : NoDup (0 :: l1 ++ i :: l2)).
  { apply NoDup_cons. split; [|done]. intros (? & _)%si_free0. lia. }
  destruct (si_free0 i) as (Hir & HiX & Hit & Hio); [apply elem_of_app; right; left|].
  assert (Hpl : p = 0 \/ p ∈ l1).
  { unfold p. destruct (last l1) eqn:Hl; [right; by apply last_Some_elem_of|by left]. }
  assert (Hpi : p <> i).
  { intros Heq. rewrite Heq in Hpl. apply NoDup_app in si_nodup0 as (_ & Hd & _).
    destruct Hpl as [?|Hpl]; [lia|]. by apply (Hd i Hpl); left. }
  assert (Hpr : 0 <= p < is_table_size s).
  { destruct Hpl as [->|Hpl]; [lia|]. destruct (si_free0 p); [apply elem_of_app; by left|lia]. }
  assert (Hsame : forall j, 0 <= j < tlen t -> j <> i ->
    ie_object (entry_at t' j) = ie_object (entry_at t j) /\
    ie_bits (entry_at t' j) = ie_bits (entry_at t j) /\
    ie_index (entry_at t' j) = ie_index (entry_at t j)).
  { intros j Hj Hji. destruct (decide (j = p)) as [->|Hjp]; [by rewrite Hp|by rewrite Hne]. }
  assert (Hin : forall j, j ∈ l1 ++ l2 -> j ∈ l1 ++ i :: l2 /\ j <> i).
  { intros j Hj. apply NoDup_app in si_nodup0 as (_ & Hd & [Hni _]%NoDup_cons). split.
    - rewrite elem_of_app, elem_of_cons in *. tauto.
    - intros ->. apply elem_of_app in Hj as [Hj|Hj]; [by apply (Hd i Hj); left|done]. }
  split; simpl; try done.
  - lia.
  - intros j [->%elem_of_singleton|?]%elem_of_union; auto.
  - apply (chain_remove t t' 0 l1 i l2); [done..| |].
    + fold p. unfold next_of at 1. by rewrite Hp.
    + fold p. intros x Hx Hxp. unfold next_of. rewrite Hne; [done| |by destruct Hx as [->|[]%Hin]; lia|done].
      destruct Hx as [->|[(? & _)%si_free0 _]%Hin]; lia.
  - rewrite <- Permutation_middle in si_nodup0. by apply NoDup_cons in si_nodup0 as [_ ?].
  - rewrite si_count0, length_app, length_app in *. simpl in *. unfold u32.
    change (MACH_PORT_INDEX MACH_PORT_DEAD) with 0xffffff in *. rewrite Z.mod_small; lia.
  - destruct (Hsame 0) as (-> & -> & _); [lia..|done].
  - intros j [Hj Hji]%Hin. destruct (si_free0 j Hj) as (? & ? & ? & ?).
    destruct (Hsame j) as (-> & -> & _); [lia|done|]. split_and!; [lia..| |done|done]. set_solver.
  - intros j Hj HX Ht. assert (j <> i) by set_solver.
    destruct (Hsame j) as (_ & Hb & _); [lia|done|]. rewrite Hb in Ht.
    assert (Hjl : j ∈ l1 ++ i :: l2) by (apply si_all0; [done|set_solver|done]).
    rewrite elem_of_app, elem_of_cons in *. tauto.
  - apply (hash_repr_frame t); [done|unfold tlen in Hlen; lia| |].
    + intros h Hh. rewrite !slot_of_at. destruct (decide (h = i)) as [->|Hhi]; [done|].
      by apply Hsame.
    + intros j Hj. rewrite !obj_of_at. apply Hsame.
      * rewrite <- si_size0. by apply HHr.
      * intros ->. apply si_send0 in Hj; [by rewrite Hj in Hit|done..].
  - intros j Hj HX. assert (j <> i) by set_solver.
    destruct (Hsame j) as (_ & -> & _); [lia|done|]. apply si_send0; [done|set_solver].
Qed.

(** Taking the first free entry *)
Lemma ipc_entry_claim_ok X H i l s :
  space_inv X H (i :: l) s ->
  wp ipc_entry_claim s (fun r s' =>
    let gen := IE_BITS_NEW_GEN (ie_bits (entry_at (is_table s) i)) in
    r = (MACH_PORT_MAKE i gen, i) /\
    space_inv ({[i]} ∪ X) H l s' /\ same_but {[i]} s s' /\
    entry_at (is_table s') i =
      mk_ipc_entry IO_NULL gen (ie_index (entry_at (is_table s) i)) IE_REQ_NONE /\
    is_low_mod s' = is_low_mod s /\ is_high_mod s' = is_high_mod s).
Proof.
  intros HI. pose proof (si_size _ _ _ _ HI) as Hsz. pose proof (si_bound _ _ _ _ HI) as Hb.
  pose proof (si_chain _ _ _ _ HI) as Hc. cbn [chain] in Hc. destruct Hc as [Hn0 Hc].
  destruct (si_free _ _ _ _ HI i) as (Hi & HiX & Hti & Hoi); [by left|].
  set (ei := entry_at (is_table s) i) in *. unfold next_of in Hn0.
  unfold ipc_entry_claim. do 2 wp_step; [lia|]. rewrite Hn0.
  do 2 wp_step; [by rewrite (proj2 (Z.eqb_neq i 0)) by lia|].
  do 2 wp_step; [lia|]. do 2 wp_step; [lia|]. do 2 wp_step.
  do 2 wp_step; [simpl; rewrite tlen_put; lia|]. do 2 wp_step. simpl. fold ei.
  rewrite entry_at_put_eq by lia.
  do 2 wp_step.
  { apply Z.ltb_lt. simpl. change (ie_next ei) with (next_of (is_table s) i). destruct l as [|x l']; simpl in Hc.
    - rewrite Hc. lia.
    - destruct Hc as [-> _]. apply (si_free _ _ _ _ HI). by right; left. }
  do 2 wp_step; [simpl; rewrite tlen_put; lia|].
  do 2 wp_step; [simpl; rewrite !tlen_put; lia|].
  do 2 wp_step; [apply MAKE_valid; [lia|apply NEW_GEN_ok]|]. wp_step. simpl.
  repeat (rewrite ?entry_at_put_eq, ?entry_at_put_ne by (rewrite ?tlen_put; lia)).
  fold ei. assert (set_ie_request IE_REQ_NONE (set_ie_bits (IE_BITS_NEW_GEN (ie_bits ei)) ei) =
    mk_ipc_entry IO_NULL (IE_BITS_NEW_GEN (ie_bits ei)) (ie_index ei) IE_REQ_NONE) as ->.
  { unfold set_ie_request, set_ie_bits. simpl. by rewrite Hoi. }
  split_and!; [done| | |done..].
  - match goal with |- space_inv _ _ _ (set_is_table ?t _) =>
      apply (space_inv_unlink X H [] i l s t) end; [done|by rewrite !tlen_put|..]; simpl.
    + intros j Hj Hji Hj0. by rewrite !entry_at_put_ne by (rewrite ?tlen_put; lia).
    + by rewrite !entry_at_put_ne, entry_at_put_eq by (rewrite ?tlen_put; lia).
    + by rewrite entry_at_put_eq by (rewrite ?tlen_put; lia).
  - split; [by destruct s|]. simpl. split; [by rewrite !tlen_put|]. intros j Hj Hji.
    assert (i <> j) by set_solver.
    by rewrite !entry_at_put_ne by (rewrite ?tlen_put; lia).
Qed.

(** Noting a modification *)
Lemma ipc_entry_modified_ok X H l s name i :
  space_inv X H l s -> MACH_PORT_INDEX name = i -> 0 <= i < is_table_size s ->
  exists s', ipc_entry_modified name i s = Ok (tt, s') /\ space_inv X H l s' /\
    s' = set_is_low_mod (Z.min i (is_low_mod s)) (set_is_high_mod (Z.max i (is_high_mod s)) s).
Proof.
  intros HI Hn Hi. pose proof (si_low _ _ _ _ HI). pose proof (si_high _ _ _ _ HI).
  set (s' := set_is_low_mod (Z.min i (is_low_mod s)) (set_is_high_mod (Z.max i (is_high_mod s)) s)).
  exists s'. split_and!; [|destruct HI; split; simpl; (done || lia)|done].
  cut (wp (ipc_entry_modified name i) s (fun _ s1 => s1 = s')).
  { intros ([] & ? & -> & ->)%wp_inv. done. }
  unfold ipc_entry_modified. rewrite Hn. do 2 wp_step.
  do 2 wp_step; [apply Z.ltb_lt; lia|]. do 2 wp_step; [apply Z.eqb_refl|].
  do 2 wp_step; [apply Z.leb_le; lia|]. do 2 wp_step; [apply Z.ltb_lt; lia|].
  do 2 wp_step; bool_to_prop; repeat wp_step; bool_to_prop; unfold s'; destruct s; simpl in *;
    unfold set_is_low_mod, set_is_high_mod; simpl; f_equal; lia.
Qed.

(** Linking an entry into the free list *)
Lemma space_inv_link X H l i s t' :
  space_inv X H l s -> i ∈ X -> i ∉ H ->
  tlen t' = tlen (is_table s) ->
  (forall j, 0 <= j < tlen (is_table s) -> j <> i -> j <> 0 ->
    entry_at t' j = entry_at (is_table s) j) ->
  entry_at t' 0 = set_ie_next i (entry_at (is_table s) 0) ->
  next_of t' i = next_of (is_table s) 0 ->
  ie_index (entry_at t' i) = ie_index (entry_at (is_table s) i) ->
  IE_BITS_TYPE (ie_bits (entry_at t' i)) = MACH_PORT_TYPE_NONE ->
  ie_object (entry_at t' i) = IO_NULL ->
  space_inv (X ∖ {[i]}) H (i :: l)
    (set_is_table_free (u32 (is_table_free s + 1)) (set_is_table t' s)).
Proof.
  intros HI HiX HiH Hlen Hne H0 Hni Hix Hty Hob. pose proof (si_free_length _ _ _ _ HI) as Hfl.
  assert (HHr : forall j, j ∈ H -> 0 < j < is_table_size s)
    by (intros j Hj%(si_hash_range _ _ _ _ HI); lia).
  destruct HI. set (t := is_table s) in *. pose proof (si_X0 i HiX) as Hir.
  assert (Hil : i ∉ l) by (by intros (_ & ? & _)%si_free0).
  assert (Hsame : forall j, 0 <= j < tlen t -> j <> i ->
    ie_object (entry_at t' j) = ie_object (entry_at t j) /\
    ie_bits (entry_at t' j) = ie_bits (entry_at t j) /\
    ie_index (entry_at t' j) = ie_index (entry_at t j)).
  { intros j Hj Hji. destruct (decide (j = 0)) as [->|Hjp]; [by rewrite H0|by rewrite Hne]. }
  split; simpl; try done.
  - lia.
  - intros j [? _]%elem_of_difference. auto.
  - split; [unfold next_of; by rewrite H0|]. apply (chain_from t t' i 0); [done| |done].
    intros x Hx. destruct (si_free0 x Hx) as (? & _). unfold next_of.
    rewrite Hne; [done|lia| |lia]. by intros ->.
  - by apply NoDup_cons.
  - rewrite si_count0. unfold u32. change (MACH_PORT_INDEX MACH_PORT_DEAD) with 0xffffff in *.
    rewrite Z.mod_small; lia.
  - destruct (Hsame 0) as (-> & -> & _); [lia..|done].
  - intros j [->|Hj]%elem_of_cons; [split_and!; [lia..|set_solver|done|done]|].
    destruct (si_free0 j Hj) as (? & ? & ? & ?).
    destruct (Hsame j) as (-> & -> & _); [lia|by intros ->|]. split_and!; [lia..| |done|done].
    set_solver.
  - intros j Hj HX Ht. apply elem_of_cons. destruct (decide (j = i)) as [->|Hji]; [by left|right].
    destruct (Hsame j) as (_ & Hb & _); [lia|done|]. rewrite Hb in Ht.
    apply si_all0; [done|set_solver|done].
  - apply (hash_repr_frame t); [done|unfold tlen in Hlen; lia| |].
    + intros h Hh. rewrite !slot_of_at. destruct (decide (h = i)) as [->|Hhi]; [done|].
      by apply Hsame.
    + intros j Hj. rewrite !obj_of_at. apply Hsame; [|by intros ->].
      apply HHr in Hj. lia.
  - intros j Hj HX. destruct (decide (j = i)) as [->|Hji]; [by rewrite Hty|].
    destruct (Hsame j) as (_ & -> & _); [lia|done|]. apply si_send0; [done|set_solver].
Qed.

(** Putting an entry back on the free list *)
Lemma ipc_entry_dealloc_ok X H l s name i :
  space_inv X H l s -> is_active s = true -> i ∈ X -> i ∉ H ->
  MACH_PORT_INDEX name = i ->
  let e := entry_at (is_table s) i in
  ie_object e = IO_NULL -> ie_request e = IE_REQ_NONE ->
  IE_BITS_GEN (ie_bits e) = MACH_PORT_GEN name ->
  wp (ipc_entry_dealloc name i) s (fun _ s' =>
    space_inv (X ∖ {[i]}) H (i :: l) s' /\ same_but {[i]} s s' /\
    ie_bits (entry_at (is_table s') i) = IE_BITS_GEN (ie_bits e) /\
    is_low_mod s' = Z.min i (is_low_mod s) /\ is_high_mod s' = Z.max i (is_high_mod s)).
Proof.
  intros HI Hact HiX HiH Hn e Hob Hrq Hg. pose proof (si_X _ _ _ _ HI i HiX) as Hi.
  pose proof (si_size _ _ _ _ HI) as Hsz.
  unfold ipc_entry_dealloc. do 4 wp_step; [done|]. do 2 wp_step; [lia|]. fold e.
  rewrite Hob, Hrq. simpl. do 2 wp_step; [done|]. do 2 wp_step; [done|]. do 2 wp_step.
  rewrite Hn. wp_step.
  rewrite (proj2 (Z.ltb_lt i (is_table_size s))), Z.eqb_refl by lia. cbn [andb].
  do 2 wp_step; [by apply Z.eqb_eq|].
  do 2 wp_step; [lia|]. do 2 wp_step; [simpl; rewrite tlen_put; lia|].
  do 2 wp_step; [simpl; rewrite tlen_put; lia|].
  do 2 wp_step; [simpl; rewrite !tlen_put; lia|]. wp_step. simpl. fold e.
  repeat (rewrite ?entry_at_put_eq, ?entry_at_put_ne by (rewrite ?tlen_put; lia)).
  match goal with |- wp _ ?s0 _ => set (s1 := s0) end.
  assert (HI1 : space_inv (X ∖ {[i]}) H (i :: l) s1).
  { unfold s1. match goal with |- space_inv _ _ _ (set_is_table_free _ (set_is_table ?t _)) =>
      apply (space_inv_link X H l i s t) end; [done|done|done|by rewrite !tlen_put|..]; simpl.
    - intros j Hj Hji Hj0. by rewrite !entry_at_put_ne by (rewrite ?tlen_put; lia).
    - by rewrite entry_at_put_eq by (rewrite ?tlen_put; lia).
    - unfold next_of at 1. by rewrite entry_at_put_ne, entry_at_put_eq by (rewrite ?tlen_put; lia).
    - by rewrite entry_at_put_ne, entry_at_put_eq by (rewrite ?tlen_put; lia).
    - rewrite entry_at_put_ne, entry_at_put_eq by (rewrite ?tlen_put; lia). apply IE_BITS_TYPE_GEN.
    - by rewrite entry_at_put_ne, entry_at_put_eq by (rewrite ?tlen_put; lia). }
  destruct (ipc_entry_modified_ok _ _ _ s1 name i HI1 Hn) as (s' & Hrun & HI' & ->); [simpl; lia|].
  eapply wp_Ok; [done|]. split_and!; [done| |..].
  - split; [by destruct s|]. simpl. split; [by rewrite !tlen_put|]. intros j Hj Hji.
    assert (i <> j) by set_solver. by rewrite !entry_at_put_ne by (rewrite ?tlen_put; lia).
  - simpl. by rewrite entry_at_put_ne, entry_at_put_eq by (rewrite ?tlen_put; lia).
  - done.
  - done.
Qed.

(** The lookup of a name *)
Definition names_entry (s : ipc_space) (name : Z) : bool :=
  let e := entry_at (is_table s) (MACH_PORT_INDEX name) in
  (MACH_PORT_INDEX name <? is_table_size s)
  && (IE_BITS_GEN (ie_bits e) =? MACH_PORT_GEN name)
  && negb (IE_BITS_TYPE (ie_bits e) =? MACH_PORT_TYPE_NONE).

Lemma ipc_entry_lookup_ok X H l s name :
  space_inv X H l s -> is_active s = true -> 0 <= name ->
  ipc_entry_lookup name s =
    Ok (if names_entry s name then Some (MACH_PORT_INDEX name) else None, s).
Proof.
  intros HI Hact Hn. pose proof (si_size _ _ _ _ HI) as Hsz.
  assert (0 <= MACH_PORT_INDEX name) by (rewrite MACH_PORT_INDEX_div; by apply Z.div_pos).
  cut (wp (ipc_entry_lookup name) s (fun r s' => s' = s /\
    r = if names_entry s name then Some (MACH_PORT_INDEX name) else None)).
  { intros (r & s' & -> & -> & ->)%wp_inv. done. }
  unfold ipc_entry_lookup, names_entry. do 4 wp_step; [done|].
  destruct (Z.ltb_spec (MACH_PORT_INDEX name) (is_table_size s)); [|by wp_step].
  do 2 wp_step; [lia|].
  destruct (IE_BITS_GEN _ =? _), (IE_BITS_TYPE _ =? MACH_PORT_TYPE_NONE) eqn:Ht; cbn [negb andb orb];
    try by wp_step.
  do 2 wp_step; [|by wp_step]. unfold MACH_PORT_TYPE_NONE in Ht. by rewrite Ht.
Qed.

Lemma find_free_index_ok s i fuel l1 a l2 :
  (forall x, x = a \/ x ∈ l1 -> 0 <= x < tlen (is_table s)) ->
  chain (is_table s) a (l1 ++ i :: l2) -> i ∉ l1 -> (length l1 < fuel)%nat ->
  find_free_index fuel i a s = Ok (default a (last l1), s).
Proof.
  revert l1 a. induction fuel as [|fuel IH]; intros l1 a Hr Hc Hni Hf; [lia|].
  cut (wp (find_free_index (S fuel) i a) s (fun r s' => r = default a (last l1) /\ s' = s)).
  { intros (? & ? & -> & -> & ->)%wp_inv. done. }
  cbn [find_free_index]. do 2 wp_step; [apply Hr; by left|].
  change (ie_next (entry_at (is_table s) a)) with (next_of (is_table s) a).
  destruct l1 as [|b l1]; destruct Hc as [-> Hc]; [rewrite Z.eqb_refl; by wp_step|].
  apply not_elem_of_cons in Hni as [Hib Hni].
  rewrite (proj2 (Z.eqb_neq b i)) by done. unfold wp. rewrite (IH l1 b); simpl in *.
  - split; [|done]. rewrite last_cons. by destruct (last l1).
  - intros x Hx. apply Hr. right. apply elem_of_cons. destruct Hx; auto.
  - done.
  - done.
  - lia.
Qed.

(** [ipc_entry_alloc_name] for a free entry of the table: the entry is taken out of the
    free list, wherever it is, and gets the requested generation. *)
Lemma alloc_name_at_free X H l s i g :
  space_inv X H l s -> i ∈ l -> gen_ok g ->
  wp (alloc_name_at i g) s (fun r s' =>
    r = inr i /\ (exists l', space_inv ({[i]} ∪ X) H l' s') /\ same_but {[i]} s s' /\
    entry_at (is_table s') i = mk_ipc_entry IO_NULL g (ie_index (entry_at (is_table s) i)) IE_REQ_NONE).
Proof.
  intros HI Hil Hg. pose proof (si_size _ _ _ _ HI) as Hsz. pose proof (si_bound _ _ _ _ HI) as Hb.
  destruct (si_free _ _ _ _ HI i Hil) as (Hi & HiX & Hti & Hoi).
  apply list_elem_of_split_l in Hil as (l1 & l2 & -> & Hil1). set (p := default 0 (last l1)).
  pose proof (si_free_length _ _ _ _ HI) as Hfl. rewrite length_app in Hfl.
  assert (Hl1 : forall x, x ∈ l1 -> 0 < x < is_table_size s).
  { intros x Hx. apply (si_free _ _ _ _ HI). apply elem_of_app. by left. }
  assert (Hp : (p = 0 \/ p ∈ l1) /\ 0 <= p < is_table_size s).
  { unfold p. destruct (last l1) eqn:Hl; simpl; [|split; [by left|lia]].
    apply last_Some_elem_of in Hl. split; [by right|]. apply Hl1 in Hl. lia. }
  destruct Hp as [Hp Hpr]. assert (Hpi : p <> i) by (intros ->; destruct Hp; [lia|done]).
  set (ei := entry_at (is_table s) i) in *. set (ep := entry_at (is_table s) p).
  unfold alloc_name_at. do 2 wp_step; [lia|]. fold ei.
  rewrite (proj2 (Z.eqb_neq i 0)) by lia. rewrite Hti. cbn [negb Z.eqb MACH_PORT_TYPE_NONE].
  do 3 wp_step. eapply wp_Ok.
  { apply (find_free_index_ok s i _ l1 0 l2); [|apply HI|done|lia].
    intros x [->|Hx%Hl1]; lia. }
  fold p. do 2 wp_step; [lia|]. fold ep. do 2 wp_step.
  do 2 wp_step; [simpl; rewrite tlen_put; lia|]. simpl. rewrite entry_at_put_eq by lia. simpl.
  match goal with |- wp _ ?s0 _ => set (s1 := s0) end.
  assert (HI1 : space_inv ({[i]} ∪ X) H (l1 ++ l2) s1).
  { unfold s1. match goal with |- space_inv _ _ _ (set_is_table_free _ (set_is_table ?t _)) =>
      apply (space_inv_unlink X H l1 i l2 s t) end; [done|by rewrite !tlen_put|..]; fold p; simpl.
    - intros j Hj Hji Hj0. by rewrite !entry_at_put_ne by (rewrite ?tlen_put; lia).
    - by rewrite entry_at_put_eq by lia.
    - by rewrite entry_at_put_ne by lia. }
  assert (index_ok p).
  { unfold index_ok. change (MACH_PORT_INDEX MACH_PORT_DEAD) with 0xffffff in Hb. lia. }
  destruct (ipc_entry_modified_ok _ _ _ s1 (MACH_PORT_MAKE p (IE_BITS_GEN (ie_bits ep))) p HI1)
    as (s2 & Hrun & HI2 & Hs2); [apply index_MAKE; [done|apply gen_ok_GEN]|done|].
  wp_step. eapply wp_Ok; [done|]. assert (Ht2 : is_table s2 = is_table s1) by (by rewrite Hs2).
  assert (Hl2 : tlen (is_table s2) = tlen (is_table s)) by (rewrite Ht2; simpl; by rewrite tlen_put).
  assert (Hei : entry_at (is_table s2) i = ei) by (rewrite Ht2; simpl; by rewrite entry_at_put_ne by lia).
  do 2 wp_step; [lia|]. do 2 wp_step; [simpl; rewrite tlen_put; lia|]. simpl.
  do 2 wp_step; [simpl; rewrite !tlen_put; lia|]. simpl. rewrite !entry_at_put_eq by (rewrite ?tlen_put; lia).
  do 2 wp_step; [simpl; by rewrite Hei, Hoi|]. wp_step. rewrite Hei.
  split_and!; [done| | |].
  - exists (l1 ++ l2).
    set (e1 := set_ie_bits g ei). set (e2 := set_ie_request IE_REQ_NONE e1).
    assert (HiH : i ∉ H).
    { intros HiH. apply (si_hash_not_free _ _ _ _ HI i HiH HiX). apply elem_of_app. right. by left. }
    assert (HI3 : space_inv ({[i]} ∪ X) H (l1 ++ l2) (set_is_table (put (is_table s2) i e1) s2)).
    { apply space_inv_put; [done|set_solver|by rewrite Hei|done]. }
    apply (space_inv_put _ _ _ _ HI3 i e2); [set_solver| |done].
    simpl. by rewrite entry_at_put_eq by lia.
  - rewrite Hs2. split; [by destruct s|]. simpl. split; [by rewrite !tlen_put|]. intros j Hj Hji.
    assert (i <> j) by set_solver. rewrite !(entry_at_put_ne _ i) by (rewrite ?tlen_put; lia).
    rewrite entry_at_put by lia. destruct (decide (p = j)) as [<-|]; [|done].
    split_and!; [done..|]. destruct Hp as [?|Hp]; [lia|].
    destruct (si_free _ _ _ _ HI p) as (_ & _ & ? & _); [apply elem_of_app; by left|done].
  - simpl. rewrite entry_at_put_eq by (rewrite tlen_put; lia). unfold set_ie_request, set_ie_bits.
    simpl. by rewrite Hoi.
Qed.

(** [ipc_entry_alloc_name] for an entry in use *)
Lemma alloc_name_at_used X H l s i g :
  space_inv X H l s -> 0 < i < is_table_size s ->
  let bits := ie_bits (entry_at (is_table s) i) in
  IE_BITS_TYPE bits <> MACH_PORT_TYPE_NONE ->
  alloc_name_at i g s = Ok (if IE_BITS_GEN bits =? g then inr i else inl KERN_FAILURE, s).
Proof.
  intros HI Hi bits Ht. pose proof (si_size _ _ _ _ HI) as Hsz.
  cut (wp (alloc_name_at i g) s (fun r s' => s' = s /\
    r = if IE_BITS_GEN bits =? g then inr i else inl KERN_FAILURE)).
  { intros (r & s' & -> & -> & ->)%wp_inv. done. }
  unfold alloc_name_at. do 2 wp_step; [lia|]. fold bits.
  rewrite (proj2 (Z.eqb_neq i 0)), (proj2 (Z.eqb_neq (IE_BITS_TYPE bits) 0)) by (done || lia).
  cbn [negb]. case_match; by wp_step.
Qed.

(** An executable test for [space_inv] *)
Fixpoint chain_check (t : list ipc_entry) (a : Z) (l : list Z) : bool :=
  match l with
  | [] => next_of t a =? 0
  | x :: l => (next_of t a =? x) && chain_check t x l
  end.

Lemma chain_check_sound t a l : chain_check t a l = true -> chain t a l.
Proof.
  revert a. induction l as [|x l IH]; intros a; simpl; intros Hc; bool_to_prop; [done|].
  split; [done|]. by apply IH.
Qed.

Definition space_check (X H : gset Z) (l : list Z) (s : ipc_space) : bool :=
  let n := is_table_size s in
  let typ i := IE_BITS_TYPE (ie_bits (entry_at (is_table s) i)) in
  let obj i := ie_object (entry_at (is_table s) i) in
  bool_decide (n = tlen (is_table s) /\ 0 < n <= MACH_PORT_INDEX MACH_PORT_DEAD /\
    0 <= is_low_mod s <= n /\ 0 <= is_high_mod s < n /\ NoDup l /\
    is_table_free s = Z.of_nat (length l) /\ typ 0 = MACH_PORT_TYPE_NONE /\ obj 0 = IO_NULL)
  && chain_check (is_table s) 0 l
  && forallb (fun i => (0 <? i) && (i <? n)) (elements X)
  && forallb (fun i => bool_decide (0 < i < n /\ (i ∉ X) /\ typ i = MACH_PORT_TYPE_NONE /\
       obj i = IO_NULL)) l
  && forallb (fun i => bool_decide (i ∈ X) ||
       (bool_decide (typ i = MACH_PORT_TYPE_NONE -> i ∈ l) &&
        bool_decide (i ∈ H <-> typ i = MACH_PORT_TYPE_SEND))) (seqZ 1 (n - 1))
  && hash_check (is_table s) H.

Lemma space_check_sound X H l s : space_check X H l s = true -> space_inv X H l s.
Proof.
  unfold space_check. rewrite !andb_true_iff.
  intros [[[[[Hb Hc] HX] Hl] Hall] Hh]. apply bool_decide_eq_true in Hb.
  destruct Hb as (Hn & Hbd & Hlow & Hhigh & Hnd & Hct & Ht0 & Ho0).
  assert (Hrest : forall i, 0 < i < is_table_size s -> i ∉ X ->
    (IE_BITS_TYPE (ie_bits (entry_at (is_table s) i)) = MACH_PORT_TYPE_NONE -> i ∈ l) /\
    (i ∈ H <-> IE_BITS_TYPE (ie_bits (entry_at (is_table s) i)) = MACH_PORT_TYPE_SEND)).
  { intros i Hi HiX. apply (forallb_elem _ _ i) in Hall; [|apply elem_of_seqZ; lia].
    apply orb_prop in Hall as [Hx|Hall]; [by apply bool_decide_eq_true in Hx|].
    apply andb_prop in Hall as [H1 H2]. apply bool_decide_eq_true in H1, H2. done. }
  split; try done.
  - intros i Hi. apply (forallb_elem _ _ i) in HX; [|by apply elem_of_elements].
    cbv beta zeta in HX. bool_to_prop. lia.
  - by apply chain_check_sound.
  - intros i Hi. apply (forallb_elem _ _ i) in Hl; [|done]. by apply bool_decide_eq_true in Hl.
  - intros i Hi HiX. by apply Hrest.
  - by apply hash_check_sound.
  - intros i Hi HiX. by apply Hrest.
Qed.

(** [ipc_entry_get] claims the head of the free list, if there is one. *)
Lemma ipc_entry_get_nil X H s :
  space_inv X H [] s -> is_active s = true -> ipc_entry_get s = Ok (inl KERN_NO_SPACE, s).
Proof.
  intros HI Hact. unfold ipc_entry_get, mbind, M_bind.
  by rewrite (ipc_entries_hold_ok _ _ _ _ HI) by done.
Qed.

Lemma ipc_entry_get_cons X H i l s :
  space_inv X H (i :: l) s -> is_active s = true ->
  ipc_entry_get s = (r ← ipc_entry_claim; mret (inr r)) s.
Proof.
  intros HI Hact. unfold ipc_entry_get, mbind, M_bind at 1.
  rewrite (ipc_entries_hold_ok _ _ _ _ HI) by done.
  rewrite (proj2 (Z.leb_le 1 (Z.of_nat (length (i :: l))))) by (simpl; lia).
  by rewrite decide_True by done.
Qed.

(** The fields of an entry other than its hash link *)
Definition core (e : ipc_entry) : Z * Z * Z := (ie_object e, ie_bits e, ie_request e).

(** [name] was given to entry [i] of [s], which was free; [s'] is the resulting space, in
    which the entry is claimed and everything else is as it was. *)
Definition claimed (s s' : ipc_space) (name i : Z) : Prop :=
  MACH_PORT_VALID name = true /\ MACH_PORT_INDEX name = i /\
  0 < i < is_table_size s' /\ names_entry s name = false /\
  core (entry_at (is_table s') i) = (IO_NULL, MACH_PORT_GEN name, IE_REQ_NONE) /\
  (exists H l, space_inv {[i]} H l s') /\
  forall j, 0 < j < is_table_size s ->
    IE_BITS_TYPE (ie_bits (entry_at (is_table s) j)) <> MACH_PORT_TYPE_NONE ->
    core (entry_at (is_table s') j) = core (entry_at (is_table s) j).

(** [ipc_entry_get] either reports that every entry is in use, changing nothing, or hands out
    a free entry under a valid name that named nothing before. *)
Lemma ipc_entry_get_ok (s : ipc_space) :
  space_ok s -> is_active s = true ->
  (ipc_entry_get s = Ok (inl KERN_NO_SPACE, s) /\
   forall i, 0 < i < is_table_size s ->
     IE_BITS_TYPE (ie_bits (entry_at (is_table s) i)) <> MACH_PORT_TYPE_NONE) \/
  (exists name i s', ipc_entry_get s = Ok (inr (name, i), s') /\ claimed s s' name i /\
   same_but {[i]} s s' /\ IE_BITS_TYPE (ie_bits (entry_at (is_table s) i)) = MACH_PORT_TYPE_NONE /\
   0 <= name < 2 ^ 32).
Proof.
  intros (H & l & HI) Hact. destruct l as [|i l]; [left|right].
  - rewrite (ipc_entry_get_nil _ _ _ HI) by done. split; [done|].
    intros i Hi Ht. apply (si_all _ _ _ _ HI) in Ht; [by apply elem_of_nil in Ht|done|set_solver].
  - rewrite (ipc_entry_get_cons _ _ _ _ _ HI) by done.
    destruct (wp_inv _ _ _ (ipc_entry_claim_ok _ _ _ _ _ HI))
      as (r & s' & Hrun & Hr & HI' & Hbut & He & _). pose proof Hbut as (_ & Hlen & Hsb).
    set (g := IE_BITS_NEW_GEN _) in *. unfold mbind, M_bind. rewrite Hrun, Hr.
    exists (MACH_PORT_MAKE i g), i, s'. split; [done|]. pose proof (si_bound _ _ _ _ HI) as Hb.
    pose proof (si_size _ _ _ _ HI) as Hsz. pose proof (si_size _ _ _ _ HI') as Hsz'.
    destruct (si_free _ _ _ _ HI i) as (Hi & _ & Ht & _); [by left|].
    assert (Hio : index_ok i).
    { unfold index_ok. change (MACH_PORT_INDEX MACH_PORT_DEAD) with 0xffffff in Hb. lia. }
    pose proof (NEW_GEN_ok (ie_bits (entry_at (is_table s) i))) as Hg.
    pose proof (index_MAKE i g Hio Hg) as Hix.
    pose proof (MAKE_range i g Hio Hg). split; [|done]. split_and!; [|done|lia..| | | |].
    + apply MAKE_valid; [lia|done].
    + unfold names_entry. rewrite Hix, Ht. by rewrite andb_false_r.
    + rewrite He. unfold core. by rewrite gen_MAKE.
    + exists H, l. replace {[i]} with ({[i]} ∪ ∅ : gset Z) by set_solver. done.
    + intros j Hj Htj. destruct (Hsb j) as (_ & _ & Hsame); [lia| |by rewrite Hsame].
      intros ->%elem_of_singleton. done.
Qed.

(** ** Properties *)

(** A freed entry is reused first, under the next generation: deallocating a name and
    then allocating gives the same index and another name, and the old name does not
    resolve in the resulting space. *)
Theorem ipc_entry_dealloc_then_get (s : ipc_space) (H : gset Z) (l : list Z) (name i : Z) :
  let e := entry_at (is_table s) i in
  space_inv {[i]} H l s -> is_active s = true -> i ∉ H -> MACH_PORT_INDEX name = i ->
  ie_object e = IO_NULL -> ie_request e = IE_REQ_NONE ->
  IE_BITS_GEN (ie_bits e) = MACH_PORT_GEN name ->
  exists s1 s2,
    let name' := MACH_PORT_MAKE i (IE_BITS_NEW_GEN (MACH_PORT_GEN name)) in
    ipc_entry_dealloc name i s = Ok (tt, s1) /\ names_entry s1 name = false /\
    ipc_entry_get s1 = Ok (inr (name', i), s2) /\ name' <> name /\ names_entry s2 name = false.
Proof.
  intros e HI Hact HiH Hn Hob Hrq Hg.
  destruct (wp_inv _ _ _ (ipc_entry_dealloc_ok _ _ _ _ name i HI Hact (elem_of_singleton_2 _ _ eq_refl)
    HiH Hn Hob Hrq Hg)) as ([] & s1 & Hrun1 & HI1 & (Hs1 & _ & _) & Hb1 & _).
  pose proof (si_X _ _ _ _ HI i (elem_of_singleton_2 _ _ eq_refl)) as Hi.
  pose proof (si_bound _ _ _ _ HI) as Hbd.
  destruct (wp_inv _ _ _ (ipc_entry_claim_ok _ _ _ _ _ HI1)) as (r & s2 & Hrun2 & Hr & _ & _ & He & _).
  assert (Hact1 : is_active s1 = true) by (rewrite Hs1; by destruct s).
  fold e in Hb1. rewrite Hb1, Hg in *. set (g := IE_BITS_NEW_GEN (MACH_PORT_GEN name)) in *.
  exists s1, s2. cbv zeta. unfold names_entry. rewrite Hn, He, Hb1. cbn [ie_bits].
  assert (Hio : index_ok i).
  { unfold index_ok. change (MACH_PORT_INDEX MACH_PORT_DEAD) with 0xffffff in Hbd. lia. }
  assert (Hgg : g <> MACH_PORT_GEN name).
  { unfold g. rewrite NEW_GEN_form, MACH_PORT_GEN_form, Z.div_mul by lia.
    pose proof (Z.mod_pos_bound name (2 ^ 8)). Z.div_mod_to_equations. lia. }
  assert (Hgo : gen_ok g) by apply NEW_GEN_ok.
  assert (Hgn : IE_BITS_GEN g = g) by done.
  split_and!; [done| | | |].
  - rewrite <- Hg, IE_BITS_TYPE_GEN. by rewrite !andb_false_r.
  - rewrite (ipc_entry_get_cons _ _ _ _ _ HI1) by done.
    unfold mbind, M_bind. by rewrite Hrun2, Hr.
  - intros Heq. apply Hgg. by rewrite <- Heq, gen_MAKE at 1.
  - rewrite Hgn, (proj2 (Z.eqb_neq g (MACH_PORT_GEN name))) by done.
    by rewrite andb_false_r.
Qed.

(** A name is an index and a generation, and nothing else: splitting and making a name
    are inverse to each other, for every 32-bit name and every index and generation. *)
Theorem mach_port_name_roundtrip (name i b : Z) :
  (0 <= name < 2 ^ 32 ->
    MACH_PORT_MAKE (MACH_PORT_INDEX name) (MACH_PORT_GEN name) = name) /\
  (0 <= i < 2 ^ 24 ->
    MACH_PORT_INDEX (MACH_PORT_MAKE i (IE_BITS_GEN b)) = i /\
    MACH_PORT_GEN (MACH_PORT_MAKE i (IE_BITS_GEN b)) = IE_BITS_GEN b).
Proof.
  split; [apply MAKE_index_gen|]. intros Hi.
  split; [apply index_MAKE|apply gen_MAKE]; (done || apply gen_ok_GEN).
Qed.

(** Names of an entry repeat with period 64: counting [n] reuses of index [i] from any
    generation, the name is the old one exactly when 64 divides [n]. *)
Theorem generation_period (i b : Z) (n : nat) :
  0 <= i < 2 ^ 24 ->
  MACH_PORT_MAKE i (Nat.iter n IE_BITS_NEW_GEN (IE_BITS_GEN b)) = MACH_PORT_MAKE i (IE_BITS_GEN b)
  <-> (64 | Z.of_nat n).
Proof.
  intros Hi. assert (Hok : gen_ok (Nat.iter n IE_BITS_NEW_GEN (IE_BITS_GEN b))).
  { destruct n; [apply gen_ok_GEN|apply NEW_GEN_ok]. }
  rewrite !MACH_PORT_MAKE_form by (done || apply gen_ok_GEN).
  rewrite NEW_GEN_iter, IE_BITS_GEN_div, !Z.div_mul by lia.
  rewrite <- Z.mod_divide by lia. Z.div_mod_to_equations. lia.
Qed.

(** ** Witnesses *)

Module EntryExample.
(** Entry 2 is claimed, 1 holds a send right, 3 is free. *)
Definition table : list ipc_entry :=
  [mk_ipc_entry 0 0xff000000 0 3; mk_ipc_entry 0x40 0x03010001 0 0;
   mk_ipc_entry 0 0x07000000 0 0; mk_ipc_entry 0 0xff000000 0 0].
Definition linked : list ipc_entry := match ipc_hash_table_insert table 4 0x40 1 1 with
  | Ok t => t | Fail _ => [] end.
Definition space : ipc_space := mk_ipc_space 2 4 1 linked 0 1 4 0.

Lemma space_claimed : space_inv {[2]} {[1]} [3] space.
Proof. apply space_check_sound. vm_compute. reflexivity. Qed.

Lemma ipc_entry_dealloc_then_get_witness :
  exists s1 s2, ipc_entry_dealloc 0x207 2 space = Ok (tt, s1) /\
    ipc_entry_get s1 = Ok (inr (0x20b, 2), s2).
Proof.
  destruct (ipc_entry_dealloc_then_get space {[1]} [3] 0x207 2 space_claimed)
    as (s1 & s2 & H1 & _ & H2 & _); [reflexivity|set_solver|reflexivity..|].
  exists s1, s2. done.
Defined.

Lemma mach_port_name_roundtrip_witness :
  MACH_PORT_MAKE (MACH_PORT_INDEX 0x1d0b) (MACH_PORT_GEN 0x1d0b) = 0x1d0b.
Proof. apply (mach_port_name_roundtrip 0x1d0b 0 0). lia. Defined.

Lemma generation_period_witness :
  MACH_PORT_MAKE 5 (Nat.iter 64 IE_BITS_NEW_GEN (IE_BITS_GEN 0xff000000)) =
  MACH_PORT_MAKE 5 (IE_BITS_GEN 0xff000000).
Proof. apply (generation_period 5 0xff000000 64); [lia|]. by exists 1. Defined.
End EntryExample.
