(* ===== verification/IpcGrow.v ===== *)
(** * Growing the table of a space (osfmk/ipc/ipc_entry.c)

    [ipc_entry_grow_table] copies the table while the space is unlocked, so other threads
    change entries under its feet; it rescans the range of entries that were marked as
    modified until a pass finds none.  A [window] is what the other threads do between an
    unlock and the next lock: what the code reads from the old table meanwhile, and the
    space it finds when it has the lock again.  The theorems hold for every sequence of
    windows that mark what they change ([window_ok]). *)

From S2P Require Import IpcTypes IpcBits IpcHash IpcTable IpcEntry.

(** ** Translation *)

(** Given the space at the time of the unlock: [w_alloc] whether an allocation succeeds,
    [w_snap] the entries read from the old table, [w_next0] its first link, read last,
    [w_run] the space at the next lock. *)
Record window := mk_window {
  w_alloc : bool;
  w_snap : ipc_space -> Z -> ipc_entry;
  w_next0 : ipc_space -> Z;
  w_run : ipc_space -> ipc_space;
}.

(** The initial contents of the new table: [for (i = osize; i < size; i++)], the end of the
    free chain, and the [memset] of the old part *)
Definition new_table (osize size : Z) : list ipc_entry :=
  map (fun i => if i <? osize then mk_ipc_entry 0 0 0 0
                else mk_ipc_entry IO_NULL IE_BITS_GEN_MASK 0 (if i =? size - 1 then 0 else i + 1))
    (seqZ 0 size).

Definition holds_send (e : ipc_entry) : bool :=
  negb (ie_object e =? IO_NULL) && (IE_BITS_TYPE (ie_bits e) =? MACH_PORT_TYPE_SEND).

Definition copy_fields (osnap e : ipc_entry) : ipc_entry :=
  set_ie_request (ie_request osnap) (set_ie_bits (ie_bits osnap) (set_ie_object (ie_object osnap) e)).

(** The body of the rescan loop for entry [i] *)
Definition copy_entry (size i : Z) (osnap : ipc_entry) (table : list ipc_entry)
    : res (list ipc_entry) :=
  entry ← table_get table i;
  if negb (ie_object entry =? ie_object osnap)
     || negb (IE_BITS_TYPE (ie_bits entry) =? IE_BITS_TYPE (ie_bits osnap))
  then
    table ← (if holds_send entry
             then ipc_hash_table_delete table size (ie_object entry) i i else Ok table);
    table ← table_update (copy_fields osnap) table i;
    entry ← table_get table i;
    (if holds_send entry
     then ipc_hash_table_insert table size (ie_object entry) i i else Ok table)
  else
    _ ← rassert (ie_object entry =? ie_object osnap);
    table_update (fun e => set_ie_request (ie_request osnap) (set_ie_bits (ie_bits osnap) e)) table i.

(** [for (i = low_mod; i <= hi_mod; i++)], with [count] entries left *)
Fixpoint copy_range (count : nat) (snap : Z -> ipc_entry) (osize size i : Z)
    (table : list ipc_entry) : res (list ipc_entry) :=
  match count with
  | O => Ok table
  | S count =>
    _ ← (if i <? osize then Ok tt else Fail FBadAccess);
    table ← copy_entry size i (snap i) table;
    copy_range count snap osize size (i + 1) table
  end.

(** [for (sanity = 0; sanity < osize; sanity++)]: the end of the free list *)
Fixpoint free_list_end (count : nat) (table : list ipc_entry) (osize free_index : Z) : res Z :=
  match count with
  | O => Ok free_index
  | S count =>
    e ← table_get table free_index;
    if negb (ie_object e =? IO_NULL) then Ok free_index else
    let i := ie_next e in
    if (i =? 0) || (osize <=? i) then Ok free_index
    else free_list_end count table osize i
  end.

(** Everything the code does in one window: copy the range, rebase the free list, find
    its end. *)
Definition copy_pass (w : window) (s : ipc_space) (osize size low_mod hi_mod : Z)
    (table : list ipc_entry) : res (list ipc_entry * Z) :=
  table ← copy_range (Z.to_nat (hi_mod + 1 - low_mod)) (w_snap w s) osize size low_mod table;
  table ← table_update (set_ie_next (w_next0 w s)) table 0;
  free_index ← free_list_end (Z.to_nat osize) table osize 0;
  Ok (table, free_index).

(** From label [rescan] to the unlock that ends the growth.  Returns the space at that
    unlock and the windows left; the code runs until a window leaves nothing to redo. *)
Fixpoint grow_rescan (ws : list window) (s : ipc_space)
    (osize size its nits : Z) (has_target : bool) (low_mod hi_mod : Z) (table : list ipc_entry)
    : res (ipc_space * list window) :=
  match ws with
  | [] => Fail FFuel
  | w :: ws =>
    '(table, free_index) ← copy_pass w s osize size low_mod hi_mod table;
    let s := w_run w s in
    if negb (is_active s) then s ← is_done_growing s; Ok (s, ws)
    else if is_low_mod s <? osize then
      _ ← rassert (0 <? is_high_mod s);
      grow_rescan ws (set_is_high_mod 0 (set_is_low_mod osize s)) osize size its nits has_target
        (is_low_mod s) (is_high_mod s) table
    else
      last ← table_get table free_index;
      _ ← rassert ((ie_next last =? 0) && (ie_object last =? IO_NULL));
      table ← table_update (set_ie_next osize) table free_index;
      _ ← rassert ((is_table_next s =? its) || has_target);
      _ ← rassert (is_table_size s =? osize);
      s ← is_done_growing (set_is_table_free (u32 (is_table_free s + (size - osize)))
            (set_is_table_next nits (set_is_table_size size (set_is_table table s))));
      Ok (s, ws)
  end.

(** The space at the next lock *)
Definition relock (s : ipc_space) (ws : list window) : res (ipc_space * list window) :=
  match ws with [] => Fail FFuel | w :: ws => Ok (w_run w s, ws) end.

Section grow_table.
Context (ipc_table_entries : list Z).

Definition its_size (its : Z) : res Z :=
  if its <? 0 then Fail FBadAccess else rderef (ipc_table_entries !! Z.to_nat its).

(** [while ((psize != size) && (target_size > size))] *)
Fixpoint find_target (fuel : nat) (target_size psize size its : Z) : res (Z * Z * Z) :=
  if negb (psize =? size) && (size <? target_size) then
    match fuel with
    | O => Fail FFuel
    | S fuel => size' ← its_size (its + 1); find_target fuel target_size size size' (its + 1)
    end
  else Ok (psize, size, its).

Definition ipc_entry_grow_table (target_size : Z) (s : ipc_space) (ws : list window)
    : res (kern_return_t * ipc_space * list window) :=
  _ ← rassert (is_active s);
  if is_growing s then
    '(s, ws) ← relock s ws; Ok (KERN_SUCCESS, s, ws)
  else
  let its := is_table_next s in
  size ← its_size its;
  osize ← its_size (its - 1);
  let has_target := negb (target_size =? ITS_SIZE_NONE) in
  if has_target && (target_size <=? osize) then Ok (KERN_SUCCESS, s, ws) else
  '(psize, size, its) ← (if has_target
     then find_target (length ipc_table_entries) target_size osize size its
     else Ok (osize, size, its));
  if has_target && (psize =? size) then Ok (KERN_NO_SPACE, s, ws) else
  if osize =? size then Ok (KERN_NO_SPACE, s, ws) else
  let nits := its + 1 in
  nsize ← its_size nits;
  _ ← rassert ((osize <? size) && (size <=? nsize));
  s ← is_start_growing s;
  let s := set_is_high_mod 0 (set_is_low_mod osize s) in
  match ws with
  | [] => Fail FFuel
  | w :: ws' =>
    if negb (w_alloc w) then
      s ← is_done_growing (w_run w s);
      Ok (KERN_RESOURCE_SHORTAGE, s, ws')
    else
      '(s, ws) ← grow_rescan ws s osize size its nits has_target 0 (osize - 1)
                   (new_table osize size);
      '(s, ws) ← relock s ws;
      Ok (KERN_SUCCESS, s, ws)
  end.

(** The [for (;;)] of [ipc_entry_alloc]; [turns] bounds its iterations. *)
Fixpoint ipc_entry_alloc (turns : nat) (s : ipc_space) (ws : list window)
    : res ((kern_return_t + Z * Z) * ipc_space * list window) :=
  match turns with
  | O => Fail FFuel
  | S turns =>
    if negb (is_active s) then Ok (inl KERN_INVALID_TASK, s, ws) else
    '(r, s) ← ipc_entry_get s;
    match r with
    | inr found => Ok (inr found, s, ws)
    | inl _ =>
      '(kr, s, ws) ← ipc_entry_grow_table ITS_SIZE_NONE s ws;
      if decide (kr = KERN_SUCCESS) then ipc_entry_alloc turns s ws else Ok (inl kr, s, ws)
    end
  end.

Fixpoint alloc_name_loop (turns : nat) (index gen : Z) (s : ipc_space) (ws : list window)
    : res ((kern_return_t + Z) * ipc_space * list window) :=
  match turns with
  | O => Fail FFuel
  | S turns =>
    if negb (is_active s) then Ok (inl KERN_INVALID_TASK, s, ws) else
    if index <? is_table_size s then
      '(r, s) ← alloc_name_at index gen s; Ok (r, s, ws)
    else
      '(kr, s, ws) ← ipc_entry_grow_table (u32 (index + 1)) s ws;
      _ ← rassert (negb (bool_decide (kr = KERN_NO_SPACE)));
      if decide (kr = KERN_SUCCESS) then alloc_name_loop turns index gen s ws
      else Ok (inl kr, s, ws)
  end.

Definition ipc_entry_alloc_name (turns : nat) (name : Z) (s : ipc_space) (ws : list window)
    : res ((kern_return_t + Z) * ipc_space * list window) :=
  _ ← rassert (MACH_PORT_VALID name);
  alloc_name_loop turns (MACH_PORT_INDEX name) (MACH_PORT_GEN name) s ws.
End grow_table.

(** ** Copying under interference *)

Lemma core_holds_send e e' : core e' = core e -> holds_send e' = holds_send e.
Proof. intros [= Ho Hb _]. unfold holds_send. by rewrite Ho, Hb. Qed.

Lemma same_entries_core t t' i :
  same_entries t t' -> core (entry_at t' i) = core (entry_at t i).
Proof.
  intros Hs. unfold entry_at. destruct (t !! Z.to_nat i) as [e|] eqn:He.
  - destruct (same_entries_lookup _ _ _ _ Hs He) as [h ->]. by destruct e.
  - apply lookup_ge_None in He. rewrite <- (same_entries_length _ _ Hs) in He.
    by apply lookup_ge_None in He as ->.
Qed.

(** The entries below [osize] that hold a pure send right *)
Definition send_set (osize : Z) (t : list ipc_entry) : gset Z :=
  list_to_set (filter (fun i => holds_send (entry_at t i) = true) (seqZ 1 (osize - 1))).

Lemma elem_of_send_set osize t i :
  i ∈ send_set osize t <-> 0 < i < osize /\ holds_send (entry_at t i) = true.
Proof.
  unfold send_set. rewrite elem_of_list_to_set, list_elem_of_filter, elem_of_seqZ.
  split; intros [? ?]; split; (done || lia).
Qed.

Definition fresh_entry (size i : Z) : Z * Z * Z :=
  (IO_NULL, IE_BITS_GEN_MASK, if i =? size - 1 then 0 else i + 1).

(** What is true of the new table, whatever was read from the old one *)
Record copy_inv (osize size : Z) (t : list ipc_entry) : Prop := {
  ci_len : tlen t = size;
  ci_size : 0 < osize < size;
  ci_hash : hash_repr t (send_set osize t);
  ci_zero : ie_object (entry_at t 0) = IO_NULL;
  ci_fresh : forall i, osize <= i < size -> core (entry_at t i) = fresh_entry size i;
}.

Lemma copy_inv_same_send osize size t t' :
  copy_inv osize size t -> tlen t' = tlen t ->
  (forall j, 0 < j < osize -> holds_send (entry_at t' j) = holds_send (entry_at t j)) ->
  ie_object (entry_at t' 0) = IO_NULL ->
  (forall j, osize <= j < size -> core (entry_at t' j) = fresh_entry size j) ->
  hash_repr t' (send_set osize t) -> copy_inv osize size t'.
Proof.
  intros [Hl Hs Hh Hz Hf] Hlen Hc H0 Hfr Hh'. split; [lia|done| |done|done].
  replace (send_set osize t') with (send_set osize t); [done|]. apply set_eq. intros i.
  rewrite !elem_of_send_set. split; intros [Hi Hsend]; (split; [done|]);
    by rewrite Hc in * by done.
Qed.

Lemma table_update_at f t i :
  0 <= i < tlen t -> table_update f t i = Ok (put t i (f (entry_at t i))).
Proof. intros Hi. unfold table_update. by rewrite table_get_at. Qed.

(** Changing an entry that is not linked, or keeping the object of one that is *)
Lemma hash_repr_put t H i e :
  hash_repr t H -> 0 <= i < tlen t -> ie_index e = ie_index (entry_at t i) ->
  (i ∈ H -> ie_object e = ie_object (entry_at t i)) -> hash_repr (put t i e) H.
Proof.
  intros HR Hi Hix Hob. apply (hash_repr_frame t); [done|unfold put; by rewrite length_insert| |].
  - intros h Hh. rewrite !slot_of_at, entry_at_put by (unfold tlen in *; lia).
    by destruct (decide (i = h)) as [->|].
  - intros j Hj. destruct (ri_mem _ _ _ _ (hr_ring _ _ HR) j Hj) as [Hr _].
    rewrite !obj_of_at, entry_at_put by lia. destruct (decide (i = j)) as [->|]; auto.
Qed.

Section copy_entry.
Context (osize size : Z) (t : list ipc_entry) (i : Z) (snap : ipc_entry).
Context (HC : copy_inv osize size t) (Hi : 0 <= i < osize).
Context (H0 : i = 0 -> ie_object snap = IO_NULL).

Lemma holds_send_not_zero e : ie_object e = ie_object snap -> holds_send e = true -> 0 < i.
Proof.
  unfold holds_send. intros Ho [Hn _]%andb_prop. bool_to_prop.
  destruct (decide (i = 0)) as [?%H0|]; [congruence|lia].
Qed.

(** The links of the old contents of entry [i] are removed. *)
Lemma copy_unlink :
  exists t1, (if holds_send (entry_at t i)
              then ipc_hash_table_delete t size (ie_object (entry_at t i)) i i else Ok t) = Ok t1 /\
    same_entries t t1 /\ hash_repr t1 (send_set osize t ∖ {[i]}).
Proof.
  destruct HC as [Hl Hs Hh Hz Hf]. destruct (holds_send (entry_at t i)) eqn:Hsend.
  - assert (Hm : i ∈ send_set osize t).
    { apply elem_of_send_set. split; [|done]. split; [|lia].
      destruct (decide (i = 0)) as [->|]; [|lia]. unfold holds_send in Hsend.
      by rewrite Hz in Hsend. }
    rewrite <- Hl, <- obj_of_at. by apply hash_delete_ok.
  - exists t. split_and!; [done|reflexivity|].
    replace (send_set osize t ∖ {[i]}) with (send_set osize t); [done|]. apply set_eq. intros j.
    rewrite elem_of_difference, elem_of_singleton. split; [|tauto]. intros Hj. split; [done|].
    intros ->. apply elem_of_send_set in Hj as [_ Hj]. congruence.
Qed.

(** Its new contents are linked. *)
Lemma copy_link t2 :
  tlen t2 = size -> hash_repr t2 (send_set osize t ∖ {[i]}) -> core (entry_at t2 i) = core snap ->
  (forall j, 0 <= j < size -> j <> i -> core (entry_at t2 j) = core (entry_at t j)) ->
  exists t3, (if holds_send (entry_at t2 i)
              then ipc_hash_table_insert t2 size (ie_object (entry_at t2 i)) i i else Ok t2) = Ok t3 /\
    same_entries t2 t3 /\ copy_inv osize size t3.
Proof.
  intros Hl2 Hh2 Hci Hcj. destruct HC as [Hl Hs Hh Hz Hf].
  assert (Ho : ie_object (entry_at t2 i) = ie_object snap) by (by injection Hci).
  assert (Hset : forall t3, same_entries t2 t3 ->
    send_set osize t3 = (if holds_send (entry_at t2 i) then {[i]} else ∅) ∪ send_set osize t ∖ {[i]}).
  { intros t3 Hse. apply set_eq. intros j.
    rewrite elem_of_union, elem_of_difference, elem_of_singleton, !elem_of_send_set.
    rewrite (core_holds_send (entry_at t2 j) (entry_at t3 j)) by (by apply same_entries_core).
    destruct (decide (j = i)) as [->|Hne].
    - destruct (holds_send (entry_at t2 i)) eqn:Hsend; [|set_solver].
      pose proof (holds_send_not_zero _ Ho Hsend). set_solver by lia.
    - assert (Hx : j ∉ (if holds_send (entry_at t2 i) then {[i]} else ∅ : gset Z))
        by (case_match; set_solver).
      destruct (decide (0 < j < osize)); [|tauto].
      rewrite (core_holds_send (entry_at t j) (entry_at t2 j)) by (apply Hcj; [lia|done]). tauto. }
  assert (Hinv : forall t3, same_entries t2 t3 -> hash_repr t3 (send_set osize t3) ->
    copy_inv osize size t3).
  { intros t3 Hse Hh3. pose proof (same_entries_length _ _ Hse).
    split; [unfold tlen in *; lia|done|done| |].
    - pose proof (same_entries_core _ _ 0 Hse) as Hc3. destruct (decide (i = 0)) as [->|Hn0].
      + rewrite Hci in Hc3. injection Hc3 as -> _ _. by apply H0.
      + rewrite Hcj in Hc3 by lia. injection Hc3 as -> _ _. done.
    - intros j Hj. rewrite (same_entries_core t2 t3), Hcj by (done || lia). by apply Hf. }
  destruct (holds_send (entry_at t2 i)) eqn:Hsend.
  - pose proof (holds_send_not_zero _ Ho Hsend).
    destruct (hash_insert_ok t2 (send_set osize t ∖ {[i]}) i (ie_object (entry_at t2 i)) Hh2)
      as (t3 & Hrun & Hse & Hh3); [unfold tlen in *; lia|set_solver|by rewrite obj_of_at| |].
    { unfold holds_send in Hsend. by bool_to_prop. }
    exists t3. split_and!; [by rewrite <- Hl2|done|]. apply Hinv; [done|]. by rewrite (Hset t3 Hse).
  - exists t2. split_and!; [done|reflexivity|]. apply Hinv; [reflexivity|].
    rewrite (Hset t2) by reflexivity. by rewrite union_empty_l_L.
Qed.

Lemma copy_entry_ok :
  exists t', copy_entry size i snap t = Ok t' /\ copy_inv osize size t' /\
    core (entry_at t' i) = core snap /\
    forall j, 0 <= j < size -> j <> i -> core (entry_at t' j) = core (entry_at t j).
Proof.
  pose proof (ci_len _ _ _ HC) as Hl. pose proof (ci_size _ _ _ HC) as Hs.
  unfold copy_entry. rewrite table_get_at by lia. cbn [mbind res_bind].
  case_match eqn:Hd.
  - destruct copy_unlink as (t1 & -> & Hse1 & Hh1). cbn [mbind res_bind].
    assert (Hl1 : tlen t1 = tlen t) by (unfold tlen; by rewrite (same_entries_length _ _ Hse1)).
    rewrite table_update_at by lia. cbn [mbind res_bind].
    set (t2 := put t1 i _). assert (Hl2 : tlen t2 = size) by (unfold t2; rewrite tlen_put; lia).
    rewrite table_get_at by lia. cbn [mbind res_bind].
    destruct (copy_link t2) as (t3 & Hrun & Hse3 & HC3); [done| | | |].
    + apply hash_repr_put; [done|lia|done|set_solver].
    + unfold t2. by rewrite entry_at_put_eq by lia.
    + intros j Hj Hji. unfold t2. rewrite entry_at_put_ne by lia. by apply same_entries_core.
    + exists t3. split_and!; [done..| |].
      * rewrite (same_entries_core t2 t3) by done. unfold t2. by rewrite entry_at_put_eq by lia.
      * intros j Hj Hji. rewrite (same_entries_core t2 t3) by done. unfold t2.
        rewrite entry_at_put_ne by lia. by apply same_entries_core.
  - apply orb_false_iff in Hd as [Hd1 Hd2]. apply negb_false_iff in Hd1, Hd2.
    unfold rassert. rewrite Hd1. cbn [mbind res_bind]. rewrite table_update_at by lia.
    apply Z.eqb_eq in Hd1, Hd2. set (e := entry_at t i) in *.
    set (e' := set_ie_request _ _). assert (Hce : core e' = core snap).
    { unfold core, e', set_ie_request, set_ie_bits. simpl. by rewrite Hd1. }
    exists (put t i e'). split_and!; [done| | |].
    + apply (copy_inv_same_send _ _ t); [done|by rewrite tlen_put|..].
      * intros j Hj. rewrite entry_at_put by lia. destruct (decide (i = j)) as [<-|]; [|done].
        unfold holds_send. replace (ie_object e') with (ie_object e) by done.
        replace (ie_bits e') with (ie_bits snap) by done. by rewrite <- Hd2.
      * rewrite entry_at_put by lia. destruct (decide (i = 0)) as [Hi0|]; [|apply (ci_zero _ _ _ HC)].
        simpl. rewrite Hd1. by apply H0.
      * intros j Hj. rewrite entry_at_put_ne by lia. by apply HC.
      * apply hash_repr_put; [apply HC|lia|done|done].
    + by rewrite entry_at_put_eq by lia.
    + intros j Hj Hji. by rewrite entry_at_put_ne by lia.
Qed.
End copy_entry.

Lemma copy_range_ok osize size snap count i t :
  copy_inv osize size t -> 0 <= i -> i + Z.of_nat count <= osize ->
  ie_object (snap 0) = IO_NULL ->
  exists t', copy_range count snap osize size i t = Ok t' /\ copy_inv osize size t' /\
    forall j, 0 <= j < size ->
      core (entry_at t' j) =
        if bool_decide (i <= j < i + Z.of_nat count) then core (snap j) else core (entry_at t j).
Proof.
  revert i t. induction count as [|count IH]; intros i t HC Hi Hc H0.
  { exists t. split_and!; [done..|]. intros j Hj. rewrite bool_decide_eq_false_2; [done|lia]. }
  cbn [copy_range]. rewrite (proj2 (Z.ltb_lt i osize)) by lia. cbn [mbind res_bind].
  destruct (copy_entry_ok osize size t i (snap i) HC) as (t1 & -> & HC1 & Hi1 & Hj1);
    [lia|by intros ->|]. cbn [mbind res_bind].
  destruct (IH (i + 1) t1 HC1) as (t' & -> & HC' & Hj'); [lia|lia|done|].
  exists t'. split_and!; [done..|]. intros j Hj. rewrite Hj' by done.
  destruct (decide (j = i)) as [->|Hne].
  - rewrite bool_decide_eq_false_2, bool_decide_eq_true_2 by lia. done.
  - rewrite Hj1 by done. by rewrite (bool_decide_ext _ (i ≤ j < i + Z.of_nat (S count))) by lia.
Qed.

(** The scan for the end of the free list stays below [osize]; on a proper chain of free
    entries it finds the last of them. *)
Lemma free_list_end_range t osize count a :
  0 <= a < osize -> osize <= tlen t -> (forall i, 0 <= i < osize -> 0 <= ie_next (entry_at t i)) ->
  exists f, free_list_end count t osize a = Ok f /\ 0 <= f < osize.
Proof.
  intros Ha Hos Hn. revert a Ha. induction count as [|count IH]; intros a Ha; [by exists a|].
  cbn [free_list_end]. rewrite table_get_at by lia. cbn [mbind res_bind].
  case_match; [by exists a|]. case_match eqn:Hg; [by exists a|]. bool_to_prop.
  apply IH. specialize (Hn a Ha). lia.
Qed.

Lemma free_list_end_chain t osize count a l :
  0 <= a < osize -> osize <= tlen t -> chain t a l -> (length l <= count)%nat ->
  (forall x, x = a \/ x ∈ l -> ie_object (entry_at t x) = IO_NULL) ->
  (forall x, x ∈ l -> 0 < x < osize) ->
  free_list_end count t osize a = Ok (default a (last l)).
Proof.
  revert a l. induction count as [|count IH]; intros a l Ha Hos Hc Hl Ho Hr.
  { destruct l; [done|simpl in Hl; lia]. }
  cbn [free_list_end]. rewrite table_get_at by lia. cbn [mbind res_bind].
  rewrite Ho by (by left). simpl negb. cbv iota.
  change (ie_next (entry_at t a)) with (next_of t a).
  destruct l as [|x l]; [by rewrite Hc|]. destruct Hc as [-> Hc].
  assert (0 < x < osize) by (apply Hr; left).
  rewrite (proj2 (Z.eqb_neq x 0)), (proj2 (Z.leb_gt osize x)) by lia. cbn [orb].
  rewrite (IH x l); [|lia|done|done|simpl in Hl; lia| |].
  - rewrite last_cons. by destruct (last l).
  - intros y Hy. apply Ho. right. apply elem_of_cons. destruct Hy; auto.
  - intros y Hy. apply Hr. by right.
Qed.

(** ** Publishing the new table *)

Lemma chain_append t t' a l x m :
  chain t a l -> NoDup (a :: l) ->
  (forall y, y = a \/ y ∈ l -> y <> default a (last l) -> next_of t' y = next_of t y) ->
  next_of t' (default a (last l)) = x -> chain t' x m -> chain t' a (l ++ x :: m).
Proof.
  revert a. induction l as [|b l IH]; intros a; simpl; [done|].
  intros [Ha Hc] [Hna Hnd]%NoDup_cons Hn Hx Hm.
  assert (Hlast : default a (last (b :: l)) = default b (last l)).
  { rewrite last_cons. by destruct (last l). }
  rewrite Hlast in Hn, Hx. split.
  - rewrite Hn; [done|by left|]. intros ->. apply Hna.
    destruct (last l) as [y|] eqn:Hl; simpl; [|by left]. right. by apply last_Some_elem_of.
  - apply IH; [done..| |done|done]. intros y Hy. apply Hn. right. apply elem_of_cons. destruct Hy; auto.
Qed.

Lemma chain_last t a l : chain t a l -> next_of t (default a (last l)) = 0.
Proof.
  revert a. induction l as [|b l IH]; intros a; [done|]. intros [_ Hc%IH].
  rewrite last_cons. by destruct (last l).
Qed.

Lemma chain_fresh t size (count : nat) x :
  x + Z.of_nat count + 1 = size ->
  (forall i, x <= i < size -> next_of t i = if i =? size - 1 then 0 else i + 1) ->
  chain t x (seqZ (x + 1) (Z.of_nat count)).
Proof.
  revert x. induction count as [|count IH]; intros x Hx Hn.
  - simpl. rewrite Hn by lia. by rewrite (proj2 (Z.eqb_eq _ _)) by lia.
  - rewrite seqZ_cons by lia. split.
    + rewrite Hn by lia. by rewrite (proj2 (Z.eqb_neq _ _)) by lia.
    + replace (Z.pred (Z.of_nat (S count))) with (Z.of_nat count) by lia. apply IH; [lia|].
      intros i Hi. apply Hn. lia.
Qed.

(** [s'] is [s] with a table that has grown to [size]: every entry is the same but for the
    link of the last free one, and the new entries follow in the free list. *)
Definition grown (size nits : Z) (s s' : ipc_space) : Prop :=
  exists H l, space_inv ∅ H l s /\
    space_inv ∅ H (l ++ seqZ (is_table_size s) (size - is_table_size s)) s' /\
    is_table_size s' = size /\ is_table_next s' = nits /\ is_growing s' = false /\
    is_active s' = is_active s /\ is_task s' = is_task s /\
    forall i, 0 < i < is_table_size s ->
      ie_object (entry_at (is_table s') i) = ie_object (entry_at (is_table s) i) /\
      ie_bits (entry_at (is_table s') i) = ie_bits (entry_at (is_table s) i) /\
      (IE_BITS_TYPE (ie_bits (entry_at (is_table s) i)) <> MACH_PORT_TYPE_NONE ->
       ie_request (entry_at (is_table s') i) = ie_request (entry_at (is_table s) i)).

Definition published (size nits : Z) (t : list ipc_entry) (s : ipc_space) : ipc_space :=
  clear_growing (set_is_table_free (u32 (is_table_free s + (size - is_table_size s)))
    (set_is_table_next nits (set_is_table_size size (set_is_table t s)))).

Lemma done_growing_not_growing s : is_growing (clear_growing s) = false.
Proof.
  unfold is_growing, clear_growing. simpl. rewrite land_clr.
  unfold clr. apply Z.eqb_neq. intros Heq.
  apply (f_equal (fun x => Z.testbit x 29)) in Heq. rewrite Z.ldiff_spec in Heq.
  by rewrite andb_false_r in Heq.
Qed.

Lemma done_growing_active s : is_active (clear_growing s) = is_active s.
Proof.
  unfold is_active, clear_growing. simpl. rewrite land_clr. by rewrite clr_disjoint.
Qed.

Section publish.
Context (osize size nits : Z) (t : list ipc_entry) (s : ipc_space) (H : gset Z) (l : list Z).
Context (HI : space_inv ∅ H l s) (Hos : is_table_size s = osize).
Context (HC : copy_inv osize size t) (Hmax : size <= MACH_PORT_INDEX MACH_PORT_DEAD).
Context (Hsync : forall i, 0 < i < osize -> core (entry_at t i) = core (entry_at (is_table s) i)).
Context (Hzero : ie_bits (entry_at t 0) = ie_bits (entry_at (is_table s) 0)).
Context (Hnext0 : next_of t 0 = next_of (is_table s) 0).

Let f : Z := default 0 (last l).
Let t' : list ipc_entry := put t f (set_ie_next osize (entry_at t f)).

Lemma publish_chain : chain t 0 l.
Proof.
  eapply chain_ext; [|apply HI]. intros x [->|Hx]; [done|].
  destruct (si_free _ _ _ _ HI x Hx) as (? & _). specialize (Hsync x). unfold next_of.
  assert (Hc : core (entry_at t x) = core (entry_at (is_table s) x)) by (apply Hsync; lia).
  by injection Hc as _ _ ->.
Qed.

Lemma publish_end_range : 0 <= f < osize.
Proof.
  pose proof (ci_size _ _ _ HC). unfold f. destruct (last l) eqn:Hl; [|simpl; lia].
  apply last_Some_elem_of, (si_free _ _ _ _ HI) in Hl as (? & _). simpl. lia.
Qed.

Lemma publish_entry i :
  0 <= i < size ->
  ie_object (entry_at t' i) = ie_object (entry_at t i) /\
  ie_bits (entry_at t' i) = ie_bits (entry_at t i) /\
  ie_index (entry_at t' i) = ie_index (entry_at t i) /\
  (i <> f -> next_of t' i = next_of t i).
Proof.
  intros Hi. pose proof publish_end_range. pose proof (ci_len _ _ _ HC). pose proof (ci_size _ _ _ HC).
  unfold t', next_of. rewrite entry_at_put by lia. by destruct (decide (f = i)) as [<-|].
Qed.

Lemma publish_old i :
  0 < i < osize ->
  ie_object (entry_at t' i) = ie_object (entry_at (is_table s) i) /\
  ie_bits (entry_at t' i) = ie_bits (entry_at (is_table s) i).
Proof.
  intros Hi. pose proof (ci_size _ _ _ HC). destruct (publish_entry i) as (-> & -> & _); [lia|].
  pose proof (Hsync i Hi) as Hc. by injection Hc as -> -> _.
Qed.

Lemma publish_new i :
  osize <= i < size ->
  ie_object (entry_at t' i) = IO_NULL /\ ie_bits (entry_at t' i) = IE_BITS_GEN_MASK /\
  next_of t' i = if i =? size - 1 then 0 else i + 1.
Proof.
  intros Hi. pose proof publish_end_range. pose proof (ci_size _ _ _ HC).
  destruct (publish_entry i) as (-> & -> & _ & Hn); [lia|]. rewrite Hn by lia.
  pose proof (ci_fresh _ _ _ HC i Hi) as Hc. unfold next_of. by injection Hc as -> -> ->.
Qed.

Lemma publish_send_set : H = send_set osize t.
Proof.
  apply set_eq. intros i. rewrite elem_of_send_set. unfold holds_send.
  rewrite andb_true_iff, negb_true_iff, Z.eqb_neq, Z.eqb_eq. split.
  - intros Hi. pose proof (si_hash_range _ _ _ _ HI i Hi) as Hr. rewrite Hos in Hr.
    pose proof (Hsync i Hr) as Hc. injection Hc as -> -> _.
    split; [done|]. split.
    + rewrite <- obj_of_at. by apply (hr_obj _ _ (si_hash _ _ _ _ HI)).
    + apply (si_send _ _ _ _ HI); [lia|set_solver|done].
  - intros (Hr & _ & Ht). pose proof (Hsync i Hr) as Hc. injection Hc as _ Hb _.
    rewrite Hb in Ht. apply (si_send _ _ _ _ HI); [lia|set_solver|done].
Qed.

Lemma publish_new_chain : chain t' 0 (l ++ seqZ osize (size - osize)).
Proof.
  pose proof (ci_size _ _ _ HC) as Hsz. pose proof (ci_len _ _ _ HC) as Hlen.
  rewrite seqZ_cons by lia.
  replace (Z.pred (size - osize)) with (Z.of_nat (Z.to_nat (size - osize - 1))) by lia.
  assert (Hfr : forall y, y = 0 \/ y ∈ l -> 0 <= y < osize).
  { intros y [->|(? & _)%(si_free _ _ _ _ HI)]; lia. }
  apply (chain_append t).
  - apply publish_chain.
  - apply NoDup_cons. split; [|apply HI]. intros (? & _)%(si_free _ _ _ _ HI). lia.
  - intros y Hy%Hfr Hyf. apply publish_entry; [lia|done].
  - fold f. unfold next_of, t'. pose proof publish_end_range. by rewrite entry_at_put_eq by lia.
  - apply (chain_fresh _ size); [lia|]. intros i Hi. by apply publish_new.
Qed.

Lemma publish_inv :
  space_inv ∅ H (l ++ seqZ osize (size - osize)) (published size nits t' s).
Proof.
  pose proof (ci_size _ _ _ HC) as Hsz. pose proof (ci_len _ _ _ HC) as Hlen.
  pose proof publish_end_range as Hfr. pose proof (si_free_length _ _ _ _ HI) as Hfl.
  pose proof publish_new_chain as Hch. pose proof publish_send_set as HH.
  assert (Hl' : tlen t' = size) by (unfold t'; rewrite tlen_put; lia).
  assert (Hgen : IE_BITS_TYPE IE_BITS_GEN_MASK = MACH_PORT_TYPE_NONE) by done.
  destruct HI. split; simpl; try done.
  - lia.
  - lia.
  - lia.
  - apply NoDup_app. split_and!; [done| |apply NoDup_seqZ].
    intros x (? & _)%si_free ?%elem_of_seqZ. lia.
  - rewrite length_app, length_seqZ, si_count, Hos. unfold u32.
    change (MACH_PORT_INDEX MACH_PORT_DEAD) with 0xffffff in *. rewrite Z.mod_small; lia.
  - destruct (publish_entry 0) as (-> & -> & _); [lia|]. split; [|apply (ci_zero _ _ _ HC)].
    rewrite Hzero. apply si_zero.
  - intros i [Hi|Hi%elem_of_seqZ]%elem_of_app.
    + destruct (si_free i Hi) as (? & ? & ? & ?). destruct (publish_old i) as [-> ->]; [lia|].
      split_and!; [lia|lia|set_solver|done|done].
    + destruct (publish_new i) as (-> & -> & _); [lia|]. split_and!; [lia|lia|set_solver|done|done].
  - intros i Hi _ Ht. apply elem_of_app. destruct (decide (i < osize)); [left|right].
    + destruct (publish_old i) as [_ Hb]; [lia|]. rewrite Hb in Ht. apply si_all; [lia|set_solver|done].
    + apply elem_of_seqZ. lia.
  - rewrite HH. apply hash_repr_put; [apply (ci_hash _ _ _ HC)|lia|done|done].
  - intros i Hi _. destruct (decide (i < osize)).
    + destruct (publish_old i) as [_ ->]; [lia|]. apply si_send; [lia|set_solver].
    + destruct (publish_new i) as (_ & -> & _); [lia|]. rewrite Hgen.
      split; [|done]. rewrite HH. intros [? _]%elem_of_send_set. lia.
Qed.

Lemma publish_grown : grown size nits s (published size nits t' s).
Proof.
  exists H, l. rewrite Hos. split_and!; [done|apply publish_inv|done|done| | |done|].
  - apply done_growing_not_growing.
  - unfold published. by rewrite done_growing_active.
  - intros i Hi. change (is_table (published size nits t' s)) with t'.
    destruct (publish_old i Hi) as [-> ->]. split_and!; [done..|]. intros Ht.
    pose proof (ci_size _ _ _ HC). pose proof (Hsync i Hi) as Hc.
    destruct (publish_entry i) as (_ & _ & _ & Hn); [lia|].
    change (next_of t' i = ie_request (entry_at (is_table s) i)).
    rewrite Hn; [by injection Hc|]. unfold f. intros ->.
    destruct (last l) eqn:Hl; simpl in *; [|lia].
    apply last_Some_elem_of, (si_free _ _ _ _ HI) in Hl as (_ & _ & ? & _). done.
Qed.
End publish.

(** ** The rescan loop *)

(** The links and request indices are unsigned words. *)
Definition words_ok (s : ipc_space) : Prop :=
  forall i, 0 <= i < is_table_size s -> 0 <= ie_request (entry_at (is_table s) i).

(** The space while the growing thread does not hold the lock *)
Definition growing_ok (osize its : Z) (s : ipc_space) : Prop :=
  space_ok s /\ words_ok s /\ is_active s = true /\ is_growing s = true /\ is_table_size s = osize /\
  is_table_next s = its /\ is_low_mod s = osize /\ is_high_mod s = 0.

(** What other threads do in a window: they use the space by the operations of ipc_entry.c
    and mark what they change.  An entry that is not marked at the next lock was not
    changed, and was read as it is; entry 0 is never used, and its link changes only
    together with a marked entry. *)
Record window_ok (osize its : Z) (w : window) : Prop := {
  wo_run : forall s, growing_ok osize its s -> let s' := w_run w s in
    (is_active s' = true -> space_ok s' /\ words_ok s') /\ is_growing s' = true /\
    is_table_size s' = osize /\ is_table_next s' = its /\
    (is_low_mod s' < osize -> 0 < is_high_mod s');
  wo_unmarked : forall s i, growing_ok osize its s -> 0 < i < osize ->
    ~ is_low_mod (w_run w s) <= i <= is_high_mod (w_run w s) ->
    core (w_snap w s i) = core (entry_at (is_table (w_run w s)) i) /\
    core (entry_at (is_table s) i) = core (entry_at (is_table (w_run w s)) i);
  wo_zero : forall s, growing_ok osize its s ->
    ie_object (w_snap w s 0) = IO_NULL /\
    ie_bits (w_snap w s 0) = ie_bits (entry_at (is_table (w_run w s)) 0) /\
    ie_bits (entry_at (is_table s) 0) = ie_bits (entry_at (is_table (w_run w s)) 0);
  wo_link : forall s, growing_ok osize its s -> osize <= is_low_mod (w_run w s) ->
    w_next0 w s = next_of (is_table (w_run w s)) 0;
  wo_unsigned : forall s i, growing_ok osize its s -> 0 <= i < osize ->
    0 <= w_next0 w s /\ 0 <= ie_next (w_snap w s i);
}.

(** Nothing is left to redo after the window: no entry was marked, or the space died. *)
Definition quiet (osize its : Z) (w : window) : Prop :=
  forall s, growing_ok osize its s ->
    is_active (w_run w s) = false \/ osize <= is_low_mod (w_run w s).

(** [s1] is the space found at one of the locks of the rescan loop, started in [s]. *)
Inductive relocked (osize : Z) : list window -> ipc_space -> ipc_space -> Prop :=
  | relocked_here w ws s : relocked osize (w :: ws) s (w_run w s)
  | relocked_later w ws s s1 :
      relocked osize ws (set_is_high_mod 0 (set_is_low_mod osize (w_run w s))) s1 ->
      relocked osize (w :: ws) s s1.

Section rescan.
Context (osize size its nits : Z) (has_target : bool) (its0 : Z).
Context (Hmax : size <= MACH_PORT_INDEX MACH_PORT_DEAD).
Context (Hits : (its0 =? its) || has_target = true).

(** What holds of the new table at label [rescan] *)
Record rescan_inv (s : ipc_space) (low hi : Z) (t : list ipc_entry) : Prop := {
  ri_space : growing_ok osize its0 s;
  ri_copy : copy_inv osize size t;
  ri_bounds : 0 <= low <= osize /\ hi < osize;
  ri_unsigned : forall i, 0 <= i < osize -> 0 <= ie_next (entry_at t i);
  ri_sync : forall i, 0 < i < osize -> ~ low <= i <= hi ->
    core (entry_at t i) = core (entry_at (is_table s) i);
  ri_sync0 : ~ low <= 0 <= hi -> ie_bits (entry_at t 0) = ie_bits (entry_at (is_table s) 0);
}.

Lemma copy_pass_ok w s low hi t :
  rescan_inv s low hi t -> window_ok osize its0 w -> let s' := w_run w s in
  exists t' f, copy_pass w s osize size low hi t = Ok (t', f) /\ copy_inv osize size t' /\
    (forall i, 0 <= i < osize -> 0 <= ie_next (entry_at t' i)) /\
    (forall i, 0 < i < osize -> ~ is_low_mod s' <= i <= is_high_mod s' ->
      core (entry_at t' i) = core (entry_at (is_table s') i)) /\
    ie_bits (entry_at t' 0) = ie_bits (entry_at (is_table s') 0) /\
    next_of t' 0 = w_next0 w s /\
    free_list_end (Z.to_nat osize) t' osize 0 = Ok f.
Proof.
  intros [Hs HC [Hlow Hhi] Hun Hsync Hsync0] HW s'. unfold copy_pass.
  destruct (wo_zero _ _ _ HW s Hs) as (Hz1 & Hz2 & Hz3). pose proof (ci_size _ _ _ HC) as Hsz.
  destruct (copy_range_ok osize size (w_snap w s) (Z.to_nat (hi + 1 - low)) low t HC)
    as (t1 & -> & HC1 & Hc1); [lia|lia|done|]. cbn [mbind res_bind].
  pose proof (ci_len _ _ _ HC1) as Hl1. rewrite table_update_at by lia. cbn [mbind res_bind].
  set (t2 := put t1 0 _).
  assert (Hne : forall i, 0 < i < size -> entry_at t2 i = entry_at t1 i).
  { intros i Hi. unfold t2. by rewrite entry_at_put_ne by lia. }
  assert (H20 : entry_at t2 0 = set_ie_next (w_next0 w s) (entry_at t1 0)).
  { unfold t2. by rewrite entry_at_put_eq by lia. }
  assert (HC2 : copy_inv osize size t2).
  { apply (copy_inv_same_send _ _ t1); [done|unfold t2; by rewrite tlen_put|..].
    - intros j Hj. by rewrite Hne by lia.
    - rewrite H20. apply (ci_zero _ _ _ HC1).
    - intros j Hj. rewrite Hne by lia. by apply (ci_fresh _ _ _ HC1).
    - apply hash_repr_put; [apply (ci_hash _ _ _ HC1)|lia|done|done]. }
  assert (Hun2 : forall i, 0 <= i < osize -> 0 <= ie_next (entry_at t2 i)).
  { intros i Hi. destruct (wo_unsigned _ _ _ HW s i Hs Hi) as [Hw1 Hw2].
    destruct (decide (i = 0)) as [->|]; [by rewrite H20|]. rewrite Hne by lia.
    pose proof (Hc1 i ltac:(lia)) as Hci. specialize (Hun i Hi).
    case_bool_decide; by injection Hci as _ _ ->. }
  destruct (free_list_end_range t2 osize (Z.to_nat osize) 0) as (f & Hf & _);
    [lia|rewrite (ci_len _ _ _ HC2); lia|done|].
  rewrite Hf. cbn [mbind res_bind]. exists t2, f. split_and!; [done..| | | |done].
  - intros i Hi Hun'. rewrite Hne, Hc1 by lia.
    destruct (wo_unmarked _ _ _ HW s i Hs Hi Hun') as [Hw1 Hw2].
    case_bool_decide; [done|]. rewrite Hsync by lia. done.
  - rewrite H20. simpl. pose proof (Hc1 0 ltac:(lia)) as Hc0.
    case_bool_decide; injection Hc0 as _ -> _; [done|]. rewrite Hsync0 by lia. done.
  - unfold next_of. by rewrite H20.
Qed.

(** The part of the loop body that runs with the lock *)
Definition rescan_tail (ws : list window) (s : ipc_space) (t : list ipc_entry) (f : Z)
    : res (ipc_space * list window) :=
  if negb (is_active s) then s ← is_done_growing s; Ok (s, ws)
  else if is_low_mod s <? osize then
    _ ← rassert (0 <? is_high_mod s);
    grow_rescan ws (set_is_high_mod 0 (set_is_low_mod osize s)) osize size its nits has_target
      (is_low_mod s) (is_high_mod s) t
  else
    last ← table_get t f;
    _ ← rassert ((ie_next last =? 0) && (ie_object last =? IO_NULL));
    table ← table_update (set_ie_next osize) t f;
    _ ← rassert ((is_table_next s =? its) || has_target);
    _ ← rassert (is_table_size s =? osize);
    s ← is_done_growing (set_is_table_free (u32 (is_table_free s + (size - osize)))
          (set_is_table_next nits (set_is_table_size size (set_is_table table s))));
    Ok (s, ws).

Lemma grow_rescan_cons w ws s low hi t :
  grow_rescan (w :: ws) s osize size its nits has_target low hi t =
  ('(t, f) ← copy_pass w s osize size low hi t; rescan_tail ws (w_run w s) t f).
Proof. done. Qed.

(** One pass: the space died, or there is something to redo, or the table is published. *)
Lemma rescan_step w s low hi t :
  rescan_inv s low hi t -> window_ok osize its0 w -> let s' := w_run w s in
  exists t' f, copy_pass w s osize size low hi t = Ok (t', f) /\
    ((is_active s' = false /\ is_growing s' = true) \/
     (is_active s' = true /\ is_low_mod s' < osize /\ 0 < is_high_mod s' /\
      rescan_inv (set_is_high_mod 0 (set_is_low_mod osize s')) (is_low_mod s') (is_high_mod s') t') \/
     exists s'', (forall ws, rescan_tail ws s' t' f = Ok (s'', ws)) /\
       is_active s' = true /\ is_table_size s' = osize /\ grown size nits s' s'').
Proof.
  intros HR HW s'.
  destruct (copy_pass_ok w s low hi t HR HW) as (t' & f & Hrun & HC & Hun & Hsync & Hz & Hn & Hf).
  exists t', f. split; [done|]. pose proof (ri_space _ _ _ _ HR) as Hs.
  pose proof (wo_run _ _ _ HW s Hs) as Hrely. cbv zeta in Hrely. fold s' in Hrely.
  destruct Hrely as (Hok & Hgr & Hsz & Hnx & Hm).
  destruct (is_active s') eqn:Hact; [right|by left]. pose proof (wo_link _ _ _ HW s Hs) as Hlink.
  fold s' in Hlink, Hsync, Hz.
  destruct (Hok eq_refl) as [(H & l & HI) Hwd]. pose proof (si_low _ _ _ _ HI) as Hlo.
  pose proof (si_high _ _ _ _ HI) as Hhi.
  destruct (decide (is_low_mod s' < osize)) as [Hlt|Hge]; [left|right].
  - split_and!; [done..|by apply Hm|]. split; simpl.
    + split; [|done]. exists H, l. destruct HI; by split; simpl; (done || lia).
    + done.
    + lia.
    + done.
    + done.
    + intros _. done.
  - rewrite Hlink in Hn by lia.
    assert (Hsy : forall i, 0 < i < osize -> core (entry_at t' i) = core (entry_at (is_table s') i)).
    { intros i Hi. apply Hsync; lia. }
    pose proof (publish_chain osize t' s' H l HI Hsz Hsy Hn) as Hch.
    pose proof (ci_size _ _ _ HC) as Hos. pose proof (ci_len _ _ _ HC) as Hlen.
    assert (Hfree : forall x, x = 0 \/ x ∈ l -> 0 <= x < osize /\ ie_object (entry_at t' x) = IO_NULL).
    { intros x [->|Hx]; [split; [lia|apply (ci_zero _ _ _ HC)]|].
      destruct (si_free _ _ _ _ HI x Hx) as (? & _ & _ & Hob). split; [lia|].
      assert (Hc : core (entry_at t' x) = core (entry_at (is_table s') x)) by (apply Hsy; lia).
      injection Hc as -> _ _. done. }
    pose proof (si_free_length _ _ _ _ HI) as Hfl.
    assert (f = default 0 (last l)) as ->.
    { rewrite (free_list_end_chain t' osize _ 0 l) in Hf; [by injection Hf|lia|lia|done|lia| |].
      - intros x Hx. by apply Hfree.
      - intros x Hx. destruct (si_free _ _ _ _ HI x Hx) as (? & _). lia. }
    set (f := default 0 (last l)). assert (Hfr : f = 0 \/ f ∈ l).
    { unfold f. destruct (last l) eqn:Hl; [right; by apply last_Some_elem_of|by left]. }
    destruct (Hfree f Hfr) as [Hf1 Hf2].
    exists (published size nits (put t' f (set_ie_next osize (entry_at t' f))) s').
    split_and!; [|done|done|by apply (publish_grown osize _ _ _ _ H l)].
    intros ws. unfold rescan_tail. rewrite Hact, (proj2 (Z.ltb_ge _ _)) by lia. cbn [negb].
    rewrite table_get_at, table_update_at by lia. unfold rassert. cbn [mbind res_bind].
    rewrite (chain_last t' 0 l Hch : ie_next (entry_at t' f) = 0), Hf2, Hnx, Hits, Hsz, Z.eqb_refl.
    cbn [Z.eqb andb IO_NULL mbind res_bind]. unfold is_done_growing, published.
    replace (is_growing _) with (is_growing s') by done. rewrite Hgr, Hsz. done.
Qed.

(** The loop ends at the latest in a quiet window, with the space dead or grown. *)
Lemma grow_rescan_ok ws1 w ws2 s low hi t :
  rescan_inv s low hi t ->
  Forall (window_ok osize its0) ws1 -> window_ok osize its0 w -> quiet osize its0 w ->
  exists s1 s' ws', grow_rescan (ws1 ++ w :: ws2) s osize size its nits has_target low hi t =
      Ok (s', ws' ++ ws2) /\
    (forall x, x ∈ ws' ++ ws2 -> x ∈ ws1 ++ w :: ws2) /\
    relocked osize (ws1 ++ w :: ws2) s s1 /\
    ((is_active s1 = false /\ s' = clear_growing s1) \/
     (is_active s1 = true /\ is_table_size s1 = osize /\ grown size nits s1 s')).
Proof.
  intros HR HF HW HQ. revert s low hi t HR HF.
  induction ws1 as [|w1 ws1 IH]; intros s low hi t HR HF; cbn [app];
    rewrite grow_rescan_cons.
  - destruct (rescan_step w s low hi t HR HW) as (t' & f & -> & [[Hd Hg]|[(Ha & Hm & _)|Hp]]).
    + cbn [mbind res_bind]. unfold rescan_tail, is_done_growing. rewrite Hd, Hg. exists (w_run w s), (clear_growing (w_run w s)), [].
      split; [done|]. split; [intros x Hx; by right|].
      split; [constructor|]. by left.
    + destruct (HQ s (ri_space _ _ _ _ HR)); [congruence|lia].
    + destruct Hp as (s' & Hrun & Ha & Hsz & Hg). cbn [mbind res_bind]. rewrite Hrun.
      exists (w_run w s), s', []. split; [done|]. split; [intros x Hx; by right|].
      split; [constructor|]. by right.
  - apply Forall_cons in HF as [HW1 HF].
    destruct (rescan_step w1 s low hi t HR HW1) as (t' & f & -> & [[Hd Hg]|[(Ha & Hm & Hh & HR')|Hp]]).
    + cbn [mbind res_bind]. unfold rescan_tail, is_done_growing. rewrite Hd, Hg. exists (w_run w1 s), (clear_growing (w_run w1 s)), (ws1 ++ [w]).
      rewrite <- app_assoc. split; [done|]. split; [intros x Hx; by right|].
      split; [constructor|]. by left.
    + cbn [mbind res_bind]. unfold rescan_tail. rewrite Ha, (proj2 (Z.ltb_lt _ _) Hm). unfold rassert.
      rewrite (proj2 (Z.ltb_lt _ _) Hh). cbn [negb mbind res_bind].
      destruct (IH _ _ _ _ HR' HF) as (s1 & s' & ws' & Hrun & Hin & Hrel & Hres). exists s1, s', ws'.
      split; [done|]. split; [intros x Hx; right; by apply Hin|]. split; [by constructor|done].
    + destruct Hp as (s' & Hrun & Ha & Hsz & Hg). cbn [mbind res_bind]. rewrite Hrun.
      exists (w_run w1 s), s', (ws1 ++ [w]). rewrite <- app_assoc.
      split; [done|]. split; [intros x Hx; by right|].
      split; [constructor|]. by right.
Qed.
End rescan.

(** ** The whole operation *)

Lemma new_table_at osize size i :
  0 <= i < size -> entry_at (new_table osize size) i =
    if i <? osize then mk_ipc_entry 0 0 0 0
    else mk_ipc_entry IO_NULL IE_BITS_GEN_MASK 0 (if i =? size - 1 then 0 else i + 1).
Proof.
  intros Hi. unfold entry_at, new_table. rewrite list_lookup_fmap.
  rewrite lookup_seqZ_lt by lia. simpl. rewrite Z2Nat.id by lia. done.
Qed.

Lemma new_table_len osize size : 0 <= size -> tlen (new_table osize size) = size.
Proof. intros. unfold tlen, new_table. rewrite length_map, length_seqZ. lia. Qed.

Lemma new_table_inv osize size : 0 < osize < size -> copy_inv osize size (new_table osize size).
Proof.
  intros Hs. pose proof (new_table_len osize size ltac:(lia)) as Hl.
  assert (Hslot : forall h, 0 <= h < size -> slot_of (new_table osize size) h = 0).
  { intros h Hh. rewrite slot_of_at, new_table_at by done. by case_match. }
  assert (Hset : send_set osize (new_table osize size) = ∅).
  { apply set_eq. intros i. rewrite elem_of_send_set. split; [|set_solver].
    intros [Hi Hsend]. rewrite new_table_at in Hsend by lia.
    by rewrite (proj2 (Z.ltb_lt i osize)) in Hsend by lia. }
  split; [done|done| | |].
  - rewrite Hset. split; [unfold tlen in Hl; lia|split|set_solver].
    + intros h Hh. left. apply Hslot. unfold tlen in Hl. lia.
    + set_solver.
    + intros h k Hh _ Hnz. destruct Hnz. apply Hslot. unfold tlen in Hl. lia.
    + set_solver.
    + intros h k Hh _ Hnz. destruct Hnz. apply Hslot. unfold tlen in Hl. lia.
  - rewrite new_table_at by lia. by rewrite (proj2 (Z.ltb_lt 0 osize)) by lia.
  - intros i Hi. rewrite new_table_at by lia. by rewrite (proj2 (Z.ltb_ge i osize)) by lia.
Qed.

(** The space's table has one of the sizes, and [is_table_next] is the step after it. *)
Definition sized (entries : list Z) (s : ipc_space) : Prop :=
  1 <= is_table_next s /\ entries !! Z.to_nat (is_table_next s - 1) = Some (is_table_size s) /\
  (Z.to_nat (is_table_next s) < length entries)%nat.

Section sizes.
Context (entries : list Z) (Hok : sizes_ok entries).

Lemma its_size_at k x : 0 <= k -> entries !! Z.to_nat k = Some x -> its_size entries k = Ok x.
Proof. intros Hk Hx. unfold its_size. rewrite (proj2 (Z.ltb_ge k 0)), Hx by lia. done. Qed.

Lemma sizes_step k x y :
  entries !! k = Some x -> entries !! S k = Some y ->
  (x < y /\ (S (S k) < length entries)%nat) \/ (x = y /\ S (S k) = length entries).
Proof.
  destruct (so_split _ Hok) as (front & z & -> & Hinc & Hl). intros Hx Hy.
  pose proof (lookup_lt_Some _ _ _ Hy) as Hlt. rewrite length_app in *. simpl in *.
  destruct (decide (S k < length front)%nat) as [Hf|Hf].
  - rewrite lookup_app_l in Hx, Hy by lia. left. split; [|lia].
    apply (Hinc k (S k) x y); [lia|done..].
  - assert (length front = S k) as Hlen by lia. right. split; [|lia].
    rewrite lookup_app_l in Hx by lia. rewrite lookup_app_r, Hlen, Nat.sub_diag in Hy by lia.
    rewrite Hlen in Hl. replace (S k - 1)%nat with k in Hl by lia. simpl in Hy. congruence.
Qed.

Lemma sizes_le_last k x y :
  entries !! k = Some x -> entries !! (length entries - 1)%nat = Some y -> x <= y.
Proof.
  intros Hx Hy. remember (length entries - 1 - k)%nat as d eqn:Hd. revert k x Hx Hd.
  induction d as [|d IH]; intros k x Hx Hd; pose proof (lookup_lt_Some _ _ _ Hx).
  - replace (length entries - 1)%nat with k in Hy by lia. simplify_eq. lia.
  - destruct (lookup_lt_is_Some_2 entries (S k)) as [z Hz]; [lia|].
    specialize (IH (S k) z Hz ltac:(lia)). destruct (sizes_step k x z Hx Hz) as [[? _]|[? _]]; lia.
Qed.

Lemma find_target_ok target fuel k p x :
  1 <= k -> entries !! Z.to_nat (k - 1) = Some p -> entries !! Z.to_nat k = Some x -> p < target ->
  (length entries - Z.to_nat k < fuel)%nat ->
  exists p' x' k', find_target entries fuel target p x k = Ok (p', x', k') /\ k <= k' /\
    entries !! Z.to_nat (k' - 1) = Some p' /\ entries !! Z.to_nat k' = Some x' /\
    ((p' = x' /\ forall y, y ∈ entries -> y < target) \/ (p' < x' /\ p' < target <= x')).
Proof.
  revert k p x. induction fuel as [|fuel IH]; intros k p x Hk Hp Hx Hpt Hf; [lia|].
  pose proof (sizes_step (Z.to_nat (k - 1)) p x Hp) as Hst.
  replace (S (Z.to_nat (k - 1))) with (Z.to_nat k) in Hst by lia. specialize (Hst Hx).
  cbn [find_target]. destruct (Z.eqb_spec p x) as [->|Hne].
  - exists x, x, k. cbn [negb andb]. split_and!; [done..|]. left. split; [done|].
    intros y [j Hj]%list_elem_of_lookup_1. destruct Hst as [[? _]|[_ Hlen]]; [lia|].
    pose proof (sizes_le_last j y x Hj) as Hle.
    replace (length entries - 1)%nat with (Z.to_nat k) in Hle by lia. specialize (Hle Hx). lia.
  - destruct Hst as [[Hlt Hl]|[? _]]; [|done]. cbn [negb andb].
    destruct (Z.ltb_spec x target) as [Hxt|Hxt].
    + destruct (lookup_lt_is_Some_2 entries (Z.to_nat (k + 1))) as [z Hz]; [lia|].
      rewrite (its_size_at (k + 1) z) by (done || lia). cbn [mbind res_bind].
      destruct (IH (k + 1) x z) as (p' & x' & k' & -> & Hk' & Hrest); [lia| |done|done|lia|].
      { by replace (k + 1 - 1) with k by lia. }
      exists p', x', k'. split; [done|]. split; [lia|done].
    + exists p, x, k. split_and!; [done..|]. right. lia.
Qed.
End sizes.


Lemma sizes_mono entries (Hok : sizes_ok entries) j k x y :
  (j <= k)%nat -> entries !! j = Some x -> entries !! k = Some y -> x <= y.
Proof.
  intros Hjk Hx. revert y. induction Hjk as [|k Hjk IH]; intros y Hy; [simplify_eq; lia|].
  pose proof (lookup_lt_Some _ _ _ Hy).
  destruct (lookup_lt_is_Some_2 entries k) as [z Hz]; [lia|]. specialize (IH z Hz).
  destruct (sizes_step entries Hok k z y Hz Hy) as [[? _]|[? _]]; lia.
Qed.

Definition start_growing (s : ipc_space) : ipc_space :=
  set_is_high_mod 0 (set_is_low_mod (is_table_size s) (set_growing s)).

Lemma start_growing_ok s :
  space_ok s -> words_ok s -> is_active s = true ->
  growing_ok (is_table_size s) (is_table_next s) (start_growing s).
Proof.
  intros (H & l & HI) Hwd Hact. split; [|split; [done|split_and!; [..|done|done|done|done]]].
  - exists H, l. destruct HI; by split; simpl; (done || lia).
  - unfold is_active in *. simpl. rewrite Z.land_lor_distr_l.
    change (Z.land IS_GROWING IS_INACTIVE) with 0. by rewrite Z.lor_0_r.
  - unfold is_growing. simpl. rewrite Z.land_lor_distr_l, Z.land_diag. apply Z.eqb_eq.
    apply Z.bits_inj'. intros n _. rewrite Z.lor_spec, Z.land_spec.
    by destruct (Z.testbit (is_bits s) n), (Z.testbit IS_GROWING n).
Qed.

(** From the start of the growth to its end, once the new size is chosen *)
Lemma grow_tail_ok entries s has_target (Hok : sizes_ok entries) (Hs : space_ok s)
    (Hwd : words_ok s) (Hact : is_active s = true) ws1 w wl ws2 :
  let osize := is_table_size s in
  let ws := ws1 ++ w :: wl :: ws2 in
  Forall (window_ok osize (is_table_next s)) ws1 -> window_ok osize (is_table_next s) w ->
  quiet osize (is_table_next s) w -> w_alloc (default w (head ws1)) = true ->
  forall its p size, (is_table_next s =? its) || has_target = true ->
  entries !! Z.to_nat its = Some size -> osize < size -> 1 <= its ->
  entries !! Z.to_nat (its - 1) = Some p -> p < size ->
  exists s1 s' wr ws',
    (nsize ← its_size entries (its + 1);
     _ ← rassert ((osize <? size) && (size <=? nsize));
     match ws with
     | [] => Fail FFuel
     | w :: ws' =>
       if negb (w_alloc w) then
         s ← is_done_growing (w_run w (start_growing s));
         Ok (KERN_RESOURCE_SHORTAGE, s, ws')
       else
         '(s, ws) ← grow_rescan ws (start_growing s) osize size its (its + 1) has_target 0 (osize - 1)
                      (new_table osize size);
         '(s, ws) ← relock s ws;
         Ok (KERN_SUCCESS, s, ws)
     end) = Ok (KERN_SUCCESS, w_run wr s', ws') /\ wr ∈ ws /\
    relocked osize ws (start_growing s) s1 /\
    ((is_active s1 = false /\ s' = clear_growing s1) \/
     (is_active s1 = true /\ is_table_size s1 = osize /\ grown size (its + 1) s1 s')).
Proof.
  intros osize ws HF HW HQ Hal its p size Hits Hsz Hlt H0 Hp Hps.
  pose proof (lookup_lt_Some _ _ _ Hsz) as Hk.
  assert (Hpos : 0 < osize) by (destruct Hs as (H & l & HI); apply (si_bound _ _ _ _ HI)).
  assert (Hnext : exists nsize, its_size entries (its + 1) = Ok nsize /\ size <= nsize).
  { pose proof (sizes_step entries Hok _ _ size Hp) as Hst.
    replace (S (Z.to_nat (its - 1))) with (Z.to_nat its) in Hst by lia.
    destruct (Hst Hsz) as [[_ Hl]|[? _]]; [|lia].
    destruct (lookup_lt_is_Some_2 entries (Z.to_nat (its + 1))) as [z Hz]; [lia|].
    exists z. split; [apply its_size_at; [lia|done]|].
    apply (sizes_mono entries Hok (Z.to_nat its) (Z.to_nat (its + 1))); [lia|done..]. }
  destruct Hnext as (nsize & -> & Hn). cbn [mbind res_bind]. unfold rassert.
  rewrite (proj2 (Z.ltb_lt osize size)), (proj2 (Z.leb_le size nsize)) by done. cbn [andb mbind res_bind].
  assert (HR : rescan_inv osize size (is_table_next s) (start_growing s) 0 (osize - 1)
                 (new_table osize size)).
  { split; [by apply start_growing_ok|apply new_table_inv; lia|lia| |intros; lia|intros; lia].
    intros i Hi. rewrite new_table_at by lia. case_match; [done|]. simpl. case_match; lia. }
  assert (Hmax : size <= MACH_PORT_INDEX MACH_PORT_DEAD).
  { apply (so_range _ Hok). by apply list_elem_of_lookup_2 in Hsz. }
  destruct (grow_rescan_ok osize size its (its + 1) has_target (is_table_next s) Hmax Hits
    ws1 w (wl :: ws2) _ _ _ _ HR HF HW HQ) as (s1 & s' & ws' & Hrun & Hin & Hrel & Hres).
  unfold ws. rewrite Hrun. exists s1, s'.
  assert (Hw : exists wr ws'', ws' ++ wl :: ws2 = wr :: ws'') by (destruct ws'; simpl; eauto).
  destruct Hw as (wr & ws'' & Hw). exists wr, ws''. split; [rewrite Hw|split; [|done]].
  2:{ apply (Hin wr). rewrite Hw. by left. }
  destruct ws1 as [|w1 ws1]; simpl in *; by rewrite Hal.
Qed.

(** What [ipc_entry_grow_table] comes to: every step is used up and nothing changed; or, in
    the space [s1] found at some lock, the space is dead or its table has been replaced,
    and [s'] is the result, which other threads may change before the caller goes on. *)
Definition grow_outcome (entries : list Z) (target : Z) (s : ipc_space) (ws : list window)
    (r : res (kern_return_t * ipc_space * list window)) : Prop :=
  let osize := is_table_size s in
  (r = Ok (KERN_NO_SPACE, s, ws) /\
   forall x, x ∈ entries -> if target =? ITS_SIZE_NONE then x <= osize else x < target) \/
  (exists its size s1 s' wr ws',
    r = Ok (KERN_SUCCESS, w_run wr s', ws') /\ wr ∈ ws /\
    relocked osize ws (start_growing s) s1 /\
    entries !! Z.to_nat its = Some size /\ osize < size /\
    (if target =? ITS_SIZE_NONE then its = is_table_next s else target <= size) /\
    ((is_active s1 = false /\ s' = clear_growing s1) \/
     (is_active s1 = true /\ is_table_size s1 = osize /\ grown size (its + 1) s1 s'))).

(** The hypotheses on the windows: all mark what they change up to one that is quiet, the
    allocation in the first succeeds, and there is one more for the last lock. *)
Definition windows_ok (osize its : Z) (ws : list window) : Prop :=
  exists ws1 w wl ws2, ws = ws1 ++ w :: wl :: ws2 /\
    Forall (window_ok osize its) ws1 /\ window_ok osize its w /\ quiet osize its w /\
    w_alloc (default w (head ws1)) = true.

Lemma grow_table_ok (entries : list Z) (s : ipc_space) (target : Z) (ws : list window) :
  sizes_ok entries -> space_ok s -> words_ok s -> is_active s = true -> is_growing s = false ->
  sized entries s -> windows_ok (is_table_size s) (is_table_next s) ws ->
  target = ITS_SIZE_NONE \/ is_table_size s < target ->
  grow_outcome entries target s ws (ipc_entry_grow_table entries target s ws).
Proof.
  intros Hok Hs Hwd Hact Hng (Hn1 & Hos & Hlen) (ws1 & w & wl & ws2 & Hws & HF & HW & HQ & Hal) Htg.
  set (osize := is_table_size s) in *. unfold grow_outcome. fold osize. cbv zeta.
  destruct (lookup_lt_is_Some_2 entries _ Hlen) as [size Hsize].
  pose proof (sizes_step entries Hok _ _ size Hos) as Hst.
  replace (S (Z.to_nat (is_table_next s - 1))) with (Z.to_nat (is_table_next s)) in Hst by lia.
  specialize (Hst Hsize).
  assert (Hstart : is_start_growing s = Ok (set_growing s)) by (unfold is_start_growing; by rewrite Hng).
  unfold ipc_entry_grow_table. rewrite Hstart, Hact, Hng. cbn [rassert mbind res_bind].
  rewrite (its_size_at entries (is_table_next s) size) by (done || lia). cbn [mbind res_bind].
  rewrite (its_size_at entries (is_table_next s - 1) osize) by (done || lia).
  cbn [mbind res_bind]. destruct (Z.eqb_spec target ITS_SIZE_NONE) as [->|Hnt]; cbn [negb andb mbind res_bind].
  - destruct Hst as [[Hlt Hl]|[Heq Hl]].
    + right. rewrite (proj2 (Z.eqb_neq osize size)) by (unfold osize; lia).
      destruct (grow_tail_ok entries s false Hok Hs Hwd Hact ws1 w wl ws2 HF HW HQ Hal
        (is_table_next s) osize size) as (s1 & s' & wr & ws' & Hrun & Hwr & Hrel & Hres);
        [by rewrite Z.eqb_refl|done..|].
      exists (is_table_next s), size, s1, s', wr, ws'. split; [rewrite Hws; exact Hrun|]. split; [by rewrite Hws|].
      split; [by rewrite Hws|]. by split_and!.
    + left. rewrite (proj2 (Z.eqb_eq osize size)) by done. split; [done|].
      intros x [j Hj]%list_elem_of_lookup_1.
      pose proof (sizes_le_last entries Hok j x size Hj) as Hle.
      replace (length entries - 1)%nat with (Z.to_nat (is_table_next s)) in Hle by lia.
      specialize (Hle Hsize). unfold osize. lia.
  - destruct Htg as [?|Htg]; [done|]. rewrite (proj2 (Z.leb_gt target osize)) by lia.
    destruct (find_target_ok entries Hok target (length entries) (is_table_next s) osize size)
      as (p' & x' & k' & -> & Hk & Hp' & Hx' & Hcase); [done..|lia|]. cbn [mbind res_bind].
    destruct Hcase as [[-> Hall]|[Hlt Htx]].
    + left. rewrite Z.eqb_refl. done.
    + right. rewrite (proj2 (Z.eqb_neq p' x')) by lia.
      assert (osize <= p') by (by apply (sizes_mono entries Hok (Z.to_nat (is_table_next s - 1))
        (Z.to_nat (k' - 1)) osize p'); [lia|..]).
      rewrite (proj2 (Z.eqb_neq osize x')) by lia.
      destruct (grow_tail_ok entries s true Hok Hs Hwd Hact ws1 w wl ws2 HF HW HQ Hal k' p' x')
        as (s1 & s' & wr & ws' & Hrun & Hwr & Hrel & Hres); [by rewrite orb_true_r|done|unfold osize in *; lia|lia|done|done|].
      exists k', x', s1, s', wr, ws'. split; [rewrite Hws; exact Hrun|].
      do 2 (split; [by rewrite Hws|]). split_and!; [done|lia|lia|done].
Qed.

(** C20 Growing the table of an active space, with the sizes computed at boot, succeeds
    whatever other threads do meanwhile, as long as they mark what they change and leave it
    alone in one window: unless every step is used up, the published table has the entries
    the space has at that moment, its hash table and its free list, followed by the new
    entries; or the space died. *)
Theorem ipc_entry_grow_table_correct (steps : nat) (entries requests : list Z)
    (s : ipc_space) (target : Z) (ws : list window) :
  (2 <= steps <= 4097)%nat -> ipc_table_init steps = Ok (entries, requests) ->
  space_ok s -> words_ok s -> is_active s = true -> is_growing s = false -> sized entries s ->
  windows_ok (is_table_size s) (is_table_next s) ws ->
  target = ITS_SIZE_NONE \/ is_table_size s < target ->
  grow_outcome entries target s ws (ipc_entry_grow_table entries target s ws).
Proof.
  intros Hst Hinit. destruct (ipc_table_init_ok steps Hst) as (f & r & l & Hrun & _ & Hok & _).
  rewrite Hinit in Hrun. injection Hrun as -> _. by apply grow_table_ok.
Qed.

(** ** Allocation of entries *)

(** A window in which no other thread runs *)
Definition idle : window :=
  mk_window true (fun s i => entry_at (is_table s) i) (fun s => next_of (is_table s) 0) id.

Lemma idle_ok osize its : window_ok osize its idle /\ quiet osize its idle.
Proof.
  split; [|intros s (_ & _ & _ & _ & _ & _ & Hlow & _); right; simpl; lia].
  split; simpl; unfold id.
  - intros s (Hs & Hw & _ & Hg & Hsz & Hn & Hl & Hh). split_and!; [done..|lia].
  - done.
  - intros s ((H & l & HI) & _). destruct (si_zero _ _ _ _ HI). done.
  - done.
  - intros s i (_ & Hw & _ & _ & Hsz & _) Hi. split; apply Hw; lia.
Qed.

Lemma idle_windows osize its ws : windows_ok osize its (idle :: idle :: ws).
Proof.
  destruct (idle_ok osize its). exists [], idle, idle, ws. split_and!; done.
Qed.

Lemma idle_relocked osize ws s s1 :
  Forall (eq idle) ws -> is_low_mod s = osize -> is_high_mod s = 0 ->
  relocked osize ws s s1 -> s1 = s.
Proof.
  intros HF Hl Hh Hr. induction Hr as [w ws s|w ws s s1 Hr IH]; apply Forall_cons in HF as [<- HF].
  - done.
  - assert (Hs : set_is_high_mod 0 (set_is_low_mod osize (w_run idle s)) = s)
      by (simpl; unfold id; destruct s; simpl in *; by subst).
    rewrite Hs in IH. auto.
Qed.

(** Growing while no other thread runs *)
Lemma grow_table_idle entries s target :
  let ws := [idle; idle] in
  sizes_ok entries -> space_ok s -> words_ok s -> is_active s = true -> is_growing s = false ->
  sized entries s -> target = ITS_SIZE_NONE \/ is_table_size s < target ->
  (ipc_entry_grow_table entries target s ws = Ok (KERN_NO_SPACE, s, ws) /\
   forall x, x ∈ entries -> if target =? ITS_SIZE_NONE then x <= is_table_size s else x < target) \/
  (exists its size s' ws', ipc_entry_grow_table entries target s ws = Ok (KERN_SUCCESS, s', ws') /\
    entries !! Z.to_nat its = Some size /\ is_table_size s < size /\
    (if target =? ITS_SIZE_NONE then its = is_table_next s else target <= size) /\
    grown size (its + 1) (start_growing s) s').
Proof.
  intros ws Hok Hs Hwd Hact Hng Hsd Htg.
  pose proof (start_growing_ok s Hs Hwd Hact) as Hg.
  destruct (grow_table_ok entries s target ws Hok Hs Hwd Hact Hng Hsd) as [Hno|Hyes];
    [apply idle_windows|done|by left|right].
  destruct Hyes as (its & size & s1 & s' & wr & ws' & Hrun & Hwr & Hrel & Hsz & Hlt & Hits & Hres).
  assert (HF : Forall (eq idle) ws) by (unfold ws; by repeat constructor).
  apply (idle_relocked _ _ _ _ HF) in Hrel as ->; [|done..].
  assert (wr = idle) as -> by (rewrite list.Forall_forall in HF; symmetry; by apply HF).
  exists its, size, s', ws'. split_and!; [done..|].
  destruct Hg as (_ & _ & Ha & _). destruct Hres as [[? _]|(_ & _ & ?)]; [congruence|done].
Qed.

(** A claim in the grown space is one in the space before. *)
Lemma grown_claimed size nits s s1 s' name i :
  grown size nits (start_growing s) s1 -> is_table_size s < size ->
  claimed s1 s' name i -> claimed s s' name i.
Proof.
  intros (H' & l' & _ & _ & Hsz & _ & _ & _ & _ & Hold) Hlt
    (Hv & Hix & Hi & Hnm & Hc & Hinv & Hkeep). simpl in Hold.
  split_and!; [done|done|lia..| |done|done|].
  - unfold names_entry in *. destruct (Z.ltb_spec (MACH_PORT_INDEX name) (is_table_size s)) as [Hr|]; [|done].
    rewrite (proj2 (Z.ltb_lt _ (is_table_size s1))) in Hnm by lia.
    destruct (Hold (MACH_PORT_INDEX name)) as (_ & <- & _); [lia|done].
  - intros j Hj Ht. destruct (Hold j Hj) as (Ho & Hb & Hr). rewrite Hkeep; [|lia|by rewrite Hb].
    unfold core. rewrite Ho, Hb, Hr by done. done.
Qed.

(** A window in which no other thread runs; [alloc] is the answer of the allocator. *)
Definition atomic_window (alloc : bool) : window :=
  mk_window alloc (w_snap idle) (w_next0 idle) (w_run idle).
Definition atomic_windows (alloc : bool) : list window := [atomic_window alloc; atomic_window alloc].

Lemma start_growing_flags s :
  is_growing (start_growing s) = true /\ is_active (start_growing s) = is_active s.
Proof.
  split.
  - unfold is_growing. simpl. rewrite Z.land_lor_distr_l, Z.land_diag. apply Z.eqb_eq.
    apply Z.bits_inj'. intros n _. rewrite Z.lor_spec, Z.land_spec.
    by destruct (Z.testbit (is_bits s) n), (Z.testbit IS_GROWING n).
  - unfold is_active. simpl. rewrite Z.land_lor_distr_l.
    change (Z.land IS_GROWING IS_INACTIVE) with 0. by rewrite Z.lor_0_r.
Qed.

Lemma growing_undone s :
  is_growing s = false -> clear_growing (start_growing s) = set_is_high_mod 0 (set_is_low_mod (is_table_size s) s).
Proof.
  intros Hg. unfold is_growing in Hg. apply Z.eqb_neq in Hg. destruct s as [bits]. unfold clear_growing, start_growing, set_growing. simpl in *.
  assert (H29 : Z.testbit bits 29 = false).
  { destruct (Z.testbit bits 29) eqn:Hb; [|done]. destruct Hg. change IS_GROWING with (2 ^ 29). apply Z.bits_inj'. intros n Hn.
    rewrite Z.land_spec, Z.pow2_bits_eqb by lia. destruct (Z.eqb_spec 29 n) as [<-|]; [by rewrite Hb|apply andb_false_r]. }
  assert (Hu : clr (Z.lor bits IS_GROWING) IS_GROWING = bits); [|unfold set_is_bits, set_is_high_mod, set_is_low_mod; simpl; by rewrite Hu].
  change IS_GROWING with (2 ^ 29). unfold clr. apply Z.bits_inj'. intros n Hn.
  rewrite Z.ldiff_spec, Z.lor_spec, Z.pow2_bits_eqb by lia. destruct (Z.eqb_spec 29 n) as [<-|]; [by rewrite H29|].
  by rewrite orb_false_r, andb_true_r.
Qed.

(** With the allocator refusing, the table stays. *)
Lemma grow_table_refused entries s :
  sizes_ok entries -> is_active s = true -> is_growing s = false -> sized entries s ->
  exists kr s' ws, ipc_entry_grow_table entries ITS_SIZE_NONE s (atomic_windows false) = Ok (kr, s', ws) /\
    ((kr = KERN_NO_SPACE /\ s' = s) \/
     (kr = KERN_RESOURCE_SHORTAGE /\ s' = clear_growing (start_growing s))) /\
    (kr = KERN_NO_SPACE -> forall x, x ∈ entries -> x <= is_table_size s).
Proof.
  intros Hok Hact Hng (Hn1 & Hos & Hlen).
  destruct (lookup_lt_is_Some_2 entries _ Hlen) as [size Hsize].
  pose proof (sizes_step entries Hok _ _ size Hos) as Hst.
  replace (S (Z.to_nat (is_table_next s - 1))) with (Z.to_nat (is_table_next s)) in Hst by lia.
  specialize (Hst Hsize). unfold ipc_entry_grow_table. rewrite Hact, Hng. cbn [rassert mbind res_bind].
  rewrite (its_size_at entries (is_table_next s) size) by (done || lia). cbn [mbind res_bind].
  rewrite (its_size_at entries (is_table_next s - 1) (is_table_size s)) by (done || lia).
  cbn [mbind res_bind]. change (ITS_SIZE_NONE =? ITS_SIZE_NONE) with true. cbn [negb andb mbind res_bind].
  destruct Hst as [[Hlt Hl]|[Heq Hl]].
  - rewrite (proj2 (Z.eqb_neq (is_table_size s) size)) by lia.
    destruct (lookup_lt_is_Some_2 entries (Z.to_nat (is_table_next s + 1))) as [z Hz]; [lia|].
    rewrite (its_size_at entries (is_table_next s + 1) z) by (done || lia). cbn [mbind res_bind].
    pose proof (sizes_mono entries Hok (Z.to_nat (is_table_next s)) (Z.to_nat (is_table_next s + 1)) size z
      ltac:(lia) Hsize Hz).
    rewrite (proj2 (Z.ltb_lt _ _) Hlt), (proj2 (Z.leb_le size z)) by done. cbn [andb rassert mbind res_bind].
    unfold is_start_growing. rewrite Hng. cbn [negb rassert mbind res_bind].
    unfold atomic_windows, atomic_window. cbn [w_alloc negb w_run]. unfold is_done_growing, idle. cbn [w_run].
    unfold id. eexists _, _, _. split; [|split; [right; split; reflexivity|done]].
    pose proof (proj1 (start_growing_flags s)) as Hg. unfold start_growing in Hg. by rewrite Hg.
  - rewrite (proj2 (Z.eqb_eq (is_table_size s) size)) by done. eexists _, _, _. split; [done|]. split; [by left|].
    intros _ x [j Hj]%list_elem_of_lookup_1. pose proof (sizes_le_last entries Hok j x size Hj) as Hle.
    replace (length entries - 1)%nat with (Z.to_nat (is_table_next s)) in Hle by lia. specialize (Hle Hsize). lia.
Qed.

(** C24 [ipc_entry_alloc], while no other thread uses the space: a dead space is refused with
    [KERN_INVALID_TASK].  Otherwise it takes a free entry, or grows the table and takes one of
    the new ones: it yields a valid name that named nothing before and keeps every entry in
    use.  It fails only if no entry is free: with [KERN_NO_SPACE] and no change when the table
    has the largest size, with [KERN_RESOURCE_SHORTAGE] and no change but of the bounds of
    modified entries when there is no memory for a larger one. *)
Theorem ipc_entry_alloc_correct (entries : list Z) (s : ipc_space) (mem : bool) :
  sizes_ok entries ->
  (is_active s = true -> space_ok s /\ words_ok s /\ is_growing s = false /\ sized entries s) ->
  exists r s' ws', ipc_entry_alloc entries 2 s (atomic_windows mem) = Ok (r, s', ws') /\
    match r with
    | inl kr =>
      if is_active s then
        (forall i, 0 < i < is_table_size s -> IE_BITS_TYPE (ie_bits (entry_at (is_table s) i)) <> MACH_PORT_TYPE_NONE) /\
        ((kr = KERN_NO_SPACE /\ s' = s /\ forall x, x ∈ entries -> x <= is_table_size s) \/
         (kr = KERN_RESOURCE_SHORTAGE /\ mem = false /\ s' = set_is_high_mod 0 (set_is_low_mod (is_table_size s) s)))
      else kr = KERN_INVALID_TASK /\ s' = s
    | inr (name, i) => is_active s = true /\ claimed s s' name i
    end.
Proof.
  intros Hok Hs. cbn [ipc_entry_alloc]. destruct (is_active s) eqn:Hact; cbn [negb]; [|by eexists _, _, _].
  destruct (Hs eq_refl) as (Hsp & Hwd & Hng & Hsd).
  destruct (ipc_entry_get_ok s Hsp Hact) as [[-> Hfull]|(name & i & s' & -> & Hcl & _)];
    cbn [mbind res_bind]; [|by eexists _, _, _]. destruct mem.
  2:{ destruct (grow_table_refused entries s Hok Hact Hng Hsd) as (kr & s' & ws & -> & Hres & Hmax).
      cbn [mbind res_bind]. rewrite decide_False by (intros ->; by destruct Hres as [[? _]|[? _]]).
      eexists _, _, _. split; [done|]. split; [done|]. destruct Hres as [[-> ->]|[-> ->]]; [left|right]; split_and!; auto.
      by apply growing_undone. }
  change (atomic_windows true) with [idle; idle].
  destruct (grow_table_idle entries s ITS_SIZE_NONE Hok Hsp Hwd Hact Hng Hsd (or_introl eq_refl))
    as [[-> Hmax]|(its & size & s1 & ws' & -> & Hsz & Hlt & _ & Hg)]; cbn [mbind res_bind].
  { rewrite decide_False by done. eexists _, _, _. split; [done|]. split; [done|]. by left. }
  rewrite decide_True by done. pose proof Hg as (H & l & HI0 & HI1 & Hsz1 & _ & _ & Hact1 & _).
  assert (Ha1 : is_active s1 = true) by (rewrite Hact1; by rewrite (proj2 (start_growing_flags s))).
  rewrite Ha1. cbn [negb].
  destruct (ipc_entry_get_ok s1 (ex_intro _ H (ex_intro _ _ HI1)) Ha1)
    as [[_ Hfull1]|(name & i & s' & -> & Hcl & _)]; cbn [mbind res_bind].
  - exfalso. apply (Hfull1 (is_table_size s)); [pose proof (si_bound _ _ _ _ HI0); simpl in *; lia|].
    apply (si_free _ _ _ _ HI1). apply elem_of_app. right. apply elem_of_seqZ. simpl. lia.
  - eexists _, _, _. split; [done|]. split; [done|]. by apply (grown_claimed size (its + 1) s s1).
Qed.

(** A free entry of the table, taken by its name *)
Lemma alloc_name_at_claimed s i name :
  space_ok s -> MACH_PORT_VALID name = true -> MACH_PORT_INDEX name = i -> 0 < i < is_table_size s ->
  IE_BITS_TYPE (ie_bits (entry_at (is_table s) i)) = MACH_PORT_TYPE_NONE ->
  exists s', alloc_name_at i (MACH_PORT_GEN name) s = Ok (inr i, s') /\ claimed s s' name i.
Proof.
  intros (H & l & HI) Hv Hix Hi Ht.
  assert (Hil : i ∈ l) by (apply (si_all _ _ _ _ HI); [done|set_solver|done]).
  destruct (wp_inv _ _ _ (alloc_name_at_free _ _ _ _ i _ HI Hil (MACH_PORT_GEN_ok name)))
    as (r & s' & Hrun & -> & (l' & HI') & (_ & Hlen & Hsb) & He).
  exists s'. split; [done|]. pose proof (si_size _ _ _ _ HI) as Hsz.
  pose proof (si_size _ _ _ _ HI') as Hsz'. split_and!; [done|done|lia|lia| | | |].
  - unfold names_entry. rewrite Hix, Ht. by rewrite andb_false_r.
  - by rewrite He.
  - exists H, l'. replace {[i]} with ({[i]} ∪ ∅ : gset Z) by set_solver. done.
  - intros j Hj Htj. destruct (Hsb j) as (_ & _ & Hsame); [lia| |by rewrite Hsame].
    by intros ->%elem_of_singleton.
Qed.

(** C25 [ipc_entry_alloc_name], while no other thread uses the space, gives access to the entry
    of a name whose index is that of a usable entry: the entry that has the name already,
    with nothing changed, or a free one, for which the table grows when it is too small.
    It fails only when the entry is in use under another name. *)
Theorem ipc_entry_alloc_name_correct (entries : list Z) (s : ipc_space) (name x : Z) :
  let i := MACH_PORT_INDEX name in
  sizes_ok entries -> space_ok s -> words_ok s -> is_active s = true -> is_growing s = false ->
  sized entries s -> MACH_PORT_VALID name = true -> 0 < i -> x ∈ entries -> i < x ->
  exists r s' ws', ipc_entry_alloc_name entries 2 name s [idle; idle] = Ok (r, s', ws') /\
    match r with
    | inl kr => kr = KERN_FAILURE /\ s' = s /\ i < is_table_size s /\
        IE_BITS_TYPE (ie_bits (entry_at (is_table s) i)) <> MACH_PORT_TYPE_NONE /\
        names_entry s name = false
    | inr entry => entry = i /\ ((names_entry s name = true /\ s' = s) \/ claimed s s' name i)
    end.
Proof.
  intros i Hok Hs Hwd Hact Hng Hsd Hv Hi Hx Hix. unfold ipc_entry_alloc_name. rewrite Hv.
  cbn [rassert mbind res_bind alloc_name_loop]. rewrite Hact. cbn [negb]. fold i.
  destruct (Z.ltb_spec i (is_table_size s)) as [Hlt|Hge].
  { destruct (decide (IE_BITS_TYPE (ie_bits (entry_at (is_table s) i)) = MACH_PORT_TYPE_NONE)) as [Ht|Ht].
    - destruct (alloc_name_at_claimed s i name Hs Hv eq_refl) as (s' & -> & Hcl); [lia|done|].
      cbn [mbind res_bind]. eexists _, _, _. split; [done|]. split; [done|by right].
    - destruct Hs as (H & l & HI). rewrite (alloc_name_at_used _ _ _ _ _ _ HI) by (done || lia).
      cbn [mbind res_bind]. eexists _, _, _. split; [done|].
      assert (Hnm : names_entry s name = (IE_BITS_GEN (ie_bits (entry_at (is_table s) i)) =? MACH_PORT_GEN name)).
      { unfold names_entry. fold i. rewrite (proj2 (Z.ltb_lt _ _) Hlt), (proj2 (Z.eqb_neq _ _) Ht).
        by rewrite andb_true_r. }
      rewrite Hnm. destruct (_ =? MACH_PORT_GEN name); [split; [done|by left]|done]. }
  assert (Hu : u32 (i + 1) = i + 1).
  { unfold u32. apply Z.mod_small. apply (so_range _ Hok) in Hx.
    change (MACH_PORT_INDEX MACH_PORT_DEAD) with 0xffffff in Hx. lia. }
  assert (Hnn : i + 1 <> ITS_SIZE_NONE).
  { apply (so_range _ Hok) in Hx. change (MACH_PORT_INDEX MACH_PORT_DEAD) with 0xffffff in Hx.
    unfold ITS_SIZE_NONE. lia. }
  rewrite Hu. destruct (grow_table_idle entries s (i + 1) Hok Hs Hwd Hact Hng Hsd)
    as [[_ Hmax]|(its & size & s1 & ws' & -> & Hsz & Hls & Htz & Hg)]; [lia| |].
  { specialize (Hmax x Hx). rewrite (proj2 (Z.eqb_neq _ _) Hnn) in Hmax. lia. }
  rewrite (proj2 (Z.eqb_neq _ _) Hnn) in Htz. cbn [mbind res_bind].
  rewrite bool_decide_eq_false_2, decide_True by done. cbn [negb rassert mbind res_bind].
  pose proof Hg as (H & l & HI0 & HI1 & Hsz1 & _ & _ & Hact1 & _).
  destruct (start_growing_ok s Hs Hwd Hact) as (_ & _ & Ha0 & _). rewrite Hact1, Ha0. cbn [negb].
  rewrite (proj2 (Z.ltb_lt i (is_table_size s1))) by lia.
  destruct (alloc_name_at_claimed s1 i name (ex_intro _ H (ex_intro _ _ HI1)) Hv eq_refl)
    as (s' & -> & Hcl); [lia| |].
  - apply (si_free _ _ _ _ HI1). apply elem_of_app. right. apply elem_of_seqZ. simpl. lia.
  - cbn [mbind res_bind]. eexists _, _, _. split; [done|]. split; [done|]. right.
    by apply (grown_claimed size (its + 1) s s1).
Qed.

(** Two kinds of valid names make [ipc_entry_alloc_name] fail an assertion of its own:
    those of index 0, because entry 0 of a space has a non-zero generation, and those
    whose index is beyond the largest table. *)
Theorem ipc_entry_alloc_name_asserts (entries : list Z) (s : ipc_space) (name : Z) :
  let i := MACH_PORT_INDEX name in
  sizes_ok entries -> space_ok s -> words_ok s -> is_active s = true -> is_growing s = false ->
  sized entries s -> MACH_PORT_VALID name = true -> 0 <= name < 2 ^ 32 ->
  (i = 0 /\ IE_BITS_GEN (ie_bits (entry_at (is_table s) 0)) <> 0) \/
  (forall x, x ∈ entries -> x <= i) ->
  ipc_entry_alloc_name entries 2 name s [idle; idle] = Fail FAssert.
Proof.
  intros i Hok Hs Hwd Hact Hng Hsd Hv Hn Hcase. unfold ipc_entry_alloc_name. rewrite Hv.
  cbn [rassert mbind res_bind alloc_name_loop]. rewrite Hact. cbn [negb]. fold i.
  pose proof Hs as (H & l & HI). pose proof (si_bound _ _ _ _ HI) as Hb.
  pose proof (si_size _ _ _ _ HI) as Hsz. destruct Hcase as [[Hi0 Hg]|Hbig].
  - rewrite Hi0, (proj2 (Z.ltb_lt _ _)) by lia. destruct (si_zero _ _ _ _ HI) as [Ht _].
    unfold alloc_name_at, mbind, M_bind, tget. rewrite table_get_at by lia. cbn [res_bind mbind].
    unfold massert, lift, rassert. rewrite Ht, (proj2 (Z.eqb_neq _ _) Hg). done.
  - assert (Hge : is_table_size s <= i).
    { apply Hbig. destruct Hsd as (_ & Hos & _). by apply list_elem_of_lookup_2 in Hos. }
    rewrite (proj2 (Z.ltb_ge _ _)) by lia.
    assert (Hi : i < 2 ^ 24) by (unfold i; rewrite MACH_PORT_INDEX_div; apply Z.div_lt_upper_bound; lia).
    assert (Hu : u32 (i + 1) = i + 1) by (unfold u32; apply Z.mod_small; lia).
    assert (Hnn : (i + 1 =? ITS_SIZE_NONE) = false) by (apply Z.eqb_neq; unfold ITS_SIZE_NONE; lia).
    rewrite Hu. destruct (grow_table_idle entries s (i + 1) Hok Hs Hwd Hact Hng Hsd)
      as [[-> _]|(its & size & s1 & ws' & _ & Hsize & _ & Htz & _)]; [lia|done|].
    rewrite Hnn in Htz. apply list_elem_of_lookup_2, Hbig in Hsize. lia.
Qed.

(** ** Witnesses *)

Module GrowExample.
(** Three dead names fill a table of the smallest of these sizes. *)
Definition sizes : list Z := [4; 8; 8].
Definition full : ipc_space := mk_ipc_space 2 4 0
  [mk_ipc_entry 0 0xff000000 0 0; mk_ipc_entry 0 0x03100001 0 0;
   mk_ipc_entry 0 0x03100001 0 0; mk_ipc_entry 0 0x03100002 0 0] 0 1 4 0.

Lemma sizes_are_ok : sizes_ok sizes.
Proof.
  split.
  - exists [4; 8], 8. split_and!; [done| |done]. intros [|[|]] [|[|]] x y Hij Hx Hy; simplify_eq/=; lia.
  - intros x Hx. change (MACH_PORT_INDEX MACH_PORT_DEAD) with 0xffffff.
    unfold sizes in Hx. rewrite !elem_of_cons in Hx. set_solver by lia.
Qed.

Lemma full_ok : space_ok full.
Proof. exists ∅, []. apply space_check_sound. by vm_compute. Qed.

Lemma words_check s :
  forallb (fun i => 0 <=? ie_request (entry_at (is_table s) i)) (seqZ 0 (is_table_size s)) = true ->
  words_ok s.
Proof.
  intros Hc i Hi. apply (forallb_elem _ _ i) in Hc; [by apply Z.leb_le|apply elem_of_seqZ; lia].
Qed.

Lemma full_sized : sized sizes full.
Proof. split_and!; [done|done|simpl; lia]. Qed.

Lemma ipc_entry_alloc_witness :
  exists r s' ws', ipc_entry_alloc sizes 2 full (atomic_windows true) = Ok (r, s', ws') /\ r = inr (0x403, 4).
Proof.
  destruct (ipc_entry_alloc_correct sizes full true sizes_are_ok) as (r & s' & ws' & Hrun & _).
  { intros _. split_and!; [apply full_ok|by apply words_check|reflexivity|apply full_sized]. }
  exists r, s', ws'. split; [exact Hrun|]. vm_compute in Hrun. by injection Hrun as <- _ _.
Defined.

Lemma ipc_entry_alloc_name_witness :
  exists s' ws', ipc_entry_alloc_name sizes 2 0x605 full [idle; idle] = Ok (inr 6, s', ws').
Proof.
  destruct (ipc_entry_alloc_name_correct sizes full 0x605 8 sizes_are_ok full_ok)
    as (r & s' & ws' & Hrun & _);
    [by apply words_check|reflexivity|reflexivity|apply full_sized|reflexivity|reflexivity| |reflexivity|].
  { right. left. }
  exists s', ws'. rewrite Hrun. vm_compute in Hrun. by injection Hrun as <- _ _.
Defined.

Lemma ipc_entry_alloc_name_asserts_witness :
  ipc_entry_alloc_name sizes 2 0x17 full [idle; idle] = Fail FAssert.
Proof.
  apply (ipc_entry_alloc_name_asserts sizes full 0x17 sizes_are_ok full_ok);
    [by apply words_check|reflexivity|reflexivity|apply full_sized|reflexivity|lia|].
  left. by vm_compute.
Defined.

(** The smallest table of a kernel with three steps, as it is created *)
Definition fresh21 : ipc_space := mk_ipc_space 2 21 20
  (map (fun i => mk_ipc_entry 0 IE_BITS_GEN_MASK 0 (if i =? 20 then 0 else i + 1)) (seqZ 0 21)) 0 1 21 0.

Lemma ipc_entry_grow_table_witness :
  grow_outcome [21; 42; 42] 30 fresh21 [idle; idle]
    (ipc_entry_grow_table [21; 42; 42] 30 fresh21 [idle; idle]).
Proof.
  destruct (ipc_table_init 3) as [[entries requests]|] eqn:Hinit; [|by vm_compute in Hinit].
  assert (entries = [21; 42; 42]) as -> by (vm_compute in Hinit; by injection Hinit as <- _).
  apply (ipc_entry_grow_table_correct 3 [21; 42; 42] requests fresh21 30); [lia|exact Hinit|..].
  - exists ∅, (seqZ 1 20). apply space_check_sound. by vm_compute.
  - apply words_check. by vm_compute.
  - reflexivity.
  - reflexivity.
  - split_and!; [done|done|simpl; lia].
  - apply idle_windows.
  - right. done.
Defined.
End GrowExample.
