(* ===== verification/IpcState.v ===== *)
(** * The kernel state of Mach IPC

    The objects of osfmk/ipc in one state: ports, port sets, spaces and kernel messages by
    address, the fields of the current thread the code uses, and a log.  The log records the
    calls that leave the modelled code: notifications handed to the MIG stubs (each holds the
    send-once right and the reference it was given), guard exceptions, thread wakeups and
    calls of the importance and kernel-object layers.  An object whose last reference is
    released is removed from its map, so that a use after free is a [FBadAccess]. *)

From S2P Require Import IpcTypes IpcHash IpcEntry.

(** ** Messages (ipc_kmsg.h, mach/message.h) *)

Definition MACH_MSGH_BITS_REMOTE (bits : Z) : Z := Z.land bits 0x1f.
Definition MACH_MSGH_BITS_LOCAL (bits : Z) : Z := Z.shiftr (Z.land bits 0x1f00) 8.
Definition MACH_MSGH_BITS_VOUCHER (bits : Z) : Z := Z.shiftr (Z.land bits 0x1f0000) 16.
Definition MACH_MSGH_BITS_COMPLEX : Z := 0x80000000.
Definition MACH_MSGH_BITS_RAISEIMP : Z := 0x20000000.
Definition MACH_MSGH_BITS_CIRCULAR : Z := 0x10000000.
Definition MACH_MSGH_BITS_RAISED_IMPORTANCE (bits : Z) : bool := has bits MACH_MSGH_BITS_RAISEIMP.

(** The descriptors of a complex message; [OtherDescriptor] is any other type code. *)
Inductive mach_msg_descriptor :=
  | PortDescriptor (name disposition : Z)
  | OolDescriptor (type address size copy : Z)
  | OolPortsDescriptor (address disposition : Z) (objects : list Z)
  | OtherDescriptor (type : Z).

(** [struct ipc_kmsg] with the fields of its header that the code below uses; queue links
    are the lists of the queues themselves. *)
Record ipc_kmsg := mk_ipc_kmsg {
  msgh_bits : Z;
  msgh_remote_port : Z;
  msgh_local_port : Z;
  msgh_descriptors : list mach_msg_descriptor;
  ikm_voucher : Z;
  ikm_prealloc : Z;
  ikm_importance : Z;
  msgh_size : Z;
  msgh_voucher_port : Z;
}.

Definition set_msgh_bits (v : Z) (r : ipc_kmsg) : ipc_kmsg :=
  mk_ipc_kmsg v (msgh_remote_port r) (msgh_local_port r) (msgh_descriptors r)
    (ikm_voucher r) (ikm_prealloc r) (ikm_importance r) (msgh_size r) (msgh_voucher_port r).
Definition set_msgh_remote_port (v : Z) (r : ipc_kmsg) : ipc_kmsg :=
  mk_ipc_kmsg (msgh_bits r) v (msgh_local_port r) (msgh_descriptors r)
    (ikm_voucher r) (ikm_prealloc r) (ikm_importance r) (msgh_size r) (msgh_voucher_port r).
Definition set_msgh_local_port (v : Z) (r : ipc_kmsg) : ipc_kmsg :=
  mk_ipc_kmsg (msgh_bits r) (msgh_remote_port r) v (msgh_descriptors r)
    (ikm_voucher r) (ikm_prealloc r) (ikm_importance r) (msgh_size r) (msgh_voucher_port r).
Definition set_msgh_descriptors (v : list mach_msg_descriptor) (r : ipc_kmsg) : ipc_kmsg :=
  mk_ipc_kmsg (msgh_bits r) (msgh_remote_port r) (msgh_local_port r) v
    (ikm_voucher r) (ikm_prealloc r) (ikm_importance r) (msgh_size r) (msgh_voucher_port r).
Definition set_ikm_voucher (v : Z) (r : ipc_kmsg) : ipc_kmsg :=
  mk_ipc_kmsg (msgh_bits r) (msgh_remote_port r) (msgh_local_port r) (msgh_descriptors r)
    v (ikm_prealloc r) (ikm_importance r) (msgh_size r) (msgh_voucher_port r).
Definition set_ikm_prealloc (v : Z) (r : ipc_kmsg) : ipc_kmsg :=
  mk_ipc_kmsg (msgh_bits r) (msgh_remote_port r) (msgh_local_port r) (msgh_descriptors r)
    (ikm_voucher r) v (ikm_importance r) (msgh_size r) (msgh_voucher_port r).
Definition set_ikm_importance (v : Z) (r : ipc_kmsg) : ipc_kmsg :=
  mk_ipc_kmsg (msgh_bits r) (msgh_remote_port r) (msgh_local_port r) (msgh_descriptors r)
    (ikm_voucher r) (ikm_prealloc r) v (msgh_size r) (msgh_voucher_port r).
Definition set_msgh_size (v : Z) (r : ipc_kmsg) : ipc_kmsg :=
  mk_ipc_kmsg (msgh_bits r) (msgh_remote_port r) (msgh_local_port r) (msgh_descriptors r)
    (ikm_voucher r) (ikm_prealloc r) (ikm_importance r) v (msgh_voucher_port r).
Definition set_msgh_voucher_port (v : Z) (r : ipc_kmsg) : ipc_kmsg :=
  mk_ipc_kmsg (msgh_bits r) (msgh_remote_port r) (msgh_local_port r) (msgh_descriptors r)
    (ikm_voucher r) (ikm_prealloc r) (ikm_importance r) (msgh_size r) v.

(** ** Calls that leave the modelled code *)
Inductive event :=
  | NotifyPortDeleted (port name : Z)
  | NotifySendPossible (port name : Z)
  | NotifyPortDestroyed (port right : Z)
  | NotifyNoSenders (port mscount : Z)
  | NotifySendOnce (port : Z)
  | NotifyDeadName (port name : Z)
  | GuardException (name inguard portguard reason : Z)
  | ThreadsRestarted (threads : list Z)
  | SenderAwakened (thread : Z)
  | KobjectDestroy (kotype port : Z)
  | ImportanceHold (task count : Z)
  | ImportanceDrop (task count : Z)
  | ImportanceReference (task : Z)
  | ImportanceRelease (task : Z)
  | ImportanceUnlink (kmsg elem : Z)
  | VmMapCopyDiscard (address : Z)
  | VmDeallocate (address size : Z)
  | CopyOutMap (address : Z) (names : list Z)
  | Kfree (address : Z).

Definition kGUARD_EXC_DESTROY : Z := 1.
Definition kGUARD_EXC_MOD_REFS : Z := 2.
Definition kGUARD_EXC_SET_CONTEXT : Z := 4.
Definition kGUARD_EXC_UNGUARDED : Z := 8.
Definition kGUARD_EXC_INCORRECT_GUARD : Z := 16.

(** ** The state

    [ks_zalloc] answers the next calls of the zone allocator: the address of the new
    object, 0 when there is none; [ks_kalloc] those of [kalloc] for tables. *)
Record kstate := mk_kstate {
  ks_ports : gmap Z ipc_port;
  ks_psets : gmap Z ipc_pset;
  ks_spaces : gmap Z ipc_space;
  ks_kmsgs : gmap Z ipc_kmsg;
  ks_timestamp : Z;
  ks_ith_messages : list Z;
  ks_ith_assertions : Z;
  ks_zalloc : list Z;
  ks_kalloc : list bool;
  ks_log : list event;
}.

Definition set_ks_ports v s := mk_kstate v (ks_psets s) (ks_spaces s) (ks_kmsgs s)
  (ks_timestamp s) (ks_ith_messages s) (ks_ith_assertions s) (ks_zalloc s) (ks_kalloc s) (ks_log s).
Definition set_ks_psets v s := mk_kstate (ks_ports s) v (ks_spaces s) (ks_kmsgs s)
  (ks_timestamp s) (ks_ith_messages s) (ks_ith_assertions s) (ks_zalloc s) (ks_kalloc s) (ks_log s).
Definition set_ks_spaces v s := mk_kstate (ks_ports s) (ks_psets s) v (ks_kmsgs s)
  (ks_timestamp s) (ks_ith_messages s) (ks_ith_assertions s) (ks_zalloc s) (ks_kalloc s) (ks_log s).
Definition set_ks_kmsgs v s := mk_kstate (ks_ports s) (ks_psets s) (ks_spaces s) v
  (ks_timestamp s) (ks_ith_messages s) (ks_ith_assertions s) (ks_zalloc s) (ks_kalloc s) (ks_log s).
Definition set_ks_timestamp v s := mk_kstate (ks_ports s) (ks_psets s) (ks_spaces s) (ks_kmsgs s)
  v (ks_ith_messages s) (ks_ith_assertions s) (ks_zalloc s) (ks_kalloc s) (ks_log s).
Definition set_ks_ith_messages v s := mk_kstate (ks_ports s) (ks_psets s) (ks_spaces s) (ks_kmsgs s)
  (ks_timestamp s) v (ks_ith_assertions s) (ks_zalloc s) (ks_kalloc s) (ks_log s).
Definition set_ks_ith_assertions v s := mk_kstate (ks_ports s) (ks_psets s) (ks_spaces s)
  (ks_kmsgs s) (ks_timestamp s) (ks_ith_messages s) v (ks_zalloc s) (ks_kalloc s) (ks_log s).
Definition set_ks_zalloc v s := mk_kstate (ks_ports s) (ks_psets s) (ks_spaces s) (ks_kmsgs s)
  (ks_timestamp s) (ks_ith_messages s) (ks_ith_assertions s) v (ks_kalloc s) (ks_log s).
Definition set_ks_kalloc v s := mk_kstate (ks_ports s) (ks_psets s) (ks_spaces s) (ks_kmsgs s)
  (ks_timestamp s) (ks_ith_messages s) (ks_ith_assertions s) (ks_zalloc s) v (ks_log s).
Definition set_ks_log v s := mk_kstate (ks_ports s) (ks_psets s) (ks_spaces s) (ks_kmsgs s)
  (ks_timestamp s) (ks_ith_messages s) (ks_ith_assertions s) (ks_zalloc s) (ks_kalloc s) v.

Notation K := (M kstate).

(** What the code reads of the rest of the kernel: the kernel's own space, the table sizes
    computed by [ipc_table_init], and the importance state of tasks. *)
Class ipc_env := {
  ipc_space_kernel : Z;
  ipc_table_requests : list Z;
  ipc_table_entries : list Z;
  current_task_imp_base : Z;
  task_imp_base : Z -> Z;
  ipc_importance_task_is_any_receiver_type : Z -> bool;
  task_is_importance_donor : bool;
}.

(** ** Access to the objects *)

Definition ip_get (port : Z) : K ipc_port := fun s => p ← rderef (ks_ports s !! port); Ok (p, s).
Definition ip_put (port : Z) (p : ipc_port) : K unit :=
  modify (fun s => set_ks_ports (<[port := p]> (ks_ports s)) s).
Definition ip_mod (port : Z) (f : ipc_port -> ipc_port) : K unit :=
  p ← ip_get port; ip_put port (f p).

Definition ips_get (pset : Z) : K ipc_pset := fun s => p ← rderef (ks_psets s !! pset); Ok (p, s).
Definition ips_put (pset : Z) (p : ipc_pset) : K unit :=
  modify (fun s => set_ks_psets (<[pset := p]> (ks_psets s)) s).
Definition ips_mod (pset : Z) (f : ipc_pset -> ipc_pset) : K unit :=
  p ← ips_get pset; ips_put pset (f p).

Definition ikm_get (kmsg : Z) : K ipc_kmsg := fun s => k ← rderef (ks_kmsgs s !! kmsg); Ok (k, s).
Definition ikm_mod (kmsg : Z) (f : ipc_kmsg -> ipc_kmsg) : K unit :=
  k ← ikm_get kmsg; modify (fun s => set_ks_kmsgs (<[kmsg := f k]> (ks_kmsgs s)) s).

Definition is_get (space : Z) : K ipc_space := fun s => p ← rderef (ks_spaces s !! space); Ok (p, s).
Definition is_put (space : Z) (sp : ipc_space) : K unit :=
  modify (fun s => set_ks_spaces (<[space := sp]> (ks_spaces s)) s).

(** Run an operation of the entry layer on a space. *)
Definition in_space {A} (space : Z) (m : M ipc_space A) : K A :=
  sp ← is_get space; '(a, sp) ← lift (m sp); _ ← is_put space sp; mret a.
Definition space_res (space : Z) (f : ipc_space -> res ipc_space) : K unit :=
  sp ← is_get space; sp ← lift (f sp); is_put space sp.

(** [entry->ie_...] for an entry of a space *)
Definition ie_get (space entry : Z) : K ipc_entry := in_space space (tget entry).
Definition ie_mod (space entry : Z) (f : ipc_entry -> ipc_entry) : K unit :=
  in_space space (tmod f entry).

Definition log (e : event) : K unit := modify (fun s => set_ks_log (ks_log s ++ [e]) s).

Definition pop_zalloc : K Z :=
  s ← get;
  match ks_zalloc s with
  | [] => mret 0
  | a :: l => _ ← modify (set_ks_zalloc l); mret a
  end.
Definition pop_kalloc : K bool :=
  s ← get;
  match ks_kalloc s with
  | [] => mret false
  | a :: l => _ ← modify (set_ks_kalloc l); mret a
  end.

(** ** Notifications (ipc_notify.c): the MIG stub consumes the send-once right. *)
Definition ipc_notify_port_deleted (port name : Z) : K unit := log (NotifyPortDeleted port name).
Definition ipc_notify_send_possible (port name : Z) : K unit := log (NotifySendPossible port name).
Definition ipc_notify_port_destroyed (port right : Z) : K unit := log (NotifyPortDestroyed port right).
Definition ipc_notify_no_senders (port mscount : Z) : K unit := log (NotifyNoSenders port mscount).
Definition ipc_notify_send_once (port : Z) : K unit := log (NotifySendOnce port).
Definition ipc_notify_dead_name (port name : Z) : K unit := log (NotifyDeadName port name).

(** ** Reference counts (ipc_object.h, ipc_object.c) *)

(** [ipc_mqueue_deinit] of a port's queue: [waitq_deinit] unlinks it from its sets and
    asserts that nobody waits. *)
Definition ipc_mqueue_deinit (port : Z) : K unit :=
  _ ← ip_mod port (fun p => set_ip_messages (set_imq_set_links [] (ip_messages p)) p);
  p ← ip_get port;
  massert (match imq_receivers (ip_messages p), imq_senders (ip_messages p) with
           | [], [] => true | _, _ => false end).

Definition ipc_port_finalize (port : Z) : K unit :=
  p ← ip_get port;
  _ ← massert (negb (ip_active p));
  _ ← (match ip_requests p with
       | Some _ => ip_mod port (set_ip_requests None)
       | None => mret tt
       end);
  ipc_mqueue_deinit port.

(** Which map an object lives in; its type is also in [io_bits]. *)
Definition io_is_port (io : Z) : K bool :=
  s ← get;
  match ks_ports s !! io, ks_psets s !! io with
  | Some _, _ => mret true
  | None, Some _ => mret false
  | None, None => fail FBadAccess
  end.

Definition io_free (otype object : Z) : K unit :=
  if otype =? IOT_PORT then
    _ ← ipc_port_finalize object;
    modify (fun s => set_ks_ports (delete object (ks_ports s)) s)
  else
    modify (fun s => set_ks_psets (delete object (ks_psets s)) s).

Definition io_bits (io : Z) : K Z :=
  b ← io_is_port io;
  if b : bool then p ← ip_get io; mret (ip_bits p) else p ← ips_get io; mret (ips_bits p).
Definition io_references (io : Z) : K Z :=
  b ← io_is_port io;
  if b : bool then p ← ip_get io; mret (ip_references p) else p ← ips_get io; mret (ips_references p).
Definition io_set_references (io refs : Z) : K unit :=
  b ← io_is_port io;
  if b : bool then ip_mod io (set_ip_references refs) else ips_mod io (set_ips_references refs).

Definition io_reference (io : Z) : K unit :=
  refs ← io_references io;
  _ ← massert ((0 <? refs) && (refs <? IO_MAX_REFERENCES));
  io_set_references io (refs + 1).

Definition io_release (io : Z) : K unit :=
  refs ← io_references io;
  _ ← massert ((0 <? refs) && (refs <? IO_MAX_REFERENCES));
  _ ← io_set_references io (refs - 1);
  if refs =? 1 then bits ← io_bits io; io_free (io_bits_otype bits) io else mret tt.

Notation ip_reference := io_reference.
Notation ip_release := io_release.
Notation ips_release := io_release.

(** ** States after a step *)
Definition put_port (s : kstate) (o : Z) (p : ipc_port) : kstate := set_ks_ports (<[o := p]> (ks_ports s)) s.
Definition put_pset (s : kstate) (o : Z) (p : ipc_pset) : kstate := set_ks_psets (<[o := p]> (ks_psets s)) s.
Definition put_space (s : kstate) (a : Z) (sp : ipc_space) : kstate :=
  set_ks_spaces (<[a := sp]> (ks_spaces s)) s.
Definition put_log (s : kstate) (e : event) : kstate := set_ks_log (ks_log s ++ [e]) s.

(** The current thread's fields are as before. *)
Definition same_thread (s s' : kstate) : Prop :=
  ks_ith_messages s' = ks_ith_messages s /\ ks_ith_assertions s' = ks_ith_assertions s.

#[global] Instance same_thread_refl : Reflexive same_thread.
Proof. by intros s. Qed.
#[global] Instance same_thread_trans : Transitive same_thread.
Proof. intros s1 s2 s3 [H1 H2] [H3 H4]. split; congruence. Qed.

Lemma put_port_put s o p p' : put_port (put_port s o p) o p' = put_port s o p'.
Proof. unfold put_port. simpl. by rewrite insert_insert_eq. Qed.

Lemma put_port_id s o p : ks_ports s !! o = Some p -> put_port s o p = s.
Proof. intros Ho. unfold put_port. rewrite insert_id by done. by destruct s. Qed.

Lemma ks_ports_put s o p : ks_ports (put_port s o p) !! o = Some p.
Proof. apply lookup_insert_eq. Qed.

Section wp_state.
Implicit Types s : kstate.

Lemma wp_ip_get o p s Q : ks_ports s !! o = Some p -> Q p s -> wp (ip_get o) s Q.
Proof. intros Ho HQ. unfold wp, ip_get. by rewrite Ho. Qed.

Lemma wp_ip_mod o f p s Q : ks_ports s !! o = Some p -> Q tt (put_port s o (f p)) -> wp (ip_mod o f) s Q.
Proof. intros Ho HQ. unfold ip_mod. apply wp_bind. by apply (wp_ip_get o p). Qed.

Lemma put_pset_put s o p p' : put_pset (put_pset s o p) o p' = put_pset s o p'.
Proof. unfold put_pset. simpl. by rewrite insert_insert_eq. Qed.

Lemma ks_psets_put s o p : ks_psets (put_pset s o p) !! o = Some p.
Proof. apply lookup_insert_eq. Qed.

Lemma wp_ips_get o p s Q : ks_psets s !! o = Some p -> Q p s -> wp (ips_get o) s Q.
Proof. intros Ho HQ. unfold wp, ips_get. by rewrite Ho. Qed.

Lemma wp_ips_mod o f p s Q : ks_psets s !! o = Some p -> Q tt (put_pset s o (f p)) -> wp (ips_mod o f) s Q.
Proof. intros Ho HQ. unfold ips_mod. apply wp_bind. by apply (wp_ips_get o p). Qed.

(** Two changes of a port are one. *)
Lemma wp_ip_mod_mod {A} o p f g (k : K A) s Q :
  ks_ports s !! o = Some p -> wp (ip_mod o (fun p => g (f p))) s (fun _ s' => wp k s' Q) ->
  wp (_ ← ip_mod o f; _ ← ip_mod o g; k) s Q.
Proof.
  intros Ho Hw. apply wp_bind, (wp_ip_mod o f p); [done|]. apply wp_bind, (wp_ip_mod o g (f p)); [apply lookup_insert_eq|].
  rewrite put_port_put. unfold wp at 1 in Hw.
  assert (Hr : ip_mod o (fun p => g (f p)) s = Ok (tt, put_port s o (g (f p))))
    by (unfold ip_mod, mbind, M_bind, ip_get; by rewrite Ho).
  by rewrite Hr in Hw.
Qed.

Lemma wp_in_space {A} (m : M ipc_space A) a sp s Q :
  ks_spaces s !! a = Some sp -> wp m sp (fun x sp' => Q x (put_space s a sp')) ->
  wp (in_space a m) s Q.
Proof.
  intros Ha Hm. apply wp_inv in Hm as (x & sp' & Hm & HQ). unfold in_space.
  apply wp_bind. unfold wp at 1, is_get. rewrite Ha. simpl.
  apply wp_bind, (wp_lift _ _ _ (x, sp')); [done|]. done.
Qed.

Lemma wp_space_res (f : ipc_space -> res ipc_space) a sp sp' s Q :
  ks_spaces s !! a = Some sp -> f sp = Ok sp' -> Q tt (put_space s a sp') -> wp (space_res a f) s Q.
Proof.
  intros Ha Hf HQ. unfold space_res. apply wp_bind. unfold wp at 1, is_get. rewrite Ha. simpl.
  apply wp_bind, (wp_lift _ _ _ sp'); done.
Qed.

Lemma wp_is_get a sp s Q : ks_spaces s !! a = Some sp -> Q sp s -> wp (is_get a) s Q.
Proof. intros Ha HQ. unfold wp, is_get. by rewrite Ha. Qed.

Lemma wp_log e s Q : Q tt (put_log s e) -> wp (log e) s Q.
Proof. done. Qed.
End wp_state.
