(* ===== verification/IpcLedger.v ===== *)
(** * The ledger of rights

    Mach IPC counts: a port has its references, its send and send-once rights; a request slot
    of a port belongs to one entry of one space; a live port has one receive right, which is
    in one entry, in one message or in the hands of the kernel.  The counters live in the
    ports, what is counted lives everywhere else.

    Every holder gives the list of [right]s it holds; [held] adds them up over the whole state,
    and [ledger s T] says that the counters of all objects agree with what is held in [s] plus
    the rights [T] that the running code has in its hands.  For a dead port the counts of
    rights are upper bounds only, as its former holders need not be told. *)

From S2P Require Import IpcTypes IpcBits IpcHash IpcEntry IpcGrow IpcState.

(** ** Rights *)
Inductive right :=
  | RRef (object : Z)                 (** a reference of a port or port set *)
  | RLive (object : Z)                (** the receive right of a port *)
  | RSend (port : Z)
  | RSonce (port : Z)
  | RSlot (port index name : Z)       (** a request slot, in use for a name *)
  | RHome (port space name : Z)       (** being known as receiver of the port; under no name and
                                          in no space: the port is in limbo or in transit *)
  | RName (port space : Z)            (** being the name of the port's send or receive right *)
  | RMsg (kmsg : Z)
  | RSet (pset : Z)                   (** being the entry of a port set *)
  | RPort (port : Z)                  (** knowing that the object is a port *)
  | RTransit (port : Z)               (** knowing that the port is in transit *)
  | RPlain (kmsg : Z).                (** knowing that the message is not circular *)

#[global] Instance right_eq_dec : EqDecision right.
Proof. solve_decision. Defined.

(** How often a right occurs in a list *)
Definition ind (r x : right) : Z := if decide (r = x) then 1 else 0.
Fixpoint cnt (r : right) (l : list right) : Z :=
  match l with [] => 0 | x :: l => ind r x + cnt r l end.

Definition when (b : bool) (l : list right) : list right := if b then l else [].

(** ** Who holds what *)

(** An entry of space [a] at index [i], given as object, bits and request *)
Definition core_rights (a i : Z) (c : Z * Z * Z) : list right :=
  let '(o, b, req) := c in
  let name := MACH_PORT_MAKE i (IE_BITS_GEN b) in
  when (has b 0xf0000) [RRef o]
  ++ when (has b MACH_PORT_TYPE_RECEIVE) [RLive o]
  ++ when (has b MACH_PORT_TYPE_PORT_SET) [RSet o]
  ++ when (has b MACH_PORT_TYPE_SEND) [RSend o]
  ++ when (has b MACH_PORT_TYPE_SEND_ONCE) [RSonce o]
  ++ when (has b MACH_PORT_TYPE_PORT_RIGHTS && negb (req =? IE_REQ_NONE)) [RSlot o req name]
  ++ when (has b MACH_PORT_TYPE_RECEIVE) [RHome o a name]
  ++ when (has b MACH_PORT_TYPE_SEND_RECEIVE) [RName o a].
Definition entry_rights (a i : Z) (e : ipc_entry) : list right := core_rights a i (core e).

(** The entries from index [i] on *)
Fixpoint table_rights (a i : Z) (t : list ipc_entry) : list right :=
  match t with
  | [] => []
  | e :: t => entry_rights a i e ++ table_rights a (i + 1) t
  end.

(** The entries of a dead space belong to who terminates it. *)
Definition space_rights (a : Z) (sp : ipc_space) : list right :=
  when (is_active sp) (table_rights a 0 (is_table sp)).

(** A send-once right kept for a notification *)
Definition sonce_rights (port : Z) : list right :=
  when (negb (port =? IP_NULL)) [RSonce port; RRef port].

Definition slot_rights (ipr : ipc_port_request) : list right :=
  when (negb (ipr_name ipr =? MACH_PORT_NULL)) (sonce_rights (IPR_SOR_PORT (ipr_soright ipr))).
Fixpoint slots_rights (l : list ipc_port_request) : list right :=
  match l with [] => [] | ipr :: l => slot_rights ipr ++ slots_rights l end.
Definition requests_rights (o : option (list ipc_port_request)) : list right :=
  match o with Some (_ :: slots) => slots_rights slots | _ => [] end.

(** Messages queued on a port are never circular; of those a thread is to reap, the first can
    be. *)
Definition queue_rights (l : list Z) : list right := (RMsg <$> l) ++ (RPlain <$> l).
Definition reap_rights (l : list Z) : list right := (RMsg <$> l) ++ (RPlain <$> tail l).

Definition port_rights (p : ipc_port) : list right :=
  when (ip_active p)
    (sonce_rights (ip_nsrequest p) ++ sonce_rights (ip_pdrequest p)
     ++ requests_rights (ip_requests p)
     ++ when ((ip_receiver_name p =? MACH_PORT_NULL) && negb (ip_destination p =? IP_NULL))
          [RRef (ip_destination p); RPort (ip_destination p)])
  ++ queue_rights (imq_messages (ip_messages p)).

(** A right in a message, under its disposition: a receive right there has no receiver. *)
Definition disposition_rights (disposition object : Z) : list right :=
  when (IO_VALID object)
    (RRef object ::
     when (disposition =? MACH_MSG_TYPE_PORT_SEND) [RSend object]
     ++ when (disposition =? MACH_MSG_TYPE_PORT_SEND_ONCE) [RSonce object]
     ++ when (disposition =? MACH_MSG_TYPE_PORT_RECEIVE) [RLive object; RHome object IS_NULL MACH_PORT_NULL]).

Definition dispositions : list Z :=
  [MACH_MSG_TYPE_PORT_SEND; MACH_MSG_TYPE_PORT_SEND_ONCE; MACH_MSG_TYPE_PORT_RECEIVE].

(** A right in the body of a message: unless the message is circular, a receive right is in
    transit. *)
Definition carried_rights (circular : bool) (disposition object : Z) : list right :=
  disposition_rights disposition object
  ++ when (IO_VALID object && (disposition =? MACH_MSG_TYPE_PORT_RECEIVE) && negb circular) [RTransit object].

Definition descriptor_rights (circular : bool) (d : mach_msg_descriptor) : list right :=
  match d with
  | PortDescriptor name disposition => carried_rights circular disposition name
  | OolPortsDescriptor _ disposition objects => objects ≫= carried_rights circular disposition
  | OolDescriptor _ _ _ _ | OtherDescriptor _ => []
  end.

Definition kmsg_rights (k : ipc_kmsg) : list right :=
  disposition_rights (MACH_MSGH_BITS_REMOTE (msgh_bits k)) (msgh_remote_port k)
  ++ disposition_rights (MACH_MSGH_BITS_LOCAL (msgh_bits k)) (msgh_local_port k)
  ++ disposition_rights MACH_MSG_TYPE_PORT_SEND (ikm_voucher k)
  ++ when (has (msgh_bits k) MACH_MSGH_BITS_COMPLEX) (msgh_descriptors k ≫= descriptor_rights (has (msgh_bits k) MACH_MSGH_BITS_CIRCULAR))
  ++ when (negb (ikm_prealloc k =? IP_NULL)) [RRef (ikm_prealloc k)].

Definition event_rights (e : event) : list right :=
  match e with
  | NotifyPortDeleted port _ | NotifySendPossible port _ | NotifyNoSenders port _
  | NotifySendOnce port | NotifyDeadName port _ => [RSonce port; RRef port]
  | NotifyPortDestroyed port right =>
    [RSonce port; RRef port; RLive right; RRef right; RHome right IS_NULL MACH_PORT_NULL]
  | _ => []
  end.

(** Adding up over the objects of one kind *)
Definition mcnt {A} (f : Z -> A -> list right) (r : right) (m : gmap Z A) : Z :=
  map_fold (fun k v n => cnt r (f k v) + n) 0 m.

Definition held (s : kstate) (r : right) : Z :=
  mcnt space_rights r (ks_spaces s)
  + mcnt (fun _ => port_rights) r (ks_ports s)
  + mcnt (fun _ => kmsg_rights) r (ks_kmsgs s)
  + cnt r (ks_log s ≫= event_rights)
  + cnt r (reap_rights (ks_ith_messages s)).

(** ** What is counted *)

Definition slot_count (o : option (list ipc_port_request)) (k n : Z) : Z :=
  match o with
  | Some t => match t !! Z.to_nat k with
              | Some ipr => if (0 <? k) && (ipr_name ipr =? n) && negb (n =? MACH_PORT_NULL) then 1 else 0
              | None => 0
              end
  | None => 0
  end.

(** The space of the receiver, none for a port in limbo or in transit *)
Definition ip_home (p : ipc_port) : Z :=
  if ip_receiver_name p =? MACH_PORT_NULL then IS_NULL else ip_receiver p.

Definition home_count (p : ipc_port) (a n : Z) : Z :=
  if ip_active p && (ip_home p =? a) && (ip_receiver_name p =? n) then 1 else 0.

(** A dead port has no destination any more: nothing is known. *)
Definition transit_count (p : ipc_port) : Z :=
  if ip_active p && (negb (ip_receiver_name p =? MACH_PORT_NULL) || (ip_destination p =? IP_NULL)) then 0 else 1.

Definition port_count (p : ipc_port) (r : right) : Z :=
  match r with
  | RRef _ => ip_references p
  | RLive _ => if ip_active p then 1 else 0
  | RSend _ => ip_srights p
  | RSonce _ => ip_sorights p
  | RSlot _ k n => slot_count (ip_requests p) k n
  | RHome _ a n => home_count p a n
  | RTransit _ => transit_count p
  | RName _ _ | RMsg _ | RSet _ | RPort _ | RPlain _ => 0
  end.

(** Whether the count is exact *)
Definition port_exact (p : ipc_port) (r : right) : bool :=
  match r with RSend _ | RSonce _ | RSlot _ _ _ => ip_active p | RTransit _ => false | _ => true end.

Definition agree (exact : bool) (x count : Z) : Prop := if exact then x = count else x <= count.

Definition pset_agree (ps : ipc_pset) (r : right) (x : Z) : Prop :=
  match r with
  | RRef _ => x = ips_references ps
  | RSet _ => x = if ips_active ps then 1 else 0
  | RTransit _ => x <= 0
  | _ => x = 0
  end.

Definition target (r : right) : option Z :=
  match r with
  | RRef o | RLive o | RSend o | RSonce o | RSlot o _ _ | RHome o _ _ | RSet o | RTransit o => Some o
  | RName _ _ | RMsg _ | RPort _ | RPlain _ => None
  end.

(** [x] rights [r] are held altogether. *)
Definition accounts (s : kstate) (r : right) (x : Z) : Prop :=
  match target r with
  | Some o =>
    match ks_ports s !! o with
    | Some p => agree (port_exact p r) x (port_count p r)
    | None =>
      match ks_psets s !! o with
      | Some ps => pset_agree ps r x
      | None => match r with RRef _ => x = 0 | _ => True end
      end
    end
  | None =>
    match r with
    | RName _ _ => x <= 1
    | RMsg k => x = match ks_kmsgs s !! k with Some _ => 1 | None => 0 end
    | RPort o => match ks_psets s !! o with Some _ => x <= 0 | None => True end
    | RPlain k => match ks_kmsgs s !! k with Some m => has (msgh_bits m) MACH_MSGH_BITS_CIRCULAR = true -> x <= 0 | None => True end
    | _ => True
    end
  end.

Definition ledger (s : kstate) (T : right -> Z) : Prop := forall r, accounts s r (held s r + T r).

(** Rights in hand: more and less *)
Definition plus (T : right -> Z) (l : list right) : right -> Z := fun r => T r + cnt r l.
Definition minus (T : right -> Z) (l : list right) : right -> Z := fun r => T r - cnt r l.
Infix "⊕" := plus (at level 50, left associativity) : ipc_scope.
Infix "⊖" := minus (at level 50, left associativity) : ipc_scope.
#[global] Open Scope ipc_scope.

(** ** Counting *)

Lemma ind_bound r x : 0 <= ind r x <= 1.
Proof. unfold ind. destruct (decide _); lia. Qed.

Lemma ind_eq r : ind r r = 1.
Proof. unfold ind. by rewrite decide_True. Qed.

Lemma ind_ne r x : r <> x -> ind r x = 0.
Proof. intros. unfold ind. by rewrite decide_False. Qed.

Lemma cnt_nonneg r l : 0 <= cnt r l.
Proof. induction l as [|x l IH]; simpl; [lia|]. pose proof (ind_bound r x). lia. Qed.

Lemma cnt_app r l1 l2 : cnt r (l1 ++ l2) = cnt r l1 + cnt r l2.
Proof. induction l1 as [|x l1 IH]; simpl; [done|]. lia. Qed.

Lemma cnt_in r l : r ∈ l -> 1 <= cnt r l.
Proof.
  induction l as [|x l IH]; [by intros ?%elem_of_nil|]. simpl. pose proof (ind_bound r x).
  pose proof (cnt_nonneg r l). intros [->|Hr%IH]%elem_of_cons; [rewrite ind_eq|]; lia.
Qed.

Lemma cnt_not_in r l : r ∉ l -> cnt r l = 0.
Proof.
  induction l as [|x l IH]; simpl; [done|]. intros [Hx Hl]%not_elem_of_cons.
  rewrite ind_ne by done. rewrite IH; done.
Qed.

Section mcnt.
Context {A : Type} (f : Z -> A -> list right) (r : right).
Implicit Types m : gmap Z A.

Lemma mcnt_empty : mcnt f r (∅ : gmap Z A) = 0.
Proof. unfold mcnt. by rewrite map_fold_empty. Qed.

Lemma mcnt_new m k v : m !! k = None -> mcnt f r (<[k := v]> m) = cnt r (f k v) + mcnt f r m.
Proof.
  intros Hk. unfold mcnt. rewrite map_fold_insert_L; [done| |done].
  intros. lia.
Qed.

Lemma mcnt_delete m k v : m !! k = Some v -> mcnt f r (delete k m) = mcnt f r m - cnt r (f k v).
Proof.
  intros Hk. rewrite <- (insert_delete_id m k v Hk) at 2. rewrite mcnt_new by apply lookup_delete_eq. lia.
Qed.

Lemma mcnt_insert m k v v' :
  m !! k = Some v -> mcnt f r (<[k := v']> m) = mcnt f r m - cnt r (f k v) + cnt r (f k v').
Proof.
  intros Hk. rewrite <- insert_delete_eq, mcnt_new by apply lookup_delete_eq.
  rewrite (mcnt_delete m k v) by done. lia.
Qed.

Lemma mcnt_nonneg m : 0 <= mcnt f r m.
Proof.
  induction m as [|k v m Hk IH] using map_ind; [by rewrite mcnt_empty|].
  rewrite mcnt_new by done. pose proof (cnt_nonneg r (f k v)). lia.
Qed.

Lemma mcnt_ge m k v : m !! k = Some v -> cnt r (f k v) <= mcnt f r m.
Proof. intros Hk. pose proof (mcnt_delete m k v Hk). pose proof (mcnt_nonneg (delete k m)). lia. Qed.
End mcnt.

Lemma held_nonneg s r : 0 <= held s r.
Proof.
  unfold held. pose proof (mcnt_nonneg space_rights r (ks_spaces s)).
  pose proof (mcnt_nonneg (fun _ => port_rights) r (ks_ports s)).
  pose proof (mcnt_nonneg (fun _ => kmsg_rights) r (ks_kmsgs s)).
  pose proof (cnt_nonneg r (ks_log s ≫= event_rights)).
  pose proof (cnt_nonneg r (reap_rights (ks_ith_messages s))). lia.
Qed.

Lemma held_space s a sp r : ks_spaces s !! a = Some sp -> cnt r (space_rights a sp) <= held s r.
Proof.
  intros Ha. unfold held. pose proof (mcnt_ge space_rights r _ _ _ Ha).
  pose proof (mcnt_nonneg (fun _ => port_rights) r (ks_ports s)).
  pose proof (mcnt_nonneg (fun _ => kmsg_rights) r (ks_kmsgs s)).
  pose proof (cnt_nonneg r (ks_log s ≫= event_rights)).
  pose proof (cnt_nonneg r (reap_rights (ks_ith_messages s))). lia.
Qed.

(** ** Steps of the ledger *)

Lemma ledger_ext s T T' : ledger s T -> (forall r, T' r = T r) -> ledger s T'.
Proof. intros HL HT r. rewrite HT. apply HL. Qed.

Lemma ledger_space s T a sp sp' :
  ledger s T -> ks_spaces s !! a = Some sp ->
  ledger (set_ks_spaces (<[a := sp']> (ks_spaces s)) s)
    (T ⊕ space_rights a sp ⊖ space_rights a sp').
Proof.
  intros HL Ha r. specialize (HL r). unfold plus, minus, held in *. simpl.
  rewrite (mcnt_insert _ _ _ _ _ _ Ha). unfold accounts in *. simpl.
  match goal with H : context [agree _ ?x _] |- context [agree _ ?y _] =>
    replace y with x by lia end. done.
Qed.

Lemma ledger_log s T e : ledger s T -> ledger (set_ks_log (ks_log s ++ [e]) s) (T ⊖ event_rights e).
Proof.
  intros HL r. specialize (HL r). unfold minus, held in *. simpl.
  rewrite bind_app, cnt_app. simpl. rewrite app_nil_r. unfold accounts in *. simpl.
  match goal with H : context [agree _ ?x _] |- context [agree _ ?y _] =>
    replace y with x by lia end. done.
Qed.

(** A port changes: what it holds, and its counts. *)
Definition port_move (o : Z) (p p' : ipc_port) (r : right) : Z :=
  cnt r (port_rights p) - cnt r (port_rights p')
  + (if decide (target r = Some o) then port_count p' r - port_count p r else 0).

Lemma ledger_port s T o p p' :
  ledger s T -> ks_ports s !! o = Some p -> (ip_active p' = true -> ip_active p = true) ->
  ledger (set_ks_ports (<[o := p']> (ks_ports s)) s) (fun r => T r + port_move o p p' r).
Proof.
  intros HL Ho Hact r. specialize (HL r). unfold port_move, held in *. simpl.
  rewrite (mcnt_insert _ _ _ _ _ _ Ho). unfold accounts in *. simpl.
  destruct (target r) as [o'|] eqn:Ht.
  - rewrite lookup_insert. destruct (decide (o = o')) as [<-|Hne].
    + rewrite Ho in HL. rewrite decide_True by done.
      assert (Hex : port_exact p' r = true -> port_exact p r = true) by (destruct r; done).
      unfold agree in *. destruct (port_exact p' r); [rewrite Hex in HL by done|destruct (port_exact p r)]; lia.
    + rewrite decide_False by congruence.
      match goal with H : context [agree _ ?x _] |- context [agree _ ?y _] =>
        replace y with x by lia end. done.
  - rewrite decide_False by done.
    match goal with H : match r with RName _ _ => ?x <= 1 | _ => _ end |- _ =>
      match goal with |- match r with RName _ _ => ?y <= 1 | _ => _ end =>
        replace y with x by lia end end. done.
Qed.

(** For counts that are bounds, fewer rights will do. *)
Lemma ledger_port_dead s T o p T' :
  ledger s T -> ks_ports s !! o = Some p -> ip_active p = false ->
  (forall r, T' r <= T r) -> (forall r, target r = Some o -> port_exact p r = true -> T' r = T r) ->
  (forall r, target r <> Some o -> T' r = T r) -> ledger s T'.
Proof.
  intros HL Ho Hact Hle Hex Hne r. specialize (HL r). unfold accounts in *.
  destruct (decide (target r = Some o)) as [Ht|Ht].
  - rewrite Ht, Ho in *. unfold agree in *. specialize (Hle r). specialize (Hex r Ht).
    destruct (port_exact p r); [rewrite Hex; done|lia].
  - by rewrite Hne.
Qed.
