(* ===== verification/IpcPort.v ===== *)
(** * Ports (osfmk/ipc/ipc_port.c)

    Notification requests, receivers, importance counts and the naked rights of ports, with
    the operations on message queues and port sets they call.  Destroying a port, which also
    destroys the messages queued on it, is in IpcDestroy.v. *)

From S2P Require Import IpcTypes IpcHash IpcEntry IpcGrow IpcState.

#[global] Instance ipc_port_request_eq_dec : EqDecision ipc_port_request.
Proof. solve_decision. Defined.

(** ** Requests

    The request table of a port: slot 0 has the head of the free list ([ipr_next]) and the
    size class of the table ([ipr_size], an index into [ipc_table_requests]). *)

Definition ipr_get (table : list ipc_port_request) (index : Z) : res ipc_port_request :=
  if index <? 0 then Fail FBadAccess else rderef (table !! Z.to_nat index).

(** [ipr = &table[index]; ... ipr->field = ...;] in the table of a port *)
Definition ipr_mod (port index : Z) (f : ipc_port_request -> ipc_port_request) : K unit :=
  p ← ip_get port;
  table ← mderef (ip_requests p);
  ipr ← lift (ipr_get table index);
  ip_put port (set_ip_requests (Some (<[Z.to_nat index := f ipr]> table)) p).

Section ports.
Context `{!ipc_env}.

(** The result: the index, and whether the caller has to boost the port. *)
Definition ipc_port_request_alloc (port name soright : Z) (send_possible immediate : bool)
    : K (kern_return_t + Z * bool) :=
  p ← ip_get port;
  _ ← massert (ip_active p);
  _ ← massert (negb (name =? MACH_PORT_NULL));
  _ ← massert (negb (soright =? IP_NULL));
  match ip_requests p with
  | None => mret (inl KERN_NO_SPACE)
  | Some table =>
    head ← lift (ipr_get table 0);
    let index := ipr_next head in
    if index =? 0 then mret (inl KERN_NO_SPACE) else
    ipr ← lift (ipr_get table index);
    _ ← massert (ipr_name ipr =? MACH_PORT_NULL);
    _ ← ipr_mod port 0 (set_ipr_next (ipr_next ipr));
    _ ← ipr_mod port index (set_ipr_name name);
    let arm := send_possible && immediate in
    let mask := if send_possible
                then (if immediate then IPR_SOR_SPBIT_MASK else IPR_SOR_SPREQ_MASK) else 0 in
    let important := arm && negb (ip_sprequests p) && ip_impdonation p
                     && negb (ip_spimportant p) && task_is_importance_donor in
    _ ← mwhen (arm && negb (ip_sprequests p)) (ip_mod port (set_ip_sprequests true));
    _ ← ipr_mod port index (set_ipr_soright (IPR_SOR_MAKE soright mask));
    mret (inr (index, important))
  end.

(** [while ((its->its_size) && (its->its_size < target_size)) its++;] *)
Fixpoint request_target (fuel : nat) (target_size its : Z) : res Z :=
  size ← its_size ipc_table_requests its;
  if negb (size =? 0) && (size <? target_size) then
    match fuel with
    | O => Fail FFuel
    | S fuel => request_target fuel target_size (its + 1)
    end
  else Ok its.

(** [for (i = osize; i < nsize; i++)]: put the new slots on the free list; [count] left. *)
Fixpoint request_free_slots (count : nat) (i free : Z) (ntable : list ipc_port_request)
    : list ipc_port_request * Z :=
  match count with
  | O => (ntable, free)
  | S count =>
    request_free_slots count (i + 1) i
      (alter (fun ipr => set_ipr_next free (set_ipr_name MACH_PORT_NULL ipr)) (Z.to_nat i) ntable)
  end.

(** The new table: [kalloc]ed memory [fresh], the old slots, the new free list.  The memory
    is zero here; every word of it but the upper half of a free slot's union is written. *)
Definition request_new_table (otable : option (list ipc_port_request)) (osize nsize its free : Z)
    : list ipc_port_request :=
  let zero := replicate (Z.to_nat nsize) (mk_ipc_port_request 0 0) in
  let copied := match otable with
                | Some ot => take 1 zero ++ take (Z.to_nat (osize - 1)) (drop 1 ot)
                             ++ drop (Z.to_nat osize) zero
                | None => zero
                end in
  let '(ntable, free) := request_free_slots (Z.to_nat (nsize - osize)) osize free copied in
  alter (fun ipr => set_ipr_size its (set_ipr_next free ipr)) 0%nat ntable.

Definition ipc_port_request_grow (port target_size : Z) : K kern_return_t :=
  p ← ip_get port;
  _ ← massert (ip_active p);
  let otable := ip_requests p in
  ohead ← (match otable with Some ot => h ← lift (ipr_get ot 0); mret (Some h)
                           | None => mret None end);
  let its := match ohead with None => 0 | Some h => ipr_size h + 1 end in
  osize ← lift (match ohead with None => Ok 1 | Some h => its_size ipc_table_requests (ipr_size h) end);
  let has_target := negb (target_size =? ITS_SIZE_NONE) in
  if has_target && (match otable with Some _ => target_size <=? osize | None => false end)
  then mret KERN_SUCCESS else
  its ← lift (if has_target then request_target (length ipc_table_requests) target_size its
              else Ok its);
  nsize ← lift (its_size ipc_table_requests its);
  if has_target && (nsize =? 0) then mret KERN_NO_SPACE else
  _ ← ip_reference port;
  alloc ← (if nsize =? 0 then mret false else pop_kalloc);
  if negb alloc then _ ← ip_release port; mret KERN_RESOURCE_SHORTAGE else
  p ← ip_get port;
  _ ← (if ip_active p && bool_decide (ip_requests p = otable)
          && match ohead with None => true | Some h => ipr_size h + 1 =? its end
       then
         let free := match ohead with None => 0 | Some h => ipr_next h end in
         _ ← massert (osize <? nsize);
         ip_put port (set_ip_requests (Some (request_new_table otable osize nsize its free)) p)
       else mret tt);
  _ ← ip_release port;
  mret KERN_SUCCESS.

Definition MACH_SEND_IMPORTANCE : Z := 0x00080000.
Definition MACH_SEND_NOIMPORTANCE : Z := 0x00040000.

Definition ipc_port_request_sparm (port name index option : Z) : K bool :=
  if index =? IE_REQ_NONE then mret false else
  p ← ip_get port;
  _ ← massert (ip_active p);
  _ ← massert (bool_decide (is_Some (ip_requests p)));
  table ← mderef (ip_requests p);
  ipr ← lift (ipr_get table index);
  _ ← massert (ipr_name ipr =? name);
  if IPR_SOR_SPREQ (ipr_soright ipr) then
    _ ← ipr_mod port index (set_ipr_soright (IPR_SOR_MAKE (ipr_soright ipr) IPR_SOR_SPARM_MASK));
    _ ← ip_mod port (set_ip_sprequests true);
    mret (negb (has option MACH_SEND_NOIMPORTANCE) && ip_impdonation p && negb (ip_spimportant p)
          && (has option MACH_SEND_IMPORTANCE || task_is_importance_donor))
  else mret false.

Definition request_type (ipr : ipc_port_request) : Z :=
  if IP_VALID (IPR_SOR_PORT (ipr_soright ipr)) then
    Z.lor MACH_PORT_TYPE_DNREQUEST
      (if IPR_SOR_SPREQ (ipr_soright ipr)
       then Z.lor MACH_PORT_TYPE_SPREQUEST
              (if IPR_SOR_SPARMED (ipr_soright ipr) then 0 else MACH_PORT_TYPE_SPREQUEST_DELAYED)
       else 0)
  else 0.

Definition ipc_port_request_type (port name index : Z) : K Z :=
  p ← ip_get port;
  _ ← massert (bool_decide (is_Some (ip_requests p)));
  table ← mderef (ip_requests p);
  _ ← massert (negb (index =? IE_REQ_NONE));
  ipr ← lift (ipr_get table index);
  _ ← massert (ipr_name ipr =? name);
  mret (request_type ipr).

Definition ipc_port_request_cancel (port name index : Z) : K Z :=
  p ← ip_get port;
  _ ← massert (ip_active p);
  _ ← massert (bool_decide (is_Some (ip_requests p)));
  table ← mderef (ip_requests p);
  _ ← massert (negb (index =? IE_REQ_NONE));
  ipr ← lift (ipr_get table index);
  _ ← massert (ipr_name ipr =? name);
  let request := IPR_SOR_PORT (ipr_soright ipr) in
  _ ← ipr_mod port index (set_ipr_name MACH_PORT_NULL);
  head ← lift (ipr_get table 0);
  _ ← ipr_mod port index (set_ipr_next (ipr_next head));
  _ ← ipr_mod port 0 (set_ipr_next index);
  mret request.

(** The macro of ipc_port.h *)
Definition ipc_port_request_rename (port index oname nname : Z) : K unit :=
  p ← ip_get port;
  _ ← massert (ip_active p);
  _ ← massert (bool_decide (is_Some (ip_requests p)));
  table ← mderef (ip_requests p);
  ipr ← lift (ipr_get table index);
  _ ← massert (ipr_name ipr =? oname);
  ipr_mod port index (set_ipr_name nname).

Definition ipc_port_pdrequest (port notify : Z) : K Z :=
  p ← ip_get port;
  _ ← massert (ip_active p);
  _ ← ip_mod port (set_ip_pdrequest notify);
  mret (ip_pdrequest p).

Definition ipc_port_nsrequest (port sync notify : Z) : K Z :=
  p ← ip_get port;
  _ ← massert (ip_active p);
  let previous := ip_nsrequest p in
  let mscount := ip_mscount p in
  _ ← (if (ip_srights p =? 0) && (sync <=? mscount) && negb (notify =? IP_NULL) then
         _ ← ip_mod port (set_ip_nsrequest IP_NULL);
         ipc_notify_no_senders notify mscount
       else ip_mod port (set_ip_nsrequest notify));
  mret previous.

(** ** Receivers *)

(** [ipc_mqueue_changed] of a port's queue: all receivers restart. *)
Definition ipc_mqueue_changed (port : Z) : K unit :=
  p ← ip_get port;
  _ ← ip_put port (set_ip_messages (set_imq_receivers [] (ip_messages p)) p);
  log (ThreadsRestarted (imq_receivers (ip_messages p))).

(** [waitq_unlink_all] *)
Definition ipc_mqueue_remove_from_all (port : Z) : K unit :=
  ip_mod port (fun p => set_ip_messages (set_imq_set_links [] (ip_messages p)) p).

Definition ipc_pset_remove_from_all (port : Z) : K kern_return_t :=
  p ← ip_get port;
  _ ← massert (ip_active p);
  if negb (ip_in_pset p) then mret KERN_NOT_IN_SET else
  _ ← ipc_mqueue_remove_from_all port;
  mret KERN_SUCCESS.

Definition ipc_port_set_mscount (port mscount : Z) : K unit :=
  p ← ip_get port;
  _ ← massert (ip_active p);
  ip_mod port (set_ip_mscount mscount).

Definition ipc_port_clear_receiver (port : Z) : K unit :=
  p ← ip_get port;
  _ ← massert (ip_active p);
  _ ← mwhen (ip_in_pset p)
        (_ ← ipc_pset_remove_from_all port;
         p ← ip_get port; massert (negb (ip_in_pset p)));
  _ ← ipc_mqueue_changed port;
  _ ← ipc_port_set_mscount port 0;
  _ ← ip_mod port (fun p => set_ip_messages (set_imq_seqno 0 (ip_messages p)) p);
  ip_mod port (fun p => set_ip_context 0 (set_ip_guarded false (set_ip_strict_guard false p))).

(** [ipc_mqueue_init] with [is_set] false; the receiver name is not touched. *)
Definition ipc_mqueue_init (m : ipc_mqueue) : ipc_mqueue :=
  mk_ipc_mqueue [] 0 (imq_receiver_name m) 0 MACH_PORT_QLIMIT_DEFAULT false [] [] [].

Definition ipc_port_init (port space name : Z) : K unit :=
  ip_mod port (fun p =>
    let p := set_ip_receiver_name name (set_ip_receiver space p) in
    let p := set_ip_sorights 0 (set_ip_srights 0 (set_ip_mscount 0 p)) in
    let p := set_ip_requests None (set_ip_pdrequest IP_NULL (set_ip_nsrequest IP_NULL p)) in
    let p := set_ip_context 0 (set_ip_premsg IKM_NULL p) in
    let p := set_ip_tempowner false (set_ip_impdonation false
               (set_ip_spimportant false (set_ip_sprequests false p))) in
    let p := set_ip_impcount 0 (set_ip_strict_guard false (set_ip_guarded false p)) in
    set_ip_messages (ipc_mqueue_init (ip_messages p)) p).

(** ** Importance *)

(** The over-release message of development kernels is not modelled. *)
Definition ipc_port_impcount_delta (port delta : Z) : K Z :=
  p ← ip_get port;
  if negb (ip_active p) then mret 0 else
  if 0 <=? delta then
    _ ← ip_mod port (set_ip_impcount (u24 (ip_impcount p + delta))); mret delta
  else
    let absdelta := 0 - delta in
    if absdelta <=? ip_impcount p then
      _ ← ip_mod port (set_ip_impcount (ip_impcount p - absdelta)); mret delta
    else
      let delta := 0 - ip_impcount p in
      _ ← ip_mod port (set_ip_impcount 0); mret delta.

Definition ip_in_transit (p : ipc_port) : bool :=
  ip_active p && negb (ip_destination p =? IP_NULL) && (ip_receiver_name p =? MACH_PORT_NULL).

(** The walk to the end of the chain of ports in transit, from [base] *)
Fixpoint chain_base (fuel : nat) (base : Z) : K Z :=
  p ← ip_get base;
  if ip_in_transit p then
    match fuel with
    | O => fail FFuel
    | S fuel => chain_base fuel (ip_destination p)
    end
  else mret base.

(** [for (;;)]: adjust the count of every port of the chain from [port] to [base]. *)
Fixpoint chain_adjust (fuel : nat) (port base delta : Z) : K Z :=
  delta ← ipc_port_impcount_delta port delta;
  if port =? base then mret delta else
  p ← ip_get port;
  _ ← massert (negb (ip_tempowner p));
  match fuel with
  | O => fail FFuel
  | S fuel => chain_adjust fuel (ip_destination p) base delta
  end.

Definition chain_fuel (s : kstate) : nat := size (ks_ports s).

Definition IPID_OPTION_NORMAL : Z := 0.
Definition IPID_OPTION_SENDPOSSIBLE : Z := 1.

(** The task to boost through a port at the end of a chain, if any *)
Definition base_imp_task (base : Z) : K Z :=
  p ← ip_get base;
  if negb (ip_active p) then mret IIT_NULL else
  if ip_tempowner p then mret (ip_imp_task p) else
  if negb (ip_receiver_name p =? MACH_PORT_NULL) then
    sp ← is_get (ip_receiver p);
    mret (if negb (is_task sp =? TASK_NULL)
             && ipc_importance_task_is_any_receiver_type (task_imp_base (is_task sp))
          then task_imp_base (is_task sp) else IIT_NULL)
  else mret IIT_NULL.

(** Returns whether the lock was dropped, the delta applied and the task. *)
Definition ipc_port_importance_delta_internal (port options delta : Z) : K (bool * Z * Z) :=
  if delta =? 0 then mret (false, delta, IIT_NULL) else
  _ ← massert ((options =? IPID_OPTION_NORMAL) || (options =? IPID_OPTION_SENDPOSSIBLE));
  s ← get;
  p ← ip_get port;
  let dropped := ip_in_transit p in
  base ← (if dropped then chain_base (chain_fuel s) port else mret port);
  delta ← (if negb (options =? IPID_OPTION_NORMAL) then
             _ ← massert (delta =? 1);
             if ip_sprequests p && negb (ip_spimportant p)
             then _ ← ip_mod port (set_ip_spimportant true); mret delta
             else mret 0
           else mret delta);
  delta ← chain_adjust (chain_fuel s) port base delta;
  imp_task ← base_imp_task base;
  _ ← mwhen (negb (imp_task =? IIT_NULL)) (log (ImportanceReference imp_task));
  mret (dropped, delta, imp_task).

Definition ipc_port_importance_delta (port options delta : Z) : K bool :=
  '(dropped, delta, imp_task) ← ipc_port_importance_delta_internal port options delta;
  if (imp_task =? IIT_NULL) || (delta =? 0) then mret dropped else
  _ ← massert (ipc_importance_task_is_any_receiver_type imp_task);
  _ ← (if 0 <? delta then log (ImportanceHold imp_task delta)
       else log (ImportanceDrop imp_task (- delta)));
  _ ← log (ImportanceRelease imp_task);
  mret true.

(** [while (++index < size)] and the jump back to [revalidate]; [fuel] slots are left. *)
Fixpoint spnotify_loop (fuel : nat) (port index size : Z) : K unit :=
  let index := index + 1 in
  p ← ip_get port;
  if negb (ip_active p) || (size <=? index) then mret tt else
  _ ← massert (bool_decide (is_Some (ip_requests p)));
  requests ← mderef (ip_requests p);
  ipr ← lift (ipr_get requests index);
  let name := ipr_name ipr in
  let soright := IPR_SOR_PORT (ipr_soright ipr) in
  _ ← (if MACH_PORT_VALID name && IPR_SOR_SPARMED (ipr_soright ipr) && IP_VALID soright then
         _ ← ipr_mod port index (set_ipr_soright IP_NULL);
         ipc_notify_send_possible soright name
       else mret tt);
  match fuel with
  | O => fail FFuel
  | S fuel => spnotify_loop fuel port index size
  end.

Definition ipc_port_spnotify (port : Z) : K unit :=
  p ← ip_get port;
  if negb (ip_sprequests p) then mret tt else
  dropassert ← (if ip_spimportant p then
                  _ ← ip_mod port (set_ip_spimportant false);
                  d ← ipc_port_impcount_delta port (-1);
                  mret (d =? -1)
                else mret false);
  _ ← ip_mod port (set_ip_sprequests false);
  _ ← mwhen (ip_active p)
        (_ ← massert (bool_decide (is_Some (ip_requests p)));
         requests ← mderef (ip_requests p);
         head ← lift (ipr_get requests 0);
         size ← lift (its_size ipc_table_requests (ipr_size head));
         spnotify_loop (Z.to_nat size) port 0 size);
  mwhen (dropassert && ipc_importance_task_is_any_receiver_type current_task_imp_base)
    (log (ImportanceDrop current_task_imp_base 1)).

(** [for (index = 1; index < size; index++)] over a dead port's requests *)
Fixpoint dnnotify_loop (count : nat) (requests : list ipc_port_request) (index : Z) : K unit :=
  match count with
  | O => mret tt
  | S count =>
    ipr ← lift (ipr_get requests index);
    let name := ipr_name ipr in
    let soright := IPR_SOR_PORT (ipr_soright ipr) in
    _ ← mwhen (MACH_PORT_VALID name && IP_VALID soright) (ipc_notify_dead_name soright name);
    dnnotify_loop count requests (index + 1)
  end.

Definition ipc_port_dnnotify (port : Z) : K unit :=
  p ← ip_get port;
  _ ← massert (negb (ip_active p));
  match ip_requests p with
  | None => mret tt
  | Some requests =>
    head ← lift (ipr_get requests 0);
    size ← lift (its_size ipc_table_requests (ipr_size head));
    dnnotify_loop (Z.to_nat (size - 1)) requests 1
  end.

(** ** Naked rights *)

Definition ipc_port_timestamp : K Z :=
  s ← get; _ ← modify (set_ks_timestamp (u32 (ks_timestamp s + 1))); mret (ks_timestamp s).

Definition ipc_port_lookup_notify (space name : Z) : K Z :=
  sp ← is_get space;
  _ ← massert (is_active sp);
  found ← in_space space (ipc_entry_lookup name);
  match found with
  | None => mret IP_NULL
  | Some entry =>
    e ← ie_get space entry;
    if negb (has (ie_bits e) MACH_PORT_TYPE_RECEIVE) then mret IP_NULL else
    let port := ie_object e in
    _ ← massert (negb (port =? IP_NULL));
    p ← ip_get port;
    _ ← massert (ip_active p);
    _ ← massert (ip_receiver_name p =? name);
    _ ← massert (ip_receiver p =? space);
    _ ← ip_reference port;
    _ ← ip_mod port (fun p => set_ip_sorights (u32 (ip_sorights p + 1)) p);
    mret port
  end.

Definition ipc_port_make_send_locked (port : Z) : K Z :=
  p ← ip_get port;
  _ ← massert (ip_active p);
  _ ← ip_mod port (fun p => set_ip_mscount (u32 (ip_mscount p + 1)) p);
  _ ← ip_mod port (fun p => set_ip_srights (u32 (ip_srights p + 1)) p);
  _ ← ip_reference port;
  mret port.

Definition ipc_port_make_send (port : Z) : K Z :=
  if negb (IP_VALID port) then mret port else
  p ← ip_get port;
  if ip_active p then
    _ ← ip_mod port (fun p => set_ip_mscount (u32 (ip_mscount p + 1)) p);
    _ ← ip_mod port (fun p => set_ip_srights (u32 (ip_srights p + 1)) p);
    _ ← ip_reference port;
    mret port
  else mret IP_DEAD.

Definition ipc_port_copy_send (port : Z) : K Z :=
  if negb (IP_VALID port) then mret port else
  p ← ip_get port;
  if ip_active p then
    _ ← massert (0 <? ip_srights p);
    _ ← ip_reference port;
    _ ← ip_mod port (fun p => set_ip_srights (u32 (ip_srights p + 1)) p);
    mret port
  else mret IP_DEAD.

Definition ipc_port_release_send (port : Z) : K unit :=
  if negb (IP_VALID port) then mret tt else
  p ← ip_get port;
  _ ← massert (0 <? ip_srights p);
  _ ← ip_mod port (fun p => set_ip_srights (ip_srights p - 1) p);
  if negb (ip_active p) then ip_release port else
  p ← ip_get port;
  if (ip_srights p =? 0) && negb (ip_nsrequest p =? IP_NULL) then
    _ ← ip_mod port (set_ip_nsrequest IP_NULL);
    _ ← ip_release port;
    ipc_notify_no_senders (ip_nsrequest p) (ip_mscount p)
  else ip_release port.

Definition ipc_port_make_sonce_locked (port : Z) : K Z :=
  p ← ip_get port;
  _ ← massert (ip_active p);
  _ ← ip_mod port (fun p => set_ip_sorights (u32 (ip_sorights p + 1)) p);
  _ ← ip_reference port;
  mret port.

Definition ipc_port_make_sonce (port : Z) : K Z :=
  if negb (IP_VALID port) then mret port else
  p ← ip_get port;
  if ip_active p then
    _ ← ip_mod port (fun p => set_ip_sorights (u32 (ip_sorights p + 1)) p);
    _ ← ip_reference port;
    mret port
  else mret IP_DEAD.

Definition ipc_port_release_sonce (port : Z) : K unit :=
  if negb (IP_VALID port) then mret tt else
  p ← ip_get port;
  _ ← massert (0 <? ip_sorights p);
  _ ← ip_mod port (fun p => set_ip_sorights (ip_sorights p - 1) p);
  ip_release port.

(** [bzero] of a new port; the zone allocator gives its address. *)
Definition port_zero : ipc_port :=
  mk_ipc_port 0 0 (mk_ipc_mqueue [] 0 0 0 0 false [] [] []) false false false false false false
    0 0 0 0 0 None 0 0 0 0 0.

Definition ipc_port_alloc_special (space : Z) : K Z :=
  port ← pop_zalloc;
  if port =? IP_NULL then mret IP_NULL else
  _ ← ip_put port (set_ip_bits (io_makebits true IOT_PORT 0) (set_ip_references 1 port_zero));
  _ ← ipc_port_init port space 1;
  mret port.
End ports.
