(* ===== verification/IpcRequest.v ===== *)
(** * Request tables

    The tables of notification requests of ports: what is true of every table
    ([requests_ok]), and what the operations of ipc_port.c do to it. *)

From S2P Require Import IpcTypes IpcBits IpcTable IpcHash IpcEntry IpcGrow IpcState IpcPort IpcLedger.

(** ** Words *)

Lemma lor_clr_u32 w v : 0 <= v < 2 ^ 32 -> u32 (Z.lor (clr w 0xffffffff) v) = v.
Proof.
  intros Hv. unfold u32. rewrite <- Z.land_ones by lia. unfold clr.
  change 0xffffffff with (Z.ones 32). rewrite Z.land_lor_distr_l, Z.land_ldiff, Z.lor_0_l.
  rewrite Z.land_ones by lia. by apply Z.mod_small.
Qed.

Lemma ipr_next_set v r : 0 <= v < 2 ^ 32 -> ipr_next (set_ipr_next v r) = v.
Proof. apply lor_clr_u32. Qed.

Lemma ipr_name_set v r : 0 <= v < 2 ^ 32 -> ipr_name (set_ipr_name v r) = v.
Proof. apply lor_clr_u32. Qed.

Lemma IPR_SOR_PORT_MAKE port mask :
  Z.land port 3 = 0 -> 0 <= mask < 4 -> IPR_SOR_PORT (IPR_SOR_MAKE port mask) = port.
Proof.
  intros Hp Hm. unfold IPR_SOR_PORT, IPR_SOR_MAKE, clr. change IPR_SOR_SPBIT_MASK with 3.
  apply Z.bits_inj'. intros n Hn. rewrite Z.ldiff_spec, Z.lor_spec.
  apply (f_equal (fun x => Z.testbit x n)) in Hp. rewrite Z.land_spec, Z.bits_0 in Hp.
  destruct (Z.testbit 3 n) eqn:H3; [by rewrite andb_true_r in Hp; rewrite Hp, andb_false_r|].
  rewrite andb_true_r. replace (Z.testbit mask n) with false; [by rewrite orb_false_r|].
  symmetry. destruct (Z.eq_dec mask 0) as [->|]; [apply Z.bits_0|]. apply Z.bits_above_log2; [lia|].
  destruct (Z.lt_ge_cases n 2) as [Hlt|?].
  - assert (n = 0 \/ n = 1) as [-> | ->] by lia; done.
  - apply Z.lt_le_trans with 2; [|done]. apply Z.log2_lt_pow2; lia.
Qed.

(** ** Tables as functions *)

Definition ipr_null : ipc_port_request := mk_ipc_port_request 0 0.
Definition rat (t : list ipc_port_request) (k : Z) : ipc_port_request := default ipr_null (t !! Z.to_nat k).
Definition rlen (t : list ipc_port_request) : Z := Z.of_nat (length t).
Definition rput (t : list ipc_port_request) (k : Z) (ipr : ipc_port_request) : list ipc_port_request :=
  <[Z.to_nat k := ipr]> t.

Lemma rlen_put t k ipr : rlen (rput t k ipr) = rlen t.
Proof. unfold rlen, rput. by rewrite length_insert. Qed.

Lemma rat_put t k j ipr :
  0 <= k < rlen t -> 0 <= j -> rat (rput t k ipr) j = if decide (k = j) then ipr else rat t j.
Proof.
  unfold rlen, rat, rput. intros Hk Hj. destruct (decide (k = j)) as [->|Hne].
  - rewrite list_lookup_insert_eq by lia. done.
  - rewrite list_lookup_insert_ne by lia. done.
Qed.

Lemma ipr_get_at t k : 0 <= k < rlen t -> ipr_get t k = Ok (rat t k).
Proof.
  intros Hk. unfold ipr_get, rat, rlen in *. rewrite (proj2 (Z.ltb_ge k 0)) by lia.
  destruct (lookup_lt_is_Some_2 t (Z.to_nat k)) as [r Hr]; [lia|]. by rewrite Hr.
Qed.

(** The free slots, linked in the order [l] from [a] *)
Fixpoint rchain (t : list ipc_port_request) (a : Z) (l : list Z) : Prop :=
  match l with
  | [] => a = 0
  | k :: l => a = k /\ rchain t (ipr_next (rat t k)) l
  end.

Lemma rchain_ext t t' a l :
  (forall k, k ∈ l -> ipr_next (rat t' k) = ipr_next (rat t k)) -> rchain t a l -> rchain t' a l.
Proof.
  revert a. induction l as [|k l IH]; intros a Hn; simpl; [done|]. intros [-> Hc]. split; [done|].
  rewrite Hn by (by left). apply IH; [|done]. intros j Hj. apply Hn. by right.
Qed.

Definition slot_free (t : list ipc_port_request) (k : Z) : Prop :=
  0 < k < rlen t /\ ipr_name (rat t k) = MACH_PORT_NULL.

Section requests.
Context `{!ipc_env}.

(** What is true of a request table; [l] is its free list. *)
Record requests_free (t : list ipc_port_request) (l : list Z) : Prop := {
  rf_size : its_size ipc_table_requests (ipr_size (rat t 0)) = Ok (rlen t);
  rf_len : 1 < rlen t < 2 ^ 32;
  rf_chain : rchain t (ipr_next (rat t 0)) l;
  rf_nodup : NoDup l;
  rf_free : forall k, k ∈ l <-> slot_free t k;
  rf_names : forall k, 0 < k < rlen t -> ipr_name (rat t k) <> MACH_PORT_DEAD;
}.

Definition requests_ok (o : option (list ipc_port_request)) : Prop :=
  match o with None => True | Some t => exists l, requests_free t l end.

(** Taking the first free slot *)
Definition table_alloc (t : list ipc_port_request) (k name sor : Z) : list ipc_port_request :=
  rput (rput t 0 (set_ipr_next (ipr_next (rat t k)) (rat t 0))) k
    (set_ipr_soright sor (set_ipr_name name (rat t k))).

Lemma table_alloc_ok t k l name sor :
  requests_free t (k :: l) -> 0 < name < MACH_PORT_DEAD -> requests_free (table_alloc t k name sor) l.
Proof.
  intros [Hs Hl Hc Hnd Hf Hd] Hname. unfold MACH_PORT_DEAD in Hname. destruct Hc as [Hk Hc]. apply NoDup_cons in Hnd as [Hkl Hnd].
  destruct (proj1 (Hf k)) as [Hkr Hkn]; [by left|].
  assert (Hat : forall j, 0 <= j -> rat (table_alloc t k name sor) j =
    if decide (k = j) then set_ipr_soright sor (set_ipr_name name (rat t k))
    else if decide (0 = j) then set_ipr_next (ipr_next (rat t k)) (rat t 0) else rat t j).
  { intros j Hj. unfold table_alloc. rewrite !rat_put by (rewrite ?rlen_put; lia). done. }
  assert (Hlen : rlen (table_alloc t k name sor) = rlen t) by (unfold table_alloc; by rewrite !rlen_put).
  assert (Hnx : 0 <= ipr_next (rat t k) < 2 ^ 32) by (apply Z.mod_pos_bound; lia).
  split; rewrite ?Hlen, ?Hat by lia; rewrite ?(decide_False (P := k = 0)) by lia;
    rewrite ?decide_True by done; [done|done| |done| |].
  - rewrite ipr_next_set by done. eapply rchain_ext; [|done]. intros j Hj.
    assert (Hjf : j ∈ k :: l) by (by right). apply Hf in Hjf as [Hjr _].
    rewrite Hat by lia. by rewrite !decide_False by (try lia; by intros ->).
  - intros j. split.
    + intros Hj. assert (Hjf : j ∈ k :: l) by (by right). apply Hf in Hjf as [Hjr Hjn].
      split; [by rewrite Hlen|]. rewrite Hat by lia. by rewrite !decide_False by (try lia; by intros ->).
    + intros [Hjr Hjn]. rewrite Hlen in Hjr. rewrite Hat in Hjn by lia.
      destruct (decide (k = j)) as [->|Hne].
      * simpl in Hjn. change (ipr_name (set_ipr_name name (rat t j)) = MACH_PORT_NULL) in Hjn.
        rewrite ipr_name_set in Hjn by lia. unfold MACH_PORT_NULL in Hjn. lia.
      * rewrite decide_False in Hjn by lia.
        assert (Hj : j ∈ k :: l) by (by apply Hf). by apply elem_of_cons in Hj as [->|].
  - intros j Hj. rewrite Hat by lia. rewrite (decide_False (P := 0 = j)) by lia. destruct (decide (k = j)); [|by apply Hd].
    change (ipr_name (set_ipr_name name (rat t k)) <> MACH_PORT_DEAD). rewrite ipr_name_set by lia. unfold MACH_PORT_DEAD. lia.
Qed.

(** Putting a slot back *)
Definition table_cancel (t : list ipc_port_request) (k : Z) : list ipc_port_request :=
  rput (rput t k (set_ipr_next (ipr_next (rat t 0)) (set_ipr_name MACH_PORT_NULL (rat t k)))) 0
    (set_ipr_next k (rat t 0)).

Lemma table_cancel_ok t k l :
  requests_free t l -> 0 < k < rlen t -> ipr_name (rat t k) <> MACH_PORT_NULL ->
  requests_free (table_cancel t k) (k :: l).
Proof.
  intros [Hs Hl Hc Hnd Hf Hd] Hk Hn.
  assert (Hat : forall j, 0 <= j -> rat (table_cancel t k) j =
    if decide (0 = j) then set_ipr_next k (rat t 0)
    else if decide (k = j) then set_ipr_next (ipr_next (rat t 0)) (set_ipr_name MACH_PORT_NULL (rat t k))
    else rat t j).
  { intros j Hj. unfold table_cancel. rewrite !rat_put by (rewrite ?rlen_put; lia). done. }
  assert (Hlen : rlen (table_cancel t k) = rlen t) by (unfold table_cancel; by rewrite !rlen_put).
  assert (Hnx : 0 <= ipr_next (rat t 0) < 2 ^ 32) by (apply Z.mod_pos_bound; lia).
  assert (Hkl : k ∉ l) by (intros [_ ?]%Hf; done).
  split; rewrite ?Hlen, ?Hat by lia; rewrite ?decide_True by done; [done|done| | | |].
  - rewrite ipr_next_set by lia. cbn [rchain]. split; [done|]. rewrite Hat by lia.
    rewrite decide_False by lia. rewrite decide_True by done. rewrite ipr_next_set by lia.
    eapply rchain_ext; [|done]. intros j Hj. assert (Hjr := Hj). apply Hf in Hjr as [Hjr _].
    rewrite Hat by lia. by rewrite !decide_False by (try lia; by intros ->).
  - by apply NoDup_cons.
  - intros j. rewrite elem_of_cons. split.
    + intros [->|Hj].
      * split; [by rewrite Hlen|]. rewrite Hat by lia. rewrite decide_False by lia.
        rewrite decide_True by done. change (ipr_name (set_ipr_name MACH_PORT_NULL (rat t k)) = MACH_PORT_NULL).
        by apply ipr_name_set.
      * assert (Hjr := Hj). apply Hf in Hjr as [Hjr Hjn]. split; [by rewrite Hlen|].
        rewrite Hat by lia. by rewrite !decide_False by (try lia; by intros ->).
    + intros [Hjr Hjn]. rewrite Hlen in Hjr. rewrite Hat in Hjn by lia.
      rewrite decide_False in Hjn by lia. destruct (decide (k = j)) as [->|Hne]; [by left|right].
      by apply Hf.
  - intros j Hj. rewrite Hat by lia. rewrite (decide_False (P := 0 = j)) by lia. destruct (decide (k = j)); [|by apply Hd].
    change (ipr_name (set_ipr_name MACH_PORT_NULL (rat t k)) <> MACH_PORT_DEAD). by rewrite ipr_name_set.
Qed.

(** ** What the tables hold and count *)

Lemma slots_rights_insert l n x y r :
  l !! n = Some y ->
  cnt r (slots_rights (<[n := x]> l)) = cnt r (slots_rights l) - cnt r (slot_rights y) + cnt r (slot_rights x).
Proof.
  revert n. induction l as [|z l IH]; intros [|n] Hy; simplify_eq/=; rewrite !cnt_app; [lia|].
  rewrite (IH n) by done. lia.
Qed.

Lemma requests_rights_put t k x r :
  0 < k < rlen t ->
  cnt r (requests_rights (Some (rput t k x))) =
    cnt r (requests_rights (Some t)) - cnt r (slot_rights (rat t k)) + cnt r (slot_rights x).
Proof.
  unfold rlen, rput, rat. intros Hk. destruct t as [|h l]; simpl in *; [lia|].
  replace (Z.to_nat k) with (S (Z.to_nat (k - 1))) by lia. simpl.
  destruct (lookup_lt_is_Some_2 l (Z.to_nat (k - 1))) as [y Hy]; [lia|].
  rewrite Hy. by apply slots_rights_insert.
Qed.

Lemma requests_rights_head t x : requests_rights (Some (rput t 0 x)) = requests_rights (Some t).
Proof. by destruct t. Qed.

Lemma slot_count_at t k n :
  0 < k -> slot_count (Some t) k n =
    if (ipr_name (rat t k) =? n) && negb (n =? MACH_PORT_NULL) then 1 else 0.
Proof.
  intros Hk. unfold slot_count, rat. rewrite (proj2 (Z.ltb_lt 0 k)) by done. cbn [andb].
  destruct (t !! Z.to_nat k) as [ipr|]; [done|]. cbn [default].
  change (ipr_name ipr_null) with 0. unfold MACH_PORT_NULL.
  destruct (Z.eqb_spec 0 n) as [<-|?]; done.
Qed.

Lemma slot_count_nonpos o k n : k <= 0 -> slot_count o k n = 0.
Proof.
  intros Hk. unfold slot_count. destruct o as [t|]; [|done]. destruct (t !! _); [|done].
  by rewrite (proj2 (Z.ltb_ge 0 k)).
Qed.

Lemma table_cancel_rights t k r :
  0 < k < rlen t ->
  cnt r (requests_rights (Some (table_cancel t k))) =
    cnt r (requests_rights (Some t)) - cnt r (slot_rights (rat t k)).
Proof.
  intros Hk. unfold table_cancel. rewrite requests_rights_head, requests_rights_put by done.
  unfold slot_rights at 2.
  change (ipr_name (set_ipr_next _ (set_ipr_name MACH_PORT_NULL (rat t k))))
    with (ipr_name (set_ipr_name MACH_PORT_NULL (rat t k))).
  rewrite ipr_name_set by done. simpl. lia.
Qed.

Lemma table_cancel_count t k j n :
  0 < k < rlen t ->
  slot_count (Some (table_cancel t k)) j n =
    slot_count (Some t) j n - (if decide (j = k) then slot_count (Some t) k n else 0).
Proof.
  intros Hk. destruct (Z.le_gt_cases j 0) as [Hj|Hj].
  - rewrite !(slot_count_nonpos _ j) by done. rewrite decide_False by lia. lia.
  - rewrite !slot_count_at by lia. unfold table_cancel. rewrite !rat_put by (rewrite ?rlen_put; lia).
    rewrite (decide_False (P := 0 = j)) by lia. destruct (decide (k = j)) as [<-|Hne].
    + rewrite decide_True by done.
      change (ipr_name (set_ipr_next _ (set_ipr_name MACH_PORT_NULL (rat t k))))
        with (ipr_name (set_ipr_name MACH_PORT_NULL (rat t k))).
      rewrite ipr_name_set by done. unfold MACH_PORT_NULL. rewrite (Z.eqb_sym 0 n).
      destruct (n =? 0); simpl; rewrite ?andb_false_r; lia.
    + rewrite decide_False by done. lia.
Qed.

Lemma table_alloc_rights t k name sor r :
  0 < k < rlen t -> 0 < name < 2 ^ 32 -> ipr_name (rat t k) = MACH_PORT_NULL ->
  cnt r (requests_rights (Some (table_alloc t k name sor))) =
    cnt r (requests_rights (Some t)) + cnt r (sonce_rights (IPR_SOR_PORT sor)).
Proof.
  intros Hk Hname Hfree. unfold table_alloc. rewrite requests_rights_put by (by rewrite rlen_put).
  rewrite requests_rights_head, rat_put by lia. rewrite decide_False by lia.
  unfold slot_rights. rewrite Hfree. simpl.
  change (ipr_name (set_ipr_notify sor (set_ipr_name name (rat t k)))) with (ipr_name (set_ipr_name name (rat t k))).
  rewrite ipr_name_set by lia. rewrite (proj2 (Z.eqb_neq name MACH_PORT_NULL)); [simpl; lia|].
  unfold MACH_PORT_NULL. lia.
Qed.

Lemma table_alloc_count t k name sor j n :
  0 < k < rlen t -> 0 < name < 2 ^ 32 -> ipr_name (rat t k) = MACH_PORT_NULL ->
  slot_count (Some (table_alloc t k name sor)) j n =
    slot_count (Some t) j n + (if decide (j = k /\ n = name) then 1 else 0).
Proof.
  intros Hk Hname Hfree. destruct (Z.le_gt_cases j 0) as [Hj|Hj].
  - rewrite !(slot_count_nonpos _ j) by done. rewrite decide_False by lia. lia.
  - rewrite !slot_count_at by lia. unfold table_alloc. rewrite !rat_put by (rewrite ?rlen_put; lia).
    destruct (decide (k = j)) as [<-|Hne].
    + change (ipr_name (set_ipr_notify sor (set_ipr_name name (rat t k)))) with (ipr_name (set_ipr_name name (rat t k))).
      rewrite ipr_name_set, Hfree by lia. unfold MACH_PORT_NULL in *.
      destruct (Z.eqb_spec 0 n) as [Hn|Hn]; destruct (Z.eqb_spec n 0) as [Hn'|Hn'];
        destruct (Z.eqb_spec name n) as [He|He]; simpl; try lia;
        destruct (decide _) as [[? ?]|Hd]; try lia; naive_solver.
    + rewrite (decide_False (P := 0 = j)) by lia. rewrite decide_False by naive_solver. lia.
Qed.

(** ** The operations *)

Lemma wp_ipr_mod o k f p t s Q :
  ks_ports s !! o = Some p -> ip_requests p = Some t -> 0 <= k < rlen t ->
  Q tt (put_port s o (set_ip_requests (Some (rput t k (f (rat t k)))) p)) ->
  wp (ipr_mod o k f) s Q.
Proof.
  intros Ho Ht Hk HQ. unfold ipr_mod. apply wp_bind, (wp_ip_get o p); [done|]. rewrite Ht.
  apply wp_bind, (wp_mderef _ _ _ t); [done|].
  apply wp_bind, (wp_lift _ _ _ (rat t k)); [by apply ipr_get_at|]. done.
Qed.

Lemma ipc_port_request_cancel_run s o p t l k name :
  ks_ports s !! o = Some p -> ip_active p = true -> ip_requests p = Some t ->
  requests_free t l -> 0 < k < rlen t -> ipr_name (rat t k) = name -> name <> MACH_PORT_NULL ->
  ipc_port_request_cancel o name k s =
    Ok (IPR_SOR_PORT (ipr_soright (rat t k)), put_port s o (set_ip_requests (Some (table_cancel t k)) p)).
Proof.
  intros Ho Hact Ht Hf Hk Hname Hn. pose proof (rf_len _ _ Hf) as Hlen.
  cut (wp (ipc_port_request_cancel o name k) s (fun x s' => x = IPR_SOR_PORT (ipr_soright (rat t k)) /\
    s' = put_port s o (set_ip_requests (Some (table_cancel t k)) p))).
  { intros (x & s' & -> & -> & ->)%wp_inv. done. }
  unfold ipc_port_request_cancel. apply wp_bind, (wp_ip_get o p); [done|]. rewrite Hact, Ht.
  wp_step. wp_step; [done|]. wp_step. wp_step; [done|].
  apply wp_bind, (wp_mderef _ _ _ t); [done|].
  wp_step. wp_step; [unfold IE_REQ_NONE; by rewrite (proj2 (Z.eqb_neq k 0)) by lia|].
  apply wp_bind, (wp_lift _ _ _ (rat t k)); [by apply ipr_get_at; lia|].
  wp_step. wp_step; [by apply Z.eqb_eq|].
  apply wp_bind, (wp_ipr_mod o k _ p t); [done|done|lia|].
  apply wp_bind, (wp_lift _ _ _ (rat t 0)); [apply ipr_get_at; lia|].
  apply wp_bind. eapply wp_ipr_mod; [apply ks_ports_put|done|by rewrite rlen_put; lia|].
  rewrite put_port_put. apply wp_bind. eapply wp_ipr_mod; [apply ks_ports_put|done|by rewrite !rlen_put; lia|].
  rewrite put_port_put. wp_step. split; [done|]. f_equal. unfold table_cancel. simpl.
  rewrite !rat_put by (rewrite ?rlen_put; lia). rewrite decide_True by done.
  rewrite !(decide_False (P := k = 0)) by lia. unfold rput. by rewrite list_insert_insert_eq.
Qed.
End requests.
