(* ===== verification/IpcDestroy.v ===== *)
(** * Destroying ports and messages (ipc_port.c, ipc_kmsg.c, ipc_mqueue.c, ipc_object.c)

    Destroying a port destroys the messages queued on it; destroying a message destroys the
    rights it carries; a receive right among them destroys a port again.  The code cuts this
    recursion with a queue of messages in the current thread ([ith_messages]): a nested
    destruction only adds to the queue.  The definitions are open in the call they recurse
    through, and [ipc_port_destroy] closes them at nesting depth 2, which suffices because the
    nested call never drains the queue. *)

From S2P Require Import IpcTypes IpcHash IpcEntry IpcGrow IpcState IpcPort.

(** ** Queues of messages: the list in order, the head first *)
Definition ipc_kmsg_enqueue (queue : list Z) (kmsg : Z) : list Z := queue ++ [kmsg].
Definition ipc_kmsg_rmqueue (queue : list Z) (kmsg : Z) : list Z :=
  filter (fun k => k <> kmsg) queue.

Definition ikm_delete (kmsg : Z) : K unit :=
  modify (fun s => set_ks_kmsgs (delete kmsg (ks_kmsgs s)) s).

Definition ipc_kmsg_free (kmsg : Z) : K unit :=
  k ← ikm_get kmsg;
  _ ← massert (negb (IP_VALID (ikm_voucher k)));
  let port := ikm_prealloc k in
  if port =? IP_NULL then ikm_delete kmsg else
  _ ← ikm_mod kmsg (set_ikm_prealloc IP_NULL);
  p ← ip_get port;
  if ip_active p && (ip_premsg p =? kmsg) then
    _ ← massert (IP_PREALLOC p); ip_release port
  else
    _ ← ip_release port; ikm_delete kmsg.

(** Returns whether the queue was empty. *)
Definition ipc_kmsg_delayed_destroy (kmsg : Z) : K bool :=
  s ← get;
  _ ← modify (set_ks_ith_messages (ipc_kmsg_enqueue (ks_ith_messages s) kmsg));
  mret (bool_decide (ks_ith_messages s = [])).

Definition IKOT_TIMER : Z := 8.
Definition IKOT_HOST_NOTIFY : Z := 16.
Definition IKOT_NAMED_ENTRY : Z := 28.

(** The three object types with a destructor; the destructors are recorded. *)
Definition ipc_kobject_destroy (port : Z) : K unit :=
  p ← ip_get port;
  let kotype := io_bits_kotype (ip_bits p) in
  mwhen ((kotype =? IKOT_TIMER) || (kotype =? IKOT_NAMED_ENTRY) || (kotype =? IKOT_HOST_NOTIFY))
    (log (KobjectDestroy kotype port)).

Section destroy.
Context `{!ipc_env}.

Definition ipc_importance_clean (kmsg : Z) : K unit :=
  k ← ikm_get kmsg;
  _ ← mwhen (negb (ikm_importance k =? 0))
        (_ ← ikm_mod kmsg (set_ikm_importance 0); log (ImportanceUnlink kmsg (ikm_importance k)));
  if MACH_MSGH_BITS_RAISED_IMPORTANCE (msgh_bits k) then
    _ ← ikm_mod kmsg (fun k => set_msgh_bits (clr (msgh_bits k) MACH_MSGH_BITS_RAISEIMP) k);
    let port := msgh_remote_port k in
    if IP_VALID port then
      p ← ip_get port;
      if ip_active p
      then _ ← ipc_port_importance_delta port IPID_OPTION_NORMAL (-1); mret tt
      else mret tt
    else mret tt
  else mret tt.

Definition ipc_object_destroy_dest (object msgt_name : Z) : K unit :=
  _ ← massert (IO_VALID object);
  bits ← io_bits object;
  _ ← massert (io_bits_otype bits =? IOT_PORT);
  if msgt_name =? MACH_MSG_TYPE_PORT_SEND then ipc_port_release_send object else
  if msgt_name =? MACH_MSG_TYPE_PORT_SEND_ONCE then
    p ← ip_get object;
    if io_bits_active bits && negb (ip_full_kernel p)
    then ipc_notify_send_once object else ipc_port_release_sonce object
  else fail FPanic.

(** ** The recursion, open in [ipc_port_destroy] *)
Section open.
Context (port_destroy : Z -> K unit).

Definition release_receive (port : Z) : K unit :=
  if negb (IP_VALID port) then mret tt else
  p ← ip_get port;
  _ ← massert (ip_active p);
  _ ← massert (ip_receiver_name p =? MACH_PORT_NULL);
  let dest := ip_destination p in
  _ ← port_destroy port;
  mwhen (negb (dest =? IP_NULL)) (ip_release dest).

Definition object_destroy (object msgt_name : Z) : K unit :=
  _ ← massert (IO_VALID object);
  bits ← io_bits object;
  _ ← massert (io_bits_otype bits =? IOT_PORT);
  if msgt_name =? MACH_MSG_TYPE_PORT_SEND then ipc_port_release_send object else
  if msgt_name =? MACH_MSG_TYPE_PORT_SEND_ONCE then ipc_notify_send_once object else
  if msgt_name =? MACH_MSG_TYPE_PORT_RECEIVE then release_receive object
  else fail FPanic.

(** [for (j = 0; j < dsc->count; j++)] *)
Fixpoint clean_ports (objects : list Z) (disposition : Z) : K unit :=
  match objects with
  | [] => mret tt
  | object :: objects =>
    _ ← mwhen (IO_VALID object) (object_destroy object disposition);
    clean_ports objects disposition
  end.

Definition clean_descriptor (d : mach_msg_descriptor) : K unit :=
  match d with
  | PortDescriptor name disposition =>
    mwhen (IO_VALID name) (object_destroy name disposition)
  | OolDescriptor _ address size _ =>
    if size =? 0 then massert (address =? 0) else log (VmMapCopyDiscard address)
  | OolPortsDescriptor address disposition objects =>
    match objects with
    | [] => mret tt
    | _ =>
      _ ← massert (negb (address =? 0));
      _ ← clean_ports objects disposition;
      log (Kfree address)
    end
  | OtherDescriptor _ => mret tt
  end.

Fixpoint kmsg_clean_body (ds : list mach_msg_descriptor) : K unit :=
  match ds with
  | [] => mret tt
  | d :: ds => _ ← clean_descriptor d; kmsg_clean_body ds
  end.

Definition kmsg_clean (kmsg : Z) : K unit :=
  _ ← ipc_importance_clean kmsg;
  k ← ikm_get kmsg;
  let mbits := msgh_bits k in
  _ ← mwhen (IO_VALID (msgh_remote_port k))
        (ipc_object_destroy_dest (msgh_remote_port k) (MACH_MSGH_BITS_REMOTE mbits));
  _ ← mwhen (IO_VALID (msgh_local_port k))
        (object_destroy (msgh_local_port k) (MACH_MSGH_BITS_LOCAL mbits));
  _ ← mwhen (IO_VALID (ikm_voucher k))
        (_ ← massert (MACH_MSGH_BITS_VOUCHER mbits =? MACH_MSG_TYPE_MOVE_SEND);
         _ ← object_destroy (ikm_voucher k) MACH_MSG_TYPE_PORT_SEND;
         ikm_mod kmsg (set_ikm_voucher IP_NULL));
  mwhen (has mbits MACH_MSGH_BITS_COMPLEX) (kmsg_clean_body (msgh_descriptors k)).

(** [while ((kmsg = ipc_kmsg_queue_first(queue)) != IKM_NULL)] *)
Fixpoint reap_loop (fuel : nat) : K unit :=
  s ← get;
  match ks_ith_messages s with
  | [] => mret tt
  | kmsg :: _ =>
    match fuel with
    | O => fail FFuel
    | S fuel =>
      _ ← kmsg_clean kmsg;
      _ ← modify (fun s => set_ks_ith_messages (ipc_kmsg_rmqueue (ks_ith_messages s) kmsg) s);
      _ ← ipc_kmsg_free kmsg;
      reap_loop fuel
    end
  end.

(** Every turn frees one message, and cleaning a message allocates none. *)
Definition kmsg_reap_delayed : K unit :=
  s ← get; reap_loop (size (ks_kmsgs s)).
End open.

(** [while ((kmsg = ipc_kmsg_dequeue(kmqueue)) != IKM_NULL)] over the queued messages *)
Fixpoint destroy_queue (kmsgs : list Z) (reap : bool) : K bool :=
  match kmsgs with
  | [] => mret reap
  | kmsg :: kmsgs =>
    first ← ipc_kmsg_delayed_destroy kmsg;
    destroy_queue kmsgs (first || reap)
  end.

Definition mqueue_destroy (reap_delayed : K unit) (port : Z) : K unit :=
  p ← ip_get port;
  let mqueue := ip_messages p in
  _ ← ip_put port (set_ip_messages (set_imq_messages []
        (set_imq_senders [] (set_imq_fullwaiters false mqueue))) p);
  _ ← log (ThreadsRestarted (imq_senders mqueue));
  reap ← destroy_queue (imq_messages mqueue) false;
  _ ← ip_mod port (fun p => set_ip_messages (set_imq_msgcount 0 (ip_messages p)) p);
  p ← ip_get port;
  _ ← massert (negb (ip_in_pset p));
  mwhen reap reap_delayed.

(** How many assertions to drop and from whom; the port may go in limbo. *)
Definition destroy_assertions (port : Z) (top : bool) : K (Z * Z) :=
  p ← ip_get port;
  if ip_tempowner p then
    _ ← massert top;
    if negb (ip_imp_task p =? IIT_NULL)
    then _ ← ip_mod port (set_ip_imp_task IIT_NULL); mret (ip_imp_task p, ip_impcount p)
    else mret (IIT_NULL, 0)
  else
    _ ← mwhen (negb (ip_pdrequest p =? IP_NULL)) (ip_mod port (set_ip_tempowner true));
    mret (IIT_NULL, ip_impcount p).

(** From label [drop_assertions] *)
Definition drop_assertions (release_imp_task assertcnt : Z) (top : bool) : K unit :=
  if negb (release_imp_task =? IIT_NULL) then
    _ ← mwhen (0 <? assertcnt)
          (_ ← massert top;
           _ ← modify (set_ks_ith_assertions 0);
           _ ← massert (ipc_importance_task_is_any_receiver_type release_imp_task);
           log (ImportanceDrop release_imp_task assertcnt));
    log (ImportanceRelease release_imp_task)
  else
    mwhen ((0 <? assertcnt) && top)
      (_ ← modify (set_ks_ith_assertions 0);
       mwhen (ipc_importance_task_is_any_receiver_type current_task_imp_base)
         (log (ImportanceDrop current_task_imp_base assertcnt))).

(** A port's preallocated message buffer, when the port dies *)
Definition destroy_prealloc (port : Z) : K unit :=
  p ← ip_get port;
  mwhen (IP_PREALLOC p)
    (let kmsg := ip_premsg p in
     _ ← massert (negb (kmsg =? IKM_NULL));
     k ← ikm_get kmsg;
     _ ← ip_mod port (fun p => set_ip_premsg IKM_NULL
                                (set_ip_bits (clr (ip_bits p) IP_BIT_PREALLOC) p));
     if negb (ikm_prealloc k =? IP_NULL) then massert (ikm_prealloc k =? port)
     else ipc_kmsg_free kmsg).

(** Somebody asked for the receive right: it goes in limbo, and is sent to them. *)
Definition destroy_limbo (pdrequest port : Z) : K unit :=
  _ ← ip_mod port (set_ip_pdrequest IP_NULL);
  _ ← ip_mod port (set_ip_receiver_name MACH_PORT_NULL);
  _ ← ip_mod port (set_ip_destination IP_NULL);
  ipc_notify_port_destroyed pdrequest port.

(** Nobody did: the port dies. *)
Definition destroy_dead (reap_delayed : K unit) (port : Z) : K unit :=
  _ ← ip_mod port (fun p => set_ip_bits (clr (ip_bits p) IO_BITS_ACTIVE) p);
  ts ← ipc_port_timestamp;
  _ ← ip_mod port (set_ip_timestamp ts);
  p ← ip_get port;
  let nsrequest := ip_nsrequest p in
  _ ← destroy_prealloc port;
  _ ← mwhen (negb (nsrequest =? IP_NULL)) (ipc_notify_send_once nsrequest);
  _ ← mqueue_destroy reap_delayed port;
  _ ← ipc_mqueue_deinit port;
  _ ← ipc_port_dnnotify port;
  _ ← ipc_kobject_destroy port;
  ip_release port.

Definition port_destroy (reap_delayed : K unit) (port : Z) : K unit :=
  s ← get;
  let top := ks_ith_assertions s =? 0 in
  p ← ip_get port;
  _ ← massert (ip_active p);
  _ ← massert (negb (ip_in_pset p));
  _ ← massert (ip_mscount p =? 0);
  let pdrequest := ip_pdrequest p in
  '(release_imp_task, assertcnt) ← destroy_assertions port top;
  _ ← mwhen top (modify (set_ks_ith_assertions assertcnt));
  _ ← (if negb (pdrequest =? IP_NULL) then destroy_limbo pdrequest port
       else destroy_dead reap_delayed port);
  drop_assertions release_imp_task assertcnt top.

Fixpoint port_destroy_nested (depth : nat) (port : Z) : K unit :=
  match depth with
  | O => fail FFuel
  | S depth => port_destroy (kmsg_reap_delayed (port_destroy_nested depth)) port
  end.

(** ** The routines *)
Definition ipc_port_destroy : Z -> K unit := port_destroy_nested 2.
Definition ipc_port_release_receive : Z -> K unit := release_receive ipc_port_destroy.
Definition ipc_object_destroy : Z -> Z -> K unit := object_destroy ipc_port_destroy.
Definition ipc_kmsg_clean_body : list mach_msg_descriptor -> K unit := kmsg_clean_body ipc_port_destroy.
Definition ipc_kmsg_clean : Z -> K unit := kmsg_clean ipc_port_destroy.
Definition ipc_kmsg_reap_delayed : K unit := kmsg_reap_delayed ipc_port_destroy.
Definition ipc_mqueue_destroy : Z -> K unit := mqueue_destroy ipc_kmsg_reap_delayed.

Definition ipc_kmsg_destroy (kmsg : Z) : K unit :=
  first ← ipc_kmsg_delayed_destroy kmsg;
  mwhen first ipc_kmsg_reap_delayed.

Definition ipc_port_dealloc_special (port space : Z) : K unit :=
  p ← ip_get port;
  _ ← massert (ip_active p);
  _ ← massert (ip_receiver p =? space);
  _ ← ip_mod port (set_ip_receiver_name MACH_PORT_NULL);
  _ ← ip_mod port (set_ip_receiver IS_NULL);
  _ ← ipc_port_set_mscount port 0;
  _ ← ip_mod port (fun p => set_ip_messages (set_imq_seqno 0 (ip_messages p)) p);
  ipc_port_destroy port.

(** ** Port sets (ipc_pset.c) *)

(** [waitq_set_unlink_all]: no port is linked to the set any more. *)
Definition ipc_mqueue_remove_all (pset : Z) : K unit :=
  modify (fun s => set_ks_ports ((fun p => set_ip_messages (set_imq_set_links
    (filter (fun x => x <> pset) (imq_set_links (ip_messages p))) (ip_messages p)) p)
    <$> ks_ports s) s).

Definition ipc_pset_destroy (pset : Z) : K unit :=
  p ← ips_get pset;
  _ ← massert (ips_active p);
  _ ← ips_put pset (set_ips_bits (clr (ips_bits p) IO_BITS_ACTIVE) p);
  _ ← ipc_mqueue_remove_all pset;
  p ← ips_get pset;
  _ ← log (ThreadsRestarted (ips_receivers p));
  _ ← ips_mod pset (set_ips_receivers []);
  ips_release pset.
End destroy.
