(* ===== verification/IpcRight.v ===== *)
(** * Capabilities in a space (osfmk/ipc/ipc_right.c)

    The operations on a capability: the entry of a space that names a right to a port.  A
    space is its address, an entry its index in the space's table.  Where the C code returns
    with locks held or dropped, the model returns; every routine runs atomically. *)

From S2P Require Import IpcTypes IpcHash IpcEntry IpcGrow IpcState IpcPort IpcDestroy.

(** ** Shorthands *)
Definition entry_modified (space name entry : Z) : K unit := in_space space (ipc_entry_modified name entry).
Definition entry_dealloc (space name entry : Z) : K unit := in_space space (ipc_entry_dealloc name entry).
Definition hash_insert (space obj name entry : Z) : K unit :=
  space_res space (fun sp => ipc_hash_insert sp obj name entry).
Definition hash_delete (space obj name entry : Z) : K unit :=
  space_res space (fun sp => ipc_hash_delete sp obj name entry).
Definition mach_port_guard_exception (name inguard portguard reason : Z) : K unit :=
  log (GuardException name inguard portguard reason).

(** [if (--port->ip_srights == 0) { nsrequest = port->ip_nsrequest; ... }]: the pair
    [(nsrequest, mscount)] *)
Definition drop_sright (port : Z) : K (Z * Z) :=
  p ← ip_get port;
  _ ← ip_mod port (set_ip_srights (ip_srights p - 1));
  if (ip_srights p - 1 =? 0) && negb (ip_nsrequest p =? IP_NULL) then
    _ ← ip_mod port (set_ip_nsrequest IP_NULL);
    mret (ip_nsrequest p, ip_mscount p)
  else mret (IP_NULL, 0).

Definition send_no_senders (ns : Z * Z) : K unit :=
  mwhen (negb (ns.1 =? IP_NULL)) (ipc_notify_no_senders ns.1 ns.2).
Definition send_port_deleted (request name : Z) : K unit :=
  mwhen (negb (request =? IP_NULL)) (ipc_notify_port_deleted request name).

Section rights.
Context `{!ipc_env}.

(** ** Lookup *)

Definition ipc_right_lookup_write (space name : Z) : K (kern_return_t + Z) :=
  _ ← massert (negb (space =? IS_NULL));
  sp ← is_get space;
  if negb (is_active sp) then mret (inl KERN_INVALID_TASK) else
  found ← in_space space (ipc_entry_lookup name);
  match found with
  | None => mret (inl KERN_INVALID_NAME)
  | Some entry => mret (inr entry)
  end.

Definition ipc_right_lookup_two_write (space name1 name2 : Z) : K (kern_return_t + Z * Z) :=
  _ ← massert (negb (space =? IS_NULL));
  sp ← is_get space;
  if negb (is_active sp) then mret (inl KERN_INVALID_TASK) else
  found1 ← in_space space (ipc_entry_lookup name1);
  match found1 with
  | None => mret (inl KERN_INVALID_NAME)
  | Some entry1 =>
    found2 ← in_space space (ipc_entry_lookup name2);
    match found2 with
    | None => mret (inl KERN_INVALID_NAME)
    | Some entry2 => mret (inr (entry1, entry2))
    end
  end.

Definition ipc_right_reverse (space object : Z) : K (option (Z * Z)) :=
  sp ← is_get space;
  _ ← massert (is_active sp);
  bits ← io_bits object;
  _ ← massert (io_bits_otype bits =? IOT_PORT);
  let port := object in
  p ← ip_get port;
  if negb (ip_active p) then mret None else
  if ip_receiver p =? space then
    let name := ip_receiver_name p in
    _ ← massert (negb (name =? MACH_PORT_NULL));
    found ← in_space space (ipc_entry_lookup name);
    match found with
    | None => fail FAssert
    | Some entry =>
      e ← ie_get space entry;
      _ ← massert (has (ie_bits e) MACH_PORT_TYPE_RECEIVE);
      _ ← massert (port =? ie_object e);
      mret (Some (name, entry))
    end
  else
    found ← lift (ipc_hash_lookup sp port);
    match found with
    | Some (name, entry) =>
      e ← ie_get space entry;
      _ ← massert (IE_BITS_TYPE (ie_bits e) =? MACH_PORT_TYPE_SEND);
      _ ← massert (port =? ie_object e);
      mret (Some (name, entry))
    | None => mret None
    end.

Definition ipc_right_inuse (space name entry : Z) : K bool :=
  e ← ie_get space entry;
  mret (negb (IE_BITS_TYPE (ie_bits e) =? MACH_PORT_TYPE_NONE)).

(** ** Notification requests and dead ports *)

Definition ipc_right_request_cancel (space port name entry : Z) : K Z :=
  p ← ip_get port;
  _ ← massert (ip_active p);
  e ← ie_get space entry;
  _ ← massert (port =? ie_object e);
  if ie_request e =? IE_REQ_NONE then mret IP_NULL else
  previous ← ipc_port_request_cancel port name (ie_request e);
  _ ← ie_mod space entry (set_ie_request IE_REQ_NONE);
  _ ← entry_modified space name entry;
  mret previous.

(** The macro of ipc_right.h *)
Definition ipc_right_request_cancel_macro (space port name entry : Z) : K Z :=
  e ← ie_get space entry;
  if ie_request e =? IE_REQ_NONE then mret IP_NULL
  else ipc_right_request_cancel space port name entry.

Definition ipc_right_check (space port name entry : Z) : K bool :=
  sp ← is_get space;
  _ ← massert (is_active sp);
  e ← ie_get space entry;
  _ ← massert (port =? ie_object e);
  p ← ip_get port;
  if ip_active p then mret false else
  let bits := ie_bits e in
  _ ← massert (negb (has bits MACH_PORT_TYPE_RECEIVE));
  _ ← massert (0 <? IE_BITS_UREFS bits);
  _ ← (if has bits MACH_PORT_TYPE_SEND then
         _ ← massert (IE_BITS_TYPE bits =? MACH_PORT_TYPE_SEND);
         _ ← massert (0 <? IE_BITS_UREFS bits);
         _ ← massert (0 <? ip_srights p);
         ip_mod port (set_ip_srights (ip_srights p - 1))
       else
         _ ← massert (IE_BITS_TYPE bits =? MACH_PORT_TYPE_SEND_ONCE);
         _ ← massert (IE_BITS_UREFS bits =? 1);
         _ ← massert (0 <? ip_sorights p);
         ip_mod port (set_ip_sorights (ip_sorights p - 1)));
  _ ← mwhen (has bits MACH_PORT_TYPE_SEND) (hash_delete space port name entry);
  let bits := Z.lor (clr bits IE_BITS_TYPE_MASK) MACH_PORT_TYPE_DEAD_NAME in
  bits ← (if negb (ie_request e =? IE_REQ_NONE) then
            type ← ipc_port_request_type port name (ie_request e);
            bits ← (if negb (type =? 0) then
                      _ ← massert (IE_BITS_UREFS bits <? MACH_PORT_UREFS_MAX);
                      mret (bits + 1)
                    else mret bits);
            _ ← ie_mod space entry (set_ie_request IE_REQ_NONE);
            mret bits
          else mret bits);
  _ ← ie_mod space entry (set_ie_bits bits);
  _ ← ie_mod space entry (set_ie_object IO_NULL);
  _ ← entry_modified space name entry;
  mret true.

(** One turn of the [for (;;)] of [ipc_right_request_alloc]: [None] to go round again *)
Definition request_alloc_turn (space name : Z) (immediate send_possible : bool) (notify : Z)
    : K (option (kern_return_t + Z)) :=
  found ← ipc_right_lookup_write space name;
  match found with
  | inl kr => mret (Some (inl kr))
  | inr entry =>
  e ← ie_get space entry;
  let prev_request := ie_request e in
  if (notify =? IP_NULL) && (prev_request =? IE_REQ_NONE) then mret (Some (inr IP_NULL)) else
  let rights := has (ie_bits e) MACH_PORT_TYPE_PORT_RIGHTS in
  let port := if rights then ie_object e else IP_NULL in
  _ ← massert (negb rights || negb (port =? IP_NULL));
  live ← (if rights then dead ← ipc_right_check space port name entry; mret (negb dead)
          else mret false);
  if (live : bool) then
    p ← ip_get port;
    if notify =? IP_NULL then
      previous ← (if negb (prev_request =? IE_REQ_NONE)
                  then ipc_port_request_cancel port name prev_request else mret IP_NULL);
      _ ← ie_mod space entry (set_ie_request IE_REQ_NONE);
      _ ← entry_modified space name entry;
      mret (Some (inr previous))
    else if send_possible && immediate
         && (has (ie_bits e) MACH_PORT_TYPE_SEND_ONCE || (ip_receiver p =? ipc_space_kernel)
             || negb (ip_full p)) then
      previous ← (if negb (prev_request =? IE_REQ_NONE)
                  then ipc_port_request_cancel port name prev_request else mret IP_NULL);
      _ ← ie_mod space entry (set_ie_request IE_REQ_NONE);
      _ ← entry_modified space name entry;
      _ ← ipc_notify_send_possible notify name;
      mret (Some (inr previous))
    else
      previous ← (if negb (prev_request =? IE_REQ_NONE)
                  then ipc_port_request_cancel port name prev_request else mret IP_NULL);
      r ← ipc_port_request_alloc port name notify send_possible immediate;
      match r with
      | inl _ =>
        _ ← massert (previous =? IP_NULL);
        kr ← ipc_port_request_grow port ITS_SIZE_NONE;
        if decide (kr = KERN_SUCCESS) then mret None else mret (Some (inl kr))
      | inr (new_request, needboost) =>
        _ ← massert (negb (new_request =? IE_REQ_NONE));
        _ ← ie_mod space entry (set_ie_request new_request);
        _ ← entry_modified space name entry;
        _ ← (if needboost : bool
             then _ ← ipc_port_importance_delta port IPID_OPTION_SENDPOSSIBLE 1; mret tt
             else mret tt);
        mret (Some (inr previous))
      end
  else
    e ← ie_get space entry;
    if (send_possible || immediate) && negb (notify =? IP_NULL)
       && has (ie_bits e) MACH_PORT_TYPE_DEAD_NAME then
      let urefs := IE_BITS_UREFS (ie_bits e) in
      _ ← massert (0 <? urefs);
      if MACH_PORT_UREFS_OVERFLOW urefs 1 then
        _ ← mwhen (negb (port =? IP_NULL)) (ip_release port);
        mret (Some (inl KERN_UREFS_OVERFLOW))
      else
        _ ← ie_mod space entry (set_ie_bits (ie_bits e + 1));
        _ ← entry_modified space name entry;
        _ ← mwhen (negb (port =? IP_NULL)) (ip_release port);
        _ ← ipc_notify_dead_name notify name;
        mret (Some (inr IP_NULL))
    else
      _ ← mwhen (negb (port =? IP_NULL)) (ip_release port);
      if has (ie_bits e) MACH_PORT_TYPE_PORT_OR_DEAD
      then mret (Some (inl KERN_INVALID_ARGUMENT))
      else mret (Some (inl KERN_INVALID_RIGHT))
  end.

Fixpoint request_alloc_loop (turns : nat) (space name : Z) (immediate send_possible : bool)
    (notify : Z) : K (kern_return_t + Z) :=
  match turns with
  | O => fail FFuel
  | S turns =>
    r ← request_alloc_turn space name immediate send_possible notify;
    match r with
    | Some r => mret r
    | None => request_alloc_loop turns space name immediate send_possible notify
    end
  end.

(** Growing the request table makes a slot for the second turn. *)
Definition ipc_right_request_alloc := request_alloc_loop 2.

(** ** Destroying capabilities *)

Definition PORT_TYPES : list Z :=
  [MACH_PORT_TYPE_SEND; MACH_PORT_TYPE_RECEIVE; MACH_PORT_TYPE_SEND_RECEIVE; MACH_PORT_TYPE_SEND_ONCE].
Definition is_port_type (type : Z) : bool := existsb (Z.eqb type) PORT_TYPES.

(** The end of [ipc_right_terminate] and [ipc_right_destroy] for the right that is left *)
Definition release_right (space port type : Z) : K unit :=
  if has type MACH_PORT_TYPE_RECEIVE then
    p ← ip_get port;
    _ ← massert (ip_active p);
    _ ← massert (ip_receiver p =? space);
    _ ← ipc_port_clear_receiver port;
    ipc_port_destroy port
  else if has type MACH_PORT_TYPE_SEND_ONCE then
    p ← ip_get port;
    _ ← massert (0 <? ip_sorights p);
    ipc_notify_send_once port
  else
    p ← ip_get port;
    _ ← massert (negb (ip_receiver p =? space));
    ip_release port.

Definition ipc_right_terminate (space name entry : Z) : K unit :=
  e ← ie_get space entry;
  let bits := ie_bits e in
  let type := IE_BITS_TYPE bits in
  sp ← is_get space;
  _ ← massert (negb (is_active sp));
  if type =? MACH_PORT_TYPE_DEAD_NAME then
    _ ← massert (ie_request e =? IE_REQ_NONE);
    massert (ie_object e =? IO_NULL)
  else if type =? MACH_PORT_TYPE_PORT_SET then
    let pset := ie_object e in
    _ ← massert (ie_request e =? IE_REQ_NONE);
    _ ← massert (negb (pset =? IO_NULL));
    ps ← ips_get pset;
    _ ← massert (ips_active ps);
    ipc_pset_destroy pset
  else if is_port_type type then
    let port := ie_object e in
    _ ← massert (negb (port =? IP_NULL));
    p ← ip_get port;
    if negb (ip_active p) then ip_release port else
    request ← ipc_right_request_cancel_macro space port name entry;
    ns ← (if has type MACH_PORT_TYPE_SEND then
            p ← ip_get port; _ ← massert (0 <? ip_srights p); drop_sright port
          else mret (IP_NULL, 0));
    _ ← mwhen (has type MACH_PORT_TYPE_RECEIVE)
          (p ← ip_get port; massert (ip_receiver_name p =? name));
    _ ← release_right space port type;
    _ ← send_no_senders ns;
    send_port_deleted request name
  else fail FPanic.

Definition ipc_right_destroy (space name entry : Z) (check_guard : bool) (guard : Z)
    : K kern_return_t :=
  e ← ie_get space entry;
  let bits := ie_bits e in
  _ ← ie_mod space entry (set_ie_bits (clr bits IE_BITS_TYPE_MASK));
  let type := IE_BITS_TYPE bits in
  sp ← is_get space;
  _ ← massert (is_active sp);
  if type =? MACH_PORT_TYPE_DEAD_NAME then
    _ ← massert (ie_request e =? IE_REQ_NONE);
    _ ← massert (ie_object e =? IO_NULL);
    _ ← entry_dealloc space name entry;
    mret KERN_SUCCESS
  else if type =? MACH_PORT_TYPE_PORT_SET then
    let pset := ie_object e in
    _ ← massert (ie_request e =? IE_REQ_NONE);
    _ ← massert (negb (pset =? IO_NULL));
    _ ← ie_mod space entry (set_ie_object IO_NULL);
    _ ← entry_dealloc space name entry;
    ps ← ips_get pset;
    _ ← massert (ips_active ps);
    _ ← ipc_pset_destroy pset;
    mret KERN_SUCCESS
  else if is_port_type type then
    let port := ie_object e in
    _ ← massert (negb (port =? IP_NULL));
    _ ← mwhen (type =? MACH_PORT_TYPE_SEND) (hash_delete space port name entry);
    p ← ip_get port;
    if negb (ip_active p) then
      _ ← massert (negb (has type MACH_PORT_TYPE_RECEIVE));
      _ ← ie_mod space entry (set_ie_request IE_REQ_NONE);
      _ ← ie_mod space entry (set_ie_object IO_NULL);
      _ ← entry_dealloc space name entry;
      _ ← ip_release port;
      mret KERN_SUCCESS
    else if has type MACH_PORT_TYPE_RECEIVE && check_guard && ip_guarded p
            && negb (guard =? ip_context p) then
      _ ← mach_port_guard_exception name 0 (ip_context p) kGUARD_EXC_DESTROY;
      mret KERN_INVALID_RIGHT
    else
      request ← ipc_right_request_cancel_macro space port name entry;
      _ ← ie_mod space entry (set_ie_object IO_NULL);
      _ ← entry_dealloc space name entry;
      ns ← (if has type MACH_PORT_TYPE_SEND then
              p ← ip_get port; _ ← massert (0 <? ip_srights p); drop_sright port
            else mret (IP_NULL, 0));
      _ ← release_right space port type;
      _ ← send_no_senders ns;
      _ ← send_port_deleted request name;
      mret KERN_SUCCESS
  else fail FPanic.

(** ** User references *)

(** Label [dead_name] of [ipc_right_dealloc]; [port] is a port converted just before. *)
Definition dealloc_dead_name (space name entry port : Z) : K kern_return_t :=
  e ← ie_get space entry;
  let bits := ie_bits e in
  _ ← massert (0 <? IE_BITS_UREFS bits);
  _ ← massert (ie_request e =? IE_REQ_NONE);
  _ ← massert (ie_object e =? IO_NULL);
  _ ← (if IE_BITS_UREFS bits =? 1 then entry_dealloc space name entry
       else
         _ ← ie_mod space entry (set_ie_bits (bits - 1));
         entry_modified space name entry);
  _ ← mwhen (negb (port =? IP_NULL)) (ip_release port);
  mret KERN_SUCCESS.

Definition ipc_right_dealloc (space name entry : Z) : K kern_return_t :=
  e ← ie_get space entry;
  let bits := ie_bits e in
  let type := IE_BITS_TYPE bits in
  sp ← is_get space;
  _ ← massert (is_active sp);
  if type =? MACH_PORT_TYPE_DEAD_NAME then dealloc_dead_name space name entry IP_NULL
  else if type =? MACH_PORT_TYPE_SEND_ONCE then
    _ ← massert (IE_BITS_UREFS bits =? 1);
    let port := ie_object e in
    _ ← massert (negb (port =? IP_NULL));
    dead ← ipc_right_check space port name entry;
    if dead : bool then
      e ← ie_get space entry;
      _ ← massert (IE_BITS_TYPE (ie_bits e) =? MACH_PORT_TYPE_DEAD_NAME);
      dealloc_dead_name space name entry port
    else
      p ← ip_get port;
      _ ← massert (0 <? ip_sorights p);
      request ← ipc_right_request_cancel_macro space port name entry;
      _ ← ie_mod space entry (set_ie_object IO_NULL);
      _ ← entry_dealloc space name entry;
      _ ← ipc_notify_send_once port;
      _ ← send_port_deleted request name;
      mret KERN_SUCCESS
  else if type =? MACH_PORT_TYPE_SEND then
    _ ← massert (0 <? IE_BITS_UREFS bits);
    let port := ie_object e in
    _ ← massert (negb (port =? IP_NULL));
    dead ← ipc_right_check space port name entry;
    if dead : bool then
      e ← ie_get space entry;
      _ ← massert (IE_BITS_TYPE (ie_bits e) =? MACH_PORT_TYPE_DEAD_NAME);
      dealloc_dead_name space name entry port
    else
      p ← ip_get port;
      _ ← massert (0 <? ip_srights p);
      if IE_BITS_UREFS bits =? 1 then
        ns ← drop_sright port;
        request ← ipc_right_request_cancel_macro space port name entry;
        _ ← hash_delete space port name entry;
        _ ← ie_mod space entry (set_ie_object IO_NULL);
        _ ← entry_dealloc space name entry;
        _ ← ip_release port;
        _ ← send_no_senders ns;
        _ ← send_port_deleted request name;
        mret KERN_SUCCESS
      else
        _ ← ie_mod space entry (set_ie_bits (bits - 1));
        _ ← entry_modified space name entry;
        mret KERN_SUCCESS
  else if type =? MACH_PORT_TYPE_SEND_RECEIVE then
    _ ← massert (0 <? IE_BITS_UREFS bits);
    let port := ie_object e in
    _ ← massert (negb (port =? IP_NULL));
    p ← ip_get port;
    _ ← massert (ip_active p);
    _ ← massert (ip_receiver_name p =? name);
    _ ← massert (ip_receiver p =? space);
    _ ← massert (0 <? ip_srights p);
    ns ← (if IE_BITS_UREFS bits =? 1 then
            ns ← drop_sright port;
            _ ← ie_mod space entry
                  (set_ie_bits (clr bits (Z.lor IE_BITS_UREFS_MASK MACH_PORT_TYPE_SEND)));
            mret ns
          else
            _ ← ie_mod space entry (set_ie_bits (bits - 1));
            mret (IP_NULL, 0));
    _ ← entry_modified space name entry;
    _ ← send_no_senders ns;
    mret KERN_SUCCESS
  else mret KERN_INVALID_RIGHT.

(** The receive right of an entry goes away: what is left of the entry ([ipc_right_delta]
    and [ipc_right_destruct]).  Returns the canceled request. *)
Definition lose_receive (space port name entry : Z) : K Z :=
  e ← ie_get space entry;
  let bits := ie_bits e in
  p ← ip_get port;
  if has bits MACH_PORT_TYPE_SEND then
    _ ← massert (0 <? IE_BITS_UREFS bits);
    _ ← massert (IE_BITS_UREFS bits <? MACH_PORT_UREFS_MAX);
    _ ← (if negb (ip_pdrequest p =? IP_NULL) then
           _ ← entry_modified space name entry;
           _ ← ie_mod space entry (set_ie_bits (clr bits MACH_PORT_TYPE_RECEIVE));
           _ ← hash_insert space port name entry;
           ip_reference port
         else
           let bits := Z.lor (clr bits IE_BITS_TYPE_MASK) MACH_PORT_TYPE_DEAD_NAME in
           bits ← (if negb (ie_request e =? 0) then
                     _ ← ie_mod space entry (set_ie_request IE_REQ_NONE); mret (bits + 1)
                   else mret bits);
           _ ← ie_mod space entry (set_ie_bits bits);
           _ ← ie_mod space entry (set_ie_object IO_NULL);
           entry_modified space name entry);
    mret IP_NULL
  else
    _ ← massert (IE_BITS_TYPE bits =? MACH_PORT_TYPE_RECEIVE);
    _ ← massert (IE_BITS_UREFS bits =? 0);
    request ← ipc_right_request_cancel_macro space port name entry;
    _ ← ie_mod space entry (set_ie_object IO_NULL);
    _ ← entry_dealloc space name entry;
    mret request.

Definition delta_port_set (space name entry delta : Z) : K kern_return_t :=
  e ← ie_get space entry;
  let bits := ie_bits e in
  if negb (has bits MACH_PORT_TYPE_PORT_SET) then mret KERN_INVALID_RIGHT else
  _ ← massert (IE_BITS_TYPE bits =? MACH_PORT_TYPE_PORT_SET);
  _ ← massert (IE_BITS_UREFS bits =? 0);
  _ ← massert (ie_request e =? IE_REQ_NONE);
  if delta =? 0 then mret KERN_SUCCESS else
  if negb (delta =? -1) then mret KERN_INVALID_VALUE else
  let pset := ie_object e in
  _ ← massert (negb (pset =? IO_NULL));
  _ ← ie_mod space entry (set_ie_object IO_NULL);
  _ ← entry_dealloc space name entry;
  ps ← ips_get pset;
  _ ← massert (ips_active ps);
  _ ← ipc_pset_destroy pset;
  mret KERN_SUCCESS.

Definition delta_receive (space name entry delta : Z) : K kern_return_t :=
  e ← ie_get space entry;
  let bits := ie_bits e in
  if negb (has bits MACH_PORT_TYPE_RECEIVE) then mret KERN_INVALID_RIGHT else
  if delta =? 0 then mret KERN_SUCCESS else
  if negb (delta =? -1) then mret KERN_INVALID_VALUE else
  let port := ie_object e in
  _ ← massert (negb (port =? IP_NULL));
  p ← ip_get port;
  _ ← massert (ip_active p);
  _ ← massert (ip_receiver_name p =? name);
  _ ← massert (ip_receiver p =? space);
  if ip_guarded p then
    _ ← mach_port_guard_exception name 0 (ip_context p) kGUARD_EXC_MOD_REFS;
    mret KERN_INVALID_RIGHT
  else
    _ ← mwhen (has bits MACH_PORT_TYPE_SEND)
          (_ ← massert (IE_BITS_TYPE bits =? MACH_PORT_TYPE_SEND_RECEIVE);
           massert (0 <? ip_srights p));
    request ← lose_receive space port name entry;
    _ ← ipc_port_clear_receiver port;
    _ ← ipc_port_destroy port;
    _ ← send_port_deleted request name;
    mret KERN_SUCCESS.

Definition delta_send_once (space name entry delta : Z) : K kern_return_t :=
  e ← ie_get space entry;
  let bits := ie_bits e in
  if negb (has bits MACH_PORT_TYPE_SEND_ONCE) then mret KERN_INVALID_RIGHT else
  _ ← massert (IE_BITS_TYPE bits =? MACH_PORT_TYPE_SEND_ONCE);
  _ ← massert (IE_BITS_UREFS bits =? 1);
  let port := ie_object e in
  _ ← massert (negb (port =? IP_NULL));
  dead ← ipc_right_check space port name entry;
  if dead : bool then
    e ← ie_get space entry;
    _ ← massert (negb (has (ie_bits e) MACH_PORT_TYPE_SEND_ONCE));
    _ ← ip_release port;
    mret KERN_INVALID_RIGHT
  else
    p ← ip_get port;
    _ ← massert (0 <? ip_sorights p);
    if (0 <? delta) || (delta <? -1) then mret KERN_INVALID_VALUE else
    if delta =? 0 then mret KERN_SUCCESS else
    request ← ipc_right_request_cancel_macro space port name entry;
    _ ← ie_mod space entry (set_ie_object IO_NULL);
    _ ← entry_dealloc space name entry;
    _ ← ipc_notify_send_once port;
    _ ← send_port_deleted request name;
    mret KERN_SUCCESS.

(** [relport] is released on success only, as in the code. *)
Definition delta_dead_name (space name entry delta : Z) : K kern_return_t :=
  e ← ie_get space entry;
  let bits := ie_bits e in
  let sends := has bits MACH_PORT_TYPE_SEND_RIGHTS in
  _ ← massert (negb sends || negb (ie_object e =? IP_NULL));
  go ← (if sends then ipc_right_check space (ie_object e) name entry
        else mret (has bits MACH_PORT_TYPE_DEAD_NAME));
  if negb go then mret KERN_INVALID_RIGHT else
  let relport := if sends then ie_object e else IP_NULL in
  e ← ie_get space entry;
  let bits := ie_bits e in
  _ ← massert (IE_BITS_TYPE bits =? MACH_PORT_TYPE_DEAD_NAME);
  _ ← massert (0 <? IE_BITS_UREFS bits);
  _ ← massert (ie_object e =? IO_NULL);
  _ ← massert (ie_request e =? IE_REQ_NONE);
  let urefs := IE_BITS_UREFS bits in
  if MACH_PORT_UREFS_UNDERFLOW urefs delta then mret KERN_INVALID_VALUE else
  if MACH_PORT_UREFS_OVERFLOW urefs delta then mret KERN_UREFS_OVERFLOW else
  _ ← (if u32 (urefs + delta) =? 0 then entry_dealloc space name entry
       else
         _ ← ie_mod space entry (set_ie_bits (u32 (bits + delta)));
         entry_modified space name entry);
  _ ← mwhen (negb (relport =? IP_NULL)) (ip_release relport);
  mret KERN_SUCCESS.

Definition delta_send (space name entry delta : Z) : K kern_return_t :=
  e ← ie_get space entry;
  let bits := ie_bits e in
  if negb (has bits MACH_PORT_TYPE_SEND) then mret KERN_INVALID_RIGHT else
  let port := ie_object e in
  _ ← massert (negb (port =? IP_NULL));
  dead ← ipc_right_check space port name entry;
  if dead : bool then
    e ← ie_get space entry;
    _ ← massert (negb (has (ie_bits e) MACH_PORT_TYPE_SEND));
    _ ← ip_release port;
    mret KERN_INVALID_RIGHT
  else
    p ← ip_get port;
    _ ← massert (0 <? ip_srights p);
    let urefs := IE_BITS_UREFS bits in
    if MACH_PORT_UREFS_UNDERFLOW urefs delta then mret KERN_INVALID_VALUE else
    if MACH_PORT_UREFS_OVERFLOW (urefs + 1) delta then mret KERN_UREFS_OVERFLOW else
    if u32 (urefs + delta) =? 0 then
      ns ← drop_sright port;
      request ← (if has bits MACH_PORT_TYPE_RECEIVE then
          p ← ip_get port;
          _ ← massert (ip_receiver_name p =? name);
          _ ← massert (ip_receiver p =? space);
          _ ← massert (IE_BITS_TYPE bits =? MACH_PORT_TYPE_SEND_RECEIVE);
          _ ← ie_mod space entry
                (set_ie_bits (clr bits (Z.lor IE_BITS_UREFS_MASK MACH_PORT_TYPE_SEND)));
          _ ← entry_modified space name entry;
          mret IP_NULL
        else
          _ ← massert (IE_BITS_TYPE bits =? MACH_PORT_TYPE_SEND);
          request ← ipc_right_request_cancel_macro space port name entry;
          _ ← hash_delete space port name entry;
          _ ← ip_release port;
          _ ← ie_mod space entry (set_ie_object IO_NULL);
          _ ← entry_dealloc space name entry;
          mret request);
      _ ← send_no_senders ns;
      _ ← send_port_deleted request name;
      mret KERN_SUCCESS
    else
      _ ← ie_mod space entry (set_ie_bits (u32 (bits + delta)));
      _ ← entry_modified space name entry;
      mret KERN_SUCCESS.

Definition ipc_right_delta (space name entry right delta : Z) : K kern_return_t :=
  sp ← is_get space;
  _ ← massert (is_active sp);
  _ ← massert (right <? MACH_PORT_RIGHT_NUMBER);
  if right =? MACH_PORT_RIGHT_PORT_SET then delta_port_set space name entry delta else
  if right =? MACH_PORT_RIGHT_RECEIVE then delta_receive space name entry delta else
  if right =? MACH_PORT_RIGHT_SEND_ONCE then delta_send_once space name entry delta else
  if right =? MACH_PORT_RIGHT_DEAD_NAME then delta_dead_name space name entry delta else
  if right =? MACH_PORT_RIGHT_SEND then delta_send space name entry delta
  else fail FPanic.

Definition ipc_right_destruct (space name entry srdelta guard : Z) : K kern_return_t :=
  e ← ie_get space entry;
  let bits := ie_bits e in
  sp ← is_get space;
  _ ← massert (is_active sp);
  if negb (has bits MACH_PORT_TYPE_RECEIVE)
     || (negb (srdelta =? 0) && negb (has bits MACH_PORT_TYPE_SEND))
  then mret KERN_INVALID_RIGHT else
  if 0 <? srdelta then mret KERN_INVALID_VALUE else
  let port := ie_object e in
  _ ← massert (negb (port =? IP_NULL));
  p ← ip_get port;
  _ ← massert (ip_active p);
  _ ← massert (ip_receiver_name p =? name);
  _ ← massert (ip_receiver p =? space);
  if ip_guarded p && negb (guard =? ip_context p) then
    _ ← mach_port_guard_exception name 0 (ip_context p) kGUARD_EXC_DESTROY;
    mret KERN_INVALID_ARGUMENT
  else
  let urefs := IE_BITS_UREFS bits in
  _ ← mwhen (negb (srdelta =? 0)) (massert (0 <? ip_srights p));
  if negb (srdelta =? 0) && MACH_PORT_UREFS_UNDERFLOW urefs srdelta then mret KERN_INVALID_VALUE else
  ns ← (if negb (srdelta =? 0) then
          if u32 (urefs + srdelta) =? 0 then
            ns ← drop_sright port;
            _ ← massert (IE_BITS_TYPE bits =? MACH_PORT_TYPE_SEND_RECEIVE);
            _ ← ie_mod space entry
                  (set_ie_bits (clr bits (Z.lor IE_BITS_UREFS_MASK MACH_PORT_TYPE_SEND)));
            mret ns
          else
            _ ← ie_mod space entry (set_ie_bits (u32 (bits + srdelta)));
            mret (IP_NULL, 0)
        else mret (IP_NULL, 0));
  request ← lose_receive space port name entry;
  _ ← send_no_senders ns;
  _ ← ipc_port_clear_receiver port;
  _ ← ipc_port_destroy port;
  _ ← send_port_deleted request name;
  mret KERN_SUCCESS.

(** Returns the type, with the request bits, and the user references. *)
Definition ipc_right_info (space name entry : Z) : K (Z * Z) :=
  e ← ie_get space entry;
  let bits := ie_bits e in
  let request := ie_request e in
  let port := ie_object e in
  '(type, bits) ← (if has bits MACH_PORT_TYPE_RECEIVE then
      _ ← massert (IP_VALID port);
      type ← (if negb (request =? IE_REQ_NONE) then
                p ← ip_get port;
                _ ← massert (ip_active p);
                ipc_port_request_type port name request
              else mret 0);
      mret (type, bits)
    else if has bits MACH_PORT_TYPE_SEND_RIGHTS then
      dead ← ipc_right_check space port name entry;
      if dead : bool then
        e ← ie_get space entry;
        _ ← massert (IE_BITS_TYPE (ie_bits e) =? MACH_PORT_TYPE_DEAD_NAME);
        _ ← ip_release port;
        mret (0, ie_bits e)
      else
        type ← (if negb (request =? IE_REQ_NONE) then ipc_port_request_type port name request
                else mret 0);
        mret (type, bits)
    else mret (0, bits));
  mret (Z.lor type (IE_BITS_TYPE bits), IE_BITS_UREFS bits).

(** ** Copyin *)

Definition ipc_right_copyin_check (space name entry msgt_name : Z) : K bool :=
  e ← ie_get space entry;
  let bits := ie_bits e in
  sp ← is_get space;
  _ ← massert (is_active sp);
  if (msgt_name =? MACH_MSG_TYPE_MAKE_SEND) || (msgt_name =? MACH_MSG_TYPE_MAKE_SEND_ONCE)
     || (msgt_name =? MACH_MSG_TYPE_MOVE_RECEIVE)
  then mret (has bits MACH_PORT_TYPE_RECEIVE)
  else if (msgt_name =? MACH_MSG_TYPE_COPY_SEND) || (msgt_name =? MACH_MSG_TYPE_MOVE_SEND)
          || (msgt_name =? MACH_MSG_TYPE_MOVE_SEND_ONCE) then
    if has bits MACH_PORT_TYPE_DEAD_NAME then mret true else
    if negb (has bits MACH_PORT_TYPE_SEND_RIGHTS) then mret false else
    let port := ie_object e in
    _ ← massert (negb (port =? IP_NULL));
    p ← ip_get port;
    if negb (ip_active p) then mret true else
    if msgt_name =? MACH_MSG_TYPE_MOVE_SEND_ONCE
    then mret (has bits MACH_PORT_TYPE_SEND_ONCE)
    else mret (has bits MACH_PORT_TYPE_SEND)
  else fail FPanic.

(** What [ipc_right_copyin] returns through its pointers.  [objectp] and [sorightp] are
    set on success only; [releasep] and [assertcntp] always. *)
Record copied := mk_copied {
  ci_kr : kern_return_t;
  ci_object : Z;
  ci_soright : Z;
  ci_release : Z;
  ci_assertcnt : Z;
}.

Definition copied_right (object soright : Z) : copied := mk_copied KERN_SUCCESS object soright IP_NULL 0.
Definition copy_failed (release : Z) : copied := mk_copied KERN_INVALID_RIGHT IO_NULL IP_NULL release 0.

(** The guards shared by the three dispositions that need the receive right: the port *)
Definition copyin_receive (space name : Z) (e : ipc_entry) : K Z :=
  let port := ie_object e in
  _ ← massert (negb (port =? IP_NULL));
  p ← ip_get port;
  _ ← massert (ip_active p);
  _ ← massert (ip_receiver_name p =? name);
  _ ← massert (ip_receiver p =? space);
  mret port.

Definition copyin_make_send (space name entry : Z) : K copied :=
  e ← ie_get space entry;
  if negb (has (ie_bits e) MACH_PORT_TYPE_RECEIVE) then mret (copy_failed IP_NULL) else
  port ← copyin_receive space name e;
  _ ← ip_mod port (fun p => set_ip_mscount (u32 (ip_mscount p + 1)) p);
  _ ← ip_mod port (fun p => set_ip_srights (u32 (ip_srights p + 1)) p);
  _ ← ip_reference port;
  mret (copied_right port IP_NULL).

Definition copyin_make_send_once (space name entry : Z) : K copied :=
  e ← ie_get space entry;
  if negb (has (ie_bits e) MACH_PORT_TYPE_RECEIVE) then mret (copy_failed IP_NULL) else
  port ← copyin_receive space name e;
  _ ← ip_mod port (fun p => set_ip_sorights (u32 (ip_sorights p + 1)) p);
  _ ← ip_reference port;
  mret (copied_right port IP_NULL).

Definition copyin_move_receive (space name entry : Z) : K copied :=
  e ← ie_get space entry;
  let bits := ie_bits e in
  if negb (has bits MACH_PORT_TYPE_RECEIVE) then mret (copy_failed IP_NULL) else
  port ← copyin_receive space name e;
  request ← (if has bits MACH_PORT_TYPE_SEND then
      _ ← massert (IE_BITS_TYPE bits =? MACH_PORT_TYPE_SEND_RECEIVE);
      _ ← massert (0 <? IE_BITS_UREFS bits);
      p ← ip_get port;
      _ ← massert (0 <? ip_srights p);
      _ ← hash_insert space port name entry;
      _ ← ip_reference port;
      mret IP_NULL
    else
      _ ← massert (IE_BITS_TYPE bits =? MACH_PORT_TYPE_RECEIVE);
      _ ← massert (IE_BITS_UREFS bits =? 0);
      request ← ipc_right_request_cancel_macro space port name entry;
      _ ← ie_mod space entry (set_ie_object IO_NULL);
      mret request);
  _ ← ie_mod space entry (set_ie_bits (clr bits MACH_PORT_TYPE_RECEIVE));
  _ ← entry_modified space name entry;
  _ ← ipc_port_clear_receiver port;
  _ ← ip_mod port (set_ip_receiver_name MACH_PORT_NULL);
  _ ← ip_mod port (set_ip_destination IP_NULL);
  p ← ip_get port;
  assertcnt ← (if negb (ip_tempowner p) then
                 _ ← massert (ip_imp_task p =? IIT_NULL);
                 _ ← ip_mod port (set_ip_tempowner true);
                 mret (ip_impcount p)
               else mret 0);
  mret (mk_copied KERN_SUCCESS port request IP_NULL assertcnt).

(** Labels [copy_dead] and [move_dead]; [release] is the port that was found dead. *)
Definition copyin_dead (move deadok : bool) (space name entry release : Z) : K copied :=
  e ← ie_get space entry;
  let bits := ie_bits e in
  _ ← massert (IE_BITS_TYPE bits =? MACH_PORT_TYPE_DEAD_NAME);
  _ ← massert (0 <? IE_BITS_UREFS bits);
  _ ← massert (ie_request e =? IE_REQ_NONE);
  _ ← massert (ie_object e =? 0);
  if negb deadok then mret (copy_failed release) else
  _ ← mwhen move
        (let bits := if IE_BITS_UREFS bits =? 1 then clr bits MACH_PORT_TYPE_DEAD_NAME else bits in
         _ ← ie_mod space entry (set_ie_bits (bits - 1));
         entry_modified space name entry);
  mret (mk_copied KERN_SUCCESS IO_DEAD IP_NULL release 0).

(** The common start of the three dispositions that take an existing send or send-once
    right: dead names, wrong types, and the check that the port lives.  [inr port] with the
    port active. *)
Definition copyin_existing (move deadok : bool) (space name entry : Z) : K (copied + Z) :=
  e ← ie_get space entry;
  let bits := ie_bits e in
  if has bits MACH_PORT_TYPE_DEAD_NAME
  then r ← copyin_dead move deadok space name entry IP_NULL; mret (inl r) else
  if negb (has bits MACH_PORT_TYPE_SEND_RIGHTS) then mret (inl (copy_failed IP_NULL)) else
  _ ← massert (0 <? IE_BITS_UREFS bits);
  let port := ie_object e in
  _ ← massert (negb (port =? IP_NULL));
  dead ← ipc_right_check space port name entry;
  if dead : bool
  then r ← copyin_dead move deadok space name entry port; mret (inl r)
  else mret (inr port).

Definition copyin_copy_send (deadok : bool) (space name entry : Z) : K copied :=
  r ← copyin_existing false deadok space name entry;
  match r with
  | inl r => mret r
  | inr port =>
    e ← ie_get space entry;
    let bits := ie_bits e in
    p ← ip_get port;
    if negb (has bits MACH_PORT_TYPE_SEND) then
      _ ← massert (IE_BITS_TYPE bits =? MACH_PORT_TYPE_SEND_ONCE);
      _ ← massert (0 <? ip_sorights p);
      mret (copy_failed IP_NULL)
    else
      _ ← massert (0 <? ip_srights p);
      _ ← ip_mod port (fun p => set_ip_srights (u32 (ip_srights p + 1)) p);
      _ ← ip_reference port;
      mret (copied_right port IP_NULL)
  end.

Definition copyin_move_send (deadok : bool) (space name entry : Z) : K copied :=
  r ← copyin_existing true deadok space name entry;
  match r with
  | inl r => mret r
  | inr port =>
    e ← ie_get space entry;
    let bits := ie_bits e in
    p ← ip_get port;
    if negb (has bits MACH_PORT_TYPE_SEND) then
      _ ← massert (IE_BITS_TYPE bits =? MACH_PORT_TYPE_SEND_ONCE);
      _ ← massert (0 <? ip_sorights p);
      mret (copy_failed IP_NULL)
    else
      _ ← massert (0 <? ip_srights p);
      request ← (if IE_BITS_UREFS bits =? 1 then
          request ← (if has bits MACH_PORT_TYPE_RECEIVE then
              _ ← massert (ip_receiver_name p =? name);
              _ ← massert (ip_receiver p =? space);
              _ ← massert (IE_BITS_TYPE bits =? MACH_PORT_TYPE_SEND_RECEIVE);
              _ ← ip_reference port;
              mret IP_NULL
            else
              _ ← massert (IE_BITS_TYPE bits =? MACH_PORT_TYPE_SEND);
              request ← ipc_right_request_cancel_macro space port name entry;
              _ ← hash_delete space port name entry;
              _ ← ie_mod space entry (set_ie_object IO_NULL);
              mret request);
          _ ← ie_mod space entry
                (set_ie_bits (clr bits (Z.lor IE_BITS_UREFS_MASK MACH_PORT_TYPE_SEND)));
          mret request
        else
          _ ← ip_mod port (fun p => set_ip_srights (u32 (ip_srights p + 1)) p);
          _ ← ip_reference port;
          _ ← ie_mod space entry (set_ie_bits (bits - 1));
          mret IP_NULL);
      _ ← entry_modified space name entry;
      mret (copied_right port request)
  end.

Definition copyin_move_send_once (deadok : bool) (space name entry : Z) : K copied :=
  r ← copyin_existing true deadok space name entry;
  match r with
  | inl r => mret r
  | inr port =>
    e ← ie_get space entry;
    let bits := ie_bits e in
    p ← ip_get port;
    if negb (has bits MACH_PORT_TYPE_SEND_ONCE) then
      _ ← massert (has bits MACH_PORT_TYPE_SEND);
      _ ← massert (0 <? ip_srights p);
      mret (copy_failed IP_NULL)
    else
      _ ← massert (IE_BITS_TYPE bits =? MACH_PORT_TYPE_SEND_ONCE);
      _ ← massert (IE_BITS_UREFS bits =? 1);
      _ ← massert (0 <? ip_sorights p);
      request ← ipc_right_request_cancel_macro space port name entry;
      _ ← ie_mod space entry (set_ie_object IO_NULL);
      _ ← ie_mod space entry
            (set_ie_bits (clr bits (Z.lor IE_BITS_UREFS_MASK MACH_PORT_TYPE_SEND_ONCE)));
      _ ← entry_modified space name entry;
      mret (copied_right port request)
  end.

Definition ipc_right_copyin (space name entry msgt_name : Z) (deadok : bool) : K copied :=
  sp ← is_get space;
  _ ← massert (is_active sp);
  if msgt_name =? MACH_MSG_TYPE_MAKE_SEND then copyin_make_send space name entry else
  if msgt_name =? MACH_MSG_TYPE_MAKE_SEND_ONCE then copyin_make_send_once space name entry else
  if msgt_name =? MACH_MSG_TYPE_MOVE_RECEIVE then copyin_move_receive space name entry else
  if msgt_name =? MACH_MSG_TYPE_COPY_SEND then copyin_copy_send deadok space name entry else
  if msgt_name =? MACH_MSG_TYPE_MOVE_SEND then copyin_move_send deadok space name entry else
  if msgt_name =? MACH_MSG_TYPE_MOVE_SEND_ONCE then copyin_move_send_once deadok space name entry
  else mret (copy_failed IP_NULL).

Definition ipc_right_copyin_undo (space name entry msgt_name object soright : Z) : K unit :=
  e ← ie_get space entry;
  let bits := ie_bits e in
  sp ← is_get space;
  _ ← massert (is_active sp);
  let moved := (msgt_name =? MACH_MSG_TYPE_MOVE_SEND) || (msgt_name =? MACH_MSG_TYPE_MOVE_SEND_ONCE) in
  _ ← massert (moved || (msgt_name =? MACH_MSG_TYPE_COPY_SEND));
  _ ← (if negb (soright =? IP_NULL) then
         _ ← massert moved;
         _ ← massert (IE_BITS_TYPE bits =? MACH_PORT_TYPE_NONE);
         _ ← massert (negb (object =? IO_DEAD));
         ie_mod space entry (set_ie_bits (Z.lor (Z.lor (clr bits IE_BITS_RIGHT_MASK)
                                                    MACH_PORT_TYPE_DEAD_NAME) 2))
       else if IE_BITS_TYPE bits =? MACH_PORT_TYPE_NONE then
         _ ← massert moved;
         ie_mod space entry (set_ie_bits (Z.lor (Z.lor (clr bits IE_BITS_RIGHT_MASK)
                                                    MACH_PORT_TYPE_DEAD_NAME) 1))
       else if IE_BITS_TYPE bits =? MACH_PORT_TYPE_DEAD_NAME then
         _ ← massert (object =? IO_DEAD);
         _ ← massert (0 <? IE_BITS_UREFS bits);
         mwhen (negb (msgt_name =? MACH_MSG_TYPE_COPY_SEND))
           (_ ← massert (IE_BITS_UREFS bits <? MACH_PORT_UREFS_MAX);
            ie_mod space entry (set_ie_bits (bits + 1)))
       else
         _ ← massert ((msgt_name =? MACH_MSG_TYPE_MOVE_SEND) || (msgt_name =? MACH_MSG_TYPE_COPY_SEND));
         _ ← massert (IE_BITS_TYPE bits =? MACH_PORT_TYPE_SEND);
         _ ← massert (negb (object =? IO_DEAD));
         _ ← massert (ie_object e =? object);
         _ ← massert (0 <? IE_BITS_UREFS bits);
         _ ← mwhen (negb (msgt_name =? MACH_MSG_TYPE_COPY_SEND))
               (_ ← massert (IE_BITS_UREFS bits <? MACH_PORT_UREFS_MAX - 1);
                ie_mod space entry (set_ie_bits (bits + 1)));
         _ ← ipc_right_check space object name entry; mret tt);
  _ ← entry_modified space name entry;
  mwhen (negb (object =? IO_DEAD)) (io_release object).

Definition ipc_right_copyin_two_move_sends (space name entry : Z) : K copied :=
  sp ← is_get space;
  _ ← massert (is_active sp);
  e ← ie_get space entry;
  let bits := ie_bits e in
  if negb (has bits MACH_PORT_TYPE_SEND) then mret (copy_failed IP_NULL) else
  let urefs := IE_BITS_UREFS bits in
  if urefs <? 2 then mret (copy_failed IP_NULL) else
  let port := ie_object e in
  _ ← massert (negb (port =? IP_NULL));
  dead ← ipc_right_check space port name entry;
  if dead : bool then mret (copy_failed port) else
  p ← ip_get port;
  _ ← massert (0 <? ip_srights p);
  request ← (if urefs =? 2 then
      request ← (if has bits MACH_PORT_TYPE_RECEIVE then
          _ ← massert (ip_receiver_name p =? name);
          _ ← massert (ip_receiver p =? space);
          _ ← massert (IE_BITS_TYPE bits =? MACH_PORT_TYPE_SEND_RECEIVE);
          _ ← ip_mod port (fun p => set_ip_srights (u32 (ip_srights p + 1)) p);
          _ ← ip_reference port;
          _ ← ip_reference port;
          mret IP_NULL
        else
          _ ← massert (IE_BITS_TYPE bits =? MACH_PORT_TYPE_SEND);
          request ← ipc_right_request_cancel_macro space port name entry;
          _ ← ip_mod port (fun p => set_ip_srights (u32 (ip_srights p + 1)) p);
          _ ← ip_reference port;
          _ ← hash_delete space port name entry;
          _ ← ie_mod space entry (set_ie_object IO_NULL);
          mret request);
      _ ← ie_mod space entry
            (set_ie_bits (clr bits (Z.lor IE_BITS_UREFS_MASK MACH_PORT_TYPE_SEND)));
      mret request
    else
      _ ← ip_mod port (fun p => set_ip_srights (u32 (ip_srights p + 2)) p);
      _ ← ip_reference port;
      _ ← ip_reference port;
      _ ← ie_mod space entry (set_ie_bits (bits - 2));
      mret IP_NULL);
  _ ← entry_modified space name entry;
  mret (copied_right port request).

Definition ipc_right_copyin_two (space name entry msgt_one msgt_two : Z) : K copied :=
  _ ← massert (MACH_MSG_TYPE_PORT_ANY_SEND msgt_one);
  _ ← massert (MACH_MSG_TYPE_PORT_ANY_SEND msgt_two);
  ok ← ipc_right_copyin_check space name entry msgt_two;
  if negb ok then mret (mk_copied KERN_INVALID_CAPABILITY IO_NULL IP_NULL IP_NULL 0) else
  if (msgt_one =? MACH_MSG_TYPE_MOVE_SEND_ONCE) || (msgt_two =? MACH_MSG_TYPE_MOVE_SEND_ONCE)
  then mret (copy_failed IP_NULL) else
  if (msgt_one =? MACH_MSG_TYPE_MAKE_SEND) || (msgt_one =? MACH_MSG_TYPE_MAKE_SEND_ONCE)
     || (msgt_two =? MACH_MSG_TYPE_MAKE_SEND) || (msgt_two =? MACH_MSG_TYPE_MAKE_SEND_ONCE)
  then
    c ← ipc_right_copyin space name entry msgt_one false;
    _ ← massert (ci_assertcnt c =? 0);
    if negb (bool_decide (ci_kr c = KERN_SUCCESS)) then mret c else
    _ ← massert (IO_VALID (ci_object c));
    _ ← massert (ci_soright c =? IP_NULL);
    _ ← massert (ci_release c =? IP_NULL);
    c2 ← ipc_right_copyin space name entry msgt_two false;
    _ ← massert (ci_assertcnt c2 =? 0);
    _ ← massert (bool_decide (ci_kr c2 = KERN_SUCCESS));
    _ ← massert (ci_soright c2 =? IP_NULL);
    _ ← massert (ci_release c2 =? IP_NULL);
    _ ← massert (ci_object c2 =? ci_object c);
    e ← ie_get space entry;
    _ ← massert (has (ie_bits e) MACH_PORT_TYPE_RECEIVE);
    mret (mk_copied KERN_SUCCESS (ci_object c) (ci_soright c2) (ci_release c2) 0)
  else if (msgt_one =? MACH_MSG_TYPE_MOVE_SEND) && (msgt_two =? MACH_MSG_TYPE_MOVE_SEND) then
    ipc_right_copyin_two_move_sends space name entry
  else
    let msgt_name := if (msgt_one =? MACH_MSG_TYPE_MOVE_SEND) || (msgt_two =? MACH_MSG_TYPE_MOVE_SEND)
                     then MACH_MSG_TYPE_MOVE_SEND else MACH_MSG_TYPE_COPY_SEND in
    c ← ipc_right_copyin space name entry msgt_name false;
    _ ← massert (ci_assertcnt c =? 0);
    if negb (bool_decide (ci_kr c = KERN_SUCCESS)) then mret c else
    _ ← ipc_port_copy_send (ci_object c);
    mret c.

(** ** Copyout and rename *)

Definition copyout_send_once (space name entry object : Z) : K kern_return_t :=
  e ← ie_get space entry;
  let bits := ie_bits e in
  _ ← massert (IE_BITS_TYPE bits =? MACH_PORT_TYPE_NONE);
  p ← ip_get object;
  _ ← massert (0 <? ip_sorights p);
  _ ← ie_mod space entry (set_ie_bits (Z.lor bits (Z.lor MACH_PORT_TYPE_SEND_ONCE 1)));
  _ ← entry_modified space name entry;
  mret KERN_SUCCESS.

Definition copyout_send (space name entry : Z) (overflow : bool) (object : Z) : K kern_return_t :=
  e ← ie_get space entry;
  let bits := ie_bits e in
  let port := object in
  p ← ip_get port;
  _ ← massert (0 <? ip_srights p);
  let urefs := IE_BITS_UREFS bits in
  if has bits MACH_PORT_TYPE_SEND && (urefs + 1 =? MACH_PORT_UREFS_MAX) then
    _ ← massert (1 <? ip_srights p);
    _ ← massert (0 <? urefs);
    _ ← massert (urefs <? MACH_PORT_UREFS_MAX);
    if overflow then
      _ ← ip_mod port (set_ip_srights (ip_srights p - 1));
      _ ← ip_release port;
      mret KERN_SUCCESS
    else mret KERN_UREFS_OVERFLOW
  else
    _ ← (if has bits MACH_PORT_TYPE_SEND then
           _ ← massert (1 <? ip_srights p);
           _ ← massert (0 <? urefs);
           _ ← massert (urefs <? MACH_PORT_UREFS_MAX);
           _ ← ip_mod port (set_ip_srights (ip_srights p - 1));
           ip_release port
         else if has bits MACH_PORT_TYPE_RECEIVE then
           _ ← massert (IE_BITS_TYPE bits =? MACH_PORT_TYPE_RECEIVE);
           _ ← massert (IE_BITS_UREFS bits =? 0);
           ip_release port
         else
           _ ← massert (IE_BITS_TYPE bits =? MACH_PORT_TYPE_NONE);
           _ ← massert (IE_BITS_UREFS bits =? 0);
           hash_insert space port name entry);
    _ ← ie_mod space entry (set_ie_bits (Z.lor bits MACH_PORT_TYPE_SEND + 1));
    _ ← entry_modified space name entry;
    mret KERN_SUCCESS.

Definition copyout_receive (space name entry object : Z) : K kern_return_t :=
  e ← ie_get space entry;
  let bits := ie_bits e in
  let port := object in
  p ← ip_get port;
  let assertcnt := ip_impcount p in
  _ ← massert (ip_mscount p =? 0);
  _ ← massert (ip_receiver_name p =? MACH_PORT_NULL);
  let dest := ip_destination p in
  _ ← ip_mod port (set_ip_receiver_name name);
  _ ← ip_mod port (set_ip_receiver space);
  _ ← massert (negb (has bits MACH_PORT_TYPE_RECEIVE));
  _ ← (if has bits MACH_PORT_TYPE_SEND then
         _ ← massert (IE_BITS_TYPE bits =? MACH_PORT_TYPE_SEND);
         _ ← massert (0 <? IE_BITS_UREFS bits);
         _ ← massert (0 <? ip_srights p);
         _ ← ip_release port;
         hash_delete space port name entry
       else
         _ ← massert (IE_BITS_TYPE bits =? MACH_PORT_TYPE_NONE);
         massert (IE_BITS_UREFS bits =? 0));
  _ ← ie_mod space entry (set_ie_bits (Z.lor bits MACH_PORT_TYPE_RECEIVE));
  _ ← entry_modified space name entry;
  _ ← mwhen (negb (dest =? IP_NULL))
        (_ ← ipc_port_impcount_delta dest (0 - assertcnt);
         ip_release dest);
  mret KERN_SUCCESS.

Definition ipc_right_copyout (space name entry msgt_name : Z) (overflow : bool) (object : Z)
    : K kern_return_t :=
  _ ← massert (IO_VALID object);
  bits ← io_bits object;
  _ ← massert (io_bits_otype bits =? IOT_PORT);
  _ ← massert (io_bits_active bits);
  e ← ie_get space entry;
  _ ← massert (ie_object e =? object);
  if msgt_name =? MACH_MSG_TYPE_PORT_SEND_ONCE then copyout_send_once space name entry object else
  if msgt_name =? MACH_MSG_TYPE_PORT_SEND then copyout_send space name entry overflow object else
  if msgt_name =? MACH_MSG_TYPE_PORT_RECEIVE then copyout_receive space name entry object
  else fail FPanic.

Definition ipc_right_rename (space oname oentry nname nentry : Z) : K kern_return_t :=
  oe ← ie_get space oentry;
  sp ← is_get space;
  _ ← massert (is_active sp);
  _ ← massert (negb (oname =? nname));
  '(request, object, bits, release_port) ←
    (if negb (ie_request oe =? IE_REQ_NONE) then
       _ ← massert (has (ie_bits oe) MACH_PORT_TYPE_PORT_RIGHTS);
       let port := ie_object oe in
       _ ← massert (negb (port =? IP_NULL));
       dead ← ipc_right_check space port oname oentry;
       if dead : bool then
         oe ← ie_get space oentry;
         _ ← massert (IE_BITS_TYPE (ie_bits oe) =? MACH_PORT_TYPE_DEAD_NAME);
         _ ← massert (ie_request oe =? IE_REQ_NONE);
         mret (IE_REQ_NONE, IO_NULL, ie_bits oe, port)
       else
         _ ← ipc_port_request_rename port (ie_request oe) oname nname;
         _ ← ie_mod space oentry (set_ie_request IE_REQ_NONE);
         mret (ie_request oe, ie_object oe, ie_bits oe, IP_NULL)
     else mret (ie_request oe, ie_object oe, ie_bits oe, IP_NULL));
  ne ← ie_get space nentry;
  _ ← massert (Z.land (ie_bits ne) IE_BITS_RIGHT_MASK =? 0);
  _ ← ie_mod space nentry (set_ie_bits (Z.lor (ie_bits ne) (Z.land bits IE_BITS_RIGHT_MASK)));
  _ ← ie_mod space nentry (set_ie_request request);
  _ ← ie_mod space nentry (set_ie_object object);
  let type := IE_BITS_TYPE bits in
  _ ← (if type =? MACH_PORT_TYPE_SEND then
         _ ← massert (negb (object =? IP_NULL));
         _ ← hash_delete space object oname oentry;
         hash_insert space object nname nentry
       else if (type =? MACH_PORT_TYPE_RECEIVE) || (type =? MACH_PORT_TYPE_SEND_RECEIVE) then
         _ ← massert (negb (object =? IP_NULL));
         p ← ip_get object;
         _ ← massert (ip_active p);
         _ ← massert (ip_receiver_name p =? oname);
         _ ← massert (ip_receiver p =? space);
         ip_mod object (set_ip_receiver_name nname)
       else if type =? MACH_PORT_TYPE_PORT_SET then
         _ ← massert (negb (object =? IO_NULL));
         ps ← ips_get object;
         _ ← massert (ips_active ps);
         _ ← massert (ips_local_name ps =? oname);
         ips_mod object (set_ips_local_name nname)
       else if (type =? MACH_PORT_TYPE_SEND_ONCE) || (type =? MACH_PORT_TYPE_DEAD_NAME) then mret tt
       else fail FPanic);
  oe ← ie_get space oentry;
  _ ← massert (ie_request oe =? IE_REQ_NONE);
  _ ← ie_mod space oentry (set_ie_object IO_NULL);
  _ ← entry_dealloc space oname oentry;
  _ ← entry_modified space nname nentry;
  _ ← mwhen (negb (release_port =? IP_NULL)) (ip_release release_port);
  mret KERN_SUCCESS.
End rights.
