(* ===== verification/IpcObject.v ===== *)
(** * Objects (osfmk/ipc/ipc_object.c)

    Looking up, allocating, copying in and copying out capabilities by name, and the routines
    of ipc_port.c and ipc_pset.c built on them.  Growing the table of a space drops its lock;
    here nothing runs meanwhile (IpcGrow.v has the general case). *)

From S2P Require Import IpcTypes IpcHash IpcEntry IpcGrow IpcState IpcPort IpcDestroy IpcRight.

Definition pset_zero : ipc_pset := mk_ipc_pset 0 0 0 [].

Section objects.
Context `{!ipc_env}.

(** ** Calls of the entry layer that may grow the table *)
Definition entry_alloc (space : Z) : K (kern_return_t + Z * Z) :=
  alloc ← pop_kalloc;
  sp ← is_get space;
  '(r, sp, _) ← lift (ipc_entry_alloc ipc_table_entries 2 sp (atomic_windows alloc));
  _ ← is_put space sp;
  mret r.

Definition entry_alloc_name (space name : Z) : K (kern_return_t + Z) :=
  alloc ← pop_kalloc;
  sp ← is_get space;
  '(r, sp, _) ← lift (ipc_entry_alloc_name ipc_table_entries 2 name sp (atomic_windows alloc));
  _ ← is_put space sp;
  mret r.

Definition entry_grow_table (space target_size : Z) : K kern_return_t :=
  alloc ← pop_kalloc;
  sp ← is_get space;
  '(kr, sp, _) ← lift (ipc_entry_grow_table ipc_table_entries target_size sp (atomic_windows alloc));
  _ ← is_put space sp;
  mret kr.

(** ** Lookup *)

Definition ipc_object_translate (space name right : Z) : K (kern_return_t + Z) :=
  found ← ipc_right_lookup_write space name;
  match found with
  | inl kr => mret (inl kr)
  | inr entry =>
    e ← ie_get space entry;
    if Z.land (ie_bits e) (MACH_PORT_TYPE right) =? MACH_PORT_TYPE_NONE
    then mret (inl KERN_INVALID_RIGHT)
    else
      let object := ie_object e in
      _ ← massert (negb (object =? IO_NULL));
      mret (inr object)
  end.

Definition ipc_object_translate_two (space name1 right1 name2 right2 : Z) : K (kern_return_t + Z * Z) :=
  found ← ipc_right_lookup_two_write space name1 name2;
  match found with
  | inl kr => mret (inl kr)
  | inr (entry1, entry2) =>
    e1 ← ie_get space entry1;
    e2 ← ie_get space entry2;
    if Z.land (ie_bits e1) (MACH_PORT_TYPE right1) =? MACH_PORT_TYPE_NONE
    then mret (inl KERN_INVALID_RIGHT) else
    if Z.land (ie_bits e2) (MACH_PORT_TYPE right2) =? MACH_PORT_TYPE_NONE
    then mret (inl KERN_INVALID_RIGHT) else
    _ ← massert (negb (ie_object e1 =? IO_NULL));
    _ ← massert (negb (ie_object e2 =? IO_NULL));
    mret (inr (ie_object e1, ie_object e2))
  end.

(** ** Allocation *)

Definition ipc_object_alloc_dead (space : Z) : K (kern_return_t + Z) :=
  r ← entry_alloc space;
  match r with
  | inl kr => mret (inl kr)
  | inr (name, entry) =>
    e ← ie_get space entry;
    _ ← massert (ie_object e =? IO_NULL);
    _ ← ie_mod space entry (set_ie_bits (Z.lor (ie_bits e) (Z.lor MACH_PORT_TYPE_DEAD_NAME 1)));
    _ ← entry_modified space name entry;
    mret (inr name)
  end.

Definition ipc_object_alloc_dead_name (space name : Z) : K kern_return_t :=
  r ← entry_alloc_name space name;
  match r with
  | inl kr => mret kr
  | inr entry =>
    inuse ← ipc_right_inuse space name entry;
    if inuse : bool then mret KERN_NAME_EXISTS else
    e ← ie_get space entry;
    _ ← massert (ie_object e =? IO_NULL);
    _ ← ie_mod space entry (set_ie_bits (Z.lor (ie_bits e) (Z.lor MACH_PORT_TYPE_DEAD_NAME 1)));
    _ ← entry_modified space name entry;
    mret KERN_SUCCESS
  end.

(** [io_alloc] and the [bzero] that follows; [IO_NULL] when there is no memory *)
Definition io_alloc (otype : Z) : K Z :=
  object ← pop_zalloc;
  _ ← mwhen (negb (object =? IO_NULL))
        (if otype =? IOT_PORT then ip_put object port_zero else ips_put object pset_zero);
  mret object.

(** [object->io_references = 1; object->io_bits = io_makebits(TRUE, otype, 0);] *)
Definition io_activate (otype object : Z) : K unit :=
  let bits := io_makebits true otype 0 in
  if otype =? IOT_PORT
  then ip_mod object (fun p => set_ip_bits bits (set_ip_references 1 p))
  else ips_mod object (fun p => set_ips_bits bits (set_ips_references 1 p)).

Definition object_alloc_asserts (otype type urefs : Z) : K unit :=
  _ ← massert (otype <? IOT_NUMBER);
  _ ← massert (Z.land type MACH_PORT_TYPE_ALL_RIGHTS =? type);
  _ ← massert (negb (type =? MACH_PORT_TYPE_NONE));
  massert (urefs <=? MACH_PORT_UREFS_MAX).

(** Returns the name and the object. *)
Definition ipc_object_alloc (space otype type urefs : Z) : K (kern_return_t + Z * Z) :=
  _ ← object_alloc_asserts otype type urefs;
  object ← io_alloc otype;
  if object =? IO_NULL then mret (inl KERN_RESOURCE_SHORTAGE) else
  r ← entry_alloc space;
  match r with
  | inl kr => _ ← io_free otype object; mret (inl kr)
  | inr (name, entry) =>
    _ ← ie_mod space entry (fun e => set_ie_bits (Z.lor (ie_bits e) (Z.lor type urefs)) e);
    _ ← ie_mod space entry (set_ie_object object);
    _ ← entry_modified space name entry;
    _ ← io_activate otype object;
    mret (inr (name, object))
  end.

Definition ipc_object_alloc_name (space otype type urefs name : Z) : K (kern_return_t + Z) :=
  _ ← object_alloc_asserts otype type urefs;
  object ← io_alloc otype;
  if object =? IO_NULL then mret (inl KERN_RESOURCE_SHORTAGE) else
  r ← entry_alloc_name space name;
  match r with
  | inl kr => _ ← io_free otype object; mret (inl kr)
  | inr entry =>
    inuse ← ipc_right_inuse space name entry;
    if inuse : bool then _ ← io_free otype object; mret (inl KERN_NAME_EXISTS) else
    _ ← ie_mod space entry (fun e => set_ie_bits (Z.lor (ie_bits e) (Z.lor type urefs)) e);
    _ ← ie_mod space entry (set_ie_object object);
    _ ← entry_modified space name entry;
    _ ← io_activate otype object;
    mret (inr object)
  end.

Definition ipc_port_alloc (space : Z) : K (kern_return_t + Z * Z) :=
  r ← ipc_object_alloc space IOT_PORT MACH_PORT_TYPE_RECEIVE 0;
  match r with
  | inl kr => mret (inl kr)
  | inr (name, port) => _ ← ipc_port_init port space name; mret (inr (name, port))
  end.

Definition ipc_port_alloc_name (space name : Z) : K (kern_return_t + Z) :=
  r ← ipc_object_alloc_name space IOT_PORT MACH_PORT_TYPE_RECEIVE 0 name;
  match r with
  | inl kr => mret (inl kr)
  | inr port => _ ← ipc_port_init port space name; mret (inr port)
  end.

(** [ipc_mqueue_init] of a port set's queue is [waitq_set_init]: no waiters. *)
Definition ipc_pset_alloc (space : Z) : K (kern_return_t + Z * Z) :=
  r ← ipc_object_alloc space IOT_PORT_SET MACH_PORT_TYPE_PORT_SET 0;
  match r with
  | inl kr => mret (inl kr)
  | inr (name, pset) =>
    _ ← ips_mod pset (fun ps => set_ips_receivers [] (set_ips_local_name name ps));
    mret (inr (name, pset))
  end.

Definition ipc_pset_alloc_name (space name : Z) : K (kern_return_t + Z) :=
  r ← ipc_object_alloc_name space IOT_PORT_SET MACH_PORT_TYPE_PORT_SET 0 name;
  match r with
  | inl kr => mret (inl kr)
  | inr pset =>
    _ ← ips_mod pset (fun ps => set_ips_receivers [] (set_ips_local_name name ps));
    mret (inr pset)
  end.

(** ** Copyin *)

Definition ipc_object_copyin_type (msgt_name : Z) : Z :=
  if msgt_name =? MACH_MSG_TYPE_MOVE_RECEIVE then MACH_MSG_TYPE_PORT_RECEIVE else
  if (msgt_name =? MACH_MSG_TYPE_MOVE_SEND_ONCE) || (msgt_name =? MACH_MSG_TYPE_MAKE_SEND_ONCE)
  then MACH_MSG_TYPE_PORT_SEND_ONCE else
  if (msgt_name =? MACH_MSG_TYPE_MOVE_SEND) || (msgt_name =? MACH_MSG_TYPE_MAKE_SEND)
     || (msgt_name =? MACH_MSG_TYPE_COPY_SEND)
  then MACH_MSG_TYPE_PORT_SEND else MACH_MSG_TYPE_PORT_NONE.

Definition ipc_object_copyin (space name msgt_name : Z) : K (kern_return_t + Z) :=
  found ← ipc_right_lookup_write space name;
  match found with
  | inl kr => mret (inl kr)
  | inr entry =>
    c ← ipc_right_copyin space name entry msgt_name true;
    e ← ie_get space entry;
    _ ← mwhen (IE_BITS_TYPE (ie_bits e) =? MACH_PORT_TYPE_NONE) (entry_dealloc space name entry);
    _ ← mwhen ((0 <? ci_assertcnt c) && ipc_importance_task_is_any_receiver_type current_task_imp_base)
          (log (ImportanceDrop current_task_imp_base (ci_assertcnt c)));
    _ ← mwhen (negb (ci_release c =? IP_NULL)) (ip_release (ci_release c));
    if decide (ci_kr c = KERN_SUCCESS) then
      _ ← send_port_deleted (ci_soright c) name;
      mret (inr (ci_object c))
    else mret (inl (ci_kr c))
  end.

Definition ipc_object_copyin_from_kernel (object msgt_name : Z) : K unit :=
  _ ← massert (IO_VALID object);
  let port := object in
  p ← ip_get port;
  if msgt_name =? MACH_MSG_TYPE_MOVE_RECEIVE then
    _ ← massert (ip_active p);
    mwhen (negb (ip_destination p =? IP_NULL))
      (_ ← massert (ip_receiver p =? ipc_space_kernel);
       _ ← ipc_port_set_mscount port 0;
       _ ← ip_mod port (set_ip_receiver_name MACH_PORT_NULL);
       ip_mod port (set_ip_destination IP_NULL))
  else if msgt_name =? MACH_MSG_TYPE_COPY_SEND then
    _ ← mwhen (ip_active p)
          (_ ← massert (0 <? ip_srights p);
           ip_mod port (fun p => set_ip_srights (u32 (ip_srights p + 1)) p));
    ip_reference port
  else if msgt_name =? MACH_MSG_TYPE_MAKE_SEND then
    _ ← mwhen (ip_active p)
          (_ ← massert (negb (ip_receiver_name p =? MACH_PORT_NULL));
           _ ← massert (ip_receiver p =? ipc_space_kernel);
           ip_mod port (fun p => set_ip_mscount (u32 (ip_mscount p + 1)) p));
    _ ← ip_mod port (fun p => set_ip_srights (u32 (ip_srights p + 1)) p);
    ip_reference port
  else if msgt_name =? MACH_MSG_TYPE_MOVE_SEND then massert (negb (ip_srights p =? 0))
  else if msgt_name =? MACH_MSG_TYPE_MAKE_SEND_ONCE then
    _ ← mwhen (ip_active p) (massert (negb (ip_receiver_name p =? MACH_PORT_NULL)));
    _ ← ip_mod port (fun p => set_ip_sorights (u32 (ip_sorights p + 1)) p);
    ip_reference port
  else if msgt_name =? MACH_MSG_TYPE_MOVE_SEND_ONCE then massert (negb (ip_sorights p =? 0))
  else fail FPanic.

(** ** Copyout *)

(** One turn of the [for (;;)] of [ipc_object_copyout]: [None] after the table has grown;
    otherwise the name and entry to copy out to, or the error. *)
Definition copyout_turn (space object msgt_name : Z) : K (option (kern_return_t + Z * Z)) :=
  sp ← is_get space;
  if negb (is_active sp) then mret (Some (inl KERN_INVALID_TASK)) else
  found ← (if negb (msgt_name =? MACH_MSG_TYPE_PORT_SEND_ONCE)
           then ipc_right_reverse space object else mret None);
  match found with
  | Some (name, entry) =>
    e ← ie_get space entry;
    _ ← massert (has (ie_bits e) MACH_PORT_TYPE_SEND_RECEIVE);
    mret (Some (inr (name, entry)))
  | None =>
    r ← in_space space ipc_entry_get;
    match r with
    | inl _ =>
      kr ← entry_grow_table space ITS_SIZE_NONE;
      if decide (kr = KERN_SUCCESS) then mret None else mret (Some (inl kr))
    | inr (name, entry) =>
      e ← ie_get space entry;
      _ ← massert (IE_BITS_TYPE (ie_bits e) =? MACH_PORT_TYPE_NONE);
      _ ← massert (ie_object e =? IO_NULL);
      bits ← io_bits object;
      if negb (io_bits_active bits) then
        _ ← entry_dealloc space name entry;
        mret (Some (inl KERN_INVALID_CAPABILITY))
      else
        _ ← ie_mod space entry (set_ie_object object);
        mret (Some (inr (name, entry)))
    end
  end.

Fixpoint copyout_loop (turns : nat) (space object msgt_name : Z) : K (kern_return_t + Z * Z) :=
  match turns with
  | O => fail FFuel
  | S turns =>
    r ← copyout_turn space object msgt_name;
    match r with
    | Some r => mret r
    | None => copyout_loop turns space object msgt_name
    end
  end.

(** Growing the table makes a free entry for the second turn. *)
Definition ipc_object_copyout (space object msgt_name : Z) (overflow : bool) : K (kern_return_t + Z) :=
  _ ← massert (IO_VALID object);
  bits ← io_bits object;
  _ ← massert (io_bits_otype bits =? IOT_PORT);
  r ← copyout_loop 2 space object msgt_name;
  match r with
  | inl kr => mret (inl kr)
  | inr (name, entry) =>
    kr ← ipc_right_copyout space name entry msgt_name overflow object;
    if decide (kr = KERN_SUCCESS) then mret (inr name) else mret (inl kr)
  end.

(** [if (msgt_name == MACH_MSG_TYPE_PORT_RECEIVE)]: the task to boost and its count *)
Definition copyout_name_importance (space object msgt_name : Z) : K (Z * Z) :=
  if negb (msgt_name =? MACH_MSG_TYPE_PORT_RECEIVE) then mret (IIT_NULL, 0) else
  sp ← is_get space;
  p ← ip_get object;
  let task_imp := if negb (is_task sp =? TASK_NULL) then task_imp_base (is_task sp) else IIT_NULL in
  let boost := negb (is_task sp =? TASK_NULL) && ipc_importance_task_is_any_receiver_type task_imp in
  _ ← mwhen boost (log (ImportanceReference task_imp));
  _ ← massert (ip_tempowner p);
  _ ← ip_mod object (set_ip_tempowner false);
  mret (task_imp, if boost then ip_impcount p else 0).

(** The entry to copy out to under the given name: [inl] the error *)
Definition copyout_name_entry (space object msgt_name name entry : Z) : K (kern_return_t + unit) :=
  found ← (if negb (msgt_name =? MACH_MSG_TYPE_PORT_SEND_ONCE)
           then ipc_right_reverse space object else mret None);
  match found with
  | Some (oname, oentry) =>
    if negb (name =? oname) then
      e ← ie_get space entry;
      _ ← mwhen (IE_BITS_TYPE (ie_bits e) =? MACH_PORT_TYPE_NONE) (entry_dealloc space name entry);
      mret (inl KERN_RIGHT_EXISTS)
    else
      _ ← massert (entry =? oentry);
      e ← ie_get space entry;
      _ ← massert (has (ie_bits e) MACH_PORT_TYPE_SEND_RECEIVE);
      mret (inr tt)
  | None =>
    inuse ← ipc_right_inuse space name entry;
    if inuse : bool then mret (inl KERN_NAME_EXISTS) else
    e ← ie_get space entry;
    _ ← massert (IE_BITS_TYPE (ie_bits e) =? MACH_PORT_TYPE_NONE);
    _ ← massert (ie_object e =? IO_NULL);
    bits ← io_bits object;
    if negb (io_bits_active bits) then
      _ ← entry_dealloc space name entry;
      mret (inl KERN_INVALID_CAPABILITY)
    else
      _ ← ie_mod space entry (set_ie_object object);
      mret (inr tt)
  end.

Definition ipc_object_copyout_name (space object msgt_name : Z) (overflow : bool) (name : Z)
    : K kern_return_t :=
  _ ← massert (IO_VALID object);
  bits ← io_bits object;
  _ ← massert (io_bits_otype bits =? IOT_PORT);
  r ← entry_alloc_name space name;
  match r with
  | inl kr => mret kr
  | inr entry =>
    r ← copyout_name_entry space object msgt_name name entry;
    match r with
    | inl kr => mret kr
    | inr _ =>
      '(task_imp, assertcnt) ← copyout_name_importance space object msgt_name;
      kr ← ipc_right_copyout space name entry msgt_name overflow object;
      _ ← mwhen (negb (task_imp =? IIT_NULL))
            (_ ← log (ImportanceHold task_imp assertcnt); log (ImportanceRelease task_imp));
      mret kr
    end
  end.

Definition ipc_object_copyout_dest (space object msgt_name : Z) : K Z :=
  _ ← massert (IO_VALID object);
  bits ← io_bits object;
  _ ← massert (io_bits_active bits);
  _ ← io_release object;
  let port := object in
  p ← ip_get port;
  if msgt_name =? MACH_MSG_TYPE_PORT_SEND then
    let name := if ip_receiver p =? space then ip_receiver_name p else MACH_PORT_NULL in
    _ ← massert (0 <? ip_srights p);
    ns ← drop_sright port;
    _ ← send_no_senders ns;
    mret name
  else if msgt_name =? MACH_MSG_TYPE_PORT_SEND_ONCE then
    _ ← massert (0 <? ip_sorights p);
    if ip_receiver p =? space then
      _ ← ip_mod port (set_ip_sorights (ip_sorights p - 1));
      mret (ip_receiver_name p)
    else
      _ ← ip_reference port;
      _ ← ipc_notify_send_once port;
      mret MACH_PORT_NULL
  else fail FPanic.

Definition ipc_object_rename (space oname nname : Z) : K kern_return_t :=
  r ← entry_alloc_name space nname;
  match r with
  | inl kr => mret kr
  | inr nentry =>
    inuse ← ipc_right_inuse space nname nentry;
    if inuse : bool then mret KERN_NAME_EXISTS else
    found ← (if oname =? nname then mret None else in_space space (ipc_entry_lookup oname));
    match found with
    | None => _ ← entry_dealloc space nname nentry; mret KERN_INVALID_NAME
    | Some oentry => ipc_right_rename space oname oentry nname nentry
    end
  end.

(** ** Naked send rights to names (ipc_port.c) *)
Definition ipc_port_copyout_send (sright space : Z) : K Z :=
  if IP_VALID sright then
    r ← ipc_object_copyout space sright MACH_MSG_TYPE_PORT_SEND true;
    match r with
    | inr name => mret name
    | inl kr =>
      _ ← ipc_port_release_send sright;
      mret (if decide (kr = KERN_INVALID_CAPABILITY) then MACH_PORT_DEAD else MACH_PORT_NULL)
    end
  else mret (CAST_MACH_PORT_TO_NAME sright).
End objects.
