(* ===== verification/IpcSpace.v ===== *)
(** * Spaces (osfmk/ipc/ipc_space.c)

    Creating, cleaning and terminating a space. *)

From S2P Require Import IpcTypes IpcHash IpcEntry IpcGrow IpcState IpcPort IpcDestroy IpcRight IpcObject.

(** ** References of spaces (ipc_space.h) *)
Definition is_free (space : Z) : K unit :=
  modify (fun s => set_ks_spaces (delete space (ks_spaces s)) s).

Definition is_reference (space : Z) : K unit :=
  sp ← is_get space;
  _ ← massert ((0 <? is_refs sp) && (is_refs sp <? IS_REFS_MAX));
  is_put space (set_is_bits (is_bits sp + 1) sp).

Definition is_release (space : Z) : K unit :=
  sp ← is_get space;
  _ ← massert (0 <? is_refs sp);
  _ ← is_put space (set_is_bits (is_bits sp - 1) sp);
  mwhen (is_refs sp =? 1)
    (sp ← is_get space; _ ← massert (negb (is_active sp)); is_free space).

(** The table of a new space, with [size] entries: [memset], the [for] loop and the last
    link *)
Definition initial_table (size : Z) : list ipc_entry :=
  map (fun i => mk_ipc_entry 0 IE_BITS_GEN_MASK 0 (if i =? size - 1 then 0 else i + 1)) (seqZ 0 size).

Section spaces.
Context `{!ipc_env}.

(** [initial] is an index into [ipc_table_entries]. *)
Definition ipc_space_create (initial : Z) : K (kern_return_t + Z) :=
  space ← pop_zalloc;
  if space =? IS_NULL then mret (inl KERN_RESOURCE_SHORTAGE) else
  alloc ← pop_kalloc;
  if negb alloc then _ ← is_free space; mret (inl KERN_RESOURCE_SHORTAGE) else
  new_size ← lift (its_size ipc_table_entries initial);
  _ ← is_put space (mk_ipc_space 2 new_size (u32 (new_size - 1)) (initial_table new_size) TASK_NULL
                      (initial + 1) new_size 0);
  mret (inr space).

Definition ipc_space_create_special : K (kern_return_t + Z) :=
  space ← pop_zalloc;
  if space =? IS_NULL then mret (inl KERN_RESOURCE_SHORTAGE) else
  _ ← is_put space (mk_ipc_space (Z.lor IS_INACTIVE 1) 0 0 [] TASK_NULL 0 0 0);
  mret (inr space).

(** [for (index = 0; index < size; index++)]: the first entry in use from [index] *)
Fixpoint first_in_use (table : list ipc_entry) (index : Z) : option (Z * ipc_entry) :=
  match table with
  | [] => None
  | e :: table =>
    if negb (IE_BITS_TYPE (ie_bits e) =? MACH_PORT_TYPE_NONE) then Some (index, e)
    else first_in_use table (index + 1)
  end.

(** Label [retry]: destroy the first entry in use and start again.  Nobody grows the table
    meanwhile. *)
Fixpoint space_clean_loop (fuel : nat) (space : Z) : K unit :=
  sp ← is_get space;
  if negb (is_active sp) then mret tt else
  match first_in_use (take (Z.to_nat (is_table_size sp)) (is_table sp)) 0 with
  | None => mret tt
  | Some (index, e) =>
    let name := MACH_PORT_MAKE index (IE_BITS_GEN (ie_bits e)) in
    _ ← ipc_right_destroy space name index false 0;
    match fuel with
    | O => fail FFuel
    | S fuel => space_clean_loop fuel space
    end
  end.

Definition ipc_space_clean (space : Z) : K unit :=
  sp ← is_get space; space_clean_loop (Z.to_nat (is_table_size sp)) space.

(** [for (index = 0; index < size; index++)], with [count] entries left *)
Fixpoint terminate_loop (count : nat) (space index : Z) : K unit :=
  match count with
  | O => mret tt
  | S count =>
    e ← ie_get space index;
    _ ← mwhen (negb (IE_BITS_TYPE (ie_bits e) =? MACH_PORT_TYPE_NONE))
          (ipc_right_terminate space (MACH_PORT_MAKE index (IE_BITS_GEN (ie_bits e))) index);
    terminate_loop count space (index + 1)
  end.

Definition ipc_space_terminate (space : Z) : K unit :=
  _ ← massert (negb (space =? IS_NULL));
  sp ← is_get space;
  if negb (is_active sp) then mret tt else
  _ ← space_res space is_mark_inactive;
  _ ← terminate_loop (Z.to_nat (is_table_size sp)) space 0;
  sp ← is_get space;
  _ ← is_put space (set_is_table_free 0 (set_is_table_size 0 (set_is_table [] sp)));
  is_release space.
End spaces.
