(* ===== verification/MachPort.v ===== *)
(** * The kernel calls on ports (osfmk/ipc/mach_port.c)

    The routines a task calls on its own name space.  Each looks the name up and hands the
    entry to the layers below.  Memory that carries an array back to the caller is not
    modelled: the array is a list. *)

From S2P Require Import IpcTypes IpcBits IpcTable IpcHash IpcEntry IpcGrow IpcState IpcPort IpcDestroy IpcRight IpcObject.

Definition MACH_MSG_TYPE_PORT_ANY (x : Z) : bool :=
  (MACH_MSG_TYPE_MOVE_RECEIVE <=? x) && (x <=? MACH_MSG_TYPE_MAKE_SEND_ONCE).
Definition MACH_MSG_TYPE_PORT_ANY_RIGHT (x : Z) : bool :=
  (MACH_MSG_TYPE_MOVE_RECEIVE <=? x) && (x <=? MACH_MSG_TYPE_MOVE_SEND_ONCE).

Definition MACH_NOTIFY_SEND_POSSIBLE : Z := 66.
Definition MACH_NOTIFY_PORT_DESTROYED : Z := 69.
Definition MACH_NOTIFY_NO_SENDERS : Z := 70.
Definition MACH_NOTIFY_DEAD_NAME : Z := 72.

(** Flavors of [mach_port_get_attributes] and [mach_port_set_attributes] *)
Definition MACH_PORT_LIMITS_INFO : Z := 1.
Definition MACH_PORT_RECEIVE_STATUS : Z := 2.
Definition MACH_PORT_DNREQUESTS_SIZE : Z := 3.
Definition MACH_PORT_TEMPOWNER : Z := 4.
Definition MACH_PORT_IMPORTANCE_RECEIVER : Z := 5.
Definition MACH_PORT_DENAP_RECEIVER : Z := 6.
Definition MACH_PORT_INFO_EXT : Z := 7.
Definition MACH_PORT_LIMITS_INFO_COUNT : Z := 1.
Definition MACH_PORT_RECEIVE_STATUS_COUNT : Z := 10.
Definition MACH_PORT_DNREQUESTS_SIZE_COUNT : Z := 1.
Definition MACH_PORT_INFO_EXT_COUNT : Z := 17.

Definition MACH_PORT_STATUS_FLAG_TEMPOWNER : Z := 0x01.
Definition MACH_PORT_STATUS_FLAG_GUARDED : Z := 0x02.
Definition MACH_PORT_STATUS_FLAG_STRICT_GUARD : Z := 0x04.
Definition MACH_PORT_STATUS_FLAG_IMP_DONATION : Z := 0x08.
Definition MACH_PORT_STATUS_FLAG_TASKPTR : Z := 0x20.

Definition MPO_CONTEXT_AS_GUARD : Z := 0x01.
Definition MPO_QLIMIT : Z := 0x02.
Definition MPO_TEMPOWNER : Z := 0x04.
Definition MPO_IMPORTANCE_RECEIVER : Z := 0x08.
Definition MPO_INSERT_SEND_RIGHT : Z := 0x10.
Definition MPO_STRICT : Z := 0x20.
Definition MPO_DENAP_RECEIVER : Z := 0x40.

(** Sizes of message structures on a 64-bit kernel *)
Definition MACH_MSG_SIZE_MAX : Z := 0xffffffff.
Definition MAX_TRAILER_SIZE : Z := 68.
Definition LEGACY_HEADER_SIZE_DELTA : Z := 8.
Definition sizeof_mach_msg_base : Z := 36.
Definition sizeof_ool_descriptor32 : Z := 12.
Definition DESC_SIZE_ADJUSTMENT : Z := 4.
Definition ipc_kmsg_max_body_space : Z := 64 * 1024 * 1024 * 3 / 4 - MAX_TRAILER_SIZE.

(** [struct mach_port_qos], less its padding *)
Record mach_port_qos := mk_mach_port_qos {
  qos_name : bool;
  qos_prealloc : bool;
  qos_len : Z;
}.
Definition qos_template : mach_port_qos := mk_mach_port_qos false false 0.

(** [struct mach_port_status] *)
Record mach_port_status := mk_mach_port_status {
  mps_pset : bool;
  mps_seqno : Z;
  mps_mscount : Z;
  mps_qlimit : Z;
  mps_msgcount : Z;
  mps_sorights : Z;
  mps_srights : bool;
  mps_pdrequest : bool;
  mps_nsrequest : bool;
  mps_flags : Z;
}.

(** What [mach_port_get_attributes] leaves in [info] *)
Inductive mach_port_info :=
  | NoInfo
  | LimitsInfo (mpl_qlimit : Z)
  | StatusInfo (status : mach_port_status)
  | SizeInfo (size : Z)
  | ExtInfo (status : mach_port_status) (boost_cnt : Z).

(** [struct mach_port_options], less its padding *)
Record mach_port_options := mk_mach_port_options {
  opt_flags : Z;
  opt_qlimit : Z;
}.

Definition IP_TIMESTAMP_ORDER (one two : Z) : bool := 2 ^ 31 <=? u32 (one - two).

Section calls.
Context `{!ipc_env}.

Definition ipc_port_translate_receive (space name : Z) : K (kern_return_t + Z) :=
  ipc_object_translate space name MACH_PORT_RIGHT_RECEIVE.

(** ** Names and types *)

(** One entry of the answer: the name and its type *)
Definition mach_port_names_helper (timestamp : Z) (e : ipc_entry) (name : Z) : K (Z * Z) :=
  let bits := ie_bits e in
  let request := ie_request e in
  let port := ie_object e in
  '(type, bits) ← (if has bits MACH_PORT_TYPE_RECEIVE then
      _ ← massert (IP_VALID port);
      type ← (if negb (request =? IE_REQ_NONE) then
                p ← ip_get port;
                _ ← massert (ip_active p);
                ipc_port_request_type port name request
              else mret 0);
      mret (type, bits)
    else if has bits MACH_PORT_TYPE_SEND_RIGHTS then
      _ ← massert (IP_VALID port);
      p ← ip_get port;
      reqtype ← (if negb (request =? IE_REQ_NONE) then ipc_port_request_type port name request
                 else mret 0);
      if ip_active p || IP_TIMESTAMP_ORDER timestamp (ip_timestamp p) then mret (reqtype, bits)
      else
        let bits := Z.lor (clr bits IE_BITS_TYPE_MASK) MACH_PORT_TYPE_DEAD_NAME in
        mret (0, if negb (reqtype =? 0) then u32 (bits + 1) else bits)
    else mret (0, bits));
  mret (name, Z.lor type (IE_BITS_TYPE bits)).

(** The loop over the table, from [index] *)
Fixpoint names_loop (timestamp : Z) (table : list ipc_entry) (index : Z) : K (list (Z * Z)) :=
  match table with
  | [] => mret []
  | e :: table =>
    if negb (IE_BITS_TYPE (ie_bits e) =? MACH_PORT_TYPE_NONE) then
      x ← mach_port_names_helper timestamp e (MACH_PORT_MAKE index (IE_BITS_GEN (ie_bits e)));
      l ← names_loop timestamp table (index + 1);
      mret (x :: l)
    else names_loop timestamp table (index + 1)
  end.

(** The four calls that find memory for the two arrays *)
Fixpoint names_memory (calls : nat) : K bool :=
  match calls with
  | O => mret true
  | S calls => ok ← pop_kalloc; if ok : bool then names_memory calls else mret false
  end.

Definition mach_port_names (space : Z) : K (kern_return_t + list (Z * Z)) :=
  if space =? IS_NULL then mret (inl KERN_INVALID_TASK) else
  sp ← is_get space;
  if negb (is_active sp) then mret (inl KERN_INVALID_TASK) else
  memory ← names_memory 4;
  if negb memory then mret (inl KERN_RESOURCE_SHORTAGE) else
  timestamp ← ipc_port_timestamp;
  l ← names_loop timestamp (take (Z.to_nat (is_table_size sp)) (is_table sp)) 0;
  mret (inr l).

Definition mach_port_type (space name : Z) : K (kern_return_t + Z) :=
  if space =? IS_NULL then mret (inl KERN_INVALID_TASK) else
  if name =? MACH_PORT_NULL then mret (inl KERN_INVALID_NAME) else
  if name =? MACH_PORT_DEAD then mret (inr MACH_PORT_TYPE_DEAD_NAME) else
  found ← ipc_right_lookup_write space name;
  match found with
  | inl kr => mret (inl kr)
  | inr entry =>
    '(type, _) ← ipc_right_info space name entry;
    mret (inr (clr type (Z.lor MACH_PORT_TYPE_SPREQUEST MACH_PORT_TYPE_SPREQUEST_DELAYED)))
  end.

Definition mach_port_rename (space oname nname : Z) : K kern_return_t := mret KERN_NOT_SUPPORTED.

(** ** Allocation *)

(** A buffer for a message of this size, or [IKM_NULL].  It comes from the cache of the
    processor, from the zone or from the heap: one answer of the allocator. *)
Definition ipc_kmsg_alloc (msg_and_trailer_size : Z) : K Z :=
  let size := u32 (msg_and_trailer_size - MAX_TRAILER_SIZE) in
  let max_desc := u32 ((size - sizeof_mach_msg_base) / sizeof_ool_descriptor32 * DESC_SIZE_ADJUSTMENT) in
  if ipc_kmsg_max_body_space <? size then mret IKM_NULL else
  if (sizeof_mach_msg_base <? size) && (MACH_MSG_SIZE_MAX - max_desc <? msg_and_trailer_size)
  then mret IKM_NULL else
  kmsg ← pop_zalloc;
  _ ← mwhen (negb (kmsg =? IKM_NULL))
        (modify (fun s => set_ks_kmsgs (<[kmsg := mk_ipc_kmsg 0 0 0 [] IP_NULL IP_NULL 0 0 0]> (ks_kmsgs s)) s));
  mret kmsg.

Definition ipc_kmsg_prealloc (size : Z) : K Z :=
  if MACH_MSG_SIZE_MAX - LEGACY_HEADER_SIZE_DELTA <? size then mret IKM_NULL
  else ipc_kmsg_alloc (size + LEGACY_HEADER_SIZE_DELTA).

Definition ipc_kmsg_set_prealloc (kmsg port : Z) : K unit :=
  k ← ikm_get kmsg;
  _ ← massert (ikm_prealloc k =? IP_NULL);
  _ ← ikm_mod kmsg (set_ikm_prealloc IP_NULL);
  ip_mod port (fun p => set_ip_premsg kmsg (set_ip_bits (Z.lor (ip_bits p) IP_BIT_PREALLOC) p)).

(** The buffer the options ask for: [inl] an error, [inr IKM_NULL] when they ask for none *)
Definition allocate_prealloc (right : Z) (qos : mach_port_qos) : K (kern_return_t + Z) :=
  if negb (qos_prealloc qos) then mret (inr IKM_NULL) else
  if MACH_MSG_SIZE_MAX - MAX_TRAILER_SIZE <? qos_len qos then mret (inl KERN_RESOURCE_SHORTAGE) else
  if negb (right =? MACH_PORT_RIGHT_RECEIVE) then mret (inl KERN_INVALID_VALUE) else
  kmsg ← ipc_kmsg_prealloc (qos_len qos + MAX_TRAILER_SIZE);
  mret (if kmsg =? IKM_NULL then inl KERN_RESOURCE_SHORTAGE else inr kmsg).

Definition allocate_receive (space : Z) (qos : mach_port_qos) (name kmsg : Z) : K (kern_return_t + Z) :=
  r ← (if qos_name qos
       then r ← ipc_port_alloc_name space name;
            mret (match r with inl kr => inl kr | inr port => inr (name, port) end)
       else ipc_port_alloc space);
  match r with
  | inl kr => _ ← mwhen (negb (kmsg =? IKM_NULL)) (ipc_kmsg_free kmsg); mret (inl kr)
  | inr (name, port) =>
    _ ← mwhen (negb (kmsg =? IKM_NULL)) (ipc_kmsg_set_prealloc kmsg port);
    mret (inr name)
  end.

Definition allocate_port_set (space : Z) (qos : mach_port_qos) (name : Z) : K (kern_return_t + Z) :=
  if qos_name qos
  then r ← ipc_pset_alloc_name space name;
       mret (match r with inl kr => inl kr | inr _ => inr name end)
  else r ← ipc_pset_alloc space;
       mret (match r with inl kr => inl kr | inr (name, _) => inr name end).

(** Returns the name. *)
Definition mach_port_allocate_full (space right proto : Z) (qos : mach_port_qos) (name : Z)
    : K (kern_return_t + Z) :=
  if space =? IS_NULL then mret (inl KERN_INVALID_TASK) else
  if negb (proto =? MACH_PORT_NULL) then mret (inl KERN_INVALID_VALUE) else
  if qos_name qos && negb (MACH_PORT_VALID name) then mret (inl KERN_INVALID_VALUE) else
  r ← allocate_prealloc right qos;
  match r with
  | inl kr => mret (inl kr)
  | inr kmsg =>
    if right =? MACH_PORT_RIGHT_RECEIVE then allocate_receive space qos name kmsg else
    if right =? MACH_PORT_RIGHT_PORT_SET then allocate_port_set space qos name else
    if right =? MACH_PORT_RIGHT_DEAD_NAME then ipc_object_alloc_dead space else
    mret (inl KERN_INVALID_VALUE)
  end.

Definition mach_port_allocate_name (space right name : Z) : K kern_return_t :=
  let qos := mk_mach_port_qos true (qos_prealloc qos_template) (qos_len qos_template) in
  if negb (MACH_PORT_VALID name) then mret KERN_INVALID_VALUE else
  r ← mach_port_allocate_full space right MACH_PORT_NULL qos name;
  mret (match r with inl kr => kr | inr _ => KERN_SUCCESS end).

Definition mach_port_allocate (space right : Z) : K (kern_return_t + Z) :=
  mach_port_allocate_full space right MACH_PORT_NULL qos_template MACH_PORT_NULL.

Definition mach_port_allocate_qos (space right : Z) (qos : mach_port_qos) : K (kern_return_t + Z) :=
  if qos_name qos then mret (inl KERN_INVALID_ARGUMENT) else
  mach_port_allocate_full space right MACH_PORT_NULL qos MACH_PORT_NULL.

(** ** References *)

Definition mach_port_destroy (space name : Z) : K kern_return_t :=
  if space =? IS_NULL then mret KERN_INVALID_TASK else
  if negb (MACH_PORT_VALID name) then mret KERN_SUCCESS else
  found ← ipc_right_lookup_write space name;
  match found with
  | inl kr => mret kr
  | inr entry => ipc_right_destroy space name entry true 0
  end.

Definition mach_port_deallocate (space name : Z) : K kern_return_t :=
  if space =? IS_NULL then mret KERN_INVALID_TASK else
  if negb (MACH_PORT_VALID name) then mret KERN_SUCCESS else
  found ← ipc_right_lookup_write space name;
  match found with
  | inl kr => mret kr
  | inr entry => ipc_right_dealloc space name entry
  end.

(** The references of [right] among a name's type and user references *)
Definition get_refs_right (type urefs right : Z) : K Z :=
  if negb (has type (MACH_PORT_TYPE right)) then mret 0 else
  if right =? MACH_PORT_RIGHT_SEND_ONCE then _ ← massert (urefs =? 1); mret 1 else
  if (right =? MACH_PORT_RIGHT_PORT_SET) || (right =? MACH_PORT_RIGHT_RECEIVE) then mret 1 else
  if (right =? MACH_PORT_RIGHT_DEAD_NAME) || (right =? MACH_PORT_RIGHT_SEND)
  then _ ← massert (0 <? urefs); mret urefs
  else fail FPanic.

Definition mach_port_get_refs (space name right : Z) : K (kern_return_t + Z) :=
  if space =? IS_NULL then mret (inl KERN_INVALID_TASK) else
  if MACH_PORT_RIGHT_NUMBER <=? right then mret (inl KERN_INVALID_VALUE) else
  if negb (MACH_PORT_VALID name) then
    mret (if (right =? MACH_PORT_RIGHT_SEND) || (right =? MACH_PORT_RIGHT_SEND_ONCE)
          then inr 1 else inl KERN_INVALID_NAME)
  else
  found ← ipc_right_lookup_write space name;
  match found with
  | inl kr => mret (inl kr)
  | inr entry =>
    '(type, urefs) ← ipc_right_info space name entry;
    n ← get_refs_right type urefs right;
    mret (inr n)
  end.

Definition mach_port_mod_refs (space name right delta : Z) : K kern_return_t :=
  if space =? IS_NULL then mret KERN_INVALID_TASK else
  if MACH_PORT_RIGHT_NUMBER <=? right then mret KERN_INVALID_VALUE else
  if negb (MACH_PORT_VALID name) then
    mret (if (right =? MACH_PORT_RIGHT_SEND) || (right =? MACH_PORT_RIGHT_SEND_ONCE)
          then KERN_SUCCESS else KERN_INVALID_NAME)
  else
  found ← ipc_right_lookup_write space name;
  match found with
  | inl kr => mret kr
  | inr entry => ipc_right_delta space name entry right delta
  end.

(** ** Receive rights *)

(** Run [body] on the port a name's receive right stands for. *)
Definition with_receive {A} (space name : Z) (body : Z -> K (kern_return_t + A)) : K (kern_return_t + A) :=
  found ← ipc_port_translate_receive space name;
  match found with
  | inl kr => mret (inl kr)
  | inr port => body port
  end.

Definition mach_port_set_mscount (space name mscount : Z) : K (kern_return_t + unit) :=
  if space =? IS_NULL then mret (inl KERN_INVALID_TASK) else
  if negb (MACH_PORT_VALID name) then mret (inl KERN_INVALID_RIGHT) else
  with_receive space name (fun port =>
    _ ← ipc_port_set_mscount port mscount; mret (inr tt)).

Definition ipc_mqueue_set_seqno (port seqno : Z) : K unit :=
  ip_mod port (fun p => set_ip_messages (set_imq_seqno seqno (ip_messages p)) p).

Definition mach_port_set_seqno (space name seqno : Z) : K (kern_return_t + unit) :=
  if space =? IS_NULL then mret (inl KERN_INVALID_TASK) else
  if negb (MACH_PORT_VALID name) then mret (inl KERN_INVALID_RIGHT) else
  with_receive space name (fun port =>
    _ ← ipc_mqueue_set_seqno port seqno; mret (inr tt)).

Definition mach_port_get_context (space name : Z) : K (kern_return_t + Z) :=
  if space =? IS_NULL then mret (inl KERN_INVALID_TASK) else
  if negb (MACH_PORT_VALID name) then mret (inl KERN_INVALID_RIGHT) else
  with_receive space name (fun port =>
    p ← ip_get port;
    mret (inr (if ip_strict_guard p then 0 else ip_context p))).

Definition mach_port_set_context (space name context : Z) : K (kern_return_t + unit) :=
  if space =? IS_NULL then mret (inl KERN_INVALID_TASK) else
  if negb (MACH_PORT_VALID name) then mret (inl KERN_INVALID_RIGHT) else
  with_receive space name (fun port =>
    p ← ip_get port;
    if ip_strict_guard p then
      _ ← mach_port_guard_exception name context (ip_context p) kGUARD_EXC_SET_CONTEXT;
      mret (inl KERN_INVALID_ARGUMENT)
    else
      _ ← ip_mod port (set_ip_context context);
      mret (inr tt)).

(** ** Notification requests: the answer is the send-once right registered before. *)
Definition mach_port_request_notification (space name id sync notify : Z) : K (kern_return_t + Z) :=
  if space =? IS_NULL then mret (inl KERN_INVALID_TASK) else
  if notify =? IP_DEAD then mret (inl KERN_INVALID_CAPABILITY) else
  if id =? MACH_NOTIFY_PORT_DESTROYED then
    if negb (sync =? 0) then mret (inl KERN_INVALID_VALUE) else
    if negb (MACH_PORT_VALID name) then mret (inl KERN_INVALID_RIGHT) else
    with_receive space name (fun port =>
      previous ← ipc_port_pdrequest port notify; mret (inr previous))
  else if id =? MACH_NOTIFY_NO_SENDERS then
    if negb (MACH_PORT_VALID name) then mret (inl KERN_INVALID_RIGHT) else
    with_receive space name (fun port =>
      previous ← ipc_port_nsrequest port sync notify; mret (inr previous))
  else if (id =? MACH_NOTIFY_SEND_POSSIBLE) || (id =? MACH_NOTIFY_DEAD_NAME) then
    if negb (MACH_PORT_VALID name) then mret (inl KERN_INVALID_ARGUMENT) else
    ipc_right_request_alloc space name (negb (sync =? 0)) (id =? MACH_NOTIFY_SEND_POSSIBLE) notify
  else mret (inl KERN_INVALID_VALUE).

(** ** Moving rights in and out *)

Definition mach_port_insert_right (space name poly polyPoly : Z) : K kern_return_t :=
  if space =? IS_NULL then mret KERN_INVALID_TASK else
  if negb (MACH_PORT_VALID name) || negb (MACH_MSG_TYPE_PORT_ANY_RIGHT polyPoly)
  then mret KERN_INVALID_VALUE else
  if negb (IO_VALID poly) then mret KERN_INVALID_CAPABILITY else
  ipc_object_copyout_name space poly polyPoly false name.

(** Returns the object and the disposition it has now. *)
Definition mach_port_extract_right (space name msgt_name : Z) : K (kern_return_t + Z * Z) :=
  if space =? IS_NULL then mret (inl KERN_INVALID_TASK) else
  if negb (MACH_MSG_TYPE_PORT_ANY msgt_name) then mret (inl KERN_INVALID_VALUE) else
  if negb (MACH_PORT_VALID name) then mret (inl KERN_INVALID_RIGHT) else
  r ← ipc_object_copyin space name msgt_name;
  mret (match r with
        | inl kr => inl kr
        | inr poly => inr (poly, ipc_object_copyin_type msgt_name)
        end).

(** ** Attributes *)

Definition status_flags (p : ipc_port) : Z :=
  Z.lor
    (if ip_impdonation p then
       Z.lor MACH_PORT_STATUS_FLAG_IMP_DONATION
         (if ip_tempowner p then
            Z.lor MACH_PORT_STATUS_FLAG_TEMPOWNER
              (if negb (ip_imp_task p =? IIT_NULL) then MACH_PORT_STATUS_FLAG_TASKPTR else 0)
          else 0)
     else 0)
    (if ip_guarded p then
       Z.lor MACH_PORT_STATUS_FLAG_GUARDED
         (if ip_strict_guard p then MACH_PORT_STATUS_FLAG_STRICT_GUARD else 0)
     else 0).

Definition mach_port_get_status_helper (p : ipc_port) : mach_port_status :=
  mk_mach_port_status (ip_in_pset p) (imq_seqno (ip_messages p)) (ip_mscount p)
    (imq_qlimit (ip_messages p)) (imq_msgcount (ip_messages p)) (ip_sorights p)
    (0 <? ip_srights p) (negb (ip_pdrequest p =? IP_NULL)) (negb (ip_nsrequest p =? IP_NULL))
    (status_flags p).

(** [count] is the room in [info]; the answer has the words used. *)
Definition mach_port_get_attributes (space name flavor count : Z) : K (kern_return_t + mach_port_info * Z) :=
  if space =? IS_NULL then mret (inl KERN_INVALID_TASK) else
  if flavor =? MACH_PORT_LIMITS_INFO then
    if count <? MACH_PORT_LIMITS_INFO_COUNT then mret (inl KERN_FAILURE) else
    if negb (MACH_PORT_VALID name) then mret (inr (NoInfo, 0)) else
    with_receive space name (fun port =>
      p ← ip_get port;
      mret (inr (LimitsInfo (imq_qlimit (ip_messages p)), MACH_PORT_LIMITS_INFO_COUNT)))
  else if flavor =? MACH_PORT_RECEIVE_STATUS then
    if count <? MACH_PORT_RECEIVE_STATUS_COUNT then mret (inl KERN_FAILURE) else
    if negb (MACH_PORT_VALID name) then mret (inl KERN_INVALID_RIGHT) else
    with_receive space name (fun port =>
      p ← ip_get port;
      mret (inr (StatusInfo (mach_port_get_status_helper p), MACH_PORT_RECEIVE_STATUS_COUNT)))
  else if flavor =? MACH_PORT_DNREQUESTS_SIZE then
    if count <? MACH_PORT_DNREQUESTS_SIZE_COUNT then mret (inl KERN_FAILURE) else
    if negb (MACH_PORT_VALID name) then mret (inr (SizeInfo 0, count)) else
    with_receive space name (fun port =>
      p ← ip_get port;
      size ← (match ip_requests p with
              | None => mret 0
              | Some table => h ← lift (ipr_get table 0); lift (its_size ipc_table_requests (ipr_size h))
              end);
      mret (inr (SizeInfo size, MACH_PORT_DNREQUESTS_SIZE_COUNT)))
  else if flavor =? MACH_PORT_INFO_EXT then
    if count <? MACH_PORT_INFO_EXT_COUNT then mret (inl KERN_FAILURE) else
    if negb (MACH_PORT_VALID name) then mret (inl KERN_INVALID_RIGHT) else
    with_receive space name (fun port =>
      p ← ip_get port;
      mret (inr (ExtInfo (mach_port_get_status_helper p) (ip_impcount p), MACH_PORT_INFO_EXT_COUNT)))
  else mret (inl KERN_INVALID_ARGUMENT).

(** The senders a larger limit lets in: each takes a place in the queue. *)
Fixpoint wake_senders (wakeup : nat) (port : Z) : K unit :=
  match wakeup with
  | O => mret tt
  | S wakeup =>
    p ← ip_get port;
    let m := ip_messages p in
    match imq_senders m with
    | [] => ip_put port (set_ip_messages (set_imq_fullwaiters false m) p)
    | th :: senders =>
      _ ← ip_put port (set_ip_messages
            (set_imq_msgcount (u32 (imq_msgcount m + 1)) (set_imq_senders senders m)) p);
      _ ← log (SenderAwakened th);
      wake_senders wakeup port
    end
  end.

Definition ipc_mqueue_set_qlimit (port qlimit : Z) : K unit :=
  _ ← massert (qlimit <=? MACH_PORT_QLIMIT_MAX);
  p ← ip_get port;
  _ ← wake_senders (Z.to_nat (qlimit - imq_qlimit (ip_messages p))) port;
  ip_mod port (fun p => set_ip_messages (set_imq_qlimit qlimit (ip_messages p)) p).

Definition IKOT_NONE : Z := 0.
Definition is_ipc_kobject (kotype : Z) : bool := negb (kotype =? IKOT_NONE).

(** [MACH_PORT_TEMPOWNER]: the port's importance leaves the task that has it. *)
Definition set_tempowner (port : Z) : K (kern_return_t + unit) :=
  p ← ip_get port;
  if is_ipc_kobject (io_bits_kotype (ip_bits p)) then mret (inl KERN_INVALID_ARGUMENT) else
  let owned := ip_tempowner p && negb (ip_imp_task p =? IIT_NULL) in
  let release_imp_task := if owned then ip_imp_task p else IIT_NULL in
  let assertcnt := if owned || negb (ip_tempowner p) then ip_impcount p else 0 in
  _ ← ip_mod port (fun p =>
        let p := if owned then set_ip_imp_task IIT_NULL p else p in
        set_ip_tempowner true (set_ip_impdonation true p));
  _ ← (if negb (release_imp_task =? IIT_NULL) then
         _ ← massert (ipc_importance_task_is_any_receiver_type release_imp_task);
         _ ← mwhen (0 <? assertcnt) (log (ImportanceDrop release_imp_task assertcnt));
         log (ImportanceRelease release_imp_task)
       else
         mwhen (0 <? assertcnt)
           (mwhen (negb (current_task_imp_base =? IIT_NULL)
                   && ipc_importance_task_is_any_receiver_type current_task_imp_base)
              (log (ImportanceDrop current_task_imp_base assertcnt))));
  mret (inr tt).

(** [info] is the first word the caller passes. *)
Definition mach_port_set_attributes (space name flavor info count : Z) : K (kern_return_t + unit) :=
  if space =? IS_NULL then mret (inl KERN_INVALID_TASK) else
  if flavor =? MACH_PORT_LIMITS_INFO then
    if count <? MACH_PORT_LIMITS_INFO_COUNT then mret (inl KERN_FAILURE) else
    if MACH_PORT_QLIMIT_MAX <? info then mret (inl KERN_INVALID_VALUE) else
    if negb (MACH_PORT_VALID name) then mret (inl KERN_INVALID_RIGHT) else
    with_receive space name (fun port => _ ← ipc_mqueue_set_qlimit port info; mret (inr tt))
  else if flavor =? MACH_PORT_DNREQUESTS_SIZE then
    if count <? MACH_PORT_DNREQUESTS_SIZE_COUNT then mret (inl KERN_FAILURE) else
    if negb (MACH_PORT_VALID name) then mret (inl KERN_INVALID_RIGHT) else
    with_receive space name (fun port =>
      kr ← ipc_port_request_grow port info;
      mret (if decide (kr = KERN_SUCCESS) then inr tt else inl kr))
  else if flavor =? MACH_PORT_TEMPOWNER then
    if negb (MACH_PORT_VALID name) then mret (inl KERN_INVALID_RIGHT) else
    with_receive space name set_tempowner
  else if (flavor =? MACH_PORT_DENAP_RECEIVER) || (flavor =? MACH_PORT_IMPORTANCE_RECEIVER) then
    if negb (MACH_PORT_VALID name) then mret (inl KERN_INVALID_RIGHT) else
    with_receive space name (fun port =>
      p ← ip_get port;
      if is_ipc_kobject (io_bits_kotype (ip_bits p)) then mret (inl KERN_INVALID_ARGUMENT) else
      _ ← ip_mod port (set_ip_impdonation true);
      mret (inr tt))
  else mret (inl KERN_INVALID_ARGUMENT).

(** ** Sets *)

(** [waitq_unlink] *)
Definition ipc_mqueue_remove (port pset : Z) : K kern_return_t :=
  p ← ip_get port;
  let links := imq_set_links (ip_messages p) in
  if bool_decide (pset ∈ links) then
    _ ← ip_put port (set_ip_messages (set_imq_set_links (filter (fun l => l <> pset) links) (ip_messages p)) p);
    mret KERN_SUCCESS
  else mret KERN_NOT_IN_SET.

Definition ipc_pset_remove (pset port : Z) : K kern_return_t :=
  p ← ip_get port;
  _ ← massert (ip_active p);
  if negb (ip_in_pset p) then mret KERN_NOT_IN_SET else ipc_mqueue_remove port pset.

Definition mach_port_extract_member (space name psname : Z) : K kern_return_t :=
  if space =? IS_NULL then mret KERN_INVALID_TASK else
  if negb (MACH_PORT_VALID name) || negb (MACH_PORT_VALID psname) then mret KERN_INVALID_RIGHT else
  r ← ipc_object_translate_two space name MACH_PORT_RIGHT_RECEIVE psname MACH_PORT_RIGHT_PORT_SET;
  match r with
  | inl kr => mret kr
  | inr (obj, psobj) =>
    _ ← massert (negb (psobj =? IO_NULL));
    _ ← massert (negb (obj =? IO_NULL));
    ipc_pset_remove psobj obj
  end.

Definition task_set_port_space (space table_entries : Z) : K kern_return_t :=
  sp ← is_get space;
  if negb (is_active sp) then mret KERN_INVALID_TASK else entry_grow_table space table_entries.

(** ** Guards *)

Definition mach_port_guard_locked (port guard : Z) (strict : bool) : K (kern_return_t + unit) :=
  p ← ip_get port;
  if negb (ip_context p =? 0) then mret (inl KERN_INVALID_ARGUMENT) else
  _ ← ip_mod port (fun p => set_ip_strict_guard strict (set_ip_guarded true (set_ip_context guard p)));
  mret (inr tt).

Definition mach_port_unguard_locked (port name guard : Z) : K (kern_return_t + unit) :=
  p ← ip_get port;
  if negb (ip_guarded p) then
    _ ← mach_port_guard_exception name guard 0 kGUARD_EXC_UNGUARDED;
    mret (inl KERN_INVALID_ARGUMENT)
  else if negb (ip_context p =? guard) then
    _ ← mach_port_guard_exception name guard (ip_context p) kGUARD_EXC_INCORRECT_GUARD;
    mret (inl KERN_INVALID_ARGUMENT)
  else
    _ ← ip_mod port (fun p => set_ip_strict_guard false (set_ip_guarded false (set_ip_context 0 p)));
    mret (inr tt).

Definition mach_port_guard (space name guard : Z) (strict : bool) : K (kern_return_t + unit) :=
  if space =? IS_NULL then mret (inl KERN_INVALID_TASK) else
  if negb (MACH_PORT_VALID name) then mret (inl KERN_INVALID_NAME) else
  with_receive space name (fun port => mach_port_guard_locked port guard strict).

Definition mach_port_unguard (space name guard : Z) : K (kern_return_t + unit) :=
  if space =? IS_NULL then mret (inl KERN_INVALID_TASK) else
  if negb (MACH_PORT_VALID name) then mret (inl KERN_INVALID_NAME) else
  with_receive space name (fun port => mach_port_unguard_locked port name guard).

(** ** Construct and destruct *)

Definition mach_port_destruct (space name srdelta guard : Z) : K kern_return_t :=
  if space =? IS_NULL then mret KERN_INVALID_TASK else
  if negb (MACH_PORT_VALID name) then mret KERN_INVALID_NAME else
  found ← ipc_right_lookup_write space name;
  match found with
  | inl kr => mret kr
  | inr entry => ipc_right_destruct space name entry srdelta guard
  end.

(** One attribute of the options, when the flag asks for it *)
Definition construct_attribute (flags flag space name flavor info count : Z) : K (kern_return_t + unit) :=
  if has flags flag then mach_port_set_attributes space name flavor info count else mret (inr tt).

Definition construct_send_right (space name flags : Z) : K (kern_return_t + unit) :=
  if has flags MPO_INSERT_SEND_RIGHT then
    r ← ipc_object_copyin space name MACH_MSG_TYPE_MAKE_SEND;
    match r with
    | inl kr => mret (inl kr)
    | inr port =>
      kr ← mach_port_insert_right space name port MACH_MSG_TYPE_PORT_SEND;
      mret (if decide (kr = KERN_SUCCESS) then inr tt else inl kr)
    end
  else mret (inr tt).

(** Each step runs when those before it succeeded. *)
Definition and_then (m1 m2 : K (kern_return_t + unit)) : K (kern_return_t + unit) :=
  r ← m1; match r with inl kr => mret (inl kr) | inr _ => m2 end.

Definition mach_port_construct (space : Z) (options : mach_port_options) (context : Z)
    : K (kern_return_t + Z) :=
  if space =? IS_NULL then mret (inl KERN_INVALID_TASK) else
  r ← ipc_port_alloc space;
  match r with
  | inl kr => mret (inl kr)
  | inr (name, port) =>
    let flags := opt_flags options in
    _ ← (if has flags MPO_CONTEXT_AS_GUARD then
           r ← mach_port_guard_locked port context (has flags MPO_STRICT);
           massert (match r with inr _ => true | inl _ => false end)
         else ip_mod port (set_ip_context context));
    r ← and_then (construct_attribute flags MPO_QLIMIT space name MACH_PORT_LIMITS_INFO (opt_qlimit options) 1)
       (and_then (construct_attribute flags MPO_TEMPOWNER space name MACH_PORT_TEMPOWNER 0 0)
       (and_then (construct_attribute flags MPO_IMPORTANCE_RECEIVER space name MACH_PORT_IMPORTANCE_RECEIVER 0 0)
       (and_then (construct_attribute flags MPO_DENAP_RECEIVER space name MACH_PORT_DENAP_RECEIVER 0 0)
                 (construct_send_right space name flags))));
    match r with
    | inl kr => _ ← mach_port_destruct space name 0 context; mret (inl kr)
    | inr _ => mret (inr name)
    end
  end.
End calls.
