(* ===== verification/IpcKmsg.v ===== *)
(** * Messages between tasks and the kernel (osfmk/ipc/ipc_kmsg.c, ipc_importance.c)

    Copying a message in turns the names in its header and body into rights that the message
    holds; copying it out turns the rights into names of the receiver's space.  The bytes of
    the buffer are not modelled: what the user wrote is a [mach_msg_user], what the kernel
    keeps is the [ipc_kmsg]; a descriptor is a constructor with its fields, and its size in
    the buffer counts where the code computes with it.  Memory is outside: the calls of the
    VM layer are answered by [vm_env], which may look at the whole state. *)

From S2P Require Import IpcTypes IpcHash IpcEntry IpcGrow IpcState IpcPort IpcDestroy IpcRight IpcObject MachPort.

(** ** Constants (mach/message.h) *)
Definition MACH_MSG_SUCCESS : Z := 0.
Definition MACH_MSG_IPC_SPACE : Z := 0x00002000.
Definition MACH_MSG_VM_SPACE : Z := 0x00001000.
Definition MACH_MSG_IPC_KERNEL : Z := 0x00000800.
Definition MACH_MSG_VM_KERNEL : Z := 0x00000400.
Definition MACH_SEND_INVALID_DEST : Z := 0x10000003.
Definition MACH_SEND_INVALID_VOUCHER : Z := 0x10000005.
Definition MACH_SEND_MSG_TOO_SMALL : Z := 0x10000008.
Definition MACH_SEND_INVALID_REPLY : Z := 0x10000009.
Definition MACH_SEND_INVALID_RIGHT : Z := 0x1000000a.
Definition MACH_SEND_INVALID_MEMORY : Z := 0x1000000c.
Definition MACH_SEND_NO_BUFFER : Z := 0x1000000d.
Definition MACH_SEND_TOO_LARGE : Z := 0x1000000e.
Definition MACH_SEND_INVALID_TYPE : Z := 0x1000000f.
Definition MACH_SEND_INVALID_HEADER : Z := 0x10000010.
Definition MACH_RCV_HEADER_ERROR : Z := 0x1000400b.
Definition MACH_RCV_BODY_ERROR : Z := 0x1000400c.

Definition MACH_SEND_NOTIFY : Z := 0x00000080.
Definition MACH_SEND_ALWAYS : Z := 0x00010000.
Definition MACH_RCV_VOUCHER : Z := 0x00000800.

Definition MACH_MSGH_BITS_ZERO : Z := 0.
Definition MACH_MSGH_BITS_USER : Z := 0x801f1f1f.
Definition MACH_MSGH_BITS_PORTS_MASK : Z := 0x001f1f1f.
Definition MACH_MSGH_BITS_OTHER (bits : Z) : Z := clr bits MACH_MSGH_BITS_PORTS_MASK.
Definition MACH_MSGH_BITS_SET_PORTS (remote local voucher : Z) : Z :=
  Z.lor (Z.lor (Z.land remote 0x1f) (Z.land (Z.shiftl local 8) 0x1f00))
        (Z.land (Z.shiftl voucher 16) 0x1f0000).
Definition MACH_MSGH_BITS_SET (remote local voucher other : Z) : Z :=
  Z.lor (MACH_MSGH_BITS_SET_PORTS remote local voucher) (clr other MACH_MSGH_BITS_PORTS_MASK).
Definition MACH_MSGH_BITS (remote local : Z) : Z := Z.lor remote (Z.shiftl local 8).

Definition MACH_MSG_PORT_DESCRIPTOR : Z := 0.
Definition MACH_MSG_OOL_DESCRIPTOR : Z := 1.
Definition MACH_MSG_OOL_PORTS_DESCRIPTOR : Z := 2.
Definition MACH_MSG_OOL_VOLATILE_DESCRIPTOR : Z := 3.
Definition MACH_MSG_PHYSICAL_COPY : Z := 0.
Definition MACH_MSG_VIRTUAL_COPY : Z := 1.
Definition MACH_MSG_KALLOC_COPY_T : Z := 4.

Definition IKOT_VOUCHER : Z := 37.
Definition INT_MAX : Z := 0x7fffffff.
Definition sizeof_mach_port : Z := 8.
Definition sizeof_mach_port_name : Z := 4.
Definition ipc_kmsg_max_vm_space : Z := 8 * 1024 * 1024 * 7 / 8.
Definition round_page (x : Z) : Z := clr (u64 (x + 0xfff)) 0xfff.

(** A name that is no name, as a port *)
Definition CAST_MACH_NAME_TO_PORT (x : Z) : Z := if x =? MACH_PORT_DEAD then IP_DEAD else x.

(** ** What a user writes and reads *)

(** A descriptor in the user's layout; [UOol] is plain or volatile by its type. *)
Inductive user_descriptor :=
  | UPort (name disposition : Z)
  | UOol (type address size : Z) (deallocate : bool) (copy : Z)
  | UOolPorts (address count disposition : Z) (deallocate : bool) (copy : Z)
  | UOther (type : Z).

(** The header and the descriptors in the buffer, as many as [msgh_descriptor_count] says.
    [msgh_size] and [msgh_voucher_port] are fields of the [ipc_kmsg]. *)
Record mach_msg_user := mk_mach_msg_user {
  um_bits : Z;
  um_remote_port : Z;
  um_local_port : Z;
  um_descriptors : list user_descriptor;
}.

(** The memory of the sender or receiver, and what the VM layer answers *)
Class vm_env := {
  is_task_64bit : bool;
  current_task_is_kernel : bool;
  msg_ool_size_small : Z;
  vm_allocate_copy_map : kstate -> Z -> option Z;                  (** in [ipc_kernel_copy_map] *)
  vm_copyin : kstate -> Z -> Z -> bool;                            (** of bytes; whether it worked *)
  vm_map_copyin : bool -> kstate -> Z -> Z -> bool -> kern_return_t + Z;  (** from the kernel's copy map? *)
  vm_copyinmap : kstate -> Z -> Z -> option (list Z);              (** of names *)
  vm_map_copy_validate_size : kstate -> Z -> Z -> bool;
  vm_map_copyout : kstate -> Z -> kern_return_t + Z;
  mach_vm_allocate : kstate -> Z -> kern_return_t + Z;
  vm_copyoutmap : kstate -> Z -> list Z -> bool;
}.

Section kmsg.
Context `{!ipc_env} `{!vm_env}.

(** ** Circular messages (ipc_importance.c) *)

(** [while (dest != IP_NULL)], over a chain that ends in limbo *)
Fixpoint chain_unlock (fuel : nat) (dest : Z) : K unit :=
  if dest =? IP_NULL then mret tt else
  p ← ip_get dest;
  _ ← massert (ip_active p);
  _ ← massert (ip_receiver_name p =? MACH_PORT_NULL);
  match fuel with
  | O => fail FFuel
  | S fuel => chain_unlock fuel (ip_destination p)
  end.

(** [for (;;)]: every port along the chain takes over the assertions behind it. *)
Fixpoint chain_transfer (fuel : nat) (dest base assertcnt : Z) : K unit :=
  _ ← ipc_port_impcount_delta dest assertcnt;
  if dest =? base then mret tt else
  p ← ip_get dest;
  _ ← massert (ip_active p);
  _ ← massert (ip_receiver_name p =? MACH_PORT_NULL);
  _ ← massert (negb (ip_destination p =? IP_NULL));
  _ ← massert (negb (ip_tempowner p));
  match fuel with
  | O => fail FFuel
  | S fuel => chain_transfer fuel (ip_destination p) base assertcnt
  end.

(** The task at the end of the chain that takes the assertions over *)
Definition transfer_imp_task (base assertcnt : Z) (imp_lock_held : bool) : K Z :=
  p ← ip_get base;
  if ip_active p && (0 <? assertcnt) then
    _ ← massert imp_lock_held;
    imp_task ← base_imp_task base;
    _ ← mwhen (ip_tempowner p && negb (imp_task =? IIT_NULL))
          (massert (ipc_importance_task_is_any_receiver_type imp_task));
    _ ← mwhen (negb (imp_task =? IIT_NULL)) (log (ImportanceReference imp_task));
    mret imp_task
  else mret IIT_NULL.

(** The assertions move from one task to the other. *)
Definition transfer_assertions (imp_task release_imp_task assertcnt : Z) (imp_lock_held : bool) : K unit :=
  let transfer := negb (imp_task =? release_imp_task) in
  _ ← mwhen (negb (imp_task =? IIT_NULL))
        (_ ← massert imp_lock_held; mwhen transfer (log (ImportanceHold imp_task assertcnt)));
  _ ← mwhen (negb (release_imp_task =? IIT_NULL))
        (_ ← massert imp_lock_held; mwhen transfer (log (ImportanceDrop release_imp_task assertcnt)));
  _ ← mwhen (negb (imp_task =? IIT_NULL)) (log (ImportanceRelease imp_task));
  mwhen (negb (release_imp_task =? IIT_NULL)) (log (ImportanceRelease release_imp_task)).

(** The port in limbo goes in transit to [dest]. *)
Definition start_transit (port dest base : Z) (imp_lock_held : bool) : K unit :=
  s ← get;
  p ← ip_get port;
  _ ← massert (ip_active p);
  _ ← massert (ip_receiver_name p =? MACH_PORT_NULL);
  _ ← massert (ip_destination p =? IP_NULL);
  _ ← ip_reference dest;
  _ ← ip_mod port (set_ip_destination dest);
  _ ← massert (ip_tempowner p);
  let release_imp_task := ip_imp_task p in
  _ ← mwhen (negb (release_imp_task =? IIT_NULL)) (ip_mod port (set_ip_imp_task IIT_NULL));
  let assertcnt := ip_impcount p in
  _ ← ip_mod port (set_ip_tempowner false);
  _ ← chain_transfer (chain_fuel s) dest base assertcnt;
  imp_task ← transfer_imp_task base assertcnt imp_lock_held;
  transfer_assertions imp_task release_imp_task assertcnt imp_lock_held.

Definition ipc_importance_check_circularity (port dest : Z) : K bool :=
  _ ← massert (negb (port =? IP_NULL));
  _ ← massert (negb (dest =? IP_NULL));
  if port =? dest then mret true else
  s ← get;
  p ← ip_get port;
  d ← ip_get dest;
  let imp_lock_held := ip_impdonation p || (0 <? ip_impcount p) || ip_in_transit d in
  base ← chain_base (chain_fuel s) dest;
  if port =? base then
    p ← ip_get port;
    _ ← massert (ip_active p);
    _ ← massert (ip_receiver_name p =? MACH_PORT_NULL);
    _ ← massert (ip_destination p =? IP_NULL);
    _ ← chain_unlock (chain_fuel s) dest;
    mret true
  else
    _ ← start_transit port dest base imp_lock_held;
    mret false.

Definition ipc_port_check_circularity (port dest : Z) : K bool := ipc_importance_check_circularity port dest.

(** ** Copyin of the header *)

(** The variables of [ipc_kmsg_copyin_header] *)
Record header_ports := mk_header_ports {
  hp_dest_entry : option Z;
  hp_reply_entry : option Z;
  hp_voucher_entry : option Z;
  hp_dest_port : Z;
  hp_reply_port : Z;
  hp_voucher_port : Z;
  hp_dest_soright : Z;
  hp_reply_soright : Z;
  hp_voucher_soright : Z;
  hp_release_port : Z;
  hp_voucher_release_port : Z;
}.

Definition hp_failed (release : Z) : header_ports :=
  mk_header_ports None None None IO_NULL IO_NULL IP_NULL IP_NULL IP_NULL IP_NULL release IP_NULL.

(** The voucher is a voucher: its entry, if any, and the disposition from there on. *)
Definition header_voucher (space voucher_type voucher_name : Z) : K (option (option Z * Z)) :=
  if voucher_type =? MACH_MSGH_BITS_ZERO then mret (Some (None, voucher_type)) else
  if (voucher_name =? MACH_PORT_DEAD)
     || negb (voucher_type =? MACH_MSG_TYPE_MOVE_SEND) && negb (voucher_type =? MACH_MSG_TYPE_COPY_SEND)
  then mret None else
  if voucher_name =? MACH_PORT_NULL then mret (Some (None, MACH_MSG_TYPE_MOVE_SEND)) else
  found ← in_space space (ipc_entry_lookup voucher_name);
  match found with
  | None => mret None
  | Some entry =>
    e ← ie_get space entry;
    if negb (has (ie_bits e) MACH_PORT_TYPE_SEND) then mret None else
    bits ← io_bits (ie_object e);
    if negb (io_bits_kotype bits =? IKOT_VOUCHER) then mret None
    else mret (Some (Some entry, voucher_type))
  end.

(** Make sure a future copyin of the reply port will succeed: [None] when it will not,
    [Some None] when there is none. *)
Definition header_reply (space reply_name reply_type voucher_name dest_entry : Z) : K (option (option Z)) :=
  if MACH_PORT_VALID reply_name then
    _ ← massert (negb (reply_type =? 0));
    if voucher_name =? reply_name then mret None else
    found ← in_space space (ipc_entry_lookup reply_name);
    match found with
    | None => mret None
    | Some reply_entry =>
      _ ← massert (negb (dest_entry =? reply_entry));
      ok ← ipc_right_copyin_check space reply_name reply_entry reply_type;
      mret (if ok : bool then Some (Some reply_entry) else None)
    end
  else mret (Some None).

(** The delayed copyin of the reply right (guaranteed success) *)
Definition copyin_reply (space reply_name reply_type : Z) (reply_entry : option Z) : K copied :=
  match reply_entry with
  | None => mret (copied_right IO_NULL IP_NULL)
  | Some entry =>
    c ← ipc_right_copyin space reply_name entry reply_type true;
    _ ← massert (ci_assertcnt c =? 0);
    _ ← massert (bool_decide (ci_kr c = KERN_SUCCESS));
    mret c
  end.

(** Destination and voucher have the same name. *)
Definition copyin_dest_voucher (space dest_name dest_type reply_name reply_type voucher_type : Z)
    (voucher_entry : option Z) : K (Z * header_ports) :=
  match voucher_entry with
  | None => mret (MACH_SEND_INVALID_DEST, hp_failed IP_NULL)
  | Some dest_entry =>
    valid ← header_reply space reply_name reply_type dest_name dest_entry;
    match valid with
    | None => mret (MACH_SEND_INVALID_REPLY, hp_failed IP_NULL)
    | Some reply_entry =>
      c ← ipc_right_copyin_two space dest_name dest_entry dest_type voucher_type;
      if negb (bool_decide (ci_kr c = KERN_SUCCESS)) then
        _ ← massert (negb (bool_decide (ci_kr c = KERN_INVALID_CAPABILITY)));
        mret (MACH_SEND_INVALID_DEST, hp_failed (ci_release c))
      else
        _ ← massert (negb (dest_type =? MACH_MSG_TYPE_MAKE_SEND));
        _ ← massert (negb (dest_type =? MACH_MSG_TYPE_MAKE_SEND_ONCE));
        _ ← massert (negb (dest_type =? MACH_MSG_TYPE_MOVE_SEND_ONCE));
        r ← copyin_reply space reply_name reply_type reply_entry;
        let release := match reply_entry with Some _ => ci_release r | None => ci_release c end in
        mret (MACH_MSG_SUCCESS,
          mk_header_ports voucher_entry reply_entry voucher_entry
            (ci_object c) (ci_object r) (ci_object c) (ci_soright c) (ci_soright r) IP_NULL release IP_NULL)
    end
  end.

(** Destination and reply have the same name. *)
Definition copyin_dest_reply (space dest_name dest_type reply_type : Z) : K (Z * header_ports) :=
  found ← in_space space (ipc_entry_lookup dest_name);
  match found with
  | None => mret (MACH_SEND_INVALID_DEST, hp_failed IP_NULL)
  | Some entry =>
    _ ← massert (negb (reply_type =? 0));
    c ← ipc_right_copyin_two space dest_name entry dest_type reply_type;
    if bool_decide (ci_kr c = KERN_INVALID_CAPABILITY) then
      mret (MACH_SEND_INVALID_REPLY, hp_failed (ci_release c))
    else if negb (bool_decide (ci_kr c = KERN_SUCCESS)) then
      mret (MACH_SEND_INVALID_DEST, hp_failed (ci_release c))
    else
      mret (MACH_MSG_SUCCESS,
        mk_header_ports (Some entry) (Some entry) None
          (ci_object c) (ci_object c) IP_NULL (ci_soright c) IP_NULL IP_NULL (ci_release c) IP_NULL)
  end.

(** Destination and reply are independent entries. *)
Definition copyin_dest_and_reply (space dest_name dest_type reply_name reply_type voucher_name : Z)
    (voucher_entry : option Z) : K (Z * header_ports) :=
  found ← in_space space (ipc_entry_lookup dest_name);
  match found with
  | None => mret (MACH_SEND_INVALID_DEST, hp_failed IP_NULL)
  | Some dest_entry =>
    _ ← massert (negb (bool_decide (Some dest_entry = voucher_entry)));
    valid ← header_reply space reply_name reply_type voucher_name dest_entry;
    match valid with
    | None => mret (MACH_SEND_INVALID_REPLY, hp_failed IP_NULL)
    | Some reply_entry =>
      c ← ipc_right_copyin space dest_name dest_entry dest_type false;
      _ ← massert (ci_assertcnt c =? 0);
      if negb (bool_decide (ci_kr c = KERN_SUCCESS)) then
        mret (MACH_SEND_INVALID_DEST, hp_failed (ci_release c))
      else
        _ ← massert (IO_VALID (ci_object c));
        _ ← massert (negb (IP_VALID (ci_release c)));
        r ← copyin_reply space reply_name reply_type reply_entry;
        let release := match reply_entry with Some _ => ci_release r | None => ci_release c end in
        let reply_port := match reply_entry with
                          | Some _ => ci_object r
                          | None => CAST_MACH_NAME_TO_PORT reply_name
                          end in
        mret (MACH_MSG_SUCCESS,
          mk_header_ports (Some dest_entry) reply_entry None
            (ci_object c) reply_port IP_NULL (ci_soright c) (ci_soright r) IP_NULL release IP_NULL)
    end
  end.

(** The voucher comes last, when destination and reply are copied in. *)
Definition copyin_voucher (space voucher_name voucher_type : Z) (voucher_entry : option Z)
    (hp : header_ports) : K header_ports :=
  match voucher_entry with
  | None => mret hp
  | Some entry =>
    c ← ipc_right_copyin space voucher_name entry voucher_type false;
    _ ← massert (ci_assertcnt c =? 0);
    _ ← massert (bool_decide (ci_kr c = KERN_SUCCESS));
    _ ← massert (IP_VALID (ci_object c));
    p ← ip_get (ci_object c);
    _ ← massert (ip_active p);
    mret (mk_header_ports (hp_dest_entry hp) (hp_reply_entry hp) voucher_entry
            (hp_dest_port hp) (hp_reply_port hp) (ci_object c)
            (hp_dest_soright hp) (hp_reply_soright hp) (ci_soright c)
            (hp_release_port hp) (ci_release c))
  end.

(** [if (dest_entry != entry && IE_NULL != entry && IE_BITS_TYPE(entry->ie_bits) == NONE)] *)
Definition dealloc_other (space name : Z) (dest_entry entry : option Z) : K unit :=
  match entry with
  | None => mret tt
  | Some i =>
    if bool_decide (dest_entry = Some i) then mret tt else
    e ← ie_get space i;
    mwhen (IE_BITS_TYPE (ie_bits e) =? MACH_PORT_TYPE_NONE) (entry_dealloc space name i)
  end.

(** The entries that the copyins left empty; the destination's entry if it is still there *)
Definition header_dealloc (space dest_name reply_name voucher_name : Z) (hp : header_ports) : K (option Z) :=
  dest ← mderef (hp_dest_entry hp);
  e ← ie_get space dest;
  dest_entry ← (if IE_BITS_TYPE (ie_bits e) =? MACH_PORT_TYPE_NONE
                then _ ← entry_dealloc space dest_name dest; mret None
                else mret (Some dest));
  _ ← dealloc_other space reply_name dest_entry (hp_reply_entry hp);
  _ ← dealloc_other space voucher_name dest_entry (hp_voucher_entry hp);
  mret dest_entry.

(** Re-arm the send-possible notification: the options, and whether to push a boost. *)
Definition header_sparm (dest_entry : option Z) (space dest_name dest_type dest_port option : Z) : K (Z * bool) :=
  match dest_entry with
  | None => mret (option, false)
  | Some entry =>
    if has option MACH_SEND_NOTIFY && negb (dest_type =? MACH_MSG_TYPE_PORT_SEND_ONCE) then
      e ← ie_get space entry;
      if ie_request e =? IE_REQ_NONE then mret (option, false) else
      _ ← massert (negb (dest_port =? IP_NULL));
      p ← ip_get dest_port;
      if ip_active p && negb (ip_receiver p =? ipc_space_kernel) then
        if ip_full p then
          needboost ← ipc_port_request_sparm dest_port dest_name (ie_request e)
                        (Z.land option MACH_SEND_NOIMPORTANCE);
          mret (option, needboost)
        else mret (Z.lor option MACH_SEND_ALWAYS, false)
      else mret (option, false)
    else mret (option, false)
  end.

(** Labels [invalid_reply] and [invalid_dest] *)
Definition header_failed (hp : header_ports) (reply_name : Z) : K unit :=
  _ ← mwhen (negb (hp_release_port hp =? IP_NULL)) (ip_release (hp_release_port hp));
  _ ← send_port_deleted (hp_reply_soright hp) reply_name;
  _ ← massert (hp_voucher_port hp =? IP_NULL);
  massert (hp_voucher_soright hp =? IP_NULL).

(** From the copied ports to the header of the message; returns the options. *)
Definition header_finish (kmsg space : Z) (hp : header_ports)
    (dest_name dest_type reply_name reply_type voucher_name voucher_type mbits option : Z) : K Z :=
  dest_entry ← header_dealloc space dest_name reply_name voucher_name hp;
  voucher_type ← (if IP_VALID (hp_voucher_port hp) then
                    p ← ip_get (hp_voucher_port hp);
                    _ ← massert (ip_active p);
                    _ ← ikm_mod kmsg (set_ikm_voucher (hp_voucher_port hp));
                    mret MACH_MSG_TYPE_MOVE_SEND
                  else mret voucher_type);
  let dest_type := ipc_object_copyin_type dest_type in
  let reply_type := ipc_object_copyin_type reply_type in
  '(option, needboost) ← header_sparm dest_entry space dest_name dest_type (hp_dest_port hp) option;
  _ ← mwhen needboost
        (_ ← ipc_port_importance_delta (hp_dest_port hp) IPID_OPTION_SENDPOSSIBLE 1; mret tt);
  _ ← send_port_deleted (hp_dest_soright hp) dest_name;
  _ ← send_port_deleted (hp_reply_soright hp) reply_name;
  _ ← send_port_deleted (hp_voucher_soright hp) voucher_name;
  _ ← ikm_mod kmsg (fun k => set_msgh_local_port (hp_reply_port hp) (set_msgh_remote_port (hp_dest_port hp)
        (set_msgh_bits (MACH_MSGH_BITS_SET dest_type reply_type voucher_type mbits) k)));
  _ ← mwhen (negb (hp_release_port hp =? IP_NULL)) (ip_release (hp_release_port hp));
  _ ← mwhen (negb (hp_voucher_release_port hp =? IP_NULL)) (ip_release (hp_voucher_release_port hp));
  mret option.

(** Returns the code and the options. *)
Definition ipc_kmsg_copyin_header (kmsg : Z) (um : mach_msg_user) (space option : Z) : K (Z * Z) :=
  k ← ikm_get kmsg;
  let mbits := Z.land (um_bits um) MACH_MSGH_BITS_USER in
  let dest_name := CAST_MACH_PORT_TO_NAME (um_remote_port um) in
  let reply_name := CAST_MACH_PORT_TO_NAME (um_local_port um) in
  let dest_type := MACH_MSGH_BITS_REMOTE mbits in
  let reply_type := MACH_MSGH_BITS_LOCAL mbits in
  if negb (mbits =? um_bits um) || negb (MACH_MSG_TYPE_PORT_ANY_SEND dest_type)
     || (if reply_type =? 0 then negb (reply_name =? MACH_PORT_NULL)
         else negb (MACH_MSG_TYPE_PORT_ANY_SEND reply_type))
  then mret (MACH_SEND_INVALID_HEADER, option) else
  if negb (MACH_PORT_VALID dest_name) then mret (MACH_SEND_INVALID_DEST, option) else
  sp ← is_get space;
  if negb (is_active sp) then mret (MACH_SEND_INVALID_DEST, option) else
  let voucher_type := MACH_MSGH_BITS_VOUCHER mbits in
  let voucher_name := if voucher_type =? MACH_MSGH_BITS_ZERO then MACH_PORT_NULL else msgh_voucher_port k in
  voucher ← header_voucher space voucher_type voucher_name;
  match voucher with
  | None => mret (MACH_SEND_INVALID_VOUCHER, option)
  | Some (voucher_entry, voucher_type) =>
    '(mr, hp) ← (if dest_name =? voucher_name
                 then copyin_dest_voucher space dest_name dest_type reply_name reply_type voucher_type voucher_entry
                 else if dest_name =? reply_name
                 then copyin_dest_reply space dest_name dest_type reply_type
                 else copyin_dest_and_reply space dest_name dest_type reply_name reply_type voucher_name voucher_entry);
    if negb (mr =? MACH_MSG_SUCCESS) then _ ← header_failed hp reply_name; mret (mr, option) else
    hp ← (if dest_name =? voucher_name then mret hp
          else copyin_voucher space voucher_name voucher_type voucher_entry hp);
    option ← header_finish kmsg space hp dest_name dest_type reply_name reply_type voucher_name voucher_type mbits option;
    mret (MACH_MSG_SUCCESS, option)
  end.

(** ** Copyin of the body *)

Definition ipc_kmsg_copyin_port_descriptor (kmsg space dest name user_disp : Z) : K (Z + mach_msg_descriptor) :=
  let result_disp := ipc_object_copyin_type user_disp in
  if MACH_PORT_VALID name then
    r ← ipc_object_copyin space name user_disp;
    match r with
    | inl _ => mret (inl MACH_SEND_INVALID_RIGHT)
    | inr object =>
      circular ← (if result_disp =? MACH_MSG_TYPE_PORT_RECEIVE
                  then ipc_port_check_circularity object dest else mret false);
      _ ← mwhen circular (ikm_mod kmsg (fun k => set_msgh_bits (Z.lor (msgh_bits k) MACH_MSGH_BITS_CIRCULAR) k));
      mret (inr (PortDescriptor object result_disp))
    end
  else mret (inr (PortDescriptor (CAST_MACH_NAME_TO_PORT name) result_disp)).

(** The copy area left: its address and size *)
Definition copy_area : Type := Z * Z.

Definition ipc_kmsg_copyin_ool_descriptor (type addr length : Z) (dealloc : bool) (copy_options : Z)
    (area : copy_area) : K ((Z + mach_msg_descriptor) * copy_area) :=
  let '(paddr, space_needed) := area in
  s ← get;
  if length =? 0 then mret (inr (OolDescriptor type 0 length copy_options), area) else
  if (msg_ool_size_small <=? length) && (copy_options =? MACH_MSG_PHYSICAL_COPY) && negb dealloc then
    if negb (vm_copyin s addr length) then mret (inl MACH_SEND_INVALID_MEMORY, area) else
    match vm_map_copyin true s paddr length true with
    | inl _ => mret (inl MACH_MSG_VM_KERNEL, area)
    | inr copy => mret (inr (OolDescriptor type copy length copy_options),
                        (paddr + round_page length, space_needed - round_page length))
    end
  else
    match vm_map_copyin false s addr length dealloc with
    | inl kr => mret (inl (if bool_decide (kr = KERN_RESOURCE_SHORTAGE)
                           then MACH_MSG_VM_KERNEL else MACH_SEND_INVALID_MEMORY), area)
    | inr copy => mret (inr (OolDescriptor type copy length copy_options), area)
    end.

(** [for ( i = 0; i < count; i++)], with the objects so far *)
Fixpoint copyin_ports (kmsg space dest user_disp result_disp : Z) (names objects : list Z) : K (option (list Z)) :=
  match names with
  | [] => mret (Some objects)
  | name :: names =>
    if negb (MACH_PORT_VALID name) then
      copyin_ports kmsg space dest user_disp result_disp names (objects ++ [CAST_MACH_NAME_TO_PORT name])
    else
      r ← ipc_object_copyin space name user_disp;
      match r with
      | inl _ => _ ← clean_ports ipc_port_destroy objects result_disp; mret None
      | inr object =>
        circular ← (if result_disp =? MACH_MSG_TYPE_PORT_RECEIVE
                    then ipc_port_check_circularity object dest else mret false);
        _ ← mwhen circular (ikm_mod kmsg (fun k => set_msgh_bits (Z.lor (msgh_bits k) MACH_MSGH_BITS_CIRCULAR) k));
        copyin_ports kmsg space dest user_disp result_disp names (objects ++ [object])
      end
  end.

Definition ipc_kmsg_copyin_ool_ports_descriptor (kmsg space dest addr count user_disp : Z) (deallocate : bool)
    : K (Z + mach_msg_descriptor) :=
  let result_disp := ipc_object_copyin_type user_disp in
  if INT_MAX / sizeof_mach_port <? count then mret (inl MACH_SEND_TOO_LARGE) else
  let ports_length := count * sizeof_mach_port in
  let names_length := count * sizeof_mach_port_name in
  if ports_length =? 0 then mret (inr (OolPortsDescriptor 0 result_disp [])) else
  data ← pop_zalloc;
  if data =? 0 then mret (inl MACH_SEND_NO_BUFFER) else
  s ← get;
  match vm_copyinmap s addr names_length with
  | None => _ ← log (Kfree data); mret (inl MACH_SEND_INVALID_MEMORY)
  | Some names =>
    _ ← mwhen deallocate (log (VmDeallocate addr ports_length));
    r ← copyin_ports kmsg space dest user_disp result_disp names [];
    match r with
    | None => _ ← log (Kfree data); mret (inl MACH_SEND_INVALID_RIGHT)
    | Some objects => mret (inr (OolPortsDescriptor data result_disp objects))
    end
  end.

(** The rights and the memory a message has when its body cannot be copied in are given up:
    the header's and those of the descriptors [desc]. *)
Definition ipc_kmsg_clean_partial (kmsg : Z) (desc : list mach_msg_descriptor) (area : copy_area) : K unit :=
  let '(paddr, length) := area in
  k ← ikm_get kmsg;
  let mbits := msgh_bits k in
  _ ← ipc_importance_clean kmsg;
  _ ← massert (IO_VALID (msgh_remote_port k));
  _ ← ipc_object_destroy_dest (msgh_remote_port k) (MACH_MSGH_BITS_REMOTE mbits);
  _ ← mwhen (IO_VALID (msgh_local_port k))
        (ipc_object_destroy (msgh_local_port k) (MACH_MSGH_BITS_LOCAL mbits));
  _ ← mwhen (IO_VALID (ikm_voucher k))
        (_ ← massert (MACH_MSGH_BITS_VOUCHER mbits =? MACH_MSG_TYPE_MOVE_SEND);
         _ ← ipc_object_destroy (ikm_voucher k) MACH_MSG_TYPE_PORT_SEND;
         ikm_mod kmsg (set_ikm_voucher IP_NULL));
  _ ← mwhen (negb (paddr =? 0)) (log (VmDeallocate paddr length));
  ipc_kmsg_clean_body desc.

(** The size of a descriptor in the user's layout *)
Definition user_descriptor_size (d : user_descriptor) : Z :=
  match d with
  | UOol _ _ _ _ _ | UOolPorts _ _ _ _ _ => if is_task_64bit then 16 else 12
  | UPort _ _ | UOther _ => 12
  end.

(** The first pass: [inl] a code, or the space needed and the size of the descriptors *)
Fixpoint body_pass (ds : list user_descriptor) (msgh_size descriptor_size space_needed : Z) : Z + Z * Z :=
  match ds with
  | [] => inr (space_needed, descriptor_size)
  | d :: ds =>
    let descriptor_size := descriptor_size + user_descriptor_size d in
    if msgh_size <? sizeof_mach_msg_base + descriptor_size then inl MACH_SEND_MSG_TOO_SMALL else
    match d with
    | UOol _ _ size deallocate copy =>
      if negb (copy =? MACH_MSG_PHYSICAL_COPY) && negb (copy =? MACH_MSG_VIRTUAL_COPY)
      then inl MACH_SEND_INVALID_TYPE else
      if (msg_ool_size_small <=? size) && (copy =? MACH_MSG_PHYSICAL_COPY) && negb deallocate then
        let needed := u64 (space_needed + round_page size) in
        if needed <=? space_needed then inl MACH_MSG_VM_KERNEL else
        if ipc_kmsg_max_vm_space <? needed then inl MACH_MSG_VM_KERNEL
        else body_pass ds msgh_size descriptor_size needed
      else body_pass ds msgh_size descriptor_size space_needed
    | _ => body_pass ds msgh_size descriptor_size space_needed
    end
  end.

Definition copyin_descriptor (kmsg space dest : Z) (d : user_descriptor) (area : copy_area)
    : K ((Z + mach_msg_descriptor) * copy_area) :=
  match d with
  | UPort name disposition =>
    r ← ipc_kmsg_copyin_port_descriptor kmsg space dest name disposition; mret (r, area)
  | UOol type address size deallocate copy =>
    ipc_kmsg_copyin_ool_descriptor type address size deallocate copy area
  | UOolPorts address count disposition deallocate _ =>
    r ← ipc_kmsg_copyin_ool_ports_descriptor kmsg space dest address count disposition deallocate; mret (r, area)
  | UOther _ => mret (inl MACH_SEND_INVALID_TYPE, area)
  end.

(** The second pass, [for(i=0;i<dsc_count;i++)], with the descriptors so far *)
Fixpoint copyin_descriptors (kmsg space dest : Z) (ds : list user_descriptor) (area : copy_area)
    (done : list mach_msg_descriptor) : K (Z + list mach_msg_descriptor) :=
  match ds with
  | [] => mret (inr done)
  | d :: ds =>
    '(r, area) ← copyin_descriptor kmsg space dest d area;
    match r with
    | inl mr => _ ← ipc_kmsg_clean_partial kmsg done area; mret (inl mr)
    | inr dsc => copyin_descriptors kmsg space dest ds area (done ++ [dsc])
    end
  end.

(** After both passes every descriptor was one the kernel knows, so the message stays complex. *)
Definition ipc_kmsg_copyin_body (kmsg : Z) (um : mach_msg_user) (space : Z) : K Z :=
  k ← ikm_get kmsg;
  let dest := msgh_remote_port k in
  let ds := um_descriptors um in
  if bool_decide (ds = []) then mret MACH_MSG_SUCCESS else
  match body_pass ds (msgh_size k) 0 0 with
  | inl mr => _ ← ipc_kmsg_clean_partial kmsg [] (0, 0); mret mr
  | inr (space_needed, descriptor_size) =>
    s ← get;
    match (if space_needed =? 0 then Some 0 else vm_allocate_copy_map s space_needed) with
    | None => _ ← ipc_kmsg_clean_partial kmsg [] (0, 0); mret MACH_MSG_VM_KERNEL
    | Some paddr =>
      let dsc_adjust := 16 * Z.of_nat (length ds) - descriptor_size in
      _ ← ikm_mod kmsg (fun k => set_msgh_size (u32 (msgh_size k + dsc_adjust)) k);
      r ← copyin_descriptors kmsg space dest ds (paddr, space_needed) [];
      match r with
      | inl mr => mret mr
      | inr done => _ ← ikm_mod kmsg (set_msgh_descriptors done); mret MACH_MSG_SUCCESS
      end
    end
  end.

Definition ipc_kmsg_copyin (kmsg : Z) (um : mach_msg_user) (space option : Z) : K (Z * Z) :=
  let um := mk_mach_msg_user (Z.land (um_bits um) MACH_MSGH_BITS_USER) (um_remote_port um)
              (um_local_port um) (um_descriptors um) in
  '(mr, option) ← ipc_kmsg_copyin_header kmsg um space option;
  if negb (mr =? MACH_MSG_SUCCESS) then mret (mr, option) else
  k ← ikm_get kmsg;
  if negb (has (msgh_bits k) MACH_MSGH_BITS_COMPLEX) then mret (MACH_MSG_SUCCESS, option) else
  mr ← ipc_kmsg_copyin_body kmsg um space;
  mret (mr, option).

(** ** Copyin from the kernel: the message has ports already. *)

Definition kernel_circularity (kmsg object remote disposition : Z) : K unit :=
  circular ← (if disposition =? MACH_MSG_TYPE_PORT_RECEIVE
              then ipc_port_check_circularity object remote else mret false);
  mwhen circular (ikm_mod kmsg (fun k => set_msgh_bits (Z.lor (msgh_bits k) MACH_MSGH_BITS_CIRCULAR) k)).

Fixpoint kernel_ports (kmsg remote name : Z) (objects : list Z) : K unit :=
  match objects with
  | [] => mret tt
  | object :: objects =>
    _ ← mwhen (IO_VALID object)
          (_ ← ipc_object_copyin_from_kernel object name;
           kernel_circularity kmsg object remote (ipc_object_copyin_type name));
    kernel_ports kmsg remote name objects
  end.

Definition kernel_descriptor (kmsg remote : Z) (d : mach_msg_descriptor) : K mach_msg_descriptor :=
  match d with
  | PortDescriptor object name =>
    let disposition := ipc_object_copyin_type name in
    _ ← mwhen (IO_VALID object)
          (_ ← ipc_object_copyin_from_kernel object name;
           r ← ip_get remote;
           mwhen (negb (ip_receiver r =? ipc_space_kernel)) (kernel_circularity kmsg object remote disposition));
    mret (PortDescriptor object disposition)
  | OolDescriptor _ _ _ _ => mret d
  | OolPortsDescriptor address name objects =>
    _ ← kernel_ports kmsg remote name objects;
    mret (OolPortsDescriptor address (ipc_object_copyin_type name) objects)
  | OtherDescriptor _ => fail FPanic
  end.

Fixpoint kernel_descriptors (kmsg remote : Z) (ds : list mach_msg_descriptor) : K (list mach_msg_descriptor) :=
  match ds with
  | [] => mret []
  | d :: ds => d ← kernel_descriptor kmsg remote d; ds ← kernel_descriptors kmsg remote ds; mret (d :: ds)
  end.

Definition ipc_kmsg_copyin_from_kernel (kmsg : Z) : K Z :=
  k ← ikm_get kmsg;
  let bits := msgh_bits k in
  let rname := MACH_MSGH_BITS_REMOTE bits in
  let lname := MACH_MSGH_BITS_LOCAL bits in
  let remote := msgh_remote_port k in
  let local := msgh_local_port k in
  if negb (IO_VALID remote) then mret MACH_SEND_INVALID_DEST else
  _ ← ipc_object_copyin_from_kernel remote rname;
  _ ← mwhen (IO_VALID local) (ipc_object_copyin_from_kernel local lname);
  let common := bits =? Z.lor MACH_MSGH_BITS_COMPLEX (MACH_MSGH_BITS MACH_MSG_TYPE_COPY_SEND 0) in
  let bits := if common
              then Z.lor MACH_MSGH_BITS_COMPLEX (MACH_MSGH_BITS MACH_MSG_TYPE_PORT_SEND 0)
              else Z.lor (MACH_MSGH_BITS_OTHER bits)
                     (MACH_MSGH_BITS (ipc_object_copyin_type rname) (ipc_object_copyin_type lname)) in
  _ ← ikm_mod kmsg (set_msgh_bits bits);
  if negb common && negb (has bits MACH_MSGH_BITS_COMPLEX) then mret MACH_MSG_SUCCESS else
  ds ← kernel_descriptors kmsg remote (msgh_descriptors k);
  _ ← ikm_mod kmsg (set_msgh_descriptors ds);
  mret MACH_MSG_SUCCESS.

(** ** Copyout of the header *)

(** [while(entries_held)]: reserve entries, growing the table; [false] for an error *)
Fixpoint copyout_hold (turns : nat) (space entries_held : Z) : K bool :=
  if entries_held =? 0 then mret true else
  sp ← is_get space;
  if negb (is_active sp) then mret false else
  kr ← in_space space (ipc_entries_hold entries_held);
  if bool_decide (kr = KERN_SUCCESS) then mret true else
  kr ← entry_grow_table space ITS_SIZE_NONE;
  if negb (bool_decide (kr = KERN_SUCCESS)) then mret false else
  match turns with
  | O => fail FFuel
  | S turns => copyout_hold turns space entries_held
  end.

(** Claim a held entry for a port. *)
Definition copyout_claim (space port entries_held : Z) : K (Z * Z) :=
  _ ← massert (0 <? entries_held);
  '(name, entry) ← in_space space ipc_entry_claim;
  e ← ie_get space entry;
  _ ← massert (IE_BITS_TYPE (ie_bits e) =? MACH_PORT_TYPE_NONE);
  _ ← massert (ie_object e =? IO_NULL);
  _ ← ie_mod space entry (set_ie_object port);
  mret (name, entry).

(** The reply port: its name, the port to go on with, the port to release, and the entries
    still held. *)
Definition copyout_reply (space reply reply_type entries_held : Z) : K (Z * Z * Z * Z) :=
  if negb (IP_VALID reply) then mret (CAST_MACH_PORT_TO_NAME reply, reply, IP_NULL, entries_held) else
  found ← (if negb (reply_type =? MACH_MSG_TYPE_PORT_SEND_ONCE) then ipc_right_reverse space reply else mret None);
  place ← (match found with
           | Some (name, entry) =>
             e ← ie_get space entry;
             _ ← massert (has (ie_bits e) MACH_PORT_TYPE_SEND_RECEIVE);
             mret (Some (name, entry, entries_held))
           | None =>
             p ← ip_get reply;
             if negb (ip_active p) then mret None else
             '(name, entry) ← copyout_claim space reply entries_held;
             mret (Some (name, entry, entries_held - 1))
           end);
  match place with
  | None => mret (MACH_PORT_DEAD, IP_DEAD, reply, entries_held)
  | Some (name, entry, entries_held) =>
    _ ← ip_reference reply;
    kr ← ipc_right_copyout space name entry reply_type true reply;
    _ ← massert (bool_decide (kr = KERN_SUCCESS));
    mret (name, reply, IP_NULL, entries_held)
  end.

(** The voucher: its name, its disposition and the port to release *)
Definition copyout_voucher (kmsg space voucher voucher_type option entries_held : Z) : K (Z * Z * Z) :=
  if voucher_type =? MACH_MSGH_BITS_ZERO then
    k ← ikm_get kmsg; mret (msgh_voucher_port k, voucher_type, IP_NULL)
  else
  _ ← massert (voucher_type =? MACH_MSG_TYPE_MOVE_SEND);
  if negb (IP_VALID voucher) then
    mret (MACH_PORT_NULL, if has option MACH_RCV_VOUCHER then voucher_type else MACH_MSGH_BITS_ZERO, IP_NULL)
  else
  _ ← ikm_mod kmsg (set_ikm_voucher IP_NULL);
  if negb (has option MACH_RCV_VOUCHER) then mret (MACH_PORT_NULL, MACH_MSGH_BITS_ZERO, voucher) else
  found ← ipc_right_reverse space voucher;
  '(name, entry) ← (match found with
                    | Some (name, entry) =>
                      e ← ie_get space entry;
                      _ ← massert (has (ie_bits e) MACH_PORT_TYPE_SEND);
                      mret (name, entry)
                    | None => copyout_claim space voucher entries_held
                    end);
  p ← ip_get voucher;
  _ ← massert (ip_active p);
  _ ← massert (io_bits_kotype (ip_bits p) =? IKOT_VOUCHER);
  _ ← ipc_right_copyout space name entry MACH_MSG_TYPE_MOVE_SEND true voucher;
  mret (name, voucher_type, IP_NULL).

(** The name of the destination for its receiver; the right and its reference are consumed. *)
Definition copyout_header_dest (space dest dest_type reply : Z) : K Z :=
  d ← ip_get dest;
  if ip_active d then ipc_object_copyout_dest space dest dest_type else
  _ ← ip_release dest;
  if IP_VALID reply then
    r ← ip_get reply;
    mret (if ip_active r || IP_TIMESTAMP_ORDER (ip_timestamp d) (ip_timestamp r)
          then MACH_PORT_DEAD else MACH_PORT_NULL)
  else mret MACH_PORT_DEAD.

(** [inl] a code, or the header as the receiver sees it.  The message keeps its body. *)
Definition ipc_kmsg_copyout_header (kmsg space option : Z) : K (Z + mach_msg_user) :=
  k ← ikm_get kmsg;
  let mbits := msgh_bits k in
  let dest := msgh_remote_port k in
  _ ← massert (IP_VALID dest);
  _ ← ipc_port_spnotify dest;
  let dest_type := MACH_MSGH_BITS_REMOTE mbits in
  let reply_type := MACH_MSGH_BITS_LOCAL mbits in
  let voucher_type := MACH_MSGH_BITS_VOUCHER mbits in
  let reply := msgh_local_port k in
  let voucher := ikm_voucher k in
  _ ← mwhen (IP_VALID voucher) (massert (voucher_type =? MACH_MSG_TYPE_MOVE_SEND));
  let entries_held := (if IP_VALID reply then 1 else 0)
                      + (if IP_VALID voucher && has option MACH_RCV_VOUCHER then 1 else 0) in
  sp ← is_get space;
  let no_space := Z.lor MACH_RCV_HEADER_ERROR MACH_MSG_IPC_SPACE in
  held ← (if IP_VALID reply || IP_VALID voucher then copyout_hold 2 space entries_held
          else mret (is_active sp));
  if negb held then mret (inl no_space) else
  '(reply_name, reply, release_reply, entries_held) ← copyout_reply space reply reply_type entries_held;
  '(voucher_name, voucher_type, release_voucher) ← copyout_voucher kmsg space voucher voucher_type option entries_held;
  dest_name ← copyout_header_dest space dest dest_type reply;
  _ ← mwhen (IP_VALID reply) (ip_release reply);
  _ ← mwhen (IP_VALID release_reply)
        (if reply_type =? MACH_MSG_TYPE_PORT_SEND_ONCE
         then ipc_port_release_sonce release_reply else ipc_port_release_send release_reply);
  _ ← mwhen (IP_VALID release_voucher) (ipc_port_release_send release_voucher);
  let bits := MACH_MSGH_BITS_SET reply_type dest_type voucher_type mbits in
  _ ← ikm_mod kmsg (fun k => set_msgh_voucher_port voucher_name (set_msgh_local_port IP_NULL
        (set_msgh_remote_port IP_NULL (set_msgh_bits bits k))));
  mret (inr (mk_mach_msg_user bits (CAST_MACH_NAME_TO_PORT reply_name) (CAST_MACH_NAME_TO_PORT dest_name) [])).

(** ** Copyout of the body *)

(** The code and the name *)
Definition ipc_kmsg_copyout_object (space object msgt_name : Z) : K (Z * Z) :=
  if negb (IO_VALID object) then mret (MACH_MSG_SUCCESS, CAST_MACH_PORT_TO_NAME object) else
  r ← ipc_object_copyout space object msgt_name true;
  match r with
  | inr name => mret (MACH_MSG_SUCCESS, name)
  | inl kr =>
    _ ← ipc_object_destroy object msgt_name;
    mret (if bool_decide (kr = KERN_INVALID_CAPABILITY) then (MACH_MSG_SUCCESS, MACH_PORT_DEAD) else
          (if bool_decide (kr = KERN_RESOURCE_SHORTAGE) then MACH_MSG_IPC_KERNEL else MACH_MSG_IPC_SPACE,
           MACH_PORT_NULL))
  end.

(** Each returns the code, the descriptor for the receiver and how many bytes of the
    descriptors' room it takes, from the end. *)
Definition ipc_kmsg_copyout_port_descriptor (space port disp : Z) : K (Z * user_descriptor * Z) :=
  '(mr, name) ← ipc_kmsg_copyout_object space port disp;
  mret (if current_task_is_kernel then (mr, UPort (CAST_MACH_NAME_TO_PORT name) disp, 16)
        else (mr, UPort (CAST_MACH_PORT_TO_NAME name) disp, 12)).

Definition ipc_kmsg_copyout_ool_descriptor (type copy size copy_options : Z) : K (Z * user_descriptor * Z) :=
  _ ← massert (negb (copy_options =? MACH_MSG_KALLOC_COPY_T));
  '(mr, rcv_addr, size) ← (if negb (copy =? 0) then
      s ← get;
      if negb (vm_map_copy_validate_size s copy size) then fail FPanic else
      match vm_map_copyout s copy with
      | inr rcv_addr => mret (MACH_MSG_SUCCESS, rcv_addr, size)
      | inl kr =>
        _ ← log (VmMapCopyDiscard copy);
        mret (if bool_decide (kr = KERN_RESOURCE_SHORTAGE) then MACH_MSG_VM_KERNEL else MACH_MSG_VM_SPACE, 0, 0)
      end
    else mret (MACH_MSG_SUCCESS, 0, 0));
  let deallocate := copy_options =? MACH_MSG_VIRTUAL_COPY in
  mret (if current_task_is_kernel then (mr, UOol type rcv_addr size deallocate copy_options, 16)
        else if is_task_64bit then (mr, UOol type rcv_addr size deallocate copy_options, 16)
        else (mr, UOol type (u32 rcv_addr) size deallocate copy_options, 12)).

(** [for ( i = 0; i < count ; i++)]: the codes so far and the names *)
Fixpoint copyout_ports (space disp : Z) (objects : list Z) (mr : Z) : K (Z * list Z) :=
  match objects with
  | [] => mret (mr, [])
  | object :: objects =>
    '(mr1, name) ← ipc_kmsg_copyout_object space object disp;
    '(mr, names) ← copyout_ports space disp objects (Z.lor mr mr1);
    mret (mr, name :: names)
  end.

(** For the kernel's own task two descriptors are written: there is no [else] before the test
    for 64 bits. *)
Definition ipc_kmsg_copyout_ool_ports_descriptor (space address disp : Z) (objects : list Z)
    : K (Z * user_descriptor * Z) :=
  let count := Z.of_nat (length objects) in
  '(mr, rcv_addr) ← (if negb (count * sizeof_mach_port =? 0) && negb (address =? 0) then
      s ← get;
      match mach_vm_allocate s (count * sizeof_mach_port_name) with
      | inl kr =>
        _ ← ipc_kmsg_clean_body [OolPortsDescriptor address disp objects];
        mret (if bool_decide (kr = KERN_RESOURCE_SHORTAGE) then MACH_MSG_VM_KERNEL else MACH_MSG_VM_SPACE, 0)
      | inr rcv_addr =>
        if rcv_addr =? 0 then mret (MACH_MSG_SUCCESS, 0) else
        '(mr, names) ← copyout_ports space disp objects MACH_MSG_SUCCESS;
        s ← get;
        _ ← log (CopyOutMap rcv_addr names);
        _ ← log (Kfree address);
        mret (if vm_copyoutmap s rcv_addr names then mr else Z.lor mr MACH_MSG_VM_SPACE, rcv_addr)
      end
    else mret (MACH_MSG_SUCCESS, 0));
  let size := (if current_task_is_kernel then 16 else 0) + (if is_task_64bit then 16 else 12) in
  mret (mr, UOolPorts (if is_task_64bit then rcv_addr else u32 rcv_addr) count disp true MACH_MSG_VIRTUAL_COPY, size).

Definition copyout_descriptor (space : Z) (d : mach_msg_descriptor) : K (Z * user_descriptor * Z) :=
  match d with
  | PortDescriptor port disp => ipc_kmsg_copyout_port_descriptor space port disp
  | OolDescriptor type address size copy => ipc_kmsg_copyout_ool_descriptor type address size copy
  | OolPortsDescriptor address disp objects => ipc_kmsg_copyout_ool_ports_descriptor space address disp objects
  | OtherDescriptor _ => fail FPanic
  end.

(** [for (i = dsc_count-1; i >= 0; i--)]: the last descriptor first *)
Fixpoint copyout_descriptors (space : Z) (ds : list mach_msg_descriptor) : K (Z * list user_descriptor * Z) :=
  match ds with
  | [] => mret (MACH_MSG_SUCCESS, [], 0)
  | d :: ds =>
    '(mr, uds, size) ← copyout_descriptors space ds;
    '(mr1, ud, size1) ← copyout_descriptor space d;
    mret (Z.lor mr mr1, ud :: uds, size + size1)
  end.

(** The code, and the descriptors the receiver sees *)
Definition ipc_kmsg_copyout_body (kmsg space : Z) : K (Z * list user_descriptor) :=
  k ← ikm_get kmsg;
  let ds := msgh_descriptors k in
  '(mr, uds, size) ← copyout_descriptors space ds;
  let dsc_adjust := 16 * Z.of_nat (length ds) - size in
  _ ← ikm_mod kmsg (fun k => set_msgh_size (u32 (msgh_size k - dsc_adjust)) (set_msgh_descriptors [] k));
  mret (mr, uds).

Definition descriptor_shrinks (d : mach_msg_descriptor) : Z :=
  match d with
  | OolDescriptor _ _ _ _ | OolPortsDescriptor _ _ _ => if is_task_64bit then 0 else DESC_SIZE_ADJUSTMENT
  | PortDescriptor _ _ => DESC_SIZE_ADJUSTMENT
  | OtherDescriptor _ => 0
  end.

Definition ipc_kmsg_copyout_size (k : ipc_kmsg) : Z :=
  let send_size := u32 (msgh_size k - LEGACY_HEADER_SIZE_DELTA) in
  if has (msgh_bits k) MACH_MSGH_BITS_COMPLEX
  then fold_left (fun size d => u32 (size - descriptor_shrinks d)) (msgh_descriptors k) send_size
  else send_size.

(** The code, and the message as the receiver sees it when the header could be copied out *)
Definition ipc_kmsg_copyout (kmsg space option : Z) : K (Z + Z * mach_msg_user) :=
  r ← ipc_kmsg_copyout_header kmsg space option;
  match r with
  | inl mr => mret (inl mr)
  | inr um =>
    if has (um_bits um) MACH_MSGH_BITS_COMPLEX then
      '(mr, uds) ← ipc_kmsg_copyout_body kmsg space;
      mret (inr (if mr =? MACH_MSG_SUCCESS then mr else Z.lor mr MACH_RCV_BODY_ERROR,
                 mk_mach_msg_user (um_bits um) (um_remote_port um) (um_local_port um) uds))
    else mret (inr (MACH_MSG_SUCCESS, um))
  end.

(** ** The other ways out *)

Definition ipc_kmsg_copyout_pseudo (kmsg space : Z) : K (Z * mach_msg_user) :=
  k ← ikm_get kmsg;
  let mbits := msgh_bits k in
  _ ← massert (IO_VALID (msgh_remote_port k));
  _ ← massert (ikm_importance k =? 0);
  _ ← massert (negb (MACH_MSGH_BITS_RAISED_IMPORTANCE mbits));
  '(mr1, dest_name) ← ipc_kmsg_copyout_object space (msgh_remote_port k) (MACH_MSGH_BITS_REMOTE mbits);
  '(mr2, reply_name) ← ipc_kmsg_copyout_object space (msgh_local_port k) (MACH_MSGH_BITS_LOCAL mbits);
  let bits := Z.land mbits MACH_MSGH_BITS_USER in
  _ ← ikm_mod kmsg (fun k => set_msgh_local_port IP_NULL (set_msgh_remote_port IP_NULL (set_msgh_bits bits k)));
  mr3 ← (if IO_VALID (ikm_voucher k) then
           _ ← massert (MACH_MSGH_BITS_VOUCHER mbits =? MACH_MSG_TYPE_MOVE_SEND);
           _ ← ikm_mod kmsg (set_ikm_voucher IP_NULL);
           '(mr3, voucher_name) ← ipc_kmsg_copyout_object space (ikm_voucher k) (MACH_MSGH_BITS_VOUCHER mbits);
           _ ← ikm_mod kmsg (set_msgh_voucher_port voucher_name);
           mret mr3
         else mret MACH_MSG_SUCCESS);
  '(mr4, uds) ← (if has mbits MACH_MSGH_BITS_COMPLEX then ipc_kmsg_copyout_body kmsg space
                 else mret (MACH_MSG_SUCCESS, []));
  mret (Z.lor (Z.lor (Z.lor mr1 mr2) mr3) mr4,
        mk_mach_msg_user bits (CAST_MACH_NAME_TO_PORT dest_name) (CAST_MACH_NAME_TO_PORT reply_name) uds).

(** The destination's name, or [MACH_PORT_DEAD] for a dead destination *)
Definition copyout_dest_name (space dest dest_type : Z) : K Z :=
  bits ← io_bits dest;
  if io_bits_active bits then ipc_object_copyout_dest space dest dest_type else
  _ ← io_release dest; mret MACH_PORT_DEAD.

Definition ipc_kmsg_copyout_dest (kmsg space : Z) : K mach_msg_user :=
  k ← ikm_get kmsg;
  let mbits := msgh_bits k in
  let dest_type := MACH_MSGH_BITS_REMOTE mbits in
  let reply_type := MACH_MSGH_BITS_LOCAL mbits in
  let voucher_type := MACH_MSGH_BITS_VOUCHER mbits in
  let reply := msgh_local_port k in
  _ ← massert (IO_VALID (msgh_remote_port k));
  _ ← massert (ikm_importance k =? 0);
  _ ← massert (negb (MACH_MSGH_BITS_RAISED_IMPORTANCE mbits));
  dest_name ← copyout_dest_name space (msgh_remote_port k) dest_type;
  reply_name ← (if IO_VALID reply then _ ← ipc_object_destroy reply reply_type; mret MACH_PORT_NULL
                else mret (CAST_MACH_PORT_TO_NAME reply));
  _ ← mwhen (IO_VALID (ikm_voucher k))
        (_ ← massert (voucher_type =? MACH_MSG_TYPE_MOVE_SEND);
         _ ← ikm_mod kmsg (set_ikm_voucher IP_NULL);
         _ ← ipc_object_destroy (ikm_voucher k) voucher_type;
         ikm_mod kmsg (set_msgh_voucher_port MACH_PORT_NULL));
  let bits := MACH_MSGH_BITS_SET reply_type dest_type voucher_type mbits in
  _ ← ikm_mod kmsg (fun k => set_msgh_local_port IP_NULL (set_msgh_remote_port IP_NULL (set_msgh_bits bits k)));
  _ ← mwhen (has mbits MACH_MSGH_BITS_COMPLEX)
        (_ ← ipc_kmsg_clean_body (msgh_descriptors k); ikm_mod kmsg (set_msgh_descriptors []));
  mret (mk_mach_msg_user bits (CAST_MACH_NAME_TO_PORT reply_name) (CAST_MACH_NAME_TO_PORT dest_name) []).

(** For the kernel itself: the body and the reply port stay in the message, whose header is
    written over. *)
Definition ipc_kmsg_copyout_to_kernel (kmsg space : Z) : K unit :=
  k ← ikm_get kmsg;
  let mbits := msgh_bits k in
  let dest_type := MACH_MSGH_BITS_REMOTE mbits in
  let reply_type := MACH_MSGH_BITS_LOCAL mbits in
  _ ← massert (IO_VALID (msgh_remote_port k));
  dest_name ← copyout_dest_name space (msgh_remote_port k) dest_type;
  let reply_name := CAST_MACH_PORT_TO_NAME (msgh_local_port k) in
  let bits := Z.lor (MACH_MSGH_BITS_OTHER mbits) (MACH_MSGH_BITS reply_type dest_type) in
  ikm_mod kmsg (fun k => set_msgh_remote_port (CAST_MACH_NAME_TO_PORT reply_name)
    (set_msgh_local_port (CAST_MACH_NAME_TO_PORT dest_name) (set_msgh_bits bits k))).
End kmsg.
