(* ===== verification/IpcGentle.v ===== *)
(** * What a thread does to ports it has no right to

    Copying rights in and giving rights up touch many ports, but gently: no port appears,
    none goes in transit or changes its destination, none gets a new receiver, and references
    are added one at a time.  [gentle n m] says this of every run of [m] that returns, with at
    most [n] new references per port; it is proved by going through the definitions, and is
    used where a step has to be taken after an unknown number of others. *)

From S2P Require Import IpcTypes IpcBits IpcHash IpcEntry IpcGrow IpcState IpcPort IpcDestroy IpcRight IpcObject.

(** ** One port, all ports *)

(** The importance field names a task only for a port that is temporarily owned. *)
Definition imp_free (p : ipc_port) : Prop := ip_tempowner p = true \/ ip_imp_task p = IIT_NULL.

Record tame_port (n : Z) (p p' : ipc_port) : Prop := {
  tp_refs : ip_references p' <= ip_references p + n;
  tp_active : ip_active p' = true -> ip_active p = true;
  tp_transit : ip_in_transit p' = true -> ip_in_transit p = true /\ ip_destination p' = ip_destination p;
  tp_imp : imp_free p -> imp_free p';
  tp_home : ip_active p' = true -> ip_receiver_name p' <> MACH_PORT_NULL ->
    ip_receiver p' = ip_receiver p /\ ip_receiver_name p' = ip_receiver_name p;
}.

Definition tame (n : Z) (P P' : gmap Z ipc_port) : Prop :=
  forall o p', P' !! o = Some p' -> exists p, P !! o = Some p /\ tame_port n p p'.

Lemma tame_port_refl n p : 0 <= n -> tame_port n p p.
Proof. intros Hn. split; try done. lia. Qed.

Lemma tame_port_trans n1 n2 p1 p2 p3 : tame_port n1 p1 p2 -> tame_port n2 p2 p3 -> tame_port (n1 + n2) p1 p3.
Proof.
  intros [R1 A1 T1 I1 H1] [R2 A2 T2 I2 H2]. split; [lia|auto| |auto|].
  - intros Ht. destruct (T2 Ht) as [Ht2 Hd]. destruct (T1 Ht2). split; congruence.
  - intros Ha Hn. destruct (H2 Ha Hn) as [Hr Hm]. rewrite Hm in Hn. destruct (H1 (A2 Ha) Hn). split; congruence.
Qed.

Lemma tame_refl n P : 0 <= n -> tame n P P.
Proof. intros Hn o p Ho. exists p. split; [done|by apply tame_port_refl]. Qed.

Lemma tame_trans n1 n2 P1 P2 P3 : tame n1 P1 P2 -> tame n2 P2 P3 -> tame (n1 + n2) P1 P3.
Proof.
  intros H1 H2 o p3 H. destruct (H2 o p3 H) as (p2 & Hp2 & Ht2). destruct (H1 o p2 Hp2) as (p1 & Hp1 & Ht1).
  exists p1. split; [done|by eapply tame_port_trans].
Qed.

Lemma tame_mono n n' P P' : tame n P P' -> n <= n' -> tame n' P P'.
Proof. intros H Hn o p' Ho. destruct (H o p' Ho) as (p & Hp & []). exists p. split; [done|]. split; try done. lia. Qed.

Lemma tame_insert n P o p p' : 0 <= n -> P !! o = Some p -> tame_port n p p' -> tame n P (<[o := p']> P).
Proof.
  intros Hn Ho Hp x q. rewrite lookup_insert. destruct (decide (o = x)) as [<-|]; [intros [= <-]; by exists p|].
  intros Hx. exists q. split; [done|by apply tame_port_refl].
Qed.

Lemma tame_delete n P o : 0 <= n -> tame n P (delete o P).
Proof. intros Hn x q [_ Hx]%lookup_delete_Some. exists q. split; [done|by apply tame_port_refl]. Qed.

(** ** Programs *)

Definition gentle {A} (n : Z) (m : K A) : Prop :=
  forall s a s', m s = Ok (a, s') -> tame n (ks_ports s) (ks_ports s').

Lemma gentle_mono {A} n n' (m : K A) : gentle n m -> n <= n' -> gentle n' m.
Proof. intros H Hn s a s' Hm. by eapply tame_mono; [eapply H|]. Qed.

(** What leaves the ports alone *)
Definition portless {A} (m : K A) : Prop := forall s a s', m s = Ok (a, s') -> ks_ports s' = ks_ports s.

Lemma gentle_portless {A} n (m : K A) : 0 <= n -> portless m -> gentle n m.
Proof. intros Hn H s a s' Hm. rewrite (H s a s' Hm). by apply tame_refl. Qed.

Lemma bind_Ok {A B} (m : K A) (f : A -> K B) s b s' :
  (m ≫= f) s = Ok (b, s') -> exists a s1, m s = Ok (a, s1) /\ f a s1 = Ok (b, s').
Proof. unfold mbind, M_bind. destruct (m s) as [[a s1]|]; [|done]. intros H. by exists a, s1. Qed.

Lemma gentle_bind {A B} n1 n2 (m : K A) (f : A -> K B) :
  gentle n1 m -> (forall a, gentle n2 (f a)) -> gentle (n1 + n2) (m ≫= f).
Proof.
  intros Hm Hf s b s' (a & s1 & H1 & H2)%bind_Ok. eapply tame_trans; [by eapply Hm|by eapply Hf].
Qed.

Lemma gentle_then {A B} n (m : K A) (f : A -> K B) : gentle 0 m -> (forall a, gentle n (f a)) -> gentle n (m ≫= f).
Proof. intros Hm Hf. by apply (gentle_bind 0 n). Qed.

Lemma gentle_first {A B} n (m : K A) (f : A -> K B) : gentle n m -> (forall a, gentle 0 (f a)) -> gentle n (m ≫= f).
Proof. intros Hm Hf. rewrite <- (Z.add_0_r n). by apply gentle_bind. Qed.

Lemma portless_bind {A B} (m : K A) (f : A -> K B) : portless m -> (forall a, portless (f a)) -> portless (m ≫= f).
Proof. intros Hm Hf s b s' (a & s1 & H1 & H2)%bind_Ok. etrans; [by eapply Hf|by eapply Hm]. Qed.

Lemma portless_ret {A} (a : A) : portless (mret a).
Proof. by intros s x s' [= <- <-]. Qed.
Lemma portless_get : portless (get : K kstate).
Proof. by intros s x s' [= <- <-]. Qed.
Lemma portless_fail {A} e : portless (fail e : K A).
Proof. by intros s x s'. Qed.
Lemma portless_assert b : portless (massert b : K unit).
Proof. destruct b; [apply portless_ret|by intros s x s']. Qed.
Lemma portless_lift {A} (r : res A) : portless (lift r : K A).
Proof. destruct r; intros s x s'; by try intros [= <- <-]. Qed.
Lemma portless_mderef {A} (o : option A) : portless (mderef o : K A).
Proof. destruct o; intros s x s'; by try intros [= <- <-]. Qed.
Lemma portless_modify f : (forall s, ks_ports (f s) = ks_ports s) -> portless (modify f : K unit).
Proof. intros Hf s x s' [= <- <-]. apply Hf. Qed.
Lemma portless_mwhen b (m : K unit) : portless m -> portless (mwhen b m).
Proof. destruct b; [done|]. intros _. apply portless_ret. Qed.

Create HintDb gentle.
#[export] Hint Resolve portless_ret portless_get portless_fail portless_assert portless_lift portless_mderef portless_mwhen : gentle.
#[export] Hint Extern 2 (portless (modify _)) => (apply portless_modify; reflexivity) : gentle.

(** Go through a program. *)
Ltac portless :=
  cbv zeta;
  lazymatch goal with
  | |- portless (_ ≫= _) => apply portless_bind; [portless|intros ?; portless]
  | |- portless (mwhen _ _) => apply portless_mwhen; portless
  | |- portless (match ?x with _ => _ end) => destruct x; portless
  | |- _ => first [solve [auto with gentle] | progress autounfold with gentle; portless]
  end.

Lemma portless_ip_get o : portless (ip_get o).
Proof. intros s a s'. unfold ip_get. by destruct (ks_ports s !! o); intros [= <- <-]. Qed.
Lemma portless_ips_get o : portless (ips_get o).
Proof. intros s a s'. unfold ips_get. by destruct (ks_psets s !! o); intros [= <- <-]. Qed.
Lemma portless_ikm_get o : portless (ikm_get o).
Proof. intros s a s'. unfold ikm_get. by destruct (ks_kmsgs s !! o); intros [= <- <-]. Qed.
Lemma portless_is_get o : portless (is_get o).
Proof. intros s a s'. unfold is_get. by destruct (ks_spaces s !! o); intros [= <- <-]. Qed.
#[export] Hint Resolve portless_ip_get portless_ips_get portless_ikm_get portless_is_get : gentle.

Lemma portless_is_put a sp : portless (is_put a sp).
Proof. unfold is_put. portless. Qed.
Lemma portless_ips_mod o f : portless (ips_mod o f).
Proof. unfold ips_mod, ips_put. portless. Qed.
Lemma portless_ikm_mod o f : portless (ikm_mod o f).
Proof. unfold ikm_mod. portless. Qed.
Lemma portless_log e : portless (log e).
Proof. unfold log. portless. Qed.
#[export] Hint Resolve portless_is_put portless_ips_mod portless_ikm_mod portless_log : gentle.

Lemma portless_in_space {A} a (m : M ipc_space A) : portless (in_space a m).
Proof. unfold in_space. portless. Qed.
Lemma portless_space_res a f : portless (space_res a f).
Proof. unfold space_res. portless. Qed.
Lemma portless_io_is_port o : portless (io_is_port o).
Proof. unfold io_is_port. portless. Qed.
#[export] Hint Resolve portless_in_space portless_space_res portless_io_is_port : gentle.
#[export] Hint Unfold ie_get ie_mod entry_modified entry_dealloc hash_insert hash_delete send_port_deleted send_no_senders
  mach_port_guard_exception ipc_notify_port_deleted ipc_notify_send_possible ipc_notify_port_destroyed
  ipc_notify_no_senders ipc_notify_send_once ipc_notify_dead_name : gentle.

Lemma portless_io_bits o : portless (io_bits o).
Proof. unfold io_bits. portless. Qed.
Lemma portless_io_references o : portless (io_references o).
Proof. unfold io_references. portless. Qed.
Lemma portless_pop_zalloc : portless pop_zalloc.
Proof. unfold pop_zalloc. portless. Qed.
Lemma portless_timestamp : portless ipc_port_timestamp.
Proof. unfold ipc_port_timestamp. portless. Qed.
Lemma portless_lookup {env : ipc_env} a name : portless (ipc_right_lookup_write a name).
Proof. unfold ipc_right_lookup_write. portless. Qed.
#[export] Hint Resolve portless_io_bits portless_io_references portless_pop_zalloc portless_timestamp portless_lookup : gentle.

(** *** Changing a port *)
Lemma gentle_ip_mod n o f : 0 <= n -> (forall p, tame_port n p (f p)) -> gentle n (ip_mod o f).
Proof.
  intros Hn Hf s a s' (p & s1 & H1 & H2)%bind_Ok. unfold ip_get in H1. destruct (ks_ports s !! o) as [q|] eqn:Ho; [|done].
  injection H1 as <- <-. injection H2 as <- <-. by eapply tame_insert.
Qed.

(** Two assignments in a row *)
Lemma gentle_ip_mod_mod {A} n o f g (k : unit -> K A) :
  0 <= n -> (forall p, tame_port 0 p (g (f p))) -> (forall u, gentle n (k u)) ->
  gentle n (_ ← ip_mod o f; u ← ip_mod o g; k u).
Proof.
  intros Hn Hf Hk s a s' ([] & s1 & H1 & ([] & s2 & H2 & H3)%bind_Ok)%bind_Ok.
  apply bind_Ok in H1 as (p & s3 & G1 & G2). unfold ip_get in G1. destruct (ks_ports s !! o) as [q|] eqn:Ho; [|done].
  injection G1 as <- <-. injection G2 as <-. apply bind_Ok in H2 as (p & s3 & G1 & G2). unfold ip_get in G1. simpl in G1.
  rewrite lookup_insert_eq in G1. injection G1 as <- <-. injection G2 as <-. apply Hk in H3. simpl in H3.
  rewrite insert_insert_eq in H3. rewrite <- (Z.add_0_l n). eapply tame_trans; [by apply (tame_insert 0 _ o q); [|done|]|done].
Qed.

Lemma gentle_get_put {A} n o f (k : ipc_port -> K A) :
  0 <= n -> (forall p, tame_port 0 p (f p)) -> (forall p, gentle n (k p)) ->
  gentle n (p ← ip_get o; _ ← ip_put o (f p); k p).
Proof.
  intros Hn Hf Hk s a s' (p & s1 & H1 & ([] & s2 & H2 & H3)%bind_Ok)%bind_Ok. unfold ip_get in H1.
  destruct (ks_ports s !! o) as [q|] eqn:Ho; [|done]. injection H1 as <- <-. injection H2 as <-. apply Hk in H3. simpl in H3.
  rewrite <- (Z.add_0_l n). eapply tame_trans; [by apply (tame_insert 0 _ o q); [|done|]|done].
Qed.

Lemma gentle_mwhen n b (m : K unit) : 0 <= n -> gentle n m -> gentle n (mwhen b m).
Proof. intros Hn. destruct b; [done|]. intros _. apply gentle_portless; [done|apply portless_ret]. Qed.

(** A port with other values in fields that do not matter, or in limbo *)
Lemma still_in_limbo p : ip_in_transit (set_ip_destination IP_NULL p) = false.
Proof. unfold ip_in_transit. simpl. by rewrite andb_false_r. Qed.

Ltac tame_port :=
  intros; split; intros; rewrite ?still_in_limbo in *; unfold imp_free in *; simpl in *;
    try done; try lia; try congruence; auto.

Ltac gentle :=
  cbv zeta;
  lazymatch goal with
  | |- gentle ?n (_ ≫= _) =>
    first [ apply gentle_get_put; [lia|solve [tame_port]|intros ?]
          | apply gentle_then; [solve [gentle]|intros ?]
          | apply gentle_ip_mod_mod; [lia|solve [tame_port]|intros ?]
          | apply gentle_first; [solve [gentle]|intros ?] ]; gentle
  | |- gentle _ (mwhen _ _) => apply gentle_mwhen; [lia|gentle]
  | |- gentle _ (ip_mod _ _) => apply gentle_ip_mod; [lia|solve [tame_port]]
  | |- gentle _ (match ?x with _ => _ end) => destruct x; gentle
  | |- _ => first [ solve [auto with gentle]
                  | apply gentle_portless; [lia|solve [portless]]
                  | apply (gentle_mono 0); [solve [auto with gentle]|lia] ]
  end.

(** *** References *)
Lemma gentle_finalize o : gentle 0 (ipc_port_finalize o).
Proof. unfold ipc_port_finalize, ipc_mqueue_deinit. gentle. Qed.
#[export] Hint Resolve gentle_finalize : gentle.

Lemma gentle_io_free t o : gentle 0 (io_free t o).
Proof.
  unfold io_free. destruct (_ =? _); [|gentle]. apply gentle_then; [gentle|]. intros [] s a s' [= <- <-].
  by apply tame_delete.
Qed.
#[export] Hint Resolve gentle_io_free : gentle.

Lemma io_set_references_run o d s s' :
  (refs ← io_references o; _ ← massert ((0 <? refs) && (refs <? IO_MAX_REFERENCES)); io_set_references o (refs + d)) s = Ok (tt, s') ->
  tame (Z.max 0 d) (ks_ports s) (ks_ports s').
Proof.
  intros (refs & s1 & H1 & ([] & s2 & H2 & H3)%bind_Ok)%bind_Ok.
  pose proof (portless_assert _ _ _ _ H2) as HP2. apply bind_Ok in H1 as (b & s3 & G1 & G2).
  pose proof (portless_io_is_port _ _ _ _ G1) as HP3. apply bind_Ok in H3 as (b' & s4 & G3 & G4).
  pose proof (portless_io_is_port _ _ _ _ G3) as HP4.
  assert (HP1 : ks_ports s1 = ks_ports s3).
  { destruct b; apply bind_Ok in G2 as (q' & s6 & E1 & E2); injection E2 as <- <-.
    - by apply portless_ip_get in E1.
    - by apply portless_ips_get in E1. }
  destruct b'.
  - apply bind_Ok in G4 as (p & s5 & F1 & F2). unfold ip_get in F1. destruct (ks_ports s4 !! o) as [q|] eqn:Ho; [|done].
    injection F1 as <- <-. injection F2 as <-. simpl. assert (Hq : ks_ports s !! o = Some q) by congruence.
    assert (Hr : refs = ip_references q).
    { unfold io_is_port in G1. apply bind_Ok in G1 as (x & s6 & E1 & E2). injection E1 as <- <-. rewrite Hq in E2.
      injection E2 as <- <-. apply bind_Ok in G2 as (q' & s6 & E1 & E2). unfold ip_get in E1. rewrite Hq in E1.
      injection E1 as <- <-. by injection E2 as <- <-. }
    rewrite Hr, HP4, HP2, HP1, HP3. eapply tame_insert; [lia|done|]. tame_port.
  - pose proof (portless_ips_mod _ _ _ _ _ G4) as HP5. rewrite HP5, HP4, HP2, HP1, HP3. apply tame_refl. lia.
Qed.

Lemma gentle_io_reference o : gentle 1 (io_reference o).
Proof. intros s [] s' H. by apply (io_set_references_run o 1) in H. Qed.

Lemma gentle_io_release o : gentle 0 (io_release o).
Proof.
  intros s [] s' (refs & s1 & H1 & ([] & s2 & H2 & ([] & s3 & H3 & H4)%bind_Ok)%bind_Ok)%bind_Ok.
  rewrite <- (Z.add_0_r 0). eapply tame_trans.
  - apply (io_set_references_run o (-1)). unfold mbind, M_bind. by rewrite H1, H2.
  - cut (gentle 0 (if refs =? 1 then bits ← io_bits o; io_free (io_bits_otype bits) o else mret tt)); [|gentle].
    intros Hg. by apply (Hg s3 tt s').
Qed.
#[export] Hint Resolve gentle_io_reference gentle_io_release : gentle.

Section operations.
Context {env : ipc_env}.

(** *** Giving rights up *)
Lemma gentle_release_send o : gentle 0 (ipc_port_release_send o).
Proof. unfold ipc_port_release_send. gentle. Qed.
Lemma gentle_release_sonce o : gentle 0 (ipc_port_release_sonce o).
Proof. unfold ipc_port_release_sonce. gentle. Qed.
Hint Resolve gentle_release_send gentle_release_sonce : gentle.

Lemma gentle_destroy_dest o d : gentle 0 (ipc_object_destroy_dest o d).
Proof. unfold ipc_object_destroy_dest. gentle. Qed.
Hint Resolve gentle_destroy_dest : gentle.

Lemma gentle_impcount o d : gentle 0 (ipc_port_impcount_delta o d).
Proof. unfold ipc_port_impcount_delta. gentle. Qed.
Hint Resolve gentle_impcount : gentle.

Lemma portless_chain_base fuel : forall o, portless (chain_base fuel o).
Proof. induction fuel as [|fuel IH]; intros o; simpl; portless. Qed.
Hint Resolve portless_chain_base : gentle.

Lemma gentle_chain_adjust fuel : forall o b d, gentle 0 (chain_adjust fuel o b d).
Proof. induction fuel as [|fuel IH]; intros; simpl; gentle. Qed.
Hint Resolve gentle_chain_adjust : gentle.

Lemma gentle_importance_delta o x d : gentle 0 (ipc_port_importance_delta o x d).
Proof. unfold ipc_port_importance_delta, ipc_port_importance_delta_internal, base_imp_task. gentle. Qed.
Hint Resolve gentle_importance_delta : gentle.

Lemma gentle_importance_clean k : gentle 0 (ipc_importance_clean k).
Proof. unfold ipc_importance_clean. gentle. Qed.
Hint Resolve gentle_importance_clean : gentle.

Lemma gentle_kmsg_free k : gentle 0 (ipc_kmsg_free k).
Proof. unfold ipc_kmsg_free, ikm_delete. gentle. Qed.
Hint Resolve gentle_kmsg_free : gentle.

Section destroy.
Context (destroy : Z -> K unit) (Hd : forall o, gentle 0 (destroy o)).
Hint Resolve Hd : gentle.

Lemma gentle_object_destroy o d : gentle 0 (object_destroy destroy o d).
Proof using Hd. unfold object_destroy, release_receive. gentle. Qed.
Hint Resolve gentle_object_destroy : gentle.

Lemma gentle_clean_ports objects d : gentle 0 (clean_ports destroy objects d).
Proof using Hd. induction objects; simpl; gentle. Qed.
Hint Resolve gentle_clean_ports : gentle.

Lemma gentle_clean_body ds : gentle 0 (kmsg_clean_body destroy ds).
Proof using Hd. induction ds; simpl; unfold clean_descriptor; gentle. Qed.
Hint Resolve gentle_clean_body : gentle.

Lemma gentle_kmsg_clean k : gentle 0 (kmsg_clean destroy k).
Proof using Hd. unfold kmsg_clean. gentle. Qed.
Hint Resolve gentle_kmsg_clean : gentle.

Lemma gentle_reap : gentle 0 (kmsg_reap_delayed destroy).
Proof using Hd.
  unfold kmsg_reap_delayed. apply gentle_then; [gentle|]. intros s. induction (size (ks_kmsgs s)) as [|n IH]; simpl; gentle.
Qed.
End destroy.

(** A port that dies: the time of its death goes where its destination was. *)
Lemma gentle_ip_mod_time {A} n o f g (k : unit -> K A) :
  0 <= n -> (forall p ts, tame_port 0 p (g ts (f p))) -> (forall u, gentle n (k u)) ->
  gentle n (_ ← ip_mod o f; ts ← ipc_port_timestamp; u ← ip_mod o (g ts); k u).
Proof.
  intros Hn Hf Hk s a s' ([] & s1 & H1 & (ts & s2 & H2 & ([] & s3 & H3 & H4)%bind_Ok)%bind_Ok)%bind_Ok.
  pose proof (portless_timestamp _ _ _ H2) as HP2.
  apply bind_Ok in H1 as (p & s4 & G1 & G2). unfold ip_get in G1. destruct (ks_ports s !! o) as [q|] eqn:Ho; [|done].
  injection G1 as <- <-. injection G2 as <-. apply bind_Ok in H3 as (p & s4 & G1 & G2). unfold ip_get in G1.
  rewrite HP2 in G1. simpl in G1. rewrite lookup_insert_eq in G1. injection G1 as <- <-. injection G2 as <-.
  apply Hk in H4. simpl in H4. rewrite HP2 in H4. simpl in H4. rewrite insert_insert_eq in H4.
  rewrite <- (Z.add_0_l n). eapply tame_trans; [by apply (tame_insert 0 _ o q); [|done|]|done].
Qed.

Lemma dead_now p : ip_active (set_ip_bits (clr (ip_bits p) IO_BITS_ACTIVE) p) = false.
Proof.
  unfold ip_active, io_bits_active, has. simpl. apply negb_false_iff, Z.eqb_eq. unfold clr. apply Z.bits_inj'. intros n Hn.
  rewrite Z.land_spec, Z.ldiff_spec, Z.bits_0. by destruct (Z.testbit (ip_bits p) n), (Z.testbit IO_BITS_ACTIVE n).
Qed.

Lemma gentle_destroy_queue l : forall b, portless (destroy_queue l b).
Proof. induction l; intros b; simpl; unfold ipc_kmsg_delayed_destroy; portless. Qed.
Hint Resolve gentle_destroy_queue : gentle.

Lemma gentle_mqueue_destroy r o : gentle 0 r -> gentle 0 (mqueue_destroy r o).
Proof. intros Hr. unfold mqueue_destroy. gentle. Qed.

Lemma gentle_dnnotify o : gentle 0 (ipc_port_dnnotify o).
Proof.
  apply gentle_portless; [done|].
  assert (Hl : forall n rq i, portless (dnnotify_loop n rq i)) by (induction n; intros; simpl; portless).
  unfold ipc_port_dnnotify. portless.
Qed.
Hint Resolve gentle_mqueue_destroy gentle_dnnotify : gentle.

Lemma gentle_destroy_prealloc o : gentle 0 (destroy_prealloc o).
Proof.
  assert (Ha : forall p, ip_active (set_ip_premsg IKM_NULL (set_ip_bits (clr (ip_bits p) IP_BIT_PREALLOC) p)) = ip_active p).
  { intros p. unfold ip_active, io_bits_active, has. simpl. by rewrite land_clr, clr_disjoint. }
  unfold destroy_prealloc. apply gentle_then; [gentle|]. intros p. apply gentle_mwhen; [done|]. cbv zeta.
  do 2 (apply gentle_then; [gentle|]; intros ?). apply gentle_then; [|intros ?; gentle].
  apply gentle_ip_mod; [done|]. intros q. specialize (Ha q). split; try done; [simpl; lia|by rewrite Ha|].
  unfold ip_in_transit. by rewrite Ha.
Qed.
Hint Resolve gentle_destroy_prealloc : gentle.

Lemma gentle_destroy_dead r o : gentle 0 r -> gentle 0 (destroy_dead r o).
Proof.
  intros Hr. unfold destroy_dead. apply gentle_ip_mod_time; [done| |].
  - intros p ts. pose proof (dead_now p) as Hd. split; simpl; try done; [lia|..].
    + unfold ip_active in *. simpl in *. by rewrite Hd.
    + unfold ip_in_transit, ip_active in *. simpl in *. by rewrite Hd.
    + unfold ip_active in *. simpl in *. by rewrite Hd.
  - intros _. unfold ipc_mqueue_deinit, ipc_kobject_destroy. gentle.
Qed.
Hint Resolve gentle_destroy_dead : gentle.

Lemma gentle_port_destroy r o : gentle 0 r -> gentle 0 (port_destroy r o).
Proof. intros Hr. unfold port_destroy, destroy_assertions, drop_assertions, destroy_limbo. gentle. Qed.

Lemma gentle_port_destroy_nested depth : forall o, gentle 0 (port_destroy_nested depth o).
Proof.
  induction depth as [|depth IH]; intros o; simpl; [gentle|]. by apply gentle_port_destroy, gentle_reap.
Qed.

Lemma gentle_destroy o : gentle 0 (ipc_port_destroy o).
Proof. apply gentle_port_destroy_nested. Qed.

(** *** Copying a right in *)
Lemma gentle_ipr_mod o i f : gentle 0 (ipr_mod o i f).
Proof.
  intros s [] s' (p & s1 & H1 & (t & s2 & H2 & (r & s3 & H3 & H4)%bind_Ok)%bind_Ok)%bind_Ok.
  unfold ip_get in H1. destruct (ks_ports s !! o) as [q|] eqn:Ho; [|done]. injection H1 as <- <-.
  apply portless_mderef in H2. apply portless_lift in H3. injection H4 as <-. simpl. rewrite H3, H2.
  eapply tame_insert; [done|done|]. tame_port.
Qed.
Hint Resolve gentle_ipr_mod : gentle.

Lemma gentle_request_cancel a o name i : gentle 0 (ipc_right_request_cancel_macro a o name i).
Proof. unfold ipc_right_request_cancel_macro, ipc_right_request_cancel, ipc_port_request_cancel. gentle. Qed.
Hint Resolve gentle_request_cancel : gentle.

Lemma gentle_right_check a o name i : gentle 0 (ipc_right_check a o name i).
Proof. unfold ipc_right_check, ipc_port_request_type. gentle. Qed.
Hint Resolve gentle_right_check : gentle.

Lemma gentle_copyin_existing move deadok a name i : gentle 0 (copyin_existing move deadok a name i).
Proof. unfold copyin_existing, copyin_dead. gentle. Qed.
Hint Resolve gentle_copyin_existing : gentle.

Lemma gentle_clear_receiver o : gentle 0 (ipc_port_clear_receiver o).
Proof.
  unfold ipc_port_clear_receiver, ipc_pset_remove_from_all, ipc_mqueue_remove_from_all, ipc_mqueue_changed, ipc_port_set_mscount.
  gentle.
Qed.
Hint Resolve gentle_clear_receiver : gentle.

Lemma gentle_right_copyin a name i msgt deadok : gentle 1 (ipc_right_copyin a name i msgt deadok).
Proof.
  unfold ipc_right_copyin, copyin_make_send, copyin_make_send_once, copyin_move_receive, copyin_copy_send, copyin_move_send,
    copyin_move_send_once, copyin_receive. gentle.
Qed.
Hint Resolve gentle_right_copyin : gentle.

Lemma gentle_object_copyin a name msgt : gentle 1 (ipc_object_copyin a name msgt).
Proof. unfold ipc_object_copyin. gentle. Qed.
End operations.
