(* ===== verification/IpcFocus.v ===== *)
(** * Working on one capability

    The state while an operation of ipc_right.c works on one entry of one space.  [kwf s T] is
    the invariant between operations: the ledger balances with the rights [T] held elsewhere,
    and every object, table and entry is in shape.  [focus] is the invariant inside an
    operation: the rights of the entry it works on count as being in its hands, so that the
    entry and the port can be changed one field at a time; [T] says what is to be returned.
    The rules of this file take [focus] through each primitive step. *)

From S2P Require Import IpcTypes IpcBits IpcHash IpcEntry IpcGrow IpcState IpcLedger IpcPort IpcRequest IpcDestroy IpcRight.

(** ** Entries in shape *)

(** What an entry may be: object, type, user references, request *)
Inductive entry_shape : Z -> Z -> Z -> Z -> Prop :=
  | shape_send o u req : o <> IO_NULL -> 0 < u < MACH_PORT_UREFS_MAX -> 0 <= req ->
      entry_shape o MACH_PORT_TYPE_SEND u req
  | shape_receive o req : o <> IO_NULL -> 0 <= req -> entry_shape o MACH_PORT_TYPE_RECEIVE 0 req
  | shape_send_receive o u req : o <> IO_NULL -> 0 < u < MACH_PORT_UREFS_MAX -> 0 <= req ->
      entry_shape o MACH_PORT_TYPE_SEND_RECEIVE u req
  | shape_send_once o req : o <> IO_NULL -> 0 <= req -> entry_shape o MACH_PORT_TYPE_SEND_ONCE 1 req
  | shape_port_set o : o <> IO_NULL -> entry_shape o MACH_PORT_TYPE_PORT_SET 0 IE_REQ_NONE
  | shape_dead_name u : 0 < u <= MACH_PORT_UREFS_MAX ->
      entry_shape IO_NULL MACH_PORT_TYPE_DEAD_NAME u IE_REQ_NONE.

Definition entry_ok (c : Z * Z * Z) : Prop :=
  let '(o, b, req) := c in entry_shape o (IE_BITS_TYPE b) (IE_BITS_UREFS b) req.

Definition core_type (c : Z * Z * Z) : Z := IE_BITS_TYPE c.1.2.

Lemma entry_ok_used c : entry_ok c -> core_type c <> MACH_PORT_TYPE_NONE.
Proof.
  destruct c as [[o b] req]. unfold core_type. simpl. intros Hs Ht. rewrite Ht in Hs. inversion Hs.
Qed.

(** The rights of an entry by its type *)
Definition type_rights (a name o type req : Z) : list right :=
  when (has type 0xf0000) [RRef o]
  ++ when (has type MACH_PORT_TYPE_RECEIVE) [RLive o]
  ++ when (has type MACH_PORT_TYPE_PORT_SET) [RSet o]
  ++ when (has type MACH_PORT_TYPE_SEND) [RSend o]
  ++ when (has type MACH_PORT_TYPE_SEND_ONCE) [RSonce o]
  ++ when (has type MACH_PORT_TYPE_PORT_RIGHTS && negb (req =? IE_REQ_NONE)) [RSlot o req name]
  ++ when (has type MACH_PORT_TYPE_RECEIVE) [RHome o a name]
  ++ when (has type MACH_PORT_TYPE_SEND_RECEIVE) [RName o a].

Lemma core_rights_type a i o b req :
  core_rights a i (o, b, req) = type_rights a (MACH_PORT_MAKE i (IE_BITS_GEN b)) o (IE_BITS_TYPE b) req.
Proof. unfold core_rights, type_rights. by rewrite !(has_type b) by done. Qed.

Lemma core_rights_none a i c : core_type c = MACH_PORT_TYPE_NONE -> core_rights a i c = [].
Proof.
  destruct c as [[o b] req]. unfold core_type. cbn [fst snd]. intros Ht. by rewrite core_rights_type, Ht.
Qed.

(** ** The rights of a table *)

Lemma table_rights_put a t i e r :
  0 <= i < tlen t ->
  cnt r (table_rights a 0 (put t i e)) =
    cnt r (table_rights a 0 t) - cnt r (entry_rights a i (entry_at t i)) + cnt r (entry_rights a i e).
Proof.
  unfold tlen, put, entry_at. intros Hi.
  assert (Hgen : forall n k, (n < length t)%nat ->
    cnt r (table_rights a k (<[n := e]> t)) = cnt r (table_rights a k t)
      - cnt r (entry_rights a (k + Z.of_nat n) (default entry_null (t !! n)))
      + cnt r (entry_rights a (k + Z.of_nat n) e)).
  { clear i Hi. induction t as [|e0 t IH]; intros n k Hn; [simpl in Hn; lia|].
    destruct n as [|n]; simpl; rewrite !cnt_app.
    - rewrite Z.add_0_r. lia.
    - simpl in Hn. rewrite IH by lia. replace (k + 1 + Z.of_nat n) with (k + Z.of_nat (S n)) by lia. lia. }
  rewrite Hgen by lia. by rewrite Z2Nat.id, Z.add_0_l by lia.
Qed.

Lemma table_rights_ext a t t' :
  length t' = length t ->
  (forall j, 0 <= j < tlen t -> entry_rights a j (entry_at t' j) = entry_rights a j (entry_at t j)) ->
  table_rights a 0 t' = table_rights a 0 t.
Proof.
  unfold tlen, entry_at. intros Hlen Hj.
  assert (Hgen : forall k, (forall n, (n < length t)%nat ->
      entry_rights a (k + Z.of_nat n) (default entry_null (t' !! n)) =
      entry_rights a (k + Z.of_nat n) (default entry_null (t !! n))) ->
    table_rights a k t' = table_rights a k t).
  { clear Hj. revert t' Hlen. induction t as [|e t IH]; intros [|e' t'] Hlen k Hn; simpl in *; try done.
    f_equal.
    - specialize (Hn 0%nat ltac:(lia)). simpl in Hn. by rewrite Z.add_0_r in Hn.
    - apply IH; [lia|]. intros n Hlt. specialize (Hn (S n) ltac:(lia)). simpl in Hn.
      by replace (k + Z.of_nat (S n)) with (k + 1 + Z.of_nat n) in Hn by lia. }
  apply Hgen. intros n Hn. specialize (Hj (Z.of_nat n) ltac:(lia)).
  by rewrite Nat2Z.id in Hj.
Qed.

(** ** Every right comes with a reference *)

(** Who holds a send, send-once or receive right, or a port set, also holds a reference for it;
    who knows that a port is in transit holds its receive right, and who knows that a message
    is not circular holds the message. *)
Definition dominated (f : right -> Z) : Prop :=
  forall o, f (RLive o) <= f (RRef o) /\ f (RSend o) <= f (RRef o) /\ f (RSonce o) <= f (RRef o) /\
    f (RSet o) <= f (RRef o) /\ f (RPort o) <= f (RRef o) /\ f (RTransit o) <= f (RHome o IS_NULL MACH_PORT_NULL) /\
    f (RPlain o) <= f (RMsg o).

Definition backed (l : list right) : Prop := dominated (fun r => cnt r l).

Lemma ind_same (o x : Z) :
  ind (RRef o) (RRef x) = (if decide (o = x) then 1 else 0) /\
  ind (RLive o) (RLive x) = (if decide (o = x) then 1 else 0) /\
  ind (RSend o) (RSend x) = (if decide (o = x) then 1 else 0) /\
  ind (RSonce o) (RSonce x) = (if decide (o = x) then 1 else 0) /\
  ind (RSet o) (RSet x) = (if decide (o = x) then 1 else 0) /\
  ind (RPort o) (RPort x) = (if decide (o = x) then 1 else 0) /\
  ind (RTransit o) (RTransit x) = (if decide (o = x) then 1 else 0) /\
  ind (RMsg o) (RMsg x) = (if decide (o = x) then 1 else 0) /\
  ind (RPlain o) (RPlain x) = (if decide (o = x) then 1 else 0) /\
  forall a n, ind (RHome o a n) (RHome x a n) = (if decide (o = x) then 1 else 0).
Proof. unfold ind. split_and!; intros; destruct (decide (o = x)) as [->|]; repeat case_decide; congruence. Qed.

(** Count in a list of rights that is written out. *)
Ltac cnt_simpl :=
  unfold plus, minus in *; cbn [cnt app when andb orb negb] in *;
  repeat match goal with
  | |- context [ind (RRef ?o) (RRef ?x)] => rewrite (proj1 (ind_same o x))
  | |- context [ind (RLive ?o) (RLive ?x)] => rewrite (proj1 (proj2 (ind_same o x)))
  | |- context [ind (RSend ?o) (RSend ?x)] => rewrite (proj1 (proj2 (proj2 (ind_same o x))))
  | |- context [ind (RSonce ?o) (RSonce ?x)] => rewrite (proj1 (proj2 (proj2 (proj2 (ind_same o x)))))
  | |- context [ind (RSet ?o) (RSet ?x)] => rewrite (proj1 (proj2 (proj2 (proj2 (proj2 (ind_same o x))))))
  | |- context [ind (RPort ?o) (RPort ?x)] => rewrite (proj1 (proj2 (proj2 (proj2 (proj2 (proj2 (ind_same o x)))))))
  | |- context [ind (RTransit ?o) (RTransit ?x)] =>
    rewrite (proj1 (proj2 (proj2 (proj2 (proj2 (proj2 (proj2 (ind_same o x))))))))
  | |- context [ind (RHome ?o ?a ?n) (RHome ?x ?a ?n)] =>
    rewrite (proj2 (proj2 (proj2 (proj2 (proj2 (proj2 (proj2 (proj2 (proj2 (ind_same o x))))))))))
  | |- context [ind (RMsg ?o) (RMsg ?x)] =>
    rewrite (proj1 (proj2 (proj2 (proj2 (proj2 (proj2 (proj2 (proj2 (ind_same o x)))))))))
  | |- context [ind (RPlain ?o) (RPlain ?x)] =>
    rewrite (proj1 (proj2 (proj2 (proj2 (proj2 (proj2 (proj2 (proj2 (proj2 (ind_same o x))))))))))
  | |- context [ind ?r ?x] => rewrite (ind_ne r x) by done
  | |- context [ind ?r ?x] => pose proof (ind_bound r x); generalize dependent (ind r x); intros
  end.

(** The fields of an entry after an assignment to one of them *)
Ltac entry_fields :=
  intros; cbv [set_ie_object set_ie_bits set_ie_request ie_object ie_bits ie_index ie_request]; reflexivity.

Lemma backed_nil : backed [].
Proof. intros o. simpl. lia. Qed.

Lemma backed_app l1 l2 : backed l1 -> backed l2 -> backed (l1 ++ l2).
Proof. intros H1 H2 o. rewrite !cnt_app. specialize (H1 o). specialize (H2 o). simpl in *. lia. Qed.

Lemma backed_bind {A} (f : A -> list right) l : (forall x, backed (f x)) -> backed (l ≫= f).
Proof.
  intros Hf. induction l as [|x l IH]; [apply backed_nil|]. simpl. by apply backed_app.
Qed.

Lemma backed_when b l : backed l -> backed (when b l).
Proof. destruct b; [done|]. intros _. apply backed_nil. Qed.

Lemma has_sub b m m' : Z.land m m' = m -> has b m = true -> has b m' = true.
Proof.
  unfold has. intros Hm Hb. apply negb_true_iff, Z.eqb_neq. apply negb_true_iff, Z.eqb_neq in Hb.
  intros H0. apply Hb. by rewrite <- Hm, (Z.land_comm m), Z.land_assoc, H0.
Qed.

Lemma backed_core a i c : backed (core_rights a i c).
Proof.
  destruct c as [[o b] req]. intros x. unfold core_rights.
  destruct (has b 0xf0000) eqn:H1.
  - destruct (has b MACH_PORT_TYPE_PORT_SET), (has b MACH_PORT_TYPE_SEND), (has b MACH_PORT_TYPE_SEND_ONCE), (_ && _),
      (has b MACH_PORT_TYPE_RECEIVE), (has b MACH_PORT_TYPE_SEND_RECEIVE); cnt_simpl; destruct (decide _); lia.
  - assert (Hno : forall m, Z.land m 0xf0000 = m -> has b m = false).
    { intros m Hm. destruct (has b m) eqn:Hb; [|done]. by rewrite (has_sub b m 0xf0000 Hm Hb) in H1. }
    rewrite !Hno by done. by cnt_simpl.
Qed.

Lemma backed_table a t k : backed (table_rights a k t).
Proof.
  revert k. induction t as [|e t IH]; intros k; [apply backed_nil|].
  apply backed_app; [apply backed_core|apply IH].
Qed.

Lemma backed_sonce o : backed (sonce_rights o).
Proof. apply backed_when. intros x. cnt_simpl. destruct (decide _); lia. Qed.

Lemma cnt_fmap_none {A} r (f : A -> right) l : (forall k, r <> f k) -> cnt r (f <$> l) = 0.
Proof.
  intros Hr. induction l as [|k l IH]; [done|]. rewrite fmap_cons. cbn [cnt]. rewrite ind_ne by done. lia.
Qed.

Ltac no_such_right :=
  repeat match goal with |- context [cnt ?r (?f <$> ?l)] => rewrite (cnt_fmap_none r f l) by done end.

Lemma cnt_plain_msg o l : cnt (RPlain o) (RPlain <$> l) = cnt (RMsg o) (RMsg <$> l).
Proof.
  induction l as [|k l IH]; [done|]. rewrite !fmap_cons. cbn [cnt]. rewrite IH. unfold ind. repeat case_decide; congruence.
Qed.

Lemma backed_reap l : backed (reap_rights l).
Proof.
  intros o. unfold reap_rights. rewrite !cnt_app. no_such_right.
  rewrite cnt_plain_msg. pose proof (cnt_nonneg (RMsg o) (RMsg <$> l)). split_and!; try lia.
  destruct l as [|k l]; [done|]. cbn [tail]. rewrite fmap_cons. cbn [cnt]. pose proof (ind_bound (RMsg o) (RMsg k)). lia.
Qed.

Lemma backed_queue l : backed (queue_rights l).
Proof.
  intros o. unfold queue_rights. rewrite !cnt_app. no_such_right. rewrite cnt_plain_msg. lia.
Qed.

Lemma backed_slots l : backed (slots_rights l).
Proof.
  induction l as [|x l IH]; [apply backed_nil|]. apply backed_app; [|done].
  apply backed_when, backed_sonce.
Qed.

Lemma backed_port p : backed (port_rights p).
Proof.
  apply backed_app; [|apply backed_queue]. apply backed_when.
  repeat apply backed_app; try apply backed_sonce.
  - destruct (ip_requests p) as [[|? l]|]; [apply backed_nil|apply backed_slots|apply backed_nil].
  - apply backed_when. intros o. cnt_simpl. destruct (decide _); lia.
Qed.

Lemma backed_disposition d o : backed (disposition_rights d o).
Proof.
  apply backed_when. intros x.
  destruct (d =? MACH_MSG_TYPE_PORT_SEND), (d =? MACH_MSG_TYPE_PORT_SEND_ONCE),
    (d =? MACH_MSG_TYPE_PORT_RECEIVE); cnt_simpl; destruct (decide _); lia.
Qed.

Lemma backed_carried circular d o : backed (carried_rights circular d o).
Proof.
  unfold carried_rights. destruct (Z.eqb_spec d MACH_MSG_TYPE_PORT_RECEIVE) as [->|Hd].
  - unfold disposition_rights. change (MACH_MSG_TYPE_PORT_RECEIVE =? MACH_MSG_TYPE_PORT_SEND) with false.
    change (MACH_MSG_TYPE_PORT_RECEIVE =? MACH_MSG_TYPE_PORT_SEND_ONCE) with false.
    rewrite Z.eqb_refl. destruct (IO_VALID o), circular; intros x; cnt_simpl; repeat destruct (decide _); lia.
  - rewrite andb_false_r. cbn [andb when]. rewrite app_nil_r. apply backed_disposition.
Qed.

Lemma backed_kmsg k : backed (kmsg_rights k).
Proof.
  unfold kmsg_rights. repeat apply backed_app; try apply backed_disposition; apply backed_when.
  - apply backed_bind. intros []; simpl; [apply backed_carried|apply backed_nil| |apply backed_nil].
    apply backed_bind. intros. apply backed_carried.
  - intros o. cnt_simpl. destruct (decide _); lia.
Qed.

Lemma backed_event e : backed (event_rights e).
Proof. intros o. destruct e; cbn [event_rights]; cnt_simpl; repeat destruct (decide _); lia. Qed.

Lemma backed_mcnt {A} (f : Z -> A -> list right) (m : gmap Z A) :
  (forall k v, backed (f k v)) -> dominated (fun r => mcnt f r m).
Proof.
  intros Hf. induction m as [|k v m Hk IH] using map_ind; intros o; [by rewrite !mcnt_empty|].
  rewrite !mcnt_new by done. specialize (Hf k v o). specialize (IH o). simpl in *. lia.
Qed.

Lemma held_dominated s : dominated (held s).
Proof.
  intros o. unfold held.
  pose proof (backed_mcnt space_rights (ks_spaces s)) as H1.
  pose proof (backed_mcnt (fun _ => port_rights) (ks_ports s) (fun _ => backed_port) o) as H2.
  pose proof (backed_mcnt (fun _ => kmsg_rights) (ks_kmsgs s) (fun _ => backed_kmsg) o) as H3.
  pose proof (backed_bind event_rights (ks_log s) backed_event o) as H4.
  pose proof (backed_reap (ks_ith_messages s) o) as H5.
  specialize (H1 (fun a sp => backed_when _ _ (backed_table a (is_table sp) 0)) o). simpl in *. lia.
Qed.

(** ** Spaces *)

Section spaces_wf.
Context {env : ipc_env}.

Definition entries_ok (X : gset Z) (sp : ipc_space) : Prop :=
  forall j, 0 < j < is_table_size sp -> j ∉ X ->
    IE_BITS_TYPE (ie_bits (entry_at (is_table sp) j)) <> MACH_PORT_TYPE_NONE ->
    entry_ok (core (entry_at (is_table sp) j)).

(** A space that is not being worked on.  A dead space has been emptied or is being emptied. *)
Definition space_wf (sp : ipc_space) : Prop :=
  is_active sp = true ->
  space_ok sp /\ entries_ok ∅ sp /\ is_growing sp = false /\ sized ipc_table_entries sp.

(** A space in which entry [i] is being worked on: it has core [c], and is in the hash table
    if [lk]. *)
Record at_work (i : Z) (c : Z * Z * Z) (lk : bool) (sp : ipc_space) : Prop := {
  aw_active : is_active sp = true;
  aw_inv : exists H l, space_inv {[i]} H l sp /\ (i ∈ H <-> lk = true);
  aw_core : core (entry_at (is_table sp) i) = c;
  aw_others : entries_ok {[i]} sp;
  aw_growing : is_growing sp = false;
  aw_sized : sized ipc_table_entries sp;
}.

(** Everything but entry [i] of a space is as before. *)
Definition kept (i : Z) (sp sp' : ipc_space) : Prop :=
  is_bits sp' = is_bits sp /\ is_table_size sp' = is_table_size sp /\
  is_table_next sp' = is_table_next sp /\ is_task sp' = is_task sp /\
  forall j, 0 < j < is_table_size sp -> j <> i ->
    let e := entry_at (is_table sp) j in let e' := entry_at (is_table sp') j in
    IE_BITS_TYPE (ie_bits e') = IE_BITS_TYPE (ie_bits e) /\
    (IE_BITS_TYPE (ie_bits e) <> MACH_PORT_TYPE_NONE -> core e' = core e).

#[global] Instance kept_refl i : Reflexive (kept i).
Proof. by intros sp. Qed.

#[global] Instance kept_trans i : Transitive (kept i).
Proof.
  intros s1 s2 s3 (B1 & S1 & N1 & K1 & H1) (B2 & S2 & N2 & K2 & H2).
  split_and!; [congruence..|]. intros j Hj Hji. simpl.
  destruct (H1 j Hj Hji) as [Ht1 Hc1]. destruct (H2 j) as [Ht2 Hc2]; [lia|done|]. simpl in *.
  split; [congruence|]. intros Hu. rewrite Hc2, Hc1; [done|done|congruence].
Qed.

Lemma kept_entries_ok i sp sp' : kept i sp sp' -> entries_ok {[i]} sp -> entries_ok {[i]} sp'.
Proof.
  intros (_ & Hs & _ & _ & Hk) He j Hj HX Ht. destruct (Hk j) as [Ht' Hc]; [lia|set_solver|].
  cbv zeta in *. rewrite Ht' in Ht. rewrite Hc by done. apply He; [lia|done|done].
Qed.

(** The fields that [kept] and the table's invariant determine *)
Lemma at_work_step i c lk sp c' lk' sp' :
  at_work i c lk sp -> kept i sp sp' ->
  (forall H l, space_inv {[i]} H l sp -> (i ∈ H <-> lk = true) ->
    exists H' l', space_inv {[i]} H' l' sp' /\ (i ∈ H' <-> lk' = true)) ->
  core (entry_at (is_table sp') i) = c' ->
  at_work i c' lk' sp'.
Proof.
  intros [Ha (H & l & HI & HH) Hc He Hg Hsz] Hk Hinv Hc'. pose proof Hk as (Hb & Hs & Hn & _ & _).
  split; [by unfold is_active; rewrite Hb|by apply (Hinv H l)|done|by eapply kept_entries_ok| |].
  - unfold is_growing. by rewrite Hb.
  - unfold sized. by rewrite Hs, Hn.
Qed.

Lemma at_work_range i c lk sp : at_work i c lk sp -> 0 < i < is_table_size sp /\ is_table_size sp = tlen (is_table sp).
Proof.
  intros [_ (H & l & HI & _) _ _ _ _]. split; [|apply HI]. apply (si_X _ _ _ _ HI). set_solver.
Qed.

Lemma kept_put i sp e :
  0 < i < is_table_size sp -> is_table_size sp = tlen (is_table sp) ->
  kept i sp (set_is_table (put (is_table sp) i e) sp).
Proof.
  intros Hi Hs. split_and!; [done..|]. intros j Hj Hji. simpl. rewrite entry_at_put_ne by lia. done.
Qed.

Lemma at_work_put i c lk sp e :
  at_work i c lk sp -> ie_index e = ie_index (entry_at (is_table sp) i) ->
  (lk = true -> ie_object e = ie_object (entry_at (is_table sp) i)) ->
  at_work i (core e) lk (set_is_table (put (is_table sp) i e) sp).
Proof.
  intros Hw Hix Hob. destruct (at_work_range _ _ _ _ Hw) as [Hi Hs].
  eapply at_work_step; [done|by apply kept_put| |].
  - intros H l HI HH. exists H, l. split; [|done].
    apply space_inv_put; [done|set_solver|done|]. intros ?%HH. by apply Hob.
  - simpl. by rewrite entry_at_put_eq by lia.
Qed.

Lemma at_work_modified i c lk sp name :
  at_work i c lk sp -> MACH_PORT_INDEX name = i ->
  wp (ipc_entry_modified name i) sp (fun _ sp' => at_work i c lk sp' /\ kept i sp sp').
Proof.
  intros Hw Hn. destruct (at_work_range _ _ _ _ Hw) as [Hi Hs].
  pose proof Hw as [_ (H & l & HI & HH) Hc _ _ _].
  destruct (ipc_entry_modified_ok _ _ _ _ _ _ HI Hn) as (sp' & Hrun & HI' & ->); [lia|].
  eapply wp_Ok; [done|]. split; [|done].
  eapply at_work_step; [done|done| |done]. intros H0 l0 _ HH0. by exists H, l.
Qed.

Lemma kept_hash i sp t' : same_entries (is_table sp) t' -> kept i sp (set_is_table t' sp).
Proof.
  intros Hse. split_and!; [done..|]. intros j Hj Hji. simpl.
  pose proof (same_entries_core _ _ j Hse) as Hc. split; [|done].
  apply (f_equal (fun c => IE_BITS_TYPE c.1.2)) in Hc. done.
Qed.

Lemma space_inv_hash X H H' l sp t' i :
  space_inv X H l sp -> same_entries (is_table sp) t' -> hash_repr t' H' -> i ∈ X ->
  (forall j, j <> i -> j ∈ H' <-> j ∈ H) -> space_inv X H' l (set_is_table t' sp).
Proof.
  intros HI Hse HR HiX HH.
  assert (Hat : forall j, core (entry_at t' j) = core (entry_at (is_table sp) j))
    by (intros; by apply same_entries_core).
  assert (Hb : forall j, ie_bits (entry_at t' j) = ie_bits (entry_at (is_table sp) j)).
  { intros j. specialize (Hat j). unfold core in Hat. congruence. }
  assert (Ho : forall j, ie_object (entry_at t' j) = ie_object (entry_at (is_table sp) j)).
  { intros j. specialize (Hat j). unfold core in Hat. congruence. }
  destruct HI. split; simpl; try done.
  - rewrite si_size. unfold tlen. by rewrite (same_entries_length _ _ Hse).
  - eapply chain_ext; [|done]. intros x _. unfold next_of. specialize (Hat x). unfold core in Hat. congruence.
  - by rewrite Hb, Ho.
  - intros j Hj. rewrite Hb, Ho. by apply si_free.
  - intros j Hj HX. rewrite Hb. by apply si_all.
  - intros j Hj HX. rewrite Hb, HH by (by intros ->). by apply si_send.
Qed.

Lemma at_work_hash_insert i o b req sp name :
  at_work i (o, b, req) false sp -> o <> IO_NULL -> MACH_PORT_INDEX name = i ->
  exists sp', ipc_hash_insert sp o name i = Ok sp' /\ at_work i (o, b, req) true sp' /\ kept i sp sp'.
Proof.
  intros Hw Ho Hn. destruct (at_work_range _ _ _ _ Hw) as [Hi Hs].
  pose proof Hw as [_ (H & l & HI & HH) Hc _ _ _].
  assert (HiH : i ∉ H) by (intros ?%HH; done).
  assert (Hobj : obj_of (is_table sp) i = o) by (rewrite obj_of_at; unfold core in Hc; congruence).
  destruct (hash_insert_ok _ H i o (si_hash _ _ _ _ HI)) as (t' & Hrun & Hse & HR); [unfold tlen in *; lia|done..|].
  exists (set_is_table t' sp). split_and!; [|..|by apply kept_hash].
  - unfold ipc_hash_insert. rewrite Hn, Hs. unfold tlen. by rewrite Hrun.
  - eapply at_work_step; [done|by apply kept_hash| |].
    + intros _ _ _ _. exists ({[i]} ∪ H), l. split; [|set_solver].
      apply (space_inv_hash _ H _ _ _ _ i); [done|done|done|set_solver|]. set_solver.
    + simpl. by rewrite (same_entries_core _ _ _ Hse).
Qed.

Lemma at_work_hash_delete i o b req sp name :
  at_work i (o, b, req) true sp -> MACH_PORT_INDEX name = i ->
  exists sp', ipc_hash_delete sp o name i = Ok sp' /\ at_work i (o, b, req) false sp' /\ kept i sp sp'.
Proof.
  intros Hw Hn. destruct (at_work_range _ _ _ _ Hw) as [Hi Hs].
  pose proof Hw as [_ (H & l & HI & HH) Hc _ _ _].
  assert (HiH : i ∈ H) by (by apply HH).
  assert (Hobj : obj_of (is_table sp) i = o) by (rewrite obj_of_at; unfold core in Hc; congruence).
  destruct (hash_delete_ok _ H i o (si_hash _ _ _ _ HI)) as (t' & Hrun & Hse & HR); [done..|].
  exists (set_is_table t' sp). split_and!; [|..|by apply kept_hash].
  - unfold ipc_hash_delete. rewrite Hn, Hs. unfold tlen. by rewrite Hrun.
  - eapply at_work_step; [done|by apply kept_hash| |].
    + intros _ _ _ _. exists (H ∖ {[i]}), l. split; [|set_solver].
      apply (space_inv_hash _ H _ _ _ _ i); [done|done|done|set_solver|]. set_solver.
    + simpl. by rewrite (same_entries_core _ _ _ Hse).
Qed.

Lemma same_but_kept i sp sp' :
  same_but {[i]} sp sp' -> is_table_size sp = tlen (is_table sp) -> kept i sp sp'.
Proof.
  intros (Heq & Hlen & Hsame) Hs. rewrite Heq. split_and!; [done..|]. simpl. intros j Hj Hji.
  destruct (Hsame j) as (Ho & Hb & Hu); [lia|set_solver|]. rewrite Hb. split; [done|].
  intros Hused. by rewrite Hu.
Qed.

Lemma at_work_dealloc i b sp name :
  at_work i (IO_NULL, b, IE_REQ_NONE) false sp -> MACH_PORT_INDEX name = i ->
  IE_BITS_GEN b = MACH_PORT_GEN name ->
  wp (ipc_entry_dealloc name i) sp (fun _ sp' => space_wf sp' /\ kept i sp sp' /\
    ie_object (entry_at (is_table sp') i) = IO_NULL /\ ie_bits (entry_at (is_table sp') i) = IE_BITS_GEN b).
Proof.
  intros Hw Hn Hg. destruct (at_work_range _ _ _ _ Hw) as [Hi Hs].
  pose proof Hw as [Ha (H & l & HI & HH) Hc He Hgr Hsz].
  assert (Hcore : ie_object (entry_at (is_table sp) i) = IO_NULL /\ ie_bits (entry_at (is_table sp) i) = b
    /\ ie_request (entry_at (is_table sp) i) = IE_REQ_NONE) by (unfold core in Hc; split_and!; congruence).
  destruct Hcore as (Hob & Hbi & Hrq).
  eapply wp_mono; [|apply (ipc_entry_dealloc_ok _ _ _ _ _ _ HI Ha)];
    [|set_solver|by intros ?%HH|done|done|done|by rewrite Hbi].
  cbv beta. intros _ sp' (HI' & Hsb & Hbits & _). rewrite Hbi in Hbits.
  pose proof (same_but_kept _ _ _ Hsb Hs) as Hk. pose proof Hk as (Hb & Hsize & Hnx & _).
  destruct (si_free _ _ _ _ HI' i) as (_ & _ & _ & Hobj); [by left|].
  split_and!; [|done|done|done]. intros Hact. split_and!.
  - exists H, (i :: l). by replace ∅ with (({[i]} : gset Z) ∖ {[i]}) by set_solver.
  - intros j Hj _ Ht. destruct (decide (j = i)) as [->|Hne].
    + by rewrite Hbits, IE_BITS_TYPE_GEN in Ht.
    + apply (kept_entries_ok _ _ _ Hk He j Hj); [set_solver|done].
  - unfold is_growing. by rewrite Hb.
  - unfold sized. by rewrite Hsize, Hnx.
Qed.

Lemma at_work_open i sp :
  space_wf sp -> is_active sp = true -> 0 < i < is_table_size sp ->
  let c := core (entry_at (is_table sp) i) in core_type c <> MACH_PORT_TYPE_NONE ->
  entry_ok c /\ at_work i c (core_type c =? MACH_PORT_TYPE_SEND) sp.
Proof.
  intros Hwf Ha Hi c Ht. destruct (Hwf Ha) as ((H & l & HI) & He & Hg & Hsz).
  split; [by apply He|]. split; try done.
  - exists H, l. split.
    + replace {[i]} with ({[i]} ∪ ∅ : gset Z) by set_solver. by apply space_inv_open.
    + rewrite Z.eqb_eq. apply (si_send _ _ _ _ HI); [done|set_solver].
  - intros j Hj _. apply He; [done|set_solver].
Qed.

Lemma at_work_close i c lk sp :
  at_work i c lk sp -> entry_ok c -> lk = (core_type c =? MACH_PORT_TYPE_SEND) -> space_wf sp.
Proof.
  intros [Ha (H & l & HI & HH) Hc He Hg Hsz] Hok Hlk _.
  assert (Hty : IE_BITS_TYPE (ie_bits (entry_at (is_table sp) i)) = core_type c) by (by rewrite <- Hc).
  split_and!; [|..|done|done].
  - exists H, l. replace ∅ with (({[i]} : gset Z) ∖ {[i]}) by set_solver. apply space_inv_close; [done|..].
    + rewrite Hty. by apply entry_ok_used.
    + by rewrite HH, Hty, Hlk, Z.eqb_eq.
  - intros j Hj _ Ht. destruct (decide (j = i)) as [->|Hne]; [by rewrite Hc|].
    apply He; [done|set_solver|done].
Qed.
End spaces_wf.

Section focus.
Context {env : ipc_env}.

(** ** Objects *)

(** Nobody receives from the port: it is as [ipc_port_clear_receiver] leaves it. *)
Definition idle_port (p : ipc_port) : Prop :=
  ip_mscount p = 0 /\ ip_in_pset p = false /\ imq_receivers (ip_messages p) = [].

(** A port without a receiver is idle, one in transit is also as [ipc_port_check_circularity]
    leaves it; a port's temporary owner is a task that can be boosted, by a port that
    donates. *)
Definition transit_ok (p : ipc_port) : Prop :=
  (ip_active p = true -> ip_receiver_name p = MACH_PORT_NULL ->
   idle_port p /\ (ip_tempowner p = true \/ ip_imp_task p = IIT_NULL) /\ (ip_destination p <> IP_NULL -> ip_tempowner p = false)) /\
  (ip_tempowner p = true -> ip_imp_task p <> IIT_NULL ->
   ipc_importance_task_is_any_receiver_type (ip_imp_task p) = true /\ ip_impdonation p = true).

Record port_ok (o : Z) (p : ipc_port) : Prop := {
  po_valid : IP_VALID o = true;
  po_aligned : Z.land o 3 = 0;
  po_otype : io_bits_otype (ip_bits p) = IOT_PORT;
  po_refs : 0 < ip_references p < IO_MAX_REFERENCES;
  po_srights : 0 <= ip_srights p;
  po_sorights : 0 <= ip_sorights p;
  po_requests : requests_ok (ip_requests p);
  po_prealloc : IP_PREALLOC p = false;
  po_dead : ip_active p = false ->
    imq_messages (ip_messages p) = [] /\ imq_receivers (ip_messages p) = [] /\
    imq_senders (ip_messages p) = [];
  po_impcount : 0 <= ip_impcount p < 2 ^ 24;
  po_transit : transit_ok p;
}.

Record pset_ok (o : Z) (ps : ipc_pset) : Prop := {
  pso_valid : IO_VALID o = true;
  pso_otype : io_bits_otype (ips_bits ps) = IOT_PORT_SET;
  pso_refs : 0 < ips_references ps < IO_MAX_REFERENCES;
}.

Definition descriptor_ok (d : mach_msg_descriptor) : Prop :=
  match d with
  | PortDescriptor name disposition => IO_VALID name = true -> disposition ∈ dispositions
  | OolDescriptor _ address size _ => size = 0 -> address = 0
  | OolPortsDescriptor address disposition objects =>
    (objects <> [] -> address <> 0) /\ (forall o, o ∈ objects -> IO_VALID o = true -> disposition ∈ dispositions)
  | OtherDescriptor _ => True
  end.

(** A message as [ipc_kmsg_copyin] leaves it, without an importance boost *)
Record kmsg_ok (m : ipc_kmsg) : Prop := {
  ko_prealloc : ikm_prealloc m = IP_NULL;
  ko_remote : IO_VALID (msgh_remote_port m) = true ->
    MACH_MSGH_BITS_REMOTE (msgh_bits m) ∈ [MACH_MSG_TYPE_PORT_SEND; MACH_MSG_TYPE_PORT_SEND_ONCE];
  ko_local : IO_VALID (msgh_local_port m) = true ->
    MACH_MSGH_BITS_LOCAL (msgh_bits m) ∈ [MACH_MSG_TYPE_PORT_SEND; MACH_MSG_TYPE_PORT_SEND_ONCE];
  ko_voucher : IO_VALID (ikm_voucher m) = true -> MACH_MSGH_BITS_VOUCHER (msgh_bits m) = MACH_MSG_TYPE_MOVE_SEND;
  ko_importance : MACH_MSGH_BITS_RAISED_IMPORTANCE (msgh_bits m) = false;
  ko_descriptors : Forall descriptor_ok (msgh_descriptors m);
}.

Record objects_ok (s : kstate) : Prop := {
  oo_ports : forall o p, ks_ports s !! o = Some p -> port_ok o p;
  oo_psets : forall o ps, ks_psets s !! o = Some ps -> pset_ok o ps;
  oo_disjoint : forall o, is_Some (ks_ports s !! o) -> ks_psets s !! o = None;
  oo_kmsgs : forall k m, ks_kmsgs s !! k = Some m -> kmsg_ok m;
}.

Lemma objects_ok_same s s' :
  objects_ok s -> ks_ports s' = ks_ports s -> ks_psets s' = ks_psets s -> ks_kmsgs s' = ks_kmsgs s ->
  objects_ok s'.
Proof. intros [] H1 H2 H3. split; rewrite ?H1, ?H2, ?H3; done. Qed.

Lemma objects_ok_port s o p p' :
  objects_ok s -> ks_ports s !! o = Some p -> port_ok o p' -> objects_ok (put_port s o p').
Proof.
  intros [H1 H2 H3 H4] Ho Hp. split; [|done| |done]; simpl.
  - intros o' q. rewrite lookup_insert. destruct (decide _) as [<-|]; [congruence|apply H1].
  - intros o' [q Hq]. apply H3. rewrite lookup_insert in Hq. destruct (decide _) as [<-|]; eauto.
Qed.

(** ** The invariant *)

(** Rights in hand are never owed, and come with references. *)
Definition hand_ok (T : right -> Z) : Prop := (forall r, 0 <= T r) /\ dominated T.

(** Between operations: balanced with the rights [T] held elsewhere in the kernel *)
Record kwf (s : kstate) (T : right -> Z) : Prop := {
  kw_ledger : ledger s T;
  kw_objects : objects_ok s;
  kw_spaces : forall a sp, ks_spaces s !! a = Some sp -> space_wf sp;
}.

#[global] Instance ledger_proper : Proper (eq ==> pointwise_relation right eq ==> iff) ledger.
Proof. intros s ? <- T T' HT. split; intros HL; (eapply ledger_ext; [done|]); intros r; by rewrite (HT r). Qed.

#[global] Instance kwf_proper : Proper (eq ==> pointwise_relation right eq ==> iff) kwf.
Proof. intros s ? <- T T' HT. split; intros []; split; try done; [by rewrite <- HT|by rewrite HT]. Qed.

#[global] Instance hand_ok_proper : Proper (pointwise_relation right eq ==> iff) hand_ok.
Proof.
  intros T T' HT. split; intros [H1 H2]; split.
  - intros r. by rewrite <- (HT r).
  - intros o. rewrite <- !(HT _). apply H2.
  - intros r. by rewrite (HT r).
  - intros o. rewrite !(HT _). apply H2.
Qed.

(** What an operation on entry [i] of space [a] leaves alone: all other spaces and entries,
    port sets, messages *)
Definition framed (a i : Z) (s0 s : kstate) : Prop :=
  ks_psets s = ks_psets s0 /\ ks_kmsgs s = ks_kmsgs s0 /\ same_thread s0 s /\
  (forall b, b <> a -> ks_spaces s !! b = ks_spaces s0 !! b) /\
  option_Forall2 (kept i) (ks_spaces s0 !! a) (ks_spaces s !! a).

Lemma framed_refl a i s : framed a i s s.
Proof. by split_and!. Qed.

(** How the operation sees the entry: in work, with its core and whether it is in the hash
    table; or done with, with its object and bits; or not at all.  An operation that works on
    a message instead has the rights of that message in its hands. *)
Inductive view :=
  | Rest
  | Open (c : Z * Z * Z) (lk : bool)
  | Shut (o b : Z)
  | Mail (k : Z) (m : ipc_kmsg).

Definition ev_rights (a i : Z) (ev : view) : list right :=
  match ev with Open c _ => core_rights a i c | Mail _ m => kmsg_rights m | Shut _ _ | Rest => [] end.

Definition ev_space (i name : Z) (ev : view) (sp : ipc_space) : Prop :=
  match ev with
  | Rest | Mail _ _ => space_wf sp
  | Open c lk => at_work i c lk sp /\ IE_BITS_GEN c.1.2 = MACH_PORT_GEN name
  | Shut o b => space_wf sp /\ ie_object (entry_at (is_table sp) i) = o /\ ie_bits (entry_at (is_table sp) i) = b
  end.

Definition ev_at (a i name : Z) (ev : view) (s : kstate) : Prop :=
  match ev with
  | Rest => forall sp, ks_spaces s !! a = Some sp -> space_wf sp
  | Mail k m => ks_kmsgs s !! k = Some m /\ forall sp, ks_spaces s !! a = Some sp -> space_wf sp
  | _ => exists sp, ks_spaces s !! a = Some sp /\ ev_space i name ev sp
  end.

(** Inside an operation that started in [s0] and works on entry [i] of space [a], known as
    [name]: ports [P], log [L], entry [ev], rights in hand [T] *)
Record focus (s0 : kstate) (a i name : Z) (s : kstate) (P : gmap Z ipc_port) (L : list event)
    (ev : view) (T : right -> Z) : Prop := {
  fc_ports : ks_ports s = P;
  fc_log : ks_log s = L;
  fc_ledger : ledger s (T ⊖ ev_rights a i ev);
  fc_objects : objects_ok s;
  fc_spaces : forall b sp, ks_spaces s !! b = Some sp -> b <> a -> space_wf sp;
  fc_space : ev_at a i name ev s;
  fc_frame : framed a i s0 s;
}.

Lemma fc_ext s0 a i name s P L ev T T' :
  focus s0 a i name s P L ev T -> (forall r, T' r = T r) -> focus s0 a i name s P L ev T'.
Proof.
  intros [] HT. split; try done. eapply ledger_ext; [done|]. intros r. unfold minus. by rewrite HT.
Qed.

(** The rights held by all others than the entry or message in work *)
Lemma fc_without s0 a i name s P L ev T :
  focus s0 a i name s P L ev T -> exists s1, forall r, held s1 r = held s r - cnt r (ev_rights a i ev).
Proof.
  intros [_ _ _ _ _ Hev _].
  destruct ev as [|c lk|o b|k m]; [exists s; simpl; intros; lia| |exists s; simpl; intros; lia|].
  - destruct Hev as (sp & Ha & Hw & _). destruct (at_work_range _ _ _ _ Hw) as [Hi Hs].
    exists (put_space s a (set_is_table (put (is_table sp) i entry_null) sp)).
    intros r. unfold held. simpl. rewrite (mcnt_insert _ _ _ _ _ _ Ha). unfold space_rights.
    change (is_active (set_is_table _ sp)) with (is_active sp). rewrite (aw_active _ _ _ _ Hw).
    cbn [when]. simpl. rewrite table_rights_put by lia. unfold entry_rights at 1.
    rewrite (aw_core _ _ _ _ Hw). change (cnt r (entry_rights a i entry_null)) with 0. lia.
  - destruct Hev as [Hk _]. exists (set_ks_kmsgs (delete k (ks_kmsgs s)) s).
    intros r. unfold held. simpl. rewrite (mcnt_delete _ _ _ _ _ Hk). lia.
Qed.

Lemma fc_others s0 a i name s P L ev T :
  focus s0 a i name s P L ev T -> exists s1, forall r, accounts s r (held s1 r + T r).
Proof.
  intros HF. destruct (fc_without _ _ _ _ _ _ _ _ _ HF) as [s1 Hh]. exists s1. intros r. rewrite Hh.
  pose proof (fc_ledger _ _ _ _ _ _ _ _ _ HF r) as HL. unfold minus in HL.
  by replace (held s r - cnt r (ev_rights a i ev) + T r) with (held s r + (T r - cnt r (ev_rights a i ev))) by lia.
Qed.

(** ** Start and end *)

Lemma fc_open s a i name T sp :
  kwf s T -> ks_spaces s !! a = Some sp -> is_active sp = true -> 0 < i < is_table_size sp ->
  let c := core (entry_at (is_table sp) i) in
  core_type c <> MACH_PORT_TYPE_NONE -> IE_BITS_GEN c.1.2 = MACH_PORT_GEN name ->
  entry_ok c /\
  focus s a i name s (ks_ports s) (ks_log s) (Open c (core_type c =? MACH_PORT_TYPE_SEND))
    (T ⊕ core_rights a i c).
Proof.
  intros [HL HO HS] Ha Hact Hi c Ht Hg. destruct (at_work_open i sp (HS _ _ Ha) Hact Hi Ht) as [Hok Hw].
  split; [done|]. split; try done.
  - eapply ledger_ext; [done|]. intros r. unfold plus, minus. simpl. fold c. lia.
  - intros b sp' Hb _. by apply (HS b).
  - by exists sp.
Qed.

Lemma fc_rest s a i name T : kwf s T -> focus s a i name s (ks_ports s) (ks_log s) Rest T.
Proof.
  intros [HL HO HS]. split; try done.
  - eapply ledger_ext; [done|]. intros r. unfold minus. simpl. lia.
  - intros b sp Hb _. by apply (HS b).
  - intros sp Hsp. by apply (HS a).
Qed.

Lemma fc_rested s0 a i name s P L T : focus s0 a i name s P L Rest T -> kwf s T.
Proof.
  intros [HP HLg HL HO HS HSp HF]. split; [|done|].
  - eapply ledger_ext; [done|]. intros r. unfold minus. simpl. lia.
  - intros b sp' Hb. destruct (decide (b = a)) as [->|]; [by apply HSp|by eapply HS].
Qed.

Lemma fc_close s0 a i name s P L c lk T :
  focus s0 a i name s P L (Open c lk) T -> entry_ok c -> lk = (core_type c =? MACH_PORT_TYPE_SEND) ->
  focus s0 a i name s P L (Shut c.1.1 c.1.2) (T ⊖ core_rights a i c).
Proof.
  intros [HP HLg HL HO HS (sp & Ha & Hw & Hg) HF] Hok Hlk. split; try done.
  - eapply ledger_ext; [done|]. intros r. unfold minus. simpl. lia.
  - exists sp. split; [done|]. split; [by eapply at_work_close|]. by rewrite <- (aw_core _ _ _ _ Hw).
Qed.

Lemma fc_closed s0 a i name s P L o bits T : focus s0 a i name s P L (Shut o bits) T -> kwf s T.
Proof.
  intros [HP HLg HL HO HS (sp & Ha & Hw & _) HF]. split; [|done|].
  - eapply ledger_ext; [done|]. intros r. unfold minus. simpl. lia.
  - intros b sp' Hb. destruct (decide (b = a)) as [->|]; [by simplify_eq|by eapply HS].
Qed.

(** ** What the ledger tells *)

Section counts.
Context (s0 : kstate) (a i name : Z) (s : kstate) (P : gmap Z ipc_port) (L : list event)
  (ev : view) (T : right -> Z) (HF : focus s0 a i name s P L ev T).

Lemma fc_port_ok o p : P !! o = Some p -> port_ok o p.
Proof. intros Ho. apply (oo_ports _ (fc_objects _ _ _ _ _ _ _ _ _ HF)). by rewrite (fc_ports _ _ _ _ _ _ _ _ _ HF). Qed.

Lemma fc_port_counts o p :
  P !! o = Some p ->
  exists x : right -> Z, (forall r, 0 <= x r) /\ dominated x /\
    forall r, target r = Some o -> agree (port_exact p r) (x r + T r) (port_count p r).
Proof.
  intros Ho. destruct (fc_others _ _ _ _ _ _ _ _ _ HF) as (s1 & Hacc).
  exists (held s1). split_and!; [apply held_nonneg|apply held_dominated|]. intros r Hr. specialize (Hacc r). unfold accounts in Hacc.
  by rewrite Hr, (fc_ports _ _ _ _ _ _ _ _ _ HF), Ho in Hacc.
Qed.

Lemma fc_count_ge o p r :
  P !! o = Some p -> target r = Some o -> T r <= port_count p r.
Proof.
  intros Ho Hr. destruct (fc_port_counts o p Ho) as (x & Hx & _ & Hacc).
  specialize (Hacc r Hr). specialize (Hx r). unfold agree in Hacc. destruct (port_exact p r); lia.
Qed.

(** A right in hand that only ports have *)
Lemma fc_port o r :
  target r = Some o -> 0 < T r -> 0 < T (RRef o) ->
  match r with RRef _ | RSet _ => False | _ => True end ->
  exists p, P !! o = Some p.
Proof.
  intros Hr HT HR Hk. destruct (fc_others _ _ _ _ _ _ _ _ _ HF) as (s1 & Hacc). pose proof (held_nonneg s1) as Hx.
  pose proof (Hacc r) as H1. pose proof (Hacc (RRef o)) as H2. unfold accounts in H1, H2.
  rewrite Hr in H1. simpl in H2. rewrite (fc_ports _ _ _ _ _ _ _ _ _ HF) in H1, H2.
  destruct (P !! o) as [p|]; [by exists p|]. exfalso. pose proof (Hx r). pose proof (Hx (RRef o)).
  destruct (ks_psets s !! o); [|lia]. destruct r; simpl in *; try done; lia.
Qed.

Lemma fc_live o p : P !! o = Some p -> 0 < T (RLive o) -> ip_active p = true.
Proof.
  intros Ho HT. pose proof (fc_count_ge o p (RLive o) Ho eq_refl) as Hc. simpl in Hc.
  destruct (ip_active p); [done|lia].
Qed.

Lemma fc_home o p b n :
  P !! o = Some p -> 0 < T (RHome o b n) ->
  ip_active p = true /\ ip_home p = b /\ ip_receiver_name p = n.
Proof.
  intros Ho HT. pose proof (fc_count_ge o p (RHome o b n) Ho eq_refl) as Hc. simpl in Hc.
  unfold home_count in Hc. destruct (_ && _) eqn:He; [|lia]. bool_to_prop. done.
Qed.

Lemma fc_slot o p k n :
  P !! o = Some p -> 0 < T (RSlot o k n) ->
  exists t l, ip_requests p = Some t /\ requests_free t l /\ 0 < k < rlen t /\
    ipr_name (rat t k) = n /\ n <> MACH_PORT_NULL.
Proof.
  intros Ho HT. pose proof (fc_count_ge o p (RSlot o k n) Ho eq_refl) as Hc. simpl in Hc.
  pose proof (po_requests _ _ (fc_port_ok o p Ho)) as Hok.
  destruct (ip_requests p) as [t|]; [|simpl in Hc; lia]. destruct Hok as [l Hl].
  exists t, l. destruct (Z.le_gt_cases k 0) as [Hk|Hk]; [rewrite slot_count_nonpos in Hc by done; lia|].
  unfold slot_count in Hc. unfold rat, rlen. destruct (t !! Z.to_nat k) as [ipr|] eqn:Hi; [|lia].
  destruct (_ && _) eqn:He; [|lia]. bool_to_prop. apply lookup_lt_Some in Hi.
  split_and!; try done; lia.
Qed.

(** References cover the rights of each kind. *)
Lemma fc_refs o p :
  P !! o = Some p ->
  T (RRef o) <= ip_references p /\
  (T (RSend o) <= T (RRef o) -> ip_active p = true -> ip_srights p <= ip_references p) /\
  (T (RSonce o) <= T (RRef o) -> ip_active p = true -> ip_sorights p <= ip_references p) /\
  (0 <= T (RLive o) < T (RRef o) -> ip_references p = 1 -> ip_active p = false).
Proof.
  intros Ho. destruct (fc_port_counts o p Ho) as (x & Hx & Hd & Hacc).
  pose proof (Hacc (RRef o) eq_refl) as HR. pose proof (Hacc (RLive o) eq_refl) as HV.
  pose proof (Hacc (RSend o) eq_refl) as HS. pose proof (Hacc (RSonce o) eq_refl) as HO. simpl in *.
  pose proof (Hx (RRef o)). pose proof (Hx (RLive o)). specialize (Hd o) as (Hd1 & Hd2 & Hd3).
  split_and!; [lia| | |].
  - intros HT Hact. rewrite Hact in *. simpl in *. lia.
  - intros HT Hact. rewrite Hact in *. simpl in *. lia.
  - intros HTl Href. destruct (ip_active p); [lia|done].
Qed.
End counts.

(** ** Steps of the state *)

Lemma framed_trans_ports a i s0 s P : framed a i s0 s -> framed a i s0 (set_ks_ports P s).
Proof. by intros (? & ? & ? & ? & ?). Qed.

Lemma fc_put_log s0 a i name s P L ev T e :
  focus s0 a i name s P L ev T ->
  focus s0 a i name (put_log s e) P (L ++ [e]) ev (T ⊖ event_rights e).
Proof.
  intros [HP HLg HL HO HS HSp HF]. split; try done.
  - simpl. by rewrite HLg.
  - eapply ledger_ext; [by apply ledger_log|]. intros r. unfold minus. lia.
  - by eapply objects_ok_same.
Qed.

Lemma fc_put_port s0 a i name s P L ev T o p p' :
  focus s0 a i name s P L ev T -> P !! o = Some p -> port_ok o p' ->
  (ip_active p' = true -> ip_active p = true) ->
  focus s0 a i name (put_port s o p') (<[o := p']> P) L ev (fun r => T r + port_move o p p' r).
Proof.
  intros [HP HLg HL HO HS HSp HF] Ho Hok Hact. rewrite <- HP in Ho. split; try done.
  - simpl. by rewrite HP.
  - eapply ledger_ext; [by apply (ledger_port _ (T ⊖ ev_rights a i ev) o p p')|]. intros r. unfold minus. lia.
  - by eapply objects_ok_port.
Qed.

Lemma kept_rights a i r sp sp' :
  kept i sp sp' -> 0 < i < is_table_size sp ->
  is_table_size sp = tlen (is_table sp) -> is_table_size sp' = tlen (is_table sp') ->
  IE_BITS_TYPE (ie_bits (entry_at (is_table sp) 0)) = MACH_PORT_TYPE_NONE ->
  IE_BITS_TYPE (ie_bits (entry_at (is_table sp') 0)) = MACH_PORT_TYPE_NONE ->
  cnt r (table_rights a 0 (is_table sp')) - cnt r (entry_rights a i (entry_at (is_table sp') i)) =
  cnt r (table_rights a 0 (is_table sp)) - cnt r (entry_rights a i (entry_at (is_table sp) i)).
Proof.
  intros (_ & Hs & _ & _ & Hk) Hi Hl Hl' H0 H0'.
  pose proof (table_rights_put a (is_table sp) i entry_null r) as H1.
  pose proof (table_rights_put a (is_table sp') i entry_null r) as H2.
  rewrite (table_rights_ext a (put (is_table sp) i entry_null) (put (is_table sp') i entry_null)) in H2.
  - specialize (H1 ltac:(lia)). specialize (H2 ltac:(lia)). lia.
  - unfold put. rewrite !length_insert. unfold tlen in *. lia.
  - intros j Hj. rewrite tlen_put in Hj. rewrite !entry_at_put by lia.
    destruct (decide (i = j)) as [|Hne]; [done|]. unfold entry_rights.
    destruct (decide (j = 0)) as [->|]; [by rewrite !core_rights_none|].
    destruct (Hk j) as [Hty Hc]; [lia|lia|]. cbv zeta in *.
    destruct (decide (IE_BITS_TYPE (ie_bits (entry_at (is_table sp) j)) = MACH_PORT_TYPE_NONE)) as [Hn|Hn].
    + rewrite !core_rights_none; [done|done|unfold core_type; simpl; congruence].
    + by rewrite Hc.
Qed.

Lemma ev_space_inv i name ev sp :
  ev_space i name ev sp -> is_active sp = true ->
  is_table_size sp = tlen (is_table sp) /\
  IE_BITS_TYPE (ie_bits (entry_at (is_table sp) 0)) = MACH_PORT_TYPE_NONE.
Proof.
  intros Hev Ha. destruct ev as [|c lk|o b|k m]; simpl in Hev.
  - destruct (Hev Ha) as ((H & l & HI) & _). split; apply HI.
  - destruct Hev as [[_ (H & l & HI & _) _ _ _ _] _]. split; apply HI.
  - destruct (proj1 Hev Ha) as ((H & l & HI) & _). split; apply HI.
  - destruct (Hev Ha) as ((H & l & HI) & _). split; apply HI.
Qed.

Lemma framed_put_space a i s0 s sp sp' :
  framed a i s0 s -> ks_spaces s !! a = Some sp -> kept i sp sp' -> framed a i s0 (put_space s a sp').
Proof.
  intros (H1 & H2 & H3 & H4 & Hk) Ha Hk'. rewrite Ha in Hk. inversion Hk as [sp0 ? Hk0 Hs0|]; subst. split_and!; [done..| |].
  - intros b Hb. simpl. rewrite lookup_insert_ne by done. by apply H4.
  - simpl. rewrite lookup_insert_eq, <- Hs0. constructor. by etrans.
Qed.

(** Changing the space: only the entry in work changes. *)
Lemma fc_put_space s0 a i name s P L c lk T sp sp' ev' :
  focus s0 a i name s P L (Open c lk) T -> ks_spaces s !! a = Some sp ->
  kept i sp sp' -> (forall k m, ev' <> Mail k m) -> ev_space i name ev' sp' ->
  entry_rights a i (entry_at (is_table sp') i) = ev_rights a i ev' ->
  focus s0 a i name (put_space s a sp') P L ev' T.
Proof.
  intros [HP HLg HL HO HS (sp1 & Ha1 & Hw & Hg) HF] Ha Hk Hmail Hev Hr. replace sp1 with sp in * by congruence.
  pose proof (aw_active _ _ _ _ Hw) as Hact.
  assert (Hact' : is_active sp' = true) by (destruct Hk as (Hb & _); unfold is_active; by rewrite Hb).
  destruct (ev_space_inv i name (Open c lk) sp) as [Hl H0]; [done|done|].
  destruct (ev_space_inv i name ev' sp') as [Hl' H0']; [done|done|].
  destruct (at_work_range _ _ _ _ Hw) as [Hi _].
  split; try done.
  - eapply ledger_ext; [by apply (ledger_space _ (T ⊖ ev_rights a i (Open c lk)) a sp sp')|].
    intros r. unfold plus, minus, space_rights. rewrite Hact, Hact'. cbn [when]. pose proof (kept_rights a i r sp sp' Hk Hi Hl Hl' H0 H0') as Hkr.
    rewrite Hr in Hkr. unfold entry_rights in Hkr. rewrite (aw_core _ _ _ _ Hw) in Hkr.
    unfold ev_rights at 2. lia.
  - by eapply objects_ok_same.
  - intros b sp2. simpl. intros Hb Hne. rewrite lookup_insert_ne in Hb by done. by eapply HS.
  - unfold ev_at. simpl. rewrite lookup_insert_eq.
    destruct ev' as [|c' lk'|o' b'|k m]; simpl; [by intros ? [= <-]|by exists sp'..|by destruct (Hmail k m)].
  - by eapply framed_put_space.
Qed.

(** ** Rules for the primitives *)

Section rules.
Context (s0 : kstate) (a i name : Z) (Hname : MACH_PORT_INDEX name = i).
Local Abbreviation foc := (focus s0 a i name).

Lemma put_space_id s b sp : ks_spaces s !! b = Some sp -> put_space s b sp = s.
Proof. intros Hb. unfold put_space. rewrite insert_id by done. by destruct s. Qed.

Lemma wf_is_get s P L c lk T Q :
  foc s P L (Open c lk) T ->
  (forall sp, ks_spaces s !! a = Some sp -> ev_space i name (Open c lk) sp -> Q sp s) -> wp (is_get a) s Q.
Proof. intros [_ _ _ _ _ (sp & Ha & Hev) _] HQ. eapply wp_is_get; [done|]. by apply HQ. Qed.

Lemma wf_ie_get s P L o b req lk T Q :
  foc s P L (Open (o, b, req) lk) T ->
  (forall ix, Q (mk_ipc_entry o b ix req) s) -> wp (ie_get a i) s Q.
Proof.
  intros [_ _ _ _ _ (sp & Ha & Hw & _) _] HQ. destruct (at_work_range _ _ _ _ Hw) as [Hi Hs].
  eapply wp_in_space; [done|]. apply wp_tget; [lia|]. rewrite put_space_id by done.
  pose proof (aw_core _ _ _ _ Hw) as Hc. specialize (HQ (ie_index (entry_at (is_table sp) i))).
  unfold core in Hc. destruct (entry_at (is_table sp) i). simpl in *. by simplify_eq.
Qed.

Lemma wf_ie_mod s P L o b req lk T f o' b' req' Q :
  foc s P L (Open (o, b, req) lk) T ->
  (forall ix, f (mk_ipc_entry o b ix req) = mk_ipc_entry o' b' ix req') ->
  (lk = true -> o' = o) -> IE_BITS_GEN b' = MACH_PORT_GEN name ->
  (forall s', foc s' P L (Open (o', b', req') lk) T -> Q tt s') -> wp (ie_mod a i f) s Q.
Proof.
  intros HF Hf Hlk Hg HQ. pose proof HF as [_ _ _ _ _ (sp & Ha & Hw & _) _].
  destruct (at_work_range _ _ _ _ Hw) as [Hi Hs].
  eapply wp_in_space; [done|]. apply wp_tmod; [lia|]. apply HQ.
  pose proof (aw_core _ _ _ _ Hw) as Hc.
  assert (He : entry_at (is_table sp) i = mk_ipc_entry o b (ie_index (entry_at (is_table sp) i)) req)
    by (unfold core in Hc; destruct (entry_at (is_table sp) i); simpl in *; by simplify_eq).
  assert (Hfe : f (entry_at (is_table sp) i) = mk_ipc_entry o' b' (ie_index (entry_at (is_table sp) i)) req')
    by (rewrite He at 1; apply Hf).
  eapply fc_put_space; [done|done|by apply kept_put|done|..].
  - split; [|by apply Hg]. change (o', b', req') with (core (mk_ipc_entry o' b' (ie_index (entry_at (is_table sp) i)) req')).
    rewrite <- Hfe. apply (at_work_put _ _ _ _ _ Hw); rewrite Hfe; [done|].
    intros Hl. simpl. rewrite He. simpl. by apply Hlk.
  - simpl. rewrite entry_at_put_eq by lia. by rewrite Hfe.
Qed.

Lemma wf_entry_modified s P L c lk T Q :
  foc s P L (Open c lk) T -> (forall s', foc s' P L (Open c lk) T -> Q tt s') ->
  wp (entry_modified a name i) s Q.
Proof.
  intros HF HQ. pose proof HF as [_ _ _ _ _ (sp & Ha & Hw & Hg) _].
  eapply wp_in_space; [done|]. eapply wp_mono; [|by apply at_work_modified]. cbv beta.
  intros [] sp' [Hw' Hk]. apply HQ. eapply fc_put_space; [done|done|done|done|done|].
  unfold entry_rights. by rewrite (aw_core _ _ _ _ Hw').
Qed.

Lemma wf_entry_dealloc s P L b T Q :
  foc s P L (Open (IO_NULL, b, IE_REQ_NONE) false) T ->
  (forall s', foc s' P L (Shut IO_NULL (MACH_PORT_GEN name)) T -> Q tt s') ->
  wp (entry_dealloc a name i) s Q.
Proof.
  intros HF HQ. pose proof HF as [_ _ _ _ _ (sp & Ha & Hw & Hg) _]. simpl in Hg.
  eapply wp_in_space; [done|]. eapply wp_mono; [|by apply at_work_dealloc]. cbv beta.
  intros [] sp' (Hw' & Hk & Hb). rewrite Hg in Hb. apply HQ.
  eapply fc_put_space; [done|done|done|done|done|]. simpl.
  apply core_rights_none. unfold core_type. simpl. rewrite (proj2 Hb), <- Hg. apply IE_BITS_TYPE_GEN.
Qed.

Lemma wf_hash_insert s P L o b req T Q :
  foc s P L (Open (o, b, req) false) T -> o <> IO_NULL ->
  (forall s', foc s' P L (Open (o, b, req) true) T -> Q tt s') ->
  wp (hash_insert a o name i) s Q.
Proof.
  intros HF Ho HQ. pose proof HF as [_ _ _ _ _ (sp & Ha & Hw & Hg) _].
  destruct (at_work_hash_insert i o b req sp name Hw Ho Hname) as (sp' & Hrun & Hw' & Hk).
  eapply wp_space_res; [done|done|]. apply HQ. eapply fc_put_space; [done|done|done|done|done|].
  unfold entry_rights. by rewrite (aw_core _ _ _ _ Hw').
Qed.

Lemma wf_hash_delete s P L o b req T Q :
  foc s P L (Open (o, b, req) true) T ->
  (forall s', foc s' P L (Open (o, b, req) false) T -> Q tt s') ->
  wp (hash_delete a o name i) s Q.
Proof.
  intros HF HQ. pose proof HF as [_ _ _ _ _ (sp & Ha & Hw & Hg) _].
  destruct (at_work_hash_delete i o b req sp name Hw Hname) as (sp' & Hrun & Hw' & Hk).
  eapply wp_space_res; [done|done|]. apply HQ. eapply fc_put_space; [done|done|done|done|done|].
  unfold entry_rights. by rewrite (aw_core _ _ _ _ Hw').
Qed.

Lemma wf_ip_get s P L ev T o p Q :
  foc s P L ev T -> P !! o = Some p -> Q p s -> wp (ip_get o) s Q.
Proof. intros HF Ho HQ. apply (wp_ip_get o p); [by rewrite (fc_ports _ _ _ _ _ _ _ _ _ HF)|done]. Qed.

Lemma wf_ip_mod s P L ev T o p f T' Q :
  foc s P L ev T -> P !! o = Some p -> port_ok o (f p) ->
  (ip_active (f p) = true -> ip_active p = true) ->
  (forall r, T' r = T r + port_move o p (f p) r) ->
  (forall s', foc s' (<[o := f p]> P) L ev T' -> Q tt s') -> wp (ip_mod o f) s Q.
Proof.
  intros HF Ho Hok Hact HT HQ. apply (wp_ip_mod o f p); [by rewrite (fc_ports _ _ _ _ _ _ _ _ _ HF)|].
  apply HQ. eapply fc_ext; [by apply fc_put_port|done].
Qed.

Lemma wf_log s P L ev T e Q :
  foc s P L ev T -> (forall s', foc s' P (L ++ [e]) ev (T ⊖ event_rights e) -> Q tt s') ->
  wp (log e) s Q.
Proof. intros HF HQ. apply wp_log, HQ. by apply fc_put_log. Qed.

(** *** Changes of a port *)

Lemma ind_target r x o : target x = Some o -> target r <> Some o -> ind r x = 0.
Proof. intros Hx Hr. apply ind_ne. by intros ->. Qed.

(** The reference a port in transit has to its destination, which is a port *)
Definition transit_rights (p : ipc_port) : list right :=
  when ((ip_receiver_name p =? MACH_PORT_NULL) && negb (ip_destination p =? IP_NULL))
    [RRef (ip_destination p); RPort (ip_destination p)].

(** A port's receiver, as a right *)
Definition home_rights (o : Z) (p : ipc_port) : list right :=
  if ip_receiver_name p =? MACH_PORT_NULL then [RHome o IS_NULL MACH_PORT_NULL]
  else [RHome o (ip_receiver p) (ip_receiver_name p)].

Lemma home_rights_eq o p : home_rights o p = [RHome o (ip_home p) (ip_receiver_name p)].
Proof. unfold home_rights, ip_home. by destruct (Z.eqb_spec (ip_receiver_name p) MACH_PORT_NULL) as [->|]. Qed.

Lemma home_rights_other o p r : match r with RHome _ _ _ => False | _ => True end -> cnt r (home_rights o p) = 0.
Proof. intros Hr. rewrite home_rights_eq. cbn [cnt]. rewrite ind_ne; [done|by intros ->]. Qed.

(** The request slots, and whether the port is in transit *)
Definition slot_move (o : Z) (p p' : ipc_port) (r : right) : Z :=
  match r with
  | RSlot x k n => if decide (x = o) then slot_count (ip_requests p') k n - slot_count (ip_requests p) k n else 0
  | RTransit x => if decide (x = o) then transit_count p' - transit_count p else 0
  | _ => 0
  end.

Lemma home_count_rights o p b n :
  ip_active p = true -> home_count p b n = cnt (RHome o b n) (home_rights o p).
Proof.
  intros Ha. rewrite home_rights_eq. unfold home_count. rewrite Ha. cbn [andb].
  destruct (Z.eqb_spec (ip_home p) b) as [<-|Hb], (Z.eqb_spec (ip_receiver_name p) n) as [<-|Hn]; cbn [andb cnt];
    rewrite ?ind_eq; rewrite ?ind_ne by congruence; done.
Qed.

(** The change of an active port, part by part *)
Lemma move_active o p p' r :
  ip_active p = true -> ip_active p' = true -> imq_messages (ip_messages p') = imq_messages (ip_messages p) ->
  port_move o p p' r =
    (cnt r (sonce_rights (ip_nsrequest p)) - cnt r (sonce_rights (ip_nsrequest p')))
    + (cnt r (sonce_rights (ip_pdrequest p)) - cnt r (sonce_rights (ip_pdrequest p')))
    + (cnt r (requests_rights (ip_requests p)) - cnt r (requests_rights (ip_requests p')))
    + (cnt r (transit_rights p) - cnt r (transit_rights p'))
    + (ip_references p' - ip_references p) * ind r (RRef o)
    + (ip_srights p' - ip_srights p) * ind r (RSend o)
    + (ip_sorights p' - ip_sorights p) * ind r (RSonce o)
    + (cnt r (home_rights o p') - cnt r (home_rights o p)) + slot_move o p p' r.
Proof.
  intros Ha Ha' Hm. unfold port_move, port_rights. rewrite Ha, Ha', Hm. cbn [when].
  fold (transit_rights p) (transit_rights p'). rewrite !cnt_app.
  assert (Hhome : forall q, (forall x b n, r <> RHome x b n) \/ target r <> Some o -> cnt r (home_rights o q) = 0).
  { intros q Hr. apply cnt_not_in. rewrite home_rights_eq.
    intros ->%list_elem_of_singleton. destruct Hr as [Hr|Hr]; [by eapply Hr|done]. }
  destruct (decide (target r = Some o)) as [Ht|Ht].
  - destruct r; simpl in *; simplify_eq; rewrite ?decide_True by done;
      rewrite ?ind_eq, ?Ha, ?Ha'; repeat (rewrite ind_ne by done);
      rewrite ?(Hhome p), ?(Hhome p') by (by left); rewrite <- ?home_count_rights by done; lia.
  - rewrite !(ind_target r _ o), !Hhome by (done || by right).
    destruct r; simpl in *; try rewrite decide_False by congruence; lia.
Qed.

Lemma slot_move_transit o p p' r :
  ip_requests p' = ip_requests p -> slot_move o p p' r = (transit_count p' - transit_count p) * ind r (RTransit o).
Proof.
  intros Hq. destruct r; simpl; try (rewrite ind_ne by done; lia).
  - rewrite Hq, ind_ne by done. destruct (decide _); lia.
  - unfold ind. destruct (decide _) as [->|]; [rewrite decide_True by done|rewrite decide_False by congruence]; lia.
Qed.

Lemma slot_move_same o p p' r :
  ip_requests p' = ip_requests p -> transit_count p' = transit_count p -> slot_move o p p' r = 0.
Proof. intros Hq Ht. rewrite slot_move_transit, Ht by done. lia. Qed.

(** Who holds the receive right of a port in transit knows that it is: nobody else can. *)
Lemma fc_transit s P L ev T o p :
  focus s0 a i name s P L ev (T ⊕ home_rights o p) -> hand_ok T -> P !! o = Some p -> ip_active p = true ->
  focus s0 a i name s P L ev (fun r => (T ⊕ home_rights o p) r + transit_count p * ind r (RTransit o)).
Proof.
  intros HF [Hn Hd] Ho Ha.
  assert (Hlone : forall s1, (forall r, held s1 r = held s r - cnt r (ev_rights a i ev)) ->
    accounts s (RTransit o) (held s1 (RTransit o) + (T (RTransit o) + transit_count p))).
  { intros s1 Hs1. pose proof (held_dominated s1 o) as (_ & _ & _ & _ & _ & Hd1).
    pose proof (Hd o) as (_ & _ & _ & _ & _ & Hd2). pose proof (fc_ledger _ _ _ _ _ _ _ _ _ HF) as HL.
    pose proof (HL (RHome o IS_NULL MACH_PORT_NULL)) as HH. pose proof (HL (RTransit o)) as HR.
    unfold minus, plus, accounts in HH, HR |- *. cbn [target] in *. rewrite (fc_ports _ _ _ _ _ _ _ _ _ HF), Ho in *.
    cbn [port_exact port_count] in *. unfold agree in *. rewrite Hs1 in Hd1.
    rewrite (home_count_rights o p) in HH by done. pose proof (Hs1 (RHome o IS_NULL MACH_PORT_NULL)).
    rewrite (home_rights_other _ _ (RTransit o)) in HR by done. rewrite (Hs1 (RTransit o)).
    pose proof (held_nonneg s1 (RTransit o)). rewrite Hs1 in *. pose proof (Hn (RTransit o)). lia. }
  destruct (fc_without _ _ _ _ _ _ _ _ _ HF) as [s1 Hs1]. specialize (Hlone s1 Hs1).
  destruct HF. split; try done. intros r. specialize (fc_ledger0 r). unfold minus, plus in *.
  destruct (decide (r = RTransit o)) as [->|Hr].
  - rewrite ind_eq, (home_rights_other _ _ (RTransit o)) by done. rewrite Hs1 in Hlone.
    match goal with H : accounts s _ ?x |- accounts s _ ?y => replace y with x by lia end. done.
  - rewrite ind_ne by done. by rewrite Z.mul_0_r, Z.add_0_r.
Qed.

(** [port_ok] when the fields it speaks of are as before, or in range *)
Lemma port_ok_change o p p' :
  port_ok o p -> ip_bits p' = ip_bits p -> 0 < ip_references p' < IO_MAX_REFERENCES ->
  0 <= ip_srights p' -> 0 <= ip_sorights p' -> requests_ok (ip_requests p') ->
  imq_messages (ip_messages p') = imq_messages (ip_messages p) ->
  (imq_receivers (ip_messages p') = imq_receivers (ip_messages p) \/ imq_receivers (ip_messages p') = []) ->
  imq_senders (ip_messages p') = imq_senders (ip_messages p) ->
  0 <= ip_impcount p' < 2 ^ 24 -> (transit_ok p -> transit_ok p') -> port_ok o p'.
Proof.
  intros [] Hb ? ? ? ? ? Hrc ? ? Htr. split; [..|by apply Htr]; try done.
  - by rewrite Hb.
  - unfold IP_PREALLOC in *. by rewrite Hb.
  - unfold ip_active in *. rewrite Hb. intros Hd. destruct (po_dead0 Hd) as (Hm & Hr & Hs).
    split_and!; [congruence| |congruence]. destruct Hrc; congruence.
Qed.

(** The three counters of a port change, nothing else the ledger sees. *)
Lemma move_counts o p p' r :
  port_rights p' = port_rights p -> ip_active p' = ip_active p -> ip_requests p' = ip_requests p ->
  ip_receiver p' = ip_receiver p -> ip_receiver_name p' = ip_receiver_name p ->
  port_move o p p' r = (ip_references p' - ip_references p) * ind r (RRef o)
    + (ip_srights p' - ip_srights p) * ind r (RSend o)
    + (ip_sorights p' - ip_sorights p) * ind r (RSonce o).
Proof.
  intros Hr Ha Hq Hv Hn. unfold port_move. rewrite Hr.
  destruct (decide (target r = Some o)) as [Ht|Ht]; [|rewrite !(ind_target r _ o) by done; lia].
  destruct r; simpl in *; simplify_eq; unfold home_count, ip_home, transit_count; rewrite ?Ha, ?Hq, ?Hv, ?Hn;
    rewrite ?ind_eq; repeat (rewrite ind_ne by done); lia.
Qed.

(** Change counters, and what the ledger does not see, of a port. *)
Lemma wf_ip_counts s P L ev T o p f T' Q :
  foc s P L ev T -> P !! o = Some p ->
  port_rights (f p) = port_rights p -> ip_bits (f p) = ip_bits p -> ip_requests (f p) = ip_requests p ->
  ip_receiver (f p) = ip_receiver p ->
  (ip_receiver_name (f p) = ip_receiver_name p /\
   imq_messages (ip_messages (f p)) = imq_messages (ip_messages p) /\
   imq_receivers (ip_messages (f p)) = imq_receivers (ip_messages p) /\
   imq_senders (ip_messages (f p)) = imq_senders (ip_messages p)) ->
  0 < ip_references (f p) < IO_MAX_REFERENCES -> 0 <= ip_srights (f p) -> 0 <= ip_sorights (f p) ->
  0 <= ip_impcount (f p) < 2 ^ 24 -> (transit_ok p -> transit_ok (f p)) ->
  (forall r, T' r = T r + ((ip_references (f p) - ip_references p) * ind r (RRef o)
    + (ip_srights (f p) - ip_srights p) * ind r (RSend o)
    + (ip_sorights (f p) - ip_sorights p) * ind r (RSonce o))) ->
  (forall s', foc s' (<[o := f p]> P) L ev T' -> Q tt s') -> wp (ip_mod o f) s Q.
Proof.
  intros HF Ho Hr Hb Hq Hv (Hn & Hm & Hrc & Hsd) H1 H2 H3 H4 H5 HT HQ.
  pose proof (fc_port_ok _ _ _ _ _ _ _ _ _ HF o p Ho) as Hok.
  assert (Ha : ip_active (f p) = ip_active p) by (unfold ip_active; by rewrite Hb).
  eapply wf_ip_mod; [done|done| |by rewrite Ha| |done].
  - eapply port_ok_change; [done|done|done|done|done|rewrite Hq; apply Hok|done|by left|done|done|done].
  - intros r. rewrite HT. by rewrite move_counts.
Qed.

Lemma wf_io_is_port s P L ev T o p Q :
  foc s P L ev T -> P !! o = Some p -> Q true s -> wp (io_is_port o) s Q.
Proof.
  intros HF Ho HQ. unfold io_is_port. wp_step. wp_step.
  by rewrite (fc_ports _ _ _ _ _ _ _ _ _ HF), Ho.
Qed.

Lemma wf_io_bits s P L ev T o p Q :
  foc s P L ev T -> P !! o = Some p -> Q (ip_bits p) s -> wp (io_bits o) s Q.
Proof.
  intros HF Ho HQ. unfold io_bits. apply wp_bind. eapply wf_io_is_port; [done|done|].
  apply wp_bind. by eapply wf_ip_get.
Qed.

Lemma wf_reference s P L ev T o p Q :
  foc s P L ev T -> P !! o = Some p -> ip_references p + 1 < IO_MAX_REFERENCES ->
  (forall s', foc s' (<[o := set_ip_references (ip_references p + 1) p]> P) L ev (T ⊕ [RRef o]) -> Q tt s') ->
  wp (io_reference o) s Q.
Proof.
  intros HF Ho Hmax HQ. pose proof (fc_port_ok _ _ _ _ _ _ _ _ _ HF o p Ho) as Hok.
  pose proof (po_refs _ _ Hok). unfold io_reference, io_references, io_set_references.
  do 2 apply wp_bind. eapply wf_io_is_port; [done|done|]. apply wp_bind. eapply wf_ip_get; [done|done|].
  wp_step. wp_step. wp_step; [apply andb_true_iff; rewrite !Z.ltb_lt; lia|].
  apply wp_bind. eapply wf_io_is_port; [done|done|].
  apply (wf_ip_counts s P L ev T o p _ (T ⊕ [RRef o])); try done; try apply Hok; simpl; try lia.
  intros r. unfold plus. simpl. lia.
Qed.

(** *** Giving up a reference *)

Lemma fc_delete_port s P L ev T o p :
  foc s P L ev T -> P !! o = Some p -> ip_references p = 1 -> ip_active p = false ->
  foc (set_ks_ports (delete o P) s) (delete o P) L ev (T ⊖ [RRef o]).
Proof.
  intros HF Ho H1 Hd. pose proof (fc_port_ok _ _ _ _ _ _ _ _ _ HF o p Ho) as Hok.
  destruct HF as [HP HLg HL HO HS HSp HFr].
  assert (Hps : ks_psets s !! o = None) by (apply (oo_disjoint _ HO); rewrite HP; eauto).
  split; try done.
  - intros r. specialize (HL r). unfold held, minus in *. simpl. rewrite <- HP.
    rewrite (mcnt_delete _ _ _ o p) by (by rewrite HP).
    assert (Hp0 : cnt r (port_rights p) = 0).
    { unfold port_rights. rewrite Hd. destruct (po_dead _ _ Hok Hd) as (-> & _). done. }
    rewrite Hp0. unfold accounts in *. simpl. destruct (target r) as [o'|] eqn:Ht.
    + rewrite lookup_delete. destruct (decide (o = o')) as [<-|Hne].
      * rewrite Hps. destruct r; try done. simpl in Ht. injection Ht as ->. rewrite HP, Ho in HL. simpl in HL.
        rewrite ind_eq, HP. lia.
      * rewrite ind_ne by (intros ->; simpl in Ht; congruence).
        match goal with H : context [agree _ ?y _] |- context [agree _ ?z _] => replace z with y by lia end. done.
    + rewrite ind_ne by (intros ->; done).
      match goal with H : match r with RName _ _ => ?y <= 1 | _ => _ end |- _ =>
        match goal with |- match r with RName _ _ => ?z <= 1 | _ => _ end => replace z with y by lia end end. done.
  - destruct HO as [HO1 HO2 HO3 HO4]. split; [|done| |done]; simpl.
    + intros o' q. rewrite lookup_delete. destruct (decide _); [done|]. rewrite <- HP. apply HO1.
    + intros o' [q Hq]. apply HO3. rewrite lookup_delete in Hq. destruct (decide _); [done|]. rewrite HP. eauto.
Qed.

Lemma finalize_free s o p :
  ks_ports s !! o = Some p -> ip_active p = false -> port_ok o p ->
  wp (io_free IOT_PORT o) (put_port s o (set_ip_references 0 p))
    (fun _ s' => s' = set_ks_ports (delete o (ks_ports s)) s).
Proof.
  intros Ho Hd Hok. destruct (po_dead _ _ Hok Hd) as (_ & Hr & Hs).
  unfold io_free, ipc_port_finalize, ipc_mqueue_deinit. simpl. do 2 wp_step.
  eapply wp_ip_get; [apply ks_ports_put|].
  do 2 wp_step; [change (ip_active (set_ip_references 0 p)) with (ip_active p); by rewrite Hd|].
  assert (Hend : forall q s1, s1 = put_port s o q -> imq_receivers (ip_messages q) = [] -> imq_senders (ip_messages q) = [] ->
    wp (_ ← ip_mod o (fun p => set_ip_messages (set_imq_set_links [] (ip_messages p)) p);
        p ← ip_get o;
        massert (match imq_receivers (ip_messages p), imq_senders (ip_messages p) with
                 | [], [] => true | _, _ => false end)) s1
      (fun _ s' => wp (modify (fun s => set_ks_ports (delete o (ks_ports s)) s)) s'
        (fun _ s2 => s2 = set_ks_ports (delete o (ks_ports s)) s))).
  { intros q s1 -> Hq1 Hq2. apply wp_bind. eapply wp_ip_mod; [apply ks_ports_put|]. rewrite put_port_put.
    apply wp_bind. eapply wp_ip_get; [apply ks_ports_put|]. simpl. rewrite Hq1, Hq2. wp_step; [done|]. wp_step.
    simpl. rewrite delete_insert_eq. done. }
  apply wp_bind. destruct (ip_requests (set_ip_references 0 p)); simpl.
  - eapply wp_ip_mod; [apply ks_ports_put|]. rewrite put_port_put. by eapply Hend.
  - wp_step. by eapply Hend.
Qed.

(** The ports after a reference is given up *)
Definition unref (P : gmap Z ipc_port) (o : Z) (p : ipc_port) : gmap Z ipc_port :=
  if ip_references p =? 1 then delete o P else <[o := set_ip_references (ip_references p - 1) p]> P.

Lemma unref_insert P o p q : unref (<[o := q]> P) o p = unref P o p.
Proof. unfold unref. destruct (_ =? 1); [apply delete_insert_eq|apply insert_insert_eq]. Qed.

Lemma wf_release s P L ev T o p Q :
  foc s P L ev T -> P !! o = Some p -> 0 <= T (RLive o) < T (RRef o) ->
  (forall s' P', foc s' P' L ev (T ⊖ [RRef o]) -> P' = unref P o p -> Q tt s') ->
  wp (io_release o) s Q.
Proof.
  intros HF Ho HT HQ. pose proof (fc_port_ok _ _ _ _ _ _ _ _ _ HF o p Ho) as Hok.
  pose proof (po_refs _ _ Hok). destruct (fc_refs _ _ _ _ _ _ _ _ _ HF o p Ho) as (_ & _ & _ & Hlast).
  pose proof (fc_ports _ _ _ _ _ _ _ _ _ HF) as HP.
  unfold io_release, io_references, io_set_references.
  do 2 apply wp_bind. eapply wf_io_is_port; [done|done|]. apply wp_bind. eapply wf_ip_get; [done|done|].
  wp_step. wp_step. wp_step; [apply andb_true_iff; rewrite !Z.ltb_lt; lia|].
  do 2 wp_step. eapply wf_io_is_port; [done|done|].
  apply (wp_ip_mod o _ p); [by rewrite HP|].
  unfold unref in HQ. destruct (Z.eqb_spec (ip_references p) 1) as [H1|H1].
  - rewrite H1. change (1 - 1) with 0. unfold io_bits, io_is_port. do 4 wp_step. rewrite ks_ports_put.
    wp_step. wp_step. eapply wp_ip_get; [apply ks_ports_put|]. wp_step. simpl. rewrite (po_otype _ _ Hok).
    eapply wp_mono; [|apply finalize_free; [by rewrite HP|by apply Hlast|done]].
    intros [] s' ->. rewrite HP. eapply HQ.
    + apply (fc_delete_port s P L ev T o p); try done. by apply Hlast.
    + done.
  - wp_step. eapply HQ.
    + eapply fc_ext; [eapply (fc_put_port _ _ _ _ _ _ _ _ _ o p)|]; [done|done| |done|].
      * eapply port_ok_change; [done|done|simpl; lia|apply Hok|apply Hok|apply Hok|done|by left|done|apply Hok|done].
      * intros r. cbv beta. rewrite move_counts by done. unfold minus. simpl. lia.
    + done.
Qed.

(** *** Notifications *)

Lemma wf_send_no_senders s P L ev T ns Q :
  foc s P L ev T ->
  (forall s', foc s' P (L ++ if ns.1 =? IP_NULL then [] else [NotifyNoSenders ns.1 ns.2]) ev
     (T ⊖ sonce_rights ns.1) -> Q tt s') ->
  wp (send_no_senders ns) s Q.
Proof.
  intros HF HQ. unfold send_no_senders, sonce_rights in *. destruct (ns.1 =? IP_NULL) eqn:He; simpl in *.
  - apply HQ. rewrite app_nil_r. eapply fc_ext; [done|]. intros r. unfold minus. simpl. lia.
  - eapply wf_log; [done|]. done.
Qed.

Lemma wf_send_port_deleted s P L ev T request Q :
  foc s P L ev T ->
  (forall s', foc s' P (L ++ if request =? IP_NULL then [] else [NotifyPortDeleted request name]) ev
     (T ⊖ sonce_rights request) -> Q tt s') ->
  wp (send_port_deleted request name) s Q.
Proof.
  intros HF HQ. unfold send_port_deleted, sonce_rights in *. destruct (request =? IP_NULL) eqn:He; simpl in *.
  - apply HQ. rewrite app_nil_r. eapply fc_ext; [done|]. intros r. unfold minus. simpl. lia.
  - eapply wf_log; [done|]. done.
Qed.

(** *** Dropping a send right of a live port: the no-senders request may be due. *)

(** The port without the send right, and the notification that is due *)
Definition drop_send (p : ipc_port) : ipc_port * (Z * Z) :=
  let p1 := set_ip_srights (ip_srights p - 1) p in
  if (ip_srights p - 1 =? 0) && negb (ip_nsrequest p =? IP_NULL)
  then (set_ip_nsrequest IP_NULL p1, (ip_nsrequest p, ip_mscount p)) else (p1, (IP_NULL, 0)).

Lemma wf_drop_sright s P L ev T o p Q :
  foc s P L ev T -> P !! o = Some p -> ip_active p = true -> 0 < ip_srights p ->
  (forall s', foc s' (<[o := (drop_send p).1]> P) L ev (T ⊖ [RSend o] ⊕ sonce_rights (drop_send p).2.1) ->
    Q (drop_send p).2 s') ->
  wp (drop_sright o) s Q.
Proof.
  intros HF Ho Ha Hs HQ. pose proof (fc_port_ok _ _ _ _ _ _ _ _ _ HF o p Ho) as Hok.
  unfold drop_sright, drop_send in *. apply wp_bind. eapply wf_ip_get; [done|done|]. apply wp_bind.
  apply (wf_ip_counts s P L ev T o p _ (T ⊖ [RSend o])); try done; try apply Hok; simpl; try lia.
  { intros r. unfold minus. simpl. lia. }
  intros s1 HF1. destruct (_ && _) eqn:He; simpl in HQ.
  - apply wp_bind. eapply (wf_ip_mod _ _ _ _ _ o (set_ip_srights (ip_srights p - 1) p) _
      (T ⊖ [RSend o] ⊕ sonce_rights (ip_nsrequest p))); [done|apply lookup_insert_eq|..].
    + eapply port_ok_change; [done|done|apply Hok|simpl; lia|apply Hok|apply Hok|done|by left|done|apply Hok|done].
    + done.
    + intros r. rewrite move_active by done. simpl. rewrite slot_move_same by done. unfold plus. simpl.
      change (transit_rights (set_ip_nsrequest _ _)) with (transit_rights p).
      change (transit_rights (set_ip_srights _ _)) with (transit_rights p).
      change (home_rights o (set_ip_nsrequest _ _)) with (home_rights o p).
      change (home_rights o (set_ip_srights _ _)) with (home_rights o p). lia.
    + rewrite insert_insert_eq. intros s2 HF2. wp_step. by apply HQ.
  - wp_step. apply HQ. eapply fc_ext; [done|]. intros r. unfold plus. simpl. lia.
Qed.

(** *** Requests *)

(** The port that the request in slot [k] notifies; the one of an entry's request *)
Definition slot_request (p : ipc_port) (k : Z) : Z :=
  match ip_requests p with Some t => IPR_SOR_PORT (ipr_soright (rat t k)) | None => IP_NULL end.
Definition request_of (p : ipc_port) (req : Z) : Z :=
  if req =? IE_REQ_NONE then IP_NULL else slot_request p req.

Definition slot_type (p : ipc_port) (k : Z) : Z :=
  match ip_requests p with Some t => request_type (rat t k) | None => 0 end.

Lemma slot_type_zero p k : (slot_type p k =? 0) = negb (IP_VALID (slot_request p k)).
Proof.
  unfold slot_type, slot_request, request_type. destruct (ip_requests p) as [t|]; [|done].
  destruct (IP_VALID (IPR_SOR_PORT (ipr_soright (rat t k)))); [|done].
  by destruct (IPR_SOR_SPREQ (ipr_soright (rat t k))), (IPR_SOR_SPARMED (ipr_soright (rat t k))).
Qed.

Lemma wf_port_request_cancel s P L ev T o p k Q :
  foc s P L ev T -> P !! o = Some p -> ip_active p = true -> 0 < T (RSlot o k name) ->
  (forall s' rq, foc s' (<[o := set_ip_requests rq p]> P) L ev
     (T ⊖ [RSlot o k name] ⊕ sonce_rights (slot_request p k)) -> Q (slot_request p k) s') ->
  wp (ipc_port_request_cancel o name k) s Q.
Proof.
  intros HF Ho Ha HT HQ. pose proof (fc_port_ok _ _ _ _ _ _ _ _ _ HF o p Ho) as Hok.
  pose proof (fc_ports _ _ _ _ _ _ _ _ _ HF) as HP.
  destruct (fc_slot _ _ _ _ _ _ _ _ _ HF o p k name Ho HT) as (t & l & Ht & Hf & Hk & Hn & Hn0).
  eapply wp_Ok; [apply (ipc_port_request_cancel_run s o p t l k name); try done; by rewrite HP|].
  assert (Hsr : slot_request p k = IPR_SOR_PORT (ipr_soright (rat t k))) by (unfold slot_request; by rewrite Ht).
  rewrite <- Hsr. apply (HQ _ (Some (table_cancel t k))). rewrite Hsr.
  eapply fc_ext; [eapply (fc_put_port _ _ _ _ _ _ _ _ _ o p)|]; [done|done| |done|].
  - eapply port_ok_change; [done|done|apply Hok|apply Hok|apply Hok| |done|by left|done|apply Hok|done].
    simpl. eexists. apply (table_cancel_ok t k l); try done. by rewrite Hn.
  - intros r. cbv beta. rewrite move_active by done.
    change (ip_requests (set_ip_requests ?q _)) with q. rewrite Ht.
    rewrite table_cancel_rights by (by rewrite ?Hn).
    change (transit_rights (set_ip_requests _ _)) with (transit_rights p).
    change (home_rights o (set_ip_requests _ _)) with (home_rights o p).
    assert (Hsm : slot_move o p (set_ip_requests (Some (table_cancel t k)) p) r = - ind r (RSlot o k name)).
    { destruct r; cbn [slot_move]; try (rewrite ind_ne by done; lia).
      2: { change (transit_count (set_ip_requests _ p)) with (transit_count p). rewrite ind_ne by done. destruct (decide _); lia. }
      unfold ind.
      change (ip_requests (set_ip_requests ?q _)) with q.
      destruct (decide (port = o)) as [->|]; [|rewrite decide_False by congruence; lia].
      rewrite Ht, table_cancel_count by done.
      destruct (decide (index = k)) as [->|]; [|rewrite decide_False by congruence; lia].
      rewrite slot_count_at, Hn by lia. destruct (Z.eqb_spec name name0) as [<-|Hne]; simpl.
      - rewrite (proj2 (Z.eqb_neq _ _) Hn0), decide_True by done. simpl. lia.
      - rewrite decide_False by congruence. lia. }
    unfold slot_rights. rewrite Hn, (proj2 (Z.eqb_neq _ _) Hn0). cbn [negb when].
    rewrite Hsm. unfold plus, minus. simpl. lia.
Qed.

Lemma set_ip_requests_id p : set_ip_requests (ip_requests p) p = p.
Proof. by destruct p. Qed.

Lemma wf_request_cancel s P L o b req lk T p Q :
  foc s P L (Open (o, b, req) lk) T -> P !! o = Some p -> ip_active p = true ->
  (req <> IE_REQ_NONE -> 0 < T (RSlot o req name)) ->
  (forall s' rq, foc s' (<[o := set_ip_requests rq p]> P) L (Open (o, b, IE_REQ_NONE) lk)
     (T ⊖ when (negb (req =? IE_REQ_NONE)) [RSlot o req name] ⊕ sonce_rights (request_of p req)) ->
     Q (request_of p req) s') ->
  wp (ipc_right_request_cancel_macro a o name i) s Q.
Proof.
  intros HF Ho Ha HT HQ. pose proof HF as [_ _ _ _ _ (sp & _ & _ & Hg) _]. simpl in Hg.
  unfold ipc_right_request_cancel_macro, ipc_right_request_cancel.
  apply wp_bind. eapply wf_ie_get; [done|]. intros ix. simpl.
  unfold request_of in HQ. destruct (Z.eqb_spec req IE_REQ_NONE) as [Hr|Hr]; simpl in HQ.
  - wp_step. apply (HQ _ (ip_requests p)). rewrite set_ip_requests_id, insert_id by done. subst req.
    eapply fc_ext; [done|]. intros r. unfold plus, minus. simpl. lia.
  - apply wp_bind. eapply wf_ip_get; [done|done|]. wp_step. wp_step; [done|].
    apply wp_bind. eapply wf_ie_get; [done|]. intros ix'. simpl. wp_step. wp_step; [apply Z.eqb_refl|].
    rewrite (proj2 (Z.eqb_neq _ _) Hr).
    apply wp_bind. eapply wf_port_request_cancel; [done|done|done|by apply HT|]. intros s1 rq HF1.
    apply wp_bind. eapply wf_ie_mod; [done|entry_fields|done|done|]. intros s2 HF2.
    apply wp_bind. eapply wf_entry_modified; [done|]. intros s3 HF3. wp_step. by eapply HQ.
Qed.

Lemma wf_request_type s P L ev T o p k Q :
  foc s P L ev T -> P !! o = Some p -> 0 < T (RSlot o k name) ->
  Q (slot_type p k) s ->
  wp (ipc_port_request_type o name k) s Q.
Proof.
  intros HF Ho HT HQ. destruct (fc_slot _ _ _ _ _ _ _ _ _ HF o p k name Ho HT) as (t & l & Ht & Hf & Hk & Hn & Hn0).
  unfold ipc_port_request_type. apply wp_bind. eapply wf_ip_get; [done|done|]. rewrite Ht.
  wp_step. wp_step; [done|]. apply wp_bind, (wp_mderef _ _ _ t); [done|].
  wp_step. wp_step; [unfold IE_REQ_NONE; by rewrite (proj2 (Z.eqb_neq k 0)) by lia|].
  apply wp_bind, (wp_lift _ _ _ (rat t k)); [apply ipr_get_at; lia|].
  wp_step. wp_step; [by apply Z.eqb_eq|]. wp_step. unfold slot_type in HQ. by rewrite Ht in HQ.
Qed.
End rules.
End focus.
