(* ===== verification/IpcSample.v ===== *)
(** * Deciding the invariant, and a small kernel

    [ledger_check] decides the ledger of a concrete state; it is sound for every state.  The
    module [Sample] is a kernel with two spaces, four ports and a port set in which every
    kind of capability occurs; the operations are run on it where a theorem has hypotheses. *)

From S2P Require Import IpcTypes IpcBits IpcHash IpcEntry IpcGrow IpcState IpcLedger IpcPort IpcRequest IpcFocus.

(** ** All rights of a state *)

Definition map_rights {A} (f : Z -> A -> list right) (m : gmap Z A) : list right :=
  map_to_list m ≫= fun kv => f kv.1 kv.2.

Definition all_rights (s : kstate) : list right :=
  map_rights space_rights (ks_spaces s) ++ map_rights (fun _ => port_rights) (ks_ports s)
  ++ map_rights (fun _ => kmsg_rights) (ks_kmsgs s) ++ (ks_log s ≫= event_rights)
  ++ reap_rights (ks_ith_messages s).

(** What the objects count *)
Definition port_counted (o : Z) (p : ipc_port) : list right :=
  [RRef o; RLive o; RSend o; RSonce o; RHome o (ip_home p) (ip_receiver_name p); RTransit o]
  ++ match ip_requests p with
     | Some t => (fun k => RSlot o k (ipr_name (rat t k))) <$> seqZ 0 (rlen t)
     | None => []
     end.
Definition pset_counted (o : Z) (_ : ipc_pset) : list right := [RRef o; RSet o].

Definition all_counted (s : kstate) : list right :=
  map_rights port_counted (ks_ports s) ++ map_rights pset_counted (ks_psets s)
  ++ map_rights (fun k (_ : ipc_kmsg) => [RMsg k]) (ks_kmsgs s).

#[global] Instance accounts_dec s r x : Decision (accounts s r x).
Proof.
  unfold accounts, agree, pset_agree.
  repeat (case_match; try apply _).
Defined.

(** Rights in hand, as a list *)
Definition hand (l : list right) : right -> Z := fun r => cnt r l.

Definition ledger_check (s : kstate) (l : list right) : bool :=
  let h := all_rights s ++ l in
  forallb (fun r => bool_decide (accounts s r (cnt r h))) (h ++ all_counted s).

Lemma cnt_perm r l l' : l ≡ₚ l' -> cnt r l = cnt r l'.
Proof. induction 1; cbn [cnt]; lia. Qed.

Lemma map_rights_cnt {A} (f : Z -> A -> list right) r m : cnt r (map_rights f m) = mcnt f r m.
Proof.
  unfold map_rights. induction m as [|k v m Hk IH] using map_ind.
  - by rewrite map_to_list_empty, mcnt_empty.
  - rewrite mcnt_new, <- IH by done. rewrite (cnt_perm r _ (f k v ++ (map_to_list m ≫= fun kv => f kv.1 kv.2))).
    + by rewrite cnt_app.
    + by rewrite map_to_list_insert.
Qed.

Lemma all_rights_cnt s r : cnt r (all_rights s) = held s r.
Proof. unfold all_rights, held. rewrite !cnt_app, !map_rights_cnt. lia. Qed.

Lemma cnt_not_elem r l : r ∉ l -> cnt r l = 0.
Proof.
  induction l as [|x l IH]; [done|]. intros [Hx Hl]%not_elem_of_cons. cbn [cnt].
  rewrite ind_ne by done. by rewrite IH.
Qed.

Lemma elem_of_map_rights {A} (f : Z -> A -> list right) m k v r :
  m !! k = Some v -> r ∈ f k v -> r ∈ map_rights f m.
Proof.
  intros Hk Hr. unfold map_rights. apply list_elem_of_bind. exists (k, v). split; [done|].
  by apply elem_of_map_to_list.
Qed.

Lemma port_uncounted o p r :
  target r = Some o -> r ∉ port_counted o p ->
  port_count p r = 0 /\ match r with RSlot _ _ _ | RHome _ _ _ | RSet _ => True | _ => False end.
Proof.
  intros Ht Hr. unfold port_counted in Hr. destruct r as [x|x|x|x|x k n|x a n|x a|k|x|x|x|k]; simplify_eq/=; try set_solver.
  - split; [|done]. unfold slot_count. destruct (ip_requests p) as [t|]; [|done].
    destruct (t !! Z.to_nat k) as [ipr|] eqn:Hk; [|done].
    destruct (Z.ltb_spec 0 k); [|done]. destruct (Z.eqb_spec (ipr_name ipr) n) as [<-|]; [|done].
    destruct Hr. rewrite !elem_of_cons. do 6 right. apply list_elem_of_fmap. exists k. unfold rat. rewrite Hk.
    split; [done|]. apply elem_of_seqZ. apply lookup_lt_Some in Hk. unfold rlen. lia.
  - split; [|done]. unfold home_count. destruct (ip_active p); [|done].
    destruct (Z.eqb_spec (ip_home p) a) as [<-|]; [|done].
    destruct (Z.eqb_spec (ip_receiver_name p) n) as [<-|]; [set_solver|done].
Qed.

Lemma ledger_check_sound s l : ledger_check s l = true -> ledger s (hand l).
Proof.
  intros Hc r. unfold ledger_check in Hc. set (h := all_rights s ++ l) in *.
  replace (held s r + hand l r) with (cnt r h) by (unfold h, hand; by rewrite cnt_app, all_rights_cnt).
  destruct (decide (r ∈ h ++ all_counted s)) as [Hr|Hr].
  { apply (forallb_elem _ _ r) in Hc; [|done]. by apply bool_decide_eq_true in Hc. }
  apply not_elem_of_app in Hr as [Hh Hr]. rewrite (cnt_not_elem r h Hh). unfold all_counted in Hr.
  apply not_elem_of_app in Hr as [Hp Hr]. apply not_elem_of_app in Hr as [Hs Hk]. unfold accounts.
  destruct (target r) as [o|] eqn:Ht.
  - destruct (ks_ports s !! o) as [p|] eqn:Ho.
    + destruct (port_uncounted o p r Ht) as [-> _]; [|by unfold agree; destruct (port_exact p r)].
      intros Hr. by apply Hp, (elem_of_map_rights _ _ o p).
    + destruct (ks_psets s !! o) as [ps|] eqn:Hps; [|by destruct r].
      assert (Hr : r ∉ pset_counted o ps) by (intros Hr; by apply Hs, (elem_of_map_rights _ _ o ps)).
      destruct r; simplify_eq/=; set_solver.
  - destruct r; simplify_eq/=; [lia| |by destruct (ks_psets s !! _)|by destruct (ks_kmsgs s !! _)]. destruct (ks_kmsgs s !! _) eqn:Hm; [|done].
    destruct Hk. eapply elem_of_map_rights; [done|]. set_solver.
Qed.

(** ** A small kernel *)
Module Sample.
#[export] Instance sample_env : ipc_env := {
  ipc_space_kernel := 0x9000;
  ipc_table_requests := [3; 6; 6];
  ipc_table_entries := [16; 32; 32];
  current_task_imp_base := 0;
  task_imp_base := fun _ => 0;
  ipc_importance_task_is_any_receiver_type := fun _ => false;
  task_is_importance_donor := false;
}.

Definition queue (name : Z) : ipc_mqueue := mk_ipc_mqueue [] 0 name 0 5 false [] [] [].
Definition sample_port (active : bool) (refs receiver name : Z) (requests : option (list ipc_port_request))
    (srights sorights : Z) : ipc_port :=
  mk_ipc_port (io_makebits active IOT_PORT 0) refs (queue name) false false false false false false 0
    receiver 0 0 0 requests 0 0 0 srights sorights.

(** Space 0x1000: both rights to port 0x100; two references to a send right to port 0x200,
    with a request that notifies port 0x100; a send-once right to port 0x200; two references
    to a dead name; the receive right of port 0x300; a send right to the dead port 0x400; a
    port set.  Space 0x2000: the receive right of port 0x200. *)
Definition bare1 : ipc_space := mk_ipc_space 2 16 8
  ([mk_ipc_entry 0 IE_BITS_GEN_MASK 0 8;
    mk_ipc_entry 0x100 0x04030001 0 0; mk_ipc_entry 0x200 0x04010002 0 1;
    mk_ipc_entry 0x200 0x04040001 0 0; mk_ipc_entry 0 0x04100002 0 0;
    mk_ipc_entry 0x300 0x04020000 0 0; mk_ipc_entry 0x400 0x04010001 0 0;
    mk_ipc_entry 0x500 0x04080000 0 0]
   ++ map (fun i => mk_ipc_entry 0 IE_BITS_GEN_MASK 0 (if i =? 15 then 0 else i + 1)) (seqZ 8 8)) 0 1 16 0.
Definition space1 : ipc_space :=
  Eval vm_compute in
    match (sp ← ipc_hash_insert bare1 0x200 0x204 2; ipc_hash_insert sp 0x400 0x604 6) with
    | Ok sp => sp
    | Fail _ => bare1
    end.
Definition space2 : ipc_space := mk_ipc_space 2 16 14
  ([mk_ipc_entry 0 IE_BITS_GEN_MASK 0 2; mk_ipc_entry 0x200 0x04020000 0 0]
   ++ map (fun i => mk_ipc_entry 0 IE_BITS_GEN_MASK 0 (if i =? 15 then 0 else i + 1)) (seqZ 2 14)) 0 1 16 0.

Definition requests : list ipc_port_request :=
  [mk_ipc_port_request 2 0; mk_ipc_port_request 0x100 0x204; mk_ipc_port_request 0 0].

Definition sample : kstate := mk_kstate
  {[0x100 := sample_port true 2 0x1000 0x104 None 1 1;
    0x200 := sample_port true 3 0x2000 0x104 (Some requests) 1 1;
    0x300 := sample_port true 1 0x1000 0x504 None 0 0;
    0x400 := sample_port false 1 0 0 None 1 0]}
  {[0x500 := mk_ipc_pset (io_makebits true IOT_PORT_SET 0) 1 0x704 []]}
  {[0x1000 := space1; 0x2000 := space2]} ∅ 0 [] 0 [0x600; 0x700] [true; true] [].

Lemma requests_are_free : requests_free requests [2].
Proof.
  split; [done|done|done|apply NoDup_singleton| |].
  2: { intros k Hk. change (rlen requests) with 3 in Hk. assert (k = 1 \/ k = 2) as [->|] by lia; [done|by subst k]. }
  intros k. rewrite list_elem_of_singleton.
  split; [intros ->; done|]. intros [Hk Hn]. change (rlen requests) with 3 in Hk.
  assert (k = 1 \/ k = 2) as [->|] by lia; done.
Qed.

Lemma sample_port_ok o active refs receiver name rq srights sorights :
  IP_VALID o = true -> Z.land o 3 = 0 -> 0 < refs < IO_MAX_REFERENCES -> 0 <= srights -> 0 <= sorights ->
  requests_ok rq -> port_ok o (sample_port active refs receiver name rq srights sorights).
Proof.
  intros. split; [done|done|by destruct active|done|done|done|done|by destruct active|done|done|].
  split; [|done]. intros _ _. split_and!; [done|by right|done].
Qed.

Lemma sample_objects : objects_ok sample.
Proof.
  split.
  - intros o p Hp. unfold sample in Hp. cbn [ks_ports] in Hp.
    repeat (apply lookup_insert_Some in Hp as [[<- <-]|[_ Hp]];
      [apply sample_port_ok; try done; by exists [2]; apply requests_are_free|]).
    apply lookup_singleton_Some in Hp as [<- <-]. by apply sample_port_ok.
  - intros o p Hp. unfold sample in Hp. cbn [ks_psets] in Hp. apply lookup_singleton_Some in Hp as [<- <-]. done.
  - intros o [p Hp]. unfold sample. cbn [ks_psets]. apply lookup_singleton_None. intros <-. by vm_compute in Hp.
  - done.
Qed.

Lemma entries_of_list sp :
  is_table_size sp = tlen (is_table sp) ->
  Forall (fun e => IE_BITS_TYPE (ie_bits e) <> MACH_PORT_TYPE_NONE -> entry_ok (core e)) (is_table sp) ->
  entries_ok ∅ sp.
Proof.
  intros Hs Hall j Hj _ Ht. unfold entry_at in *. unfold tlen in Hs. rewrite Forall_lookup in Hall.
  destruct (lookup_lt_is_Some_2 (is_table sp) (Z.to_nat j)) as [e He]; [lia|].
  rewrite He in *. simpl in *. by apply (Hall (Z.to_nat j) e).
Qed.

Lemma space1_wf : space_wf space1.
Proof.
  intros _. split_and!; [|apply entries_of_list; [done|]|done|split_and!; [done|done|simpl; lia]].
  - exists {[2; 6]}, (seqZ 8 8). apply space_check_sound. by vm_compute.
  - repeat constructor; try done.
Qed.

Lemma space2_wf : space_wf space2.
Proof.
  intros _. split_and!; [|apply entries_of_list; [done|]|done|split_and!; [done|done|simpl; lia]].
  - exists ∅, (seqZ 2 14). apply space_check_sound. by vm_compute.
  - repeat constructor; try done.
Qed.

Lemma sample_kwf : kwf sample (hand []).
Proof.
  split; [apply ledger_check_sound; by vm_compute|apply sample_objects|].
  intros a sp Hsp. unfold sample in Hsp. cbn [ks_spaces] in Hsp. apply lookup_insert_Some in Hsp as [[<- <-]|[_ Hsp]]; [apply space1_wf|].
  apply lookup_singleton_Some in Hsp as [<- <-]. apply space2_wf.
Qed.

Lemma empty_hand : hand_ok (hand []).
Proof. split; [intros r; done|]. by intros o. Qed.

(** The same kernel, with one more port: its receive right and two send rights are in the
    kernel's hands, and the last sender is to be announced to port 0x100. *)
Definition kernel_port : ipc_port := set_ip_nsrequest 0x100 (sample_port true 3 0 0 None 2 0).
Definition busy : kstate :=
  set_ks_ports (<[0x100 := sample_port true 3 0x1000 0x104 None 1 2]> (<[0x800 := kernel_port]> (ks_ports sample))) sample.
Definition in_hand : list right := [RLive 0x800; RRef 0x800; RHome 0x800 0 0; RSend 0x800; RRef 0x800; RSend 0x800; RRef 0x800].

Lemma busy_kwf : kwf busy (hand in_hand).
Proof.
  pose proof sample_kwf as [_ HO HS]. split; [apply ledger_check_sound; by vm_compute| |done].
  destruct HO as [H1 H2 H3 H4]. split; [|done| |done].
  - intros o p Hp. unfold busy in Hp. cbn [ks_ports set_ks_ports] in Hp.
    apply lookup_insert_Some in Hp as [[<- <-]|[_ Hp]]; [by apply sample_port_ok|].
    apply lookup_insert_Some in Hp as [[<- <-]|[_ Hp]]; [|by apply H1].
    destruct (sample_port_ok 0x800 true 3 0 0 None 2 0); try done.
  - intros o [p Hp]. change (ks_psets busy) with (ks_psets sample). unfold sample. cbn [ks_psets].
    apply lookup_singleton_None. intros <-. by vm_compute in Hp.
Qed.
End Sample.
