(* ===== verification/IpcRightOk.v ===== *)
(** * The operations on capabilities keep the books

    For each operation of ipc_right.c: run on a state that balances, on an entry that is in
    use, it meets no failed assertion, no panic and no dangling pointer; it leaves a state that
    balances, with exactly the rights in hand that the operation is to return; and it does to
    the entry what it promises. *)

From S2P Require Import IpcTypes IpcBits IpcHash IpcEntry IpcGrow IpcState IpcLedger IpcPort IpcRequest IpcDestroy IpcRight IpcFocus IpcSample.

(** ** Bits *)

(** Fails when [t] has a variable. *)
Ltac closed t := tryif (match t with context [?v] => is_var v end) then fail else idtac.

(** Evaluate tests of constants. *)
Ltac ground_term t := closed t; let v := eval vm_compute in t in change t with v.
Ltac ground :=
  repeat match goal with
  | |- context [has ?x ?y] => ground_term (has x y)
  | |- context [?x =? ?y] => ground_term (x =? y)
  end.

(** Replace the type of an entry by what it is known to be, and evaluate the tests of it. *)
Ltac by_type Hty :=
  match type of Hty with
  | IE_BITS_TYPE ?b = _ =>
    repeat match goal with |- context [has b ?m] => rewrite (has_type b m) by reflexivity end;
    rewrite ?Hty; ground; cbn [negb andb orb]
  end.

(** The three fields of entry bits after the bit operations of the code *)
Ltac bits_norm :=
  repeat first
    [ rewrite IE_BITS_TYPE_u32 | rewrite IE_BITS_UREFS_u32 | rewrite IE_BITS_GEN_u32
    | rewrite IE_BITS_TYPE_lor | rewrite IE_BITS_UREFS_lor | rewrite IE_BITS_GEN_lor
    | rewrite clr_gen_disjoint by reflexivity | rewrite clr_urefs_disjoint by reflexivity
    | rewrite clr_type_disjoint by reflexivity
    | rewrite IE_BITS_TYPE_clr | rewrite IE_BITS_UREFS_clr ].

(** The fields of constants *)
Ltac bits_const :=
  repeat match goal with
  | |- context [IE_BITS_TYPE ?x] => ground_term (IE_BITS_TYPE x)
  | |- context [IE_BITS_UREFS ?x] => ground_term (IE_BITS_UREFS x)
  | |- context [IE_BITS_GEN ?x] => ground_term (IE_BITS_GEN x)
  end; rewrite ?Z.lor_0_r, ?Z.lor_0_l.

Lemma clr_type_all b : clr (IE_BITS_TYPE b) IE_BITS_TYPE_MASK = 0.
Proof.
  unfold clr, IE_BITS_TYPE. apply Z.bits_inj'. intros n _.
  rewrite Z.ldiff_spec, Z.land_spec, Z.bits_0.
  by destruct (Z.testbit b n), (Z.testbit IE_BITS_TYPE_MASK n).
Qed.

Section shapes.
Implicit Types o b req : Z.

Lemma entry_ok_inv o b req :
  entry_ok (o, b, req) ->
  (IE_BITS_TYPE b = MACH_PORT_TYPE_SEND /\ o <> IO_NULL /\ 0 < IE_BITS_UREFS b < MACH_PORT_UREFS_MAX /\ 0 <= req) \/
  (IE_BITS_TYPE b = MACH_PORT_TYPE_RECEIVE /\ o <> IO_NULL /\ IE_BITS_UREFS b = 0 /\ 0 <= req) \/
  (IE_BITS_TYPE b = MACH_PORT_TYPE_SEND_RECEIVE /\ o <> IO_NULL /\ 0 < IE_BITS_UREFS b < MACH_PORT_UREFS_MAX /\ 0 <= req) \/
  (IE_BITS_TYPE b = MACH_PORT_TYPE_SEND_ONCE /\ o <> IO_NULL /\ IE_BITS_UREFS b = 1 /\ 0 <= req) \/
  (IE_BITS_TYPE b = MACH_PORT_TYPE_PORT_SET /\ o <> IO_NULL /\ IE_BITS_UREFS b = 0 /\ req = IE_REQ_NONE) \/
  (IE_BITS_TYPE b = MACH_PORT_TYPE_DEAD_NAME /\ o = IO_NULL /\ 0 < IE_BITS_UREFS b <= MACH_PORT_UREFS_MAX /\ req = IE_REQ_NONE).
Proof.
  unfold entry_ok. intros H; inversion H as [? u r Ho Hu Hr Ht|? r Ho Hr|? u r Ho Hu Hr|? r Ho Hr|? Ho|u Hu]; subst.
  - by left.
  - by do 1 right; left.
  - by do 2 right; left.
  - by do 3 right; left.
  - by do 4 right; left.
  - by do 5 right.
Qed.

(** The entry that a send or send-once right leaves when its port is dead *)
Definition dead_bits (b : Z) (u : Z) (b' : Z) : Prop :=
  IE_BITS_TYPE b' = MACH_PORT_TYPE_DEAD_NAME /\ IE_BITS_UREFS b' = u /\ IE_BITS_GEN b' = IE_BITS_GEN b.

Lemma dead_bits_of b : dead_bits b (IE_BITS_UREFS b) (Z.lor (clr b IE_BITS_TYPE_MASK) MACH_PORT_TYPE_DEAD_NAME).
Proof.
  unfold dead_bits. bits_norm. rewrite clr_type_all. bits_const. done.
Qed.

(** Adding to the user references *)
Lemma bits_urefs b n :
  0 <= IE_BITS_UREFS b + n < 2 ^ 16 ->
  IE_BITS_TYPE (b + n) = IE_BITS_TYPE b /\ IE_BITS_UREFS (b + n) = IE_BITS_UREFS b + n /\
  IE_BITS_GEN (b + n) = IE_BITS_GEN b.
Proof. intros Hn. by rewrite IE_BITS_TYPE_add, IE_BITS_UREFS_add, IE_BITS_GEN_add. Qed.
End shapes.

(** Go through the types an entry can have. *)
Ltac by_kind Hok :=
  match type of Hok with
  | entry_ok (_, ?b, _) =>
    repeat match goal with H : context [has b ?m] |- _ => rewrite (has_type b m) in H by reflexivity end;
    repeat match goal with |- context [has b ?m] => rewrite (has_type b m) by reflexivity end;
    let Ht := fresh "Ht" in
    destruct (entry_ok_inv _ _ _ Hok) as
      [(Ht & ? & ? & ?)|[(Ht & ? & ? & ?)|[(Ht & ? & ? & ?)|[(Ht & ? & ? & ?)|[(Ht & ? & ? & ?)|(Ht & ? & ? & ?)]]]]];
    try rewrite Ht in *; try done
  end.

(** ** Counting what is in hand *)

Section hands.
Context {env : ipc_env}.

(** A right that the ledger only bounds *)
Definition slack (P : gmap Z ipc_port) (r : right) : bool :=
  match r with
  | RName _ _ | RPort _ | RPlain _ | RTransit _ => true
  | RSend o | RSonce o | RSlot o _ _ => match P !! o with Some p => negb (ip_active p) | None => false end
  | _ => false
  end.

Lemma fc_drop s0 a i name s P L ev T l :
  focus s0 a i name s P L ev T -> Forall (fun r => slack P r = true) l ->
  focus s0 a i name s P L ev (T ⊖ l).
Proof.
  intros [HP HLg HL HO HS HSp HFr] Hl. split; try done. intros r. specialize (HL r). unfold minus in *.
  pose proof (cnt_nonneg r l) as H0. destruct (decide (r ∈ l)) as [Hin|Hout].
  - rewrite list.Forall_forall in Hl. specialize (Hl r Hin). unfold accounts in *. rewrite HP in *.
    destruct r; simpl in *; try done; try lia; try (destruct (ks_psets s !! _); [lia|done]);
      try (destruct (ks_kmsgs s !! _); [intros Hc; specialize (HL Hc); lia|done]);
      destruct (P !! _) as [p|]; try done; unfold agree in *; try lia; try (destruct (ks_psets s !! _); [simpl in *; lia|done]);
      apply negb_true_iff in Hl; rewrite Hl in *; lia.
  - rewrite (cnt_not_in _ _ Hout). by rewrite Z.sub_0_r.
Qed.

(** What a port in transit refers to is a port. *)
Lemma fc_noted s0 a i name s P L ev T o :
  focus s0 a i name s P L ev (T ⊕ [RRef o; RPort o]) -> hand_ok T ->
  (exists p, P !! o = Some p) /\ focus s0 a i name s P L ev (T ⊕ [RRef o]).
Proof.
  intros HF HT. pose proof (proj1 HT (RRef o)) as H1. pose proof (proj1 HT (RPort o)) as H2. split.
  - destruct (fc_others _ _ _ _ _ _ _ _ _ HF) as (s1 & Hacc). pose proof (Hacc (RRef o)) as Hr. pose proof (Hacc (RPort o)) as Hp.
    pose proof (held_nonneg s1 (RRef o)). pose proof (held_nonneg s1 (RPort o)).
    unfold accounts, plus in Hr, Hp. cbn [cnt target] in Hr, Hp. rewrite !ind_eq in Hr, Hp. rewrite ind_ne in Hr, Hp by done.
    rewrite (fc_ports _ _ _ _ _ _ _ _ _ HF) in Hr. destruct (P !! o) as [p|]; [by exists p|].
    destruct (ks_psets s !! o); lia.
  - eapply fc_ext; [apply (fc_drop _ _ _ _ _ _ _ _ _ [RPort o] HF); by constructor|].
    intros r. unfold plus, minus. cbn [cnt]. lia.
Qed.

(** The request slot of an entry *)
Definition slot_held (o req name : Z) : list right := when (negb (req =? IE_REQ_NONE)) [RSlot o req name].

Lemma core_rights_name a i name o b req :
  MACH_PORT_INDEX name = i -> 0 <= name < 2 ^ 32 -> IE_BITS_GEN b = MACH_PORT_GEN name ->
  core_rights a i (o, b, req) = type_rights a name o (IE_BITS_TYPE b) req.
Proof. intros <- Hn Hg. by rewrite core_rights_type, Hg, MAKE_index_gen. Qed.

Lemma type_rights_send a name o req r :
  cnt r (type_rights a name o MACH_PORT_TYPE_SEND req) =
  ind r (RRef o) + ind r (RSend o) + ind r (RName o a) + cnt r (slot_held o req name).
Proof. unfold type_rights. rewrite !cnt_app. fold (slot_held o req name). simpl. unfold slot_held. simpl. lia. Qed.

Lemma type_rights_receive a name o req r :
  cnt r (type_rights a name o MACH_PORT_TYPE_RECEIVE req) =
  ind r (RRef o) + ind r (RLive o) + ind r (RHome o a name) + ind r (RName o a) + cnt r (slot_held o req name).
Proof. unfold type_rights. rewrite !cnt_app. unfold slot_held. simpl. lia. Qed.

Lemma type_rights_send_receive a name o req r :
  cnt r (type_rights a name o MACH_PORT_TYPE_SEND_RECEIVE req) =
  ind r (RRef o) + ind r (RLive o) + ind r (RSend o) + ind r (RHome o a name) + ind r (RName o a)
  + cnt r (slot_held o req name).
Proof. unfold type_rights. rewrite !cnt_app. unfold slot_held. simpl. lia. Qed.

Lemma type_rights_send_once a name o req r :
  cnt r (type_rights a name o MACH_PORT_TYPE_SEND_ONCE req) =
  ind r (RRef o) + ind r (RSonce o) + cnt r (slot_held o req name).
Proof. unfold type_rights. rewrite !cnt_app. unfold slot_held. simpl. lia. Qed.

Lemma type_rights_port_set a name o r :
  cnt r (type_rights a name o MACH_PORT_TYPE_PORT_SET IE_REQ_NONE) = ind r (RRef o) + ind r (RSet o).
Proof. unfold type_rights. rewrite !cnt_app. simpl. lia. Qed.

Lemma type_rights_dead_name a name o req r : cnt r (type_rights a name o MACH_PORT_TYPE_DEAD_NAME req) = 0.
Proof. done. Qed.

Lemma type_rights_none a name o req r : cnt r (type_rights a name o MACH_PORT_TYPE_NONE req) = 0.
Proof. done. Qed.

Lemma cnt_slot_other r o req name :
  match r with RSlot _ _ _ => false | _ => true end = true -> cnt r (slot_held o req name) = 0.
Proof. intros Hr. unfold slot_held. destruct (negb _); [|done]. cbn [when cnt]. rewrite ind_ne; [done|]. by intros ->. Qed.

Lemma cnt_sonce_other r o :
  match r with RSonce _ | RRef _ => false | _ => true end = true -> cnt r (sonce_rights o) = 0.
Proof.
  intros Hr. unfold sonce_rights. destruct (negb _); [|done]. cbn [when cnt].
  rewrite !ind_ne; [done|by intros ->..].
Qed.
End hands.

(** Facts about one right: what is in hand of it is not negative, and references cover it. *)
Ltac hand_at :=
  repeat match goal with
  | |- context [ind ?r ?r] => rewrite (ind_eq r)
  | |- context [ind ?r ?x] => rewrite (ind_ne r x) by (done || congruence)
  | |- context [cnt ?r (slot_held ?o ?req ?n)] => rewrite (cnt_slot_other r o req n) by done
  | |- context [cnt ?r (sonce_rights ?o)] => rewrite (cnt_sonce_other r o) by done
  end;
  repeat match goal with
  | |- context [ind ?r ?x] => pose proof (ind_bound r x); generalize dependent (ind r x); intros
  | |- context [cnt ?r ?l] => pose proof (cnt_nonneg r l); generalize dependent (cnt r l); intros
  end.

(** What an entry of a known type holds, in the goal *)
Ltac rights_of_type :=
  rewrite ?type_rights_send, ?type_rights_receive, ?type_rights_send_receive, ?type_rights_send_once,
    ?type_rights_port_set, ?type_rights_dead_name, ?type_rights_none.

(** Two descriptions of the same hand *)
Ltac same_hand :=
  intros ?; unfold plus, minus; cbn [fst snd]; change (sonce_rights IP_NULL) with (@nil right);
  rights_of_type; rewrite ?cnt_app; cbn [cnt]; lia.

Section operations.
Context {env : ipc_env} (s0 : kstate) (a i name : Z) (Hname : MACH_PORT_INDEX name = i)
  (Hword : 0 <= name < 2 ^ 32) (T0 : right -> Z) (HT0 : hand_ok T0).
Local Abbreviation foc := (focus s0 a i name).

(** What an entry holds *)
Local Abbreviation rights o b req := (type_rights a name o (IE_BITS_TYPE b) req).

(** The entry in work is in shape and in the hash table when it should be. *)
Definition holding (s : kstate) (P : gmap Z ipc_port) (L : list event) (o b req : Z) (T : right -> Z) : Prop :=
  foc s P L (Open (o, b, req) (IE_BITS_TYPE b =? MACH_PORT_TYPE_SEND)) (T ⊕ rights o b req) /\
  entry_ok (o, b, req).

Lemma holding_gen s P L o b req T : holding s P L o b req T -> IE_BITS_GEN b = MACH_PORT_GEN name.
Proof. intros [[_ _ _ _ _ (sp & _ & _ & Hg) _] _]. done. Qed.

Lemma fc_gen s P L o b req lk T :
  foc s P L (Open (o, b, req) lk) T -> IE_BITS_GEN b = MACH_PORT_GEN name.
Proof. intros [_ _ _ _ _ (sp & _ & _ & Hg) _]. done. Qed.

(** Close the entry: what is in hand besides it. *)
Lemma fc_put_back s P L o b req T T' :
  foc s P L (Open (o, b, req) (IE_BITS_TYPE b =? MACH_PORT_TYPE_SEND)) T -> entry_ok (o, b, req) ->
  (forall r, T r = T' r + cnt r (rights o b req)) -> foc s P L (Shut o b) T'.
Proof.
  intros HF Hok HT. pose proof (fc_gen _ _ _ _ _ _ _ _ HF) as Hg.
  eapply fc_ext; [apply (fc_close _ _ _ _ _ _ _ _ _ _ HF Hok); done|].
  intros r. unfold minus. rewrite (core_rights_name a i name) by done. rewrite HT. lia.
Qed.

(** The port of an entry for a right to a port *)
Lemma holding_port s P L o b req T :
  (forall r, 0 <= T r) -> holding s P L o b req T -> has b MACH_PORT_TYPE_PORT_RIGHTS = true ->
  exists p, P !! o = Some p.
Proof.
  intros HT [HF Hok] Hb. rewrite has_type in Hb by done.
  assert (HR : 0 <= T (RRef o)) by done. pose proof (HT (RSend o)). pose proof (HT (RSonce o)). pose proof (HT (RHome o a name)).
  destruct (entry_ok_inv _ _ _ Hok) as [(Ht & _)|[(Ht & _)|[(Ht & _)|[(Ht & _)|[(Ht & _)|(Ht & _)]]]]];
    rewrite Ht in *; try done.
  - apply (fc_port _ _ _ _ _ _ _ _ _ HF o (RSend o)); [done|..|done]; unfold plus; rights_of_type; hand_at; lia.
  - apply (fc_port _ _ _ _ _ _ _ _ _ HF o (RHome o a name)); [done|..|done]; unfold plus; rights_of_type; hand_at; lia.
  - apply (fc_port _ _ _ _ _ _ _ _ _ HF o (RSend o)); [done|..|done]; unfold plus; rights_of_type; hand_at; lia.
  - apply (fc_port _ _ _ _ _ _ _ _ _ HF o (RSonce o)); [done|..|done]; unfold plus; rights_of_type; hand_at; lia.
Qed.

(** The receive right of an entry: the port lives, and knows the space as its receiver. *)
Lemma holding_receive s P L o b req T p :
  (forall r, 0 <= T r) -> holding s P L o b req T -> has b MACH_PORT_TYPE_RECEIVE = true -> P !! o = Some p ->
  ip_active p = true /\ ip_receiver p = a /\ ip_receiver_name p = name /\ name <> MACH_PORT_NULL.
Proof.
  intros HT [HF Hok] Hb Ho. rewrite has_type in Hb by done. pose proof (HT (RHome o a name)).
  assert (Hn0 : name <> MACH_PORT_NULL).
  { destruct (fc_space _ _ _ _ _ _ _ _ _ HF) as (sp & _ & Hw & _). destruct (at_work_range _ _ _ _ Hw) as [Hi _].
    rewrite <- Hname in Hi. intros Hz. rewrite Hz in Hi. change (MACH_PORT_INDEX MACH_PORT_NULL) with 0 in Hi. lia. }
  cut (ip_active p = true /\ ip_home p = a /\ ip_receiver_name p = name).
  { unfold ip_home. intros (H1 & H2 & H3). rewrite H3, (proj2 (Z.eqb_neq _ _) Hn0) in H2. done. }
  apply (fc_home _ _ _ _ _ _ _ _ _ HF o p); [done|]. unfold plus.
  destruct (entry_ok_inv _ _ _ Hok) as [(Ht & _)|[(Ht & _)|[(Ht & _)|[(Ht & _)|[(Ht & _)|(Ht & _)]]]]];
    rewrite Ht in *; try done; rights_of_type; hand_at; lia.
Qed.

Lemma holding_srights s P L o b req T p :
  (forall r, 0 <= T r) -> holding s P L o b req T -> has b MACH_PORT_TYPE_SEND = true -> P !! o = Some p ->
  0 < ip_srights p.
Proof.
  intros HT [HF Hok] Hb Ho. rewrite has_type in Hb by done. pose proof (HT (RSend o)).
  pose proof (fc_count_ge _ _ _ _ _ _ _ _ _ HF o p (RSend o) Ho eq_refl) as Hc. simpl in Hc.
  revert Hc. unfold plus.
  destruct (entry_ok_inv _ _ _ Hok) as [(Ht & _)|[(Ht & _)|[(Ht & _)|[(Ht & _)|[(Ht & _)|(Ht & _)]]]]];
    rewrite Ht in *; try done; rights_of_type; hand_at; lia.
Qed.

Lemma holding_sorights s P L o b req T p :
  (forall r, 0 <= T r) -> holding s P L o b req T -> IE_BITS_TYPE b = MACH_PORT_TYPE_SEND_ONCE -> P !! o = Some p ->
  0 < ip_sorights p.
Proof.
  intros HT [HF Hok] Hb Ho. pose proof (HT (RSonce o)).
  pose proof (fc_count_ge _ _ _ _ _ _ _ _ _ HF o p (RSonce o) Ho eq_refl) as Hc. simpl in Hc.
  revert Hc. unfold plus. rewrite Hb. rights_of_type; hand_at; lia.
Qed.

Lemma holding_slot s P L o b req T :
  (forall r, 0 <= T r) -> holding s P L o b req T -> has b MACH_PORT_TYPE_PORT_RIGHTS = true ->
  req <> IE_REQ_NONE -> 0 < (T ⊕ rights o b req) (RSlot o req name).
Proof.
  intros HT [HF Hok] Hb Hr. rewrite has_type in Hb by done. pose proof (HT (RSlot o req name)). unfold plus.
  assert (Hs : cnt (RSlot o req name) (slot_held o req name) = 1).
  { unfold slot_held. rewrite (proj2 (Z.eqb_neq _ _) Hr). simpl. rewrite ind_eq. lia. }
  destruct (entry_ok_inv _ _ _ Hok) as [(Ht & _)|[(Ht & _)|[(Ht & _)|[(Ht & _)|[(Ht & _)|(Ht & _)]]]]];
    rewrite Ht in *; try done; rights_of_type; rewrite Hs; hand_at; lia.
Qed.

(** ** [ipc_right_check] *)

(** What a capability for a dead port becomes: a dead name, with one more user reference if
    a notification request was pending *)
Definition dead_urefs (p : ipc_port) (b req : Z) : Z :=
  IE_BITS_UREFS b + (if IP_VALID (request_of p req) then 1 else 0).
Definition became_dead (p : ipc_port) (b req b' : Z) : Prop :=
  dead_bits b (dead_urefs p b req) b' /\ 0 < dead_urefs p b req <= MACH_PORT_UREFS_MAX /\
  (IE_BITS_TYPE b = MACH_PORT_TYPE_SEND \/ IE_BITS_TYPE b = MACH_PORT_TYPE_SEND_ONCE).

Lemma became_dead_ok p b req b' : became_dead p b req b' -> entry_ok (IO_NULL, b', IE_REQ_NONE).
Proof. intros ((Ht & Hu & _) & Hr & _). unfold entry_ok. rewrite Ht, Hu. by constructor. Qed.

(** The first half of the check: the counter of the dead port goes down. *)
Lemma wf_check_count s P L o b req lk T p Q :
  foc s P L (Open (o, b, req) lk) (T ⊕ rights o b req) -> P !! o = Some p ->
  (IE_BITS_TYPE b = MACH_PORT_TYPE_SEND /\ 0 < IE_BITS_UREFS b /\ 0 < ip_srights p \/
   IE_BITS_TYPE b = MACH_PORT_TYPE_SEND_ONCE /\ IE_BITS_UREFS b = 1 /\ 0 < ip_sorights p) ->
  (forall s' p', ip_active p' = ip_active p -> ip_requests p' = ip_requests p ->
    foc s' (<[o := p']> P) L (Open (o, b, req) lk)
      (T ⊕ (RRef o :: slot_held o req name) ⊕ when (has b MACH_PORT_TYPE_SEND) [RName o a]) -> Q tt s') ->
  wp (if has b MACH_PORT_TYPE_SEND then
        _ ← massert (IE_BITS_TYPE b =? MACH_PORT_TYPE_SEND);
        _ ← massert (0 <? IE_BITS_UREFS b);
        _ ← massert (0 <? ip_srights p);
        ip_mod o (set_ip_srights (ip_srights p - 1))
      else
        _ ← massert (IE_BITS_TYPE b =? MACH_PORT_TYPE_SEND_ONCE);
        _ ← massert (IE_BITS_UREFS b =? 1);
        _ ← massert (0 <? ip_sorights p);
        ip_mod o (set_ip_sorights (ip_sorights p - 1))) s Q.
Proof.
  intros HF Ho Hcase HQ. pose proof (fc_port_ok _ _ _ _ _ _ _ _ _ HF o p Ho) as Hok.
  destruct Hcase as [(Ht & Hu & Hc)|(Ht & Hu & Hc)]; revert HQ; by_type Ht; intros HQ.
  - wp_step. wp_step; [done|]. wp_step. wp_step; [by apply Z.ltb_lt|]. wp_step. wp_step; [by apply Z.ltb_lt|].
    apply (wf_ip_counts s0 a i name s P L (Open (o, b, req) lk) (T ⊕ rights o b req) o p _
      (T ⊕ (RRef o :: slot_held o req name) ⊕ [RName o a])); try done; try apply Hok; simpl; try lia.
    + rewrite Ht. same_hand.
    + intros s' HF'. eapply HQ; [..|done]; done.
  - wp_step. wp_step; [done|]. wp_step. wp_step; [by apply Z.eqb_eq|]. wp_step. wp_step; [by apply Z.ltb_lt|].
    apply (wf_ip_counts s0 a i name s P L (Open (o, b, req) lk) (T ⊕ rights o b req) o p _
      (T ⊕ (RRef o :: slot_held o req name) ⊕ [])); try done; try apply Hok; simpl; try lia.
    + rewrite Ht. same_hand.
    + intros s' HF'. eapply HQ; [..|done]; done.
Qed.

(** The second half: the entry becomes a dead name. *)
Lemma wf_check_entry s P L o b req T p Q :
  foc s P L (Open (o, b, req) false) T -> P !! o = Some p ->
  (req <> IE_REQ_NONE -> 0 < T (RSlot o req name)) ->
  0 < IE_BITS_UREFS b < MACH_PORT_UREFS_MAX ->
  (IE_BITS_TYPE b = MACH_PORT_TYPE_SEND \/ IE_BITS_TYPE b = MACH_PORT_TYPE_SEND_ONCE) ->
  (forall s' b', became_dead p b req b' -> foc s' P L (Open (IO_NULL, b', IE_REQ_NONE) false) T -> Q true s') ->
  wp (let bits := Z.lor (clr b IE_BITS_TYPE_MASK) MACH_PORT_TYPE_DEAD_NAME in
      bits ← (if negb (req =? IE_REQ_NONE) then
                type ← ipc_port_request_type o name req;
                bits ← (if negb (type =? 0) then
                          _ ← massert (IE_BITS_UREFS bits <? MACH_PORT_UREFS_MAX);
                          mret (bits + 1)
                        else mret bits);
                _ ← ie_mod a i (set_ie_request IE_REQ_NONE);
                mret bits
              else mret bits);
      _ ← ie_mod a i (set_ie_bits bits);
      _ ← ie_mod a i (set_ie_object IO_NULL);
      _ ← entry_modified a name i;
      mret true) s Q.
Proof.
  intros HF Ho HT Hu Hty HQ. pose proof (fc_gen _ _ _ _ _ _ _ _ HF) as Hg.
  pose proof (dead_bits_of b) as (Hdt & Hdu & Hdg). set (b1 := Z.lor _ _) in *.
  assert (Hend : forall s1 b', became_dead p b req b' -> foc s1 P L (Open (o, b, IE_REQ_NONE) false) T ->
    wp (_ ← ie_mod a i (set_ie_bits b'); _ ← ie_mod a i (set_ie_object IO_NULL);
        _ ← entry_modified a name i; mret true) s1 Q).
  { intros s1 b' Hbd HF1. pose proof Hbd as ((_ & _ & Hg') & _).
    apply wp_bind. eapply wf_ie_mod; [done|done|entry_fields|done|by rewrite Hg'|]. intros s2 HF2.
    apply wp_bind. eapply wf_ie_mod; [done|done|entry_fields|done|by rewrite Hg'|]. intros s3 HF3.
    apply wp_bind. eapply wf_entry_modified; [done|done|]. intros s4 HF4. wp_step. by apply (HQ s4 b'). }
  assert (Hb : forall n, n = (if IP_VALID (request_of p req) then 1 else 0) -> became_dead p b req (b1 + n)).
  { intros n Hn. assert (Hn1 : 0 <= n <= 1) by (destruct (IP_VALID _); lia).
    assert (0 <= IE_BITS_UREFS b1 + n < 2 ^ 16) by (unfold MACH_PORT_UREFS_MAX in *; lia).
    unfold became_dead, dead_urefs, dead_bits. rewrite <- Hn, IE_BITS_TYPE_add, IE_BITS_UREFS_add, IE_BITS_GEN_add by done.
    split_and!; [done|lia|done|lia|lia|done]. }
  cbv zeta. apply wp_bind. unfold request_of in Hb. destruct (Z.eqb_spec req IE_REQ_NONE) as [Hr|Hr]; cbn [negb].
  { wp_step. replace b1 with (b1 + 0) by lia. apply Hend; [by apply Hb|]. by rewrite Hr in HF. }
  apply wp_bind. eapply wf_request_type; [done|done|by apply HT|]. rewrite slot_type_zero.
  apply wp_bind. destruct (IP_VALID (slot_request p req)) eqn:Hv; cbn [negb].
  - wp_step. wp_step; [apply Z.ltb_lt; lia|]. wp_step. apply wp_bind.
    eapply wf_ie_mod; [done|done|entry_fields|done|done|]. intros s1 HF1. wp_step. apply Hend; [by apply Hb|done].
  - wp_step. apply wp_bind. eapply wf_ie_mod; [done|done|entry_fields|done|done|]. intros s1 HF1. wp_step.
    replace b1 with (b1 + 0) by lia. apply Hend; [by apply Hb|done].
Qed.

Lemma wf_right_check s P L o b req T p Q :
  (forall r, 0 <= T r) -> holding s P L o b req T -> has b MACH_PORT_TYPE_PORT_RIGHTS = true -> P !! o = Some p ->
  (ip_active p = true -> Q false s) ->
  (forall s' p' b', ip_active p = false -> ip_active p' = false -> became_dead p b req b' ->
    foc s' (<[o := p']> P) L (Open (IO_NULL, b', IE_REQ_NONE) false) (T ⊕ [RRef o]) -> Q true s') ->
  wp (ipc_right_check a o name i) s Q.
Proof.
  intros HT Hh Hb Ho Hlive Hdead. pose proof Hh as [HF Hok]. unfold ipc_right_check.
  apply wp_bind. eapply wf_is_get; [done|]. intros sp _ [Hw _]. wp_step. wp_step; [by apply Hw|].
  apply wp_bind. eapply wf_ie_get; [done|done|]. intros ix. cbn [ie_object ie_bits ie_request].
  wp_step. wp_step; [apply Z.eqb_refl|]. apply wp_bind. eapply wf_ip_get; [done|done|].
  destruct (ip_active p) eqn:Ha; [wp_step; by apply Hlive|].
  destruct (has b MACH_PORT_TYPE_RECEIVE) eqn:Hrc.
  { destruct (holding_receive _ _ _ _ _ _ _ p HT Hh Hrc Ho) as [? _]. congruence. }
  wp_step. wp_step; [done|].
  assert (Hty : IE_BITS_TYPE b = MACH_PORT_TYPE_SEND \/ IE_BITS_TYPE b = MACH_PORT_TYPE_SEND_ONCE).
  { rewrite has_type in Hb, Hrc by done.
    destruct (entry_ok_inv _ _ _ Hok) as [(Ht & _)|[(Ht & _)|[(Ht & _)|[(Ht & _)|[(Ht & _)|(Ht & _)]]]]];
      rewrite Ht in *; try done; auto. }
  assert (Hu : 0 < IE_BITS_UREFS b < MACH_PORT_UREFS_MAX /\ (IE_BITS_TYPE b = MACH_PORT_TYPE_SEND_ONCE -> IE_BITS_UREFS b = 1)).
  { unfold MACH_PORT_UREFS_MAX in *.
    destruct (entry_ok_inv _ _ _ Hok) as [(Ht & _ & ? & _)|[(Ht & _)|[(Ht & _)|[(Ht & _ & ? & _)|[(Ht & _)|(Ht & _)]]]]];
      rewrite Ht in *; try done; destruct Hty; try done; unfold MACH_PORT_UREFS_MAX in *; split; try lia; done. }
  destruct Hu as [Hu Hu1].
  wp_step. wp_step; [apply Z.ltb_lt; lia|]. apply wp_bind. eapply wf_check_count; [exact HF|done|..].
  { destruct Hty as [Ht|Ht]; [left|right]; (split; [done|]); split; [lia| |by apply Hu1|].
    - eapply holding_srights; [done|done| |done]. rewrite has_type, Ht by done. done.
    - eapply holding_sorights; done. }
  intros s1 p' Ha' Hq HF1. rewrite Ha in Ha'.
  set (T1 := T ⊕ (RRef o :: slot_held o req name) ⊕ when (has b MACH_PORT_TYPE_SEND) [RName o a]) in *.
  assert (Hslot : req <> IE_REQ_NONE -> 0 < T1 (RSlot o req name)).
  { intros Hr. unfold T1, plus. pose proof (HT (RSlot o req name)). unfold slot_held.
    rewrite (proj2 (Z.eqb_neq _ _) Hr). cbn [negb when cnt]. hand_at. lia. }
  assert (Hfin : forall s2 b', became_dead p' b req b' ->
    foc s2 (<[o := p']> P) L (Open (IO_NULL, b', IE_REQ_NONE) false) T1 -> Q true s2).
  { intros s2 b' Hbd HF2. apply (Hdead s2 p' b'); [done|done| |].
    { unfold became_dead, dead_urefs, request_of, slot_request in *. by rewrite Hq in Hbd. }
    eapply fc_ext; [apply (fc_drop _ _ _ _ _ _ _ _ _ (slot_held o req name ++ when (has b MACH_PORT_TYPE_SEND) [RName o a]) HF2)|].
    - apply Forall_app_2; [|destruct (has b MACH_PORT_TYPE_SEND); by repeat constructor]. unfold slot_held.
      destruct (negb (req =? IE_REQ_NONE)); repeat constructor. simpl. by rewrite lookup_insert_eq, Ha'.
    - unfold T1. same_hand. }
  pose proof (lookup_insert_eq P o p') as Ho1.
  apply wp_bind. destruct Hty as [Ht|Ht]; rewrite Ht in HF1; revert HF1; by_type Ht; intros HF1; cbn [mwhen].
  - eapply wf_hash_delete; [done|done|]. intros s2 HF2.
    eapply wf_check_entry; [done|done|done|done|by left|]. done.
  - wp_step. eapply wf_check_entry; [done|done|done|done|by right|]. done.
Qed.

(** ** User references *)

(** The entry of object [o] and bits [b] once it has [u] user references left: without any, only
    a receive right stays; for a dead port it is a dead name. *)
Definition entry_after (o b : Z) (dead : bool) (u o' b' : Z) : Prop :=
  IE_BITS_UREFS b' = u /\ IE_BITS_GEN b' = IE_BITS_GEN b /\
  IE_BITS_TYPE b' = (if u =? 0 then Z.land (IE_BITS_TYPE b) MACH_PORT_TYPE_RECEIVE
                     else if dead then MACH_PORT_TYPE_DEAD_NAME else IE_BITS_TYPE b) /\
  o' = (if has b' MACH_PORT_TYPE_PORT_RIGHTS then o else IO_NULL).

Definition no_senders_events (ns : Z * Z) : list event :=
  if ns.1 =? IP_NULL then [] else [NotifyNoSenders ns.1 ns.2].
Definition port_deleted_events (request : Z) : list event :=
  if request =? IP_NULL then [] else [NotifyPortDeleted request name].

(** An entry that is freed *)
Lemma entry_after_free o b dead :
  Z.land (IE_BITS_TYPE b) MACH_PORT_TYPE_RECEIVE = 0 -> IE_BITS_GEN b = MACH_PORT_GEN name ->
  entry_after o b dead 0 IO_NULL (MACH_PORT_GEN name).
Proof.
  intros Ht Hg. unfold entry_after. rewrite <- Hg, Ht.
  rewrite IE_BITS_UREFS_GEN, IE_BITS_GEN_idemp, IE_BITS_TYPE_GEN.
  rewrite has_type, IE_BITS_TYPE_GEN by done. done.
Qed.

(** Label [dead_name]; [port] was found dead, and a reference to it is in hand. *)
Lemma wf_dealloc_dead_name s P L b T port p Q :
  foc s P L (Open (IO_NULL, b, IE_REQ_NONE) false) (T ⊕ when (negb (port =? IP_NULL)) [RRef port]) ->
  hand_ok T -> entry_ok (IO_NULL, b, IE_REQ_NONE) -> IE_BITS_TYPE b = MACH_PORT_TYPE_DEAD_NAME ->
  (port <> IP_NULL -> P !! port = Some p) ->
  (forall s' P' o' b', entry_after IO_NULL b true (IE_BITS_UREFS b - 1) o' b' ->
    foc s' P' L (Shut o' b') T -> Q KERN_SUCCESS s') ->
  wp (dealloc_dead_name a name i port) s Q.
Proof.
  intros HF HT Hok Ht Hp HQ. pose proof (fc_gen _ _ _ _ _ _ _ _ HF) as Hg.
  destruct (entry_ok_inv _ _ _ Hok) as [(Ht' & _)|[(Ht' & _)|[(Ht' & _)|[(Ht' & _)|[(Ht' & _)|(_ & _ & Hu & _)]]]]];
    try (rewrite Ht in Ht'; done).
  assert (Hend : forall s1 o' b', entry_after IO_NULL b true (IE_BITS_UREFS b - 1) o' b' ->
    foc s1 P L (Shut o' b') (T ⊕ when (negb (port =? IP_NULL)) [RRef port]) ->
    wp (_ ← mwhen (negb (port =? IP_NULL)) (io_release port); mret KERN_SUCCESS) s1 Q).
  { intros s1 o' b' Hea HF1. apply wp_bind. destruct (Z.eqb_spec port IP_NULL) as [Hpn|Hpn]; cbn [negb when mwhen] in *.
    - wp_step. wp_step. eapply HQ; [done|]. eapply fc_ext; [done|]. same_hand.
    - destruct HT as [HT1 HT2]. pose proof (HT2 port). pose proof (HT1 (RLive port)).
      eapply wf_release; [done|by apply Hp| |].
      + unfold plus. cbn [cnt]. hand_at. lia.
      + intros s2 P2 HF2 _. wp_step. eapply HQ; [done|]. eapply fc_ext; [done|]. same_hand. }
  unfold dealloc_dead_name. apply wp_bind. eapply wf_ie_get; [done|done|]. intros ix. simpl.
  wp_step. wp_step; [apply Z.ltb_lt; lia|]. wp_step. wp_step; [done|]. wp_step. wp_step; [done|].
  apply wp_bind. destruct (Z.eqb_spec (IE_BITS_UREFS b) 1) as [H1|H1].
  - eapply wf_entry_dealloc; [done|done|]. intros s1 HF1. eapply Hend; [|done].
    rewrite H1. apply entry_after_free; [by rewrite Ht|done].
  - assert (Hr : 0 <= IE_BITS_UREFS b + -1 < 2 ^ 16) by (unfold MACH_PORT_UREFS_MAX in *; lia).
    destruct (bits_urefs b (-1) Hr) as (Hbt & Hbu & Hbg). change (b + -1) with (b - 1) in *.
    change (IE_BITS_UREFS b + -1) with (IE_BITS_UREFS b - 1) in *.
    apply wp_bind. eapply wf_ie_mod; [done|done|entry_fields|done|by rewrite Hbg|]. intros s1 HF1.
    eapply wf_entry_modified; [done|done|]. intros s2 HF2. eapply (Hend s2 IO_NULL (b - 1)).
    + unfold entry_after. rewrite (has_type (b - 1)) by done. rewrite Hbg, Hbt, Hbu, Ht.
      rewrite (proj2 (Z.eqb_neq (IE_BITS_UREFS b - 1) 0)) by lia. done.
    + eapply (fc_put_back s2 P L IO_NULL (b - 1) IE_REQ_NONE).
      * by rewrite Hbt, Ht.
      * unfold entry_ok. rewrite Hbt, Hbu, Ht. constructor. lia.
      * rewrite Hbt, Ht. same_hand.
Qed.

Lemma drop_send_active p : ip_active (drop_send p).1 = ip_active p.
Proof. unfold drop_send. by destruct (_ && _). Qed.

Lemma request_of_drop p req : request_of (drop_send p).1 req = request_of p req.
Proof. unfold drop_send. by destruct (_ && _). Qed.

(** The last user reference of a send right goes, for a live port. *)
Lemma wf_dealloc_send s P L o b req p Q :
  holding s P L o b req T0 -> IE_BITS_TYPE b = MACH_PORT_TYPE_SEND -> P !! o = Some p -> ip_active p = true ->
  (forall s' P', foc s' P' (L ++ no_senders_events (drop_send p).2 ++ port_deleted_events (request_of p req))
      (Shut IO_NULL (MACH_PORT_GEN name)) T0 -> Q KERN_SUCCESS s') ->
  wp (ns ← drop_sright o;
      request ← ipc_right_request_cancel_macro a o name i;
      _ ← hash_delete a o name i;
      _ ← ie_mod a i (set_ie_object IO_NULL);
      _ ← entry_dealloc a name i;
      _ ← io_release o;
      _ ← send_no_senders ns;
      _ ← send_port_deleted request name;
      mret KERN_SUCCESS) s Q.
Proof.
  intros Hh Ht Ho Ha HQ. destruct HT0 as [HT1 HT2]. pose proof Hh as [HF Hok].
  pose proof (holding_gen _ _ _ _ _ _ _ Hh) as Hg.
  pose proof (holding_srights _ _ _ _ _ _ _ p HT1 Hh) as Hs. rewrite has_type, Ht in Hs by done.
  pose proof (holding_slot _ _ _ _ _ _ _ HT1 Hh) as Hslot. rewrite has_type, Ht in Hslot by done.
  rewrite Ht in HF. apply wp_bind. eapply wf_drop_sright; [done|done|done|by apply Hs|].
  set (q := drop_send p). intros s1 HF1. apply wp_bind.
  eapply wf_request_cancel; [done|done|apply lookup_insert_eq|by unfold q; rewrite drop_send_active| |].
  { intros Hr. specialize (Hslot eq_refl Hr). revert Hslot. unfold plus, minus. cbn [cnt]. hand_at. lia. }
  rewrite (request_of_drop p req : request_of q.1 req = _). intros s2 rq HF2. rewrite insert_insert_eq in HF2.
  apply wp_bind. eapply wf_hash_delete; [done|done|]. intros s3 HF3.
  apply wp_bind. eapply wf_ie_mod; [done|done|entry_fields|done|done|]. intros s4 HF4.
  apply wp_bind. eapply wf_entry_dealloc; [done|done|]. intros s5 HF5.
  apply wp_bind. eapply wf_release; [done|apply lookup_insert_eq| |].
  { pose proof (HT2 o). pose proof (HT1 (RLive o)). unfold plus, minus. rights_of_type.
    fold (slot_held o req name). cbn [cnt]. hand_at. lia. }
  intros s6 P6 HF6 _. apply wp_bind. eapply wf_send_no_senders; [done|]. intros s7 HF7.
  apply wp_bind. eapply wf_send_port_deleted; [done|]. intros s8 HF8. wp_step. eapply (HQ s8 P6).
  rewrite app_assoc. eapply fc_ext; [apply (fc_drop _ _ _ _ _ _ _ _ _ [RName o a] HF8); by repeat constructor|].
  fold (slot_held o req name). same_hand.
Qed.

(** A send-once right to a live port is used up: the port's receiver hears of it. *)
Lemma wf_dealloc_send_once s P L o b req p Q :
  holding s P L o b req T0 -> IE_BITS_TYPE b = MACH_PORT_TYPE_SEND_ONCE -> P !! o = Some p -> ip_active p = true ->
  (forall s' P', foc s' P' (L ++ NotifySendOnce o :: port_deleted_events (request_of p req))
      (Shut IO_NULL (MACH_PORT_GEN name)) T0 -> Q KERN_SUCCESS s') ->
  wp (request ← ipc_right_request_cancel_macro a o name i;
      _ ← ie_mod a i (set_ie_object IO_NULL);
      _ ← entry_dealloc a name i;
      _ ← ipc_notify_send_once o;
      _ ← send_port_deleted request name;
      mret KERN_SUCCESS) s Q.
Proof.
  intros Hh Ht Ho Ha HQ. destruct HT0 as [HT1 HT2]. pose proof Hh as [HF Hok].
  pose proof (holding_gen _ _ _ _ _ _ _ Hh) as Hg.
  pose proof (holding_slot _ _ _ _ _ _ _ HT1 Hh) as Hslot. rewrite has_type, Ht in Hslot by done.
  rewrite Ht in HF. apply wp_bind. eapply wf_request_cancel; [done|done|done|done|by apply Hslot|].
  intros s2 rq HF2.
  apply wp_bind. eapply wf_ie_mod; [done|done|entry_fields|done|done|]. intros s4 HF4.
  apply wp_bind. eapply wf_entry_dealloc; [done|done|]. intros s5 HF5.
  apply wp_bind. eapply wf_log; [done|]. intros s6 HF6.
  apply wp_bind. eapply wf_send_port_deleted; [done|]. intros s7 HF7. wp_step.
  eapply (HQ s7). rewrite <- app_assoc in HF7. eapply fc_ext; [done|].
  fold (slot_held o req name). cbn [event_rights]. same_hand.
Qed.

(** A user reference of a send right that comes with the receive right goes. *)
Lemma wf_dealloc_send_receive s P L o b req p Q :
  holding s P L o b req T0 -> IE_BITS_TYPE b = MACH_PORT_TYPE_SEND_RECEIVE -> P !! o = Some p ->
  (forall s' P' o' b', entry_after o b false (IE_BITS_UREFS b - 1) o' b' ->
    foc s' P' (L ++ if IE_BITS_UREFS b =? 1 then no_senders_events (drop_send p).2 else [])
      (Shut o' b') T0 -> Q KERN_SUCCESS s') ->
  wp (ns ← (if IE_BITS_UREFS b =? 1 then
              ns ← drop_sright o;
              _ ← ie_mod a i (set_ie_bits (clr b (Z.lor IE_BITS_UREFS_MASK MACH_PORT_TYPE_SEND)));
              mret ns
            else
              _ ← ie_mod a i (set_ie_bits (b - 1));
              mret (IP_NULL, 0));
      _ ← entry_modified a name i;
      _ ← send_no_senders ns;
      mret KERN_SUCCESS) s Q.
Proof.
  intros Hh Ht Ho HQ. destruct HT0 as [HT1 HT2]. pose proof Hh as [HF Hok].
  pose proof (holding_gen _ _ _ _ _ _ _ Hh) as Hg.
  destruct (holding_receive _ _ _ _ _ _ _ p HT1 Hh) as (Ha & _); [rewrite has_type, Ht by done; done|done|].
  pose proof (holding_srights _ _ _ _ _ _ _ p HT1 Hh) as Hs. rewrite has_type, Ht in Hs by done.
  destruct (entry_ok_inv _ _ _ Hok) as [(Ht' & _)|[(Ht' & _)|[(_ & Hon & Hu & Hreq)|[(Ht' & _)|[(Ht' & _)|(Ht' & _)]]]]];
    try (rewrite Ht in Ht'; done).
  rewrite Ht in HF. apply wp_bind. destruct (Z.eqb_spec (IE_BITS_UREFS b) 1) as [H1|H1].
  - set (b' := clr b (Z.lor IE_BITS_UREFS_MASK MACH_PORT_TYPE_SEND)).
    assert (Hb' : IE_BITS_TYPE b' = MACH_PORT_TYPE_RECEIVE /\ IE_BITS_UREFS b' = 0 /\ IE_BITS_GEN b' = IE_BITS_GEN b).
    { unfold b'. rewrite clr_gen_disjoint, IE_BITS_TYPE_clr, IE_BITS_UREFS_clr, Ht, H1 by done. done. }
    destruct Hb' as (Hbt & Hbu & Hbg).
    apply wp_bind. eapply wf_drop_sright; [done|done|done|by apply Hs|]. intros s1 HF1.
    apply wp_bind. eapply wf_ie_mod; [done|done|entry_fields|done|by rewrite Hbg|]. intros s2 HF2. wp_step.
    apply wp_bind. eapply wf_entry_modified; [done|done|]. intros s3 HF3.
    apply wp_bind. eapply wf_send_no_senders; [done|]. intros s4 HF4. wp_step. eapply (HQ s4 _ o b').
    + unfold entry_after. rewrite (has_type b') by done. by rewrite Hbt, Hbu, Hbg, H1, Ht.
    + eapply (fc_put_back s4 _ _ o b' req); [by rewrite Hbt|unfold entry_ok; rewrite Hbt, Hbu; by constructor|].
      rewrite Hbt. same_hand.
  - assert (Hr : 0 <= IE_BITS_UREFS b + -1 < 2 ^ 16) by (unfold MACH_PORT_UREFS_MAX in *; lia).
    destruct (bits_urefs b (-1) Hr) as (Hbt & Hbu & Hbg). change (b + -1) with (b - 1) in *.
    apply wp_bind. eapply wf_ie_mod; [done|done|entry_fields|done|by rewrite Hbg|]. intros s1 HF1. wp_step.
    apply wp_bind. eapply wf_entry_modified; [done|done|]. intros s3 HF3.
    apply wp_bind. eapply wf_send_no_senders; [done|]. intros s4 HF4. wp_step. eapply (HQ s4 _ o (b - 1)).
    + unfold entry_after. rewrite (has_type (b - 1)) by done. rewrite Hbt, Hbu, Hbg, Ht.
      rewrite (proj2 (Z.eqb_neq (IE_BITS_UREFS b - 1) 0)) by lia. by split_and!; try lia.
    + eapply (fc_put_back s4 _ _ o (b - 1) req); [by rewrite Hbt, Ht|unfold entry_ok; rewrite Hbt, Hbu, Ht; constructor; [done|lia..]|].
      rewrite Hbt, Ht. same_hand.
Qed.

(** Whether there is no live port behind an entry *)
Definition port_dead (P : gmap Z ipc_port) (o : Z) : bool :=
  match P !! o with Some p => negb (ip_active p) | None => true end.

(** The user references an entry of a dead port is found with: one more when a notification
    was pending *)
Definition found_urefs (P : gmap Z ipc_port) (o b req : Z) : Z :=
  match P !! o with
  | Some p => if ip_active p then IE_BITS_UREFS b else dead_urefs p b req
  | None => IE_BITS_UREFS b
  end.

Lemma entry_after_dead p o b req b1 u o' b' :
  became_dead p b req b1 -> entry_after IO_NULL b1 true u o' b' -> entry_after o b true u o' b'.
Proof.
  intros ((Ht1 & _ & Hg1) & _ & Hty) (Hu & Hg & Ht & Ho). unfold entry_after.
  rewrite Ht1 in Ht. rewrite has_type in Ho by done.
  assert (Hnr : has (IE_BITS_TYPE b') MACH_PORT_TYPE_PORT_RIGHTS = false) by (rewrite Ht; by destruct (u =? 0)).
  rewrite has_type, Hnr by done. rewrite Hnr in Ho. split_and!; [done|congruence| |done].
  rewrite Ht. destruct Hty as [->| ->]; by destruct (u =? 0).
Qed.

(** What [ipc_right_dealloc] does: the result, the log and the entry *)
Definition dealloced (P : gmap Z ipc_port) (L : list event) (o b req : Z) (kr : kern_return_t)
    (L' : list event) (o' b' : Z) : Prop :=
  if has b (Z.lor MACH_PORT_TYPE_SEND (Z.lor MACH_PORT_TYPE_SEND_ONCE MACH_PORT_TYPE_DEAD_NAME)) then
    let u := found_urefs P o b req in
    kr = KERN_SUCCESS /\ entry_after o b (port_dead P o) (u - 1) o' b' /\
    L' = L ++ match P !! o with
              | Some p =>
                if negb (ip_active p) then []
                else if has b MACH_PORT_TYPE_SEND_ONCE
                then NotifySendOnce o :: port_deleted_events (request_of p req)
                else if u =? 1
                then no_senders_events (drop_send p).2 ++
                     (if has b MACH_PORT_TYPE_RECEIVE then [] else port_deleted_events (request_of p req))
                else []
              | None => []
              end
  else kr = KERN_INVALID_RIGHT /\ L' = L /\ o' = o /\ b' = b.

Lemma holding_null_port s P L o b req lk T : foc s P L (Open (o, b, req) lk) T -> P !! IO_NULL = None.
Proof.
  intros HF. destruct (P !! IO_NULL) as [p|] eqn:Hp; [|done].
  pose proof (po_valid _ _ (fc_port_ok _ _ _ _ _ _ _ _ _ HF _ _ Hp)). done.
Qed.

(** A send or send-once right found dead is deallocated as a dead name. *)
Lemma wf_dealloc_found_dead s P L o b req p b1 p' Q :
  foc s (<[o := p']> P) L (Open (IO_NULL, b1, IE_REQ_NONE) false) (T0 ⊕ [RRef o]) ->
  became_dead p b req b1 -> o <> IP_NULL ->
  (forall s' P' o' b' u, IE_BITS_UREFS b1 = u -> entry_after o b true (u - 1) o' b' ->
    foc s' P' L (Shut o' b') T0 -> Q KERN_SUCCESS s') ->
  wp (e ← ie_get a i;
      _ ← massert (IE_BITS_TYPE (ie_bits e) =? MACH_PORT_TYPE_DEAD_NAME);
      dealloc_dead_name a name i o) s Q.
Proof.
  intros HF Hbd Hon HQ. pose proof Hbd as ((Ht1 & Hu1 & _) & _).
  apply wp_bind. eapply wf_ie_get; [done|done|]. intros ix. wp_step. wp_step; [by apply Z.eqb_eq|].
  eapply wf_dealloc_dead_name; [|exact HT0|by eapply became_dead_ok|done| |].
  - by rewrite (proj2 (Z.eqb_neq _ _) Hon).
  - intros _. apply lookup_insert_eq.
  - intros s' P' o' b' Hea HF'. eapply (HQ s' P' o' b' (IE_BITS_UREFS b1)); [done| |done].
    by eapply entry_after_dead.
Qed.

(** The cases of [ipc_right_dealloc]; [dealloc_spec] is what each of them is to establish. *)
Definition dealloc_spec (P : gmap Z ipc_port) (L : list event) (o b req : Z)
    (Q : kern_return_t -> kstate -> Prop) : Prop :=
  forall kr s' P' L' o' b', dealloced P L o b req kr L' o' b' -> foc s' P' L' (Shut o' b') T0 -> Q kr s'.

Lemma dealloc_found_dead s P L o b req p p' b1 Q :
  foc s (<[o := p']> P) L (Open (IO_NULL, b1, IE_REQ_NONE) false) (T0 ⊕ [RRef o]) ->
  P !! o = Some p -> ip_active p = false -> became_dead p b req b1 -> o <> IP_NULL -> dealloc_spec P L o b req Q ->
  wp (e ← ie_get a i;
      _ ← massert (IE_BITS_TYPE (ie_bits e) =? MACH_PORT_TYPE_DEAD_NAME);
      dealloc_dead_name a name i o) s Q.
Proof.
  intros HF Ho Ha Hbd Hon HQ. eapply wf_dealloc_found_dead; [done|done|done|].
  intros s' P' o' b' u <- Hea HF'. eapply HQ; [|done]. unfold dealloced.
  pose proof Hbd as ((_ & Hu & _) & _ & Hty). rewrite Hu in Hea.
  replace (has b _) with true by (rewrite has_type by done; by destruct Hty as [->| ->]).
  unfold found_urefs, port_dead. rewrite Ho, Ha. split_and!; [done..|by rewrite app_nil_r].
Qed.

(** A user reference of a send right of several goes. *)
Lemma dealloc_send_urefs s P L o b req p Q :
  holding s P L o b req T0 -> IE_BITS_TYPE b = MACH_PORT_TYPE_SEND -> P !! o = Some p -> ip_active p = true ->
  IE_BITS_UREFS b <> 1 -> dealloc_spec P L o b req Q ->
  wp (_ ← ie_mod a i (set_ie_bits (b - 1)); _ ← entry_modified a name i; mret KERN_SUCCESS) s Q.
Proof.
  intros Hh Ht Ho Ha H1 HQ. pose proof Hh as [HF Hok]. pose proof (holding_gen _ _ _ _ _ _ _ Hh) as Hg.
  pose proof Hok as Hs. unfold entry_ok in Hs. rewrite Ht in Hs. inversion Hs as [? ? ? Hon Hu Hr| | | | |]; subst.
  destruct (bits_urefs b (-1)) as (Hbt & Hbu & Hbg); [unfold MACH_PORT_UREFS_MAX in *; lia|].
  change (b + -1) with (b - 1) in *. change (IE_BITS_UREFS b + -1) with (IE_BITS_UREFS b - 1) in *.
  apply wp_bind. eapply wf_ie_mod; [done|done|entry_fields|done|by rewrite Hbg|]. intros s1 HF1.
  apply wp_bind. eapply wf_entry_modified; [done|done|]. intros s2 HF2. wp_step.
  eapply (HQ _ s2 P L o (b - 1)).
  - unfold dealloced. by_type Ht. unfold port_dead, found_urefs.
    rewrite Ho, Ha, (proj2 (Z.eqb_neq _ _) H1). split_and!; [done| |by rewrite app_nil_r].
    unfold entry_after. rewrite (has_type (b - 1)) by done.
    rewrite Hbt, Hbu, Hbg, Ht, (proj2 (Z.eqb_neq (IE_BITS_UREFS b - 1) 0)) by lia. done.
  - eapply fc_put_back; [by rewrite Hbt| |rewrite Hbt; same_hand].
    unfold entry_ok. rewrite Hbt, Hbu, Ht. constructor; [done|lia|done].
Qed.

Lemma dealloc_send_case s P L o b req p Q :
  holding s P L o b req T0 -> IE_BITS_TYPE b = MACH_PORT_TYPE_SEND -> P !! o = Some p ->
  dealloc_spec P L o b req Q -> wp (ipc_right_dealloc a name i) s Q.
Proof.
  intros Hh Ht Ho HQ. pose proof (proj1 HT0) as HT1. pose proof Hh as [HF Hok].
  pose proof (holding_gen _ _ _ _ _ _ _ Hh) as Hg. pose proof Hok as Hs. unfold entry_ok in Hs. rewrite Ht in Hs.
  inversion Hs as [? ? ? Hon Hu Hr| | | | |]; subst. unfold ipc_right_dealloc.
  apply wp_bind. eapply wf_ie_get; [done|done|]. intros ix. cbn [ie_bits ie_object].
  apply wp_bind. eapply wf_is_get; [done|]. intros sp _ [Hw _]. wp_step. wp_step; [by apply Hw|].
  by_type Ht. wp_step. wp_step; [apply Z.ltb_lt; lia|]. wp_step. wp_step; [by destruct (Z.eqb_spec o IP_NULL)|].
  apply wp_bind. eapply wf_right_check; [done|done|by by_type Ht|done|..].
  - intros Ha. apply wp_bind. eapply wf_ip_get; [done|done|].
    wp_step. wp_step; [apply Z.ltb_lt; eapply holding_srights; [done|done|by by_type Ht|done]|].
    destruct (Z.eqb_spec (IE_BITS_UREFS b) 1) as [H1|H1]; [|by eapply dealloc_send_urefs].
    eapply wf_dealloc_send; [done|done|done|done|]. intros s' P' HF'. eapply HQ; [|done].
    unfold dealloced, port_dead, found_urefs. by_type Ht. rewrite Ho, Ha. rewrite H1.
    split_and!; [done|by apply entry_after_free; [rewrite Ht|]|done].
  - intros s1 p' b1 Ha _ Hbd HF1. by eapply dealloc_found_dead.
Qed.

Lemma dealloc_send_once_case s P L o b req p Q :
  holding s P L o b req T0 -> IE_BITS_TYPE b = MACH_PORT_TYPE_SEND_ONCE -> P !! o = Some p ->
  dealloc_spec P L o b req Q -> wp (ipc_right_dealloc a name i) s Q.
Proof.
  intros Hh Ht Ho HQ. pose proof (proj1 HT0) as HT1. pose proof Hh as [HF Hok].
  pose proof (holding_gen _ _ _ _ _ _ _ Hh) as Hg. pose proof Hok as Hs. unfold entry_ok in Hs. rewrite Ht in Hs.
  inversion Hs as [ | | |? ? Hon Hr Ho' Hu| |]; subst. unfold ipc_right_dealloc.
  apply wp_bind. eapply wf_ie_get; [done|done|]. intros ix. cbn [ie_bits ie_object].
  apply wp_bind. eapply wf_is_get; [done|]. intros sp _ [Hw _]. wp_step. wp_step; [by apply Hw|].
  by_type Ht. wp_step. wp_step; [apply Z.eqb_eq; lia|]. wp_step. wp_step; [by destruct (Z.eqb_spec o IP_NULL)|].
  apply wp_bind. eapply wf_right_check; [done|done|by by_type Ht|done|..].
  - intros Ha. apply wp_bind. eapply wf_ip_get; [done|done|].
    wp_step. wp_step; [apply Z.ltb_lt; by eapply holding_sorights|].
    eapply wf_dealloc_send_once; [done|done|done|done|]. intros s' P' HF'. eapply HQ; [|done].
    unfold dealloced, port_dead, found_urefs. by_type Ht. rewrite Ho, Ha. replace (IE_BITS_UREFS b) with 1 by lia.
    split_and!; [done|by apply entry_after_free; [rewrite Ht|]|done].
  - intros s1 p' b1 Ha _ Hbd HF1. by eapply dealloc_found_dead.
Qed.

Lemma dealloc_send_receive_case s P L o b req p Q :
  holding s P L o b req T0 -> IE_BITS_TYPE b = MACH_PORT_TYPE_SEND_RECEIVE -> P !! o = Some p ->
  dealloc_spec P L o b req Q -> wp (ipc_right_dealloc a name i) s Q.
Proof.
  intros Hh Ht Ho HQ. pose proof (proj1 HT0) as HT1. pose proof Hh as [HF Hok].
  pose proof Hok as Hs. unfold entry_ok in Hs. rewrite Ht in Hs.
  inversion Hs as [ | |? ? ? Hon Hu Hr| | |]; subst. unfold ipc_right_dealloc.
  apply wp_bind. eapply wf_ie_get; [done|done|]. intros ix. cbn [ie_bits ie_object].
  apply wp_bind. eapply wf_is_get; [done|]. intros sp _ [Hw _]. wp_step. wp_step; [by apply Hw|].
  destruct (holding_receive _ _ _ _ _ _ _ p HT1 Hh) as (Ha & Hrc & Hrn & Hn0); [by by_type Ht|done|].
  by_type Ht. wp_step. wp_step; [apply Z.ltb_lt; lia|]. wp_step. wp_step; [by destruct (Z.eqb_spec o IP_NULL)|].
  apply wp_bind. eapply wf_ip_get; [done|done|]. wp_step. wp_step; [done|].
  wp_step. wp_step; [by apply Z.eqb_eq|]. wp_step. wp_step; [by apply Z.eqb_eq|].
  wp_step. wp_step; [apply Z.ltb_lt; eapply holding_srights; [done|done|by by_type Ht|done]|].
  eapply wf_dealloc_send_receive; [done|done|done|]. intros s' P' o' b' Hea HF'. eapply HQ; [|done].
  unfold dealloced, port_dead. by_type Ht. unfold found_urefs. rewrite Ho, Ha. split_and!; [done..|].
  f_equal. rewrite app_nil_r. done.
Qed.

Lemma wf_right_dealloc s P L o b req Q :
  holding s P L o b req T0 -> dealloc_spec P L o b req Q -> wp (ipc_right_dealloc a name i) s Q.
Proof.
  intros Hh HQ. pose proof Hh as [HF Hok].
  assert (Hport : has b MACH_PORT_TYPE_PORT_RIGHTS = true -> exists p, P !! o = Some p)
    by (apply (holding_port s P L o b req T0); [apply HT0|done]).
  destruct (entry_ok_inv _ _ _ Hok) as [(Ht & _)|[(Ht & _)|[(Ht & _)|[(Ht & _)|[(Ht & _)|(Ht & -> & _ & ->)]]]]];
    revert Hport; by_type Ht; intros Hport.
  - destruct (Hport eq_refl) as [p Ho]. by eapply dealloc_send_case.
  - unfold ipc_right_dealloc. apply wp_bind. eapply wf_ie_get; [done|done|]. intros ix. cbn [ie_bits ie_object].
    apply wp_bind. eapply wf_is_get; [done|]. intros sp _ [Hw _]. wp_step. wp_step; [by apply Hw|].
    by_type Ht. wp_step. eapply HQ; [unfold dealloced; by by_type Ht|]. eapply fc_put_back; [exact HF|done|same_hand].
  - destruct (Hport eq_refl) as [p Ho]. by eapply dealloc_send_receive_case.
  - destruct (Hport eq_refl) as [p Ho]. by eapply dealloc_send_once_case.
  - unfold ipc_right_dealloc. apply wp_bind. eapply wf_ie_get; [done|done|]. intros ix. cbn [ie_bits ie_object].
    apply wp_bind. eapply wf_is_get; [done|]. intros sp _ [Hw _]. wp_step. wp_step; [by apply Hw|].
    by_type Ht. wp_step. eapply HQ; [unfold dealloced; by by_type Ht|]. eapply fc_put_back; [exact HF|done|same_hand].
  - unfold ipc_right_dealloc. apply wp_bind. eapply wf_ie_get; [done|done|]. intros ix. cbn [ie_bits ie_object].
    apply wp_bind. eapply wf_is_get; [done|]. intros sp _ [Hw _]. wp_step. wp_step; [by apply Hw|].
    by_type Ht. pose proof (holding_null_port _ _ _ _ _ _ _ _ HF) as Hnone.
    eapply (wf_dealloc_dead_name _ _ _ _ T0 IP_NULL port_zero); [|exact HT0|done|done|done|].
    + rewrite Ht in HF. eapply fc_ext; [exact HF|done].
    + intros s' P' o' b' Hea HF'. eapply HQ; [|done]. unfold dealloced, port_dead. by_type Ht. unfold found_urefs. rewrite Hnone. split_and!; [done..|by rewrite app_nil_r].
Qed.
End operations.

(** ** Operations on a name *)

(** [name] denotes an entry with core [c] in the active space [a]; this is what
    [ipc_right_lookup_write] establishes. *)
Definition named (s : kstate) (a name : Z) (c : Z * Z * Z) : Prop :=
  0 <= name < 2 ^ 32 /\ exists sp, ks_spaces s !! a = Some sp /\ is_active sp = true /\
    0 < MACH_PORT_INDEX name < is_table_size sp /\
    core (entry_at (is_table sp) (MACH_PORT_INDEX name)) = c /\
    core_type c <> MACH_PORT_TYPE_NONE /\ IE_BITS_GEN c.1.2 = MACH_PORT_GEN name.

(** The entry afterwards *)
Definition entry_is (s : kstate) (a i o b : Z) : Prop :=
  exists sp, ks_spaces s !! a = Some sp /\
    ie_object (entry_at (is_table sp) i) = o /\ ie_bits (entry_at (is_table sp) i) = b.

Section names.
Context {env : ipc_env} (s : kstate) (a name : Z) (T : right -> Z).

Lemma holding_start o b req :
  kwf s T -> named s a name (o, b, req) ->
  holding s a (MACH_PORT_INDEX name) name s (ks_ports s) (ks_log s) o b req T.
Proof.
  intros HK (Hw & sp & Ha & Hact & Hi & Hc & Ht & Hg).
  destruct (fc_open s a (MACH_PORT_INDEX name) name T sp HK Ha Hact Hi) as [Hok HF]; [by rewrite Hc..|].
  rewrite Hc in *. split; [|done]. eapply fc_ext; [done|]. intros r. unfold plus. do 2 f_equal.
  simpl in Hg. symmetry. by apply core_rights_name.
Qed.

Lemma shut_end s' P L o b :
  focus s a (MACH_PORT_INDEX name) name s' P L (Shut o b) T ->
  kwf s' T /\ framed a (MACH_PORT_INDEX name) s s' /\ ks_log s' = L /\ entry_is s' a (MACH_PORT_INDEX name) o b.
Proof.
  intros HF. split_and!; [by eapply fc_closed|by eapply fc_frame|by eapply fc_log|].
  destruct (fc_space _ _ _ _ _ _ _ _ _ HF) as (sp & Ha & _ & Ho & Hb). by exists sp.
Qed.
End names.


(** ** Witnesses, on the sample kernel *)
Module RightExample.
Import Sample.

End RightExample.
