(* ===== verification/IpcDeltaOk.v ===== *)
(** * Changing user references (ipc_right.c)

    [ipc_right_delta] for the rights whose user references can change, and [ipc_right_info]:
    what they do to the named entry, and that they keep the kernel balanced. *)

From S2P Require Import IpcTypes IpcBits IpcHash IpcEntry IpcGrow IpcState IpcLedger IpcPort IpcRequest IpcDestroy IpcRight IpcFocus IpcSample IpcRightOk.

(** ** Arithmetic of user references *)

Lemma u32_range x : 0 <= x < 2 ^ 32 -> u32 x = x.
Proof. intros. unfold u32. by rewrite Z.mod_small. Qed.

Section references.
Context (u delta : Z) (Hu : 0 <= u <= MACH_PORT_UREFS_MAX) (Hd : - 2 ^ 31 <= delta < 2 ^ 31).

Lemma urefs_underflow : MACH_PORT_UREFS_UNDERFLOW u delta = (u + delta <? 0).
Proof using Hd Hu.
  unfold MACH_PORT_UREFS_UNDERFLOW, MACH_PORT_UREFS_MAX in *. destruct (Z.ltb_spec delta 0); cbn [andb].
  - rewrite u32_range by lia. by destruct (Z.ltb_spec u (- delta)), (Z.ltb_spec (u + delta) 0); try lia.
  - symmetry. apply Z.ltb_ge. lia.
Qed.

Lemma urefs_overflow : MACH_PORT_UREFS_OVERFLOW u delta = (MACH_PORT_UREFS_MAX <? u + delta).
Proof using Hd Hu.
  unfold MACH_PORT_UREFS_OVERFLOW, MACH_PORT_UREFS_MAX in *. destruct (Z.ltb_spec 0 delta); cbn [andb].
  - rewrite u32_range by lia. by rewrite (proj2 (Z.leb_gt (u + delta) u)) by lia.
  - symmetry. apply Z.ltb_ge. lia.
Qed.
End references.

Lemma bits_u32 x : IE_BITS_TYPE (u32 x) = IE_BITS_TYPE x /\ IE_BITS_UREFS (u32 x) = IE_BITS_UREFS x /\
  IE_BITS_GEN (u32 x) = IE_BITS_GEN x.
Proof.
  unfold IE_BITS_TYPE, IE_BITS_UREFS, IE_BITS_GEN, u32. rewrite <- Z.land_ones by lia.
  by rewrite <- !Z.land_assoc.
Qed.

(** The bits of an entry after a change of its user references *)
Definition new_urefs (b n b' : Z) : Prop :=
  IE_BITS_TYPE b' = IE_BITS_TYPE b /\ IE_BITS_UREFS b' = IE_BITS_UREFS b + n /\ IE_BITS_GEN b' = IE_BITS_GEN b.

Lemma new_urefs_u32 b n : 0 <= IE_BITS_UREFS b + n < 2 ^ 16 -> new_urefs b n (u32 (b + n)).
Proof.
  intros Hr. destruct (bits_u32 (b + n)) as (H1 & H2 & H3). destruct (bits_urefs b n Hr) as (H4 & H5 & H6).
  unfold new_urefs. by rewrite H1, H2, H3.
Qed.

Lemma new_urefs_after o b n b' :
  new_urefs b n b' -> 0 < IE_BITS_UREFS b + n ->
  has b MACH_PORT_TYPE_PORT_RIGHTS = true \/ o = IO_NULL -> entry_after o b false (IE_BITS_UREFS b + n) o b'.
Proof.
  intros (Ht & Hu & Hg) Hn Ho. unfold entry_after. rewrite (proj2 (Z.eqb_neq _ 0)) by lia.
  split_and!; [done..|]. rewrite has_type, Ht by done. rewrite has_type in Ho by done.
  destruct Ho as [-> | ->]; [done|]. by destruct (has _ _).
Qed.

Section delta.
Context {env : ipc_env} (s0 : kstate) (a i name : Z) (Hname : MACH_PORT_INDEX name = i)
  (Hword : 0 <= name < 2 ^ 32) (T0 : right -> Z) (HT0 : hand_ok T0).
Local Abbreviation foc := (focus s0 a i name).
Local Abbreviation hold := (holding s0 a i name).

(** An entry left as it is *)
Lemma hold_shut s P L o b req : hold s P L o b req T0 -> foc s P L (Shut o b) T0.
Proof. intros [HF Hok]. eapply fc_put_back; [done|done|exact HF|done|same_hand]. Qed.

(** The reference to a port that was found dead is given up. *)
Lemma wf_release_found_dead s P L o b req p p' b1 Q :
  foc s (<[o := p']> P) L (Open (IO_NULL, b1, IE_REQ_NONE) false) (T0 ⊕ [RRef o]) -> became_dead p b req b1 ->
  (forall s' P', foc s' P' L (Shut IO_NULL b1) T0 -> Q tt s') -> wp (io_release o) s Q.
Proof.
  intros HF Hbd HQ. destruct HT0 as [HT1 HT2]. pose proof (HT2 o). pose proof (HT1 (RLive o)).
  pose proof (became_dead_ok _ _ _ _ Hbd) as Hok.
  assert (Ht : IE_BITS_TYPE b1 = MACH_PORT_TYPE_DEAD_NAME) by (by destruct Hbd as ((? & _) & _)).
  eapply wf_release; [done|apply lookup_insert_eq| |].
  - unfold plus. cbn [cnt]. hand_at. lia.
  - intros s' P' HF' _. eapply (HQ s' P'). eapply fc_put_back; [done|done|by rewrite Ht|done|].
    rewrite Ht. same_hand.
Qed.

(** *** Send rights *)

(** Nothing happened. *)
Definition refused (L : list event) (o b : Z) (L' : list event) (o' b' : Z) : Prop := L' = L /\ o' = o /\ b' = b.

(** What [ipc_right_delta] does to the user references of a send right.  The references stay
    one below the maximum, so that the dead name left by a dead port can be given one more. *)
Definition delta_sent (P : gmap Z ipc_port) (L : list event) (o b req delta : Z) (kr : kern_return_t)
    (L' : list event) (o' b' : Z) : Prop :=
  let u := IE_BITS_UREFS b + delta in
  match P !! o with
  | Some p =>
    if negb (has b MACH_PORT_TYPE_SEND) then kr = KERN_INVALID_RIGHT /\ refused L o b L' o' b'
    else if negb (ip_active p) then kr = KERN_INVALID_RIGHT /\ L' = L /\ o' = IO_NULL /\ became_dead p b req b'
    else if u <? 0 then kr = KERN_INVALID_VALUE /\ refused L o b L' o' b'
    else if MACH_PORT_UREFS_MAX <=? u then kr = KERN_UREFS_OVERFLOW /\ refused L o b L' o' b'
    else kr = KERN_SUCCESS /\ entry_after o b false u o' b' /\
         L' = L ++ if u =? 0
                   then no_senders_events (drop_send p).2 ++
                        (if has b MACH_PORT_TYPE_RECEIVE then [] else port_deleted_events name (request_of p req))
                   else []
  | None => kr = KERN_INVALID_RIGHT /\ refused L o b L' o' b'
  end.

(** The last user reference of a send right goes. *)
Lemma wf_delta_drop_send s P L o b req p Q :
  hold s P L o b req T0 -> IE_BITS_TYPE b = MACH_PORT_TYPE_SEND -> P !! o = Some p -> ip_active p = true ->
  (forall s' P', foc s' P' (L ++ no_senders_events (drop_send p).2 ++ port_deleted_events name (request_of p req))
      (Shut IO_NULL (MACH_PORT_GEN name)) T0 -> Q KERN_SUCCESS s') ->
  wp (ns ← drop_sright o;
      request ← (_ ← massert (IE_BITS_TYPE b =? MACH_PORT_TYPE_SEND);
                 request ← ipc_right_request_cancel_macro a o name i;
                 _ ← hash_delete a o name i;
                 _ ← io_release o;
                 _ ← ie_mod a i (set_ie_object IO_NULL);
                 _ ← entry_dealloc a name i;
                 mret request);
      _ ← send_no_senders ns;
      _ ← send_port_deleted request name;
      mret KERN_SUCCESS) s Q.
Proof.
  intros Hh Ht Ho Ha HQ. destruct HT0 as [HT1 HT2]. pose proof Hh as [HF Hok].
  pose proof (holding_gen _ _ _ _ _ _ _ _ _ _ _ Hh) as Hg.
  pose proof (holding_srights _ _ _ _ _ _ _ _ _ _ _ p HT1 Hh) as Hs. rewrite has_type, Ht in Hs by done.
  pose proof (holding_slot _ _ _ _ _ _ _ _ _ _ _ HT1 Hh) as Hslot. rewrite has_type, Ht in Hslot by done.
  rewrite Ht in HF. apply wp_bind. eapply wf_drop_sright; [done|done|done|by apply Hs|].
  set (q := drop_send p). intros s1 HF1. apply wp_bind. wp_step. wp_step; [by apply Z.eqb_eq|]. apply wp_bind.
  eapply wf_request_cancel; [done|done|apply lookup_insert_eq|by unfold q; rewrite drop_send_active| |].
  { intros Hr. specialize (Hslot eq_refl Hr). revert Hslot. unfold plus, minus. cbn [cnt]. hand_at. lia. }
  rewrite (request_of_drop p req : request_of q.1 req = _). intros s2 rq HF2. rewrite insert_insert_eq in HF2.
  apply wp_bind. eapply wf_hash_delete; [done|done|]. intros s3 HF3.
  apply wp_bind. eapply wf_release; [done|apply lookup_insert_eq| |].
  { pose proof (HT2 o). pose proof (HT1 (RLive o)). unfold plus, minus. rights_of_type.
    fold (slot_held o req name). cbn [cnt]. hand_at. lia. }
  intros s4 P4 HF4 _. apply wp_bind. eapply wf_ie_mod; [done|done|entry_fields|done|done|]. intros s5 HF5.
  apply wp_bind. eapply wf_entry_dealloc; [done|done|]. intros s6 HF6. wp_step.
  apply wp_bind. eapply wf_send_no_senders; [done|]. intros s7 HF7.
  apply wp_bind. eapply wf_send_port_deleted; [done|]. intros s8 HF8. wp_step. eapply (HQ s8 P4).
  rewrite app_assoc. eapply fc_ext; [apply (fc_drop _ _ _ _ _ _ _ _ _ [RName o a] HF8); by repeat constructor|].
  fold (slot_held o req name). same_hand.
Qed.

(** An entry that holds a right to a port *)
Lemma entry_ok_port o b req :
  entry_ok (o, b, req) -> has b MACH_PORT_TYPE_PORT_RIGHTS = true ->
  o <> IO_NULL /\ 0 <= req /\ 0 <= IE_BITS_UREFS b < MACH_PORT_UREFS_MAX /\
  (has b MACH_PORT_TYPE_SEND_RIGHTS = true -> 0 < IE_BITS_UREFS b).
Proof.
  intros Hok Hb. rewrite has_type in * by done. unfold MACH_PORT_UREFS_MAX.
  destruct (entry_ok_inv _ _ _ Hok) as [(Ht & ? & ? & ?)|[(Ht & ? & ? & ?)|[(Ht & ? & ? & ?)|[(Ht & ? & ? & ?)|[(Ht & _)|(Ht & _)]]]]];
    rewrite Ht in *; try done; unfold MACH_PORT_UREFS_MAX in *; split_and!; try done; lia.
Qed.

(** The bits left of an entry without its send right *)
Lemma urefs_cleared b m : IE_BITS_UREFS (clr b (Z.lor IE_BITS_UREFS_MASK m)) = 0.
Proof.
  rewrite IE_BITS_UREFS_clr. unfold IE_BITS_UREFS, clr. apply Z.bits_inj'. intros n Hn.
  rewrite Z.ldiff_spec, Z.land_spec, Z.lor_spec, Z.bits_0.
  by destruct (Z.testbit b n), (Z.testbit IE_BITS_UREFS_MASK n), (Z.testbit m n).
Qed.

Lemma receive_bits b :
  IE_BITS_TYPE b = MACH_PORT_TYPE_SEND_RECEIVE ->
  let b' := clr b (Z.lor IE_BITS_UREFS_MASK MACH_PORT_TYPE_SEND) in
  IE_BITS_TYPE b' = MACH_PORT_TYPE_RECEIVE /\ IE_BITS_UREFS b' = 0 /\ IE_BITS_GEN b' = IE_BITS_GEN b.
Proof.
  intros Ht. cbv zeta. rewrite clr_gen_disjoint, IE_BITS_TYPE_clr, urefs_cleared, Ht by done. done.
Qed.

(** The last user reference of the send right of an entry with the receive right goes. *)
Lemma wf_delta_drop_receive s P L o b req p Q :
  hold s P L o b req T0 -> IE_BITS_TYPE b = MACH_PORT_TYPE_SEND_RECEIVE -> P !! o = Some p ->
  (forall s' P' b', entry_after o b false 0 o b' -> foc s' P' (L ++ no_senders_events (drop_send p).2) (Shut o b') T0 ->
    Q KERN_SUCCESS s') ->
  wp (ns ← drop_sright o;
      request ← (p ← ip_get o;
                 _ ← massert (ip_receiver_name p =? name);
                 _ ← massert (ip_receiver p =? a);
                 _ ← massert (IE_BITS_TYPE b =? MACH_PORT_TYPE_SEND_RECEIVE);
                 _ ← ie_mod a i (set_ie_bits (clr b (Z.lor IE_BITS_UREFS_MASK MACH_PORT_TYPE_SEND)));
                 _ ← entry_modified a name i;
                 mret IP_NULL);
      _ ← send_no_senders ns;
      _ ← send_port_deleted request name;
      mret KERN_SUCCESS) s Q.
Proof.
  intros Hh Ht Ho HQ. destruct HT0 as [HT1 HT2]. pose proof Hh as [HF Hok].
  pose proof (holding_gen _ _ _ _ _ _ _ _ _ _ _ Hh) as Hg.
  destruct (holding_receive _ _ _ _ Hname _ _ _ _ _ _ _ p HT1 Hh) as (Ha & Hr & Hn & _); [by by_type Ht|done|].
  pose proof (holding_srights _ _ _ _ _ _ _ _ _ _ _ p HT1 Hh) as Hs. rewrite has_type, Ht in Hs by done.
  destruct (entry_ok_port _ _ _ Hok) as (Hon & Hreq & _); [by by_type Ht|].
  destruct (receive_bits b Ht) as (Hbt & Hbu & Hbg). set (b' := clr b _) in *.
  rewrite Ht in HF. apply wp_bind. eapply wf_drop_sright; [done|done|done|by apply Hs|]. intros s1 HF1.
  assert (Hq : ip_receiver (drop_send p).1 = ip_receiver p /\ ip_receiver_name (drop_send p).1 = ip_receiver_name p)
    by (unfold drop_send; by destruct (_ && _)). destruct Hq as [Hq1 Hq2].
  apply wp_bind. apply wp_bind. eapply wf_ip_get; [done|apply lookup_insert_eq|]. rewrite Hq1, Hq2, Hr, Hn, Ht.
  wp_step. wp_step; [apply Z.eqb_refl|]. wp_step. wp_step; [apply Z.eqb_refl|]. wp_step. wp_step; [done|].
  apply wp_bind. eapply wf_ie_mod; [done|done|entry_fields|done|by rewrite Hbg|]. intros s2 HF2.
  apply wp_bind. eapply wf_entry_modified; [done|done|]. intros s3 HF3. wp_step.
  apply wp_bind. eapply wf_send_no_senders; [done|]. intros s4 HF4. apply wp_bind, (wp_ret tt). wp_step.
  eapply (HQ s4 _ b').
  - unfold entry_after. rewrite (has_type b') by done. by rewrite Hbt, Hbu, Hbg, Ht.
  - eapply (fc_put_back _ _ _ _ Hname Hword s4 _ _ o b' req); [by rewrite Hbt|unfold entry_ok; rewrite Hbt, Hbu; by constructor|].
    rewrite Hbt. same_hand.
Qed.

(** A change that leaves user references *)
Lemma wf_delta_urefs s P L o b req delta Q :
  hold s P L o b req T0 -> has b MACH_PORT_TYPE_SEND = true ->
  0 < IE_BITS_UREFS b + delta < MACH_PORT_UREFS_MAX ->
  (forall s' b', entry_after o b false (IE_BITS_UREFS b + delta) o b' -> foc s' P L (Shut o b') T0 -> Q KERN_SUCCESS s') ->
  wp (_ ← ie_mod a i (set_ie_bits (u32 (b + delta))); _ ← entry_modified a name i; mret KERN_SUCCESS) s Q.
Proof.
  intros Hh Hb Hu HQ. pose proof Hh as [HF Hok]. pose proof (holding_gen _ _ _ _ _ _ _ _ _ _ _ Hh) as Hg.
  pose proof (new_urefs_u32 b delta) as Hnu. destruct Hnu as (Hbt & Hbu & Hbg); [unfold MACH_PORT_UREFS_MAX in *; lia|].
  set (b' := u32 (b + delta)) in *.
  apply wp_bind. eapply wf_ie_mod; [done|done|entry_fields|done|by rewrite Hbg|]. intros s1 HF1.
  apply wp_bind. eapply wf_entry_modified; [done|done|]. intros s2 HF2. wp_step. eapply (HQ s2 b').
  - apply new_urefs_after; [done|lia|left]. rewrite has_type in * by done.
    destruct (entry_ok_inv _ _ _ Hok) as [(Ht & _)|[(Ht & _)|[(Ht & _)|[(Ht & _)|[(Ht & _)|(Ht & _)]]]]];
      rewrite Ht in *; done.
  - eapply fc_put_back; [done|done|by rewrite Hbt| |rewrite Hbt; same_hand].
    unfold entry_ok. rewrite Hbt, Hbu. rewrite has_type in Hb by done.
    destruct (entry_ok_inv _ _ _ Hok) as [(Ht & ? & ? & ?)|[(Ht & _)|[(Ht & ? & ? & ?)|[(Ht & _)|[(Ht & _)|(Ht & _)]]]]];
      rewrite Ht in *; try done; by constructor.
Qed.

(** After the tests on the port: the change itself *)
Lemma wf_delta_send_live s P L o b req p delta Q :
  hold s P L o b req T0 -> has b MACH_PORT_TYPE_SEND = true -> P !! o = Some p -> ip_active p = true ->
  - 2 ^ 31 <= delta < 2 ^ 31 ->
  (forall kr s' P' L' o' b', delta_sent P L o b req delta kr L' o' b' -> foc s' P' L' (Shut o' b') T0 -> Q kr s') ->
  wp (let urefs := IE_BITS_UREFS b in
      if MACH_PORT_UREFS_UNDERFLOW urefs delta then mret KERN_INVALID_VALUE else
      if MACH_PORT_UREFS_OVERFLOW (urefs + 1) delta then mret KERN_UREFS_OVERFLOW else
      if u32 (urefs + delta) =? 0 then
        ns ← drop_sright o;
        request ← (if has b MACH_PORT_TYPE_RECEIVE then
            p ← ip_get o;
            _ ← massert (ip_receiver_name p =? name);
            _ ← massert (ip_receiver p =? a);
            _ ← massert (IE_BITS_TYPE b =? MACH_PORT_TYPE_SEND_RECEIVE);
            _ ← ie_mod a i (set_ie_bits (clr b (Z.lor IE_BITS_UREFS_MASK MACH_PORT_TYPE_SEND)));
            _ ← entry_modified a name i;
            mret IP_NULL
          else
            _ ← massert (IE_BITS_TYPE b =? MACH_PORT_TYPE_SEND);
            request ← ipc_right_request_cancel_macro a o name i;
            _ ← hash_delete a o name i;
            _ ← io_release o;
            _ ← ie_mod a i (set_ie_object IO_NULL);
            _ ← entry_dealloc a name i;
            mret request);
        _ ← send_no_senders ns;
        _ ← send_port_deleted request name;
        mret KERN_SUCCESS
      else
        _ ← ie_mod a i (set_ie_bits (u32 (b + delta)));
        _ ← entry_modified a name i;
        mret KERN_SUCCESS) s Q.
Proof.
  intros Hh Hb Ho Ha Hd HQ. pose proof Hh as [HF Hok]. pose proof (holding_gen _ _ _ _ _ _ _ _ _ _ _ Hh) as Hg.
  assert (Hty : IE_BITS_TYPE b = MACH_PORT_TYPE_SEND \/ IE_BITS_TYPE b = MACH_PORT_TYPE_SEND_RECEIVE).
  { by_kind Hok; auto. }
  destruct (entry_ok_port _ _ _ Hok) as (_ & _ & Hu & _); [by destruct Hty as [Ht|Ht]; by_type Ht|].
  cbv zeta. rewrite urefs_underflow, urefs_overflow by (unfold MACH_PORT_UREFS_MAX in *; lia).
  assert (Hspec : forall kr s' P' L' o' b',
    (if IE_BITS_UREFS b + delta <? 0 then kr = KERN_INVALID_VALUE /\ refused L o b L' o' b'
     else if MACH_PORT_UREFS_MAX <=? IE_BITS_UREFS b + delta then kr = KERN_UREFS_OVERFLOW /\ refused L o b L' o' b'
     else kr = KERN_SUCCESS /\ entry_after o b false (IE_BITS_UREFS b + delta) o' b' /\
       L' = L ++ if IE_BITS_UREFS b + delta =? 0
                 then no_senders_events (drop_send p).2 ++
                      (if has b MACH_PORT_TYPE_RECEIVE then [] else port_deleted_events name (request_of p req))
                 else []) -> foc s' P' L' (Shut o' b') T0 -> Q kr s').
  { intros kr s' P' L' o' b' H1. apply HQ. unfold delta_sent. by rewrite Ho, Hb, Ha. }
  clear HQ. destruct (Z.ltb_spec (IE_BITS_UREFS b + delta) 0) as [Hlt|Hge].
  { wp_step. eapply Hspec; [done|by eapply hold_shut]. }
  replace (MACH_PORT_UREFS_MAX <? IE_BITS_UREFS b + 1 + delta) with (MACH_PORT_UREFS_MAX <=? IE_BITS_UREFS b + delta)
    by (destruct (Z.leb_spec MACH_PORT_UREFS_MAX (IE_BITS_UREFS b + delta)), (Z.ltb_spec MACH_PORT_UREFS_MAX (IE_BITS_UREFS b + 1 + delta)); lia).
  destruct (Z.leb_spec MACH_PORT_UREFS_MAX (IE_BITS_UREFS b + delta)) as [Hov|Hno].
  { wp_step. eapply Hspec; [done|by eapply hold_shut]. }
  rewrite u32_range by (unfold MACH_PORT_UREFS_MAX in *; lia).
  destruct (Z.eqb_spec (IE_BITS_UREFS b + delta) 0) as [H0|H0].
  - destruct Hty as [Ht|Ht]; rewrite (has_type b MACH_PORT_TYPE_RECEIVE) in * by done;
      rewrite (f_equal (fun t => has t MACH_PORT_TYPE_RECEIVE) Ht) in *.
    + eapply wf_delta_drop_send; [done..|]. intros s' P' HF'. eapply Hspec; [|done]. rewrite H0.
      split_and!; [done|apply entry_after_free; [by rewrite Ht|done]|done].
    + eapply wf_delta_drop_receive; [done..|]. intros s' P' b' Hea HF'. rewrite H0 in Hspec.
      eapply Hspec; [|done]. split_and!; [done..|by rewrite app_nil_r].
  - eapply wf_delta_urefs; [done|done|lia|]. intros s' b' Hea HF'. eapply Hspec; [|done].
    split_and!; [done..|by rewrite app_nil_r].
Qed.

Lemma wf_delta_send s P L o b req delta Q :
  hold s P L o b req T0 -> - 2 ^ 31 <= delta < 2 ^ 31 ->
  (forall kr s' P' L' o' b', delta_sent P L o b req delta kr L' o' b' -> foc s' P' L' (Shut o' b') T0 -> Q kr s') ->
  wp (delta_send a name i delta) s Q.
Proof.
  intros Hh Hd HQ. pose proof (proj1 HT0) as HT1. pose proof Hh as [HF Hok]. unfold delta_send.
  apply wp_bind. eapply wf_ie_get; [done|done|]. intros ix. cbn [ie_bits ie_object].
  destruct (has b MACH_PORT_TYPE_SEND) eqn:Hb; cbn [negb].
  - assert (Hpr : has b MACH_PORT_TYPE_PORT_RIGHTS = true).
    { by_kind Hok; auto. }
    destruct (entry_ok_port _ _ _ Hok Hpr) as (Hon & _).
    destruct (holding_port _ _ _ _ _ _ _ _ _ _ _ HT1 Hh Hpr) as [p Ho].
    wp_step. wp_step; [by destruct (Z.eqb_spec o IP_NULL)|].
    apply wp_bind. eapply wf_right_check; [done|done|exact Hh|done|done|..].
    + intros Ha. apply wp_bind. eapply wf_ip_get; [done|done|].
      wp_step. wp_step; [apply Z.ltb_lt; by eapply holding_srights|].
      by eapply wf_delta_send_live.
    + intros s1 p' b1 Ha _ Hbd HF1. apply wp_bind. eapply wf_ie_get; [done|done|]. intros ix1. cbn [ie_bits].
      pose proof Hbd as ((Ht1 & _) & _). wp_step. wp_step; [by by_type Ht1|].
      apply wp_bind. eapply wf_release_found_dead; [done|done|]. intros s' P' HF'. wp_step.
      eapply HQ; [|done]. unfold delta_sent. by rewrite Ho, Hb, Ha.
  - wp_step. eapply HQ; [|by eapply hold_shut]. unfold delta_sent. rewrite Hb. by destruct (P !! o).
Qed.

(** *** Send-once rights *)

Definition delta_sent_once (P : gmap Z ipc_port) (L : list event) (o b req delta : Z) (kr : kern_return_t)
    (L' : list event) (o' b' : Z) : Prop :=
  match P !! o with
  | Some p =>
    if negb (has b MACH_PORT_TYPE_SEND_ONCE) then kr = KERN_INVALID_RIGHT /\ refused L o b L' o' b'
    else if negb (ip_active p) then kr = KERN_INVALID_RIGHT /\ L' = L /\ o' = IO_NULL /\ became_dead p b req b'
    else if delta =? 0 then kr = KERN_SUCCESS /\ refused L o b L' o' b'
    else if delta =? -1 then kr = KERN_SUCCESS /\ entry_after o b false 0 o' b' /\
                             L' = L ++ NotifySendOnce o :: port_deleted_events name (request_of p req)
    else kr = KERN_INVALID_VALUE /\ refused L o b L' o' b'
  | None => kr = KERN_INVALID_RIGHT /\ refused L o b L' o' b'
  end.

Lemma wf_delta_send_once s P L o b req delta Q :
  hold s P L o b req T0 ->
  (forall kr s' P' L' o' b', delta_sent_once P L o b req delta kr L' o' b' -> foc s' P' L' (Shut o' b') T0 -> Q kr s') ->
  wp (delta_send_once a name i delta) s Q.
Proof.
  intros Hh HQ. pose proof (proj1 HT0) as HT1. pose proof Hh as [HF Hok]. unfold delta_send_once.
  pose proof (holding_gen _ _ _ _ _ _ _ _ _ _ _ Hh) as Hg.
  apply wp_bind. eapply wf_ie_get; [done|done|]. intros ix. cbn [ie_bits ie_object].
  destruct (has b MACH_PORT_TYPE_SEND_ONCE) eqn:Hb; cbn [negb].
  2:{ wp_step. eapply HQ; [|by eapply hold_shut]. unfold delta_sent_once. rewrite Hb. by destruct (P !! o). }
  assert (Ht : IE_BITS_TYPE b = MACH_PORT_TYPE_SEND_ONCE /\ IE_BITS_UREFS b = 1 /\ o <> IO_NULL).
  { by_kind Hok; auto. }
  destruct Ht as (Ht & Hu & Hon).
  destruct (holding_port _ _ _ _ _ _ _ _ _ _ _ HT1 Hh) as [p Ho]; [by by_type Ht|].
  wp_step. wp_step; [by apply Z.eqb_eq|]. wp_step. wp_step; [by apply Z.eqb_eq|].
  wp_step. wp_step; [by destruct (Z.eqb_spec o IP_NULL)|].
  apply wp_bind. eapply wf_right_check; [done|done|exact Hh|by by_type Ht|done|..].
  - intros Ha. apply wp_bind. eapply wf_ip_get; [done|done|].
    wp_step. wp_step; [apply Z.ltb_lt; by eapply holding_sorights|].
    unfold delta_sent_once in HQ. rewrite Ho, Hb, Ha in HQ. cbn [negb] in HQ.
    destruct (Z.eqb_spec delta 0) as [->|Hd0]; [apply (wp_ret KERN_SUCCESS); eapply HQ; [done|by eapply hold_shut]|].
    destruct (Z.eqb_spec delta (-1)) as [->|Hd1].
    + eapply wf_dealloc_send_once; [done..|]. intros s' P' HF'. eapply HQ; [|done].
      split_and!; [done|by apply entry_after_free; [rewrite Ht|]|done].
    + replace ((0 <? delta) || (delta <? -1)) with true
        by (destruct (Z.ltb_spec 0 delta), (Z.ltb_spec delta (-1)); (done || lia)).
      wp_step. eapply HQ; [done|by eapply hold_shut].
  - intros s1 p' b1 Ha _ Hbd HF1. apply wp_bind. eapply wf_ie_get; [done|done|]. intros ix1. cbn [ie_bits].
    pose proof Hbd as ((Ht1 & _) & _). wp_step. wp_step; [by by_type Ht1|].
    apply wp_bind. eapply wf_release_found_dead; [done|done|]. intros s' P' HF'. wp_step.
    eapply HQ; [|done]. unfold delta_sent_once. by rewrite Ho, Hb, Ha.
Qed.

(** *** Dead names *)

(** What a dead name, or a right that turns out to be one, is found with: its user
    references, and the reference to the dead port *)
Definition found_dead (P : gmap Z ipc_port) (o b req : Z) : option (Z * list right) :=
  if has b MACH_PORT_TYPE_SEND_RIGHTS then
    match P !! o with
    | Some p => if ip_active p then None else Some (dead_urefs p b req, [RRef o])
    | None => None
    end
  else if has b MACH_PORT_TYPE_DEAD_NAME then Some (IE_BITS_UREFS b, []) else None.

(** The rights [leaked] are those the code forgets to release. *)
Definition delta_deadened (P : gmap Z ipc_port) (L : list event) (o b req delta : Z) (kr : kern_return_t)
    (L' : list event) (o' b' : Z) (leaked : list right) : Prop :=
  match found_dead P o b req with
  | Some (u, ref) =>
    L' = L /\
    if u + delta <? 0 then kr = KERN_INVALID_VALUE /\ entry_after o b true u o' b' /\ leaked = ref
    else if MACH_PORT_UREFS_MAX <? u + delta
    then kr = KERN_UREFS_OVERFLOW /\ entry_after o b true u o' b' /\ leaked = ref
    else kr = KERN_SUCCESS /\ entry_after o b true (u + delta) o' b' /\ leaked = []
  | None => kr = KERN_INVALID_RIGHT /\ refused L o b L' o' b' /\ leaked = []
  end.

(** The change of a dead name; [relport] is a port found dead just before. *)
Definition dead_changed (u delta : Z) (b1 : Z) (ref : list right) (kr : kern_return_t) (o' b' : Z)
    (leaked : list right) : Prop :=
  if u + delta <? 0 then kr = KERN_INVALID_VALUE /\ entry_after IO_NULL b1 true u o' b' /\ leaked = ref
  else if MACH_PORT_UREFS_MAX <? u + delta
  then kr = KERN_UREFS_OVERFLOW /\ entry_after IO_NULL b1 true u o' b' /\ leaked = ref
  else kr = KERN_SUCCESS /\ entry_after IO_NULL b1 true (u + delta) o' b' /\ leaked = [].

Lemma wf_release_relport s P L ev relport p Q :
  foc s P L ev (T0 ⊕ when (negb (relport =? IP_NULL)) [RRef relport]) ->
  (relport <> IP_NULL -> P !! relport = Some p) ->
  (forall s' P', foc s' P' L ev T0 -> P' = (if relport =? IP_NULL then P else unref P relport p) -> Q tt s') ->
  wp (mwhen (negb (relport =? IP_NULL)) (io_release relport)) s Q.
Proof.
  intros HF Hp HQ. destruct (Z.eqb_spec relport IP_NULL) as [Hpn|Hpn]; cbn [negb when mwhen] in *.
  - wp_step. eapply HQ; [|done]. eapply fc_ext; [done|same_hand].
  - destruct HT0 as [HT1 HT2]. pose proof (HT2 relport). pose proof (HT1 (RLive relport)).
    eapply wf_release; [done|by apply Hp| |].
    + unfold plus. cbn [cnt]. hand_at. lia.
    + intros s2 P2 HF2 HP2. eapply HQ; [|done]. eapply fc_ext; [done|same_hand].
Qed.

Lemma wf_change_dead s P L b1 relport p delta Q :
  let ref := when (negb (relport =? IP_NULL)) [RRef relport] in
  foc s P L (Open (IO_NULL, b1, IE_REQ_NONE) false) (T0 ⊕ ref) ->
  IE_BITS_TYPE b1 = MACH_PORT_TYPE_DEAD_NAME -> 0 < IE_BITS_UREFS b1 <= MACH_PORT_UREFS_MAX ->
  (relport <> IP_NULL -> P !! relport = Some p) -> - 2 ^ 31 <= delta < 2 ^ 31 ->
  (forall kr s' P' o' b' leaked, dead_changed (IE_BITS_UREFS b1) delta b1 ref kr o' b' leaked ->
    foc s' P' L (Shut o' b') (T0 ⊕ leaked) -> Q kr s') ->
  wp (e ← ie_get a i;
      let bits := ie_bits e in
      _ ← massert (IE_BITS_TYPE bits =? MACH_PORT_TYPE_DEAD_NAME);
      _ ← massert (0 <? IE_BITS_UREFS bits);
      _ ← massert (ie_object e =? IO_NULL);
      _ ← massert (ie_request e =? IE_REQ_NONE);
      let urefs := IE_BITS_UREFS bits in
      if MACH_PORT_UREFS_UNDERFLOW urefs delta then mret KERN_INVALID_VALUE else
      if MACH_PORT_UREFS_OVERFLOW urefs delta then mret KERN_UREFS_OVERFLOW else
      _ ← (if u32 (urefs + delta) =? 0 then entry_dealloc a name i
           else
             _ ← ie_mod a i (set_ie_bits (u32 (bits + delta)));
             entry_modified a name i);
      _ ← mwhen (negb (relport =? IP_NULL)) (io_release relport);
      mret KERN_SUCCESS) s Q.
Proof.
  intros ref HF Ht Hu Hp Hd HQ. pose proof (fc_gen _ _ _ _ _ _ _ _ _ _ _ _ HF) as Hg.
  assert (Hsame : foc s P L (Shut IO_NULL b1) (T0 ⊕ ref)).
  { eapply fc_put_back; [done|done|by rewrite Ht|unfold entry_ok; rewrite Ht; by constructor|]. rewrite Ht. same_hand. }
  assert (Hea : entry_after IO_NULL b1 true (IE_BITS_UREFS b1) IO_NULL b1).
  { unfold entry_after. rewrite has_type, Ht, (proj2 (Z.eqb_neq (IE_BITS_UREFS b1) 0)) by (done || lia). done. }
  apply wp_bind. eapply wf_ie_get; [done|done|]. intros ix. cbn [ie_bits ie_object ie_request]. cbv zeta.
  wp_step. wp_step; [by apply Z.eqb_eq|]. wp_step. wp_step; [apply Z.ltb_lt; lia|].
  wp_step. wp_step; [done|]. wp_step. wp_step; [done|].
  rewrite urefs_underflow, urefs_overflow by lia. unfold dead_changed in HQ.
  destruct (Z.ltb_spec (IE_BITS_UREFS b1 + delta) 0) as [Hlt|Hge]; [wp_step; by eapply HQ|].
  destruct (Z.ltb_spec MACH_PORT_UREFS_MAX (IE_BITS_UREFS b1 + delta)) as [Hov|Hno]; [wp_step; by eapply HQ|].
  rewrite u32_range by (unfold MACH_PORT_UREFS_MAX in *; lia).
  assert (Hend : forall s1 o' b', entry_after IO_NULL b1 true (IE_BITS_UREFS b1 + delta) o' b' ->
    foc s1 P L (Shut o' b') (T0 ⊕ ref) ->
    wp (_ ← mwhen (negb (relport =? IP_NULL)) (io_release relport); mret KERN_SUCCESS) s1 Q).
  { intros s1 o' b' Hea1 HF1. apply wp_bind. eapply wf_release_relport; [done|done|]. intros s2 P2 HF2 _. wp_step.
    eapply HQ; [done|]. eapply fc_ext; [done|same_hand]. }
  apply wp_bind. destruct (Z.eqb_spec (IE_BITS_UREFS b1 + delta) 0) as [H0|H0].
  - eapply wf_entry_dealloc; [done|done|]. intros s1 HF1. eapply Hend; [|done].
    rewrite H0. apply entry_after_free; [by rewrite Ht|done].
  - pose proof (new_urefs_u32 b1 delta) as Hnu. destruct Hnu as (Hbt & Hbu & Hbg); [unfold MACH_PORT_UREFS_MAX in *; lia|].
    set (b' := u32 (b1 + delta)) in *.
    apply wp_bind. eapply wf_ie_mod; [done|done|entry_fields|done|by rewrite Hbg|]. intros s1 HF1.
    eapply wf_entry_modified; [done|done|]. intros s2 HF2. eapply (Hend s2 IO_NULL b').
    + unfold entry_after. rewrite (has_type b') by done. rewrite Hbt, Hbu, Hbg, Ht.
      rewrite (proj2 (Z.eqb_neq (IE_BITS_UREFS b1 + delta) 0)) by lia. done.
    + eapply fc_put_back; [done|done|by rewrite Hbt, Ht| |rewrite Hbt, Ht; same_hand].
      unfold entry_ok. rewrite Hbt, Hbu, Ht. constructor. lia.
Qed.

Lemma wf_delta_dead_name s P L o b req delta Q :
  hold s P L o b req T0 -> - 2 ^ 31 <= delta < 2 ^ 31 ->
  (forall kr s' P' L' o' b' leaked, delta_deadened P L o b req delta kr L' o' b' leaked ->
    foc s' P' L' (Shut o' b') (T0 ⊕ leaked) -> Q kr s') ->
  wp (delta_dead_name a name i delta) s Q.
Proof.
  intros Hh Hd HQ. pose proof (proj1 HT0) as HT1. pose proof Hh as [HF Hok]. unfold delta_dead_name.
  pose proof (holding_gen _ _ _ _ _ _ _ _ _ _ _ Hh) as Hg.
  assert (Hsame : foc s P L (Shut o b) (T0 ⊕ [])) by (eapply fc_ext; [by eapply hold_shut|same_hand]).
  apply wp_bind. eapply wf_ie_get; [done|done|]. intros ix. cbn [ie_bits ie_object]. cbv zeta.
  unfold delta_deadened, found_dead in HQ.
  destruct (has b MACH_PORT_TYPE_SEND_RIGHTS) eqn:Hb; cbn [negb orb].
  - assert (Hpr : has b MACH_PORT_TYPE_PORT_RIGHTS = true).
    { by_kind Hok; auto. }
    destruct (entry_ok_port _ _ _ Hok Hpr) as (Hon & _).
    destruct (holding_port _ _ _ _ _ _ _ _ _ _ _ HT1 Hh Hpr) as [p Ho]. rewrite Ho in HQ.
    wp_step. wp_step; [by destruct (Z.eqb_spec o IP_NULL)|].
    apply wp_bind. eapply wf_right_check; [done|done|exact Hh|done|done|..].
    + intros Ha. cbn [negb]. wp_step. rewrite Ha in HQ. by eapply HQ.
    + intros s1 p' b1 Ha _ Hbd HF1. cbn [negb]. rewrite Ha in HQ. pose proof Hbd as ((Ht1 & Hu1 & Hg1) & Hu & _).
      assert (Href : when (negb (o =? IP_NULL)) [RRef o] = [RRef o]) by (by destruct (Z.eqb_spec o IP_NULL)).
      eapply (wf_change_dead _ _ _ b1 o p'); [by rewrite Href|done|by rewrite Hu1|intros; apply lookup_insert_eq|done|].
      rewrite Href. intros kr s' P' o' b' leaked Hc HF'. eapply HQ; [|done]. split; [done|].
      unfold dead_changed in Hc. rewrite Hu1 in Hc.
      destruct (_ <? 0); [|destruct (_ <? _)]; destruct Hc as (-> & Hea & ->);
        split_and!; try done; by eapply entry_after_dead.
  - wp_step. wp_step; [done|]. wp_step. wp_step.
    destruct (has b MACH_PORT_TYPE_DEAD_NAME) eqn:Hdn; cbn [negb]; [|wp_step; by eapply HQ].
    assert (Ht : IE_BITS_TYPE b = MACH_PORT_TYPE_DEAD_NAME /\ o = IO_NULL /\ req = IE_REQ_NONE /\
                 0 < IE_BITS_UREFS b <= MACH_PORT_UREFS_MAX).
    { by_kind Hok; auto. }
    destruct Ht as (Ht & -> & -> & Hu). rewrite Ht in HF.
    eapply (wf_change_dead _ _ _ b IP_NULL port_zero); [|done|done|done|done|].
    + eapply fc_ext; [exact HF|]. done.
    + intros kr s' P' o' b' leaked Hc HF'. eapply HQ; [|done]. split; [done|].
      unfold dead_changed in Hc. destruct (_ <? 0); [|destruct (_ <? _)]; destruct Hc as (-> & Hea & ->); done.
Qed.

(** *** Information *)

(** The request bits of an entry's type *)
Definition request_bits (p : ipc_port) (req : Z) : Z := if req =? IE_REQ_NONE then 0 else slot_type p req.

(** What [ipc_right_info] returns, and the entry it leaves *)
Definition informed (P : gmap Z ipc_port) (o b req : Z) (info : Z * Z) (o' b' : Z) : Prop :=
  match P !! o, has b MACH_PORT_TYPE_PORT_RIGHTS with
  | Some p, true =>
    if ip_active p then info = (Z.lor (request_bits p req) (IE_BITS_TYPE b), IE_BITS_UREFS b) /\ o' = o /\ b' = b
    else info = (MACH_PORT_TYPE_DEAD_NAME, dead_urefs p b req) /\ o' = IO_NULL /\ became_dead p b req b'
  | _, _ => info = (IE_BITS_TYPE b, IE_BITS_UREFS b) /\ o' = o /\ b' = b
  end.

Lemma wf_request_bits s P L o b req p Q :
  hold s P L o b req T0 -> has b MACH_PORT_TYPE_PORT_RIGHTS = true -> P !! o = Some p -> Q (request_bits p req) s ->
  wp (if negb (req =? IE_REQ_NONE) then ipc_port_request_type o name req else mret 0) s Q.
Proof.
  intros Hh Hb Ho HQ. pose proof Hh as [HF _]. unfold request_bits in HQ.
  destruct (Z.eqb_spec req IE_REQ_NONE) as [Hr|Hr]; cbn [negb]; [by wp_step|].
  eapply wf_request_type; [done|done| |done]. eapply holding_slot; [apply HT0|done..].
Qed.

Lemma wf_right_info s P L o b req Q :
  hold s P L o b req T0 ->
  (forall info s' P' o' b', informed P o b req info o' b' -> foc s' P' L (Shut o' b') T0 -> Q info s') ->
  wp (ipc_right_info a name i) s Q.
Proof.
  intros Hh HQ. pose proof (proj1 HT0) as HT1. pose proof Hh as [HF Hok]. unfold ipc_right_info.
  apply wp_bind. eapply wf_ie_get; [done|done|]. intros ix. cbn [ie_bits ie_object ie_request]. cbv zeta.
  unfold informed in HQ. apply wp_bind. destruct (has b MACH_PORT_TYPE_PORT_RIGHTS) eqn:Hb.
  - destruct (holding_port _ _ _ _ _ _ _ _ _ _ _ HT1 Hh Hb) as [p Ho]. rewrite Ho in HQ.
    destruct (has b MACH_PORT_TYPE_RECEIVE) eqn:Hr.
    + destruct (holding_receive _ _ _ _ Hname _ _ _ _ _ _ _ p HT1 Hh Hr Ho) as (Ha & _). rewrite Ha in HQ.
      wp_step. wp_step; [eapply po_valid, (fc_port_ok _ _ _ _ _ _ _ _ _ HF); done|].
      apply wp_bind. eapply (wp_mono _ _ (fun x s' => x = request_bits p req /\ s' = s)).
      * intros x s' [-> ->]. wp_step. wp_step. eapply HQ; [done|by eapply hold_shut].
      * unfold request_bits. destruct (Z.eqb_spec req IE_REQ_NONE) as [Hq|Hq]; cbn [negb]; [by wp_step|].
        apply wp_bind. eapply wf_ip_get; [done|done|]. wp_step. wp_step; [done|].
        eapply wf_request_type; [done|done|by eapply holding_slot|done].
    + assert (Hs : has b MACH_PORT_TYPE_SEND_RIGHTS = true).
      { by_kind Hok; auto. }
      rewrite Hs. apply wp_bind. eapply wf_right_check; [done|done|exact Hh|done|done|..].
      * intros Ha. rewrite Ha in HQ. apply wp_bind. eapply wf_request_bits; [done..|]. wp_step. wp_step.
        eapply HQ; [done|by eapply hold_shut].
      * intros s1 p' b1 Ha _ Hbd HF1. rewrite Ha in HQ. pose proof Hbd as ((Ht1 & Hu1 & _) & _).
        apply wp_bind. eapply wf_ie_get; [done|done|]. intros ix1. cbn [ie_bits].
        wp_step. wp_step; [by apply Z.eqb_eq|]. apply wp_bind.
        eapply wf_release_found_dead; [done|done|]. intros s' P' HF'. wp_step. wp_step. rewrite Ht1, Hu1.
        eapply HQ; [|done]. done.
  - assert (Hn : has b MACH_PORT_TYPE_RECEIVE = false /\ has b MACH_PORT_TYPE_SEND_RIGHTS = false).
    { by_kind Hok; auto. }
    destruct Hn as [-> ->]. wp_step. wp_step. eapply HQ; [|by eapply hold_shut]. rewrite Z.lor_0_l.
    by destruct (P !! o).
Qed.
End delta.

(** ** The operations on a name *)

(** [ipc_right_delta] for the three rights with user references *)
Definition delta_done (name right : Z) (P : gmap Z ipc_port) (L : list event) (o b req delta : Z)
    (kr : kern_return_t) (L' : list event) (o' b' : Z) (leaked : list IpcLedger.right) : Prop :=
  if right =? MACH_PORT_RIGHT_SEND then delta_sent name P L o b req delta kr L' o' b' /\ leaked = []
  else if right =? MACH_PORT_RIGHT_SEND_ONCE then delta_sent_once name P L o b req delta kr L' o' b' /\ leaked = []
  else delta_deadened P L o b req delta kr L' o' b' leaked.

Lemma wf_right_delta {env : ipc_env} s a name T o b req right delta :
  kwf s T -> hand_ok T -> named s a name (o, b, req) -> - 2 ^ 31 <= delta < 2 ^ 31 ->
  right ∈ [MACH_PORT_RIGHT_SEND; MACH_PORT_RIGHT_SEND_ONCE; MACH_PORT_RIGHT_DEAD_NAME] ->
  wp (ipc_right_delta a name (MACH_PORT_INDEX name) right delta) s (fun kr s' =>
    framed a (MACH_PORT_INDEX name) s s' /\
    exists o' b' leaked, entry_is s' a (MACH_PORT_INDEX name) o' b' /\ kwf s' (T ⊕ leaked) /\
      delta_done name right (ks_ports s) (ks_log s) o b req delta kr (ks_log s') o' b' leaked).
Proof.
  intros HK HT Hn Hd Hr. pose proof (proj1 Hn) as Hw. pose proof (holding_start s a name T o b req HK Hn) as Hh.
  pose proof Hh as [HF _]. unfold ipc_right_delta.
  apply wp_bind. eapply wf_is_get; [done|]. intros sp _ [Haw _]. wp_step. wp_step; [by apply Haw|].
  wp_step. rewrite !elem_of_cons, elem_of_nil in Hr.
  destruct Hr as [->|[->|[->|[]]]]; (wp_step; [done|]); unfold delta_done; cbn.
  - eapply wf_delta_send; [done..|]. intros kr s' P' L' o' b' Hs HF'.
    apply shut_end in HF' as (HK' & Hfr & <- & He). split; [done|]. exists o', b', []. split_and!; try done.
    destruct HK'. split; try done. eapply ledger_ext; [done|same_hand].
  - eapply wf_delta_send_once; [done..|]. intros kr s' P' L' o' b' Hs HF'.
    apply shut_end in HF' as (HK' & Hfr & <- & He). split; [done|]. exists o', b', []. split_and!; try done.
    destruct HK'. split; try done. eapply ledger_ext; [done|same_hand].
  - eapply wf_delta_dead_name; [done..|]. intros kr s' P' L' o' b' leaked Hs HF'.
    apply shut_end in HF' as (HK' & Hfr & <- & He). split; [done|]. by exists o', b', leaked.
Qed.

(** C28 [ipc_right_delta] on send rights, send-once rights and dead names never fails an
    assertion in a balanced state, on any entry, and any 32-bit [delta].  The state stays
    balanced, but for one reference: when the right is found dead and the result is an
    error, the reference to the dead port stays with nobody.  User references move by
    [delta] exactly, never below 0 and never above the maximum (for send rights: the maximum
    minus 1); the notifications due are sent. *)
Theorem ipc_right_delta_correct {env : ipc_env} s a name T o b req right delta :
  kwf s T -> hand_ok T -> named s a name (o, b, req) -> - 2 ^ 31 <= delta < 2 ^ 31 ->
  right ∈ [MACH_PORT_RIGHT_SEND; MACH_PORT_RIGHT_SEND_ONCE; MACH_PORT_RIGHT_DEAD_NAME] ->
  wp (ipc_right_delta a name (MACH_PORT_INDEX name) right delta) s (fun kr s' =>
    framed a (MACH_PORT_INDEX name) s s' /\
    exists o' b' leaked, entry_is s' a (MACH_PORT_INDEX name) o' b' /\ kwf s' (T ⊕ leaked) /\
      delta_done name right (ks_ports s) (ks_log s) o b req delta kr (ks_log s') o' b' leaked).
Proof. apply wf_right_delta. Qed.

(** C29 A reference count leaks: when [ipc_right_delta] is asked to take more references from
    a dead name than it has, and finds out only by this very call that the port is dead, it
    returns [KERN_INVALID_VALUE] without releasing the port.  The dead port then has one
    reference more than there are holders, and is never freed. *)
Theorem ipc_right_delta_leaks {env : ipc_env} s a name T o b req p delta :
  kwf s T -> hand_ok T -> named s a name (o, b, req) -> - 2 ^ 31 <= delta < 2 ^ 31 ->
  has b MACH_PORT_TYPE_SEND_RIGHTS = true -> ks_ports s !! o = Some p -> ip_active p = false ->
  dead_urefs p b req + delta < 0 ->
  wp (ipc_right_delta a name (MACH_PORT_INDEX name) MACH_PORT_RIGHT_DEAD_NAME delta) s (fun kr s' =>
    kr = KERN_INVALID_VALUE /\
    exists p', ks_ports s' !! o = Some p' /\ ip_references p' = held s' (RRef o) + T (RRef o) + 1).
Proof.
  intros HK HT Hn Hd Hb Ho Ha Hu. pose proof (proj1 Hn) as Hw.
  pose proof (holding_start s a name T o b req HK Hn) as Hh. pose proof Hh as [HF _]. unfold ipc_right_delta.
  apply wp_bind. eapply wf_is_get; [done|]. intros sp _ [Haw _]. wp_step. wp_step; [by apply Haw|].
  wp_step. wp_step; [done|]. cbn. eapply wf_delta_dead_name; [done..|]. intros kr s' P' L' o' b' leaked Hs HF'.
  unfold delta_deadened, found_dead in Hs. rewrite Hb, Ho, Ha, (proj2 (Z.ltb_lt _ _) Hu) in Hs.
  destruct Hs as (_ & -> & _ & ->). split; [done|].
  apply shut_end in HF' as (HK' & (Hps & _) & _). pose proof (kw_ledger _ _ HK' (RRef o)) as Hl.
  pose proof (held_nonneg s' (RRef o)). pose proof (proj1 HT (RRef o)).
  unfold accounts, plus in Hl. cbn [target cnt] in Hl. rewrite ind_eq in Hl.
  destruct (ks_ports s' !! o) as [p'|] eqn:Hp'; [exists p'; split; [done|]; cbn in Hl; lia|].
  rewrite Hps, (oo_disjoint _ (kw_objects _ _ HK) o) in Hl by (by exists p). lia.
Qed.

(** [ipc_right_info] tells the rights and the user references an entry stands for, with
    the bits of its pending request, on every entry of a balanced state; it turns a right to a
    dead port into a dead name first, and changes nothing else. *)
Theorem ipc_right_info_correct {env : ipc_env} s a name T o b req :
  kwf s T -> hand_ok T -> named s a name (o, b, req) ->
  wp (ipc_right_info a name (MACH_PORT_INDEX name)) s (fun info s' =>
    kwf s' T /\ framed a (MACH_PORT_INDEX name) s s' /\ ks_log s' = ks_log s /\
    exists o' b', entry_is s' a (MACH_PORT_INDEX name) o' b' /\ informed (ks_ports s) o b req info o' b').
Proof.
  intros HK HT Hn. pose proof (proj1 Hn) as Hw. eapply wf_right_info; [done|done|done|by apply holding_start|].
  intros info s' P' o' b' Hi HF. apply shut_end in HF as (HK' & Hfr & Hl & He). split_and!; [done..|]. eauto.
Qed.

(** ** Witnesses, on the sample kernel *)
Module DeltaExample.
Import Sample.

Lemma sample_named2 : named sample 0x1000 0x204 (0x200, 0x04010002, 1).
Proof. split; [done|]. exists space1. by vm_compute. Qed.

Lemma sample_named6 : named sample 0x1000 0x604 (0x400, 0x04010001, 0).
Proof. split; [done|]. exists space1. by vm_compute. Qed.

Lemma ipc_right_delta_witness :
  exists s', ipc_right_delta 0x1000 0x204 2 MACH_PORT_RIGHT_SEND (-2) sample = Ok (KERN_SUCCESS, s') /\
    ks_log s' = [NotifyPortDeleted 0x100 0x204].
Proof.
  destruct (wp_inv _ _ _ (ipc_right_delta_correct sample 0x1000 0x204 (hand []) 0x200 0x04010002 1
    MACH_PORT_RIGHT_SEND (-2) sample_kwf empty_hand sample_named2 ltac:(lia) ltac:(left)))
    as (kr & s' & Hrun & _ & o' & b' & leaked & _ & _ & Hd & _).
  exists s'. unfold delta_sent in Hd. cbn in Hd. destruct Hd as (-> & _ & Hl). split; [exact Hrun|].
  rewrite Hl. by vm_compute.
Defined.

Lemma ipc_right_delta_leaks_witness :
  exists s', ipc_right_delta 0x1000 0x604 6 MACH_PORT_RIGHT_DEAD_NAME (-2) sample = Ok (KERN_INVALID_VALUE, s') /\
    exists p', ks_ports s' !! 0x400 = Some p' /\ ip_references p' = held s' (RRef 0x400) + 1.
Proof.
  destruct (wp_inv _ _ _ (ipc_right_delta_leaks sample 0x1000 0x604 (hand []) 0x400 0x04010001 0
    (sample_port false 1 0 0 None 1 0) (-2) sample_kwf empty_hand sample_named6 ltac:(lia) eq_refl eq_refl eq_refl
    ltac:(done))) as (kr & s' & Hrun & -> & p' & Hp' & Hr).
  exists s'. split; [exact Hrun|]. exists p'. split; [exact Hp'|]. rewrite Hr. change (hand [] (RRef 0x400)) with 0. lia.
Defined.

Lemma ipc_right_info_witness :
  exists s', ipc_right_info 0x1000 0x604 6 sample = Ok ((MACH_PORT_TYPE_DEAD_NAME, 1), s') /\ kwf s' (hand []).
Proof.
  destruct (wp_inv _ _ _ (ipc_right_info_correct sample 0x1000 0x604 (hand []) 0x400 0x04010001 0
    sample_kwf empty_hand sample_named6)) as (info & s' & Hrun & HK & _ & _ & o' & b' & _ & Hi).
  exists s'. destruct Hi as (-> & _). done.
Defined.
End DeltaExample.
