(* ===== verification/IpcPortOk.v ===== *)
(** * The naked rights of ports (ipc_port.c)

    Making, copying and releasing send and send-once rights, and the requests for
    port-destroyed and no-senders notifications: what they do to a port, to the log and to the
    rights in hand, in a balanced state. *)

From S2P Require Import IpcTypes IpcBits IpcHash IpcEntry IpcGrow IpcState IpcLedger IpcPort IpcRequest IpcDestroy IpcRight IpcFocus IpcSample IpcRightOk IpcDeltaOk.

(** ** Rules, in any view of the entry in work *)
Section naked.
Context {env : ipc_env} (s0 : kstate) (a i name : Z).
Local Abbreviation foc := (focus s0 a i name).

(** A counter of a live port can go up by the references there may still be. *)
Lemma srights_room s P L ev T o p :
  foc s P L ev T -> hand_ok T -> P !! o = Some p -> ip_active p = true ->
  0 <= ip_srights p <= ip_references p /\ 0 <= ip_sorights p <= ip_references p /\
  ip_references p < IO_MAX_REFERENCES.
Proof.
  intros HF [HT1 HT2] Ho Ha. pose proof (fc_port_ok _ _ _ _ _ _ _ _ _ HF o p Ho) as Hok.
  destruct (fc_refs _ _ _ _ _ _ _ _ _ HF o p Ho) as (_ & Hs & Hso & _). destruct (HT2 o) as (_ & H1 & H2 & _).
  pose proof (po_srights _ _ Hok). pose proof (po_sorights _ _ Hok). pose proof (po_refs _ _ Hok).
  specialize (Hs H1 Ha). specialize (Hso H2 Ha). lia.
Qed.

Lemma u32_refs x : 0 <= x <= IO_MAX_REFERENCES -> u32 x = x.
Proof. intros Hx. apply u32_range. unfold IO_MAX_REFERENCES in Hx. lia. Qed.

(** [port->ip_srights += n; ip_reference(port)] *)
Lemma wf_add_send s P L ev T o p n Q :
  foc s P L ev T -> hand_ok T -> P !! o = Some p -> ip_active p = true -> 
  ip_srights p + n <= IO_MAX_REFERENCES -> 0 <= n ->
  (forall s', foc s' (<[o := set_ip_srights (ip_srights p + n) p]> P) L ev (T ⊕ repeat (RSend o) (Z.to_nat n)) -> Q tt s') ->
  wp (ip_mod o (fun p => set_ip_srights (u32 (ip_srights p + n)) p)) s Q.
Proof.
  intros HF HT Ho Ha Hm Hn HQ. pose proof (fc_port_ok _ _ _ _ _ _ _ _ _ HF o p Ho) as Hok.
  destruct (srights_room _ _ _ _ _ _ _ HF HT Ho Ha) as (Hs & _).
  eapply (wf_ip_counts _ _ _ _ _ _ _ _ _ o p _ (T ⊕ repeat (RSend o) (Z.to_nat n))); [done|done|done|done|done|done|done|apply Hok|simpl|apply Hok|apply Hok|done|simpl|simpl].
  - rewrite u32_refs; lia.
  - intros r. rewrite u32_refs by lia. unfold plus.
    assert (Hc : cnt r (repeat (RSend o) (Z.to_nat n)) = n * ind r (RSend o)).
    { rewrite <- (Z2Nat.id n) at 2 by lia. generalize (Z.to_nat n). intros k. induction k as [|k IH]; cbn [repeat cnt]; lia. }
    lia.
  - rewrite u32_refs by lia. done.
Qed.

Lemma wf_add_sonce s P L ev T o p Q :
  foc s P L ev T -> hand_ok T -> P !! o = Some p -> ip_active p = true ->
  (forall s', foc s' (<[o := set_ip_sorights (ip_sorights p + 1) p]> P) L ev (T ⊕ [RSonce o]) -> Q tt s') ->
  wp (ip_mod o (fun p => set_ip_sorights (u32 (ip_sorights p + 1)) p)) s Q.
Proof.
  intros HF HT Ho Ha HQ. pose proof (fc_port_ok _ _ _ _ _ _ _ _ _ HF o p Ho) as Hok.
  destruct (srights_room _ _ _ _ _ _ _ HF HT Ho Ha) as (_ & Hs & Hr).
  eapply (wf_ip_counts _ _ _ _ _ _ _ _ _ o p _ (T ⊕ [RSonce o])); [done|done|done|done|done|done|done|apply Hok|apply Hok|simpl|apply Hok|done|simpl|simpl].
  - rewrite u32_refs; lia.
  - intros r. rewrite u32_refs by lia. unfold plus. cbn [cnt]. lia.
  - rewrite u32_refs by lia. done.
Qed.

Lemma wf_add_mscount s P L ev T o p v Q :
  foc s P L ev T -> P !! o = Some p -> ip_receiver_name p <> MACH_PORT_NULL \/ v p = 0 ->
  (forall s', foc s' (<[o := set_ip_mscount (v p) p]> P) L ev T -> Q tt s') ->
  wp (ip_mod o (fun p => set_ip_mscount (v p) p)) s Q.
Proof.
  intros HF Ho Hn HQ. pose proof (fc_port_ok _ _ _ _ _ _ _ _ _ HF o p Ho) as Hok.
  eapply (wf_ip_counts _ _ _ _ _ _ _ _ _ o p _ T); [done|done|done|done|done|done|done|apply Hok|apply Hok|apply Hok|apply Hok| |simpl|done].
  - intros [Htr Him]. split; [|done]. intros Ha Hrn. destruct (Htr Ha Hrn) as [(_ & Hr) ?]. by destruct Hn as [[]|Hn].
  - intros r. lia.
Qed.

(** The port after a right was made or copied *)
Definition with_send (p : ipc_port) : ipc_port :=
  set_ip_references (ip_references p + 1) (set_ip_srights (ip_srights p + 1) p).
Definition with_sonce (p : ipc_port) : ipc_port :=
  set_ip_references (ip_references p + 1) (set_ip_sorights (ip_sorights p + 1) p).
Definition made_send (p : ipc_port) : ipc_port := with_send (set_ip_mscount (u32 (ip_mscount p + 1)) p).

Lemma hand_ok_plus T l : hand_ok T -> backed l -> hand_ok (T ⊕ l).
Proof.
  intros [H1 H2] Hb. split.
  - intros r. unfold plus. pose proof (H1 r). pose proof (cnt_nonneg r l). lia.
  - intros o. destruct (H2 o) as (? & ? & ?). destruct (Hb o) as (? & ? & ?). unfold plus. lia.
Qed.

Lemma live_and_ref T o : hand_ok T -> 0 <= T (RLive o) <= T (RRef o).
Proof. intros [H1 H2]. pose proof (H1 (RLive o)). pose proof (H2 o). lia. Qed.

Section rights.
Context (s : kstate) (P : gmap Z ipc_port) (L : list event) (ev : view) (T : right -> Z)
  (HF : focus s0 a i name s P L ev T) (HT : hand_ok T).

(** Making: a live port gets one more send right, counted in [ip_mscount] too. *)
Lemma wf_make_send o Q :
  (IP_VALID o = true -> exists p, P !! o = Some p /\ ip_references p + 1 < IO_MAX_REFERENCES /\
    (ip_active p = true -> ip_receiver_name p <> MACH_PORT_NULL)) ->
  (IP_VALID o = false -> Q o s) ->
  (forall p, P !! o = Some p -> ip_active p = false -> Q IP_DEAD s) ->
  (forall s' p, P !! o = Some p -> ip_active p = true ->
    foc s' (<[o := made_send p]> P) L ev (T ⊕ [RSend o; RRef o]) -> Q o s') ->
  wp (ipc_port_make_send o) s Q.
Proof.
  intros Hp Hinv Hdead Hlive. unfold ipc_port_make_send. destruct (IP_VALID o) eqn:Hv; cbn [negb]; [|by wp_step; apply Hinv].
  destruct (Hp eq_refl) as (p & Ho & Hr & Hrn). apply wp_bind. eapply wf_ip_get; [done|done|].
  destruct (ip_active p) eqn:Ha; [|wp_step; by eapply Hdead].
  destruct (srights_room _ _ _ _ _ _ _ HF HT Ho Ha) as (Hs & _).
  apply wp_bind. eapply wf_add_mscount; [done|done|left; by apply Hrn|]. intros s1 HF1.
  apply wp_bind. eapply (wf_add_send _ _ _ _ _ o _ 1); [exact HF1|done|apply lookup_insert_eq|done|simpl; lia|done|].
  rewrite insert_insert_eq. change (repeat _ _) with [RSend o]. intros s2 HF2.
  apply wp_bind. eapply wf_reference; [exact HF2|apply lookup_insert_eq|done|]. rewrite insert_insert_eq.
  intros s3 HF3. wp_step. eapply (Hlive s3 p); [done|done|]. eapply fc_ext; [exact HF3|]. same_hand.
Qed.

(** Copying: the send right that is copied must exist. *)
Lemma wf_copy_send o Q :
  (IP_VALID o = true -> exists p, P !! o = Some p /\ ip_references p + 1 < IO_MAX_REFERENCES /\
    (ip_active p = true -> 0 < ip_srights p)) ->
  (IP_VALID o = false -> Q o s) ->
  (forall p, P !! o = Some p -> ip_active p = false -> Q IP_DEAD s) ->
  (forall s' p, P !! o = Some p -> ip_active p = true ->
    foc s' (<[o := with_send p]> P) L ev (T ⊕ [RSend o; RRef o]) -> Q o s') ->
  wp (ipc_port_copy_send o) s Q.
Proof.
  intros Hp Hinv Hdead Hlive. unfold ipc_port_copy_send. destruct (IP_VALID o) eqn:Hv; cbn [negb]; [|by wp_step; apply Hinv].
  destruct (Hp eq_refl) as (p & Ho & Hr & Hsr). apply wp_bind. eapply wf_ip_get; [done|done|].
  destruct (ip_active p) eqn:Ha; [|wp_step; by eapply Hdead].
  destruct (srights_room _ _ _ _ _ _ _ HF HT Ho Ha) as (Hs & _).
  wp_step. wp_step; [by apply Z.ltb_lt, Hsr|].
  apply wp_bind. eapply wf_reference; [exact HF|done|done|]. intros s1 HF1.
  apply wp_bind. eapply (wf_add_send _ _ _ _ _ o _ 1); [exact HF1| |apply lookup_insert_eq|done|simpl; lia|done|].
  { apply hand_ok_plus; [done|]. intros x. cnt_simpl. destruct (decide _); lia. }
  rewrite insert_insert_eq. change (repeat _ _) with [RSend o]. intros s2 HF2.
  wp_step. eapply (Hlive s2 p); [done|done|]. eapply fc_ext; [exact HF2|]. same_hand.
Qed.

Lemma wf_make_sonce o Q :
  (IP_VALID o = true -> exists p, P !! o = Some p /\ ip_references p + 1 < IO_MAX_REFERENCES) ->
  (IP_VALID o = false -> Q o s) ->
  (forall p, P !! o = Some p -> ip_active p = false -> Q IP_DEAD s) ->
  (forall s' p, P !! o = Some p -> ip_active p = true ->
    foc s' (<[o := with_sonce p]> P) L ev (T ⊕ [RSonce o; RRef o]) -> Q o s') ->
  wp (ipc_port_make_sonce o) s Q.
Proof.
  intros Hp Hinv Hdead Hlive. unfold ipc_port_make_sonce. destruct (IP_VALID o) eqn:Hv; cbn [negb]; [|by wp_step; apply Hinv].
  destruct (Hp eq_refl) as (p & Ho & Hr). apply wp_bind. eapply wf_ip_get; [done|done|].
  destruct (ip_active p) eqn:Ha; [|wp_step; by eapply Hdead].
  apply wp_bind. eapply wf_add_sonce; [done|done|done|done|]. intros s2 HF2.
  apply wp_bind. eapply wf_reference; [exact HF2|apply lookup_insert_eq|done|]. rewrite insert_insert_eq.
  intros s3 HF3. wp_step. eapply (Hlive s3 p); [done|done|]. eapply fc_ext; [exact HF3|]. same_hand.
Qed.
End rights.

(** Releasing a send right of a live port is dropping it as an entry does, giving up the
    reference, and the no-senders notification. *)
Lemma drop_sright_run s o p :
  ks_ports s !! o = Some p -> drop_sright o s = Ok ((drop_send p).2, put_port s o (drop_send p).1).
Proof.
  intros Ho. cut (wp (drop_sright o) s (fun x s' => x = (drop_send p).2 /\ s' = put_port s o (drop_send p).1)).
  { intros (x & s' & -> & -> & ->)%wp_inv. done. }
  unfold drop_sright, drop_send. apply wp_bind, (wp_ip_get o p); [done|]. apply wp_bind, (wp_ip_mod o _ p); [done|].
  destruct (_ && _); [|by wp_step]. apply wp_bind. eapply wp_ip_mod; [apply ks_ports_put|]. rewrite put_port_put.
  by wp_step.
Qed.

Lemma wp_release_send s o p Q :
  IP_VALID o = true -> ks_ports s !! o = Some p -> ip_active p = true -> 0 < ip_srights p ->
  wp (ns ← drop_sright o; _ ← io_release o; send_no_senders ns) s Q -> wp (ipc_port_release_send o) s Q.
Proof.
  intros Hv Ho Ha Hs Hw. unfold wp, mbind, M_bind in Hw. rewrite (drop_sright_run s o p Ho) in Hw.
  unfold ipc_port_release_send. rewrite Hv. cbn [negb]. apply wp_bind, (wp_ip_get o p); [done|].
  wp_step. wp_step; [by apply Z.ltb_lt|]. apply wp_bind, (wp_ip_mod o _ p); [done|]. rewrite Ha. cbn [negb].
  apply wp_bind. eapply wp_ip_get; [apply ks_ports_put|]. unfold drop_send in Hw.
  cbn [ip_srights set_ip_srights ip_nsrequest ip_mscount].
  revert Hw. destruct (_ && _) eqn:He; intros Hw.
  - apply andb_prop in He as [_ Hns]. apply wp_bind. eapply wp_ip_mod; [apply ks_ports_put|]. rewrite put_port_put.
    unfold send_no_senders in Hw. cbn [fst snd] in Hw. rewrite Hns in Hw. exact Hw.
  - cbn [fst snd] in Hw. unfold wp. destruct (io_release o _) as [[[] s']|]; done.
Qed.

(** The port without the right, and the notification that is due; a dead port owes none. *)
Definition dropped (p : ipc_port) : ipc_port * (Z * Z) :=
  if ip_active p then drop_send p else (set_ip_srights (ip_srights p - 1) p, (IP_NULL, 0)).

(** Giving up a send right that is in hand *)
Lemma wf_release_send s P L ev T o Q :
  foc s P L ev (T ⊕ [RSend o; RRef o]) -> hand_ok T -> IP_VALID o = true ->
  (forall s' p, P !! o = Some p -> 0 < ip_srights p ->
    foc s' (unref P o (dropped p).1) (L ++ no_senders_events (dropped p).2) ev T -> Q tt s') ->
  wp (ipc_port_release_send o) s Q.
Proof.
  intros HF [HT1 HT2] Hv HQ. pose proof (HT1 (RRef o)). pose proof (HT1 (RSend o)). pose proof (HT1 (RLive o)).
  pose proof (HT2 o) as (HL & _ & _).
  destruct (fc_port _ _ _ _ _ _ _ _ _ HF o (RSend o)) as [p Ho]; [done|unfold plus; cbn [cnt]; hand_at; lia..|done|].
  assert (Hs : 0 < ip_srights p).
  { pose proof (fc_count_ge _ _ _ _ _ _ _ _ _ HF o p (RSend o) Ho eq_refl) as Hc. revert Hc.
    unfold plus. cbn [cnt port_count]. hand_at. lia. }
  pose proof (fc_ports _ _ _ _ _ _ _ _ _ HF) as HP. pose proof (fc_port_ok _ _ _ _ _ _ _ _ _ HF o p Ho) as Hok.
  pose proof (HQ := fun s' => HQ s' p Ho Hs). unfold dropped in HQ.
  destruct (ip_active p) eqn:Ha.
  - eapply wp_release_send; [done|by rewrite HP|done|done|].
    apply wp_bind. eapply wf_drop_sright; [done|done|done|done|]. intros s1 HF1.
    apply wp_bind. eapply wf_release; [done|apply lookup_insert_eq| |].
    { unfold plus, minus. cbn [cnt]. hand_at. lia. }
    intros s2 P2 HF2 HP2. eapply wf_send_no_senders; [done|]. intros s3 HF3. rewrite HP2, unref_insert in HF3.
    eapply (HQ s3). eapply fc_ext; [done|]. same_hand.
  - unfold ipc_port_release_send. rewrite Hv. cbn [negb]. apply wp_bind. eapply wf_ip_get; [done|done|].
    wp_step. wp_step; [by apply Z.ltb_lt|]. apply wp_bind.
    eapply (wf_ip_counts s0 a i name s P L ev _ o p _ (T ⊕ [RRef o])); [exact HF|..]; try done; try apply Hok; simpl; try lia; [same_hand|].
    intros s1 HF1. rewrite Ha. cbn [negb]. eapply wf_release; [done|apply lookup_insert_eq| |].
    { unfold plus. cbn [cnt]. hand_at. lia. }
    intros s2 P2 HF2 HP2. rewrite HP2, unref_insert in HF2.
    eapply (HQ s2). rewrite app_nil_r. eapply fc_ext; [done|]. same_hand.
Qed.

(** Giving up a send-once right that is in hand, silently *)
Lemma wf_release_sonce s P L ev T o Q :
  foc s P L ev (T ⊕ [RSonce o; RRef o]) -> hand_ok T -> IP_VALID o = true ->
  (forall s' p, P !! o = Some p -> 0 < ip_sorights p ->
    foc s' (unref P o (set_ip_sorights (ip_sorights p - 1) p)) L ev T -> Q tt s') ->
  wp (ipc_port_release_sonce o) s Q.
Proof.
  intros HF [HT1 HT2] Hv HQ. pose proof (HT1 (RRef o)). pose proof (HT1 (RSonce o)). pose proof (HT1 (RLive o)).
  pose proof (HT2 o) as (HL & _ & _).
  destruct (fc_port _ _ _ _ _ _ _ _ _ HF o (RSonce o)) as [p Ho]; [done|unfold plus; cbn [cnt]; hand_at; lia..|done|].
  assert (Hs : 0 < ip_sorights p).
  { pose proof (fc_count_ge _ _ _ _ _ _ _ _ _ HF o p (RSonce o) Ho eq_refl) as Hc. revert Hc.
    unfold plus. cbn [cnt port_count]. hand_at. lia. }
  pose proof (fc_port_ok _ _ _ _ _ _ _ _ _ HF o p Ho) as Hok.
  unfold ipc_port_release_sonce. rewrite Hv. cbn [negb]. apply wp_bind. eapply wf_ip_get; [done|done|].
  wp_step. wp_step; [by apply Z.ltb_lt|]. apply wp_bind.
  eapply (wf_ip_counts s0 a i name s P L ev _ o p _ (T ⊕ [RRef o])); [exact HF|..]; try done; try apply Hok; simpl; try lia; [same_hand|].
  intros s1 HF1. eapply wf_release; [done|apply lookup_insert_eq| |].
  { unfold plus. cbn [cnt]. hand_at. lia. }
  intros s2 P2 HF2 HP2. rewrite HP2, unref_insert in HF2. eapply (HQ s2 p); [done..|].
  eapply fc_ext; [done|]. same_hand.
Qed.

(** Exchanging the no-senders request: the old one is in hand afterwards, the new one is
    kept by the port or used up at once. *)
Lemma wf_nsrequest s P L ev T o p sync notify Q :
  foc s P L ev (T ⊕ sonce_rights notify) -> hand_ok T -> P !! o = Some p -> ip_active p = true ->
  (forall s',
    (if (ip_srights p =? 0) && (sync <=? ip_mscount p) && negb (notify =? IP_NULL)
     then foc s' (<[o := set_ip_nsrequest IP_NULL p]> P) (L ++ [NotifyNoSenders notify (ip_mscount p)]) ev
            (T ⊕ sonce_rights (ip_nsrequest p))
     else foc s' (<[o := set_ip_nsrequest notify p]> P) L ev (T ⊕ sonce_rights (ip_nsrequest p))) ->
    Q (ip_nsrequest p) s') ->
  wp (ipc_port_nsrequest o sync notify) s Q.
Proof.
  intros HF HT Ho Ha HQ. pose proof (fc_port_ok _ _ _ _ _ _ _ _ _ HF o p Ho) as Hok.
  assert (Hset : forall v T' R, (forall r, T' r = T r + cnt r (sonce_rights notify) + cnt r (sonce_rights (ip_nsrequest p)) - cnt r (sonce_rights v)) ->
    (forall s', foc s' (<[o := set_ip_nsrequest v p]> P) L ev T' -> R tt s') -> wp (ip_mod o (set_ip_nsrequest v)) s R).
  { intros v T' R HT' HR. eapply (wf_ip_mod _ _ _ _ _ _ _ _ _ o p _ T'); [done|done| |done| |done].
    - eapply port_ok_change; [done|done|apply Hok|apply Hok|apply Hok|apply Hok|done|by left|done|apply Hok|done].
    - intros r. rewrite move_active by done. simpl. rewrite slot_move_same, HT' by done. unfold plus.
      change (transit_rights (set_ip_nsrequest _ _)) with (transit_rights p).
      change (home_rights o (set_ip_nsrequest _ _)) with (home_rights o p). lia. }
  unfold ipc_port_nsrequest. apply wp_bind. eapply wf_ip_get; [done|done|]. wp_step. wp_step; [done|]. cbv zeta.
  apply wp_bind. destruct (_ && _ && _) eqn:Hc.
  - apply andb_prop in Hc as [_ Hn]. apply wp_bind.
    eapply (Hset _ (T ⊕ sonce_rights notify ⊕ sonce_rights (ip_nsrequest p))); [intros r; unfold plus; simpl; lia|].
    intros s1 HF1. eapply wf_log; [done|]. intros s2 HF2. wp_step. apply HQ.
    eapply fc_ext; [done|]. intros r. unfold plus, minus. cbn [event_rights]. unfold sonce_rights at 2. rewrite Hn.
    cbn [when]. lia.
  - eapply (Hset _ (T ⊕ sonce_rights (ip_nsrequest p))); [intros r; unfold plus; lia|].
    intros s1 HF1. wp_step. by apply HQ.
Qed.

Lemma wf_pdrequest s P L ev T o p notify Q :
  foc s P L ev (T ⊕ sonce_rights notify) -> P !! o = Some p -> ip_active p = true ->
  (forall s', foc s' (<[o := set_ip_pdrequest notify p]> P) L ev (T ⊕ sonce_rights (ip_pdrequest p)) -> Q (ip_pdrequest p) s') ->
  wp (ipc_port_pdrequest o notify) s Q.
Proof.
  intros HF Ho Ha HQ. pose proof (fc_port_ok _ _ _ _ _ _ _ _ _ HF o p Ho) as Hok.
  unfold ipc_port_pdrequest. apply wp_bind. eapply wf_ip_get; [done|done|]. wp_step. wp_step; [done|].
  apply wp_bind. eapply (wf_ip_mod _ _ _ _ _ _ _ _ _ o p _ (T ⊕ sonce_rights (ip_pdrequest p))); [done|done| |done| |].
  - eapply port_ok_change; [done|done|apply Hok|apply Hok|apply Hok|apply Hok|done|by left|done|apply Hok|done].
  - intros r. rewrite move_active by done. simpl. rewrite slot_move_same by done. unfold plus.
    change (transit_rights (set_ip_pdrequest _ _)) with (transit_rights p).
    change (home_rights o (set_ip_pdrequest _ _)) with (home_rights o p). lia.
  - intros s1 HF1. wp_step. by apply HQ.
Qed.
End naked.

(** ** The operations, in a balanced state *)

(** Everything but the ports and the log is as before. *)
Definition only_ports (s s' : kstate) : Prop :=
  ks_spaces s' = ks_spaces s /\ ks_psets s' = ks_psets s /\ ks_kmsgs s' = ks_kmsgs s /\
  same_thread s s'.

Section balanced.
Context {env : ipc_env}.

Lemma wp_io_is_port s o p Q : ks_ports s !! o = Some p -> Q true s -> wp (io_is_port o) s Q.
Proof. intros Ho HQ. unfold io_is_port. apply wp_bind, wp_get. rewrite Ho. by wp_step. Qed.

Lemma wp_references s o p Q : ks_ports s !! o = Some p -> Q (ip_references p) s -> wp (io_references o) s Q.
Proof.
  intros Ho HQ. unfold io_references. apply wp_bind, (wp_io_is_port s o p); [done|].
  apply wp_bind, (wp_ip_get o p); [done|]. by wp_step.
Qed.

Lemma wp_set_references s o p n Q :
  ks_ports s !! o = Some p -> Q tt (put_port s o (set_ip_references n p)) -> wp (io_set_references o n) s Q.
Proof.
  intros Ho HQ. unfold io_set_references. apply wp_bind, (wp_io_is_port s o p); [done|]. by apply (wp_ip_mod o _ p).
Qed.

Lemma wp_reference s o p Q :
  ks_ports s !! o = Some p -> 0 < ip_references p < IO_MAX_REFERENCES ->
  Q tt (put_port s o (set_ip_references (ip_references p + 1) p)) -> wp (io_reference o) s Q.
Proof.
  intros Ho Hr HQ. unfold io_reference. apply wp_bind, (wp_references s o p); [done|].
  wp_step. wp_step; [apply andb_true_iff; rewrite !Z.ltb_lt; lia|]. by apply (wp_set_references s o p).
Qed.

Lemma wp_unref s o p Q :
  ks_ports s !! o = Some p -> 1 < ip_references p < IO_MAX_REFERENCES ->
  Q tt (put_port s o (set_ip_references (ip_references p - 1) p)) -> wp (io_release o) s Q.
Proof.
  intros Ho Hr HQ. unfold io_release. apply wp_bind, (wp_references s o p); [done|].
  wp_step. wp_step; [apply andb_true_iff; rewrite !Z.ltb_lt; lia|].
  apply wp_bind, (wp_set_references s o p); [done|]. rewrite (proj2 (Z.eqb_neq (ip_references p) 1)) by lia. by wp_step.
Qed.

(** Work on ports only: a focus on no space at all *)
Definition nowhere (s : kstate) : Z := fresh (dom (ks_spaces s) : gset Z).

Lemma nowhere_none s : ks_spaces s !! nowhere s = None.
Proof. apply (not_elem_of_dom (D := gset Z)), (is_fresh (dom (ks_spaces s) : gset Z)). Qed.

Lemma rest_end s s' P L T :
  focus s (nowhere s) 0 0 s' P L Rest T -> kwf s' T /\ ks_ports s' = P /\ ks_log s' = L /\ only_ports s s'.
Proof.
  intros HF. split; [by eapply fc_rested|]. split; [by eapply fc_ports|]. split; [by eapply fc_log|].
  destruct (fc_frame _ _ _ _ _ _ _ _ _ HF) as (H1 & H2 & H3 & H4 & H5). split_and!; [|done..].
  apply map_eq. intros b. destruct (decide (b = nowhere s)) as [->|Hb]; [|by apply H4].
  rewrite nowhere_none in *. by inversion H5.
Qed.
End balanced.

(** A send right that is in hand is given up: the port loses the right and the reference
    (and is freed with the last one); if the port lives, the right was the last send right
    and a no-senders request is registered, the notification is sent and the request used
    up; nothing else happens, and the state stays balanced. *)
Theorem ipc_port_release_send_correct {env : ipc_env} s T o :
  kwf s (T ⊕ [RSend o; RRef o]) -> hand_ok T -> IP_VALID o = true ->
  wp (ipc_port_release_send o) s (fun _ s' => kwf s' T /\ only_ports s s' /\
    exists p, ks_ports s !! o = Some p /\ 0 < ip_srights p /\
      ks_ports s' = unref (ks_ports s) o (dropped p).1 /\
      ks_log s' = ks_log s ++ no_senders_events (dropped p).2).
Proof.
  intros HK HT Hv. eapply wf_release_send; [by apply (fc_rest s (nowhere s) 0 0)|done|done|].
  intros s' p Ho Hs HF. apply rest_end in HF as (HK' & HP & HL & Hon). split_and!; [done..|]. by exists p.
Qed.

(** Copying a send right of a live port and giving the copy up again changes nothing at
    all: the counters, the references, the log and the no-senders request are as before. *)
Theorem copy_send_release_send {env : ipc_env} s o p :
  IP_VALID o = true -> ks_ports s !! o = Some p -> ip_active p = true ->
  0 < ip_srights p < IO_MAX_REFERENCES -> 0 < ip_references p < IO_MAX_REFERENCES - 1 ->
  (port ← ipc_port_copy_send o; ipc_port_release_send port) s = Ok (tt, s).
Proof.
  intros Hv Ho Ha Hs Hr. cut (wp (port ← ipc_port_copy_send o; ipc_port_release_send port) s (fun _ s' => s' = s)).
  { intros ([] & s' & Hrun & ->)%wp_inv. exact Hrun. }
  apply wp_bind. unfold ipc_port_copy_send. rewrite Hv. cbn [negb].
  apply wp_bind, (wp_ip_get o p); [done|]. rewrite Ha. wp_step. wp_step; [apply Z.ltb_lt; lia|].
  apply wp_bind, (wp_reference s o p); [done|lia|].
  apply wp_bind. eapply wp_ip_mod; [apply ks_ports_put|]. rewrite put_port_put. wp_step.
  simpl. rewrite u32_refs by lia.
  eapply wp_release_send; [done|apply ks_ports_put|done|simpl; lia|].
  apply wp_bind. eapply wp_Ok; [apply drop_sright_run, ks_ports_put|]. unfold drop_send. simpl.
  rewrite (proj2 (Z.eqb_neq (ip_srights p + 1 - 1) 0)) by lia. cbn [andb fst snd].
  apply wp_bind. eapply wp_unref; [apply ks_ports_put|simpl; lia|]. apply (wp_ret tt).
  rewrite !put_port_put. simpl. rewrite !Z.add_simpl_r. apply put_port_id. rewrite Ho. by destruct p.
Qed.

(** Giving up [n] send rights one after the other *)
Fixpoint release_sends (n : nat) (o : Z) : K unit :=
  match n with
  | O => mret tt
  | S n => _ ← ipc_port_release_send o; release_sends n o
  end.

(** [n] send rights in hand *)
Fixpoint sends (n : nat) (o : Z) : list right :=
  match n with O => [] | S n => RSend o :: RRef o :: sends n o end.

Lemma cnt_sends r n o : cnt r (sends n o) = Z.of_nat n * (ind r (RSend o) + ind r (RRef o)).
Proof. induction n as [|n IH]; [done|]. cbn [sends cnt]. rewrite IH. lia. Qed.

Section no_senders.
Context {env : ipc_env} (s0 : kstate) (a i name : Z) (ev : view) (T : right -> Z) (HT : hand_ok T) (o : Z)
  (Hl : 0 < T (RLive o)) (Hv : IP_VALID o = true).
Local Abbreviation foc := (focus s0 a i name).

Lemma wf_release_one n s P L p Q :
  foc s P L ev (T ⊕ sends (S n) o) -> P !! o = Some p ->
  (forall s', foc s' (<[o := set_ip_references (ip_references p - 1) (drop_send p).1]> P)
      (L ++ no_senders_events (drop_send p).2) ev (T ⊕ sends n o) -> Q tt s') ->
  wp (ipc_port_release_send o) s Q.
Proof.
  intros HF Ho HQ. pose proof (proj1 HT (RRef o)). destruct (proj2 HT o) as (Hlr & _).
  assert (Ha : ip_active p = true).
  { eapply (fc_live _ _ _ _ _ _ _ _ _ HF o p Ho). unfold plus. rewrite cnt_sends. hand_at. lia. }
  assert (Hr : 2 <= ip_references p).
  { destruct (fc_refs _ _ _ _ _ _ _ _ _ HF o p Ho) as (Hr & _). revert Hr. unfold plus. rewrite cnt_sends. hand_at. lia. }
  assert (Hq : ip_references (drop_send p).1 = ip_references p) by (unfold drop_send; by destruct (_ && _)).
  eapply (wf_release_send _ _ _ _ _ _ _ _ (T ⊕ sends n o)); [|apply hand_ok_plus; [done|]|done|].
  - eapply fc_ext; [exact HF|]. intros r. unfold plus. cbn [sends cnt]. lia.
  - intros x. rewrite !cnt_sends. cnt_simpl. destruct (decide _); lia.
  - intros s' p1 Hp1 _ HF1. replace p1 with p in * by congruence. unfold dropped, unref in HF1.
    rewrite Ha, Hq, (proj2 (Z.eqb_neq (ip_references p) 1)) in HF1 by lia. by apply HQ.
Qed.

(** After [k] of [n] send rights are gone *)
Definition released (n k : nat) (p p' : ipc_port) : Prop :=
  ip_srights p' = Z.of_nat (n - k) /\ ip_nsrequest p' = (if decide (k = n) then IP_NULL else ip_nsrequest p).
Definition released_events (n k : nat) (p : ipc_port) : list event :=
  if decide (k = n) then [NotifyNoSenders (ip_nsrequest p) (ip_mscount p)] else [].

Lemma wf_release_sends k : forall n s P L p Q,
  foc s P L ev (T ⊕ sends n o) -> P !! o = Some p -> ip_srights p = Z.of_nat n -> ip_nsrequest p <> IP_NULL ->
  (0 < n)%nat -> (k <= n)%nat ->
  (forall s' P' p', foc s' P' (L ++ released_events n k p) ev (T ⊕ sends (n - k) o) -> P' !! o = Some p' -> released n k p p' -> Q tt s') ->
  wp (release_sends k o) s Q.
Proof.
  induction k as [|k IH]; intros n s P L p Q HF Ho Hs Hns Hn Hk HQ; cbn [release_sends].
  { wp_step. unfold released, released_events in HQ. rewrite decide_False in HQ by lia. eapply HQ; [|exact Ho|].
    - rewrite app_nil_r, Nat.sub_0_r. exact HF.
    - rewrite decide_False by lia. split; [lia|done]. }
  destruct n as [|n]; [lia|]. apply wp_bind. eapply wf_release_one; [exact HF|done|]. unfold drop_send. rewrite Hs. intros s1 HF1.
  destruct n as [|n].
  - assert (k = 0%nat) as -> by lia. rewrite (proj2 (Z.eqb_neq _ _) Hns) in HF1. change (Z.of_nat 1 - 1 =? 0) with true in HF1.
    cbn [andb negb fst snd] in HF1. unfold no_senders_events in HF1. cbn [fst snd] in HF1. rewrite (proj2 (Z.eqb_neq _ _) Hns) in HF1.
    cbn [release_sends]. wp_step. unfold released, released_events in HQ. rewrite decide_True in HQ by done. eapply HQ; [exact HF1|apply lookup_insert_eq|].
    rewrite decide_True by done. split; done.
  - rewrite (proj2 (Z.eqb_neq (Z.of_nat (S (S n)) - 1) 0)) in HF1 by lia. cbn [andb fst snd] in HF1.
    unfold no_senders_events in HF1. cbn [fst] in HF1. rewrite app_nil_r in HF1.
    eapply (IH (S n)); [exact HF1|apply lookup_insert_eq|simpl; lia|done|lia|lia|].
    intros s' P' p' HF' Ho' [Hs' Hn']. unfold released_events, released in *. simpl in HF', Hn'.
    destruct (decide (k = S n)) as [->|Hne]; [rewrite decide_True in HQ by done|rewrite decide_False in HQ by lia]; (eapply HQ; [exact HF'|exact Ho'|]).
    + rewrite decide_True by done. split; [lia|done].
    + rewrite decide_False by lia. split; [lia|done].
Qed.
End no_senders.

(** C30 No-senders notifications are sent exactly once, by the last release: when a live port
    with a registered request has [n] send rights and [k] of them are given up one after the
    other, then, for [k < n], nothing is sent, the request stays registered and [n - k] send
    rights are left; for [k = n] the notification has been sent once, with the make-send count,
    and the request is used up.  The state stays balanced. *)
Theorem no_senders_once {env : ipc_env} n k s T o p :
  kwf s (T ⊕ sends n o) -> hand_ok T -> 0 < T (RLive o) -> IP_VALID o = true ->
  ks_ports s !! o = Some p -> ip_srights p = Z.of_nat n -> ip_nsrequest p <> IP_NULL -> (0 < n)%nat -> (k <= n)%nat ->
  wp (release_sends k o) s (fun _ s' =>
    kwf s' (T ⊕ sends (n - k) o) /\
    ks_log s' = ks_log s ++ (if decide (k = n) then [NotifyNoSenders (ip_nsrequest p) (ip_mscount p)] else []) /\
    exists p', ks_ports s' !! o = Some p' /\ ip_srights p' = Z.of_nat (n - k) /\
      ip_nsrequest p' = if decide (k = n) then IP_NULL else ip_nsrequest p).
Proof.
  intros HK HT Hl Hv Ho Hs Hns Hn Hk. eapply (wf_release_sends _ _ _ _ _ T HT o Hl Hv k n); [|exact Ho|done|done|done|done|].
  - by apply (fc_rest s (nowhere s) 0 0).
  - intros s' P' p' HF Ho' [? ?]. apply rest_end in HF as (HK' & HP & HL & _). split_and!; [done|done|]. exists p'. by rewrite HP.
Qed.

(** ** Witnesses, on the sample kernel *)
Module PortExample.
Import Sample.

Lemma ipc_port_release_send_witness :
  exists s', ipc_port_release_send 0x800 busy = Ok (tt, s') /\ ks_log s' = [].
Proof.
  assert (HK : kwf busy (hand [RLive 0x800; RRef 0x800; RHome 0x800 0 0; RSend 0x800; RRef 0x800] ⊕ [RSend 0x800; RRef 0x800])).
  { eapply kwf_proper; [reflexivity| |apply busy_kwf]. intros r. unfold plus, hand, in_hand. cbn [cnt]. lia. }
  destruct (wp_inv _ _ _ (ipc_port_release_send_correct busy (hand [RLive 0x800; RRef 0x800; RHome 0x800 0 0; RSend 0x800; RRef 0x800])
    0x800 HK ltac:(split; [intros r; apply cnt_nonneg|]; intros o; unfold hand; cnt_simpl; destruct (decide _); lia)
    eq_refl)) as ([] & s' & Hrun & _ & _ & p & Hp & _ & _ & HL).
  exists s'. split; [exact Hrun|]. rewrite HL. by assert (p = kernel_port) as -> by (vm_compute in Hp; by injection Hp).
Defined.

Lemma copy_send_release_send_witness :
  (port ← ipc_port_copy_send 0x200; ipc_port_release_send port) sample = Ok (tt, sample).
Proof. apply (copy_send_release_send sample 0x200 (sample_port true 3 0x2000 0x104 (Some requests) 1 1)); done. Defined.

Lemma no_senders_once_witness :
  (exists s', release_sends 1 0x800 busy = Ok (tt, s') /\ ks_log s' = []) /\
  (exists s', release_sends 2 0x800 busy = Ok (tt, s') /\ ks_log s' = [NotifyNoSenders 0x100 0]).
Proof.
  assert (HK : kwf busy (hand [RLive 0x800; RRef 0x800; RHome 0x800 0 0] ⊕ sends 2 0x800)).
  { eapply kwf_proper; [reflexivity| |apply busy_kwf]. intros r. unfold plus, hand, in_hand. cbn [cnt sends]. lia. }
  assert (HT : hand_ok (hand [RLive 0x800; RRef 0x800; RHome 0x800 0 0])).
  { split; [intros r; apply cnt_nonneg|]; intros o; unfold hand; cnt_simpl; destruct (decide _); lia. }
  split.
  - destruct (wp_inv _ _ _ (no_senders_once 2 1 busy _ 0x800 kernel_port HK HT eq_refl eq_refl eq_refl eq_refl
      ltac:(done) ltac:(lia) ltac:(lia))) as ([] & s' & Hrun & _ & HL & _).
    exists s'. split; [exact Hrun|exact HL].
  - destruct (wp_inv _ _ _ (no_senders_once 2 2 busy _ 0x800 kernel_port HK HT eq_refl eq_refl eq_refl eq_refl
      ltac:(done) ltac:(lia) ltac:(lia))) as ([] & s' & Hrun & _ & HL & _).
    exists s'. split; [exact Hrun|exact HL].
Defined.
End PortExample.
