(* ===== verification/IpcPsetOk.v ===== *)
(** * Port sets, verified (ipc_pset.c)

    The destruction of a port set: the set is dead, no port is linked to it any more, the
    threads that waited on it are restarted, and the state is balanced again.  With it, what
    giving up the name of a port set does. *)

From S2P Require Import IpcTypes IpcBits IpcHash IpcEntry IpcGrow IpcState IpcLedger IpcPort IpcRequest IpcDestroy IpcRight IpcFocus IpcSample IpcRightOk IpcDeltaOk IpcPortOk.

(** A port that is no longer linked to the set *)
Definition unlinked (pset : Z) (p : ipc_port) : ipc_port :=
  set_ip_messages (set_imq_set_links (filter (fun x => x <> pset) (imq_set_links (ip_messages p))) (ip_messages p)) p.

Lemma unlinked_spec pset p l : l ∈ imq_set_links (ip_messages (unlinked pset p)) <-> l <> pset /\ l ∈ imq_set_links (ip_messages p).
Proof. simpl. by rewrite list_elem_of_filter. Qed.

(** What the end of set [o] changes *)
Record unset (o : Z) (ps : ipc_pset) (s s' : kstate) : Prop := {
  us_ports : ks_ports s' = unlinked o <$> ks_ports s;
  us_others : forall x, x <> o -> ks_psets s' !! x = ks_psets s !! x;
  us_dead : forall ps', ks_psets s' !! o = Some ps' -> ips_active ps' = false;
  us_spaces : ks_spaces s' = ks_spaces s;
  us_kmsgs : ks_kmsgs s' = ks_kmsgs s;
  us_thread : same_thread s s';
  us_log : ks_log s' = ks_log s ++ [ThreadsRestarted (ips_receivers ps)];
}.

Section psets.
Context {env : ipc_env}.

Lemma unlinked_ok o pset p : port_ok o p -> port_ok o (unlinked pset p).
Proof.
  intros [H1 H2 H3 H4 H5 H6 H7 H8 H9 H10 [H11 H12]]. split; try done. split; [|done]. intros Ha Hn.
  destruct (H11 Ha Hn) as ((I1 & I2 & I3) & I4). split; [|done]. split_and!; [done| |done].
  unfold ip_in_pset in *. simpl. by destruct (imq_set_links (ip_messages p)).
Qed.

Lemma mcnt_fmap {A} (f : A -> list right) (g : A -> A) r (m : gmap Z A) :
  (forall x, f (g x) = f x) -> mcnt (fun _ => f) r (g <$> m) = mcnt (fun _ => f) r m.
Proof.
  intros Hg. induction m as [|k v m Hk IH] using map_ind; [by rewrite fmap_empty|].
  rewrite fmap_insert, !mcnt_new, IH, Hg; [done|done|]. by rewrite lookup_fmap, Hk.
Qed.

(** The holder of a set *)
Lemma kwf_pset s T o :
  kwf s T -> (forall r, 0 <= T r) -> 0 < T (RSet o) -> 0 < T (RRef o) ->
  exists ps, ks_psets s !! o = Some ps /\ ips_active ps = true /\ ks_ports s !! o = None.
Proof.
  intros [HL HO _] HT Hs Hr. pose proof (HL (RSet o)) as H1. pose proof (HL (RRef o)) as H2.
  pose proof (held_nonneg s (RSet o)). pose proof (held_nonneg s (RRef o)). unfold accounts in *. cbn [target] in *.
  destruct (ks_ports s !! o) as [p|]; [unfold agree in H1; simpl in H1; lia|].
  destruct (ks_psets s !! o) as [ps|]; [|lia]. exists ps. split_and!; [done| |done]. simpl in H1. by destruct (ips_active ps); [|lia].
Qed.

(** The set without its holder: dead, with one reference less *)
Definition fallen (ps : ipc_pset) : ipc_pset :=
  set_ips_references (ips_references ps - 1) (set_ips_receivers [] (set_ips_bits (clr (ips_bits ps) IO_BITS_ACTIVE) ps)).

Lemma fallen_fields ps : ips_active (fallen ps) = false /\ io_bits_otype (ips_bits (fallen ps)) = io_bits_otype (ips_bits ps).
Proof.
  unfold ips_active, io_bits_active, io_bits_otype, fallen. simpl. split.
  - unfold has. rewrite land_clr. unfold clr. apply negb_false_iff, Z.eqb_eq. apply Z.bits_inj'. intros n Hn.
    rewrite Z.ldiff_spec, Z.land_spec, Z.bits_0. by destruct (Z.testbit (ips_bits ps) n), (Z.testbit IO_BITS_ACTIVE n).
  - rewrite land_clr. by rewrite clr_disjoint.
Qed.

Lemma kwf_unset s s' T o ps :
  kwf s (T ⊕ [RRef o; RSet o]) -> ks_psets s !! o = Some ps -> ips_active ps = true -> ks_ports s !! o = None ->
  ks_ports s' = unlinked o <$> ks_ports s ->
  ks_psets s' = (if ips_references ps =? 1 then delete o (ks_psets s) else <[o := fallen ps]> (ks_psets s)) ->
  ks_spaces s' = ks_spaces s -> ks_kmsgs s' = ks_kmsgs s -> same_thread s s' ->
  ks_log s' = ks_log s ++ [ThreadsRestarted (ips_receivers ps)] -> kwf s' T.
Proof.
  intros [HL HO HS] Hps Ha Hnp HP HPS HSp HKm [HI _] HLg. destruct (fallen_fields ps) as [Hfa Hft]. split.
  - intros r. specialize (HL r).
    assert (Hh : held s' r = held s r).
    { unfold held. rewrite HP, HSp, HKm, HLg, HI, bind_app, cnt_app, mcnt_fmap by done. simpl. lia. }
    rewrite Hh. unfold accounts, plus in *. rewrite HP, HPS, HKm. destruct (target r) as [x|] eqn:Ht.
    + rewrite lookup_fmap. destruct (decide (x = o)) as [->|Hx].
      * rewrite Hnp, Hps in HL. rewrite Hnp. simpl. destruct (Z.eqb_spec (ips_references ps) 1) as [H1|H1].
        -- rewrite lookup_delete_eq. destruct r; try done. simplify_eq/=. rewrite ind_eq, ind_ne in HL by done. lia.
        -- rewrite lookup_insert_eq. destruct r; simplify_eq/=; rewrite ?Hfa, ?Ha in *; rewrite ?ind_eq in HL;
             repeat (rewrite ind_ne in HL by done); lia.
      * assert (Hz : cnt r [RRef o; RSet o] = 0).
        { apply cnt_not_in. rewrite !elem_of_cons, elem_of_nil. intros [->|[->|[]]]; simplify_eq/=. }
        rewrite Hz, Z.add_0_r in HL. destruct (ks_ports s !! x) as [p|]; [done|]. simpl.
        destruct (ips_references ps =? 1); [by rewrite lookup_delete_ne|by rewrite lookup_insert_ne].
    + destruct r as [| | | | | | | | |x| |]; simplify_eq/=; rewrite ?ind_ne in HL by done; rewrite ?Z.add_0_r in HL; try done.
      destruct (ips_references ps =? 1); [rewrite lookup_delete|rewrite lookup_insert]; destruct (decide _) as [<-|]; try done.
      by rewrite Hps in HL.
  - destruct HO as [H1 H2 H3 H4]. split.
    + intros x p. rewrite HP, lookup_fmap. destruct (ks_ports s !! x) as [q|] eqn:Hq; intros [= <-]. by apply unlinked_ok, H1.
    + intros x q. rewrite HPS. destruct (Z.eqb_spec (ips_references ps) 1) as [E1|E1].
      * rewrite lookup_delete. destruct (decide _); [done|apply H2].
      * rewrite lookup_insert. destruct (decide _) as [<-|]; [|apply H2]. intros [= <-]. destruct (H2 o ps Hps) as [V1 V2 V3].
        split; [done|congruence|simpl; lia].
    + intros x. rewrite HP, lookup_fmap, fmap_is_Some, HPS. intros Hx. specialize (H3 x Hx).
      destruct (ips_references ps =? 1); [rewrite lookup_delete|rewrite lookup_insert]; destruct (decide _) as [<-|]; try done.
      rewrite Hnp in Hx. by destruct Hx.
    + by rewrite HKm.
  - by rewrite HSp.
Qed.

(** Releasing a set *)
Lemma wp_io_is_pset s o ps Q :
  ks_ports s !! o = None -> ks_psets s !! o = Some ps -> Q false s -> wp (io_is_port o) s Q.
Proof. intros Ho Hps HQ. unfold io_is_port. apply wp_bind, wp_get. rewrite Ho, Hps. by wp_step. Qed.

Lemma wp_ips_release s o ps Q :
  ks_ports s !! o = None -> ks_psets s !! o = Some ps -> 0 < ips_references ps < IO_MAX_REFERENCES ->
  io_bits_otype (ips_bits ps) = IOT_PORT_SET ->
  Q tt (set_ks_psets (if ips_references ps =? 1 then delete o (ks_psets s)
                      else <[o := set_ips_references (ips_references ps - 1) ps]> (ks_psets s)) s) ->
  wp (io_release o) s Q.
Proof.
  intros Ho Hps Hr Ht HQ. unfold io_release. apply wp_bind. unfold io_references.
  apply wp_bind. eapply wp_io_is_pset; [done|done|]. apply wp_bind, (wp_ips_get o ps); [done|]. wp_step.
  wp_step. wp_step; [apply andb_true_iff; split; apply Z.ltb_lt; lia|].
  apply wp_bind. unfold io_set_references. apply wp_bind. eapply wp_io_is_pset; [done|done|].
  apply (wp_ips_mod o _ ps); [done|]. destruct (ips_references ps =? 1); [|wp_step; exact HQ].
  apply wp_bind. unfold io_bits. apply wp_bind. eapply wp_io_is_pset; [done|apply ks_psets_put|].
  apply wp_bind. eapply wp_ips_get; [apply ks_psets_put|]. wp_step.
  change (ips_bits (set_ips_references _ ps)) with (ips_bits ps). unfold io_free. rewrite Ht.
  change (IOT_PORT_SET =? IOT_PORT) with false. cbn iota. apply wp_modify.
  unfold put_pset, set_ks_psets in *. simpl. by rewrite delete_insert_eq.
Qed.

Lemma wf_pset_destroy s T o Q :
  kwf s (T ⊕ [RRef o; RSet o]) -> (forall r, 0 <= T r) ->
  (forall ps s', ks_psets s !! o = Some ps -> kwf s' T -> unset o ps s s' -> Q tt s') -> wp (ipc_pset_destroy o) s Q.
Proof.
  intros HK HT HQ. destruct (kwf_pset s (T ⊕ [RRef o; RSet o]) o HK) as (ps & Hps & Ha & Hnp).
  { intros r. pose proof (HT r). pose proof (cnt_nonneg r [RRef o; RSet o]). unfold plus. lia. }
  1,2: unfold plus; cbn [cnt]; rewrite ?ind_eq; repeat (rewrite ind_ne by done); specialize (HT (RSet o)) as H1; specialize (HT (RRef o)) as H2; lia.
  destruct (oo_psets _ (kw_objects _ _ HK) _ _ Hps) as [Hv Hot Hrf]. destruct (fallen_fields ps) as [Hfa Hft].
  unfold ipc_pset_destroy. apply wp_bind, (wp_ips_get o ps); [done|]. wp_step. wp_step; [done|].
  apply wp_bind, wp_modify. set (ps1 := set_ips_bits _ ps).
  change (set_ks_psets _ s) with (put_pset s o ps1). apply wp_bind, wp_modify.
  apply wp_bind, (wp_ips_get o ps1); [apply lookup_insert_eq|]. apply wp_bind, wp_log.
  apply wp_bind, (wp_ips_mod o _ ps1); [apply lookup_insert_eq|].
  set (s1 := put_pset (put_log _ _) o _). set (ps2 := set_ips_receivers [] ps1) in *.
  assert (H1 : ks_psets s1 !! o = Some ps2) by apply lookup_insert_eq.
  assert (H2 : ks_ports s1 !! o = None) by (simpl; by rewrite lookup_fmap, Hnp).
  assert (E : ips_references ps2 = ips_references ps) by done.
  eapply wp_ips_release; [exact H2|exact H1|by rewrite E|by rewrite <- Hot|]. rewrite E.
  set (s2 := set_ks_psets _ s1).
  assert (HPS : ks_psets s2 = if ips_references ps =? 1 then delete o (ks_psets s) else <[o := fallen ps]> (ks_psets s)).
  { unfold s2. simpl. destruct (ips_references ps =? 1); [by rewrite !delete_insert_eq|by rewrite !insert_insert_eq]. }
  apply (HQ ps); [done|by eapply (kwf_unset s s2 T o ps)|]. split; try done.
  - intros x Hx. rewrite HPS. destruct (_ =? 1); [by rewrite lookup_delete_ne|by rewrite lookup_insert_ne].
  - intros ps'. rewrite HPS. destruct (_ =? 1); [by rewrite lookup_delete_eq|]. rewrite lookup_insert_eq. by intros [= <-].
Qed.
End psets.

(** ** The name of a port set *)

(** Entry [i] of space [a] stood for set [o], and is free; the set is dead. *)
Definition set_gone (a i name o : Z) (s s' : kstate) : Prop :=
  entry_is s' a i IO_NULL (MACH_PORT_GEN name) /\
  exists ps s1, ks_psets s !! o = Some ps /\ framed a i s s1 /\ ks_ports s1 = ks_ports s /\ ks_log s1 = ks_log s /\ unset o ps s1 s'.

Section names.
Context {env : ipc_env} (s0 : kstate) (a i name : Z) (Hname : MACH_PORT_INDEX name = i)
  (Hword : 0 <= name < 2 ^ 32) (T0 : right -> Z) (HT0 : hand_ok T0).
Local Abbreviation foc := (focus s0 a i name).
Local Abbreviation hold := (holding s0 a i name).

Lemma wf_set_gone s o b Q :
  foc s (ks_ports s0) (ks_log s0) (Open (o, b, IE_REQ_NONE) false) (T0 ⊕ [RRef o; RSet o]) ->
  (forall s', kwf s' T0 -> set_gone a i name o s0 s' -> Q KERN_SUCCESS s') ->
  wp (_ ← ie_mod a i (set_ie_object IO_NULL);
      _ ← entry_dealloc a name i;
      ps ← ips_get o;
      _ ← massert (ips_active ps);
      _ ← ipc_pset_destroy o;
      mret KERN_SUCCESS) s Q.
Proof using Hname HT0.
  intros HF HQ. pose proof (fc_gen _ _ _ _ _ _ _ _ _ _ _ _ HF) as Hg. pose proof (proj1 HT0) as HT1.
  apply wp_bind. eapply wf_ie_mod; [done|exact HF|entry_fields|done|done|]. intros s1 HF1.
  apply wp_bind. eapply wf_entry_dealloc; [done|exact HF1|]. intros s2 HF2.
  pose proof (fc_ports _ _ _ _ _ _ _ _ _ HF2) as HP. pose proof (fc_log _ _ _ _ _ _ _ _ _ HF2) as HL.
  pose proof (fc_frame _ _ _ _ _ _ _ _ _ HF2) as Hfr. destruct (fc_space _ _ _ _ _ _ _ _ _ HF2) as (sp & Hsp & _ & He).
  apply fc_closed in HF2. destruct (kwf_pset s2 (T0 ⊕ [RRef o; RSet o]) o HF2) as (ps & Hps & Ha & _).
  { intros r. pose proof (HT1 r). pose proof (cnt_nonneg r [RRef o; RSet o]). unfold plus. lia. }
  1,2: unfold plus; cbn [cnt]; rewrite ?ind_eq; repeat (rewrite ind_ne by done); pose proof (HT1 (RSet o)); pose proof (HT1 (RRef o)); lia.
  apply wp_bind, (wp_ips_get o ps); [done|]. wp_step. wp_step; [done|].
  apply wp_bind. eapply wf_pset_destroy; [done|done|]. intros ps' s3 Hps' HK3 Hu. wp_step. apply HQ; [done|]. split.
  - exists sp. by rewrite (us_spaces _ _ _ _ Hu).
  - exists ps', s2. split_and!; try done. by rewrite <- (proj1 Hfr).
Qed.

(** [ipc_right_destroy] on it *)
Lemma wf_destroy_set s o b req check_guard guard Q :
  hold s (ks_ports s0) (ks_log s0) o b req T0 -> IE_BITS_TYPE b = MACH_PORT_TYPE_PORT_SET ->
  (forall s', kwf s' T0 -> set_gone a i name o s0 s' -> Q KERN_SUCCESS s') ->
  wp (ipc_right_destroy a name i check_guard guard) s Q.
Proof using Hname HT0.
  intros Hh Ht HQ. pose proof Hh as [HF Hok]. assert (Hor : o <> IO_NULL /\ req = IE_REQ_NONE) by (by_kind Hok).
  destruct Hor as [Ho ->]. rewrite Ht in HF. unfold ipc_right_destroy.
  apply wp_bind. eapply wf_ie_get; [done|exact HF|]. intros ix. cbn [ie_bits ie_object ie_request].
  apply wp_bind. eapply wf_ie_mod; [done|exact HF|entry_fields|done| |].
  { rewrite <- (holding_gen _ _ _ _ _ _ _ _ _ _ _ Hh). by apply clr_gen_disjoint. }
  intros s1 HF1. apply wp_bind. eapply wf_is_get; [exact HF1|]. intros sp _ [Hw _]. wp_step. wp_step; [by apply Hw|].
  rewrite Ht. change (MACH_PORT_TYPE_PORT_SET =? MACH_PORT_TYPE_DEAD_NAME) with false. change (MACH_PORT_TYPE_PORT_SET =? MACH_PORT_TYPE_PORT_SET) with true. cbn iota.
  wp_step. wp_step; [done|]. wp_step. wp_step; [by destruct (Z.eqb_spec o IO_NULL)|].
  eapply wf_set_gone; [|exact HQ]. eapply fc_ext; [exact HF1|]. intros r. unfold plus. rights_of_type. cbn [cnt]. lia.
Qed.

(** [mach_port_mod_refs] on it *)
Definition delta_set (o b delta : Z) (kr : kern_return_t) (s' : kstate) : Prop :=
  if negb (has b MACH_PORT_TYPE_PORT_SET) then kr = KERN_INVALID_RIGHT /\ s' = s0 else
  if delta =? 0 then kr = KERN_SUCCESS /\ s' = s0 else
  if negb (delta =? -1) then kr = KERN_INVALID_VALUE /\ s' = s0 else
  kr = KERN_SUCCESS /\ set_gone a i name o s0 s'.

Lemma wf_delta_port_set o b req delta Q :
  hold s0 (ks_ports s0) (ks_log s0) o b req T0 -> kwf s0 T0 ->
  (forall kr s', kwf s' T0 -> delta_set o b delta kr s' -> Q kr s') ->
  wp (delta_port_set a name i delta) s0 Q.
Proof using Hname Hword HT0.
  intros Hh HK HQ. pose proof Hh as [HF Hok]. unfold delta_port_set, delta_set in *.
  apply wp_bind. eapply wf_ie_get; [done|exact HF|]. intros ix. cbn [ie_bits ie_object ie_request].
  destruct (has b MACH_PORT_TYPE_PORT_SET) eqn:Hb; cbn [negb] in *; [|wp_step; by apply HQ].
  assert (Hor : o <> IO_NULL /\ req = IE_REQ_NONE /\ IE_BITS_UREFS b = 0 /\ IE_BITS_TYPE b = MACH_PORT_TYPE_PORT_SET) by (by_kind Hok).
  destruct Hor as (Ho & -> & Hu & Ht). rewrite Ht in HF |- *. rewrite Hu.
  wp_step. wp_step; [done|]. wp_step. wp_step; [done|]. wp_step. wp_step; [done|].
  destruct (delta =? 0); [wp_step; by apply HQ|]. destruct (negb (delta =? -1)); [wp_step; by apply HQ|].
  wp_step. wp_step; [by destruct (Z.eqb_spec o IO_NULL)|].
  eapply wf_set_gone; [|intros s' HK' Hg; by apply HQ]. eapply fc_ext; [exact HF|]. intros r. unfold plus. rights_of_type. cbn [cnt]. lia.
Qed.
End names.

(** C19 Giving up a port set: in every balanced state, [ipc_right_destroy] on the name of a
    port set runs to its end; the name is free, the set is dead, no port is linked to it any
    more, the threads that waited on it are restarted, and nothing else changes. *)
Theorem port_set_destroy_correct {env : ipc_env} s a name T o b req check_guard guard :
  kwf s T -> hand_ok T -> named s a name (o, b, req) -> IE_BITS_TYPE b = MACH_PORT_TYPE_PORT_SET ->
  wp (ipc_right_destroy a name (MACH_PORT_INDEX name) check_guard guard) s (fun kr s' =>
    kr = KERN_SUCCESS /\ kwf s' T /\ set_gone a (MACH_PORT_INDEX name) name o s s' /\
    forall x p, ks_ports s' !! x = Some p -> o ∉ imq_set_links (ip_messages p)).
Proof.
  intros HK HT Hn Ht. eapply wf_destroy_set; [done|done|by apply holding_start|done|].
  intros s' HK' Hg. split_and!; [done|done|done|]. destruct Hg as (_ & ps & s1 & _ & _ & _ & _ & Hu). intros x p.
  rewrite (us_ports _ _ _ _ Hu), lookup_fmap. intros (q & _ & ->)%fmap_Some. by intros [? _]%unlinked_spec.
Qed.

Module PsetExample.
Import Sample.

(** Port 0x300 is a member of port set 0x500. *)
Definition member : ipc_port := set_ip_messages (set_imq_set_links [0x500] (queue 0x504)) (sample_port true 1 0x1000 0x504 None 0 0).
Definition linked : kstate := put_port sample 0x300 member.

Lemma linked_kwf : kwf linked (hand []).
Proof.
  pose proof sample_kwf as [_ HO HS]. split; [apply ledger_check_sound; by vm_compute| |done].
  apply (objects_ok_port sample 0x300 (sample_port true 1 0x1000 0x504 None 0 0)); [done|by vm_compute|].
  destruct (sample_port_ok 0x300 true 1 0x1000 0x504 None 0 0); done.
Qed.

Lemma port_set_destroy_witness :
  exists s', ipc_right_destroy 0x1000 0x704 7 true 0 linked = Ok (KERN_SUCCESS, s') /\
    set_gone 0x1000 7 0x704 0x500 linked s'.
Proof.
  destruct (wp_inv _ _ _ (port_set_destroy_correct linked 0x1000 0x704 (hand []) 0x500 0x04080000 0 true 0
    linked_kwf empty_hand ltac:(split; [done|]; exists space1; by vm_compute) eq_refl)) as (kr & s' & Hrun & -> & _ & Hg & _).
  exists s'. split; [exact Hrun|exact Hg].
Defined.
End PsetExample.
