(* ===== verification/IpcCopyOk.v ===== *)
(** * Copying rights in (ipc_right.c)

    [ipc_right_copyin] takes a right out of an entry of a space, for a message: what it takes,
    what it leaves, and that it keeps the kernel balanced; and [ipc_object_copyin], which does
    so by name. *)

From S2P Require Import IpcTypes IpcBits IpcHash IpcEntry IpcGrow IpcState IpcLedger IpcPort IpcRequest IpcDestroy IpcRight IpcObject IpcFocus IpcSample IpcRightOk IpcDeltaOk IpcPortOk.

(** ** Changes of a port that move no rights *)
Definition quiet {env : ipc_env} (p p' : ipc_port) : Prop :=
  port_rights p' = port_rights p /\ ip_bits p' = ip_bits p /\ ip_requests p' = ip_requests p /\
  ip_receiver p' = ip_receiver p /\ ip_receiver_name p' = ip_receiver_name p /\
  imq_messages (ip_messages p') = imq_messages (ip_messages p) /\
  (imq_receivers (ip_messages p') = imq_receivers (ip_messages p) \/ imq_receivers (ip_messages p') = []) /\
  imq_senders (ip_messages p') = imq_senders (ip_messages p) /\
  ip_references p' = ip_references p /\ ip_srights p' = ip_srights p /\ ip_sorights p' = ip_sorights p /\
  ip_impcount p' = ip_impcount p /\ (transit_ok p -> transit_ok p').

Ltac quiet_port :=
  split_and!; try done; try (by left); try (by right);
  let H1 := fresh in let H2 := fresh in let Ha := fresh in let Hn := fresh in
  intros [H1 H2]; split; [|try done]; intros Ha Hn; destruct (H1 Ha Hn) as ((? & ? & ?) & ? & ?); by split_and!.

Section quiet.
Context {env : ipc_env} (s0 : kstate) (a i name : Z).
Local Abbreviation foc := (focus s0 a i name).

Lemma fc_quiet s P L ev T o p p' :
  foc s P L ev T -> P !! o = Some p -> quiet p p' -> foc (put_port s o p') (<[o := p']> P) L ev T.
Proof.
  intros HF Ho (Hr & Hb & Hq & Hv & Hn & Hm & Hrc & Hsd & H1 & H2 & H3 & H4 & H5).
  pose proof (fc_port_ok _ _ _ _ _ _ _ _ _ HF o p Ho) as Hok.
  assert (Ha : ip_active p' = ip_active p) by (unfold ip_active; by rewrite Hb).
  eapply fc_ext; [eapply (fc_put_port _ _ _ _ _ _ _ _ _ o p)|]; [done|done| |by rewrite Ha|].
  - eapply port_ok_change; [done|done|rewrite H1; apply Hok|rewrite H2; apply Hok|rewrite H3; apply Hok|
      rewrite Hq; apply Hok|done|done|done|rewrite H4; apply Hok|done].
  - intros r. cbv beta. rewrite move_counts, H1, H2, H3 by done. lia.
Qed.

Lemma wf_ip_quiet s P L ev T o p f Q :
  foc s P L ev T -> P !! o = Some p -> quiet p (f p) ->
  (forall s', foc s' (<[o := f p]> P) L ev T -> Q tt s') -> wp (ip_mod o f) s Q.
Proof.
  intros HF Ho Hq HQ. apply (wp_ip_mod o f p); [by rewrite (fc_ports _ _ _ _ _ _ _ _ _ HF)|].
  apply HQ. by eapply fc_quiet.
Qed.

Lemma wf_ip_put s P L ev T o p p' Q :
  foc s P L ev T -> P !! o = Some p -> quiet p p' ->
  (forall s', foc s' (<[o := p']> P) L ev T -> Q tt s') -> wp (ip_put o p') s Q.
Proof. intros HF Ho Hq HQ. unfold ip_put. apply wp_modify, HQ. by eapply fc_quiet. Qed.

(** A port without a receiver *)
Definition cleared (p : ipc_port) : ipc_port :=
  let p := if ip_in_pset p then set_ip_messages (set_imq_set_links [] (ip_messages p)) p else p in
  let p := set_ip_messages (set_imq_receivers [] (ip_messages p)) p in
  let p := set_ip_mscount 0 p in
  let p := set_ip_messages (set_imq_seqno 0 (ip_messages p)) p in
  set_ip_context 0 (set_ip_guarded false (set_ip_strict_guard false p)).

Lemma cleared_idle p : idle_port (cleared p).
Proof. unfold idle_port, cleared. destruct (ip_in_pset p) eqn:Hin; split_and!; done. Qed.

Lemma wf_clear_receiver s P L ev T o p Q :
  foc s P L ev T -> P !! o = Some p -> ip_active p = true ->
  (forall s', foc s' (<[o := cleared p]> P) (L ++ [ThreadsRestarted (imq_receivers (ip_messages p))]) ev T -> Q tt s') ->
  wp (ipc_port_clear_receiver o) s Q.
Proof.
  intros HF Ho Ha HQ. unfold ipc_port_clear_receiver. apply wp_bind. eapply wf_ip_get; [done|done|].
  wp_step. wp_step; [done|].
  set (q := if ip_in_pset p then set_ip_messages (set_imq_set_links [] (ip_messages p)) p else p).
  assert (Hpset : forall R : kstate -> Prop, (forall s', foc s' (<[o := q]> P) L ev T -> R s') ->
    wp (mwhen (ip_in_pset p) (_ ← ipc_pset_remove_from_all o; p ← ip_get o; massert (negb (ip_in_pset p)))) s (fun _ => R)).
  { intros R HR. unfold q in HR. destruct (ip_in_pset p) eqn:Hin; cbn [mwhen].
    - apply wp_bind. unfold ipc_pset_remove_from_all. apply wp_bind. eapply wf_ip_get; [done|done|].
      wp_step. wp_step; [done|]. rewrite Hin. cbn [negb]. apply wp_bind.
      eapply wf_ip_quiet; [done|done|quiet_port|]. intros s1 HF1. wp_step.
      apply wp_bind. eapply wf_ip_get; [done|apply lookup_insert_eq|]. wp_step; [done|]. by apply HR.
    - wp_step. apply HR. by rewrite insert_id. }
  assert (Hqa : ip_active q = true) by (unfold q; by destruct (ip_in_pset p)).
  assert (Hqr : imq_receivers (ip_messages q) = imq_receivers (ip_messages p)) by (unfold q; by destruct (ip_in_pset p)).
  apply wp_bind, Hpset. intros s1 HF1. unfold ipc_mqueue_changed.
  apply wp_bind, wp_bind. eapply wf_ip_get; [done|apply lookup_insert_eq|].
  apply wp_bind. eapply wf_ip_put; [done|apply lookup_insert_eq|quiet_port|].
  rewrite insert_insert_eq. intros s2 HF2. eapply wf_log; [done|]. rewrite Hqr. intros s3 HF3.
  unfold ipc_port_set_mscount. apply wp_bind, wp_bind. eapply wf_ip_get; [done|apply lookup_insert_eq|].
  wp_step. wp_step; [done|]. eapply wf_ip_quiet; [done|apply lookup_insert_eq|quiet_port|].
  rewrite insert_insert_eq. intros s4 HF4.
  apply wp_bind. eapply wf_ip_quiet; [done|apply lookup_insert_eq|quiet_port|].
  rewrite insert_insert_eq. intros s5 HF5.
  eapply wf_ip_quiet; [done|apply lookup_insert_eq|quiet_port|].
  rewrite insert_insert_eq. intros s6 HF6. apply HQ. eapply fc_ext; [exact HF6|]. intros r. unfold minus. simpl. lia.
Qed.
End quiet.

Section copyin.
Context {env : ipc_env} (s0 : kstate) (a i name : Z) (Hname : MACH_PORT_INDEX name = i)
  (Hword : 0 <= name < 2 ^ 32) (T0 : right -> Z) (HT0 : hand_ok T0).
Local Abbreviation foc := (focus s0 a i name).
Local Abbreviation hold := (holding s0 a i name).

(** The entry that is left: as every entry is, or without any right and still to be freed *)
Definition leaves (s : kstate) (P : gmap Z ipc_port) (L : list event) (o b req : Z) (T : right -> Z) : Prop :=
  foc s P L (Open (o, b, req) (IE_BITS_TYPE b =? MACH_PORT_TYPE_SEND)) (T ⊕ type_rights a name o (IE_BITS_TYPE b) req) /\
  (entry_ok (o, b, req) \/ IE_BITS_TYPE b = MACH_PORT_TYPE_NONE /\ IE_BITS_UREFS b = 0 /\ o = IO_NULL /\ req = IE_REQ_NONE).

Lemma hold_leaves s P L o b req T : hold s P L o b req T -> leaves s P L o b req T.
Proof. intros [HF Hok]. split; [done|by left]. Qed.

(** What the caller has in hand afterwards *)
Definition taken (msgt_name : Z) (c : copied) : list right :=
  when (bool_decide (ci_kr c = KERN_SUCCESS))
    (disposition_rights (ipc_object_copyin_type msgt_name) (ci_object c) ++ sonce_rights (ci_soright c))
  ++ when (negb (ci_release c =? IP_NULL)) [RRef (ci_release c)].

(** No port but [o] changed. *)
Definition elsewhere (o : Z) (P P' : gmap Z ipc_port) : Prop := forall x, x <> o -> P' !! x = P !! x.

Lemma elsewhere_refl o P : elsewhere o P P.
Proof. done. Qed.

Lemma elsewhere_insert o p P : elsewhere o P (<[o := p]> P).
Proof. intros x Hx. by rewrite lookup_insert_ne. Qed.

Lemma elsewhere_unref o p P P' : elsewhere o P P' -> elsewhere o P (unref P' o p).
Proof.
  intros HP x Hx. unfold unref. destruct (_ =? 1); [rewrite lookup_delete_ne by done|rewrite lookup_insert_ne by done]; by apply HP.
Qed.
Local Hint Resolve elsewhere_refl elsewhere_insert : core.

(** The ports afterwards: if the caller is to release a port, it is the one of the entry. *)
Definition releasable (o : Z) (P P' : gmap Z ipc_port) (c : copied) : Prop :=
  elsewhere o P P' /\ (ci_release c <> IP_NULL -> ci_release c = o /\ exists p, P' !! o = Some p).

Lemma releasable_null o P P' c : elsewhere o P P' -> ci_release c = IP_NULL -> releasable o P P' c.
Proof. intros HP Hc. split; [done|]. by intros []. Qed.

(** *** Dead names *)

(** The result for a dead name with bits [b1]; [release] is the port found dead. *)
Definition dead_copied (move deadok : bool) (b1 release : Z) (c : copied) (b' : Z) : Prop :=
  if deadok then
    c = mk_copied KERN_SUCCESS IO_DEAD IP_NULL release 0 /\
    (if move then entry_after IO_NULL b1 true (IE_BITS_UREFS b1 - 1) IO_NULL b' else b' = b1)
  else c = copy_failed release /\ b' = b1.

Lemma wf_copyin_dead move deadok s P L b1 release T Q :
  foc s P L (Open (IO_NULL, b1, IE_REQ_NONE) false) T ->
  IE_BITS_TYPE b1 = MACH_PORT_TYPE_DEAD_NAME -> 0 < IE_BITS_UREFS b1 <= MACH_PORT_UREFS_MAX ->
  (forall c s' b', dead_copied move deadok b1 release c b' -> leaves s' P L IO_NULL b' IE_REQ_NONE T -> Q c s') ->
  wp (copyin_dead move deadok a name i release) s Q.
Proof.
  intros HF Ht Hu HQ. pose proof (fc_gen _ _ _ _ _ _ _ _ _ _ _ _ HF) as Hg.
  assert (Hsame : leaves s P L IO_NULL b1 IE_REQ_NONE T).
  { split; [rewrite Ht; eapply fc_ext; [done|same_hand]|]. left. unfold entry_ok. rewrite Ht. by constructor. }
  unfold copyin_dead. apply wp_bind. eapply wf_ie_get; [done|done|]. intros ix. cbn [ie_bits ie_object ie_request].
  wp_step. wp_step; [by apply Z.eqb_eq|]. wp_step. wp_step; [apply Z.ltb_lt; lia|].
  wp_step. wp_step; [done|]. wp_step. wp_step; [done|]. unfold dead_copied in HQ.
  destruct deadok; cbn [negb]; [|wp_step; by apply (HQ _ _ b1)].
  destruct move; cbn [mwhen]; [|apply wp_bind; wp_step; wp_step; by apply (HQ _ _ b1)].
  cbv zeta. set (b2 := if IE_BITS_UREFS b1 =? 1 then clr b1 MACH_PORT_TYPE_DEAD_NAME else b1).
  assert (Hb2 : IE_BITS_UREFS b2 = IE_BITS_UREFS b1 /\ IE_BITS_GEN b2 = IE_BITS_GEN b1 /\
    IE_BITS_TYPE b2 = if IE_BITS_UREFS b1 =? 1 then MACH_PORT_TYPE_NONE else MACH_PORT_TYPE_DEAD_NAME).
  { unfold b2. destruct (_ =? 1); [|done].
    rewrite clr_gen_disjoint, clr_urefs_disjoint, IE_BITS_TYPE_clr, Ht by done. done. }
  destruct Hb2 as (Hu2 & Hg2 & Ht2).
  destruct (bits_urefs b2 (-1)) as (H1 & H2 & H3); [unfold MACH_PORT_UREFS_MAX in *; lia|].
  change (b2 + -1) with (b2 - 1) in *. rewrite Hu2 in H2. rewrite Hg2 in H3. rewrite Ht2 in H1.
  change (IE_BITS_UREFS b1 + -1) with (IE_BITS_UREFS b1 - 1) in H2.
  apply wp_bind. apply wp_bind. eapply wf_ie_mod; [done|done|entry_fields|done|by rewrite H3|]. intros s1 HF1.
  eapply wf_entry_modified; [done|done|]. intros s2 HF2. wp_step. apply (HQ _ _ (b2 - 1)).
  - split; [done|]. unfold entry_after. rewrite has_type, H1, H2, H3, Ht by done.
    destruct (Z.eqb_spec (IE_BITS_UREFS b1) 1) as [->|Hne]; [done|].
    rewrite (proj2 (Z.eqb_neq (IE_BITS_UREFS b1 - 1) 0)) by lia. done.
  - unfold leaves. rewrite H1. destruct (Z.eqb_spec (IE_BITS_UREFS b1) 1) as [H11|Hne]; (split; [eapply fc_ext; [done|same_hand]|]).
    + right. split_and!; [done|lia|done|done].
    + left. unfold entry_ok. rewrite H1, H2. constructor. lia.
Qed.

(** *** The common start of the dispositions that take a send or send-once right *)

(** The cases in which nothing is taken: dead names, dead ports and other rights *)
Definition existing_copied (move deadok : bool) (P : gmap Z ipc_port) (o b req : Z) (c : copied) (o' b' req' : Z) : Prop :=
  if has b MACH_PORT_TYPE_DEAD_NAME
  then dead_copied move deadok b IP_NULL c b' /\ o' = IO_NULL /\ req' = IE_REQ_NONE
  else if has b MACH_PORT_TYPE_SEND_RIGHTS then
    exists p b1, P !! o = Some p /\ ip_active p = false /\ became_dead p b req b1 /\
      dead_copied move deadok b1 o c b' /\ o' = IO_NULL /\ req' = IE_REQ_NONE
  else c = copy_failed IP_NULL /\ o' = o /\ b' = b /\ req' = req.

Lemma taken_dead msgt_name move deadok b1 release c b' :
  dead_copied move deadok b1 release c b' ->
  taken msgt_name c = when (negb (release =? IP_NULL)) [RRef release].
Proof.
  unfold dead_copied. destruct deadok; intros [-> _]; [|done]. unfold taken, disposition_rights. done.
Qed.

Lemma dead_releasable move deadok o P P' b1 release c b' :
  dead_copied move deadok b1 release c b' -> elsewhere o P P' ->
  (release <> IP_NULL -> release = o /\ exists p, P' !! o = Some p) -> releasable o P P' c.
Proof. unfold dead_copied, releasable. by destruct deadok; intros [-> _]. Qed.

Lemma taken_failed msgt_name : taken msgt_name (copy_failed IP_NULL) = [].
Proof. done. Qed.

Lemma wf_copyin_existing msgt_name move deadok s P L o b req Q :
  hold s P L o b req T0 ->
  (forall c s' P' o' b' req', existing_copied move deadok P o b req c o' b' req' ->
    releasable o P P' c -> leaves s' P' L o' b' req' (T0 ⊕ taken msgt_name c) -> Q (inl c) s') ->
  (forall p, has b MACH_PORT_TYPE_SEND_RIGHTS = true -> P !! o = Some p -> ip_active p = true -> Q (inr o) s) ->
  wp (copyin_existing move deadok a name i) s Q.
Proof.
  intros Hh Hend Hlive. pose proof (proj1 HT0) as HT1. pose proof Hh as [HF Hok]. unfold copyin_existing, existing_copied in *.
  apply wp_bind. eapply wf_ie_get; [done|done|]. intros ix. cbn [ie_bits ie_object].
  destruct (has b MACH_PORT_TYPE_DEAD_NAME) eqn:Hdn.
  { assert (Ht : IE_BITS_TYPE b = MACH_PORT_TYPE_DEAD_NAME /\ o = IO_NULL /\ req = IE_REQ_NONE /\
                 0 < IE_BITS_UREFS b <= MACH_PORT_UREFS_MAX) by (by_kind Hok).
    destruct Ht as (Ht & -> & -> & Hu). rewrite Ht in HF. apply wp_bind.
    eapply (wf_copyin_dead _ _ _ _ _ b); [exact HF|done|done|]. intros c s' b' Hc Hl. wp_step.
    apply (Hend c s' P IO_NULL b' IE_REQ_NONE); [done|by apply (dead_releasable _ _ _ _ _ _ _ _ _ Hc)|].
    destruct Hl as [HF' Hok']. split; [|done]. eapply fc_ext; [exact HF'|].
    rewrite (taken_dead _ _ _ _ _ _ _ Hc). done. }
  destruct (has b MACH_PORT_TYPE_SEND_RIGHTS) eqn:Hsr; cbn [negb].
  2:{ wp_step. apply (Hend _ s P o b req); [done|by apply releasable_null|]. apply hold_leaves. split; [|done]. eapply fc_ext; [exact HF|].
      rewrite taken_failed. same_hand. }
  assert (Hpr : has b MACH_PORT_TYPE_PORT_RIGHTS = true) by (by_kind Hok).
  destruct (entry_ok_port _ _ _ Hok Hpr) as (Hon & _ & _ & Hu).
  destruct (holding_port _ _ _ _ _ _ _ _ _ _ _ HT1 Hh Hpr) as [p Ho].
  wp_step. wp_step; [by apply Z.ltb_lt, Hu|]. wp_step. wp_step; [by destruct (Z.eqb_spec o IP_NULL)|].
  apply wp_bind. eapply wf_right_check; [done|done|exact Hh|done|done|..].
  - intros Ha. wp_step. by apply (Hlive p).
  - intros s1 p' b1 Ha _ Hbd HF1. pose proof Hbd as ((Ht1 & Hu1 & _) & Hr1 & _). apply wp_bind.
    eapply (wf_copyin_dead _ _ _ _ _ b1); [exact HF1|done|by rewrite Hu1|]. intros c s' b' Hc Hl. wp_step.
    apply (Hend c s' (<[o:=p']> P) IO_NULL b' IE_REQ_NONE); [by exists p, b1| |].
    { apply (dead_releasable _ _ _ _ _ _ _ _ _ Hc); [apply elsewhere_insert|]. intros _. split; [done|]. exists p'. apply lookup_insert_eq. }
    destruct Hl as [HF' Hok']. split; [|done]. eapply fc_ext; [exact HF'|].
    rewrite (taken_dead _ _ _ _ _ _ _ Hc). by destruct (Z.eqb_spec o IP_NULL).
Qed.

(** *** Receive rights on the move *)

(** A live port whose receive right is nowhere *)
Definition limbo (p : ipc_port) : ipc_port := set_ip_destination IP_NULL (set_ip_receiver_name MACH_PORT_NULL p).

Lemma wf_limbo s P L ev T o p k Q :
  foc s P L ev T -> P !! o = Some p -> ip_active p = true -> ip_receiver_name p <> MACH_PORT_NULL ->
  idle_port p -> ip_tempowner p = true \/ ip_imp_task p = IIT_NULL ->
  (forall s', foc s' (<[o := limbo p]> P) L ev (T ⊖ [RHome o (ip_receiver p) (ip_receiver_name p)] ⊕ [RHome o IS_NULL MACH_PORT_NULL]) -> wp k s' Q) ->
  wp (_ ← ip_mod o (set_ip_receiver_name MACH_PORT_NULL); _ ← ip_mod o (set_ip_destination IP_NULL); k : K copied) s Q.
Proof.
  intros HF Ho Ha Hn Hidle Himp HQ. pose proof (fc_port_ok _ _ _ _ _ _ _ _ _ HF o p Ho) as Hok.
  apply (wp_ip_mod_mod o p); [by rewrite (fc_ports _ _ _ _ _ _ _ _ _ HF)|].
  eapply (wf_ip_mod _ _ _ _ _ _ _ _ _ o p _ (T ⊖ [RHome o (ip_receiver p) (ip_receiver_name p)] ⊕ [RHome o IS_NULL MACH_PORT_NULL])); [done|done| |done| |done].
  - eapply port_ok_change; [done|done|apply Hok|apply Hok|apply Hok|apply Hok|done|by left|done|apply Hok|].
    intros [_ Him]. split; [|done]. intros _ _. split_and!; [done..|by intros []].
  - intros r. rewrite move_active by done. rewrite slot_move_same; [|done|].
    2: { unfold transit_count. change (ip_active (set_ip_destination _ _)) with (ip_active p).
         by rewrite Ha, (proj2 (Z.eqb_neq _ _) Hn). }
    unfold plus, minus. simpl.
    assert (Htr : transit_rights p = []) by (unfold transit_rights; by rewrite (proj2 (Z.eqb_neq _ _) Hn)).
    assert (Hh : home_rights o p = [RHome o (ip_receiver p) (ip_receiver_name p)])
      by (unfold home_rights; by rewrite (proj2 (Z.eqb_neq _ _) Hn)).
    rewrite Htr, Hh. change (home_rights o (set_ip_destination _ _)) with [RHome o IS_NULL MACH_PORT_NULL].
    change (transit_rights (set_ip_destination _ _)) with (@nil right). cbn [cnt]. lia.
Qed.

Lemma hold_hand_ok s P L o b req : hold s P L o b req T0 -> hand_ok (T0 ⊕ type_rights a name o (IE_BITS_TYPE b) req).
Proof.
  intros Hh. apply hand_ok_plus; [done|]. pose proof (holding_gen _ _ _ _ _ _ _ _ _ _ _ Hh) as Hg.
  pose proof (backed_core a i (o, b, req)) as Hb. by erewrite core_rights_name in Hb.
Qed.

(** The guards of the dispositions that need the receive right *)
Lemma wf_copyin_receive s P L o b req ix Q :
  hold s P L o b req T0 -> has b MACH_PORT_TYPE_RECEIVE = true ->
  (forall p, P !! o = Some p -> ip_active p = true -> ip_receiver p = a -> ip_receiver_name p = name ->
    name <> MACH_PORT_NULL -> Q o s) ->
  wp (copyin_receive a name (mk_ipc_entry o b ix req)) s Q.
Proof.
  intros Hh Hb HQ. pose proof (proj1 HT0) as HT1. pose proof Hh as [HF Hok].
  assert (Hpr : has b MACH_PORT_TYPE_PORT_RIGHTS = true) by (by_kind Hok).
  destruct (entry_ok_port _ _ _ Hok Hpr) as (Hon & _).
  destruct (holding_port _ _ _ _ _ _ _ _ _ _ _ HT1 Hh Hpr) as [p Ho].
  destruct (holding_receive _ _ _ _ Hname _ _ _ _ _ _ _ p HT1 Hh Hb Ho) as (Ha & Hr & Hn & Hn0).
  unfold copyin_receive. cbn [ie_object]. wp_step. wp_step; [by destruct (Z.eqb_spec o IP_NULL)|].
  apply wp_bind. eapply wf_ip_get; [done|done|]. wp_step. wp_step; [done|].
  wp_step. wp_step; [by apply Z.eqb_eq|]. wp_step. wp_step; [by apply Z.eqb_eq|]. wp_step. by apply (HQ p).
Qed.

(** [MACH_MSG_TYPE_MAKE_SEND] and [MACH_MSG_TYPE_MAKE_SEND_ONCE]: a new right from the receive right *)
Definition made (make : ipc_port -> ipc_port) (P : gmap Z ipc_port) (o b : Z) (c : copied) (P' : gmap Z ipc_port) : Prop :=
  if has b MACH_PORT_TYPE_RECEIVE
  then c = copied_right o IP_NULL /\ exists p, P !! o = Some p /\ P' = <[o := make p]> P
  else c = copy_failed IP_NULL /\ P' = P.

Definition room (P : gmap Z ipc_port) (o n : Z) : Prop :=
  forall p, P !! o = Some p -> ip_references p + n < IO_MAX_REFERENCES.

Lemma taken_send msgt_name o request :
  IO_VALID o = true -> ipc_object_copyin_type msgt_name = MACH_MSG_TYPE_PORT_SEND ->
  taken msgt_name (copied_right o request) = [RRef o; RSend o] ++ sonce_rights request.
Proof. intros Hv Hm. unfold taken, disposition_rights. rewrite Hm. cbn -[sonce_rights]. rewrite Hv. by rewrite app_nil_r. Qed.

Lemma taken_sonce msgt_name o request :
  IO_VALID o = true -> ipc_object_copyin_type msgt_name = MACH_MSG_TYPE_PORT_SEND_ONCE ->
  taken msgt_name (copied_right o request) = [RRef o; RSonce o] ++ sonce_rights request.
Proof. intros Hv Hm. unfold taken, disposition_rights. rewrite Hm. cbn -[sonce_rights]. rewrite Hv. by rewrite app_nil_r. Qed.

Lemma hold_port_valid s P L ev T o p : foc s P L ev T -> P !! o = Some p -> IO_VALID o = true.
Proof. intros HF Ho. exact (po_valid _ _ (fc_port_ok _ _ _ _ _ _ _ _ _ HF o p Ho)). Qed.

Lemma wf_copyin_make_send s P L o b req Q :
  hold s P L o b req T0 -> room P o 1 ->
  (forall c s' P', made made_send P o b c P' ->
    hold s' P' L o b req (T0 ⊕ taken MACH_MSG_TYPE_MAKE_SEND c) -> Q c s') ->
  wp (copyin_make_send a name i) s Q.
Proof.
  intros Hh Hroom HQ. pose proof Hh as [HF Hok]. pose proof (hold_hand_ok _ _ _ _ _ _ Hh) as HT. unfold copyin_make_send, made in *.
  apply wp_bind. eapply wf_ie_get; [done|done|]. intros ix. cbn [ie_bits].
  destruct (has b MACH_PORT_TYPE_RECEIVE) eqn:Hb; cbn [negb].
  2:{ wp_step. apply (HQ _ s P); [done|]. split; [|done]. eapply fc_ext; [exact HF|]. rewrite taken_failed. same_hand. }
  apply wp_bind. eapply wf_copyin_receive; [done|done|]. intros p Ho Ha _ Hrn Hn0.
  pose proof (hold_port_valid _ _ _ _ _ _ _ HF Ho) as Hv.
  destruct (srights_room _ _ _ _ _ _ _ _ _ _ _ HF HT Ho Ha) as (Hs & _). pose proof (Hroom p Ho).
  apply wp_bind. eapply wf_add_mscount; [exact HF|done|left; by rewrite Hrn|]. intros s1 HF1.
  apply wp_bind. eapply (wf_add_send _ _ _ _ _ _ _ _ _ o _ 1); [exact HF1|done|apply lookup_insert_eq|done|simpl; lia|done|].
  rewrite insert_insert_eq. change (repeat _ _) with [RSend o]. intros s2 HF2.
  apply wp_bind. eapply wf_reference; [exact HF2|apply lookup_insert_eq|done|]. rewrite insert_insert_eq.
  intros s3 HF3. wp_step. apply (HQ _ s3 (<[o:=made_send p]> P)); [split; [done|by exists p]|]. split; [|done].
  eapply fc_ext; [exact HF3|]. rewrite taken_send by done. same_hand.
Qed.

Lemma wf_copyin_make_send_once s P L o b req Q :
  hold s P L o b req T0 -> room P o 1 ->
  (forall c s' P', made with_sonce P o b c P' ->
    hold s' P' L o b req (T0 ⊕ taken MACH_MSG_TYPE_MAKE_SEND_ONCE c) -> Q c s') ->
  wp (copyin_make_send_once a name i) s Q.
Proof.
  intros Hh Hroom HQ. pose proof Hh as [HF Hok]. pose proof (hold_hand_ok _ _ _ _ _ _ Hh) as HT. unfold copyin_make_send_once, made in *.
  apply wp_bind. eapply wf_ie_get; [done|done|]. intros ix. cbn [ie_bits].
  destruct (has b MACH_PORT_TYPE_RECEIVE) eqn:Hb; cbn [negb].
  2:{ wp_step. apply (HQ _ s P); [done|]. split; [|done]. eapply fc_ext; [exact HF|]. rewrite taken_failed. same_hand. }
  apply wp_bind. eapply wf_copyin_receive; [done|done|]. intros p Ho Ha _ _ _.
  pose proof (hold_port_valid _ _ _ _ _ _ _ HF Ho) as Hv. pose proof (Hroom p Ho).
  apply wp_bind. eapply wf_add_sonce; [exact HF|done|done|done|]. intros s2 HF2.
  apply wp_bind. eapply wf_reference; [exact HF2|apply lookup_insert_eq|done|]. rewrite insert_insert_eq.
  intros s3 HF3. wp_step. apply (HQ _ s3 (<[o:=with_sonce p]> P)); [split; [done|by exists p]|]. split; [|done].
  eapply fc_ext; [exact HF3|]. rewrite taken_sonce by done. same_hand.
Qed.

(** A port that has lost its receiver and is on its way to a message *)
Definition adrift (p : ipc_port) : ipc_port := set_ip_tempowner true (limbo (cleared p)).

(** [MACH_MSG_TYPE_MOVE_RECEIVE]: the receive right leaves the entry, and the port is in limbo.
    An entry that keeps a send right needs a reference of its own; one that does not loses its
    request. *)
Definition received (P : gmap Z ipc_port) (L : list event) (o b req : Z) (c : copied) (L' : list event)
    (P' : gmap Z ipc_port) (o' b' req' : Z) : Prop :=
  if has b MACH_PORT_TYPE_RECEIVE then
    exists p rq, P !! o = Some p /\
      c = mk_copied KERN_SUCCESS o (if has b MACH_PORT_TYPE_SEND then IP_NULL else request_of p req) IP_NULL
            (if ip_tempowner p then 0 else ip_impcount p) /\
      L' = L ++ [ThreadsRestarted (imq_receivers (ip_messages p))] /\
      P' = <[o := adrift (if has b MACH_PORT_TYPE_SEND then set_ip_references (ip_references p + 1) p else set_ip_requests rq p)]> P /\
      b' = clr b MACH_PORT_TYPE_RECEIVE /\
      (o', req') = (if has b MACH_PORT_TYPE_SEND then (o, req) else (IO_NULL, IE_REQ_NONE))
  else c = copy_failed IP_NULL /\ L' = L /\ P' = P /\ o' = o /\ b' = b /\ req' = req.

Lemma moved_bits b :
  IE_BITS_TYPE (clr b MACH_PORT_TYPE_RECEIVE) = clr (IE_BITS_TYPE b) MACH_PORT_TYPE_RECEIVE /\
  IE_BITS_UREFS (clr b MACH_PORT_TYPE_RECEIVE) = IE_BITS_UREFS b /\
  IE_BITS_GEN (clr b MACH_PORT_TYPE_RECEIVE) = IE_BITS_GEN b.
Proof. rewrite IE_BITS_TYPE_clr, clr_urefs_disjoint, clr_gen_disjoint by done. done. Qed.

(** After the entry has been dealt with *)
Lemma wf_move_receive_tail s P L ev T o p request Q :
  foc s P L ev T -> P !! o = Some p -> ip_active p = true -> ip_receiver_name p <> MACH_PORT_NULL ->
  (ip_tempowner p = true \/ ip_imp_task p = IIT_NULL) ->
  (forall s', foc s' (<[o := adrift p]> P) (L ++ [ThreadsRestarted (imq_receivers (ip_messages p))]) ev
     (T ⊖ [RHome o (ip_receiver p) (ip_receiver_name p)] ⊕ [RHome o IS_NULL MACH_PORT_NULL]) ->
     Q (mk_copied KERN_SUCCESS o request IP_NULL (if ip_tempowner p then 0 else ip_impcount p)) s') ->
  wp (_ ← ipc_port_clear_receiver o;
      _ ← ip_mod o (set_ip_receiver_name MACH_PORT_NULL);
      _ ← ip_mod o (set_ip_destination IP_NULL);
      p ← ip_get o;
      assertcnt ← (if negb (ip_tempowner p) then
                     _ ← massert (ip_imp_task p =? IIT_NULL);
                     _ ← ip_mod o (set_ip_tempowner true);
                     mret (ip_impcount p)
                   else mret 0);
      mret (mk_copied KERN_SUCCESS o request IP_NULL assertcnt)) s Q.
Proof.
  intros HF Ho Ha Hn Himp HQ. apply wp_bind. eapply wf_clear_receiver; [done|done|done|]. intros s1 HF1.
  assert (Hc : ip_active (cleared p) = true /\ ip_receiver (cleared p) = ip_receiver p /\
    ip_receiver_name (cleared p) = ip_receiver_name p /\ ip_tempowner (cleared p) = ip_tempowner p /\
    ip_imp_task (cleared p) = ip_imp_task p /\ ip_impcount (cleared p) = ip_impcount p)
    by (unfold cleared; by destruct (ip_in_pset p)).
  pose proof (cleared_idle p) as Hidle. unfold adrift in HQ.
  revert HQ HF1 Hc Hidle. generalize (cleared p). intros q HQ HF1 (Hca & Hcr & Hcn & Hct & Hci & Hcc) Hidle.
  eapply wf_limbo; [done|apply lookup_insert_eq|done|by rewrite Hcn|done|by rewrite Hct, Hci|]. rewrite insert_insert_eq, Hcr, Hcn. intros s2 HF2.
  apply wp_bind. eapply wf_ip_get; [done|apply lookup_insert_eq|].
  change (ip_tempowner (limbo q)) with (ip_tempowner q).
  change (ip_imp_task (limbo q)) with (ip_imp_task q).
  change (ip_impcount (limbo q)) with (ip_impcount q). rewrite Hct, Hci, Hcc.
  apply wp_bind. destruct (ip_tempowner p) eqn:Ht; cbn [negb].
  - wp_step. wp_step. eapply HQ. replace (set_ip_tempowner true (limbo q)) with (limbo q) by (destruct q; simpl in Hct; by subst). done.
  - destruct Himp as [|Himp]; [done|]. wp_step. wp_step; [by apply Z.eqb_eq|].
    assert (Hq : quiet (limbo q) (set_ip_tempowner true (limbo q))).
    { split_and!; try done; [by left|]. intros [H1 _]. split; [|intros _ []; simpl; congruence].
      intros Ha' Hn'. destruct (H1 Ha' Hn') as [? _]. split_and!; [done|by left|by intros []]. }
    apply wp_bind. eapply wf_ip_quiet; [done|apply lookup_insert_eq|exact Hq|]. rewrite insert_insert_eq. intros s3 HF3.
    wp_step. wp_step. by eapply HQ.
Qed.

Lemma taken_receive o request assertcnt :
  IO_VALID o = true ->
  taken MACH_MSG_TYPE_MOVE_RECEIVE (mk_copied KERN_SUCCESS o request IP_NULL assertcnt) =
    [RRef o; RLive o; RHome o IS_NULL MACH_PORT_NULL] ++ sonce_rights request.
Proof. intros Hv. unfold taken, disposition_rights. cbn -[sonce_rights]. rewrite Hv. by rewrite app_nil_r. Qed.

Lemma wf_copyin_move_receive s P L o b req Q :
  hold s P L o b req T0 -> room P o 1 ->
  (has b MACH_PORT_TYPE_RECEIVE = true -> forall p, P !! o = Some p -> ip_tempowner p = true \/ ip_imp_task p = IIT_NULL) ->
  (forall c s' P' L' o' b' req', received P L o b req c L' P' o' b' req' ->
    leaves s' P' L' o' b' req' (T0 ⊕ taken MACH_MSG_TYPE_MOVE_RECEIVE c) -> Q c s') ->
  wp (copyin_move_receive a name i) s Q.
Proof.
  intros Hh Hroom Himp HQ. pose proof (proj1 HT0) as HT1. pose proof Hh as [HF Hok].
  pose proof (holding_gen _ _ _ _ _ _ _ _ _ _ _ Hh) as Hg. destruct (moved_bits b) as (Hbt & Hbu & Hbg).
  unfold copyin_move_receive, received in *.
  apply wp_bind. eapply wf_ie_get; [done|done|]. intros ix. cbn [ie_bits].
  destruct (has b MACH_PORT_TYPE_RECEIVE) eqn:Hb; cbn [negb].
  2:{ wp_step. apply (HQ _ s P L o b req); [done|]. apply hold_leaves. split; [|done]. eapply fc_ext; [exact HF|].
      rewrite taken_failed. same_hand. }
  apply wp_bind. eapply wf_copyin_receive; [done|done|]. intros p Ho Ha Hr Hn Hn0.
  pose proof (hold_port_valid _ _ _ _ _ _ _ HF Ho) as Hv. pose proof (Hroom p Ho) as Hrm.
  assert (Hty : IE_BITS_TYPE b = MACH_PORT_TYPE_RECEIVE /\ IE_BITS_UREFS b = 0 \/
                IE_BITS_TYPE b = MACH_PORT_TYPE_SEND_RECEIVE /\ 0 < IE_BITS_UREFS b < MACH_PORT_UREFS_MAX) by (by_kind Hok; auto).
  destruct (entry_ok_port _ _ _ Hok) as (Hon & Hreq & _); [by destruct Hty as [[Ht _]|[Ht _]]; by_type Ht|].
  apply wp_bind. destruct Hty as [[Ht Hu]|[Ht Hu]]; rewrite Ht in HF, Hbt; revert HQ; by_type Ht; intros HQ.
  - change (clr MACH_PORT_TYPE_RECEIVE MACH_PORT_TYPE_RECEIVE) with MACH_PORT_TYPE_NONE in Hbt.
    wp_step. wp_step; [done|]. wp_step. wp_step; [by apply Z.eqb_eq|].
    apply wp_bind. eapply wf_request_cancel; [done|exact HF|done|done| |].
    { intros Hq. pose proof (holding_slot _ _ _ _ _ _ _ _ _ _ _ HT1 Hh) as Hslot. rewrite Ht in Hslot. apply Hslot; [by by_type Ht|done]. }
    intros s1 rq HF1. apply wp_bind. eapply wf_ie_mod; [done|done|entry_fields|done|done|]. intros s2 HF2. wp_step.
    apply wp_bind. eapply wf_ie_mod; [done|done|entry_fields|done|by rewrite Hbg|]. intros s3 HF3.
    apply wp_bind. eapply wf_entry_modified; [done|done|]. intros s4 HF4.
    eapply wf_move_receive_tail; [done|apply lookup_insert_eq|done|by rewrite <- Hn in Hn0|exact (Himp eq_refl p Ho)|].
    simpl. rewrite insert_insert_eq. intros s5 HF5. eapply (HQ _ s5); [exists p, rq; by split_and!|].
    split; [|right; by rewrite Hbt, Hbu]. rewrite Hbt, taken_receive by done.
    eapply fc_ext; [apply (fc_drop _ _ _ _ _ _ _ _ _ [RName o a] HF5); by repeat constructor|].
    change (ip_receiver_name (set_ip_requests rq p)) with (ip_receiver_name p).
    fold (slot_held o req name). rewrite Hr, Hn. same_hand.
  - change (clr MACH_PORT_TYPE_SEND_RECEIVE MACH_PORT_TYPE_RECEIVE) with MACH_PORT_TYPE_SEND in Hbt.
    wp_step. wp_step; [done|]. wp_step. wp_step; [apply Z.ltb_lt; lia|].
    apply wp_bind. eapply wf_ip_get; [done|done|]. wp_step. wp_step; [apply Z.ltb_lt; eapply holding_srights; [done|done|by by_type Ht|done]|].
    apply wp_bind. eapply wf_hash_insert; [done|exact HF|done|]. intros s1 HF1.
    apply wp_bind. eapply wf_reference; [done|done|done|]. intros s2 HF2. wp_step.
    apply wp_bind. eapply wf_ie_mod; [done|done|entry_fields|done|by rewrite Hbg|]. intros s3 HF3.
    apply wp_bind. eapply wf_entry_modified; [done|done|]. intros s4 HF4.
    eapply wf_move_receive_tail; [done|apply lookup_insert_eq|done|by rewrite <- Hn in Hn0|exact (Himp eq_refl p Ho)|].
    simpl. rewrite insert_insert_eq. intros s5 HF5. eapply (HQ _ s5); [exists p, None; by split_and!|].
    split; [|left; unfold entry_ok; rewrite Hbt, Hbu; by constructor]. rewrite Hbt, taken_receive by done.
    change (ip_receiver_name (set_ip_references _ p)) with (ip_receiver_name p) in HF5.
    eapply fc_ext; [exact HF5|]. rewrite Hr, Hn. same_hand.
Qed.

(** *** Send and send-once rights *)

(** [MACH_MSG_TYPE_COPY_SEND]: one more send right, the entry as it was *)
Definition send_copied (deadok : bool) (P : gmap Z ipc_port) (o b req : Z) (c : copied) (o' b' req' : Z) : Prop :=
  if port_dead P o then existing_copied false deadok P o b req c o' b' req'
  else c = (if has b MACH_PORT_TYPE_SEND then copied_right o IP_NULL else copy_failed IP_NULL) /\
       o' = o /\ b' = b /\ req' = req.

Lemma port_live P o p : P !! o = Some p -> ip_active p = true -> port_dead P o = false.
Proof. intros Ho Ha. unfold port_dead. by rewrite Ho, Ha. Qed.

(** The cases of [copyin_existing] in which nothing is taken, with what is known of the port *)
Lemma existing_dead move deadok s P L o b req c o' b' req' :
  hold s P L o b req T0 -> existing_copied move deadok P o b req c o' b' req' ->
  port_dead P o = true \/
  has b MACH_PORT_TYPE_SEND_RIGHTS = false /\ c = copy_failed IP_NULL /\ o' = o /\ b' = b /\ req' = req.
Proof.
  intros [HF Hok] Hc. unfold existing_copied in Hc.
  destruct (has b MACH_PORT_TYPE_DEAD_NAME) eqn:Hd.
  - left. assert (o = IO_NULL) as -> by (by_kind Hok).
    unfold port_dead. by rewrite (holding_null_port _ _ _ _ _ _ _ _ _ _ _ _ HF).
  - destruct (has b MACH_PORT_TYPE_SEND_RIGHTS) eqn:Hs; [left|by right].
    destruct Hc as (p & b1 & Ho & Ha & _). unfold port_dead. by rewrite Ho, Ha.
Qed.

Lemma wf_copyin_copy_send deadok s P L o b req Q :
  hold s P L o b req T0 -> room P o 1 ->
  (forall c s' P' o' b' req', send_copied deadok P o b req c o' b' req' ->
    releasable o P P' c -> leaves s' P' L o' b' req' (T0 ⊕ taken MACH_MSG_TYPE_COPY_SEND c) -> Q c s') ->
  wp (copyin_copy_send deadok a name i) s Q.
Proof.
  intros Hh Hroom HQ. pose proof (proj1 HT0) as HT1. pose proof Hh as [HF Hok].
  pose proof (hold_hand_ok _ _ _ _ _ _ Hh) as HT. unfold copyin_copy_send, send_copied in *.
  apply wp_bind. eapply (wf_copyin_existing MACH_MSG_TYPE_COPY_SEND); [done|..].
  - intros c s' P' o' b' req' Hc Hrl Hl. wp_step. eapply (HQ c s' P'); [|done|done].
    destruct (existing_dead _ _ _ _ _ _ _ _ _ _ _ _ Hh Hc) as [->|(Hs & -> & -> & -> & ->)]; [done|].
    destruct (port_dead P o); [done|]. replace (has b MACH_PORT_TYPE_SEND) with false by (by_kind Hok). done.
  - intros p Hs Ho Ha. pose proof (hold_port_valid _ _ _ _ _ _ _ HF Ho) as Hv. pose proof (Hroom p Ho).
    rewrite (port_live _ _ _ Ho Ha) in HQ. destruct (srights_room _ _ _ _ _ _ _ _ _ _ _ HF HT Ho Ha) as (Hsr & _).
    apply wp_bind. eapply wf_ie_get; [done|done|]. intros ix. cbn [ie_bits].
    apply wp_bind. eapply wf_ip_get; [done|done|]. destruct (has b MACH_PORT_TYPE_SEND) eqn:Hb; cbn [negb].
    + wp_step. wp_step; [apply Z.ltb_lt; by eapply holding_srights|].
      apply wp_bind. eapply (wf_add_send _ _ _ _ _ _ _ _ _ o _ 1); [exact HF|done|done|done|lia|done|].
      change (repeat _ _) with [RSend o]. intros s2 HF2.
      apply wp_bind. eapply wf_reference; [exact HF2|apply lookup_insert_eq|done|]. rewrite insert_insert_eq.
      intros s3 HF3. wp_step. eapply (HQ _ s3); [done|by apply releasable_null|]. apply hold_leaves. split; [|done].
      eapply fc_ext; [exact HF3|]. rewrite taken_send by done. same_hand.
    + assert (Ht : IE_BITS_TYPE b = MACH_PORT_TYPE_SEND_ONCE) by (by_kind Hok).
      wp_step. wp_step; [by apply Z.eqb_eq|]. wp_step. wp_step; [apply Z.ltb_lt; by eapply holding_sorights|].
      wp_step. eapply (HQ _ s P); [done|by apply releasable_null|]. apply hold_leaves. split; [|done]. eapply fc_ext; [exact HF|].
      rewrite taken_failed. same_hand.
Qed.

(** [MACH_MSG_TYPE_MOVE_SEND]: a user reference becomes a send right; with the last one the
    entry loses its right, and its request is canceled. *)
Definition send_moved (deadok : bool) (P : gmap Z ipc_port) (o b req : Z) (c : copied) (o' b' req' : Z) : Prop :=
  match P !! o with
  | Some p =>
    if ip_active p && has b MACH_PORT_TYPE_SEND_RIGHTS then
      if has b MACH_PORT_TYPE_SEND then
        let gone := (IE_BITS_UREFS b =? 1) && negb (has b MACH_PORT_TYPE_RECEIVE) in
        c = copied_right o (if gone then request_of p req else IP_NULL) /\
        entry_after o b false (IE_BITS_UREFS b - 1) o' b' /\ req' = (if gone then IE_REQ_NONE else req)
      else c = copy_failed IP_NULL /\ o' = o /\ b' = b /\ req' = req
    else existing_copied true deadok P o b req c o' b' req'
  | None => existing_copied true deadok P o b req c o' b' req'
  end.

(** The last user reference is moved out of a send entry. *)
Lemma wf_move_last_send s P L o b req p Q :
  hold s P L o b req T0 -> IE_BITS_TYPE b = MACH_PORT_TYPE_SEND -> IE_BITS_UREFS b = 1 ->
  P !! o = Some p -> ip_active p = true ->
  (forall s' P' b', entry_after o b false 0 IO_NULL b' -> elsewhere o P P' ->
    leaves s' P' L IO_NULL b' IE_REQ_NONE (T0 ⊕ taken MACH_MSG_TYPE_MOVE_SEND (copied_right o (request_of p req))) ->
    Q (copied_right o (request_of p req)) s') ->
  wp (request ← (request ← (_ ← massert (IE_BITS_TYPE b =? MACH_PORT_TYPE_SEND);
                            request ← ipc_right_request_cancel_macro a o name i;
                            _ ← hash_delete a o name i;
                            _ ← ie_mod a i (set_ie_object IO_NULL);
                            mret request);
                 _ ← ie_mod a i (set_ie_bits (clr b (Z.lor IE_BITS_UREFS_MASK MACH_PORT_TYPE_SEND)));
                 mret request);
      _ ← entry_modified a name i;
      mret (copied_right o request)) s Q.
Proof.
  intros Hh Ht Hu Ho Ha HQ. pose proof (proj1 HT0) as HT1. pose proof Hh as [HF Hok].
  pose proof (holding_gen _ _ _ _ _ _ _ _ _ _ _ Hh) as Hg. pose proof (hold_port_valid _ _ _ _ _ _ _ HF Ho) as Hv.
  pose proof (holding_slot _ _ _ _ _ _ _ _ _ _ _ HT1 Hh) as Hslot. rewrite has_type, Ht in Hslot by done.
  set (b' := clr b _).
  assert (Hb' : IE_BITS_TYPE b' = MACH_PORT_TYPE_NONE /\ IE_BITS_UREFS b' = 0 /\ IE_BITS_GEN b' = IE_BITS_GEN b).
  { unfold b'. rewrite clr_gen_disjoint, IE_BITS_TYPE_clr, urefs_cleared, Ht by done. done. }
  destruct Hb' as (Hbt & Hbu & Hbg). rewrite Ht in HF.
  do 2 apply wp_bind. apply wp_bind. wp_step; [by apply Z.eqb_eq|]. apply wp_bind.
  eapply wf_request_cancel; [done|exact HF|done|done|by apply Hslot|]. intros s1 rq HF1.
  apply wp_bind. eapply wf_hash_delete; [done|done|]. intros s2 HF2.
  apply wp_bind. eapply wf_ie_mod; [done|done|entry_fields|done|done|]. intros s3 HF3. wp_step.
  apply wp_bind. eapply wf_ie_mod; [done|done|entry_fields|done|by rewrite Hbg|]. intros s4 HF4. wp_step.
  apply wp_bind. eapply wf_entry_modified; [done|done|]. intros s5 HF5. wp_step. eapply (HQ s5 _ b'); [|by apply elsewhere_insert|].
  - unfold entry_after. rewrite (has_type b') by done. by rewrite Hbt, Hbu, Hbg, Ht.
  - unfold leaves. rewrite Hbt. split; [|by right]. rewrite taken_send by done.
    eapply fc_ext; [apply (fc_drop _ _ _ _ _ _ _ _ _ [RName o a] HF5); by repeat constructor|].
    fold (slot_held o req name). same_hand.
Qed.

(** The last user reference of the send right is moved out of an entry with the receive right. *)
Lemma wf_move_last_both s P L o b req p Q :
  hold s P L o b req T0 -> IE_BITS_TYPE b = MACH_PORT_TYPE_SEND_RECEIVE -> IE_BITS_UREFS b = 1 ->
  P !! o = Some p -> ip_references p + 1 < IO_MAX_REFERENCES ->
  (forall s' P' b', entry_after o b false 0 o b' -> elsewhere o P P' ->
    hold s' P' L o b' req (T0 ⊕ taken MACH_MSG_TYPE_MOVE_SEND (copied_right o IP_NULL)) -> Q (copied_right o IP_NULL) s') ->
  wp (request ← (request ← (_ ← massert (ip_receiver_name p =? name);
                            _ ← massert (ip_receiver p =? a);
                            _ ← massert (IE_BITS_TYPE b =? MACH_PORT_TYPE_SEND_RECEIVE);
                            _ ← io_reference o;
                            mret IP_NULL);
                 _ ← ie_mod a i (set_ie_bits (clr b (Z.lor IE_BITS_UREFS_MASK MACH_PORT_TYPE_SEND)));
                 mret request);
      _ ← entry_modified a name i;
      mret (copied_right o request)) s Q.
Proof.
  intros Hh Ht Hu Ho Hr HQ. pose proof (proj1 HT0) as HT1. pose proof Hh as [HF Hok].
  pose proof (holding_gen _ _ _ _ _ _ _ _ _ _ _ Hh) as Hg. pose proof (hold_port_valid _ _ _ _ _ _ _ HF Ho) as Hv.
  destruct (holding_receive _ _ _ _ Hname _ _ _ _ _ _ _ p HT1 Hh) as (Ha & Hrc & Hrn & _); [by by_type Ht|done|].
  destruct (entry_ok_port _ _ _ Hok) as (Hon & Hreq & _); [by by_type Ht|].
  destruct (receive_bits b Ht) as (Hbt & Hbu & Hbg). set (b' := clr b _) in *. rewrite Ht in HF.
  do 2 apply wp_bind. apply wp_bind. wp_step; [by apply Z.eqb_eq|]. apply wp_bind. wp_step; [by apply Z.eqb_eq|].
  apply wp_bind. wp_step; [by apply Z.eqb_eq|]. apply wp_bind.
  eapply wf_reference; [exact HF|done|done|]. intros s1 HF1. wp_step.
  apply wp_bind. eapply wf_ie_mod; [done|done|entry_fields|done|by rewrite Hbg|]. intros s2 HF2. wp_step.
  apply wp_bind. eapply wf_entry_modified; [done|done|]. intros s3 HF3. wp_step. eapply (HQ s3 _ b'); [|by apply elsewhere_insert|].
  - unfold entry_after. rewrite (has_type b') by done. by rewrite Hbt, Hbu, Hbg, Ht.
  - split; [|unfold entry_ok; rewrite Hbt, Hbu; by constructor]. rewrite Hbt, taken_send by done.
    eapply fc_ext; [exact HF3|]. same_hand.
Qed.

(** A user reference of several *)
Lemma wf_move_urefs s P L o b req p Q :
  hold s P L o b req T0 -> has b MACH_PORT_TYPE_SEND = true -> IE_BITS_UREFS b <> 1 ->
  P !! o = Some p -> ip_active p = true -> ip_references p + 1 < IO_MAX_REFERENCES ->
  (forall s' P' b', entry_after o b false (IE_BITS_UREFS b - 1) o b' -> elsewhere o P P' ->
    hold s' P' L o b' req (T0 ⊕ taken MACH_MSG_TYPE_MOVE_SEND (copied_right o IP_NULL)) -> Q (copied_right o IP_NULL) s') ->
  wp (request ← (_ ← ip_mod o (fun p => set_ip_srights (u32 (ip_srights p + 1)) p);
                 _ ← io_reference o;
                 _ ← ie_mod a i (set_ie_bits (b - 1));
                 mret IP_NULL);
      _ ← entry_modified a name i;
      mret (copied_right o request)) s Q.
Proof.
  intros Hh Hb Hu Ho Ha Hr HQ. pose proof Hh as [HF Hok]. pose proof (hold_hand_ok _ _ _ _ _ _ Hh) as HT.
  pose proof (holding_gen _ _ _ _ _ _ _ _ _ _ _ Hh) as Hg. pose proof (hold_port_valid _ _ _ _ _ _ _ HF Ho) as Hv.
  destruct (srights_room _ _ _ _ _ _ _ _ _ _ _ HF HT Ho Ha) as (Hs & _).
  assert (Hpr : has b MACH_PORT_TYPE_PORT_RIGHTS = true /\ 1 < IE_BITS_UREFS b < MACH_PORT_UREFS_MAX) by (by_kind Hok; split; (done || lia)).
  destruct Hpr as [Hpr Hu2].
  destruct (bits_urefs b (-1)) as (Hbt & Hbu & Hbg); [unfold MACH_PORT_UREFS_MAX in *; lia|].
  change (b + -1) with (b - 1) in *.
  do 2 apply wp_bind. eapply (wf_add_send _ _ _ _ _ _ _ _ _ o _ 1); [exact HF|done|done|done|lia|done|].
  change (repeat _ _) with [RSend o]. intros s1 HF1.
  apply wp_bind. eapply wf_reference; [exact HF1|apply lookup_insert_eq|done|]. rewrite insert_insert_eq. intros s2 HF2.
  apply wp_bind. eapply wf_ie_mod; [done|done|entry_fields|done|by rewrite Hbg|]. intros s3 HF3. wp_step.
  apply wp_bind. eapply wf_entry_modified; [done|done|]. intros s4 HF4. wp_step. eapply (HQ s4 _ (b - 1)); [|by apply elsewhere_insert|].
  - apply (new_urefs_after o b (-1)); [done|lia|by left].
  - split; [|]; rewrite ?Hbt.
    + rewrite taken_send by done. eapply fc_ext; [exact HF4|]. same_hand.
    + unfold entry_ok. rewrite Hbt, Hbu. by_kind Hok; constructor; (done || lia).
Qed.

Lemma wf_copyin_move_send deadok s P L o b req Q :
  hold s P L o b req T0 -> room P o 1 ->
  (forall c s' P' o' b' req', send_moved deadok P o b req c o' b' req' ->
    releasable o P P' c -> leaves s' P' L o' b' req' (T0 ⊕ taken MACH_MSG_TYPE_MOVE_SEND c) -> Q c s') ->
  wp (copyin_move_send deadok a name i) s Q.
Proof.
  intros Hh Hroom HQ. pose proof (proj1 HT0) as HT1. pose proof Hh as [HF Hok]. unfold copyin_move_send.
  apply wp_bind. eapply (wf_copyin_existing MACH_MSG_TYPE_MOVE_SEND); [done|..].
  - intros c s' P' o' b' req' Hc Hrl Hl. wp_step. eapply (HQ c s' P'); [|done|done]. unfold send_moved.
    destruct (existing_dead _ _ _ _ _ _ _ _ _ _ _ _ Hh Hc) as [Hd|(-> & _)].
    + unfold port_dead in Hd. destruct (P !! o) as [p|]; [|done]. by destruct (ip_active p).
    + destruct (P !! o) as [p|]; [|done]. by rewrite andb_false_r.
  - intros p Hs Ho Ha. pose proof (Hroom p Ho). unfold send_moved in HQ. rewrite Ho, Ha, Hs in HQ. cbn [andb] in HQ.
    apply wp_bind. eapply wf_ie_get; [done|done|]. intros ix. cbn [ie_bits].
    apply wp_bind. eapply wf_ip_get; [done|done|]. destruct (has b MACH_PORT_TYPE_SEND) eqn:Hb; cbn [negb].
    2:{ assert (Ht : IE_BITS_TYPE b = MACH_PORT_TYPE_SEND_ONCE) by (by_kind Hok).
        wp_step. wp_step; [by apply Z.eqb_eq|]. wp_step. wp_step; [apply Z.ltb_lt; by eapply holding_sorights|].
        wp_step. eapply (HQ _ s P); [done|by apply releasable_null|]. apply hold_leaves. split; [|done]. eapply fc_ext; [exact HF|].
        rewrite taken_failed. same_hand. }
    wp_step. wp_step; [apply Z.ltb_lt; by eapply holding_srights|].
    destruct (Z.eqb_spec (IE_BITS_UREFS b) 1) as [H1|H1]; cbn [andb] in HQ.
    + rewrite H1 in HQ. change (1 - 1) with 0 in HQ. destruct (has b MACH_PORT_TYPE_RECEIVE) eqn:Hr; cbn [negb] in HQ.
      * assert (Ht : IE_BITS_TYPE b = MACH_PORT_TYPE_SEND_RECEIVE) by (by_kind Hok).
        eapply wf_move_last_both; [done..|]. intros s' P' b' Hea HP Hh'. eapply HQ; [done|by apply releasable_null|by apply hold_leaves].
      * assert (Ht : IE_BITS_TYPE b = MACH_PORT_TYPE_SEND) by (by_kind Hok).
        eapply wf_move_last_send; [done..|]. intros s' P' b' Hea HP Hl. eapply HQ; [done|by apply releasable_null|done].
    + eapply wf_move_urefs; [done..|]. intros s' P' b' Hea HP Hh'. eapply HQ; [done|by apply releasable_null|by apply hold_leaves].
Qed.

(** [MACH_MSG_TYPE_MOVE_SEND_ONCE]: the entry loses its right, and its request is canceled. *)
Definition sonce_moved (deadok : bool) (P : gmap Z ipc_port) (o b req : Z) (c : copied) (o' b' req' : Z) : Prop :=
  match P !! o with
  | Some p =>
    if ip_active p && has b MACH_PORT_TYPE_SEND_RIGHTS then
      if has b MACH_PORT_TYPE_SEND_ONCE then
        c = copied_right o (request_of p req) /\ entry_after o b false 0 o' b' /\ req' = IE_REQ_NONE
      else c = copy_failed IP_NULL /\ o' = o /\ b' = b /\ req' = req
    else existing_copied true deadok P o b req c o' b' req'
  | None => existing_copied true deadok P o b req c o' b' req'
  end.

Lemma wf_move_sonce s P L o b req p Q :
  hold s P L o b req T0 -> IE_BITS_TYPE b = MACH_PORT_TYPE_SEND_ONCE -> P !! o = Some p -> ip_active p = true ->
  (forall s' P' b', entry_after o b false 0 IO_NULL b' -> elsewhere o P P' ->
    leaves s' P' L IO_NULL b' IE_REQ_NONE (T0 ⊕ taken MACH_MSG_TYPE_MOVE_SEND_ONCE (copied_right o (request_of p req))) ->
    Q (copied_right o (request_of p req)) s') ->
  wp (request ← ipc_right_request_cancel_macro a o name i;
      _ ← ie_mod a i (set_ie_object IO_NULL);
      _ ← ie_mod a i (set_ie_bits (clr b (Z.lor IE_BITS_UREFS_MASK MACH_PORT_TYPE_SEND_ONCE)));
      _ ← entry_modified a name i;
      mret (copied_right o request)) s Q.
Proof.
  intros Hh Ht Ho Ha HQ. pose proof (proj1 HT0) as HT1. pose proof Hh as [HF Hok].
  pose proof (holding_gen _ _ _ _ _ _ _ _ _ _ _ Hh) as Hg. pose proof (hold_port_valid _ _ _ _ _ _ _ HF Ho) as Hv.
  pose proof (holding_slot _ _ _ _ _ _ _ _ _ _ _ HT1 Hh) as Hslot. rewrite has_type, Ht in Hslot by done.
  set (b' := clr b _).
  assert (Hb' : IE_BITS_TYPE b' = MACH_PORT_TYPE_NONE /\ IE_BITS_UREFS b' = 0 /\ IE_BITS_GEN b' = IE_BITS_GEN b).
  { unfold b'. rewrite clr_gen_disjoint, IE_BITS_TYPE_clr, urefs_cleared, Ht by done. done. }
  destruct Hb' as (Hbt & Hbu & Hbg). rewrite Ht in HF.
  apply wp_bind. eapply wf_request_cancel; [done|exact HF|done|done|by apply Hslot|]. intros s1 rq HF1.
  apply wp_bind. eapply wf_ie_mod; [done|done|entry_fields|done|done|]. intros s2 HF2.
  apply wp_bind. eapply wf_ie_mod; [done|done|entry_fields|done|by rewrite Hbg|]. intros s3 HF3.
  apply wp_bind. eapply wf_entry_modified; [done|done|]. intros s4 HF4. wp_step. eapply (HQ s4 _ b'); [|by apply elsewhere_insert|].
  - unfold entry_after. rewrite (has_type b') by done. by rewrite Hbt, Hbu, Hbg, Ht.
  - unfold leaves. rewrite Hbt. split; [|by right]. rewrite taken_sonce by done.
    eapply fc_ext; [exact HF4|]. fold (slot_held o req name). same_hand.
Qed.

Lemma wf_copyin_move_send_once deadok s P L o b req Q :
  hold s P L o b req T0 ->
  (forall c s' P' o' b' req', sonce_moved deadok P o b req c o' b' req' ->
    releasable o P P' c -> leaves s' P' L o' b' req' (T0 ⊕ taken MACH_MSG_TYPE_MOVE_SEND_ONCE c) -> Q c s') ->
  wp (copyin_move_send_once deadok a name i) s Q.
Proof.
  intros Hh HQ. pose proof (proj1 HT0) as HT1. pose proof Hh as [HF Hok]. unfold copyin_move_send_once.
  apply wp_bind. eapply (wf_copyin_existing MACH_MSG_TYPE_MOVE_SEND_ONCE); [done|..].
  - intros c s' P' o' b' req' Hc Hrl Hl. wp_step. eapply (HQ c s' P'); [|done|done]. unfold sonce_moved.
    destruct (existing_dead _ _ _ _ _ _ _ _ _ _ _ _ Hh Hc) as [Hd|(-> & _)].
    + unfold port_dead in Hd. destruct (P !! o) as [p|]; [|done]. by destruct (ip_active p).
    + destruct (P !! o) as [p|]; [|done]. by rewrite andb_false_r.
  - intros p Hs Ho Ha. unfold sonce_moved in HQ. rewrite Ho, Ha, Hs in HQ. cbn [andb] in HQ.
    apply wp_bind. eapply wf_ie_get; [done|done|]. intros ix. cbn [ie_bits].
    apply wp_bind. eapply wf_ip_get; [done|done|]. destruct (has b MACH_PORT_TYPE_SEND_ONCE) eqn:Hb; cbn [negb].
    + assert (Ht : IE_BITS_TYPE b = MACH_PORT_TYPE_SEND_ONCE /\ IE_BITS_UREFS b = 1) by (by_kind Hok).
      destruct Ht as [Ht Hu]. wp_step. wp_step; [by apply Z.eqb_eq|]. wp_step. wp_step; [by apply Z.eqb_eq|].
      wp_step. wp_step; [apply Z.ltb_lt; by eapply holding_sorights|].
      eapply wf_move_sonce; [done..|]. intros s' P' b' Hea HP Hl. eapply HQ; [done|by apply releasable_null|done].
    + assert (Hbs : has b MACH_PORT_TYPE_SEND = true) by (by_kind Hok).
      wp_step. wp_step; [done|]. wp_step. wp_step; [apply Z.ltb_lt; by eapply holding_srights|].
      wp_step. eapply (HQ _ s P); [done|by apply releasable_null|]. apply hold_leaves. split; [|done]. eapply fc_ext; [exact HF|].
      rewrite taken_failed. same_hand.
Qed.

(** *** All dispositions *)
Definition copied_in (msgt_name : Z) (deadok : bool) (P : gmap Z ipc_port) (L : list event) (o b req : Z) (c : copied)
    (L' : list event) (P' : gmap Z ipc_port) (o' b' req' : Z) : Prop :=
  let same := L' = L /\ o' = o /\ b' = b /\ req' = req in
  if msgt_name =? MACH_MSG_TYPE_MAKE_SEND then made made_send P o b c P' /\ same else
  if msgt_name =? MACH_MSG_TYPE_MAKE_SEND_ONCE then made with_sonce P o b c P' /\ same else
  if msgt_name =? MACH_MSG_TYPE_MOVE_RECEIVE then received P L o b req c L' P' o' b' req' else
  if msgt_name =? MACH_MSG_TYPE_COPY_SEND then send_copied deadok P o b req c o' b' req' /\ L' = L else
  if msgt_name =? MACH_MSG_TYPE_MOVE_SEND then send_moved deadok P o b req c o' b' req' /\ L' = L else
  if msgt_name =? MACH_MSG_TYPE_MOVE_SEND_ONCE then sonce_moved deadok P o b req c o' b' req' /\ L' = L
  else c = copy_failed IP_NULL /\ same.

Lemma made_releasable make P o b c P' : made make P o b c P' -> releasable o P P' c.
Proof.
  unfold made. destruct (has b _); [intros (-> & p & _ & ->)|intros [-> ->]]; by apply releasable_null; auto.
Qed.

Lemma received_releasable P L o b req c L' P' o' b' req' : received P L o b req c L' P' o' b' req' -> releasable o P P' c.
Proof.
  unfold received. destruct (has b _); [intros (p & rq & _ & -> & _ & -> & _)|intros (-> & _ & -> & _)]; by apply releasable_null; auto.
Qed.

Lemma wf_right_copyin msgt_name deadok s P L o b req Q :
  hold s P L o b req T0 -> room P o 1 ->
  (msgt_name = MACH_MSG_TYPE_MOVE_RECEIVE -> has b MACH_PORT_TYPE_RECEIVE = true ->
    forall p, P !! o = Some p -> ip_tempowner p = true \/ ip_imp_task p = IIT_NULL) ->
  (forall c s' P' L' o' b' req', copied_in msgt_name deadok P L o b req c L' P' o' b' req' ->
    releasable o P P' c -> leaves s' P' L' o' b' req' (T0 ⊕ taken msgt_name c) -> Q c s') ->
  wp (ipc_right_copyin a name i msgt_name deadok) s Q.
Proof.
  intros Hh Hroom Himp HQ. pose proof Hh as [HF Hok]. unfold ipc_right_copyin, copied_in in *.
  apply wp_bind. eapply wf_is_get; [done|]. intros sp _ [Hw _]. wp_step. wp_step; [by apply Hw|].
  destruct (Z.eqb_spec msgt_name MACH_MSG_TYPE_MAKE_SEND) as [->|_].
  { eapply wf_copyin_make_send; [done|done|]. intros c s' P' Hm Hh'.
    eapply HQ; [by split; [exact Hm|]| |by apply hold_leaves]. exact (made_releasable _ _ _ _ _ _ Hm). }
  destruct (Z.eqb_spec msgt_name MACH_MSG_TYPE_MAKE_SEND_ONCE) as [->|_].
  { eapply wf_copyin_make_send_once; [done|done|]. intros c s' P' Hm Hh'.
    eapply HQ; [by split; [exact Hm|]| |by apply hold_leaves]. exact (made_releasable _ _ _ _ _ _ Hm). }
  destruct (Z.eqb_spec msgt_name MACH_MSG_TYPE_MOVE_RECEIVE) as [->|_].
  { eapply wf_copyin_move_receive; [done|done|by apply Himp|]. intros c s' P' L' o' b' req' Hc Hl.
    eapply HQ; [done| |done]. exact (received_releasable _ _ _ _ _ _ _ _ _ _ _ Hc). }
  destruct (Z.eqb_spec msgt_name MACH_MSG_TYPE_COPY_SEND) as [->|_].
  { eapply wf_copyin_copy_send; [done|done|]. intros c s' P' o' b' req' Hc Hrl Hl. by eapply HQ. }
  destruct (Z.eqb_spec msgt_name MACH_MSG_TYPE_MOVE_SEND) as [->|_].
  { eapply wf_copyin_move_send; [done|done|]. intros c s' P' o' b' req' Hc Hrl Hl. by eapply HQ. }
  destruct (Z.eqb_spec msgt_name MACH_MSG_TYPE_MOVE_SEND_ONCE) as [->|_].
  { eapply wf_copyin_move_send_once; [done|]. intros c s' P' o' b' req' Hc Hrl Hl. by eapply HQ. }
  wp_step. eapply (HQ _ s P L o b req); [done|by apply releasable_null|]. apply hold_leaves. split; [|done]. eapply fc_ext; [exact HF|].
  rewrite taken_failed. same_hand.
Qed.
End copyin.

(** ** Names *)
Section lookup.
Context {env : ipc_env}.

Lemma names_entry_named s a sp name X H l :
  space_inv X H l sp -> ks_spaces s !! a = Some sp -> is_active sp = true -> 0 <= name < 2 ^ 32 ->
  if names_entry sp name then exists c, named s a name c else forall c, ~ named s a name c.
Proof.
  intros HI Ha Hact Hw. unfold names_entry. set (i := MACH_PORT_INDEX name).
  assert (Hi0 : 0 <= i) by (unfold i; rewrite MACH_PORT_INDEX_div; apply Z.div_pos; lia).
  destruct (Z.ltb_spec i (is_table_size sp)) as [Hi|Hi]; cbn [andb].
  2:{ intros c (_ & sp' & Ha' & _ & Hr & _). simplify_eq. fold i in Hr. lia. }
  destruct (Z.eqb_spec (IE_BITS_GEN (ie_bits (entry_at (is_table sp) i))) (MACH_PORT_GEN name)) as [Hg|Hg]; cbn [andb].
  2:{ intros c (_ & sp' & Ha' & _ & _ & Hc & _ & Hg'). by simplify_eq. }
  destruct (Z.eqb_spec (IE_BITS_TYPE (ie_bits (entry_at (is_table sp) i))) MACH_PORT_TYPE_NONE) as [Ht|Ht]; cbn [negb].
  { intros c (_ & sp' & Ha' & _ & _ & Hc & Ht' & _). by simplify_eq. }
  exists (core (entry_at (is_table sp) i)). split; [done|]. exists sp. split_and!; try done. fold i.
  destruct (Z.eq_dec i 0) as [He|]; [|lia]. rewrite He, (proj1 (si_zero _ _ _ _ HI)) in Ht. done.
Qed.

(** [ipc_right_lookup_write]: what it finds is what the name stands for. *)
Lemma wf_lookup_write s T a sp name Q :
  kwf s T -> ks_spaces s !! a = Some sp -> a <> IS_NULL -> 0 <= name < 2 ^ 32 ->
  (is_active sp = false -> Q (inl KERN_INVALID_TASK) s) ->
  ((forall c, ~ named s a name c) -> is_active sp = true -> Q (inl KERN_INVALID_NAME) s) ->
  (forall c, named s a name c -> Q (inr (MACH_PORT_INDEX name)) s) ->
  wp (ipc_right_lookup_write a name) s Q.
Proof.
  intros HK Ha Hn Hw Hinact Hno Hyes. unfold ipc_right_lookup_write.
  wp_step. wp_step; [by destruct (Z.eqb_spec a IS_NULL)|]. apply wp_bind. eapply wp_is_get; [done|].
  destruct (is_active sp) eqn:Hact; cbn [negb]; [|wp_step; by apply Hinact].
  destruct (kw_spaces _ _ HK _ _ Ha Hact) as ((H & l & HI) & _).
  pose proof (names_entry_named s a sp name ∅ H l HI Ha Hact Hw) as Hnm.
  apply wp_bind. eapply wp_in_space; [done|]. eapply wp_Ok; [eapply ipc_entry_lookup_ok; [done|done|lia]|].
  rewrite put_space_id by done. destruct (names_entry sp name).
  - destruct Hnm as [c Hc]. wp_step. by apply (Hyes c).
  - wp_step. by apply Hno.
Qed.

(** *** [ipc_object_copyin] *)

(** What is left of an entry after copyin is freed if it is nothing: only the generation
    stays. *)
Definition left_bits (name b : Z) : Z := if IE_BITS_TYPE b =? MACH_PORT_TYPE_NONE then MACH_PORT_GEN name else b.

Lemma wf_leaves_end s0 a name s P L o b req T k Q :
  0 <= name < 2 ^ 32 -> leaves s0 a (MACH_PORT_INDEX name) name s P L o b req T ->
  (forall s', focus s0 a (MACH_PORT_INDEX name) name s' P L (Shut o (left_bits name b)) T -> wp k s' Q) ->
  wp (e ← ie_get a (MACH_PORT_INDEX name);
      _ ← mwhen (IE_BITS_TYPE (ie_bits e) =? MACH_PORT_TYPE_NONE) (entry_dealloc a name (MACH_PORT_INDEX name));
      k : K (kern_return_t + Z)) s Q.
Proof.
  intros Hw [HF Hok] HQ. apply wp_bind. eapply wf_ie_get; [done|done|]. intros ix. cbn [ie_bits].
  unfold left_bits in HQ. apply wp_bind. destruct Hok as [Hok|(Ht & _ & -> & ->)].
  - assert (Hn : IE_BITS_TYPE b <> MACH_PORT_TYPE_NONE) by (exact (entry_ok_used _ Hok)).
    rewrite (proj2 (Z.eqb_neq _ _) Hn) in HQ |- *. cbn [mwhen]. wp_step. eapply HQ.
    eapply fc_put_back; [done|done|exact HF|done|same_hand].
  - rewrite Ht in HF, HQ |- *. cbn [mwhen]. eapply wf_entry_dealloc; [done|exact HF|]. intros s1 HF1. eapply HQ.
    eapply fc_ext; [exact HF1|same_hand].
Qed.

(** The log after a right was copied in: what the disposition itself logged, the assertions
    dropped for a receive right, and the port-deleted notification.  The entry is what the
    disposition leaves of it, and no other port changed. *)
Definition importance_events (c : copied) : list event :=
  if (0 <? ci_assertcnt c) && ipc_importance_task_is_any_receiver_type current_task_imp_base
  then [ImportanceDrop current_task_imp_base (ci_assertcnt c)] else [].

Definition object_copied (s : kstate) (a name msgt_name : Z) (r : kern_return_t + Z) (s' : kstate) : Prop :=
  exists o b req c L1 P1 o' b' req',
    named s a name (o, b, req) /\
    copied_in msgt_name true (ks_ports s) (ks_log s) o b req c L1 P1 o' b' req' /\
    entry_is s' a (MACH_PORT_INDEX name) o' (left_bits name b') /\
    elsewhere o (ks_ports s) (ks_ports s') /\ (ci_release c = IP_NULL -> ks_ports s' = P1) /\
    r = (if decide (ci_kr c = KERN_SUCCESS) then inr (ci_object c) else inl (ci_kr c)) /\
    ks_log s' = L1 ++ importance_events c ++
                (if decide (ci_kr c = KERN_SUCCESS) then port_deleted_events name (ci_soright c) else []).

(** After the right has been taken *)
Lemma wf_copyin_tail s0 a i name s P0 P L o o' b' T msgt_name c Q :
  focus s0 a i name s P L (Shut o' b') (T ⊕ taken msgt_name c) -> hand_ok T -> releasable o P0 P c ->
  (forall s' P', elsewhere o P0 P' -> (ci_release c = IP_NULL -> P' = P) -> let kr := ci_kr c in
    focus s0 a i name s' P' (L ++ importance_events c ++
        (if decide (kr = KERN_SUCCESS) then port_deleted_events name (ci_soright c) else [])) (Shut o' b')
      (T ⊕ if decide (kr = KERN_SUCCESS) then disposition_rights (ipc_object_copyin_type msgt_name) (ci_object c) else []) ->
    Q (if decide (kr = KERN_SUCCESS) then inr (ci_object c) else inl kr) s') ->
  wp (_ ← mwhen ((0 <? ci_assertcnt c) && ipc_importance_task_is_any_receiver_type current_task_imp_base)
            (log (ImportanceDrop current_task_imp_base (ci_assertcnt c)));
      _ ← mwhen (negb (ci_release c =? IP_NULL)) (ip_release (ci_release c));
      if decide (ci_kr c = KERN_SUCCESS) then
        _ ← send_port_deleted (ci_soright c) name;
        mret (inr (ci_object c))
      else mret (inl (ci_kr c))) s Q.
Proof.
  intros HF HT [Hel Hrl] HQ. apply wp_bind.
  assert (Himp : forall R : kstate -> Prop,
    (forall s', focus s0 a i name s' P (L ++ importance_events c) (Shut o' b') (T ⊕ taken msgt_name c) -> R s') ->
    wp (mwhen ((0 <? ci_assertcnt c) && ipc_importance_task_is_any_receiver_type current_task_imp_base)
            (log (ImportanceDrop current_task_imp_base (ci_assertcnt c)))) s (fun _ => R)).
  { intros R HR. unfold importance_events in HR. destruct (_ && _); cbn [mwhen].
    - eapply wf_log; [done|]. intros s1 HF1. apply HR. eapply fc_ext; [exact HF1|]. intros r. unfold minus. simpl. lia.
    - apply (wp_ret tt). apply HR. by rewrite app_nil_r. }
  apply Himp. clear Himp. intros s1 HF1. apply wp_bind.
  set (kept := when (bool_decide (ci_kr c = KERN_SUCCESS))
    (disposition_rights (ipc_object_copyin_type msgt_name) (ci_object c) ++ sonce_rights (ci_soright c))).
  assert (Hk : hand_ok (T ⊕ kept)).
  { apply hand_ok_plus; [done|]. apply backed_when, backed_app; [apply backed_disposition|apply backed_sonce]. }
  assert (Hp : exists p, ci_release c <> IP_NULL -> P !! ci_release c = Some p).
  { destruct (Z.eq_dec (ci_release c) IP_NULL) as [Hn|Hn]; [by exists port_zero|]. destruct (Hrl Hn) as (-> & p & Hp). by exists p. }
  destruct Hp as [p Hp]. eapply (wf_release_relport _ _ _ _ (T ⊕ kept) Hk _ _ _ _ _ p); [|done|].
  - eapply fc_ext; [exact HF1|]. unfold taken. fold kept. intros r. unfold plus. rewrite cnt_app. lia.
  - intros s2 P2 HF2 HP2. unfold kept in HF2. cbv zeta in HQ.
    assert (Hend : elsewhere o P0 P2 /\ (ci_release c = IP_NULL -> P2 = P)).
    { subst P2. destruct (Z.eqb_spec (ci_release c) IP_NULL) as [|Hn]; [done|]. split; [|by intros]. rewrite (proj1 (Hrl Hn)). by apply elsewhere_unref. }
    destruct Hend as [He1 He2]. destruct (decide (ci_kr c = KERN_SUCCESS)) as [Hs|Hs].
    + rewrite bool_decide_eq_true_2 in HF2 by done. cbn [when] in HF2.
      apply wp_bind. eapply wf_send_port_deleted; [exact HF2|]. intros s3 HF3. wp_step. apply (HQ s3 P2); [done|done|].
      rewrite app_assoc. eapply fc_ext; [exact HF3|]. intros r. unfold plus, minus. rewrite cnt_app. lia.
    + rewrite bool_decide_eq_false_2 in HF2 by done. wp_step. apply (HQ s2 P2); [done|done|]. rewrite app_nil_r.
      eapply fc_ext; [exact HF2|done].
Qed.
End lookup.

Lemma wf_object_copyin {env : ipc_env} s T a sp name msgt_name :
  kwf s T -> hand_ok T -> ks_spaces s !! a = Some sp -> a <> IS_NULL -> 0 <= name < 2 ^ 32 ->
  (forall o b req p, named s a name (o, b, req) -> ks_ports s !! o = Some p ->
    ip_references p + 1 < IO_MAX_REFERENCES /\
    (msgt_name = MACH_MSG_TYPE_MOVE_RECEIVE -> has b MACH_PORT_TYPE_RECEIVE = true -> ip_tempowner p = true \/ ip_imp_task p = IIT_NULL)) ->
  wp (ipc_object_copyin a name msgt_name) s (fun r s' =>
    (is_active sp = false /\ r = inl KERN_INVALID_TASK /\ s' = s) \/
    ((forall c, ~ named s a name c) /\ r = inl KERN_INVALID_NAME /\ s' = s) \/
    (object_copied s a name msgt_name r s' /\ framed a (MACH_PORT_INDEX name) s s' /\
     kwf s' (T ⊕ match r with
                 | inr object => disposition_rights (ipc_object_copyin_type msgt_name) object
                 | inl _ => []
                 end))).
Proof.
  intros HK HT Ha Hn Hw Hports. unfold ipc_object_copyin. apply wp_bind.
  eapply wf_lookup_write; [done|done|done|done|intros; wp_step; by left|intros; wp_step; right; by left|].
  intros [[o b] req] Hnm. pose proof (holding_start s a name T o b req HK Hnm) as Hh.
  apply wp_bind. eapply wf_right_copyin; [done|done|done|exact Hh|..].
  - intros p Ho. by apply (Hports o b req p).
  - intros Hm Hb p Ho. by apply (Hports o b req p).
  - intros c s1 P1 L1 o1 b1 req1 Hc Hrl Hl. eapply wf_leaves_end; [done|exact Hl|]. intros s2 HF2.
    eapply wf_copyin_tail; [exact HF2|done|exact Hrl|]. intros s3 P3 Hel HP3 kr HF3. right. right.
    pose proof (fc_ports _ _ _ _ _ _ _ _ _ HF3) as HP. apply shut_end in HF3 as (HK3 & Hfr & HL3 & He). split_and!; [|done|].
    + exists o, b, req, c, L1, P1, o1, b1, req1. rewrite HP. by split_and!.
    + unfold kr in *. by destruct (decide (ci_kr c = KERN_SUCCESS)).
Qed.

(** C31 Copying a right in from a space, for any disposition: [ipc_object_copyin] never fails
    an assertion in a balanced state, if the port can take one more reference and, for a
    receive right to be moved, no kernel object sits in its importance field (which the code
    asserts).  It refuses inactive spaces and names that are not in use, without doing
    anything.  Otherwise the named entry is afterwards what the disposition leaves of it: one
    user reference less for a moved send right, nothing and freed with the last one, without
    the receive right, or as it was; [MAKE_SEND] counts in the port, and a moved receive right
    leaves its port adrift.  The caller has exactly the right of the resulting type: the state
    is balanced with it, the notifications due are sent, and no other entry or port and no
    port set or message changed. *)
Theorem ipc_object_copyin_correct {env : ipc_env} s T a sp name msgt_name :
  kwf s T -> hand_ok T -> ks_spaces s !! a = Some sp -> a <> IS_NULL -> 0 <= name < 2 ^ 32 ->
  (forall o b req p, named s a name (o, b, req) -> ks_ports s !! o = Some p ->
    ip_references p + 1 < IO_MAX_REFERENCES /\
    (msgt_name = MACH_MSG_TYPE_MOVE_RECEIVE -> has b MACH_PORT_TYPE_RECEIVE = true -> ip_tempowner p = true \/ ip_imp_task p = IIT_NULL)) ->
  wp (ipc_object_copyin a name msgt_name) s (fun r s' =>
    (is_active sp = false /\ r = inl KERN_INVALID_TASK /\ s' = s) \/
    ((forall c, ~ named s a name c) /\ r = inl KERN_INVALID_NAME /\ s' = s) \/
    (object_copied s a name msgt_name r s' /\ framed a (MACH_PORT_INDEX name) s s' /\
     kwf s' (T ⊕ match r with
                 | inr object => disposition_rights (ipc_object_copyin_type msgt_name) object
                 | inl _ => []
                 end))).
Proof. apply wf_object_copyin. Qed.

(** ** Witnesses, on the sample kernel *)
Module CopyExample.
Import Sample.

Lemma sample_entry name o b req :
  named sample 0x1000 name (o, b, req) -> core (entry_at (is_table space1) (MACH_PORT_INDEX name)) = (o, b, req).
Proof.
  intros (_ & sp & Hs & _ & _ & Hc & _). assert (sp = space1) as -> by (vm_compute in Hs; by injection Hs). done.
Qed.

Lemma ipc_object_copyin_witness :
  exists s', ipc_object_copyin 0x1000 0x204 MACH_MSG_TYPE_MOVE_SEND sample = Ok (inr 0x200, s') /\
    object_copied sample 0x1000 0x204 MACH_MSG_TYPE_MOVE_SEND (inr 0x200) s' /\
    kwf s' (hand [] ⊕ [RRef 0x200; RSend 0x200]).
Proof.
  destruct (wp_inv _ _ _ (ipc_object_copyin_correct sample (hand []) 0x1000 space1 0x204 MACH_MSG_TYPE_MOVE_SEND
    sample_kwf empty_hand eq_refl ltac:(done) ltac:(done)
    ltac:(intros o b req p Hn Hp; apply sample_entry in Hn; vm_compute in Hn; injection Hn as <- <- <-;
          vm_compute in Hp; injection Hp as <-; by vm_compute; auto)))
    as (r & s' & Hrun & Hpost).
  assert (Hr : match ipc_object_copyin 0x1000 0x204 MACH_MSG_TYPE_MOVE_SEND sample with
               | Ok (r, _) => r = inr 0x200
               | Fail _ => False
               end) by (vm_compute; reflexivity).
  rewrite Hrun in Hr. subst r. exists s'. split; [exact Hrun|].
  destruct Hpost as [(_ & Hr & _)|[(_ & Hr & _)|(Hc & _ & HK)]]; [discriminate Hr|discriminate Hr|split; [exact Hc|exact HK]].
Defined.
End CopyExample.
