(* ===== verification/IpcDesk.v ===== *)
(** * The desk

    The invariant inside a destruction, where many ports, messages and the current thread's
    queue change but no space does: the state as it is, with the rights of at most one message
    spread out.  [desk s ev T] is the focus of IpcFocus without an entry in work; [swept] says
    what a destruction leaves alone. *)

From S2P Require Import IpcTypes IpcBits IpcHash IpcEntry IpcGrow IpcState IpcLedger IpcPort IpcRequest IpcDestroy IpcRight IpcFocus IpcSample IpcRightOk IpcDeltaOk IpcPortOk.

(** ** Ports grow old *)

(** Ports go from live to dead and away; a dead port's requests stay as they are. *)
Definition aged (P P' : gmap Z ipc_port) : Prop :=
  forall o p', P' !! o = Some p' -> exists p, P !! o = Some p /\ (ip_active p' = true -> ip_active p = true) /\
    (ip_active p = false -> ip_requests p' = ip_requests p /\ ip_bits p' = ip_bits p).

#[global] Instance aged_refl : Reflexive aged.
Proof. intros P o p Ho. by exists p. Qed.

#[global] Instance aged_trans : Transitive aged.
Proof.
  intros P1 P2 P3 H1 H2 o p3 H. destruct (H2 o p3 H) as (p2 & Hp2 & Ha2 & Hd2).
  destruct (H1 o p2 Hp2) as (p1 & Hp1 & Ha1 & Hd1). exists p1. split_and!; [done|auto|]. intros Hd.
  destruct (Hd1 Hd) as [Hq1 Hb1]. assert (Hd' : ip_active p2 = false) by (unfold ip_active in *; by rewrite Hb1).
  destruct (Hd2 Hd') as [Hq2 Hb2]. split; congruence.
Qed.

Lemma aged_insert P o p p' :
  P !! o = Some p -> (ip_active p' = true -> ip_active p = true) ->
  (ip_active p = false -> ip_requests p' = ip_requests p /\ ip_bits p' = ip_bits p) -> aged P (<[o := p']> P).
Proof.
  intros Ho Ha Hd x q. rewrite lookup_insert. destruct (decide (o = x)) as [<-|]; [intros [= <-]; by exists p|].
  intros Hx. by exists q.
Qed.

Lemma aged_delete P o : aged P (delete o P).
Proof. intros x q [_ Hx]%lookup_delete_Some. by exists q. Qed.

Lemma aged_unref P o p p' :
  P !! o = Some p -> ip_bits p' = ip_bits p -> ip_requests p' = ip_requests p -> aged P (unref P o p').
Proof.
  intros Ho Hb Hq. unfold unref. destruct (_ =? 1); [apply aged_delete|]. eapply aged_insert; [done| |done].
  unfold ip_active. simpl. by rewrite Hb.
Qed.

(** What a sweep leaves alone, and that it creates nothing *)
Record swept (s s' : kstate) : Prop := {
  sw_spaces : ks_spaces s' = ks_spaces s;
  sw_psets : ks_psets s' = ks_psets s;
  sw_kmsgs : forall k, ks_kmsgs s !! k = None -> ks_kmsgs s' !! k = None;
  sw_ports : aged (ks_ports s) (ks_ports s');
  sw_thread : ks_ith_assertions s' = ks_ith_assertions s;
  sw_log : exists es, ks_log s' = ks_log s ++ es;
}.

#[global] Instance swept_refl : Reflexive swept.
Proof. intros s. split; try done. exists []. by rewrite app_nil_r. Qed.

#[global] Instance swept_trans : Transitive swept.
Proof.
  intros s1 s2 s3 [] []. split; try congruence; [auto|by etrans|].
  destruct sw_log0 as [es1 H1], sw_log1 as [es2 H2]. exists (es1 ++ es2). by rewrite H2, H1, app_assoc.
Qed.

Section desk.
Context {env : ipc_env}.

Record desk (s : kstate) (ev : view) (T : right -> Z) : Prop := {
  dk_ledger : ledger s (T ⊖ ev_rights 0 0 ev);
  dk_objects : objects_ok s;
  dk_spaces : forall a sp, ks_spaces s !! a = Some sp -> space_wf sp;
  dk_mail : match ev with Rest => True | Mail k m => ks_kmsgs s !! k = Some m | _ => False end;
}.

Lemma dk_kwf s T : desk s Rest T <-> kwf s T.
Proof.
  split; intros []; split; try done; (eapply ledger_ext; [done|]); intros r; unfold minus; simpl; lia.
Qed.

Lemma dk_ext s ev T T' : desk s ev T -> (forall r, T' r = T r) -> desk s ev T'.
Proof. intros [] HT. split; try done. eapply ledger_ext; [done|]. intros r. unfold minus. by rewrite HT. Qed.

Lemma dk_start s ev T : desk s ev T -> focus s (nowhere s) 0 0 s (ks_ports s) (ks_log s) ev T.
Proof.
  intros [HL HO HS HM]. split; try done.
  - by destruct ev.
  - intros b sp Hb _. by eapply HS.
  - destruct ev; try done.
    + intros sp Hsp. by eapply HS.
    + split; [done|]. intros sp Hsp. by eapply HS.
Qed.

(** Nothing but ports and the log changed. *)
Definition at_desk (ev : view) : Prop := match ev with Rest | Mail _ _ => True | _ => False end.

Lemma dk_end s s' P L ev T :
  focus s (nowhere s) 0 0 s' P L ev T -> at_desk ev ->
  desk s' ev T /\ ks_ports s' = P /\ ks_log s' = L /\ only_ports s s'.
Proof.
  intros [HP HLg HL HO HS HSp HF] Hev.
  assert (Hon : only_ports s s').
  { destruct HF as (H1 & H2 & H3 & H4 & H5). split_and!; [|done..].
    apply map_eq. intros b. destruct (decide (b = nowhere s)) as [->|Hb]; [|by apply H4].
    rewrite nowhere_none in *. by inversion H5. }
  split_and!; [|done..]. split; [by destruct ev|done| |by destruct ev; try done; apply HSp].
  intros b sp Hb. destruct (decide (b = nowhere s)) as [->|Hne]; [|by eapply HS].
  rewrite (proj1 Hon), nowhere_none in Hb. done.
Qed.

Lemma dk_at_desk s ev T : desk s ev T -> at_desk ev.
Proof. intros [_ _ _ HM]. by destruct ev. Qed.

(** After a step that changed ports and added to the log *)
Lemma dk_step s s' P L es ev T :
  focus s (nowhere s) 0 0 s' P L ev T -> at_desk ev -> L = ks_log s ++ es -> aged (ks_ports s) P ->
  desk s' ev T /\ swept s s' /\ ks_kmsgs s' = ks_kmsgs s /\ ks_ith_messages s' = ks_ith_messages s /\ ks_ports s' = P.
Proof.
  intros HF Hev HL Ha. apply dk_end in HF as (HD & HP & HLg & (H1 & H2 & H3 & H4 & H5)); [|done].
  split_and!; try done. split; try done; [by rewrite H3|by rewrite HP|]. exists es. congruence.
Qed.

(** *** The rules *)

Definition stays (s s' : kstate) : Prop :=
  swept s s' /\ ks_kmsgs s' = ks_kmsgs s /\ ks_ith_messages s' = ks_ith_messages s.

#[global] Instance stays_refl : Reflexive stays.
Proof. by intros s. Qed.
#[global] Instance stays_trans : Transitive stays.
Proof. intros s1 s2 s3 (H1 & H2 & H3) (H4 & H5 & H6). split_and!; [by etrans|congruence..]. Qed.

Lemma dk_release_send s ev T o Q :
  desk s ev (T ⊕ [RSend o; RRef o]) -> hand_ok T -> IP_VALID o = true ->
  (forall s', desk s' ev T -> stays s s' -> Q tt s') -> wp (ipc_port_release_send o) s Q.
Proof.
  intros HD HT Hv HQ. eapply wf_release_send; [by apply dk_start|done|done|]. intros s' p Ho Hs HF.
  assert (Hp : ip_bits (dropped p).1 = ip_bits p /\ ip_requests (dropped p).1 = ip_requests p).
  { unfold dropped, drop_send. destruct (ip_active p); [|done]. by destruct (_ && _). }
  destruct (dk_step _ _ _ _ _ _ _ HF (dk_at_desk _ _ _ HD) eq_refl) as (HD' & Hsw & Hk & Hi & _); [by eapply aged_unref; [|apply Hp..]|].
  by apply HQ.
Qed.

Lemma dk_release_sonce s ev T o Q :
  desk s ev (T ⊕ [RSonce o; RRef o]) -> hand_ok T -> IP_VALID o = true ->
  (forall s', desk s' ev T -> stays s s' -> Q tt s') -> wp (ipc_port_release_sonce o) s Q.
Proof.
  intros HD HT Hv HQ. eapply wf_release_sonce; [by apply dk_start|done|done|]. intros s' p Ho Hs HF.
  destruct (dk_step _ _ _ _ [] _ _ HF (dk_at_desk _ _ _ HD)) as (HD' & Hsw & Hk & Hi & _);
    [by rewrite app_nil_r|by eapply aged_unref|]. by apply HQ.
Qed.

Lemma dk_log s ev T e Q :
  desk s ev (T ⊕ event_rights e) -> (forall s', desk s' ev T -> stays s s' -> ks_log s' = ks_log s ++ [e] ->
    ks_ports s' = ks_ports s -> Q tt s') -> wp (log e) s Q.
Proof.
  intros HD HQ. eapply wf_log; [by apply dk_start|]. intros s' HF. pose proof (fc_log _ _ _ _ _ _ _ _ _ HF) as HL.
  destruct (dk_step _ _ _ _ _ _ _ HF (dk_at_desk _ _ _ HD) eq_refl) as (HD' & Hsw & Hk & Hi & HP); [reflexivity|].
  apply HQ; [|done|done|done]. eapply dk_ext; [done|]. intros r. unfold plus, minus. lia.
Qed.

Lemma dk_release s ev T o p Q :
  desk s ev (T ⊕ [RRef o]) -> hand_ok T -> ks_ports s !! o = Some p ->
  (forall s', desk s' ev T -> stays s s' -> ks_ports s' = unref (ks_ports s) o p -> ks_log s' = ks_log s -> Q tt s') ->
  wp (io_release o) s Q.
Proof.
  intros HD HT Ho HQ. eapply wf_release; [by apply dk_start|done| |].
  { pose proof (live_and_ref T o HT). unfold plus. cbn [cnt]. hand_at. lia. }
  intros s' P' HF ->. pose proof (fc_log _ _ _ _ _ _ _ _ _ HF) as HL.
  destruct (dk_step _ _ _ _ [] _ _ HF (dk_at_desk _ _ _ HD)) as (HD' & Hsw & Hk & Hi & HP);
    [by rewrite app_nil_r|by eapply aged_unref|].
  apply HQ; [|done|done|done]. eapply dk_ext; [done|]. intros r. unfold plus, minus. cbn [cnt]. lia.
Qed.

(** An object with a reference that is no port set is a port. *)
Lemma dk_port s ev T o : desk s ev T -> 0 < T (RRef o) -> ks_psets s !! o = None -> exists p, ks_ports s !! o = Some p.
Proof.
  intros HD HR Hps. destruct (fc_others _ _ _ _ _ _ _ _ _ (dk_start _ _ _ HD)) as (s1 & Hacc).
  specialize (Hacc (RRef o)). unfold accounts in Hacc. cbn [target] in Hacc. pose proof (held_nonneg s1 (RRef o)).
  destruct (ks_ports s !! o) as [p|]; [by exists p|]. rewrite Hps in Hacc. lia.
Qed.

(** Rights to a dead port that are only bounded can be forgotten. *)
Lemma dk_drop s ev T l : desk s ev T -> Forall (fun r => slack (ks_ports s) r = true) l -> desk s ev (T ⊖ l).
Proof.
  intros HD Hl. pose proof (fc_drop _ _ _ _ _ _ _ _ _ l (dk_start _ _ _ HD) Hl) as HF.
  apply dk_end in HF as (HD' & _); [done|by eapply dk_at_desk].
Qed.
End desk.

(** ** Steps that no focus describes *)
Section desk_steps.
Context {env : ipc_env}.

(** Only fields that hold no rights changed. *)
Lemma dk_same s s' ev T :
  desk s ev T -> ks_ports s' = ks_ports s -> ks_psets s' = ks_psets s -> ks_spaces s' = ks_spaces s ->
  ks_kmsgs s' = ks_kmsgs s -> ks_log s' = ks_log s -> ks_ith_messages s' = ks_ith_messages s -> desk s' ev T.
Proof.
  intros [HL HO HS HM] H1 H2 H3 H4 H5 H6. split.
  - intros r. specialize (HL r). unfold held, accounts in *. by rewrite H1, H2, H3, H4, H5, H6.
  - by eapply objects_ok_same.
  - by rewrite H3.
  - by rewrite H4.
Qed.

(** A port changes. *)
Lemma dk_put_port s ev T o p p' :
  desk s ev T -> ks_ports s !! o = Some p -> port_ok o p' -> (ip_active p' = true -> ip_active p = true) ->
  desk (put_port s o p') ev (fun r => T r + port_move o p p' r).
Proof.
  intros HD Ho Hok Hact. pose proof (fc_put_port _ _ _ _ _ _ _ _ _ o p p' (dk_start _ _ _ HD) Ho Hok Hact) as HF.
  apply dk_end in HF as (HD' & _); [done|by eapply dk_at_desk].
Qed.

Lemma dk_transit s ev T o p :
  desk s ev (T ⊕ home_rights o p) -> hand_ok T -> ks_ports s !! o = Some p -> ip_active p = true ->
  desk s ev (fun r => (T ⊕ home_rights o p) r + transit_count p * ind r (RTransit o)).
Proof.
  intros HD HT Ho Ha. pose proof (fc_transit _ _ _ _ _ _ _ _ _ o p (dk_start _ _ _ HD) HT Ho Ha) as HF.
  apply dk_end in HF as (HD' & _); [done|by eapply dk_at_desk].
Qed.

(** A message in hand goes to the empty queue of the thread. *)
Lemma dk_enqueue_first s ev T k :
  desk s ev (T ⊕ [RMsg k]) -> ks_ith_messages s = [] -> desk (set_ks_ith_messages [k] s) ev T.
Proof.
  intros [HL HO HS HM] Hi. split; try done.
  - intros r. specialize (HL r). unfold held, plus, minus in *. rewrite Hi in HL.
    change (accounts (set_ks_ith_messages [k] s) r) with (accounts s r). simpl in *.
    match goal with H : accounts s r ?x |- accounts s r ?y => replace y with x by lia end. done.
  - by eapply objects_ok_same.
Qed.

(** Messages of a port go to the end of the thread's queue. *)
Lemma dk_enqueue s ev T l :
  desk s ev (T ⊕ queue_rights l) -> desk (set_ks_ith_messages (ks_ith_messages s ++ l) s) ev T.
Proof.
  intros HD0. set (d := match ks_ith_messages s, l with [], k :: _ => [RPlain k] | _, _ => [] end).
  assert (HD : desk s ev (T ⊕ queue_rights l ⊖ d)).
  { apply dk_drop; [done|]. unfold d. destruct (ks_ith_messages s), l; by constructor. }
  assert (Hq : forall r, cnt r (reap_rights (ks_ith_messages s ++ l)) + cnt r d =
    cnt r (reap_rights (ks_ith_messages s)) + cnt r (queue_rights l)).
  { intros r. unfold reap_rights, queue_rights, d. rewrite !fmap_app, !cnt_app.
    destruct (ks_ith_messages s) as [|x q]; [destruct l; rewrite ?fmap_cons; cbn [app tail fmap list_fmap cnt]; lia|].
    cbn [app tail cnt]. rewrite fmap_app, cnt_app. lia. }
  destruct HD as [HL HO HS HM]. split; try done.
  - intros r. specialize (HL r). unfold held, plus, minus in *.
    change (accounts (set_ks_ith_messages (ks_ith_messages s ++ l) s) r) with (accounts s r).
    simpl. specialize (Hq r).
    match goal with H : accounts s r ?x |- accounts s r ?y => replace y with x by lia end. done.
  - by eapply objects_ok_same.
Qed.

(** Calls that leave the model take the rights they are given. *)
Lemma dk_logged s ev T es :
  desk s ev (T ⊕ (es ≫= event_rights)) -> desk (set_ks_log (ks_log s ++ es) s) ev T.
Proof.
  intros [HL HO HS HM]. split; try done.
  - intros r. specialize (HL r). unfold held, plus, minus in *.
    change (accounts (set_ks_log (ks_log s ++ es) s) r) with (accounts s r).
    simpl. rewrite bind_app, cnt_app.
    match goal with H : accounts s r ?x |- accounts s r ?y => replace y with x by lia end. done.
  - by eapply objects_ok_same.
Qed.

(** The message at hand changes, its rights are given back to it at the end. *)
Lemma dk_kmsg s k m m' T :
  desk s (Mail k m) T -> kmsg_ok m' -> msgh_bits m' = msgh_bits m -> desk (set_ks_kmsgs (<[k := m']> (ks_kmsgs s)) s) (Mail k m') T.
Proof.
  intros [HL HO HS HM] Hm' Hbits. split.
  - intros r. specialize (HL r). unfold held, minus in *. simpl. simpl in HL.
    rewrite (mcnt_insert _ _ _ _ _ _ HM). unfold accounts in *. simpl.
    match goal with H : context [match ks_ports s !! _ with Some p => agree _ ?x _ | _ => _ end] |-
      context [match ks_ports s !! _ with Some p => agree _ ?y _ | _ => _ end] => replace y with x by lia end.
    destruct r; try done; cbn [target] in *; rewrite lookup_insert; (destruct (decide (k = kmsg)) as [<-|]; [|done]);
      rewrite HM in HL; [done|]. by rewrite Hbits.
  - destruct HO as [H1 H2 H3 H4]. split; try done. intros k' m1. simpl. rewrite lookup_insert.
    destruct (decide _) as [<-|]; [congruence|apply H4].
  - done.
  - simpl. apply lookup_insert_eq.
Qed.

(** Take a queued message to the desk. *)
Lemma dk_open s T k m :
  desk s Rest T -> ks_kmsgs s !! k = Some m -> desk s (Mail k m) (T ⊕ kmsg_rights m).
Proof.
  intros [HL HO HS HM] Hk. split; try done. eapply ledger_ext; [done|]. intros r. unfold plus, minus. simpl. lia.
Qed.

(** Messages hold no messages. *)
Definition about_kmsg (r : right) : Prop := match r with RMsg _ | RPlain _ => True | _ => False end.

Lemma cnt_msg_disposition r d o : about_kmsg r -> cnt r (disposition_rights d o) = 0.
Proof.
  intros Hr. unfold disposition_rights. destruct (IO_VALID o); [|done]. destruct r; try done;
  by destruct (d =? MACH_MSG_TYPE_PORT_SEND), (d =? MACH_MSG_TYPE_PORT_SEND_ONCE), (d =? MACH_MSG_TYPE_PORT_RECEIVE).
Qed.

Lemma cnt_msg_carried r circular d o : about_kmsg r -> cnt r (carried_rights circular d o) = 0.
Proof. intros Hr. unfold carried_rights. rewrite cnt_app, cnt_msg_disposition by done. destruct r; try done; by destruct (_ && _). Qed.

Lemma cnt_bind_none {A} r (f : A -> list right) l : (forall x, cnt r (f x) = 0) -> cnt r (l ≫= f) = 0.
Proof. intros Hf. induction l as [|x l IH]; [done|]. by rewrite bind_cons, cnt_app, Hf, IH. Qed.

Lemma cnt_msg_kmsg r m : about_kmsg r -> cnt r (kmsg_rights m) = 0.
Proof.
  intros Hr. unfold kmsg_rights. rewrite !cnt_app, !cnt_msg_disposition by done.
  assert (Hb : forall c, cnt r (msgh_descriptors m ≫= descriptor_rights c) = 0).
  { intros c. apply cnt_bind_none. intros []; simpl; [by apply cnt_msg_carried|done| |done].
    apply cnt_bind_none. intros. by apply cnt_msg_carried. }
  destruct (has _ _), (negb _); cbn [when cnt]; rewrite ?Hb; try done; by destruct r.
Qed.

(** A queued message is there, and is queued once. *)
Lemma dk_queued s ev T k : desk s ev T -> (forall r, 0 <= T r) -> k ∈ ks_ith_messages s ->
  (exists m, ks_kmsgs s !! k = Some m) /\ cnt (RMsg k) (RMsg <$> ks_ith_messages s) = 1.
Proof.
  intros [HL HO HS HM] HT Hk. specialize (HL (RMsg k)). unfold accounts, minus in HL. cbn [target] in HL.
  assert (Hev : cnt (RMsg k) (ev_rights 0 0 ev) = 0) by (destruct ev; try done; by apply cnt_msg_kmsg). rewrite Hev in HL.
  assert (Hc : 1 <= cnt (RMsg k) (RMsg <$> ks_ith_messages s)) by (by apply cnt_in, list_elem_of_fmap_2).
  assert (Hh : cnt (RMsg k) (RMsg <$> ks_ith_messages s) <= held s (RMsg k)).
  { unfold held. pose proof (mcnt_nonneg space_rights (RMsg k) (ks_spaces s)).
    pose proof (mcnt_nonneg (fun _ => port_rights) (RMsg k) (ks_ports s)).
    pose proof (mcnt_nonneg (fun _ => kmsg_rights) (RMsg k) (ks_kmsgs s)).
    pose proof (cnt_nonneg (RMsg k) (ks_log s ≫= event_rights)). unfold reap_rights. rewrite cnt_app, (cnt_fmap_none _ RPlain) by done. lia. }
  specialize (HT (RMsg k)). destruct (ks_kmsgs s !! k) as [m|]; [|lia]. split; [by exists m|lia].
Qed.

Lemma rmqueue_head k l : cnt (RMsg k) (RMsg <$> k :: l) = 1 -> ipc_kmsg_rmqueue (k :: l) k = l.
Proof.
  rewrite fmap_cons. cbn [cnt]. rewrite ind_eq. unfold ipc_kmsg_rmqueue. rewrite filter_cons_False by auto.
  induction l as [|x l IH]; [done|]. rewrite fmap_cons. cbn [cnt]. pose proof (cnt_nonneg (RMsg k) (RMsg <$> l)). intros Hc.
  destruct (decide (x = k)) as [->|Hx]; [rewrite ind_eq in Hc; lia|]. rewrite filter_cons_True by done.
  rewrite ind_ne in Hc by congruence. by rewrite IH by lia.
Qed.

(** The first message of the queue is taken out of it. *)
Lemma dk_pop s ev T k l :
  desk s ev T -> ks_ith_messages s = k :: l -> desk (set_ks_ith_messages l s) ev (T ⊕ [RMsg k]).
Proof.
  intros [HL HO HS HM] Hi. set (d := match l with [] => [] | j :: _ => [RPlain j] end).
  assert (HD : desk (set_ks_ith_messages l s) ev (T ⊕ [RMsg k] ⊕ d)).
  { split; try done; [|by eapply objects_ok_same].
    intros r. specialize (HL r). unfold held, plus, minus in *. rewrite Hi in HL.
    change (accounts (set_ks_ith_messages l s) r) with (accounts s r).
    assert (Hd : cnt r (reap_rights (k :: l)) = cnt r (reap_rights l) + ind r (RMsg k) + cnt r d).
    { unfold reap_rights, d. rewrite !cnt_app, fmap_cons. cbn [tail cnt].
      destruct l; rewrite ?fmap_cons; cbn [tail fmap list_fmap cnt]; lia. }
    simpl. match goal with H : accounts s r ?x |- accounts s r ?y => replace y with x by lia end. done. }
  eapply dk_ext; [apply (dk_drop _ _ _ d HD)|intros r; unfold plus, minus; lia].
  unfold d. destruct l; by constructor.
Qed.

(** The message at hand is freed. *)
Lemma dk_free s k m T :
  desk s (Mail k m) (T ⊕ [RMsg k]) -> desk (set_ks_kmsgs (delete k (ks_kmsgs s)) s) Rest T.
Proof.
  intros [HL HO HS HM]. split; try done.
  - intros r. specialize (HL r). unfold held, plus, minus in *. simpl in HL |- *.
    rewrite (mcnt_delete _ _ _ _ _ HM). unfold accounts in *. simpl.
    destruct (decide (r = RMsg k)) as [->|Hne].
    + cbn [target] in *. rewrite lookup_delete_eq. rewrite HM, ind_eq in HL. lia.
    + rewrite ind_ne in HL by done.
      match goal with H : context [match ks_ports s !! _ with Some p => agree _ ?x _ | _ => _ end] |-
        context [match ks_ports s !! _ with Some p => agree _ ?y _ | _ => _ end] => replace y with x by lia end.
      destruct r; try done; cbn [target] in *; [by rewrite lookup_delete_ne by congruence|].
      rewrite lookup_delete. by destruct (decide _).
  - destruct HO as [O1 O2 O3 O4]. split; try done. intros k' m'. simpl. intros [_ ?]%lookup_delete_Some. by eapply O4.
Qed.

(** Messages queued on a port, and those after the first the thread is to reap, are not circular. *)
Lemma dk_plain s ev T k m :
  desk s ev T -> (forall r, 0 <= T r) -> 0 < held s (RPlain k) -> ks_kmsgs s !! k = Some m ->
  has (msgh_bits m) MACH_MSGH_BITS_CIRCULAR = false.
Proof.
  intros [HL HO HS HM] HT Hh Hk. specialize (HL (RPlain k)). unfold accounts, minus in HL. cbn [target] in HL.
  rewrite Hk in HL. destruct (has _ _); [|done]. specialize (HL eq_refl). specialize (HT (RPlain k)).
  assert (Hev : cnt (RPlain k) (ev_rights 0 0 ev) = 0); [|lia].
  destruct ev as [| | |j mj]; try done. by apply cnt_msg_kmsg.
Qed.
End desk_steps.
