(* ===== verification/IpcDestroyOk.v ===== *)
(** * Destroying ports and messages (ipc_port.c, ipc_kmsg.c, ipc_mqueue.c)

    [ipc_port_destroy] keeps the kernel balanced and ends: the messages queued on a port, the
    rights they carry, the ports whose receive rights are among them and the messages queued
    on those are all taken down, by one loop over the current thread's queue. *)

From S2P Require Import IpcTypes IpcBits IpcHash IpcEntry IpcGrow IpcState IpcLedger IpcPort IpcRequest IpcDestroy IpcRight IpcFocus IpcSample IpcRightOk IpcDeltaOk IpcPortOk IpcDesk.

(** ** A port dies, or goes in limbo *)
Section death.
Context {env : ipc_env}.

(** The assertions a dying port had for a task, and the port without them *)
Definition owed_assertions (p : ipc_port) : Z * Z :=
  if ip_tempowner p then (if ip_imp_task p =? IIT_NULL then (IIT_NULL, 0) else (ip_imp_task p, ip_impcount p))
  else (IIT_NULL, ip_impcount p).
Definition disowned (p : ipc_port) : ipc_port :=
  if ip_tempowner p then (if ip_imp_task p =? IIT_NULL then p else set_ip_imp_task IIT_NULL p)
  else if ip_pdrequest p =? IP_NULL then p else set_ip_tempowner true p.

Lemma wp_destroy_assertions s o p top Q :
  ks_ports s !! o = Some p -> (ip_tempowner p = true -> top = true) ->
  Q (owed_assertions p) (put_port s o (disowned p)) -> wp (destroy_assertions o top) s Q.
Proof.
  intros Ho Htop HQ. unfold destroy_assertions, owed_assertions, disowned in *.
  apply wp_bind, (wp_ip_get o p); [done|]. destruct (ip_tempowner p).
  - wp_step. wp_step; [by apply Htop|]. destruct (_ =? IIT_NULL); cbn [negb].
    + wp_step. by rewrite put_port_id in HQ.
    + apply wp_bind, (wp_ip_mod o _ p); [done|]. by wp_step.
  - wp_step. destruct (_ =? IP_NULL); cbn [negb mwhen].
    + do 2 wp_step. by rewrite put_port_id in HQ.
    + apply (wp_ip_mod o _ p); [done|]. by wp_step.
Qed.

(** Only the log and the thread's count of assertions changed. *)
Definition calmed (n : Z) (es : list event) (s : kstate) : kstate :=
  set_ks_log (ks_log s ++ es) (set_ks_ith_assertions n s).

Lemma dk_calmed s ev T n es :
  desk s ev T -> Forall (fun e => event_rights e = []) es -> desk (calmed n es s) ev T.
Proof.
  intros HD Hes. eapply (dk_same (set_ks_log (ks_log s ++ es) s)); [|done..]. apply dk_logged.
  eapply dk_ext; [done|]. intros r. unfold plus.
  assert (Hnil : cnt r (es ≫= event_rights) = 0); [|lia].
  induction Hes as [|e es He Hes IH]; [done|]. by rewrite bind_cons, cnt_app, He, IH.
Qed.

(** Dropping the assertions leaves the thread as it was before the destruction. *)
Lemma drop_assertions_run s o p top :
  port_ok o p -> (ip_tempowner p = true -> top = true) ->
  (top = true -> ks_ith_assertions s = (owed_assertions p).2) ->
  exists es, Forall (fun e => event_rights e = []) es /\
    drop_assertions (owed_assertions p).1 (owed_assertions p).2 top s =
      Ok (tt, calmed (if top then 0 else ks_ith_assertions s) es s).
Proof.
  intros Hok Htop Hcnt. pose proof (po_impcount _ _ Hok) as Hi. pose proof (po_transit _ _ Hok) as [_ Himp].
  assert (Hid : calmed (ks_ith_assertions s) [] s = s) by (unfold calmed; rewrite app_nil_r; by destruct s).
  unfold drop_assertions, owed_assertions in *.
  destruct (ip_tempowner p); [rewrite (Htop eq_refl) in *; specialize (Hcnt eq_refl)|].
  - destruct (Z.eqb_spec (ip_imp_task p) IIT_NULL) as [Hn|Hn]; cbn [fst snd] in *.
    + exists []. split; [done|]. rewrite Z.eqb_refl. cbn [negb]. change (0 <? 0) with false. cbn [andb mwhen].
      by rewrite <- Hcnt, Hid.
    + rewrite (proj2 (Z.eqb_neq _ _) Hn). cbn [negb]. destruct (Z.ltb_spec 0 (ip_impcount p)) as [Hp|Hp].
      * exists [ImportanceDrop (ip_imp_task p) (ip_impcount p); ImportanceRelease (ip_imp_task p)].
        split; [by repeat constructor|]. unfold massert, mwhen, mbind, M_bind, modify, log. cbn. rewrite (proj1 (Himp eq_refl Hn)). cbn.
        unfold calmed, modify. simpl. by rewrite <- app_assoc.
      * exists [ImportanceRelease (ip_imp_task p)]. split; [by repeat constructor|].
        replace (ip_impcount p) with 0 in Hcnt by lia. cbn [mwhen]. unfold calmed. rewrite <- Hcnt. by destruct s.
  - rewrite Z.eqb_refl. cbn [negb fst snd] in *.
    destruct (Z.ltb_spec 0 (ip_impcount p)) as [Hp|Hp], top; cbn [andb mwhen].
    + destruct (ipc_importance_task_is_any_receiver_type current_task_imp_base).
      * exists [ImportanceDrop current_task_imp_base (ip_impcount p)]. split; [by repeat constructor|].
        done.
      * exists []. split; [done|]. unfold mbind, M_bind, modify. cbn [mwhen].
        unfold calmed. rewrite app_nil_r. by destruct s.
    + exists []. by rewrite Hid.
    + specialize (Hcnt eq_refl). replace (ip_impcount p) with 0 in Hcnt by lia. exists []. by rewrite <- Hcnt, Hid.
    + exists []. by rewrite Hid.
Qed.

(** What a live port gives up when it dies: all it holds, its receive right and its home *)
Lemma move_death o p p' r :
  ip_active p = true -> ip_active p' = false -> imq_messages (ip_messages p') = [] ->
  ip_references p' = ip_references p -> ip_srights p' = ip_srights p -> ip_sorights p' = ip_sorights p ->
  ip_requests p' = ip_requests p ->
  port_move o p p' r = cnt r (port_rights p) - ind r (RLive o) - cnt r (home_rights o p)
    + (1 - transit_count p) * ind r (RTransit o).
Proof.
  intros Ha Ha' Hm H1 H2 H3 H4. unfold port_move, port_rights at 2. rewrite Ha', Hm. change (queue_rights []) with (@nil right). cbn [when app cnt].
  assert (Hhome : target r <> Some o -> cnt r (home_rights o p) = 0).
  { intros Hr. rewrite home_rights_eq. cbn [cnt]. rewrite ind_ne; [done|by intros ->]. }
  destruct (decide (target r = Some o)) as [Ht|Ht]; [|rewrite Hhome, !ind_ne by (done || by intros ->); lia].
  destruct r; simpl in *; simplify_eq; rewrite ?ind_eq; rewrite ?ind_ne by done;
    rewrite ?home_rights_other by done; rewrite ?H1, ?H2, ?H3, ?H4, ?Ha, ?Ha'; try lia.
  - rewrite (home_count_rights o p) by done. unfold home_count. rewrite Ha'. cbn [andb]. lia.
  - unfold transit_count at 1. rewrite Ha'. cbn [andb]. lia.
Qed.

(** The port after its death, without its queue *)
Definition inactive_bits (p : ipc_port) : Z := clr (ip_bits p) IO_BITS_ACTIVE.

Lemma dead_port_ok o p p' :
  port_ok o p -> ip_bits p' = inactive_bits p -> ip_references p' = ip_references p ->
  ip_srights p' = ip_srights p -> ip_sorights p' = ip_sorights p -> ip_requests p' = ip_requests p ->
  imq_messages (ip_messages p') = [] -> imq_receivers (ip_messages p') = [] -> imq_senders (ip_messages p') = [] ->
  ip_impcount p' = ip_impcount p -> (ip_tempowner p' = true -> ip_imp_task p' = IIT_NULL) ->
  port_ok o p' /\ ip_active p' = false.
Proof.
  intros [] Hb H1 H2 H3 H4 H5 H6 H7 H8 H9. unfold inactive_bits in Hb.
  assert (Hd : ip_active p' = false).
  { unfold ip_active, io_bits_active, has. rewrite Hb, land_clr. unfold clr. by rewrite Z.ldiff_land, <- Z.land_assoc, Z.land_lnot_diag, Z.land_0_r. }
  split; [|done]. split; try done; try congruence.
  - unfold io_bits_otype. rewrite Hb, land_clr, clr_disjoint by done. done.
  - unfold IP_PREALLOC, has in *. by rewrite Hb, land_clr, clr_disjoint by done.
  - split; [by rewrite Hd|]. intros Ht. by rewrite (H9 Ht).
Qed.
End death.

(** ** Burying a dead port *)
Section burial.
Context {env : ipc_env}.

(** A change of a port that the ledger does not see *)
Lemma dk_touch s ev T o p f Q :
  desk s ev T -> ks_ports s !! o = Some p ->
  port_rights (f p) = port_rights p -> ip_bits (f p) = ip_bits p -> ip_requests (f p) = ip_requests p ->
  ip_receiver (f p) = ip_receiver p ->
  (ip_receiver_name (f p) = ip_receiver_name p /\
   imq_messages (ip_messages (f p)) = imq_messages (ip_messages p) /\
   imq_receivers (ip_messages (f p)) = imq_receivers (ip_messages p) /\
   imq_senders (ip_messages (f p)) = imq_senders (ip_messages p)) ->
  ip_references (f p) = ip_references p -> ip_srights (f p) = ip_srights p -> ip_sorights (f p) = ip_sorights p ->
  ip_impcount (f p) = ip_impcount p -> (transit_ok p -> transit_ok (f p)) ->
  (forall s', desk s' ev T -> stays s s' -> ks_ports s' = <[o := f p]> (ks_ports s) -> ks_log s' = ks_log s -> Q tt s') ->
  wp (ip_mod o f) s Q.
Proof.
  intros HD Ho Hr Hb Hq Hv Hm H1 H2 H3 H4 H5 HQ. pose proof (oo_ports _ (dk_objects _ _ _ HD) _ _ Ho) as Hok.
  eapply (wf_ip_counts _ _ _ _ _ _ _ _ _ o p f T); [by apply dk_start|done..| | | | |done| |];
    rewrite ?H1, ?H2, ?H3, ?H4; try apply Hok.
  - intros r. lia.
  - intros s' HF. pose proof (fc_log _ _ _ _ _ _ _ _ _ HF) as HL. destruct (dk_step _ _ _ _ [] _ _ HF (dk_at_desk _ _ _ HD)) as (HD' & Hsw & Hk & Hi & HP);
      [by rewrite app_nil_r|eapply aged_insert; [done| |done]; unfold ip_active; by rewrite Hb|]. by apply HQ.
Qed.

Lemma destroy_queue_run l reap s :
  destroy_queue l reap s =
    Ok (match l with [] => reap | _ => bool_decide (ks_ith_messages s = []) || reap end,
        set_ks_ith_messages (ks_ith_messages s ++ l) s).
Proof.
  revert reap s. induction l as [|k l IH]; intros reap s; cbn [destroy_queue].
  - rewrite app_nil_r. by destruct s.
  - change ((first ← ipc_kmsg_delayed_destroy k; destroy_queue l (first || reap)) s) with
      (destroy_queue l (bool_decide (ks_ith_messages s = []) || reap) (set_ks_ith_messages (ks_ith_messages s ++ [k]) s)).
    rewrite IH. simpl. rewrite <- app_assoc. destruct l; [done|].
    by rewrite (bool_decide_false (ks_ith_messages s ++ [k] = [])) by (by destruct (ks_ith_messages s)).
Qed.

(** A notification right that is held is one of a port. *)
Lemma dk_sonce_valid s ev T o : desk s ev (T ⊕ [RSonce o; RRef o]) -> hand_ok T -> IP_VALID o = true.
Proof.
  intros HD [HT _]. pose proof (HT (RSonce o)). pose proof (HT (RRef o)).
  destruct (fc_port _ _ _ _ _ _ _ _ _ (dk_start _ _ _ HD) o (RSonce o)) as [p Ho];
    [done|unfold plus; cbn [cnt]; hand_at; lia..|done|].
  apply (po_valid _ _ (oo_ports _ (dk_objects _ _ _ HD) _ _ Ho)).
Qed.

Lemma hand_ok_slots T l : hand_ok T -> hand_ok (T ⊕ slots_rights l).
Proof. intros HT. apply hand_ok_plus; [done|apply backed_slots]. Qed.

(** Everybody who asked is told that the port is dead: the notifications for the requests of a
    port, in the order of the slots *)
Definition slot_events (ipr : ipc_port_request) : list event :=
  if negb (ipr_name ipr =? MACH_PORT_NULL) && negb (IPR_SOR_PORT (ipr_soright ipr) =? IP_NULL)
  then [NotifyDeadName (IPR_SOR_PORT (ipr_soright ipr)) (ipr_name ipr)] else [].
Definition requests_events (o : option (list ipc_port_request)) : list event :=
  match o with Some (_ :: slots) => slots ≫= slot_events | _ => [] end.

(** The destructor of the port's kernel object, if it has one *)
Definition kobject_events (o : Z) (p : ipc_port) : list event :=
  let kotype := io_bits_kotype (ip_bits p) in
  if (kotype =? IKOT_TIMER) || (kotype =? IKOT_NAMED_ENTRY) || (kotype =? IKOT_HOST_NOTIFY) then [KobjectDestroy kotype o] else [].

Lemma dk_dnnotify_loop ev T t l count index s Q :
  requests_free t l -> hand_ok T -> 0 < index -> index + Z.of_nat count = rlen t ->
  desk s ev (T ⊕ slots_rights (drop (Z.to_nat index) t)) ->
  (forall s', desk s' ev T -> stays s s' -> ks_ports s' = ks_ports s ->
    ks_log s' = ks_log s ++ (drop (Z.to_nat index) t ≫= slot_events) -> Q tt s') ->
  wp (dnnotify_loop count t index) s Q.
Proof.
  intros Ht HT. revert index s. induction count as [|count IH]; intros index s Hi Hc HD HQ; cbn [dnnotify_loop].
  { rewrite drop_ge in HD, HQ by (unfold rlen in *; lia). wp_step. apply HQ; [|done|done|by rewrite app_nil_r]. eapply dk_ext; [done|].
    intros r. unfold plus. simpl. lia. }
  apply wp_bind, (wp_lift _ _ _ (rat t index)); [apply ipr_get_at; lia|]. cbv zeta.
  assert (Hat : t !! Z.to_nat index = Some (rat t index)).
  { unfold rat. destruct (lookup_lt_is_Some_2 t (Z.to_nat index)) as [x Hx]; [unfold rlen in *; lia|]. by rewrite Hx. }
  rewrite (drop_S t (rat t index)) in HD, HQ by done.
  replace (S (Z.to_nat index)) with (Z.to_nat (index + 1)) in HD, HQ by lia. cbn [slots_rights] in HD.
  assert (Hnext : forall s1, desk s1 ev (T ⊕ slots_rights (drop (Z.to_nat (index + 1)) t)) -> stays s s1 ->
    ks_ports s1 = ks_ports s -> ks_log s1 = ks_log s ++ slot_events (rat t index) -> wp (dnnotify_loop count t (index + 1)) s1 Q).
  { intros s1 HD1 Hs1 HP1 HL1. apply IH; [lia|lia|done|]. intros s2 HD2 Hs2 HP2 HL2. apply HQ; [done|by etrans|congruence|].
    rewrite bind_cons, HL2, HL1. by rewrite app_assoc. }
  pose proof (rf_names _ _ Ht index ltac:(lia)) as Hdead. unfold slot_rights in HD.
  assert (Hskip : slot_rights (rat t index) = [] -> desk s ev (T ⊕ slots_rights (drop (Z.to_nat (index + 1)) t))).
  { unfold slot_rights. intros Hnil. rewrite Hnil in HD. done. }
  unfold slot_rights in Hskip. unfold MACH_PORT_VALID. unfold slot_events in Hnext.
  destruct (Z.eqb_spec (ipr_name (rat t index)) MACH_PORT_NULL) as [Hn|Hn]; cbn [negb andb when mwhen] in *.
  { wp_step. wp_step. by apply Hnext; [apply Hskip|..|rewrite app_nil_r]. }
  rewrite (proj2 (Z.eqb_neq _ _) Hdead). cbn [negb andb]. unfold sonce_rights in *.
  destruct (Z.eqb_spec (IPR_SOR_PORT (ipr_soright (rat t index))) IP_NULL) as [Ho|Ho]; cbn [negb when] in *.
  { rewrite Ho. change (IP_VALID IP_NULL) with false. cbn [mwhen]. wp_step. wp_step. by apply Hnext; [apply Hskip|..|rewrite app_nil_r]. }
  assert (HD' : desk s ev (T ⊕ slots_rights (drop (Z.to_nat (index + 1)) t)
    ⊕ [RSonce (IPR_SOR_PORT (ipr_soright (rat t index))); RRef (IPR_SOR_PORT (ipr_soright (rat t index)))]))
    by (eapply dk_ext; [done|]; intros r; unfold plus; rewrite cnt_app; lia).
  rewrite (dk_sonce_valid _ _ _ _ HD' (hand_ok_slots _ _ HT)). cbn [mwhen].
  apply wp_bind. eapply dk_log; [exact HD'|]. intros s1 HD1 Hs1 HL1 HP1. by apply Hnext.
Qed.

Lemma dk_dnnotify s ev T o p Q :
  desk s ev (T ⊕ requests_rights (ip_requests p)) -> hand_ok T -> ks_ports s !! o = Some p -> ip_active p = false ->
  (forall s', desk s' ev T -> stays s s' -> ks_ports s' = ks_ports s ->
    ks_log s' = ks_log s ++ requests_events (ip_requests p) -> Q tt s') -> wp (ipc_port_dnnotify o) s Q.
Proof.
  intros HD HT Ho Ha HQ. unfold ipc_port_dnnotify. apply wp_bind, (wp_ip_get o p); [done|].
  wp_step. wp_step; [by rewrite Ha|]. pose proof (po_requests _ _ (oo_ports _ (dk_objects _ _ _ HD) _ _ Ho)) as Hrq.
  destruct (ip_requests p) as [t|].
  - destruct Hrq as [l Hl]. pose proof (rf_len _ _ Hl).
    apply wp_bind, (wp_lift _ _ _ (rat t 0)); [apply ipr_get_at; lia|].
    apply wp_bind, (wp_lift _ _ _ (rlen t)); [apply (rf_size _ _ Hl)|].
    destruct t as [|h t]; [unfold rlen in *; simpl in *; lia|]. eapply dk_dnnotify_loop; [done|done|done|lia|done|].
    intros s' HD' Hs' HP' HL'. by apply HQ.
  - wp_step. apply HQ; [|done|done|by rewrite app_nil_r]. eapply dk_ext; [done|]. intros r. unfold plus. simpl. lia.
Qed.

(** From [ipc_mqueue_deinit] on *)
Lemma dk_bury s ev T o p Q :
  desk s ev (T ⊕ [RRef o] ⊕ requests_rights (ip_requests p)) -> hand_ok T ->
  ks_ports s !! o = Some p -> ip_active p = false ->
  (forall s', desk s' ev T -> stays s s' ->
    ks_log s' = ks_log s ++ requests_events (ip_requests p) ++ kobject_events o p -> Q tt s') ->
  wp (_ ← ipc_mqueue_deinit o; _ ← ipc_port_dnnotify o; _ ← ipc_kobject_destroy o; ip_release o) s Q.
Proof.
  intros HD HT Ho Ha HQ. pose proof (oo_ports _ (dk_objects _ _ _ HD) _ _ Ho) as Hok.
  destruct (po_dead _ _ Hok Ha) as (Hm & Hr & Hs).
  set (q := set_ip_messages (set_imq_set_links [] (ip_messages p)) p).
  unfold ipc_mqueue_deinit. do 2 apply wp_bind.
  eapply (dk_touch s ev _ o p); [exact HD|done..| |].
  { intros [_ H2]. split; [|exact H2]. change (ip_active _) with (ip_active p). by rewrite Ha. }
  fold q. intros s1 HD1 Hs1 HP1 HL1. assert (Ho1 : ks_ports s1 !! o = Some q) by (rewrite HP1; apply lookup_insert_eq).
  apply wp_bind, (wp_ip_get o q); [done|]. simpl. rewrite Hr, Hs. wp_step; [done|].
  apply wp_bind. eapply (dk_dnnotify s1 ev (T ⊕ [RRef o]) o q); [done| |done|done|].
  { apply hand_ok_plus; [done|]. intros x. cnt_simpl. destruct (decide _); lia. }
  intros s2 HD2 Hs2 HP2 HL2. assert (Ho2 : ks_ports s2 !! o = Some q) by (by rewrite HP2).
  assert (Hend : forall s3, desk s3 ev (T ⊕ [RRef o]) -> stays s2 s3 -> ks_ports s3 = ks_ports s2 ->
    ks_log s3 = ks_log s2 ++ kobject_events o p -> wp (ip_release o) s3 Q).
  { intros s3 HD3 Hs3 HP3 HL3. eapply (dk_release s3 ev T o q); [done|done|by rewrite HP3|].
    intros s4 HD4 Hs4 _ HL4. apply HQ; [done| |by rewrite HL4, HL3, HL2, HL1, app_assoc].
    etrans; [exact Hs1|]. etrans; [exact Hs2|]. by etrans. }
  unfold kobject_events in Hend. change (ip_bits q) with (ip_bits p) in *.
  unfold ipc_kobject_destroy. do 2 apply wp_bind. apply (wp_ip_get o q); [done|]. cbv zeta.
  change (ip_bits q) with (ip_bits p). destruct (_ || _); cbn [mwhen].
  2: { wp_step. apply Hend; [done|done|done|by rewrite app_nil_r]. }
  eapply dk_log; [|intros s3 HD3 Hs3 HL3 HP3; by apply Hend]. eapply dk_ext; [done|]. intros r. unfold plus. simpl. lia.
Qed.
End burial.

(** ** Destroying a port *)
Section destroy_port.
Context {env : ipc_env}.

(** Messages with receive rights that never left are destroyed by threads at the top only. *)
Definition calm (s : kstate) : Prop :=
  forall k m, head (ks_ith_messages s) = Some k -> ks_kmsgs s !! k = Some m ->
    has (msgh_bits m) MACH_MSGH_BITS_CIRCULAR = true -> ks_ith_assertions s = 0.

(** The messages of a port are not such. *)
Definition plain_queue (s : kstate) (l : list Z) : Prop :=
  forall k m, k ∈ l -> ks_kmsgs s !! k = Some m -> has (msgh_bits m) MACH_MSGH_BITS_CIRCULAR = false.

Lemma dk_port_queue s ev T o p :
  desk s ev T -> (forall r, 0 <= T r) -> ks_ports s !! o = Some p -> plain_queue s (imq_messages (ip_messages p)).
Proof.
  intros HD HT Ho k m Hk. apply (dk_plain _ _ _ _ _ HD HT).
  pose proof (mcnt_ge (fun _ => port_rights) (RPlain k) (ks_ports s) o p Ho) as Hge.
  assert (Hin : RPlain k ∈ port_rights p) by (apply elem_of_app; right; apply elem_of_app; right; by apply list_elem_of_fmap_2).
  apply cnt_in in Hin. unfold held. simpl in *.
  pose proof (mcnt_nonneg space_rights (RPlain k) (ks_spaces s)). pose proof (mcnt_nonneg (fun _ => kmsg_rights) (RPlain k) (ks_kmsgs s)).
  pose proof (cnt_nonneg (RPlain k) (ks_log s ≫= event_rights)). pose proof (cnt_nonneg (RPlain k) (reap_rights (ks_ith_messages s))). lia.
Qed.

(** What [ipc_kmsg_reap_delayed] does for the destruction at the top: every queued message
    goes. *)
Definition reaps (reap_delayed : K unit) : Prop :=
  forall s T, desk s Rest T -> hand_ok T -> calm s ->
    wp reap_delayed s (fun _ s' => desk s' Rest T /\ swept s s' /\ ks_ith_messages s' = [] /\
      forall k, k ∈ ks_ith_messages s -> ks_kmsgs s' !! k = None).

(** The messages of a port that dies: those of the destruction at the top are gone at the end,
    those of a nested one are left to it. *)
Definition swept_queue (l : list Z) (s s' : kstate) : Prop :=
  if decide (ks_ith_messages s = []) then ks_ith_messages s' = [] /\ forall k, k ∈ l -> ks_kmsgs s' !! k = None
  else ks_ith_messages s' = ks_ith_messages s ++ l /\ ks_kmsgs s' = ks_kmsgs s.

Definition reapable (reap_delayed : K unit) (s : kstate) (ev : view) : Prop :=
  ks_ith_messages s = [] -> ev = Rest /\ reaps reap_delayed.

Lemma backed_requests o : backed (requests_rights o).
Proof. destruct o as [[|? l]|]; [apply backed_nil|apply backed_slots|apply backed_nil]. Qed.

Lemma backed_transit p : backed (transit_rights p).
Proof. apply backed_when. intros x. cnt_simpl. destruct (decide _); lia. Qed.

Lemma backed_ref o : backed [RRef o].
Proof. intros x. cnt_simpl. destruct (decide _); lia. Qed.

(** A dead port that is held survives the sweep with its requests. *)
Lemma dk_dead_port s s' ev T o p :
  swept s s' -> desk s ev T -> desk s' ev T -> 0 < T (RRef o) -> ks_ports s !! o = Some p -> ip_active p = false ->
  exists p', ks_ports s' !! o = Some p' /\ ip_active p' = false /\ ip_requests p' = ip_requests p /\ ip_bits p' = ip_bits p.
Proof.
  intros Hsw HD HD' HR Ho Ha.
  destruct (dk_port s' ev T o HD' HR) as [p' Hp'].
  { rewrite (sw_psets _ _ Hsw). apply (oo_disjoint _ (dk_objects _ _ _ HD)). by exists p. }
  exists p'. split; [done|]. destruct (sw_ports _ _ Hsw o p' Hp') as (p1 & Hp1 & _ & Hd). replace p1 with p in * by congruence.
  destruct (Hd Ha) as [Hq Hb]. split; [|done]. unfold ip_active in *. by rewrite Hb.
Qed.

(** From the emptied queue on *)
Lemma dk_last_rites reap_delayed s0 s ev T l o p Q :
  reapable reap_delayed s0 ev -> plain_queue s0 l -> swept s0 s -> ks_kmsgs s = ks_kmsgs s0 -> ks_ith_messages s = ks_ith_messages s0 ++ l ->
  desk s ev (T ⊕ [RRef o] ⊕ requests_rights (ip_requests p)) -> hand_ok T ->
  ks_ports s !! o = Some p -> ip_active p = false -> ip_in_pset p = false ->
  (forall s', desk s' ev T -> swept s s' -> swept_queue l s0 s' ->
    (exists es, ks_log s' = ks_log s ++ es ++ requests_events (ip_requests p) ++ kobject_events o p) -> Q tt s') ->
  wp (_ ← ip_mod o (fun p => set_ip_messages (set_imq_msgcount 0 (ip_messages p)) p);
      p ← ip_get o;
      _ ← massert (negb (ip_in_pset p));
      mwhen (match l with [] => false | _ => bool_decide (ks_ith_messages s0 = []) || false end) reap_delayed) s
    (fun _ s' => wp (_ ← ipc_mqueue_deinit o; _ ← ipc_port_dnnotify o; _ ← ipc_kobject_destroy o; ip_release o) s' Q).
Proof.
  intros Hreap Hplain Hsw0 Hk0 Hi0 HD HT Ho Ha Hps HQ. apply wp_bind.
  assert (HT' : hand_ok (T ⊕ [RRef o] ⊕ requests_rights (ip_requests p))).
  { do 2 (apply hand_ok_plus; [|apply backed_ref || apply backed_requests]). done. }
  assert (HR : 0 < (T ⊕ [RRef o] ⊕ requests_rights (ip_requests p)) (RRef o)).
  { pose proof (proj1 HT (RRef o)). unfold plus. cbn [cnt]. hand_at. lia. }
  eapply (dk_touch s ev _ o p); [exact HD|done..| |].
  { intros [_ H2]. split; [|exact H2]. change (ip_active _) with (ip_active p). by rewrite Ha. }
  intros s1 HD1 (Hsw1 & Hk1 & Hi1) HP1 _. apply wp_bind. eapply wp_ip_get; [rewrite HP1; apply lookup_insert_eq|].
  wp_step. wp_step; [change (negb (ip_in_pset p) = true); by rewrite Hps|].
  assert (Hend : forall s2, desk s2 ev (T ⊕ [RRef o] ⊕ requests_rights (ip_requests p)) -> swept s s2 ->
    (forall s', stays s2 s' -> swept_queue l s0 s') ->
    wp (_ ← ipc_mqueue_deinit o; _ ← ipc_port_dnnotify o; _ ← ipc_kobject_destroy o; ip_release o) s2 Q).
  { intros s2 HD2 Hsw2 Hq2. destruct (dk_dead_port _ _ _ _ _ _ Hsw2 HD HD2 HR Ho Ha) as (p2 & Hp2 & Ha2 & Hr2 & Hb2).
    eapply (dk_bury s2 ev T o p2); [by rewrite Hr2|done|done|done|]. intros s3 HD3 Hs3 HL3.
    destruct (sw_log _ _ Hsw2) as [es HL2]. apply HQ; [done|by etrans; [|apply Hs3]|by apply Hq2|]. exists es.
    rewrite HL3, HL2, Hr2, <- app_assoc. unfold kobject_events. by rewrite Hb2. }
  assert (Hqueue : l = [] \/ ks_ith_messages s0 <> [] -> forall s', stays s1 s' -> swept_queue l s0 s').
  { intros Hor s' (_ & Hk & Hi). unfold swept_queue. destruct (decide _) as [Hn|Hn].
    - destruct Hor as [->|]; [|done]. split; [rewrite Hi, Hi1, Hi0, Hn; done|]. by intros k ?%elem_of_nil.
    - split; congruence. }
  apply wp_mwhen; intros Hb.
  - destruct l as [|k l]; [done|]. rewrite orb_false_r in Hb. apply bool_decide_eq_true in Hb as Hn.
    destruct (Hreap Hn) as [-> Hrp]. eapply wp_mono; [|eapply Hrp; [exact HD1|done|]]; cbv beta.
    2: { intros j m Hj Hm Hc. rewrite Hi1, Hi0, Hn in Hj. simplify_eq/=.
         rewrite (Hplain j m) in Hc; [done|by left|congruence]. }
    intros [] s2 (HD2 & Hsw2 & Hi2 & Hg2). apply Hend; [done|by etrans|].
    intros s' (Hsw' & Hk' & Hi'). unfold swept_queue. rewrite decide_True by done. split; [congruence|].
    intros x Hx. rewrite Hk'. apply Hg2. rewrite Hi1, Hi0, Hn. done.
  - apply Hend; [done|done|]. apply Hqueue. destruct l; [by left|]. right.
    rewrite orb_false_r in Hb. by apply bool_decide_eq_false in Hb.
Qed.

Lemma put_port_timestamp s o p p' n :
  put_port (set_ks_timestamp n (put_port s o p)) o p' = put_port (set_ks_timestamp n s) o p'.
Proof. unfold put_port, set_ks_timestamp. simpl. by rewrite insert_insert_eq. Qed.

Lemma set_ks_log_nil s : set_ks_log (ks_log s ++ []) s = s.
Proof. rewrite app_nil_r. by destruct s. Qed.

(** The port without its queue, dead since [ts] *)
Definition died (ts : Z) (p : ipc_port) : ipc_port :=
  let p := set_ip_timestamp ts (set_ip_bits (clr (ip_bits p) IO_BITS_ACTIVE) p) in
  set_ip_messages (set_imq_messages [] (set_imq_senders [] (set_imq_fullwaiters false (ip_messages p)))) p.

Definition death_events (p : ipc_port) : list event :=
  (if ip_nsrequest p =? IP_NULL then [] else [NotifySendOnce (ip_nsrequest p)])
  ++ [ThreadsRestarted (imq_senders (ip_messages p))].

(** What is logged when a port dies, with what its messages had to say in the middle *)
Definition obituary (o : Z) (p : ipc_port) (es : list event) : list event :=
  death_events p ++ es ++ requests_events (ip_requests p) ++ kobject_events o p.

Lemma died_kobject o p ts : kobject_events o (died ts p) = kobject_events o p.
Proof.
  assert (Hk : io_bits_kotype (clr (ip_bits p) IO_BITS_ACTIVE) = io_bits_kotype (ip_bits p)).
  { unfold io_bits_kotype. rewrite land_clr. by apply clr_disjoint. }
  unfold kobject_events. change (ip_bits (died ts p)) with (clr (ip_bits p) IO_BITS_ACTIVE). by rewrite Hk.
Qed.

Lemma died_ok o p ts :
  port_ok o p -> idle_port p -> (ip_tempowner p = true -> ip_imp_task p = IIT_NULL) ->
  port_ok o (died ts p) /\ ip_active (died ts p) = false.
Proof. intros Hok (Hms & Hps & Hrc) Himp. by eapply dead_port_ok. Qed.

(** Rights to a port that die with it *)
Definition moribund (o : Z) (l : list right) : Prop :=
  Forall (fun r => match r with RSend x | RSonce x | RSlot x _ _ | RTransit x => x = o | RName _ _ => True | _ => False end) l.

(** The state in which the queue of the dead port is with the thread *)
Lemma dk_died s s1 ev T l o p ts :
  desk s ev (T ⊕ [RRef o; RLive o] ⊕ home_rights o p ⊕ l) -> moribund o l -> ks_ports s !! o = Some p -> ip_active p = true ->
  idle_port p -> ip_pdrequest p = IP_NULL -> (ip_tempowner p = true -> ip_imp_task p = IIT_NULL) ->
  s1 = set_ks_ith_messages (ks_ith_messages s ++ imq_messages (ip_messages p))
         (set_ks_log (ks_log s ++ death_events p) (put_port (set_ks_timestamp (u32 (ks_timestamp s + 1)) s) o (died ts p))) ->
  desk s1 ev (T ⊕ transit_rights p ⊕ [RRef o] ⊕ requests_rights (ip_requests p)) /\ swept s s1.
Proof.
  intros HD Hl Ho Ha Hidle Hpd Himp ->. pose proof (oo_ports _ (dk_objects _ _ _ HD) _ _ Ho) as Hok.
  destruct (died_ok o p ts Hok Hidle Himp) as [Hok' Ha']. split.
  - set (l1 := l ++ when (transit_count p =? 0) [RTransit o]).
    assert (Hl1 : moribund o l1) by (apply Forall_app; split; [done|]; destruct (_ =? 0); by repeat constructor).
    eapply (dk_ext _ _ (T ⊕ transit_rights p ⊕ [RRef o] ⊕ requests_rights (ip_requests p) ⊕ l1 ⊖ l1));
      [|intros r; unfold plus, minus; lia].
    apply dk_drop.
    2: { eapply Forall_impl; [exact Hl1|]. intros []; simpl; try done; intros ->; by rewrite lookup_insert_eq, ?Ha'. }
    set (s1 := put_port _ _ _). apply (dk_enqueue (set_ks_log (ks_log s ++ death_events p) s1)).
    apply (dk_logged s1). eapply (dk_same (put_port s o (died ts p))); [|done..].
    eapply dk_ext; [apply (dk_put_port s ev _ o p (died ts p) HD Ho Hok'); by rewrite Ha'|].
    intros r. cbv beta. rewrite move_death by done. unfold port_rights. rewrite Ha, Hpd. cbn [when].
    fold (transit_rights p). unfold death_events. rewrite bind_app. change (sonce_rights IP_NULL) with (@nil right).
    unfold sonce_rights, l1. unfold plus. rewrite !cnt_app.
    assert (Htc : (1 - transit_count p) * ind r (RTransit o) = cnt r (when (transit_count p =? 0) [RTransit o])).
    { unfold transit_count. destruct (_ && _); cbn [Z.eqb when cnt]; lia. }
    rewrite Htc. clear Htc.
    destruct (_ =? IP_NULL); cbn [negb when app mbind list_bind event_rights cnt]; lia.
  - split; try done; [|by exists (death_events p)]. simpl. eapply aged_insert; [done|by rewrite Ha'|by rewrite Ha].
Qed.

Lemma dk_destroy_dead reap_delayed s ev T l o p Q :
  desk s ev (T ⊕ [RRef o; RLive o] ⊕ home_rights o p ⊕ l) -> moribund o l -> hand_ok T -> ks_ports s !! o = Some p -> ip_active p = true ->
  idle_port p -> ip_pdrequest p = IP_NULL -> (ip_tempowner p = true -> ip_imp_task p = IIT_NULL) ->
  reapable reap_delayed s ev ->
  (forall s', desk s' ev (T ⊕ transit_rights p) -> swept s s' -> swept_queue (imq_messages (ip_messages p)) s s' ->
    (forall p', ks_ports s' !! o = Some p' -> ip_active p' = false) -> (exists es, ks_log s' = ks_log s ++ obituary o p es) -> Q tt s') ->
  wp (destroy_dead reap_delayed o) s Q.
Proof.
  intros HD Hl HT Ho Ha Hidle Hpd Himp Hreap HQ. pose proof (oo_ports _ (dk_objects _ _ _ HD) _ _ Ho) as Hok.
  destruct (died_ok o p (ks_timestamp s) Hok Hidle Himp) as [Hok' Ha'].
  unfold destroy_dead. apply wp_bind, (wp_ip_mod o _ p); [done|]. apply wp_bind. unfold ipc_port_timestamp. do 5 wp_step.
  apply wp_bind. eapply wp_ip_mod; [apply (ks_ports_put s)|]. apply wp_bind. eapply wp_ip_get; [apply lookup_insert_eq|].
  cbv zeta. apply wp_bind. unfold destroy_prealloc. apply wp_bind. eapply wp_ip_get; [apply lookup_insert_eq|].
  change (IP_PREALLOC _) with (IP_PREALLOC (died (ks_timestamp s) p)). rewrite (po_prealloc _ _ Hok'). cbn [mwhen]. wp_step.
  rewrite put_port_timestamp.
  set (s1 := put_port (set_ks_timestamp _ s) o _).
  assert (Hrest : forall es, es ++ [ThreadsRestarted (imq_senders (ip_messages p))] = death_events p ->
    wp (_ ← mqueue_destroy reap_delayed o; _ ← ipc_mqueue_deinit o; _ ← ipc_port_dnnotify o; _ ← ipc_kobject_destroy o;
        ip_release o) (set_ks_log (ks_log s ++ es) s1) Q).
  { intros es Hes. apply wp_bind. unfold mqueue_destroy.
    apply wp_bind. eapply wp_ip_get; [apply (ks_ports_put (set_ks_timestamp (u32 (ks_timestamp s + 1)) s))|].
    apply wp_bind, wp_modify. apply wp_bind, wp_log. apply wp_bind. eapply wp_Ok; [apply destroy_queue_run|].
    set (s2 := set_ks_ith_messages _ _).
    destruct (dk_died s s2 ev T l o p (ks_timestamp s) HD Hl Ho Ha Hidle Hpd Himp) as [HD2 Hsw2].
    { unfold s2. rewrite <- Hes. simpl. rewrite app_assoc. unfold set_ks_ith_messages, set_ks_log, put_port, put_log. simpl.
      by rewrite insert_insert_eq. }
    eapply (dk_last_rites reap_delayed s s2 ev _ _ o (died (ks_timestamp s) p));
      [done| |done|done|done|exact HD2|by apply hand_ok_plus; [|apply backed_transit]| |done|apply Hidle|].
    { apply (dk_port_queue s ev _ o p HD); [|done]. intros r. unfold plus. pose proof (proj1 HT r).
      pose proof (cnt_nonneg r [RRef o; RLive o]). pose proof (cnt_nonneg r (home_rights o p)). pose proof (cnt_nonneg r l). lia. }
    { apply lookup_insert_eq. }
    intros s' HD' Hsw' Hq (es1 & HL'). apply HQ; [done|by etrans|done| |].
    2: { exists es1. rewrite HL', died_kobject. unfold s2, obituary. simpl. rewrite <- Hes, <- !app_assoc. done. }
    intros p' Hp'. destruct (sw_ports _ _ Hsw' o p' Hp') as (p1 & Hp1 & Hact & _).
    assert (p1 = died (ks_timestamp s) p) as ->; [|by destruct (ip_active p'); [rewrite Hact in Ha'|]].
    rewrite <- (inj Some _ _ (eq_trans (eq_sym Hp1) (lookup_insert_eq _ _ _))). done. }
  wp_step. unfold death_events in Hrest. change (ip_nsrequest _) with (ip_nsrequest p).
  destruct (_ =? IP_NULL); cbn [negb mwhen].
  - wp_step. rewrite <- (set_ks_log_nil s1). by apply (Hrest []).
  - apply wp_log. by apply (Hrest [_]).
Qed.

(** The port in limbo, on its way to who asked for it *)
Definition in_limbo (p : ipc_port) : ipc_port :=
  set_ip_destination IP_NULL (set_ip_receiver_name MACH_PORT_NULL (set_ip_pdrequest IP_NULL (disowned p))).

Lemma in_limbo_fields p :
  ip_bits (in_limbo p) = ip_bits p /\ ip_references (in_limbo p) = ip_references p /\
  ip_srights (in_limbo p) = ip_srights p /\ ip_sorights (in_limbo p) = ip_sorights p /\
  ip_requests (in_limbo p) = ip_requests p /\ ip_nsrequest (in_limbo p) = ip_nsrequest p /\
  ip_messages (in_limbo p) = ip_messages (set_ip_receiver_name MACH_PORT_NULL p) /\
  ip_impcount (in_limbo p) = ip_impcount p /\ ip_mscount (in_limbo p) = ip_mscount p.
Proof. unfold in_limbo, disowned. destruct (ip_tempowner p), (ip_imp_task p =? IIT_NULL), (ip_pdrequest p =? IP_NULL); done. Qed.

Lemma in_limbo_ok o p :
  port_ok o p -> idle_port p -> ip_pdrequest p <> IP_NULL -> ip_tempowner p = true \/ ip_imp_task p = IIT_NULL ->
  port_ok o (in_limbo p).
Proof.
  intros Hok (Hms & Hps & Hrc) Hpd Himp. destruct (in_limbo_fields p) as (F1 & F2 & F3 & F4 & F5 & F6 & F7 & F8 & F9).
  eapply port_ok_change; [done|done|..]; rewrite ?F2, ?F3, ?F4, ?F5, ?F7, ?F8; try apply Hok; [done|by left|done|].
  intros _. split.
  - intros _ _. split; [split_and!; [by rewrite F9|unfold ip_in_pset; by rewrite F7|by rewrite F7]|]. split; [|done].
    left. unfold in_limbo, disowned. rewrite (proj2 (Z.eqb_neq _ _) Hpd). destruct (ip_tempowner p) eqn:Ht; [|done].
    by destruct (ip_imp_task p =? IIT_NULL).
  - unfold in_limbo, disowned. rewrite (proj2 (Z.eqb_neq _ _) Hpd). destruct (ip_tempowner p).
    + destruct (Z.eqb_spec (ip_imp_task p) IIT_NULL) as [He|He]; intros _ Hne; by destruct Hne.
    + destruct Himp as [|He]; [done|]. intros _ Hne. by destruct Hne.
Qed.

Lemma dk_destroy_limbo s ev T o p n Q :
  desk s ev (T ⊕ [RRef o; RLive o] ⊕ home_rights o p) -> hand_ok T -> ks_ports s !! o = Some p -> ip_active p = true ->
  idle_port p -> ip_pdrequest p <> IP_NULL -> ip_tempowner p = true \/ ip_imp_task p = IIT_NULL ->
  (forall s', desk s' ev (T ⊕ transit_rights p) -> stays (set_ks_ith_assertions n s) s' ->
    ks_log s' = ks_log s ++ [NotifyPortDestroyed (ip_pdrequest p) o] -> ks_ports s' = <[o := in_limbo p]> (ks_ports s) -> Q tt s') ->
  wp (destroy_limbo (ip_pdrequest p) o) (set_ks_ith_assertions n (put_port s o (disowned p))) Q.
Proof.
  intros HD HT Ho Ha Hidle Hpd Himp HQ. pose proof (oo_ports _ (dk_objects _ _ _ HD) _ _ Ho) as Hok.
  assert (HT' : hand_ok (T ⊕ [RRef o; RLive o])) by (apply hand_ok_plus; [done|]; intros x; cnt_simpl; destruct (decide _); lia).
  pose proof (in_limbo_ok o p Hok Hidle Hpd Himp) as Hok'.
  destruct (in_limbo_fields p) as (F1 & F2 & F3 & F4 & F5 & F6 & F7 & F8 & F9).
  assert (Ha' : ip_active (in_limbo p) = true) by (unfold ip_active in *; by rewrite F1).
  change (set_ks_ith_assertions n (put_port s o (disowned p))) with (put_port (set_ks_ith_assertions n s) o (disowned p)).
  unfold destroy_limbo. apply wp_bind. eapply wp_ip_mod; [apply ks_ports_put|]. rewrite put_port_put.
  apply wp_bind. eapply wp_ip_mod; [apply ks_ports_put|]. rewrite put_port_put.
  apply wp_bind. eapply wp_ip_mod; [apply ks_ports_put|]. rewrite put_port_put. fold (in_limbo p).
  eapply (dk_log _ ev (T ⊕ transit_rights p)).
  - eapply dk_ext; [eapply dk_put_port; [eapply dk_same; [exact (dk_transit _ _ _ _ _ HD HT' Ho Ha)|done..]|exact Ho|done|done]|].
    intros r. cbv beta. rewrite move_active by (done || by rewrite F7). rewrite F2, F3, F4, F5, F6, slot_move_transit by done.
    change (transit_rights (in_limbo p)) with (@nil right).
    change (home_rights o (in_limbo p)) with [RHome o IS_NULL MACH_PORT_NULL].
    replace (transit_count (in_limbo p)) with 0 by (unfold transit_count; by rewrite Ha').
    change (ip_pdrequest (in_limbo p)) with IP_NULL. change (sonce_rights IP_NULL) with (@nil right).
    unfold sonce_rights. rewrite (proj2 (Z.eqb_neq _ _) Hpd). unfold plus. cbn [negb when event_rights cnt]. lia.
  - intros s' HD' (Hsw & Hk & Hi) HL HP. apply HQ; [done| |done|done]. split_and!; [|done|done].
    etrans; [|exact Hsw]. split; try done; [|exists []; by rewrite app_nil_r]. simpl. eapply aged_insert; [done|done|by rewrite Ha].
Qed.

(** What becomes of the port: it is dead, its queue is swept and all who asked are told, the
    ports that asked for its death last; or it is in limbo with its queue, and on its way to
    who asked for it.  At the end come the events of its importance. *)
Definition destroyed (o : Z) (p : ipc_port) (s s' : kstate) : Prop :=
  if ip_pdrequest p =? IP_NULL then
    ((forall p', ks_ports s' !! o = Some p' -> ip_active p' = false) /\
     exists es imp, ks_log s' = ks_log s ++ obituary o p es ++ imp) /\
    swept_queue (imq_messages (ip_messages p)) s s'
  else
    (ks_ports s' = <[o := in_limbo p]> (ks_ports s) /\
     exists imp, ks_log s' = ks_log s ++ NotifyPortDestroyed (ip_pdrequest p) o :: imp) /\
    swept_queue [] s s'.

(** The end of both branches *)
Lemma dk_destroyed s s1 s2 ev T o p Q :
  desk s1 ev T -> port_ok o p -> ks_ports s !! o = Some p -> ip_active p = true ->
  (ip_tempowner p = true -> ks_ith_assertions s = 0) ->
  let top := ks_ith_assertions s =? 0 in
  s2 = set_ks_ith_assertions (if top then (owed_assertions p).2 else ks_ith_assertions s) s -> swept s2 s1 ->
  destroyed o p s2 s1 ->
  (forall s', desk s' ev T -> swept s s' -> destroyed o p s s' -> Q tt s') ->
  wp (drop_assertions (owed_assertions p).1 (owed_assertions p).2 top) s1 Q.
Proof.
  intros HD Hok Ho Ha Htop top -> [W1 W2 W3 W4 W5 [es W6]] Hde HQ. simpl in *.
  destruct (drop_assertions_run s1 o p top Hok) as (es' & Hes & Hrun).
  - intros Ht. apply Z.eqb_eq. by apply Htop.
  - intros Ht. by rewrite W5, Ht.
  - eapply wp_Ok; [exact Hrun|]. apply HQ; [by apply dk_calmed| |].
    + split; try done; [|exists (es ++ es'); simpl; by rewrite W6, app_assoc]. simpl. unfold top in *.
      destruct (Z.eqb_spec (ks_ith_assertions s) 0); congruence.
    + unfold destroyed in *. destruct (_ =? IP_NULL).
      * destruct Hde as [(Hd & es1 & imp & HL) Hq]. split; [|done]. split; [done|]. exists es1, (imp ++ es').
        simpl in *. by rewrite HL, <- !app_assoc.
      * destruct Hde as [(Hd & imp & HL) Hq]. split; [|done]. split; [done|]. exists (imp ++ es').
        simpl in *. by rewrite HL, <- !app_assoc.
Qed.

(** A port that can be destroyed: live, idle, not a temporary owner's unless the thread is at
    the top, and with no other use of the importance field if it is to go in limbo *)
Record doomed (s : kstate) (p : ipc_port) : Prop := {
  dm_active : ip_active p = true;
  dm_idle : idle_port p;
  dm_top : ip_tempowner p = true -> ks_ith_assertions s = 0;
  dm_limbo : ip_pdrequest p <> IP_NULL -> ip_tempowner p = true \/ ip_imp_task p = IIT_NULL;
}.

Lemma disowned_ok o p :
  port_ok o p -> ip_pdrequest p = IP_NULL -> port_ok o (disowned p) /\
    (forall r, port_move o p (disowned p) r = 0) /\ (ip_tempowner (disowned p) = true -> ip_imp_task (disowned p) = IIT_NULL) /\
    ip_bits (disowned p) = ip_bits p /\ ip_messages (disowned p) = ip_messages p /\ ip_mscount (disowned p) = ip_mscount p /\
    transit_rights (disowned p) = transit_rights p /\ home_rights o (disowned p) = home_rights o p /\
    ip_pdrequest (disowned p) = ip_pdrequest p /\ ip_nsrequest (disowned p) = ip_nsrequest p /\
    ip_requests (disowned p) = ip_requests p.
Proof.
  intros Hok Hpd. unfold disowned. rewrite Hpd. change (IP_NULL =? IP_NULL) with true.
  assert (Hid : forall r, port_move o p p r = 0).
  { intros r. rewrite move_counts by done. lia. }
  destruct (ip_tempowner p) eqn:Ht.
  - destruct (Z.eqb_spec (ip_imp_task p) IIT_NULL) as [He|He]; [done|]. split_and!; try done.
    eapply port_ok_change; [done|done|apply Hok|apply Hok|apply Hok|apply Hok|done|by left|done|apply Hok|].
    intros [H1 H2]. split; [|done]. intros Ha Hn. destruct (H1 Ha Hn) as (Hid' & _ & Hde). split; [done|].
    split; [by left|exact Hde].
  - split_and!; try done. by rewrite Ht.
Qed.

Lemma dk_port_destroy reap_delayed s ev T l o p Q :
  desk s ev (T ⊕ [RRef o; RLive o] ⊕ home_rights o p ⊕ l) -> moribund o l -> (ip_pdrequest p <> IP_NULL -> l = []) -> hand_ok T -> ks_ports s !! o = Some p -> doomed s p ->
  reapable reap_delayed s ev ->
  (forall s', desk s' ev (T ⊕ transit_rights p) -> swept s s' -> destroyed o p s s' -> Q tt s') ->
  wp (port_destroy reap_delayed o) s Q.
Proof.
  intros HD Hl Hl0 HT Ho [Ha Hidle Htop Hlimbo] Hreap HQ. pose proof (oo_ports _ (dk_objects _ _ _ HD) _ _ Ho) as Hok.
  pose proof Hidle as (Hms & Hps & Hrc).
  unfold port_destroy. apply wp_bind, wp_get. cbv zeta. apply wp_bind, (wp_ip_get o p); [done|].
  wp_step. wp_step; [done|]. wp_step. wp_step; [by rewrite Hps|]. wp_step. wp_step; [by rewrite Hms|].
  set (top := ks_ith_assertions s =? 0).
  apply wp_bind, (wp_destroy_assertions s o p top); [done|intros Ht; by apply Z.eqb_eq, Htop|].
  destruct (owed_assertions p) as [task n] eqn:Howed.
  set (s1 := set_ks_ith_assertions (if top then n else ks_ith_assertions s) (put_port s o (disowned p))).
  assert (Hmain : wp (_ ← (if negb (ip_pdrequest p =? IP_NULL) then destroy_limbo (ip_pdrequest p) o
       else destroy_dead reap_delayed o); drop_assertions task n top) s1 Q).
  { assert (Hend : forall s2, desk s2 ev (T ⊕ transit_rights p) -> swept (set_ks_ith_assertions (if top then n else ks_ith_assertions s) s) s2 ->
      destroyed o p (set_ks_ith_assertions (if top then n else ks_ith_assertions s) s) s2 -> wp (drop_assertions task n top) s2 Q).
    { intros s2 HD2 Hsw2 Hde2. replace task with (owed_assertions p).1 by (by rewrite Howed).
      replace n with (owed_assertions p).2 in * by (by rewrite Howed). by eapply dk_destroyed. }
    apply wp_bind. unfold destroyed in Hend. destruct (Z.eqb_spec (ip_pdrequest p) IP_NULL) as [Hpd|Hpd]; cbn [negb].
    - destruct (disowned_ok o p Hok Hpd) as (Hok1 & Hmv & Himp & F1 & F2 & F3 & F4 & F5 & F6 & F7 & F8).
      assert (Ha1 : ip_active (disowned p) = true) by (unfold ip_active in *; by rewrite F1).
      eapply (dk_destroy_dead reap_delayed s1 ev T l o (disowned p));
        [|done|done|apply lookup_insert_eq|done| |congruence|done|exact Hreap|].
      + eapply (dk_same (put_port s o (disowned p))); [|done..]. eapply dk_ext; [by eapply (dk_put_port s ev _ o p (disowned p))|].
        intros r. cbv beta. rewrite Hmv, F5. lia.
      + split_and!; [by rewrite F3|unfold ip_in_pset; by rewrite F2|by rewrite F2].
      + rewrite F4, F2. intros s2 HD2 Hsw2 Hq2 Hdead (es & HL2). apply Hend; [done| |].
        2: { split; [|done]. split; [done|]. exists es, []. rewrite app_nil_r, HL2. unfold obituary, death_events, kobject_events.
             by rewrite F1, F2, F7, F8. }
        etrans; [|exact Hsw2]. split; try done; [|exists []; by rewrite app_nil_r].
        simpl. eapply aged_insert; [done|done|by rewrite Ha].
    - eapply (dk_destroy_limbo s ev T); [|done|done|done|done|done|by apply Hlimbo|].
      { rewrite (Hl0 Hpd) in HD. eapply dk_ext; [exact HD|]. intros r. unfold plus. simpl. lia. }
      intros s2 HD2 (Hsw2 & Hk2 & Hi2) HL2 HP2. apply Hend; [done|done|].
      split; [split; [done|exists []; exact HL2]|].
      unfold swept_queue. destruct (decide _) as [Hn|Hn]; simpl in *; [|by rewrite app_nil_r].
      split; [congruence|]. by intros k ?%elem_of_nil. }
  wp_step. apply wp_mwhen; intros Hb; unfold s1 in Hmain; rewrite Hb in Hmain |- *; [exact Hmain|].
  replace (set_ks_ith_assertions _ _) with (put_port s o (disowned p)) in Hmain by (by destruct s). exact Hmain.
Qed.
End destroy_port.

(** ** Cleaning a message *)

(** A sweep under which the queue of the thread only grows, and messages stay *)
Definition grows (s s' : kstate) : Prop :=
  swept s s' /\ dom (ks_kmsgs s') =@{gset Z} dom (ks_kmsgs s) /\ exists l, ks_ith_messages s' = ks_ith_messages s ++ l.

#[global] Instance grows_refl : Reflexive grows.
Proof. intros s. split_and!; [done|done|]. exists []. by rewrite app_nil_r. Qed.
#[global] Instance grows_trans : Transitive grows.
Proof.
  intros s1 s2 s3 (H1 & H2 & l1 & H3) (H4 & H5 & l2 & H6). split_and!; [by etrans|congruence|].
  exists (l1 ++ l2). by rewrite H6, H3, app_assoc.
Qed.

Lemma stays_grows s s' : stays s s' -> grows s s'.
Proof. intros (H1 & H2 & H3). split_and!; [done|by rewrite H2|]. exists []. by rewrite app_nil_r. Qed.

Lemma grows_queue s s' : grows s s' -> ks_ith_messages s <> [] -> ks_ith_messages s' <> [].
Proof. intros (_ & _ & l & ->) Hn. by destruct (ks_ith_messages s). Qed.

Section clean.
Context {env : ipc_env}.

(** Rights are given up inside the reaping, or by a thread that is not reaping: what holds
    before and after, and what comes in between *)
Record mode (I : kstate -> view -> Prop) (R : kstate -> kstate -> Prop) : Prop := {
  md_refl : forall s, R s s;
  md_trans : forall s1 s2 s3, R s1 s2 -> R s2 s3 -> R s1 s3;
  md_stays : forall s s', stays s s' -> R s s';
  md_keep : forall s s' ev, R s s' -> I s ev -> I s' ev;
  md_swept : forall s s', R s s' -> swept s s';
}.

(** What a destruction does *)
Definition destroys (I : kstate -> view -> Prop) (R : kstate -> kstate -> Prop) (destroy : Z -> K unit) : Prop :=
  forall s ev T o p Q, desk s ev (T ⊕ [RRef o; RLive o] ⊕ home_rights o p) -> hand_ok T ->
    ks_ports s !! o = Some p -> doomed s p -> I s ev ->
    (forall s', desk s' ev (T ⊕ transit_rights p) -> R s s' -> Q tt s') -> wp (destroy o) s Q.

Definition reaping (s : kstate) (_ : view) : Prop := ks_ith_messages s <> [].
Definition nested : (Z -> K unit) -> Prop := destroys reaping grows.

Lemma mode_nested : mode reaping grows.
Proof. split; [done|by intros ? ? ? ->|apply stays_grows|by intros s s' ev; apply grows_queue|by intros s s' []]. Qed.

(** At the top, the queue of the thread is empty before and after. *)
Definition idle (s : kstate) (ev : view) : Prop := ev = Rest /\ ks_ith_messages s = [].
Definition sweeps (s s' : kstate) : Prop := swept s s' /\ (ks_ith_messages s = [] -> ks_ith_messages s' = []).

Lemma mode_top : mode idle sweeps.
Proof.
  split.
  - by intros s.
  - intros s1 s2 s3 [H1 H2] [H3 H4]. split; [by etrans|auto].
  - intros s s' (H1 & _ & H2). split; [done|]. by rewrite H2.
  - intros s s' ev [_ H] [He Hi]. split; [done|auto].
  - by intros s s' [].
Qed.

Lemma port_destroy_nests reap_delayed : nested (port_destroy reap_delayed).
Proof.
  intros s ev T o p Q HD HT Ho Hdm Hne HQ. eapply (dk_port_destroy _ _ _ _ []); [|by constructor|done..|by intros Hn|].
  { eapply dk_ext; [done|]. intros r. unfold plus. simpl. lia. }
  intros s' HD' Hsw Hde. apply HQ; [done|].
  assert (Hq : exists l, swept_queue l s s').
  { unfold destroyed in Hde. destruct (_ =? IP_NULL); destruct Hde as [_ Hq]; by eexists. }
  destruct Hq as [l Hq]. unfold swept_queue in Hq. rewrite decide_False in Hq by done. destruct Hq as [Hi Hk].
  split_and!; [done|by rewrite Hk|by exists l].
Qed.

Lemma dk_object_valid s ev T o : desk s ev T -> 0 < T (RRef o) -> IO_VALID o = true.
Proof.
  intros HD HR. destruct (fc_others _ _ _ _ _ _ _ _ _ (dk_start _ _ _ HD)) as (s1 & Hacc).
  specialize (Hacc (RRef o)). unfold accounts in Hacc. cbn [target] in Hacc. pose proof (held_nonneg s1 (RRef o)).
  pose proof (dk_objects _ _ _ HD) as HO. destruct (ks_ports s !! o) as [p|] eqn:Hp; [apply (po_valid _ _ (oo_ports _ HO _ _ Hp))|].
  destruct (ks_psets s !! o) as [ps|] eqn:Hps; [apply (pso_valid _ _ (oo_psets _ HO _ _ Hps))|]. lia.
Qed.

Context (I : kstate -> view -> Prop) (R : kstate -> kstate -> Prop) (HM : mode I R).
Context (destroy : Z -> K unit) (Hdestroy : destroys I R destroy) (circular : bool).

#[local] Instance mode_refl : Reflexive R := md_refl I R HM.

(** The thread can destroy a port that it holds for a task, if the message at hand can have one. *)
Local Abbreviation top_ok s := (circular = true -> ks_ith_assertions s = 0).

Lemma top_ok_keep s s' : R s s' -> top_ok s -> top_ok s'.
Proof using HM. intros Hr H. by rewrite (sw_thread _ _ (md_swept _ _ HM _ _ Hr)). Qed.

(** The port whose receive right a message carries *)
Lemma dk_adrift s ev T o :
  desk s ev (T ⊕ carried_rights circular MACH_MSG_TYPE_PORT_RECEIVE o) -> hand_ok T -> IO_VALID o = true ->
  exists p, ks_ports s !! o = Some p /\ ip_active p = true /\ ip_receiver_name p = MACH_PORT_NULL /\
    (circular = false -> ip_destination p <> IP_NULL) /\ desk s ev (T ⊕ [RRef o; RLive o] ⊕ home_rights o p).
Proof using.
  intros HD HT Hv. pose proof (dk_start _ _ _ HD) as HF. pose proof (proj1 HT (RRef o)).
  set (l := when (negb circular) [RTransit o]).
  assert (Hc : carried_rights circular MACH_MSG_TYPE_PORT_RECEIVE o = [RRef o; RLive o; RHome o IS_NULL MACH_PORT_NULL] ++ l)
    by (unfold carried_rights, disposition_rights; by rewrite Hv).
  rewrite Hc in *. pose proof (proj1 HT (RHome o IS_NULL MACH_PORT_NULL)). pose proof (proj1 HT (RTransit o)).
  pose proof (cnt_nonneg (RHome o IS_NULL MACH_PORT_NULL) l). pose proof (cnt_nonneg (RRef o) l).
  destruct (fc_port _ _ _ _ _ _ _ _ _ HF o (RHome o IS_NULL MACH_PORT_NULL)) as [p Ho];
    [done|unfold plus; rewrite cnt_app; cbn [cnt]; hand_at; lia..|done|].
  destruct (fc_home _ _ _ _ _ _ _ _ _ HF o p IS_NULL MACH_PORT_NULL Ho) as (Ha & Hr & Hn);
    [unfold plus; rewrite cnt_app; cbn [cnt]; hand_at; lia|].
  exists p. split_and!; [done|done|done| |].
  - intros Hcirc. pose proof (fc_count_ge _ _ _ _ _ _ _ _ _ HF o p (RTransit o) Ho eq_refl) as Hge.
    unfold l in Hge. rewrite Hcirc in Hge. unfold plus in Hge. cbn [cnt app when negb port_count] in Hge. revert Hge. hand_at.
    unfold transit_count. rewrite Ha, Hn. destruct (Z.eqb_spec (ip_destination p) IP_NULL); [simpl; lia|done].
  - eapply dk_ext; [apply (dk_drop s ev _ l HD)|].
    + unfold l. destruct circular; by constructor.
    + intros r. rewrite home_rights_eq, Hr, Hn. unfold plus, minus. rewrite cnt_app. cbn [cnt]. lia.
Qed.

Lemma dk_release_receive s ev T o Q :
  desk s ev (T ⊕ carried_rights circular MACH_MSG_TYPE_PORT_RECEIVE o) -> hand_ok T -> IO_VALID o = true ->
  I s ev -> top_ok s ->
  (forall s', desk s' ev T -> R s s' -> Q tt s') -> wp (release_receive destroy o) s Q.
Proof using HM Hdestroy.
  intros HD HT Hv Hne Htop HQ. destruct (dk_adrift s ev T o HD HT Hv) as (p & Ho & Ha & Hn & Hdest & HD0).
  pose proof (oo_ports _ (dk_objects _ _ _ HD) _ _ Ho) as Hok.
  destruct (proj1 (po_transit _ _ Hok) Ha Hn) as [Hidle Htr].
  unfold release_receive. change (IP_VALID o) with (IO_VALID o). rewrite Hv.
  cbn [negb]. apply wp_bind, (wp_ip_get o p); [done|]. wp_step. wp_step; [done|]. wp_step. wp_step; [by rewrite Hn|].
  apply wp_bind. eapply (Hdestroy s ev T o p); [done|done|done| |done|].
  { split; [done|done| |by intros _; apply Htr]. intros Ht. apply Htop. destruct circular; [done|].
    by rewrite (proj2 Htr (Hdest eq_refl)) in Ht. }
  intros s1 HD1 Hg1. unfold transit_rights in HD1. rewrite Hn in HD1. change (MACH_PORT_NULL =? MACH_PORT_NULL) with true in HD1.
  set (dest := ip_destination p) in *. apply wp_mwhen; intros Hd; rewrite Hd in HD1; cbn [andb when] in HD1.
  2: { apply HQ; [|done]. eapply dk_ext; [done|]. intros r. unfold plus. simpl. lia. }
  destruct (fc_noted _ _ _ _ _ _ _ _ _ dest (dk_start _ _ _ HD1) HT) as [[q Hq] HF2].
  apply dk_end in HF2 as (HD2 & _); [|by eapply dk_at_desk].
  eapply (dk_release s1 ev T dest q); [done|done|done|]. intros s2 HD3 Hs2 _ _. apply HQ; [done|].
  eapply (md_trans _ _ HM); [done|by apply (md_stays _ _ HM)].
Qed.

Lemma carried_cases d o :
  IO_VALID o = true -> d ∈ dispositions ->
  (d = MACH_MSG_TYPE_PORT_SEND /\ carried_rights circular d o = [RRef o; RSend o]) \/
  (d = MACH_MSG_TYPE_PORT_SEND_ONCE /\ carried_rights circular d o = [RRef o; RSonce o]) \/
  (d = MACH_MSG_TYPE_PORT_RECEIVE /\
    carried_rights circular d o = [RRef o; RLive o; RHome o IS_NULL MACH_PORT_NULL] ++ when (negb circular) [RTransit o]).
Proof using.
  intros Hv Hd. unfold carried_rights, disposition_rights, dispositions in *. rewrite Hv. set_unfold in Hd.
  destruct Hd as [->|[->|[->|[]]]]; [left|right; left|right; right]; done.
Qed.

Lemma carried_plain d o : d <> MACH_MSG_TYPE_PORT_RECEIVE -> carried_rights circular d o = disposition_rights d o.
Proof using.
  intros Hd. unfold carried_rights. rewrite (proj2 (Z.eqb_neq _ _) Hd), andb_false_r. by rewrite app_nil_r.
Qed.

Lemma carried_invalid d o : IO_VALID o = false -> carried_rights circular d o = [].
Proof using. intros Hv. unfold carried_rights, disposition_rights. by rewrite Hv. Qed.

(** A carried right is one of a port. *)
Lemma dk_carried s ev T d o :
  desk s ev (T ⊕ carried_rights circular d o) -> hand_ok T -> IO_VALID o = true -> d ∈ dispositions ->
  exists p, ks_ports s !! o = Some p.
Proof using.
  intros HD HT Hv Hd. pose proof (dk_start _ _ _ HD) as HF. pose proof (proj1 HT (RRef o)). pose proof (proj1 HT (RSend o)).
  pose proof (proj1 HT (RSonce o)). 
  destruct (carried_cases d o Hv Hd) as [[_ Hc]|[[_ Hc]|[-> Hc]]]; rewrite Hc in HF.
  - eapply (fc_port _ _ _ _ _ _ _ _ _ HF o (RSend o)); [done|unfold plus; cbn [cnt]; hand_at; lia..|done].
  - eapply (fc_port _ _ _ _ _ _ _ _ _ HF o (RSonce o)); [done|unfold plus; cbn [cnt]; hand_at; lia..|done].
  - destruct (dk_adrift s ev T o HD HT Hv) as (p & Ho & _). by exists p.
Qed.

(** A right in a message, or none, is given up. *)
Lemma dk_object_destroy s ev T d o Q :
  desk s ev (T ⊕ carried_rights circular d o) -> hand_ok T -> (IO_VALID o = true -> d ∈ dispositions) ->
  I s ev -> top_ok s ->
  (forall s', desk s' ev T -> R s s' -> Q tt s') -> wp (mwhen (IO_VALID o) (object_destroy destroy o d)) s Q.
Proof using HM Hdestroy.
  intros HD HT Hd Hne Htop HQ. apply wp_mwhen; intros Hv.
  2: { apply HQ; [|done]. rewrite carried_invalid in HD by done. eapply dk_ext; [done|]. intros r. unfold plus. simpl. lia. }
  specialize (Hd Hv). destruct (dk_carried _ _ _ _ _ HD HT Hv Hd) as [p Ho].
  unfold object_destroy. wp_step. wp_step; [done|]. apply wp_bind. eapply wf_io_bits; [by apply dk_start|done|].
  wp_step. wp_step; [by rewrite (po_otype _ _ (oo_ports _ (dk_objects _ _ _ HD) _ _ Ho))|].
  destruct (carried_cases d o Hv Hd) as [[-> Hc]|[[-> Hc]|[-> _]]]; try rewrite Hc in HD.
  - change (MACH_MSG_TYPE_PORT_SEND =? MACH_MSG_TYPE_PORT_SEND) with true. cbn iota.
    eapply dk_release_send; [|done|done|intros s' HD' Hs'; apply HQ; [done|by apply (md_stays _ _ HM)]].
    eapply dk_ext; [done|]. same_hand.
  - change (MACH_MSG_TYPE_PORT_SEND_ONCE =? MACH_MSG_TYPE_PORT_SEND) with false.
    change (MACH_MSG_TYPE_PORT_SEND_ONCE =? MACH_MSG_TYPE_PORT_SEND_ONCE) with true. cbn iota.
    eapply dk_log; [|intros s' HD' Hs' _ _; apply HQ; [done|by apply (md_stays _ _ HM)]].
    eapply dk_ext; [done|]. cbn [event_rights]. same_hand.
  - change (MACH_MSG_TYPE_PORT_RECEIVE =? MACH_MSG_TYPE_PORT_SEND) with false.
    change (MACH_MSG_TYPE_PORT_RECEIVE =? MACH_MSG_TYPE_PORT_SEND_ONCE) with false.
    change (MACH_MSG_TYPE_PORT_RECEIVE =? MACH_MSG_TYPE_PORT_RECEIVE) with true. cbn iota. by eapply dk_release_receive.
Qed.

Lemma dk_clean_ports objects d : forall s ev T Q,
  desk s ev (T ⊕ (objects ≫= carried_rights circular d)) -> hand_ok T ->
  (forall o, o ∈ objects -> IO_VALID o = true -> d ∈ dispositions) -> I s ev -> top_ok s ->
  (forall s', desk s' ev T -> R s s' -> Q tt s') -> wp (clean_ports destroy objects d) s Q.
Proof using HM Hdestroy.
  induction objects as [|o objects IH]; intros s ev T Q HD HT Hd Hne Htop HQ; cbn [clean_ports].
  { wp_step. apply HQ; [|done]. eapply dk_ext; [done|]. intros r. unfold plus. simpl. lia. }
  apply wp_bind. eapply (dk_object_destroy _ ev (T ⊕ (objects ≫= carried_rights circular d))); [| |apply Hd; by left|done|done|].
  - eapply dk_ext; [done|]. intros r. unfold plus. rewrite bind_cons, cnt_app. lia.
  - apply hand_ok_plus; [done|]. apply backed_bind. intros x. apply backed_carried.
  - intros s1 HD1 Hg1. eapply IH; [done|done| |by eapply (md_keep _ _ HM)|by eapply top_ok_keep|].
    { intros x Hx. apply Hd. by right. }
    intros s2 HD2 Hg2. apply HQ; [done|by eapply (md_trans _ _ HM)].
Qed.

Lemma dk_clean_descriptor s ev T d Q :
  desk s ev (T ⊕ descriptor_rights circular d) -> hand_ok T -> descriptor_ok d -> I s ev -> top_ok s ->
  (forall s', desk s' ev T -> R s s' -> Q tt s') -> wp (clean_descriptor destroy d) s Q.
Proof using HM Hdestroy.
  intros HD HT Hok Hne Htop HQ.
  assert (Hlog : forall e s1, event_rights e = [] -> desk s1 ev T -> R s s1 -> wp (log e) s1 Q).
  { intros e s1 He HD1 Hg1. eapply (dk_log s1 ev T); [|intros s' HD' Hs' _ _].
    { rewrite He. eapply dk_ext; [done|]. intros r. unfold plus. simpl. lia. }
    apply HQ; [done|eapply (md_trans _ _ HM); [done|by apply (md_stays _ _ HM)]]. }
  assert (Hnil : descriptor_rights circular d = [] -> desk s ev T).
  { intros He. rewrite He in HD. eapply dk_ext; [done|]. intros r. unfold plus. simpl. lia. }
  destruct d as [name d|otype address size copy|address d objects|type]; cbn [clean_descriptor descriptor_rights descriptor_ok] in *.
  - by eapply dk_object_destroy.
  - specialize (Hnil eq_refl). destruct (Z.eqb_spec size 0) as [Hs|Hs]; [|by apply Hlog].
    wp_step; [apply Z.eqb_eq; by apply Hok|]. by apply HQ.
  - destruct objects as [|o objects]; [wp_step; by apply HQ; [apply Hnil|]|].
    wp_step. wp_step; [apply negb_true_iff, Z.eqb_neq; by apply Hok|].
    apply wp_bind. eapply dk_clean_ports; [exact HD|done|apply Hok|done|done|]. intros s1 HD1 Hg1. by apply Hlog.
  - wp_step. by apply HQ; [apply Hnil|].
Qed.

Lemma backed_descriptor d : backed (descriptor_rights circular d).
Proof using.
  destruct d; simpl; [apply backed_carried|apply backed_nil| |apply backed_nil].
  apply backed_bind. intros. apply backed_carried.
Qed.

Lemma dk_clean_body ds : forall s ev T Q,
  desk s ev (T ⊕ (ds ≫= descriptor_rights circular)) -> hand_ok T -> Forall descriptor_ok ds ->
  I s ev -> top_ok s ->
  (forall s', desk s' ev T -> R s s' -> Q tt s') -> wp (kmsg_clean_body destroy ds) s Q.
Proof using HM Hdestroy.
  induction ds as [|d ds IH]; intros s ev T Q HD HT Hd Hne Htop HQ; cbn [kmsg_clean_body].
  { wp_step. apply HQ; [|done]. eapply dk_ext; [done|]. intros r. unfold plus. simpl. lia. }
  apply Forall_cons in Hd as [Hd Hds].
  apply wp_bind. eapply (dk_clean_descriptor _ ev (T ⊕ (ds ≫= descriptor_rights circular))); [| |done|done|done|].
  - eapply dk_ext; [done|]. intros r. unfold plus. rewrite bind_cons, cnt_app. lia.
  - apply hand_ok_plus; [done|]. apply backed_bind, backed_descriptor.
  - intros s1 HD1 Hg1. eapply IH; [done|done|done|by eapply (md_keep _ _ HM)|by eapply top_ok_keep|].
    intros s2 HD2 Hg2. apply HQ; [done|by eapply (md_trans _ _ HM)].
Qed.
End clean.

(** ** Reaping *)
Section reap.
Context {env : ipc_env}.

Lemma dk_destroy_dest s ev T d o Q :
  desk s ev (T ⊕ disposition_rights d o) -> hand_ok T ->
  (IO_VALID o = true -> d ∈ [MACH_MSG_TYPE_PORT_SEND; MACH_MSG_TYPE_PORT_SEND_ONCE]) ->
  (forall s', desk s' ev T -> stays s s' -> Q tt s') -> wp (mwhen (IO_VALID o) (ipc_object_destroy_dest o d)) s Q.
Proof.
  intros HD HT Hd HQ. apply wp_mwhen; intros Hv.
  2: { apply HQ; [|done]. unfold disposition_rights in HD. rewrite Hv in HD. eapply dk_ext; [done|]. intros r. unfold plus. simpl. lia. }
  assert (Hd' : d ∈ dispositions /\ d <> MACH_MSG_TYPE_PORT_RECEIVE).
  { specialize (Hd Hv). unfold dispositions. set_unfold in Hd. destruct Hd as [->|[->|[]]]; (split; [set_solver|done]). }
  destruct Hd' as [Hd1 Hd2]. pose proof (carried_plain false d o Hd2) as Hcp.
  destruct (dk_carried false s ev T d o) as [p Ho]; [by rewrite Hcp|done|done|done|].
  unfold ipc_object_destroy_dest. wp_step. wp_step; [done|]. apply wp_bind. eapply wf_io_bits; [by apply dk_start|done|].
  wp_step. wp_step; [by rewrite (po_otype _ _ (oo_ports _ (dk_objects _ _ _ HD) _ _ Ho))|].
  destruct (carried_cases false d o Hv Hd1) as [[-> Hc]|[[-> Hc]|[-> Hc]]]; [| |done]; rewrite Hcp in Hc; rewrite Hc in HD.
  - change (MACH_MSG_TYPE_PORT_SEND =? MACH_MSG_TYPE_PORT_SEND) with true. cbn iota.
    eapply dk_release_send; [|done|done|intros s' HD' Hs'; by apply HQ].
    eapply dk_ext; [done|]. same_hand.
  - change (MACH_MSG_TYPE_PORT_SEND_ONCE =? MACH_MSG_TYPE_PORT_SEND) with false.
    change (MACH_MSG_TYPE_PORT_SEND_ONCE =? MACH_MSG_TYPE_PORT_SEND_ONCE) with true. cbn iota.
    apply wp_bind, (wp_ip_get o p); [done|].
    assert (HD' : desk s ev (T ⊕ [RSonce o; RRef o])) by (eapply dk_ext; [done|]; same_hand).
    destruct (_ && _).
    + eapply dk_log; [exact HD'|]. intros s' HD1 Hs' _ _. by apply HQ.
    + eapply dk_release_sonce; [done|done|done|]. intros s' HD1 Hs'. by apply HQ.
Qed.

Lemma wp_ikm_get k m s Q : ks_kmsgs s !! k = Some m -> Q m s -> wp (ikm_get k) s Q.
Proof. intros Hk HQ. unfold wp, ikm_get. by rewrite Hk. Qed.

(** The message at hand changes in a field. *)
Lemma dk_ikm_mod s k m f T Q :
  desk s (Mail k m) T -> kmsg_ok (f m) -> msgh_bits (f m) = msgh_bits m ->
  (forall s', desk s' (Mail k (f m)) T -> grows s s' -> Q tt s') -> wp (ikm_mod k f) s Q.
Proof.
  intros HD Hok Hbits HQ. pose proof (dk_mail _ _ _ HD) as Hk. simpl in Hk. unfold ikm_mod.
  apply wp_bind, (wp_ikm_get k m); [done|]. wp_step. apply HQ; [by eapply dk_kmsg|]. split_and!.
  - split; try done; [|exists []; by rewrite app_nil_r]. simpl. intros j Hj.
    rewrite lookup_insert_ne; [done|congruence].
  - simpl. apply dom_insert_lookup_L. by exists m.
  - exists []. by rewrite app_nil_r.
Qed.

Lemma dk_importance_clean s k m T Q :
  desk s (Mail k m) T -> kmsg_ok m ->
  (forall s' m', desk s' (Mail k m') T -> kmsg_ok m' -> grows s s' -> m' = set_ikm_importance 0 m -> Q tt s') ->
  wp (ipc_importance_clean k) s Q.
Proof.
  intros HD Hok HQ. pose proof (dk_mail _ _ _ HD) as Hk. simpl in Hk. unfold ipc_importance_clean.
  apply wp_bind, (wp_ikm_get k m); [done|]. rewrite (ko_importance _ Hok).
  assert (Hok' : kmsg_ok (set_ikm_importance 0 m)) by (by destruct Hok).
  apply wp_bind. apply wp_mwhen; intros Hi.
  - apply wp_bind. eapply dk_ikm_mod; [done|done|done|]. intros s1 HD1 Hg1.
    eapply (dk_log s1 _ T); [eapply dk_ext; [done|]; intros r; unfold plus; simpl; lia|].
    intros s2 HD2 Hs2 _ _. wp_step. eapply HQ; [done|done| |done]. etrans; [done|by apply stays_grows].
  - wp_step. bool_to_prop. assert (He : set_ikm_importance 0 m = m) by (destruct m; simpl in *; by subst).
    eapply (HQ s m); [done|done|done|by rewrite He].
Qed.

Context (destroy : Z -> K unit) (Hdestroy : nested destroy).

Lemma wp_voucher_destroy s ev T o Q :
  desk s ev (T ⊕ disposition_rights MACH_MSG_TYPE_PORT_SEND o) -> hand_ok T -> IO_VALID o = true ->
  ks_ith_messages s <> [] ->
  (forall s', desk s' ev T -> grows s s' -> Q tt s') -> wp (object_destroy destroy o MACH_MSG_TYPE_PORT_SEND) s Q.
Proof using Hdestroy.
  intros HD HT Hv Hne HQ.
  assert (Hw : wp (mwhen (IO_VALID o) (object_destroy destroy o MACH_MSG_TYPE_PORT_SEND)) s Q); [|by rewrite Hv in Hw].
  eapply (dk_object_destroy _ _ mode_nested _ Hdestroy false); [|done| |done|done|done].
  - by rewrite carried_plain.
  - intros _. unfold dispositions. set_solver.
Qed.

(** After cleaning, the message holds nothing that counts. *)
Lemma dk_kmsg_clean s k m T Q :
  desk s (Mail k m) (T ⊕ kmsg_rights m) -> hand_ok T -> kmsg_ok m -> ks_ith_messages s <> [] ->
  (has (msgh_bits m) MACH_MSGH_BITS_CIRCULAR = true -> ks_ith_assertions s = 0) ->
  (forall s' m', desk s' (Mail k m') T -> grows s s' -> IP_VALID (ikm_voucher m') = false ->
    ikm_prealloc m' = IP_NULL -> Q tt s') ->
  wp (kmsg_clean destroy k) s Q.
Proof using Hdestroy.
  intros HD HT Hok Hne Htop HQ.  set (circular := has (msgh_bits m) MACH_MSGH_BITS_CIRCULAR) in *. set (dest := msgh_remote_port m) in *.
  set (remote := disposition_rights (MACH_MSGH_BITS_REMOTE (msgh_bits m)) dest).
  set (local := disposition_rights (MACH_MSGH_BITS_LOCAL (msgh_bits m)) (msgh_local_port m)).
  set (voucher := disposition_rights MACH_MSG_TYPE_PORT_SEND (ikm_voucher m)).
  set (body := when (has (msgh_bits m) MACH_MSGH_BITS_COMPLEX) (msgh_descriptors m ≫= descriptor_rights circular)).
  assert (H1 : hand_ok (T ⊕ body)) by (apply hand_ok_plus; [done|apply backed_when, backed_bind, backed_descriptor]).
  assert (H2 : hand_ok (T ⊕ body ⊕ voucher)) by (apply hand_ok_plus; [done|apply backed_disposition]).
  assert (H3 : hand_ok (T ⊕ body ⊕ voucher ⊕ local)) by (apply hand_ok_plus; [done|apply backed_disposition]).
  unfold kmsg_clean. apply wp_bind. eapply (dk_importance_clean s k m); [|done|].
  { eapply (dk_ext _ _ _ (T ⊕ body ⊕ voucher ⊕ local ⊕ remote)); [exact HD|]. intros r. unfold plus, kmsg_rights.
    rewrite (ko_prealloc _ Hok), !cnt_app. change (when (negb (IP_NULL =? IP_NULL)) _) with (@nil right). cbn [cnt].
    fold circular dest remote local voucher body. lia. }
  intros s1 m1 HD1 Hok1 Hg1 Hm1. apply wp_bind, (wp_ikm_get k m1); [apply (dk_mail _ _ _ HD1)|]. cbv zeta.
  assert (E : msgh_bits m1 = msgh_bits m /\ msgh_remote_port m1 = dest /\ msgh_local_port m1 = msgh_local_port m /\
    ikm_voucher m1 = ikm_voucher m /\ msgh_descriptors m1 = msgh_descriptors m) by (by rewrite Hm1).
  destruct E as (-> & -> & -> & E4 & ->). rewrite E4.
  apply wp_bind. eapply dk_destroy_dest; [exact HD1|done|apply Hok|]. intros s2 HD2 Hg2%stays_grows.
  assert (G2 : grows s s2) by (by etrans).
  apply wp_bind. eapply (dk_object_destroy _ _ mode_nested _ Hdestroy false s2 _ (T ⊕ body ⊕ voucher)); [|done| |by eapply grows_queue|done|].
  { unfold carried_rights. destruct (IO_VALID (msgh_local_port m)) eqn:Hv; [|rewrite app_nil_r; exact HD2].
    rewrite (proj2 (Z.eqb_neq (MACH_MSGH_BITS_LOCAL (msgh_bits m)) MACH_MSG_TYPE_PORT_RECEIVE)); [rewrite app_nil_r; exact HD2|].
    pose proof (ko_local _ Hok Hv) as Hl. set_unfold in Hl. by destruct Hl as [->|[->|[]]]. }
  { intros Hv. pose proof (ko_local _ Hok Hv) as Hl. unfold dispositions. set_unfold in Hl. destruct Hl as [->|[->|[]]]; set_solver. }
  intros s3 HD3 Hg3. assert (G3 : grows s s3) by (by etrans).
  assert (Hend : forall s4 m4, desk s4 (Mail k m4) (T ⊕ body) -> grows s s4 -> IP_VALID (ikm_voucher m4) = false ->
    ikm_prealloc m4 = IP_NULL ->
    wp (mwhen (has (msgh_bits m) MACH_MSGH_BITS_COMPLEX) (kmsg_clean_body destroy (msgh_descriptors m))) s4 Q).
  { intros s4 m4 HD4 G4 Hv4 Hp4. unfold body in HD4. apply wp_mwhen; intros Hc; rewrite Hc in HD4; cbn [when] in HD4.
    - eapply (dk_clean_body _ _ mode_nested _ Hdestroy circular); [exact HD4|done|apply Hok|by eapply grows_queue|by eapply (top_ok_keep _ _ mode_nested)|].
      intros s5 HD5 Hg5. eapply HQ; [done|by etrans|done|done].
    - eapply HQ; [eapply dk_ext; [done|]; intros r; unfold plus; simpl; lia|done|done|done]. }
  apply wp_bind. apply wp_mwhen; intros Hv.
  - wp_step. wp_step; [apply Z.eqb_eq; by apply Hok|]. apply wp_bind.
    eapply (wp_voucher_destroy s3 _ (T ⊕ body)); [exact HD3|done|done|by eapply grows_queue|].
    intros s4 HD4 Hg4. eapply dk_ikm_mod; [exact HD4|by destruct Hok1|done|]. intros s5 HD5 Hg5.
    eapply Hend; [done|etrans; [exact G3|]; by etrans|done|apply Hok1].
  - eapply Hend; [|done|by rewrite E4|apply Hok1]. unfold voucher, disposition_rights in HD3. rewrite Hv in HD3.
    eapply dk_ext; [exact HD3|]. intros r. unfold plus. simpl. lia.
Qed.

(** A message after the first *)
Lemma dk_reap_tail s ev T j m k l :
  desk s ev T -> (forall r, 0 <= T r) -> ks_ith_messages s = k :: l -> j ∈ l -> ks_kmsgs s !! j = Some m ->
  has (msgh_bits m) MACH_MSGH_BITS_CIRCULAR = false.
Proof using.
  intros HD HT Hi Hj. apply (dk_plain _ _ _ _ _ HD HT). unfold held. rewrite Hi.
  assert (Hin : RPlain j ∈ reap_rights (k :: l)) by (apply elem_of_app; right; by apply list_elem_of_fmap_2).
  apply cnt_in in Hin. pose proof (mcnt_nonneg space_rights (RPlain j) (ks_spaces s)).
  pose proof (mcnt_nonneg (fun _ => port_rights) (RPlain j) (ks_ports s)).
  pose proof (mcnt_nonneg (fun _ => kmsg_rights) (RPlain j) (ks_kmsgs s)). pose proof (cnt_nonneg (RPlain j) (ks_log s ≫= event_rights)). lia.
Qed.

(** [while ((kmsg = ipc_kmsg_queue_first(queue)) != IKM_NULL)]: there are turns enough for all
    messages there are. *)
Lemma reap_loop_ok fuel : forall s T, desk s Rest T -> hand_ok T -> calm s -> (size (ks_kmsgs s) <= fuel)%nat ->
  wp (reap_loop destroy fuel) s (fun _ s' => desk s' Rest T /\ swept s s' /\ ks_ith_messages s' = [] /\
    forall k, k ∈ ks_ith_messages s -> ks_kmsgs s' !! k = None).
Proof using Hdestroy.
  induction fuel as [|fuel IH]; intros s T HD HT Hcalm Hsize; cbn [reap_loop]; apply wp_bind, wp_get;
    destruct (ks_ith_messages s) as [|k l] eqn:Hi; try (wp_step; split_and!; [done|done|done|by intros ? ?%elem_of_nil]);
    destruct (dk_queued s Rest T k HD (proj1 HT)) as [[m Hk] Hcnt]; try (rewrite Hi; by left).
  { assert (Hs0 : size (ks_kmsgs s) = 0%nat) by lia. apply map_size_empty_iff in Hs0. by rewrite Hs0 in Hk. }
  assert (Hne : ks_ith_messages s <> []) by (by rewrite Hi).
  apply wp_bind. eapply (dk_kmsg_clean s k m T); [by apply dk_open|done|apply (oo_kmsgs _ (dk_objects _ _ _ HD) _ _ Hk)|done| |].
  { apply (Hcalm k m); [by rewrite Hi|done]. }
  intros s1 m1 HD1 (Hsw1 & Hdom1 & l1 & Hi1) Hv1 Hp1.
  pose proof (dk_mail _ _ _ HD1) as Hk1. simpl in Hk1.
  assert (Hq1 : forall x, x ∈ k :: l -> x ∈ ks_ith_messages s1) by (intros x Hx; rewrite Hi1, Hi; apply elem_of_app; by left).
  destruct (dk_queued s1 _ T k HD1 (proj1 HT)) as [_ Hcnt1]; [apply Hq1; by left|].
  wp_step. wp_step. unfold ipc_kmsg_free. apply wp_bind, wp_bind, (wp_ikm_get k m1); [done|].
  wp_step. wp_step; [by rewrite Hv1|]. rewrite Hp1. change (IP_NULL =? IP_NULL) with true. cbn iota. unfold ikm_delete. wp_step.
  assert (Hi1' : ks_ith_messages s1 = k :: (l ++ l1)) by (by rewrite Hi1, Hi).
  rewrite Hi1' in Hcnt1 |- *. rewrite rmqueue_head by done. set (s2 := set_ks_kmsgs _ _).
  assert (HD2 : desk s2 Rest T) by (apply (dk_free _ k m1), (dk_pop s1 _ _ k); done).
  assert (Hsw2 : swept s1 s2).
  { split; try done; [|exists []; by rewrite app_nil_r]. simpl. intros j Hj. apply lookup_delete_None. by right. }
  assert (Hcalm2 : calm s2).
  { intros j mj Hj Hm Hc. simpl in Hj, Hm. apply lookup_delete_Some in Hm as [_ Hm].
    rewrite (dk_reap_tail s1 _ T j mj k (l ++ l1) HD1 (proj1 HT) Hi1') in Hc; [done| |done].
    destruct (l ++ l1); simplify_eq/=. by left. }
  eapply wp_mono; [|apply (IH s2 T HD2 HT Hcalm2)].
  - cbv beta. intros [] s' (HD' & Hsw' & Hi' & Hgone). split_and!; [done|by etrans; [|etrans]|done|].
    intros x Hx. destruct (decide (x = k)) as [->|Hxk].
    + apply (sw_kmsgs _ _ Hsw'). simpl. apply lookup_delete_eq.
    + apply Hgone. simpl. apply Hq1 in Hx. rewrite Hi1' in Hx. by apply elem_of_cons in Hx as [|Hx].
  - simpl. apply (f_equal size) in Hdom1. rewrite !size_dom in Hdom1. rewrite map_size_delete, Hk1. lia.
Qed.

Lemma kmsg_reap_delayed_reaps : reaps (kmsg_reap_delayed destroy).
Proof using Hdestroy.
  intros s T HD HT Hcalm. unfold kmsg_reap_delayed. apply wp_bind, wp_get. by apply reap_loop_ok.
Qed.
End reap.

(** ** The routines *)
Section routines.
Context {env : ipc_env}.

Lemma nested_one : nested (port_destroy_nested 1).
Proof. apply port_destroy_nests. Qed.

Lemma nested_two : nested ipc_port_destroy.
Proof. apply port_destroy_nests. Qed.

Lemma reaps_top : reaps (kmsg_reap_delayed (port_destroy_nested 1)).
Proof. apply kmsg_reap_delayed_reaps, nested_one. Qed.

(** The destruction of a port by a thread that is not destroying one already *)
Lemma dk_ipc_port_destroy s T l o p Q :
  desk s Rest (T ⊕ [RRef o; RLive o] ⊕ home_rights o p ⊕ l) -> moribund o l -> (ip_pdrequest p <> IP_NULL -> l = []) -> hand_ok T -> ks_ports s !! o = Some p -> doomed s p ->
  (forall s', desk s' Rest (T ⊕ transit_rights p) -> swept s s' -> destroyed o p s s' -> Q tt s') ->
  wp (ipc_port_destroy o) s Q.
Proof.
  intros HD Hl Hl0 HT Ho Hdm HQ. eapply dk_port_destroy; [done..| |done]. intros Hi.
  split; [done|apply reaps_top].
Qed.

Lemma destroys_top : destroys idle sweeps ipc_port_destroy.
Proof.
  intros s ev T o p Q HD HT Ho Hdm [-> Hi] HQ. eapply (dk_ipc_port_destroy s T []); [|by constructor|done..|].
  { eapply dk_ext; [exact HD|]. intros r. unfold plus. simpl. lia. }
  intros s' HD' Hsw Hde. apply HQ; [done|]. split; [done|]. intros _. unfold destroyed, swept_queue in Hde.
  destruct (_ =? IP_NULL); destruct Hde as [_ Hq]; rewrite decide_True in Hq by done; apply Hq.
Qed.
End routines.

(** ** How deep the recursion goes *)

(** [m'] returns what [m] returns, where [m] returns. *)
Definition refines {A} (m m' : K A) : Prop := forall s r, m s = Ok r -> m' s = Ok r.

#[global] Instance refines_refl A : Reflexive (@refines A).
Proof. by intros m s r. Qed.

Lemma refines_bind {A B} (m m' : K A) (f f' : A -> K B) :
  refines m m' -> (forall a, refines (f a) (f' a)) -> refines (m ≫= f) (m' ≫= f').
Proof.
  intros Hm Hf s r. unfold mbind, M_bind. destruct (m s) as [[a s']|] eqn:He; [|done].
  rewrite (Hm s (a, s') He). apply Hf.
Qed.

Lemma refines_mwhen b (m m' : K unit) : refines m m' -> refines (mwhen b m) (mwhen b m').
Proof. by destruct b. Qed.

(** Go down to the calls that differ. *)
Create HintDb refines.
Ltac refines_step :=
  match goal with
  | |- refines ?m ?m => reflexivity
  | |- refines (_ ≫= _) (_ ≫= _) => apply refines_bind; [|intros ?]
  | |- refines (mwhen _ _) (mwhen _ _) => apply refines_mwhen
  | |- refines (match ?x with _ => _ end) _ => destruct x
  | _ => progress auto with refines
  end.
Ltac refines := repeat refines_step.

Section deeper.
Context {env : ipc_env} (d d' : Z -> K unit) (Hd : forall o, refines (d o) (d' o)).
#[local] Hint Resolve Hd : refines.

Lemma object_destroy_refines o msgt : refines (object_destroy d o msgt) (object_destroy d' o msgt).
Proof using Hd. unfold object_destroy, release_receive. refines. Qed.
#[local] Hint Resolve object_destroy_refines : refines.

Lemma clean_ports_refines objects msgt : refines (clean_ports d objects msgt) (clean_ports d' objects msgt).
Proof using Hd. induction objects as [|o objects IH]; cbn [clean_ports]; refines. Qed.
#[local] Hint Resolve clean_ports_refines : refines.

Lemma clean_body_refines ds : refines (kmsg_clean_body d ds) (kmsg_clean_body d' ds).
Proof using Hd. induction ds as [|x ds IH]; cbn [kmsg_clean_body]; unfold clean_descriptor; refines. Qed.
#[local] Hint Resolve clean_body_refines : refines.

Lemma reap_refines : refines (kmsg_reap_delayed d) (kmsg_reap_delayed d').
Proof using Hd.
  assert (Hloop : forall fuel, refines (reap_loop d fuel) (reap_loop d' fuel)); [|unfold kmsg_reap_delayed; refines].
  induction fuel as [|fuel IH]; cbn [reap_loop]; unfold kmsg_clean; refines.
Qed.
End deeper.

Section depth.
Context {env : ipc_env}.

Lemma port_destroy_refines r r' o : refines r r' -> refines (port_destroy r o) (port_destroy r' o).
Proof. intros Hr. unfold port_destroy, destroy_dead, mqueue_destroy. refines. Qed.

Lemma port_destroy_deeper depth o : refines (port_destroy_nested depth o) (port_destroy_nested (S depth) o).
Proof.
  revert o. induction depth as [|depth IH]; intros o; [by intros s r|].
  cbn [port_destroy_nested]. apply port_destroy_refines, reap_refines, IH.
Qed.
End depth.

(** ** What the routines do *)

(** C6 Destroying a port in a balanced state runs to its end, whatever is queued on the port
    and on the ports whose receive rights are queued on it.  Without a port-destroyed request
    the port is dead or gone afterwards; the no-senders request gets its send-once
    notification, the threads blocked on the queue are restarted, and every dead-name request
    is notified, in this order and each once; the messages that were queued on it are gone,
    or, when the thread is reaping messages already, are in its queue behind the others.  With
    a request, the port lives on in limbo with its queue, and its receive right is sent to who
    asked for it.  The kernel stays balanced: every right that any of the messages and ports
    held is given up or handed on.  No space or port set changes, no port and no message
    appears, and no dead port comes to life.  (A balanced kernel, [kwf], has no preallocated
    messages and none that raised the importance of their destination.) *)
Theorem ipc_port_destroy_correct {env : ipc_env} s T o p :
  kwf s (T ⊕ [RRef o; RLive o] ⊕ home_rights o p) -> hand_ok T -> ks_ports s !! o = Some p -> doomed s p ->
  wp (ipc_port_destroy o) s (fun _ s' => kwf s' (T ⊕ transit_rights p) /\ swept s s' /\ destroyed o p s s').
Proof.
  intros HK HT Ho Hdm. eapply (dk_ipc_port_destroy s T []); [|by constructor|done..|].
  { apply dk_kwf in HK. eapply dk_ext; [exact HK|]. intros r. unfold plus. simpl. lia. }
  intros s' HD Hsw Hde. split_and!; [by apply dk_kwf|done|done].
Qed.

(** C7 The recursion of the destruction is at most two calls of [ipc_port_destroy] deep: the
    routine returns, and with more depth allowed it returns the same. *)
Theorem ipc_port_destroy_depth {env : ipc_env} s T o p :
  kwf s (T ⊕ [RRef o; RLive o] ⊕ home_rights o p) -> hand_ok T -> ks_ports s !! o = Some p -> doomed s p ->
  exists s', forall n, port_destroy_nested (2 + n) o s = Ok (tt, s').
Proof.
  intros HK HT Ho Hdm. cut (wp (ipc_port_destroy o) s (fun _ _ => True)).
  { intros ([] & s' & Hrun & _)%wp_inv. exists s'. induction n as [|n IH]; [exact Hrun|].
    by apply (port_destroy_deeper (2 + n) o). }
  eapply (dk_ipc_port_destroy s T []); [|by constructor|done..].
  apply dk_kwf in HK. eapply dk_ext; [exact HK|]. intros r. unfold plus. simpl. lia.
Qed.


(** ** Witnesses: a kernel with mail *)
Module DestroyExample.
Import Sample.

(** The receive right of port 0x800 is in the kernel's hands.  On the port, message 0xa00 is
    queued, with the receive right of port 0x900; on that port, message 0xa10 is queued, with
    a send-once right to port 0x100 of the sample kernel. *)
Definition with_mail (messages : list Z) (p : ipc_port) : ipc_port :=
  set_ip_messages (set_imq_msgcount (Z.of_nat (length messages)) (set_imq_messages messages (ip_messages p))) p.
Definition top_port : ipc_port := with_mail [0xa00] (sample_port true 3 0 0 None 1 0).
Definition inner_port : ipc_port := with_mail [0xa10] (sample_port true 2 0x800 0 None 0 1).
Definition top_mail : ipc_kmsg :=
  mk_ipc_kmsg (Z.lor MACH_MSGH_BITS_COMPLEX MACH_MSG_TYPE_PORT_SEND) 0x800 0
    [PortDescriptor 0x900 MACH_MSG_TYPE_PORT_RECEIVE; OolDescriptor 1 0xb00 8 1] 0 0 0 68 0.
Definition inner_mail : ipc_kmsg :=
  mk_ipc_kmsg (Z.lor (Z.shiftl MACH_MSG_TYPE_PORT_SEND_ONCE 8) MACH_MSG_TYPE_PORT_SEND_ONCE) 0x900 0x100 [] 0 0 0 36 0.

Definition kernel_with (p : ipc_port) : kstate :=
  set_ks_kmsgs {[0xa00 := top_mail; 0xa10 := inner_mail]}
    (set_ks_ports (<[0x100 := sample_port true 3 0x1000 0x104 None 1 2]>
      (<[0x800 := p]> (<[0x900 := inner_port]> (ks_ports sample)))) sample).
Definition mailed : kstate := kernel_with top_port.

Lemma mail_ok : kmsg_ok top_mail /\ kmsg_ok inner_mail.
Proof. split; split; try done; try (intros _; vm_compute; set_solver). repeat constructor; vm_compute; set_solver. Qed.

Lemma with_mail_ok o p l : port_ok o p -> ip_active p = true -> port_ok o (with_mail l p).
Proof. intros [] Ha. split; try done. by change (ip_active (with_mail l p)) with (ip_active p); rewrite Ha. Qed.

Lemma kernel_objects p : port_ok 0x800 p -> objects_ok (kernel_with p).
Proof.
  intros Hok. pose proof sample_kwf as [_ [H1 H2 H3 H4] _]. split; [|done| |].
  - intros o q Hq. unfold kernel_with in Hq. cbn [ks_ports set_ks_ports set_ks_kmsgs] in Hq.
    apply lookup_insert_Some in Hq as [[<- <-]|[_ Hq]]; [by apply sample_port_ok|].
    apply lookup_insert_Some in Hq as [[<- <-]|[_ Hq]]; [done|].
    apply lookup_insert_Some in Hq as [[<- <-]|[_ Hq]]; [by apply with_mail_ok; [apply sample_port_ok|]|by apply H1].
  - intros o [q Hq]. change (ks_psets (kernel_with p)) with (ks_psets sample). unfold sample. cbn [ks_psets].
    apply lookup_singleton_None. intros <-. by vm_compute in Hq.
  - intros k m Hm. unfold kernel_with in Hm. cbn [ks_kmsgs set_ks_kmsgs] in Hm.
    apply lookup_insert_Some in Hm as [[<- <-]|[_ Hm]]; [apply mail_ok|].
    apply lookup_singleton_Some in Hm as [<- <-]. apply mail_ok.
Qed.

Lemma mailed_kwf : kwf mailed (hand [RRef 0x800; RLive 0x800; RHome 0x800 0 0]).
Proof.
  pose proof sample_kwf as [_ _ HS]. split; [apply ledger_check_sound; by vm_compute| |done].
  apply kernel_objects, with_mail_ok; [by apply sample_port_ok|done].
Qed.

Lemma mailed_hand : kwf mailed (hand [] ⊕ [RRef 0x800; RLive 0x800] ⊕ home_rights 0x800 top_port).
Proof.
  eapply kwf_proper; [reflexivity| |apply mailed_kwf]. intros r. unfold plus, hand.
  change (home_rights 0x800 top_port) with [RHome 0x800 0 0]. cbn [cnt]. lia.
Qed.

Lemma top_port_doomed : doomed mailed top_port.
Proof. by split. Qed.

Lemma ipc_port_destroy_witness :
  exists s', ipc_port_destroy 0x800 mailed = Ok (tt, s') /\ ks_kmsgs s' !! 0xa00 = None /\
    ks_log s' = [ThreadsRestarted []; ThreadsRestarted []; VmMapCopyDiscard 0xb00; NotifySendOnce 0x100].
Proof.
  destruct (wp_inv _ _ _ (ipc_port_destroy_correct mailed (hand []) 0x800 top_port mailed_hand empty_hand
    ltac:(by vm_compute) top_port_doomed)) as ([] & s' & Hrun & _ & _ & _ & Hq).
  exists s'. split_and!; [exact Hrun| |].
  - unfold swept_queue in Hq. cbn in Hq. apply Hq. by left.
  - assert (Hlog : match ipc_port_destroy 0x800 mailed with Ok (_, s1) => ks_log s1 | Fail _ => [] end =
      [ThreadsRestarted []; ThreadsRestarted []; VmMapCopyDiscard 0xb00; NotifySendOnce 0x100]) by (by vm_compute).
    by rewrite Hrun in Hlog.
Defined.

Lemma ipc_port_destroy_depth_witness :
  exists s', port_destroy_nested 7 0x800 mailed = Ok (tt, s').
Proof.
  destruct (ipc_port_destroy_depth mailed (hand []) 0x800 top_port mailed_hand empty_hand
    ltac:(by vm_compute) top_port_doomed) as [s' Hs']. exists s'. apply (Hs' 5%nat).
Defined.

(** The same, with the message in hand instead of in the queue of port 0x800 *)
Definition posted : kstate := kernel_with (sample_port true 3 0 0 None 1 0).

Lemma posted_kwf : kwf posted (hand [RRef 0x800; RLive 0x800; RHome 0x800 0 0] ⊕ [RMsg 0xa00]).
Proof.
  pose proof sample_kwf as [_ _ HS]. split; [|by apply kernel_objects, sample_port_ok|done].
  eapply ledger_ext; [apply (ledger_check_sound _ [RRef 0x800; RLive 0x800; RHome 0x800 0 0; RMsg 0xa00]); by vm_compute|].
  intros r. unfold plus, hand. cbn [cnt]. lia.
Qed.

End DestroyExample.
