(* ===== verification/IpcCircularOk.v ===== *)
(** * Chains of ports in transit (ipc_importance.c)

    A receive right that is sent to a port is in transit to it until the message is received;
    ports in transit form chains.  A right must not be sent to the end of its own chain: no one
    could ever receive it.  [ipc_port_check_circularity] walks the chain from the destination,
    and either finds the port at its end or puts the port in transit: it terminates when the
    chains have ends, and keeps it so. *)

From S2P Require Import IpcTypes IpcBits IpcHash IpcEntry IpcGrow IpcState IpcLedger IpcPort IpcRequest IpcDestroy IpcRight IpcObject IpcKmsg IpcGentle IpcFocus IpcSample IpcRightOk IpcDeltaOk IpcPortOk IpcCopyOk IpcDesk IpcDestroyOk.

(** ** Chains *)

(** From port [o], [l] are the ports in transit on the way to [b], which is not in transit. *)
Inductive path (P : gmap Z ipc_port) : Z -> list Z -> Z -> Prop :=
  | path_end o p : P !! o = Some p -> ip_in_transit p = false -> path P o [] o
  | path_step o p l b : P !! o = Some p -> ip_in_transit p = true -> path P (ip_destination p) l b -> path P o (o :: l) b.

(** Every port in transit is nearer to its end than the next one. *)
Definition acyclic (P : gmap Z ipc_port) : Prop :=
  exists rank : Z -> nat, forall o p, P !! o = Some p -> ip_in_transit p = true -> (rank (ip_destination p) < rank o)%nat.

(** Ports in transit are in transit to ports. *)
Definition linked (P : gmap Z ipc_port) : Prop :=
  forall o p, P !! o = Some p -> ip_in_transit p = true -> is_Some (P !! ip_destination p).

Section paths.
Context (P : gmap Z ipc_port).

Lemma path_exists : acyclic P -> linked P -> forall o, is_Some (P !! o) -> exists l b, path P o l b.
Proof.
  intros [rank Hr] Hl o. remember (rank o) as n eqn:Hn. revert o Hn.
  induction n as [n IH] using lt_wf_ind. intros o -> [p Ho]. destruct (ip_in_transit p) eqn:Ht.
  - destruct (IH _ (Hr o p Ho Ht) _ eq_refl (Hl o p Ho Ht)) as (l & b & Hp). exists (o :: l), b. by eapply path_step.
  - exists [], o. by eapply path_end.
Qed.

Lemma path_fun o l b l' b' : path P o l b -> path P o l' b' -> l' = l /\ b' = b.
Proof.
  intros H. revert l' b'. induction H as [o p Ho Ht|o p l b Ho Ht Hp IH]; intros l' b' H'; inversion H'; simplify_eq; try done; try congruence.
  by destruct (IH _ _ ltac:(done)) as [-> ->].
Qed.

Lemma path_base o l b : path P o l b -> exists p, P !! b = Some p /\ ip_in_transit p = false.
Proof. induction 1; [by eexists|done]. Qed.

Lemma path_in o l b x : path P o l b -> x ∈ l -> exists p, P !! x = Some p /\ ip_in_transit p = true.
Proof.
  induction 1 as [|o p l b Ho Ht Hp IH]; [by intros ?%elem_of_nil|].
  intros [->|Hx]%elem_of_cons; [by exists p|auto].
Qed.

Lemma path_nodup o l b : acyclic P -> path P o l b -> NoDup l.
Proof.
  intros [rank Hr] Hp.
  cut (NoDup l /\ forall x, x ∈ l -> (rank x <= rank o)%nat); [tauto|].
  induction Hp as [|o p l b Ho Ht Hp [IH1 IH2]]; [split; [constructor|by intros x ?%elem_of_nil]|].
  pose proof (Hr o p Ho Ht). split.
  - constructor; [|done]. intros Hin%IH2. lia.
  - intros x [->|Hx%IH2]%elem_of_cons; lia.
Qed.

(** The chain and its end are different ports. *)
Lemma path_length o l b : acyclic P -> path P o l b -> (length l < size P)%nat.
Proof.
  intros Ha Hp. pose proof (path_nodup _ _ _ Ha Hp) as Hn. destruct (path_base _ _ _ Hp) as (p & Hb & Ht).
  assert (Hnb : NoDup (b :: l)).
  { constructor; [|done]. intros (q & Hq & Htq)%(path_in _ _ _ _ Hp). congruence. }
  change (length l < size P)%nat with (length (b :: l) <= size P)%nat.
  rewrite <- (size_list_to_set (C := gset Z) _ Hnb), <- size_dom. apply subseteq_size.
  intros x [->|Hx]%elem_of_list_to_set%elem_of_cons; apply elem_of_dom; [by exists p|].
  destruct (path_in _ _ _ _ Hp Hx) as (q & Hq & _). by exists q.
Qed.
End paths.

(** Where a path ends *)
Fixpoint tip (fuel : nat) (P : gmap Z ipc_port) (o : Z) : option Z :=
  match P !! o with
  | Some p => if ip_in_transit p then match fuel with O => None | S fuel => tip fuel P (ip_destination p) end else Some o
  | None => None
  end.

Lemma tip_path P fuel : forall o b, tip fuel P o = Some b -> exists l, path P o l b.
Proof.
  induction fuel as [|fuel IH]; intros o b; simpl; (destruct (P !! o) as [p|] eqn:Ho; [|done]);
    (destruct (ip_in_transit p) eqn:Ht; [|intros [= <-]; exists []; by eapply path_end]); [done|].
  intros (l & Hl)%IH. exists (o :: l). by eapply path_step.
Qed.

Lemma path_tip P o l b fuel : path P o l b -> (length l <= fuel)%nat -> tip fuel P o = Some b.
Proof.
  intros H. revert fuel. induction H as [o p Ho Ht|o p l b Ho Ht Hp IH]; intros fuel Hf.
  - by destruct fuel; simpl; rewrite Ho, Ht.
  - destruct fuel as [|fuel]; [simpl in Hf; lia|]. simpl. rewrite Ho, Ht. apply IH. simpl in Hf. lia.
Qed.

(** ** Changing chains *)

(** Ports in transit afterwards were in transit to the same port before. *)
Lemma acyclic_sub P P' :
  acyclic P ->
  (forall o p', P' !! o = Some p' -> ip_in_transit p' = true ->
    exists p, P !! o = Some p /\ ip_in_transit p = true /\ ip_destination p' = ip_destination p) -> acyclic P'.
Proof.
  intros [rank Hr] Hs. exists rank. intros o p' Ho Ht. destruct (Hs o p' Ho Ht) as (p & Hp & Htp & ->). by apply Hr.
Qed.

Lemma acyclic_tame n P P' : acyclic P -> tame n P P' -> acyclic P'.
Proof.
  intros Ha Ht. eapply acyclic_sub; [done|]. intros o p' Ho Htr. destruct (Ht o p' Ho) as (p & Hp & [_ _ HT _ _]).
  destruct (HT Htr) as [? ?]. by exists p.
Qed.

(** A port goes in transit to another whose chain does not end in it. *)
Lemma acyclic_link P o p p' l b :
  acyclic P -> linked P -> P !! o = Some p -> ip_in_transit p = false ->
  path P (ip_destination p') l b -> b <> o -> acyclic (<[o := p']> P).
Proof.
  intros Ha Hlk Ho Ht Hd Hb. pose proof Ha as [rank Hr].
  set (to_o x := bool_decide (tip (size P) P x = Some o)).
  assert (Hend : forall x l' b', path P x l' b' -> to_o x = bool_decide (b' = o)).
  { intros x l' b' Hx. unfold to_o. rewrite (path_tip P x l' b') by (done || by eapply Nat.lt_le_incl, path_length).
    by apply bool_decide_ext; split; congruence. }
  exists (fun x => if to_o x then rank x + S (rank (ip_destination p')) else rank x)%nat.
  intros x q. rewrite lookup_insert. destruct (decide (o = x)) as [<-|Hx].
  - intros [= <-] _. rewrite (Hend _ _ _ Hd), bool_decide_false by done.
    rewrite (Hend o [] o), bool_decide_true by (done || by eapply path_end). lia.
  - intros Hq Htq. pose proof (Hr x q Hq Htq). destruct (path_exists P Ha Hlk _ (Hlk x q Hq Htq)) as (l' & b' & Hp).
    rewrite (Hend _ _ _ Hp), (Hend x (x :: l') b') by (by eapply path_step). case_bool_decide; lia.
Qed.

(** A port and its chain are told apart by two fields only. *)
Lemma path_ext P P' o l b :
  path P o l b ->
  (forall x p, x = b \/ x ∈ l -> P !! x = Some p ->
    exists p', P' !! x = Some p' /\ ip_in_transit p' = ip_in_transit p /\ ip_destination p' = ip_destination p) ->
  path P' o l b.
Proof.
  induction 1 as [o p Ho Ht|o p l b Ho Ht Hp IH]; intros Hx.
  - destruct (Hx o p) as (p' & Hp' & Ht' & _); [by left|done|]. eapply path_end; [done|]. congruence.
  - destruct (Hx o p) as (p' & Hp' & Ht' & Hd); [right; by left|done|]. eapply path_step; [done|congruence|]. rewrite Hd.
    apply IH. intros x q Hq. apply Hx. rewrite elem_of_cons. tauto.
Qed.

(** The assertions of ports change. *)
Definition recounted (P P' : gmap Z ipc_port) : Prop :=
  (forall o p, P !! o = Some p -> exists v, P' !! o = Some (set_ip_impcount v p)) /\
  (forall o, P !! o = None -> P' !! o = None).

#[global] Instance recounted_refl : Reflexive recounted.
Proof. intros P. split; [|done]. intros o p Ho. exists (ip_impcount p). rewrite Ho. by destruct p. Qed.

#[global] Instance recounted_trans : Transitive recounted.
Proof.
  intros P1 P2 P3 [H1 N1] [H2 N2]. split; [|auto]. intros o p Ho. destruct (H1 o p Ho) as [v Hv].
  destruct (H2 o _ Hv) as [w Hw]. by exists w.
Qed.

Lemma recounted_insert P o p v : P !! o = Some p -> recounted P (<[o := set_ip_impcount v p]> P).
Proof.
  intros Ho. split.
  - intros x q Hx. rewrite lookup_insert. destruct (decide (o = x)) as [<-|]; [exists v; congruence|].
    exists (ip_impcount q). rewrite Hx. by destruct q.
  - intros x Hx. rewrite lookup_insert_ne; [done|congruence].
Qed.

(** The assertions of an active port grow, as its 24 bits hold them, along a chain. *)
Definition boosted (n : Z) (p : ipc_port) : ipc_port :=
  if ip_active p then set_ip_impcount (u24 (ip_impcount p + n)) p else p.

Definition boost (n : Z) (chain : list Z) (P : gmap Z ipc_port) : gmap Z ipc_port :=
  foldl (fun P o => alter (boosted n) o P) P chain.

Lemma alter_boosted (P : gmap Z ipc_port) n o p : P !! o = Some p -> alter (boosted n) o P = <[o := boosted n p]> P.
Proof. intros Ho. rewrite <- (insert_id P o p Ho) at 1. apply alter_insert_eq. Qed.

Lemma recounted_alter P n o : recounted P (alter (boosted n) o P).
Proof.
  destruct (P !! o) as [p|] eqn:Ho; [|by rewrite alter_id'].
  rewrite (alter_boosted _ _ _ _ Ho). unfold boosted. destruct (ip_active p); [by apply recounted_insert|by rewrite insert_id].
Qed.

Lemma recounted_boost n chain : forall P, recounted P (boost n chain P).
Proof. induction chain as [|o chain IH]; intros P; [done|]. etrans; [apply recounted_alter|apply IH]. Qed.

Lemma recounted_back P P' o p' : recounted P P' -> P' !! o = Some p' -> exists p v, P !! o = Some p /\ p' = set_ip_impcount v p.
Proof.
  intros [H1 H2] Ho. destruct (P !! o) as [p|] eqn:Hp; [|rewrite H2 in Ho; done].
  destruct (H1 o p Hp) as [v Hv]. exists p, v. split; [done|congruence].
Qed.

Lemma recounted_path P P' o l b : recounted P P' -> path P o l b -> path P' o l b.
Proof.
  intros [H _] Hp. eapply path_ext; [done|]. intros x p _ Hx. destruct (H x p Hx) as [v Hv]. by exists (set_ip_impcount v p).
Qed.

(** ** The walks *)
Section walks.
Context {env : ipc_env}.

Lemma kwf_linked s T : kwf s T -> (forall r, 0 <= T r) -> linked (ks_ports s).
Proof.
  intros [HL _ _] HT o p Ho Ht. unfold ip_in_transit in Ht. apply andb_prop in Ht as [[Ha Hd]%andb_prop Hn].
  pose proof (HL (RRef (ip_destination p))) as H1. pose proof (HL (RPort (ip_destination p))) as H2.
  assert (Hh : forall r, cnt r (port_rights p) <= held s r).
  { intros r. unfold held. pose proof (mcnt_ge (fun _ => port_rights) r _ _ _ Ho). cbv beta in *.
    pose proof (mcnt_nonneg space_rights r (ks_spaces s)). pose proof (mcnt_nonneg (fun _ => kmsg_rights) r (ks_kmsgs s)).
    pose proof (cnt_nonneg r (ks_log s ≫= event_rights)). pose proof (cnt_nonneg r (reap_rights (ks_ith_messages s))). lia. }
  assert (Hin : forall r, r = RRef (ip_destination p) \/ r = RPort (ip_destination p) -> 1 <= cnt r (port_rights p)).
  { intros r Hr. apply cnt_in. unfold port_rights. rewrite Ha, Hd, Hn. cbn [when andb]. rewrite !elem_of_app.
    left. do 3 right. destruct Hr as [-> | ->]; set_solver. }
  pose proof (Hh (RRef (ip_destination p))). pose proof (Hh (RPort (ip_destination p))).
  pose proof (Hin (RRef (ip_destination p)) ltac:(by left)). pose proof (Hin (RPort (ip_destination p)) ltac:(by right)).
  pose proof (HT (RRef (ip_destination p))). pose proof (HT (RPort (ip_destination p))).
  unfold accounts in H1, H2. cbn [target] in *. destruct (ks_ports s !! ip_destination p); [done|].
  destruct (ks_psets s !! ip_destination p); lia.
Qed.

Lemma ip_get_bind {A} s o p (f : ipc_port -> K A) : ks_ports s !! o = Some p -> (ip_get o ≫= f) s = f p s.
Proof. intros Ho. unfold mbind, M_bind, ip_get. by rewrite Ho. Qed.

Lemma chain_base_run s fuel o l b :
  path (ks_ports s) o l b -> (length l <= fuel)%nat -> chain_base fuel o s = Ok (b, s).
Proof.
  intros H. revert fuel. induction H as [o p Ho Ht|o p l b Ho Ht Hp IH]; intros fuel Hf.
  - destruct fuel; cbn [chain_base]; by rewrite (ip_get_bind _ _ p), Ht by done.
  - destruct fuel as [|fuel]; [simpl in Hf; lia|]. cbn [chain_base]. rewrite (ip_get_bind _ _ p), Ht by done.
    apply IH. simpl in Hf. lia.
Qed.

(** The chain ends in limbo. *)
Lemma chain_unlock_run s fuel o l b p :
  path (ks_ports s) o l b -> ks_ports s !! IP_NULL = None -> ks_ports s !! b = Some p -> ip_active p = true ->
  ip_receiver_name p = MACH_PORT_NULL -> ip_destination p = IP_NULL -> (length l < fuel)%nat ->
  chain_unlock fuel o s = Ok (tt, s).
Proof.
  intros H H0 Hb Ha Hn Hd. revert fuel. induction H as [o q Ho Ht|o q l b Ho Ht Hp IH]; intros fuel Hf;
    (destruct fuel as [|fuel]; [simpl in Hf; lia|]); cbn [chain_unlock];
    rewrite (proj2 (Z.eqb_neq o IP_NULL)) by congruence; rewrite (ip_get_bind _ _ q) by done.
  - assert (q = p) as -> by congruence. rewrite Ha, Hn, Hd. by destruct fuel.
  - unfold ip_in_transit in Ht. apply andb_prop in Ht as [[Hqa _]%andb_prop Hqn]. rewrite Hqa, Hqn. simpl.
    apply IH; [done|]. simpl in Hf. lia.
Qed.

(** ** The assertions behind the port *)
Section transfer.
Context (s0 : kstate) (a i name : Z).
Local Abbreviation foc := (focus s0 a i name).

Lemma wf_impcount s P L ev T o p d Q :
  foc s P L ev T -> P !! o = Some p -> 0 <= d ->
  (forall s' v, foc s' (alter (boosted d) o P) L ev T -> Q v s') -> wp (ipc_port_impcount_delta o d) s Q.
Proof.
  intros HF Ho Hd HQ. unfold ipc_port_impcount_delta. apply wp_bind. eapply wf_ip_get; [done|done|].
  destruct (ip_active p) eqn:Ha; cbn [negb].
  2:{ wp_step. apply HQ. rewrite (alter_boosted _ _ _ _ Ho). unfold boosted. by rewrite Ha, insert_id. }
  rewrite (proj2 (Z.leb_le 0 d)) by done.
  pose proof (fc_port_ok _ _ _ _ _ _ _ _ _ HF o p Ho) as Hok. apply wp_bind.
  eapply (wf_ip_counts _ _ _ _ _ _ _ _ _ _ p); [done|done|..]; try done; simpl; try apply Hok.
  - unfold u24. apply Z.mod_pos_bound. done.
  - intros s1 HF1. wp_step. apply HQ. rewrite (alter_boosted _ _ _ _ Ho). unfold boosted. rewrite Ha.
    eapply fc_ext; [done|]. intros r. cbv beta. lia.
Qed.

Lemma wf_chain_transfer P o l b : path P o l b -> linked P -> forall s P' L ev T fuel n Q,
  foc s P' L ev T -> recounted P P' -> 0 <= n -> (length l <= fuel)%nat ->
  (forall s', foc s' (boost n (l ++ [b]) P') L ev T -> Q tt s') -> wp (chain_transfer fuel o b n) s Q.
Proof.
  induction 1 as [o p Ho Ht|o p l b Ho Ht Hp IH]; intros Hlk s P' L ev T fuel n Q HF Hrc Hn Hf HQ;
    destruct (proj1 Hrc o p Ho) as [v Hv].
  - destruct fuel; cbn [chain_transfer]; apply wp_bind; (eapply wf_impcount; [done|done|done|]); intros s1 d HF1;
      rewrite Z.eqb_refl; wp_step; by apply HQ.
  - destruct fuel as [|fuel]; [simpl in Hf; lia|]. cbn [chain_transfer]. apply wp_bind.
    eapply wf_impcount; [done|done|done|]. intros s1 d HF1. pose proof (recounted_alter P' n o) as Hrc1.
    assert (Hne : o <> b).
    { intros ->. destruct (path_base _ _ _ _ Hp) as (q & Hq & Htq). congruence. }
    rewrite (proj2 (Z.eqb_neq o b)) by done. destruct (proj1 Hrc1 o _ Hv) as [w Hw].
    apply wp_bind. eapply wf_ip_get; [done|done|].
    unfold ip_in_transit in Ht. apply andb_prop in Ht as [[Hpa Hpd]%andb_prop Hpn]. apply negb_true_iff, Z.eqb_neq in Hpd.
    pose proof (po_transit _ _ (fc_port_ok _ _ _ _ _ _ _ _ _ HF1 o _ Hw)) as [Htr _].
    destruct (Htr Hpa) as (_ & _ & Htm); [by apply Z.eqb_eq|].
    wp_step. wp_step; [done|]. wp_step. wp_step; [done|]. wp_step. wp_step; [by apply negb_true_iff, Z.eqb_neq|].
    wp_step. wp_step; [by rewrite (Htm Hpd)|].
    eapply IH; [done|exact HF1|by etrans|done|simpl in Hf; lia|done].
Qed.

(** Every log entry here is without rights. *)
Lemma wf_log_free s P L ev T e Q :
  foc s P L ev T -> event_rights e = [] -> (forall s' L', foc s' P L' ev T -> Q tt s') -> wp (log e) s Q.
Proof.
  intros HF He HQ. eapply wf_log; [done|]. intros s' HF'. eapply HQ, fc_ext; [done|]. rewrite He. same_hand.
Qed.

Lemma wf_mwhen_log_free s P L ev T b e Q :
  foc s P L ev T -> event_rights e = [] -> (forall s' L', foc s' P L' ev T -> Q tt s') -> wp (mwhen b (log e)) s Q.
Proof. intros HF He HQ. destruct b; [by eapply wf_log_free|]. cbn [mwhen]. wp_step. by eapply HQ. Qed.

Lemma wf_transfer_imp_task s P L ev T b p n held Q :
  foc s P L ev T -> P !! b = Some p -> (0 < n -> held = true) ->
  (ip_active p = true -> ip_receiver_name p <> MACH_PORT_NULL -> is_Some (ks_spaces s !! ip_receiver p)) ->
  (forall t s' L', foc s' P L' ev T -> (t <> IIT_NULL -> held = true) -> Q t s') ->
  wp (transfer_imp_task b n held) s Q.
Proof.
  intros HF Hb Hn Hhome HQ. unfold transfer_imp_task. apply wp_bind. eapply wf_ip_get; [done|done|].
  destruct (ip_active p) eqn:Ha; cbn [andb]; [|wp_step; by apply (HQ _ s L)].
  destruct (Z.ltb_spec 0 n) as [Hpos|]; [|wp_step; by apply (HQ _ s L)].
  wp_step. wp_step; [by apply Hn|].
  assert (Hbase : wp (base_imp_task b) s (fun t s' => s' = s /\ (ip_tempowner p = true -> t = ip_imp_task p))).
  { unfold base_imp_task. apply wp_bind. eapply wf_ip_get; [done|done|]. rewrite Ha. cbn [negb].
    destruct (ip_tempowner p); [wp_step; done|]. destruct (Z.eqb_spec (ip_receiver_name p) MACH_PORT_NULL) as [|Hne]; cbn [negb];
      [wp_step; done|]. destruct (Hhome eq_refl Hne) as [sp Hsp]. unfold is_get. apply wp_bind. unfold wp. rewrite Hsp. done. }
  apply wp_bind. eapply wp_mono; [|exact Hbase]. intros t s' [-> Ht]. apply wp_bind. apply (wp_mono _ _ (fun _ s' => s' = s)).
  2:{ destruct (ip_tempowner p) eqn:Htm; cbn [andb mwhen]; [|wp_step; done]. rewrite Ht by done.
      destruct (Z.eqb_spec (ip_imp_task p) IIT_NULL); cbn [negb mwhen]; wp_step; [done| |done].
      by apply (po_transit _ _ (fc_port_ok _ _ _ _ _ _ _ _ _ HF b p Hb)). }
  intros _ s' ->. apply wp_bind. eapply wf_mwhen_log_free; [done|done|]. intros s1 L1 HF1. wp_step.
  eapply HQ; [done|]. intros _. by apply Hn.
Qed.

Lemma wf_transfer_assertions s P L ev T t t' n held Q :
  foc s P L ev T -> (t <> IIT_NULL -> held = true) -> (t' <> IIT_NULL -> held = true) ->
  (forall s' L', foc s' P L' ev T -> Q tt s') -> wp (transfer_assertions t t' n held) s Q.
Proof.
  intros HF H1 H2 HQ. unfold transfer_assertions.
  assert (Hstep : forall s L x e Q, foc s P L ev T -> event_rights e = [] -> (x <> IIT_NULL -> held = true) ->
    (forall s' L', foc s' P L' ev T -> Q tt s') ->
    wp (mwhen (negb (x =? IIT_NULL)) (_ ← massert held; mwhen (negb (t =? t')) (log e))) s Q).
  { intros s1 L1 x e Q1 HF1 He Hx HQ1. destruct (Z.eqb_spec x IIT_NULL); cbn [negb mwhen]; [wp_step; by eapply HQ1|].
    wp_step. wp_step; [by apply Hx|]. by eapply wf_mwhen_log_free. }
  apply wp_bind. eapply Hstep; [done|done|done|]. intros s1 L1 HF1. apply wp_bind. eapply Hstep; [done|done|done|].
  intros s2 L2 HF2. apply wp_bind. eapply wf_mwhen_log_free; [done|done|]. intros s3 L3 HF3.
  eapply wf_mwhen_log_free; [done|done|]. intros s4 L4 HF4. by eapply HQ.
Qed.
End transfer.

(** ** A port goes in transit *)

(** What the walks rely on: chains have ends, there is room for [n] more references,
    receivers exist. *)
Record sendable (n : Z) (s : kstate) : Prop := {
  sd_acyclic : acyclic (ks_ports s);
  sd_refs : forall o p, ks_ports s !! o = Some p -> ip_references p + n < IO_MAX_REFERENCES;
  sd_home : forall o p, ks_ports s !! o = Some p -> ip_active p = true -> ip_receiver_name p <> MACH_PORT_NULL ->
    is_Some (ks_spaces s !! ip_receiver p);
}.

(** Between the two, nothing happened but what is gentle. *)
Lemma sendable_tame m n s s' :
  sendable (m + n) s -> tame m (ks_ports s) (ks_ports s') ->
  (forall b, is_Some (ks_spaces s !! b) -> is_Some (ks_spaces s' !! b)) -> sendable n s'.
Proof.
  intros [H1 H2 H4] Ht Hs. split.
  - by eapply acyclic_tame.
  - intros o p' Ho. destruct (Ht o p' Ho) as (p & Hp & []). specialize (H2 o p Hp). lia.
  - intros o p' Ho Ha Hn. destruct (Ht o p' Ho) as (p & Hp & []). destruct (tp_home Ha Hn) as [-> Hm]. rewrite Hm in Hn.
    apply Hs, (H4 o); auto.
Qed.

Definition sent (dest : Z) (p : ipc_port) : ipc_port :=
  set_ip_tempowner false (set_ip_imp_task IIT_NULL (set_ip_destination dest p)).

Lemma wp_sent {A} s o p dest (k : K A) Q :
  ks_ports s !! o = Some p -> ip_tempowner p = true -> wp k (put_port s o (sent dest p)) Q ->
  wp (_ ← ip_mod o (set_ip_destination dest);
      _ ← massert (ip_tempowner p);
      _ ← mwhen (negb (ip_imp_task p =? IIT_NULL)) (ip_mod o (set_ip_imp_task IIT_NULL));
      _ ← ip_mod o (set_ip_tempowner false);
      k) s Q.
Proof.
  intros Ho Ht Hk. apply wp_bind, (wp_ip_mod o _ p); [done|]. wp_step. wp_step; [done|]. apply wp_bind.
  apply (wp_mono _ _ (fun _ s' => s' = put_port s o (set_ip_imp_task IIT_NULL (set_ip_destination dest p)))).
  { intros _ s' ->. apply wp_bind, (wp_ip_mod o _ (set_ip_imp_task IIT_NULL (set_ip_destination dest p))); [apply lookup_insert_eq|].
    by rewrite put_port_put. }
  destruct (Z.eqb_spec (ip_imp_task p) IIT_NULL) as [Hi|]; cbn [negb mwhen].
  - wp_step. destruct p. simpl in *. by subst.
  - apply (wp_ip_mod o _ (set_ip_destination dest p)); [apply lookup_insert_eq|]. by rewrite put_port_put.
Qed.

(** An object known to be a port *)
Lemma fc_note s0 a i name s P L ev T o p :
  focus s0 a i name s P L ev T -> P !! o = Some p -> focus s0 a i name s P L ev (T ⊕ [RPort o]).
Proof.
  intros HF Ho. pose proof (oo_disjoint _ (fc_objects _ _ _ _ _ _ _ _ _ HF) o) as Hd.
  rewrite (fc_ports _ _ _ _ _ _ _ _ _ HF), Ho in Hd. specialize (Hd ltac:(by eexists)).
  destruct HF as [HP HLg HL HO HS HSp HFr]. split; try done. intros r. specialize (HL r). unfold plus, minus in *. cbn [cnt].
  destruct (decide (r = RPort o)) as [->|Hr].
  - unfold accounts in *. cbn [target] in *. by rewrite Hd in *.
  - rewrite ind_ne by done. match goal with H : accounts s r ?x |- accounts s r ?y => replace y with x by lia end. done.
Qed.

Lemma fc_sent s0 a i name s P L ev T o p dest :
  focus s0 a i name s P L ev (T ⊕ [RRef dest]) -> P !! o = Some p -> ip_active p = true ->
  ip_receiver_name p = MACH_PORT_NULL -> ip_destination p = IP_NULL -> is_Some (P !! dest) ->
  focus s0 a i name (put_port s o (sent dest p)) (<[o := sent dest p]> P) L ev (T ⊕ [RTransit o]).
Proof.
  intros HF Ho Ha Hn Hd [d Hdest]. pose proof (fc_port_ok _ _ _ _ _ _ _ _ _ HF o p Ho) as Hok.
  pose proof (fc_port_ok _ _ _ _ _ _ _ _ _ HF dest d Hdest) as Hdok.
  assert (Hd0 : dest <> IP_NULL) by (intros ->; by pose proof (po_valid _ _ Hdok)).
  apply (fc_note _ _ _ _ _ _ _ _ _ dest d) in HF; [|done].
  eapply fc_ext; [apply (fc_put_port _ _ _ _ _ _ _ _ _ o p (sent dest p) HF Ho); [|done]|].
  - destruct (po_transit _ _ Hok) as [Htr _]. destruct Hok. split; try done. split; [|done]. intros _ Hnn.
    destruct (Htr Ha Hnn) as (Hidle & _ & _). split_and!; [done|by right|done].
  - intros r. cbv beta. rewrite move_active by done.
    assert (Hh : cnt r (home_rights o (sent dest p)) = cnt r (home_rights o p)) by (unfold home_rights; change (ip_receiver_name (sent dest p)) with (ip_receiver_name p); by rewrite Hn).
    rewrite Hh, slot_move_transit by done. unfold transit_rights, transit_count.
    change (ip_active (sent dest p)) with (ip_active p). change (ip_receiver_name (sent dest p)) with (ip_receiver_name p).
    unfold sent. simpl. rewrite Ha, Hn, Hd.
    rewrite (proj2 (Z.eqb_neq dest IP_NULL)) by done. unfold plus. simpl. lia.
Qed.

(** The ports afterwards, but for the assertions *)
Definition linked_up (P : gmap Z ipc_port) (port dest : Z) (p d : ipc_port) : gmap Z ipc_port :=
  <[port := sent dest p]> (<[dest := set_ip_references (ip_references d + 1) d]> P).

Section one.
Context (s : kstate) (T : right -> Z) (port dest base n : Z) (l : list Z) (p d : ipc_port).
Context (HK : kwf s (T ⊕ disposition_rights MACH_MSG_TYPE_PORT_RECEIVE port)) (HT : hand_ok T) (Hn : 0 <= n).
Context (Hp : ks_ports s !! port = Some p) (Hd : ks_ports s !! dest = Some d) (Hs : sendable (1 + n) s).
Context (Hlimbo : ip_destination p = IP_NULL) (Htmp : ip_tempowner p = true).

Lemma in_hand : IP_VALID port = true /\ hand_ok (T ⊕ disposition_rights MACH_MSG_TYPE_PORT_RECEIVE port).
Proof using HK HT Hp.
  split; [by eapply po_valid, (oo_ports _ (kw_objects _ _ HK))|]. apply hand_ok_plus; [done|apply backed_disposition].
Qed.

(** The receive right in hand says that the port is alive and without a receiver. *)
Lemma limbo_port : ip_active p = true /\ ip_receiver_name p = MACH_PORT_NULL.
Proof using HK HT Hp.
  destruct in_hand as [Hv [Hpos _]]. pose proof (fc_rest s 0 0 0 _ HK) as HF.
  assert (Hr : forall r, r ∈ [RLive port; RHome port IS_NULL MACH_PORT_NULL] ->
    0 < (T ⊕ disposition_rights MACH_MSG_TYPE_PORT_RECEIVE port) r).
  { intros r Hr. unfold plus. pose proof (proj1 HT r).
    cut (1 <= cnt r (disposition_rights MACH_MSG_TYPE_PORT_RECEIVE port)); [lia|]. apply cnt_in.
    unfold disposition_rights. change (IO_VALID port) with (IP_VALID port). rewrite Hv. cbn. rewrite !elem_of_cons in *. tauto. }
  destruct (fc_home _ _ _ _ _ _ _ _ _ HF port p IS_NULL MACH_PORT_NULL Hp) as (? & _ & ?); [|done].
  apply Hr. rewrite !elem_of_cons. tauto.
Qed.

Context (Hne : port <> dest) (Hpath : path (ks_ports s) dest l base) (Hbase : base <> port).

Lemma path_apart : port ∉ l.
Proof using Hlimbo Hp Hpath.
  intros (q & Hq & Ht)%(path_in _ _ _ _ _ Hpath). assert (q = p) as -> by congruence.
  unfold ip_in_transit in Ht. rewrite Hlimbo in Ht. by rewrite andb_false_r in Ht.
Qed.

Lemma path_linked_up : path (linked_up (ks_ports s) port dest p d) dest l base.
Proof using HK Hbase Hd Hlimbo Hne Hp Hpath.
  pose proof path_apart as Hap. eapply path_ext; [done|]. intros x q Hx Hq. unfold linked_up.
  rewrite lookup_insert_ne by (destruct Hx as [->|?]; [done|by intros ->]). rewrite lookup_insert.
  destruct (decide _) as [<-|]; [|by exists q]. assert (q = d) as -> by congruence. by eexists.
Qed.

Lemma sendable_linked_up s' :
  recounted (linked_up (ks_ports s) port dest p d) (ks_ports s') -> ks_spaces s' = ks_spaces s -> sendable n s'.
Proof using All.
  intros Hrc Hsp. pose proof Hs as [H1 H2 H4]. pose proof limbo_port as [Ha Hnm]. destruct in_hand as [_ [Hpos _]].
  assert (Hback : forall o q', ks_ports s' !! o = Some q' -> exists q v,
    q' = set_ip_impcount v q /\ linked_up (ks_ports s) port dest p d !! o = Some q)
    by (intros o q' (q & v & ? & ?)%(recounted_back _ _ _ _ Hrc); by exists q, v).
  assert (Hcase : forall o q, linked_up (ks_ports s) port dest p d !! o = Some q ->
    o = port /\ q = sent dest p \/ o = dest /\ q = set_ip_references (ip_references d + 1) d \/ ks_ports s !! o = Some q).
  { intros o q. unfold linked_up. rewrite lookup_insert. destruct (decide (port = o)) as [<-|]; [intros [= <-]; by left|].
    rewrite lookup_insert. destruct (decide (dest = o)) as [<-|]; [intros [= <-]; right; by left|by right; right]. }
  split.
  - apply (acyclic_sub (linked_up (ks_ports s) port dest p d)).
    2:{ intros o q' Ho Ht. destruct (Hback o q' Ho) as (q & v & -> & Hq). by exists q. }
    assert (Hsub : forall o q, <[dest := set_ip_references (ip_references d + 1) d]> (ks_ports s) !! o = Some q ->
      exists q0, ks_ports s !! o = Some q0 /\ ip_in_transit q = ip_in_transit q0 /\ ip_destination q = ip_destination q0).
    { intros o q. rewrite lookup_insert. destruct (decide (dest = o)) as [<-|]; [intros [= <-]; by exists d|by exists q]. }
    eapply (acyclic_link _ port p _ l base); [| |by rewrite lookup_insert_ne|by unfold ip_in_transit; rewrite Hlimbo, andb_false_r| |done].
    + eapply acyclic_sub; [done|]. intros o q Hq Ht. destruct (Hsub o q Hq) as (q0 & ? & ? & ?). exists q0. split_and!; congruence.
    + intros o q Hq Ht. destruct (Hsub o q Hq) as (q0 & Hq0 & Ht0 & ->).
      destruct (kwf_linked _ _ HK Hpos o q0 Hq0 ltac:(congruence)) as [x Hx].
      rewrite lookup_insert. destruct (decide _); by eexists.
    + eapply path_ext; [done|]. intros x q _ Hq. rewrite lookup_insert. destruct (decide _) as [<-|]; [|by exists q].
      assert (q = d) as -> by congruence. by eexists.
  - intros o q' Ho. destruct (Hback o q' Ho) as (q & v & -> & Hq).
    destruct (Hcase o q Hq) as [[-> ->]|[[-> ->]|Hq']]; simpl; [pose proof (H2 _ _ Hp)|pose proof (H2 _ _ Hd)|pose proof (H2 _ _ Hq')]; lia.
  - intros o q' Ho Hact Hnn. rewrite Hsp. destruct (Hback o q' Ho) as (q & v & -> & Hq).
    destruct (Hcase o q Hq) as [[-> ->]|[[-> ->]|Hq']]; [by destruct Hnn|by apply (H4 _ _ Hd)|by apply (H4 _ _ Hq')].
Qed.

Lemma wf_start_transit held :
  (ip_impdonation p = true \/ 0 < ip_impcount p -> held = true) ->
  wp (start_transit port dest base held) s (fun _ s' =>
    kwf s' (T ⊕ carried_rights false MACH_MSG_TYPE_PORT_RECEIVE port) /\ only_ports s s' /\
    ks_ports s' = boost (ip_impcount p) (l ++ [base]) (linked_up (ks_ports s) port dest p d)).
Proof using All.
  intros Hheld. pose proof limbo_port as [Ha Hnm]. destruct in_hand as [Hv [Hpos _]].
  pose proof (fc_rest s (nowhere s) 0 0 _ HK) as HF. pose proof (fc_port_ok _ _ _ _ _ _ _ _ _ HF port p Hp) as Hok.
  assert (Hlk : linked (linked_up (ks_ports s) port dest p d)).
  { intros o q Ho Ht.
    assert (Hex : forall x, is_Some (ks_ports s !! x) -> is_Some (linked_up (ks_ports s) port dest p d !! x)).
    { intros x [y Hy]. unfold linked_up. rewrite !lookup_insert. do 2 (destruct (decide _); [by eexists|]). by eexists. }
    apply Hex. revert Ho. unfold linked_up. rewrite lookup_insert. destruct (decide (port = o)) as [<-|]; [intros [= <-]; by eexists|].
    rewrite lookup_insert. destruct (decide (dest = o)) as [<-|]; [intros [= <-]; by apply (kwf_linked _ _ HK Hpos dest d)|].
    intros Ho. by apply (kwf_linked _ _ HK Hpos o q). }
  unfold start_transit. wp_step. apply wp_get. apply wp_bind. eapply wf_ip_get; [done|done|].
  wp_step. wp_step; [done|]. wp_step. wp_step; [by apply Z.eqb_eq|]. wp_step. wp_step; [by apply Z.eqb_eq|].
  apply wp_bind. eapply wf_reference; [done|done| |].
  { pose proof (sd_refs _ _ Hs dest d Hd). lia. }
  intros s1 HF1. cbv zeta. apply (wp_sent s1 port p).
  { rewrite (fc_ports _ _ _ _ _ _ _ _ _ HF1). by rewrite lookup_insert_ne. }
  { done. }
  apply (fc_sent _ _ _ _ _ _ _ _ _ port p dest) in HF1; [|by rewrite lookup_insert_ne|done..|by rewrite lookup_insert_eq; eexists].
  fold (linked_up (ks_ports s) port dest p d) in HF1.
  apply wp_bind. eapply (wf_chain_transfer _ _ _ _ _ dest l base); [exact path_linked_up|done|exact HF1|done|apply Hok| |].
  { apply Nat.lt_le_incl. eapply path_length; [apply Hs|done]. }
  intros s2 HF2. pose proof (recounted_boost (ip_impcount p) (l ++ [base]) (linked_up (ks_ports s) port dest p d)) as Hrc.
  destruct (path_base _ _ _ _ path_linked_up) as (q & Hq & _).
  destruct (proj1 Hrc base q Hq) as [v Hbv]. apply wp_bind. eapply wf_transfer_imp_task; [exact HF2|exact Hbv|auto| |].
  { intros Hqa Hqn. destruct (fc_frame _ _ _ _ _ _ _ _ _ HF2) as (_ & _ & _ & Hfr & _).
    change (ip_receiver (set_ip_impcount v q)) with (ip_receiver q) in *. unfold linked_up in Hq.
    rewrite lookup_insert_ne in Hq by done.
    assert (Hrec : is_Some (ks_spaces s !! ip_receiver q)).
    { rewrite lookup_insert in Hq. destruct (decide _) as [<-|]; [injection Hq as <-; by apply (sd_home _ _ Hs dest d)|].
      by apply (sd_home _ _ Hs base q). }
    rewrite Hfr; [done|]. intros Hnw. rewrite Hnw, nowhere_none in Hrec. by destruct Hrec. }
  intros t s3 L3 HF3 Ht. eapply wf_transfer_assertions; [exact HF3|done| |].
  { intros Hi. apply Hheld. left. by destruct (po_transit _ _ Hok) as [_ [_ Hdon]]. }
  intros s4 L4 HF4. apply rest_end in HF4 as (HK4 & HP4 & _ & Hon). rewrite HP4. split_and!; [|done..].
  eapply kwf_proper; [done| |exact HK4]. intros r. unfold carried_rights, plus.
  rewrite cnt_app. cbn [when]. change (IO_VALID port) with (IP_VALID port). rewrite Hv. cbn. lia.
Qed.
End one.

(** ** The check *)

(** The port is in transit to the destination, which has one more reference, and every port
    from the destination to the end of its chain takes its assertions over. *)
Definition departed (P : gmap Z ipc_port) (port dest : Z) (P' : gmap Z ipc_port) : Prop :=
  exists p d l base, P !! port = Some p /\ P !! dest = Some d /\ path P dest l base /\
    P' = boost (ip_impcount p) (l ++ [base]) (linked_up P port dest p d).

Lemma departed_recounted P port dest P' :
  departed P port dest P' -> exists p d, P !! port = Some p /\ P !! dest = Some d /\ recounted (linked_up P port dest p d) P'.
Proof. intros (p & d & l & base & Hp & Hd & _ & ->). exists p, d. split_and!; [done..|apply recounted_boost]. Qed.

Lemma wf_check_circularity s T port dest p n :
  kwf s (T ⊕ disposition_rights MACH_MSG_TYPE_PORT_RECEIVE port) -> hand_ok T -> 0 <= n -> sendable (1 + n) s ->
  ks_ports s !! port = Some p -> ip_destination p = IP_NULL -> ip_tempowner p = true -> is_Some (ks_ports s !! dest) ->
  wp (ipc_port_check_circularity port dest) s (fun circular s' =>
    (circular = true <-> exists l, path (ks_ports s) dest l port) /\
    if circular then s' = s
    else kwf s' (T ⊕ carried_rights false MACH_MSG_TYPE_PORT_RECEIVE port) /\ only_ports s s' /\ sendable n s' /\
      departed (ks_ports s) port dest (ks_ports s') /\
      (forall o, is_Some (ks_ports s !! o) -> is_Some (ks_ports s' !! o)) /\
      exists p', ks_ports s' !! port = Some p' /\ ip_in_transit p' = true /\ ip_destination p' = dest).
Proof.
  intros HK HT Hn Hs Hp Hlimbo Htmp [d Hd]. destruct (limbo_port s T port p HK HT Hp) as [Ha Hnm].
  pose proof (kw_objects _ _ HK) as HO. pose proof (po_valid _ _ (oo_ports _ HO _ _ Hp)) as Hpv.
  pose proof (po_valid _ _ (oo_ports _ HO _ _ Hd)) as Hdv.
  assert (Hnt : ip_in_transit p = false) by (unfold ip_in_transit; by rewrite Hlimbo, andb_false_r).
  unfold ipc_port_check_circularity, ipc_importance_check_circularity.
  wp_step. wp_step; [by destruct (Z.eqb_spec port IP_NULL) as [->|]|]. wp_step. wp_step; [by destruct (Z.eqb_spec dest IP_NULL) as [->|]|].
  destruct (Z.eqb_spec port dest) as [<-|Hne].
  { wp_step. split; [|done]. split; [|done]. intros _. exists []. by apply (path_end _ _ p). }
  destruct (in_hand s T port p HK HT Hp) as [_ [Hpos _]].
  destruct (path_exists _ (sd_acyclic _ _ Hs) (kwf_linked _ _ HK Hpos) dest ltac:(by eexists)) as (l & base & Hpath).
  pose proof (path_length _ _ _ _ (sd_acyclic _ _ Hs) Hpath) as Hlen.
  wp_step. apply wp_get. apply wp_bind, (wp_ip_get port p); [done|]. apply wp_bind, (wp_ip_get dest d); [done|].
  cbv zeta. apply wp_bind. eapply wp_Ok; [eapply chain_base_run; [exact Hpath|unfold chain_fuel; lia]|].
  destruct (Z.eqb_spec port base) as [<-|Hb].
  - apply wp_bind, (wp_ip_get port p); [done|]. wp_step. wp_step; [done|]. wp_step. wp_step; [by apply Z.eqb_eq|].
    wp_step. wp_step; [by apply Z.eqb_eq|]. apply wp_bind. eapply wp_Ok.
    { eapply chain_unlock_run; [exact Hpath| |exact Hp|done|done|done|done].
      destruct (ks_ports s !! IP_NULL) as [q|] eqn:Hq; [|done]. by pose proof (po_valid _ _ (oo_ports _ HO _ _ Hq)). }
    wp_step. split; [|done]. split; [|done]. intros _. by exists l.
  - apply wp_bind. eapply wp_mono; [|eapply wf_start_transit; try done].
    2:{ intros [-> | H]; [done|]. rewrite (proj2 (Z.ltb_lt _ _)) by done. by rewrite orb_true_r. }
    intros _ s' (HK' & Hon & HP').
    pose proof (recounted_boost (ip_impcount p) (l ++ [base]) (linked_up (ks_ports s) port dest p d)) as Hrc.
    rewrite <- HP' in Hrc. wp_step. split.
    { split; [done|]. intros [l' Hl']. by destruct (path_fun _ _ _ _ _ _ Hpath Hl') as [_ <-]. }
    split_and!; [done|done| | | |].
    + eapply sendable_linked_up; try done. apply Hon.
    + by exists p, d, l, base.
    + intros o [q Hq].
      assert (Hex : is_Some (linked_up (ks_ports s) port dest p d !! o)).
      { unfold linked_up. rewrite !lookup_insert. do 2 (destruct (decide _); [by eexists|]). by eexists. }
      destruct Hex as [q' Hq']. destruct (proj1 Hrc o q' Hq') as [v Hv]. by eexists.
    + destruct (proj1 Hrc port (sent dest p)) as [v Hv]; [apply lookup_insert_eq|]. eexists. split_and!; [exact Hv| |done].
      unfold ip_in_transit. change (ip_active (set_ip_impcount v (sent dest p))) with (ip_active p).
      change (ip_receiver_name (set_ip_impcount v (sent dest p))) with (ip_receiver_name p). rewrite Ha, Hnm.
      simpl. by destruct (Z.eqb_spec dest IP_NULL) as [->|].
Qed.
End walks.

(** C9 The circularity check terminates and finds exactly the circles: it answers yes, and
    changes nothing, when the chain of ports in transit from the destination ends in the port
    whose receive right is sent; otherwise the port is in transit to the destination
    afterwards, without its temporary owner, the destination has one more reference, every
    active port from the destination to the end of its chain has the assertions of the port
    added to its own (as 24 bits hold them), no other port changes, and the kernel stays
    balanced and its chains without circles. *)
Theorem ipc_port_check_circularity_correct {env : ipc_env} s T port dest p n :
  kwf s (T ⊕ disposition_rights MACH_MSG_TYPE_PORT_RECEIVE port) -> hand_ok T -> 0 <= n -> sendable (1 + n) s ->
  ks_ports s !! port = Some p -> ip_destination p = IP_NULL -> ip_tempowner p = true -> is_Some (ks_ports s !! dest) ->
  wp (ipc_port_check_circularity port dest) s (fun circular s' =>
    (circular = true <-> exists l, path (ks_ports s) dest l port) /\
    if circular then s' = s
    else kwf s' (T ⊕ carried_rights false MACH_MSG_TYPE_PORT_RECEIVE port) /\ only_ports s s' /\ sendable n s' /\
      departed (ks_ports s) port dest (ks_ports s') /\
      exists p', ks_ports s' !! port = Some p' /\ ip_in_transit p' = true /\ ip_destination p' = dest).
Proof.
  intros. eapply wp_mono; [|by eapply wf_check_circularity]. cbv beta. intros circular s' [Hc Hs']. split; [done|].
  destruct circular; [done|]. by destruct Hs' as (? & ? & ? & ? & _ & ?).
Qed.

(** ** A kernel with a chain *)
Module CircularExample.
Import Sample DestroyExample.

(** Port 0x900 is in transit to port 0x800, whose receive right, with five
    assertions, is to be sent. *)
Definition adrift_port : ipc_port := set_ip_impcount 5 (set_ip_tempowner true (sample_port true 3 0 0 None 1 0)).
Definition adrift_kernel : kstate := kernel_with adrift_port.

Lemma adrift_kwf : kwf adrift_kernel (hand [RMsg 0xa00] ⊕ disposition_rights MACH_MSG_TYPE_PORT_RECEIVE 0x800).
Proof.
  pose proof sample_kwf as [_ _ HS]. split; [| |done].
  - eapply ledger_ext; [apply (ledger_check_sound _ (RMsg 0xa00 :: disposition_rights MACH_MSG_TYPE_PORT_RECEIVE 0x800)); by vm_compute|].
    intros r. unfold plus, hand. cbn [cnt]. lia.
  - apply kernel_objects. split; try done. split; [|done]. intros _ _. split_and!; [done|by left|done].
Qed.

Lemma letter_hand : hand_ok (hand [RMsg 0xa00]).
Proof. split; [intros r; apply cnt_nonneg|]. intros o. unfold hand. cnt_simpl. destruct (decide (o = 0xa00)); lia. Qed.

Definition adrift_ports : list (Z * ipc_port) := Eval vm_compute in map_to_list (ks_ports adrift_kernel).

Lemma each_listed {A} (m : gmap Z A) l (Q : Z -> A -> Prop) :
  map_to_list m = l -> Forall (fun kv => Q kv.1 kv.2) l -> forall k v, m !! k = Some v -> Q k v.
Proof.
  intros Hl H k v Hk. rewrite list.Forall_forall in H. apply (H (k, v)). rewrite <- Hl. by apply elem_of_map_to_list.
Qed.

Ltac each_port l :=
  match goal with |- forall o p, _ -> @?Q o p => apply (each_listed _ l Q); [by vm_compute|] end;
  unfold l; repeat (apply Forall_cons_2); try apply Forall_nil_2; cbn [fst snd].

Lemma adrift_sendable : sendable 3 adrift_kernel.
Proof.
  split.
  - exists (fun o => if o =? 0x900 then 1%nat else 0%nat). each_port adrift_ports; by vm_compute.
  - each_port adrift_ports; done.
  - each_port adrift_ports; intros Ha H; first [by destruct H|by vm_compute in Ha|vm_compute; by eexists].
Qed.

(** The port's right cannot be sent to the port in transit to it, but to another one. *)
Lemma ipc_port_check_circularity_witness :
  ipc_port_check_circularity 0x800 0x900 adrift_kernel = Ok (true, adrift_kernel) /\
  exists s' p', ipc_port_check_circularity 0x800 0x300 adrift_kernel = Ok (false, s') /\
    departed (ks_ports adrift_kernel) 0x800 0x300 (ks_ports s') /\
    ks_ports s' !! 0x800 = Some p' /\ ip_in_transit p' = true /\ ip_destination p' = 0x300.
Proof.
  split.
  - destruct (wp_inv _ _ _ (ipc_port_check_circularity_correct adrift_kernel (hand [RMsg 0xa00]) 0x800 0x900 adrift_port 2
      adrift_kwf letter_hand ltac:(done) adrift_sendable eq_refl eq_refl eq_refl ltac:(by eexists))) as (c & s' & Hrun & Hc & Hs').
    destruct c; [by rewrite Hrun, Hs'|]. discriminate (proj2 Hc). exists [0x900].
    eapply path_step; [by vm_compute|done|]. by eapply path_end; [vm_compute|].
  - destruct (wp_inv _ _ _ (ipc_port_check_circularity_correct adrift_kernel (hand [RMsg 0xa00]) 0x800 0x300 adrift_port 2
      adrift_kwf letter_hand ltac:(done) adrift_sendable eq_refl eq_refl eq_refl ltac:(by eexists))) as (c & s' & Hrun & Hc & Hs').
    destruct c.
    + destruct (proj1 Hc eq_refl) as [l Hl]. inversion Hl as [? q Hq|? q ? ? Hq Ht]; vm_compute in Hq; simplify_eq.
    + destruct Hs' as (_ & _ & _ & Hdp & p' & Hp'). exists s', p'. split; [exact Hrun|]. split; [exact Hdp|exact Hp'].
Defined.
End CircularExample.
