(* ===== verification/IpcFrame.v ===== *)
(** * A message in the hands of one thread

    A thread that copies a message in or out has the message to itself: what it calls for the
    rights in the message neither reads nor changes the message.  [oblivious m] says this of a
    program: it runs the same way in a kernel with one more message.  [aside k m s T] is a
    balanced kernel with message [k] laid aside; what it carries is among the rights [T] in
    hand, and its fields can be changed at will. *)

From S2P Require Import IpcTypes IpcBits IpcHash IpcEntry IpcGrow IpcState IpcLedger IpcPort IpcRequest IpcDestroy IpcRight IpcObject IpcKmsg IpcGentle IpcFocus IpcRightOk IpcPortOk IpcDesk IpcDestroyOk.

(** ** Programs that do not look *)

Definition with_kmsg (k : Z) (m : ipc_kmsg) (s : kstate) : kstate := set_ks_kmsgs (<[k := m]> (ks_kmsgs s)) s.
Definition without (k : Z) (s : kstate) : kstate := set_ks_kmsgs (delete k (ks_kmsgs s)) s.

Definition oblivious {A} (m : K A) : Prop :=
  forall k x s a s', ks_kmsgs s !! k = None -> m s = Ok (a, s') ->
    ks_kmsgs s' !! k = None /\ m (with_kmsg k x s) = Ok (a, with_kmsg k x s').

Lemma ob_ret {A} (a : A) : oblivious (mret a).
Proof. by intros k x s b s' Hk [= <- <-]. Qed.
Lemma ob_fail {A} e : oblivious (fail e : K A).
Proof. by intros k x s b s' Hk. Qed.
Lemma ob_assert b : oblivious (massert b : K unit).
Proof. destruct b; [apply ob_ret|by intros k x s b s' Hk]. Qed.
Lemma ob_lift {A} (r : res A) : oblivious (lift r : K A).
Proof. destruct r; intros k x s b s' Hk; by try intros [= <- <-]. Qed.
Lemma ob_mderef {A} (o : option A) : oblivious (mderef o : K A).
Proof. destruct o; intros k x s b s' Hk; by try intros [= <- <-]. Qed.
Lemma ob_mwhen b (m : K unit) : oblivious m -> oblivious (mwhen b m).
Proof. destruct b; [done|]. intros _. apply ob_ret. Qed.

Lemma ob_bind {A B} (m : K A) (f : A -> K B) : oblivious m -> (forall a, oblivious (f a)) -> oblivious (m ≫= f).
Proof.
  intros Hm Hf k x s b s' Hk (a & s1 & H1 & H2)%bind_Ok. destruct (Hm k x s a s1 Hk H1) as [Hk1 G1].
  destruct (Hf a k x s1 b s' Hk1 H2) as [Hk2 G2]. split; [done|]. unfold mbind, M_bind. by rewrite G1.
Qed.

Lemma ob_get {A} (f : kstate -> K A) :
  (forall k x s, f (with_kmsg k x s) = f s) -> (forall s, oblivious (f s)) -> oblivious (get ≫= f).
Proof.
  intros Hw Hf k x s a s' Hk H. change (f s s = Ok (a, s')) in H. destruct (Hf s k x s a s' Hk H) as [Hk' H'].
  split; [done|]. change (f (with_kmsg k x s) (with_kmsg k x s) = Ok (a, with_kmsg k x s')). by rewrite Hw.
Qed.

Lemma ob_modify f :
  (forall k x s, f (with_kmsg k x s) = with_kmsg k x (f s)) -> (forall s, ks_kmsgs (f s) = ks_kmsgs s) ->
  oblivious (modify f : K unit).
Proof.
  intros Hf Hk k x s [] s' Hs [= <-]. split; [by rewrite Hk|]. change (Ok (tt, f (with_kmsg k x s)) = Ok (tt, with_kmsg k x (f s))).
  by rewrite Hf.
Qed.

Create HintDb oblivious.
#[export] Hint Resolve ob_ret ob_fail ob_assert ob_lift ob_mderef : oblivious.
#[export] Hint Extern 2 (oblivious (modify _)) => (apply ob_modify; reflexivity) : oblivious.

(** Go through a program. *)
Ltac oblivious :=
  cbv zeta;
  lazymatch goal with
  | |- oblivious (get ≫= _) => apply ob_get; [reflexivity|intros ?; oblivious]
  | |- oblivious (_ ≫= _) => apply ob_bind; [oblivious|intros ?; oblivious]
  | |- oblivious (mwhen _ _) => apply ob_mwhen; oblivious
  | |- oblivious (match ?x with _ => _ end) => destruct x; oblivious
  | |- _ => first [solve [auto with oblivious] | progress autounfold with oblivious; oblivious]
  end.

(** *** Access *)
Lemma ob_ip_get o : oblivious (ip_get o).
Proof.
  intros k x s a s' Hk. unfold ip_get. change (ks_ports (with_kmsg k x s)) with (ks_ports s).
  by destruct (ks_ports s !! o); intros [= <- <-].
Qed.
Lemma ob_ips_get o : oblivious (ips_get o).
Proof.
  intros k x s a s' Hk. unfold ips_get. change (ks_psets (with_kmsg k x s)) with (ks_psets s).
  by destruct (ks_psets s !! o); intros [= <- <-].
Qed.
Lemma ob_is_get o : oblivious (is_get o).
Proof.
  intros k x s a s' Hk. unfold is_get. change (ks_spaces (with_kmsg k x s)) with (ks_spaces s).
  by destruct (ks_spaces s !! o); intros [= <- <-].
Qed.
Lemma ob_ikm_get j : oblivious (ikm_get j).
Proof.
  intros k x s a s' Hk. unfold ikm_get. simpl. destruct (ks_kmsgs s !! j) as [m|] eqn:Hj; [|done].
  rewrite lookup_insert_ne by congruence. rewrite Hj. by intros [= <- <-].
Qed.
#[export] Hint Resolve ob_ip_get ob_ips_get ob_is_get ob_ikm_get : oblivious.

Lemma ob_ikm_mod j f : oblivious (ikm_mod j f).
Proof.
  intros k x s [] s' Hk (m & s1 & H1 & H2)%bind_Ok. unfold ikm_get in H1. destruct (ks_kmsgs s !! j) as [q|] eqn:Hj; [|done].
  injection H1 as <- <-. injection H2 as <-. simpl. split; [rewrite lookup_insert_ne; congruence|].
  unfold ikm_mod, mbind, M_bind, ikm_get. simpl. rewrite lookup_insert_ne, Hj by congruence. simpl.
  unfold with_kmsg, modify. simpl. by rewrite insert_insert_ne by congruence.
Qed.
#[export] Hint Resolve ob_ikm_mod : oblivious.
#[export] Hint Unfold ip_put ip_mod ips_put ips_mod is_put in_space space_res ie_get ie_mod entry_modified entry_dealloc hash_insert
  hash_delete log send_port_deleted send_no_senders mach_port_guard_exception ipc_notify_port_deleted ipc_notify_send_possible
  ipc_notify_port_destroyed ipc_notify_no_senders ipc_notify_send_once ipc_notify_dead_name : oblivious.

(** *** References *)
Lemma ob_finalize o : oblivious (ipc_port_finalize o).
Proof. unfold ipc_port_finalize, ipc_mqueue_deinit. oblivious. Qed.
Lemma ob_io_is_port o : oblivious (io_is_port o).
Proof. unfold io_is_port. oblivious. Qed.
#[export] Hint Resolve ob_finalize ob_io_is_port : oblivious.
Lemma ob_io_bits o : oblivious (io_bits o).
Proof. unfold io_bits. oblivious. Qed.
#[export] Hint Resolve ob_io_bits : oblivious.
Lemma ob_io_free t o : oblivious (io_free t o).
Proof. unfold io_free. oblivious. Qed.
#[export] Hint Resolve ob_io_free : oblivious.
Lemma ob_io_reference o : oblivious (io_reference o).
Proof. unfold io_reference, io_references, io_set_references. oblivious. Qed.
Lemma ob_io_release o : oblivious (io_release o).
Proof. unfold io_release, io_references, io_set_references. oblivious. Qed.
Lemma ob_timestamp : oblivious ipc_port_timestamp.
Proof. unfold ipc_port_timestamp. oblivious. Qed.
Lemma ob_pop_zalloc : oblivious pop_zalloc.
Proof. unfold pop_zalloc. oblivious. Qed.
Lemma ob_pop_kalloc : oblivious pop_kalloc.
Proof. unfold pop_kalloc. oblivious. Qed.
#[export] Hint Resolve ob_io_reference ob_io_release ob_timestamp ob_pop_zalloc ob_pop_kalloc : oblivious.

(** *** Messages: a program that frees message [j] knows it. *)
Definition oblivious_but {A} (j : Z) (m : K A) : Prop :=
  forall k x s a s', k <> j -> ks_kmsgs s !! k = None -> m s = Ok (a, s') ->
    ks_kmsgs s' !! k = None /\ m (with_kmsg k x s) = Ok (a, with_kmsg k x s').

Lemma ob_but_bind {A B} j (m : K A) (f : A -> K B) :
  oblivious m -> (forall a, oblivious_but j (f a)) -> oblivious_but j (m ≫= f).
Proof.
  intros Hm Hf k x s b s' Hj Hk (a & s1 & H1 & H2)%bind_Ok. destruct (Hm k x s a s1 Hk H1) as [Hk1 G1].
  destruct (Hf a k x s1 b s' Hj Hk1 H2) as [Hk2 G2]. split; [done|]. unfold mbind, M_bind. by rewrite G1.
Qed.

Lemma ob_but_delete j : oblivious_but j (ikm_delete j).
Proof.
  intros k x s [] s' Hj Hk [= <-]. simpl. split; [by rewrite lookup_delete_ne|]. unfold ikm_delete, modify, with_kmsg. simpl.
  by rewrite delete_insert_ne by done.
Qed.

Lemma ob_known {A} j (f : ipc_kmsg -> K A) : (forall m, oblivious_but j (f m)) -> oblivious (ikm_get j ≫= f).
Proof.
  intros Hf k x s a s' Hk H. pose proof H as (m & s1 & H1 & H2)%bind_Ok. pose proof H1 as H1'. unfold ikm_get in H1'.
  destruct (ks_kmsgs s !! j) as [q|] eqn:Hj; [|done]. injection H1' as -> ->.
  destruct (ob_ikm_get j k x s1 m s1 Hk H1) as [_ G1]. destruct (Hf m k x s1 a s' ltac:(congruence) Hk H2) as [Hk2 G2].
  split; [done|]. unfold mbind, M_bind. by rewrite G1.
Qed.

Lemma ob_kmsg_free j : oblivious (ipc_kmsg_free j).
Proof.
  assert (Hob : forall A (m : K A), oblivious m -> oblivious_but j m) by (intros A m H k x s a s' _; apply H).
  unfold ipc_kmsg_free. apply ob_known. intros m. apply ob_but_bind; [oblivious|]. intros _. cbv zeta.
  destruct (_ =? _); [apply ob_but_delete|]. apply ob_but_bind; [oblivious|]. intros _. apply ob_but_bind; [oblivious|].
  intros p. destruct (_ && _); [apply Hob; oblivious|]. apply ob_but_bind; [oblivious|]. intros _. apply ob_but_delete.
Qed.
#[export] Hint Resolve ob_kmsg_free : oblivious.

Section operations.
Context {env : ipc_env}.

(** *** Giving rights up *)
Lemma ob_release_send o : oblivious (ipc_port_release_send o).
Proof. unfold ipc_port_release_send. oblivious. Qed.
Lemma ob_release_sonce o : oblivious (ipc_port_release_sonce o).
Proof. unfold ipc_port_release_sonce. oblivious. Qed.
Hint Resolve ob_release_send ob_release_sonce : oblivious.

Lemma ob_destroy_dest o d : oblivious (ipc_object_destroy_dest o d).
Proof. unfold ipc_object_destroy_dest. oblivious. Qed.
Hint Resolve ob_destroy_dest : oblivious.

Lemma ob_impcount o d : oblivious (ipc_port_impcount_delta o d).
Proof. unfold ipc_port_impcount_delta. oblivious. Qed.
Hint Resolve ob_impcount : oblivious.

Lemma ob_chain_base fuel : forall o, oblivious (chain_base fuel o).
Proof. induction fuel as [|fuel IH]; intros o; simpl; oblivious. Qed.
Lemma ob_chain_adjust fuel : forall o b d, oblivious (chain_adjust fuel o b d).
Proof. induction fuel as [|fuel IH]; intros; simpl; oblivious. Qed.
Hint Resolve ob_chain_base ob_chain_adjust : oblivious.

Lemma ob_base_imp_task o : oblivious (base_imp_task o).
Proof. unfold base_imp_task. oblivious. Qed.
Hint Resolve ob_base_imp_task : oblivious.

Lemma ob_importance_delta o x d : oblivious (ipc_port_importance_delta o x d).
Proof. unfold ipc_port_importance_delta, ipc_port_importance_delta_internal. oblivious. Qed.
Hint Resolve ob_importance_delta : oblivious.

Lemma ob_importance_clean k : oblivious (ipc_importance_clean k).
Proof. unfold ipc_importance_clean. oblivious. Qed.
Hint Resolve ob_importance_clean : oblivious.

Section destroy.
Context (destroy : Z -> K unit) (Hd : forall o, oblivious (destroy o)).
Hint Resolve Hd : oblivious.

Lemma ob_object_destroy o d : oblivious (object_destroy destroy o d).
Proof using Hd. unfold object_destroy, release_receive. oblivious. Qed.
Hint Resolve ob_object_destroy : oblivious.

Lemma ob_clean_ports objects d : oblivious (clean_ports destroy objects d).
Proof using Hd. induction objects; simpl; oblivious. Qed.
Hint Resolve ob_clean_ports : oblivious.

Lemma ob_clean_body ds : oblivious (kmsg_clean_body destroy ds).
Proof using Hd. induction ds; simpl; unfold clean_descriptor; oblivious. Qed.
Hint Resolve ob_clean_body : oblivious.

Lemma ob_kmsg_clean k : oblivious (kmsg_clean destroy k).
Proof using Hd. unfold kmsg_clean. oblivious. Qed.
Hint Resolve ob_kmsg_clean : oblivious.

Lemma ob_reap_loop fuel : oblivious (reap_loop destroy fuel).
Proof using Hd. induction fuel; simpl; oblivious. Qed.

(** More turns than needed *)
Lemma reap_loop_more fuel : refines (reap_loop destroy fuel) (reap_loop destroy (S fuel)).
Proof using.
  induction fuel as [|fuel IH].
  - intros s r. cbn [reap_loop]. unfold mbind, M_bind, get. by destruct (ks_ith_messages s).
  - remember (S fuel) as n eqn:Hn. rewrite Hn at 1. cbn [reap_loop]. apply refines_bind; [done|]. intros s.
    destruct (ks_ith_messages s); [done|]. do 3 (apply refines_bind; [done|]; intros ?). done.
Qed.

Lemma ob_reap : oblivious (kmsg_reap_delayed destroy).
Proof using Hd.
  intros k x s a s' Hk H. destruct (ob_reap_loop (size (ks_kmsgs s)) k x s a s' Hk H) as [Hk' H']. split; [done|].
  change (reap_loop destroy (size (<[k := x]> (ks_kmsgs s))) (with_kmsg k x s) = Ok (a, with_kmsg k x s')).
  rewrite map_size_insert_None by done. by apply reap_loop_more.
Qed.
End destroy.

Lemma ob_destroy_queue l : forall b, oblivious (destroy_queue l b).
Proof. induction l; intros b; simpl; unfold ipc_kmsg_delayed_destroy; oblivious. Qed.
Hint Resolve ob_destroy_queue : oblivious.

Lemma ob_mqueue_destroy r o : oblivious r -> oblivious (mqueue_destroy r o).
Proof. intros Hr. unfold mqueue_destroy. oblivious. Qed.

Lemma ob_dnnotify o : oblivious (ipc_port_dnnotify o).
Proof.
  assert (Hl : forall n rq i, oblivious (dnnotify_loop n rq i)) by (induction n; intros; simpl; oblivious).
  unfold ipc_port_dnnotify. oblivious.
Qed.
Hint Resolve ob_mqueue_destroy ob_dnnotify : oblivious.

Lemma ob_port_destroy r o : oblivious r -> oblivious (port_destroy r o).
Proof.
  intros Hr. unfold port_destroy, destroy_assertions, drop_assertions, destroy_limbo, destroy_dead, destroy_prealloc,
    ipc_mqueue_deinit, ipc_kobject_destroy. oblivious.
Qed.

Lemma ob_destroy o : oblivious (ipc_port_destroy o).
Proof.
  unfold ipc_port_destroy. generalize 2%nat. intros depth. revert o.
  induction depth as [|depth IH]; intros o; simpl; [oblivious|]. by apply ob_port_destroy, ob_reap.
Qed.
Hint Resolve ob_destroy : oblivious.

(** *** Copying in *)
Lemma ob_ipr_mod o i f : oblivious (ipr_mod o i f).
Proof. unfold ipr_mod. oblivious. Qed.
Hint Resolve ob_ipr_mod : oblivious.

Lemma ob_request_cancel a o name i : oblivious (ipc_right_request_cancel_macro a o name i).
Proof. unfold ipc_right_request_cancel_macro, ipc_right_request_cancel, ipc_port_request_cancel. oblivious. Qed.
Hint Resolve ob_request_cancel : oblivious.

Lemma ob_right_check a o name i : oblivious (ipc_right_check a o name i).
Proof. unfold ipc_right_check, ipc_port_request_type. oblivious. Qed.
Hint Resolve ob_right_check : oblivious.

Lemma ob_clear_receiver o : oblivious (ipc_port_clear_receiver o).
Proof.
  unfold ipc_port_clear_receiver, ipc_pset_remove_from_all, ipc_mqueue_remove_from_all, ipc_mqueue_changed, ipc_port_set_mscount.
  oblivious.
Qed.
Hint Resolve ob_clear_receiver : oblivious.

Lemma ob_right_copyin a name i msgt deadok : oblivious (ipc_right_copyin a name i msgt deadok).
Proof.
  unfold ipc_right_copyin, copyin_make_send, copyin_make_send_once, copyin_move_receive, copyin_copy_send, copyin_move_send,
    copyin_move_send_once, copyin_receive, copyin_existing, copyin_dead. oblivious.
Qed.
Hint Resolve ob_right_copyin : oblivious.

Lemma ob_lookup a name : oblivious (ipc_right_lookup_write a name).
Proof. unfold ipc_right_lookup_write. oblivious. Qed.
Hint Resolve ob_lookup : oblivious.

Lemma ob_object_copyin a name msgt : oblivious (ipc_object_copyin a name msgt).
Proof. unfold ipc_object_copyin. oblivious. Qed.

(** *** Copying out *)
Lemma ob_right_reverse a o : oblivious (ipc_right_reverse a o).
Proof. unfold ipc_right_reverse. oblivious. Qed.
Hint Resolve ob_right_reverse : oblivious.

Lemma ob_right_copyout a name i msgt overflow o : oblivious (ipc_right_copyout a name i msgt overflow o).
Proof. unfold ipc_right_copyout, copyout_send_once, copyout_send, copyout_receive. oblivious. Qed.
Hint Resolve ob_right_copyout : oblivious.

Lemma ob_grow a size : oblivious (entry_grow_table a size).
Proof. unfold entry_grow_table. oblivious. Qed.
Hint Resolve ob_grow : oblivious.

Lemma ob_object_copyout a o msgt overflow : oblivious (ipc_object_copyout a o msgt overflow).
Proof. unfold ipc_object_copyout, copyout_loop, copyout_turn. oblivious. Qed.

(** *** Circles *)
Lemma ob_check_circularity port dest : oblivious (ipc_port_check_circularity port dest).
Proof.
  assert (H1 : forall fuel o, oblivious (chain_unlock fuel o)) by (induction fuel; intros; simpl; oblivious).
  assert (H2 : forall fuel o b n, oblivious (chain_transfer fuel o b n)) by (induction fuel; intros; simpl; oblivious).
  unfold ipc_port_check_circularity, ipc_importance_check_circularity, start_transit, transfer_imp_task, transfer_assertions.
  oblivious.
Qed.
End operations.

(** ** A message laid aside *)

(** The receive rights a circular message carries need not be in transit. *)
Lemma carried_circular d o : carried_rights true d o = disposition_rights d o.
Proof. unfold carried_rights. by rewrite andb_false_r, app_nil_r. Qed.

Section aside.
Context {env : ipc_env}.

Definition aside (k : Z) (m : ipc_kmsg) (s : kstate) (T : right -> Z) : Prop :=
  ks_kmsgs s !! k = Some m /\ kwf (without k s) T.

Lemma without_with k m s : ks_kmsgs s !! k = None -> without k (with_kmsg k m s) = s.
Proof. intros Hk. unfold without, with_kmsg. simpl. rewrite delete_insert_id by done. by destruct s. Qed.

Lemma with_without k m s : ks_kmsgs s !! k = Some m -> with_kmsg k m (without k s) = s.
Proof. intros Hk. unfold without, with_kmsg. simpl. rewrite insert_delete_id by done. by destruct s. Qed.

Lemma aside_ext k m s T T' : aside k m s T -> (forall r, T' r = T r) -> aside k m s T'.
Proof. intros [Hk HK] HT. split; [done|]. by eapply kwf_proper; [| |exact HK]. Qed.

Lemma aside_put k m s T : ks_kmsgs s !! k = None -> kwf s T -> aside k m (with_kmsg k m s) T.
Proof. intros Hk HK. split; [apply lookup_insert_eq|]. by rewrite without_with. Qed.

(** Take it out. *)
Lemma aside_start k m s T : kwf s (T ⊕ [RMsg k]) -> ks_kmsgs s !! k = Some m -> aside k m s (T ⊕ kmsg_rights m).
Proof.
  intros HK Hk. split; [done|]. apply dk_kwf. apply (dk_free s k m). eapply dk_ext; [apply dk_open; [by apply dk_kwf|done]|].
  intros r. unfold plus. lia.
Qed.

(** Put it back, with what it carries now. *)
Lemma aside_end k m s T :
  aside k m s (T ⊕ kmsg_rights m) -> kmsg_ok m -> hand_ok T -> kwf s (T ⊕ [RMsg k]).
Proof.
  intros [Hk [HL HO HS]] Hm [HT Hd]. split; [|destruct HO as [O1 O2 O3 O4]; split; try done|done].
  2:{ intros j mj Hj. destruct (decide (j = k)) as [->|Hne]; [congruence|]. apply (O4 j). simpl. by rewrite lookup_delete_ne. }
  assert (Hheld : forall r, held s r = held (without k s) r + cnt r (kmsg_rights m)).
  { intros r. unfold held. simpl. rewrite (mcnt_delete _ _ _ _ _ Hk). lia. }
  intros r. specialize (Hheld r). pose proof (HL r) as Hr. unfold plus in Hr |- *. cbn [cnt]. rewrite Hheld.
  destruct r as [| | | | | | |j| | | |j];
    try (rewrite (ind_ne _ (RMsg k)) by done;
         match goal with H : accounts _ ?r ?x |- accounts _ _ ?y => replace y with x by lia; exact H end).
  - unfold accounts in *. cbn [target] in *. simpl in Hr. rewrite (cnt_msg_kmsg (RMsg j)) in * by done.
    destruct (decide (j = k)) as [->|Hne].
    + rewrite Hk, ind_eq. rewrite lookup_delete_eq in Hr. lia.
    + rewrite ind_ne by congruence. rewrite lookup_delete_ne in Hr by done. lia.
  - rewrite (ind_ne _ (RMsg k)) by done. unfold accounts in *. cbn [target] in *. simpl in Hr.
    rewrite (cnt_msg_kmsg (RPlain j)) in * by done. destruct (decide (j = k)) as [->|Hne].
    + rewrite Hk. intros _. pose proof (HL (RMsg k)) as Hq. unfold accounts in Hq. cbn [target] in Hq. simpl in Hq.
      rewrite lookup_delete_eq in Hq. unfold plus in Hq. rewrite (cnt_msg_kmsg (RMsg k)) in Hq by done.
      pose proof (held_dominated (without k s) k). pose proof (held_nonneg (without k s) (RMsg k)).
      pose proof (HT (RMsg k)). pose proof (Hd k). lia.
    + rewrite lookup_delete_ne in Hr by done. destruct (ks_kmsgs s !! j); [|done]. intros Hc. specialize (Hr Hc). lia.
Qed.

(** Run a program that does not look at it. *)
Lemma wp_aside {A} (p : K A) k m s Q :
  oblivious p -> ks_kmsgs s !! k = Some m ->
  wp p (without k s) (fun a s' => ks_kmsgs s' !! k = None -> Q a (with_kmsg k m s')) -> wp p s Q.
Proof.
  intros Hp Hk (a & s' & Hrun & HQ)%wp_inv. destruct (Hp k m (without k s) a s' (lookup_delete_eq _ _) Hrun) as [Hk' Hrun'].
  rewrite with_without in Hrun' by done. eapply wp_Ok; [exact Hrun'|auto].
Qed.

(** Change it. *)
Lemma aside_mod k m s T f Q :
  aside k m s T -> (forall s', aside k (f m) s' T -> without k s' = without k s -> Q tt s') -> wp (ikm_mod k f) s Q.
Proof.
  intros [Hk HK] HQ. unfold ikm_mod. apply wp_bind, (wp_ikm_get k m); [done|]. wp_step.
  assert (Hw : without k (with_kmsg k (f m) s) = without k s).
  { unfold without, with_kmsg. simpl. by rewrite delete_insert_eq. }
  apply (HQ (with_kmsg k (f m) s)); [|done]. split; [apply lookup_insert_eq|]. by rewrite Hw.
Qed.

(** Throw it away. *)
Lemma aside_free k m s T :
  aside k m s T -> IP_VALID (ikm_voucher m) = false -> ikm_prealloc m = IP_NULL ->
  wp (ipc_kmsg_free k) s (fun _ s' => kwf s' T /\ s' = without k s).
Proof.
  intros [Hk HK] Hv Hp. unfold ipc_kmsg_free. apply wp_bind, (wp_ikm_get k m); [done|]. rewrite Hv, Hp.
  wp_step. wp_step; [done|]. cbv zeta. rewrite Z.eqb_refl. unfold ikm_delete. wp_step. by split.
Qed.
End aside.
