(* ===== verification/IpcAllocOk.v ===== *)
(** * A place for a new right

    Before a right is copied out to a space, the space is searched for an entry that has the
    port already, and otherwise an entry is taken from its free list, after growing the table
    if that is empty.  These steps keep the ledger: [kwf s T] before a growth is [kwf s' T]
    after it, and an entry that is taken is in work ([focus]) without a right. *)

From S2P Require Import IpcTypes IpcBits IpcTable IpcHash IpcEntry IpcGrow IpcState IpcLedger IpcPort IpcRequest IpcDestroy IpcRight IpcObject IpcFocus IpcSample IpcRightOk IpcDeltaOk IpcPortOk IpcCopyOk.

(** ** Wider tables *)

(** The table of [sp'] has the entries of [sp] and maybe free ones after them. *)
Definition wider (sp sp' : ipc_space) : Prop :=
  is_active sp' = is_active sp /\ is_task sp' = is_task sp /\ is_table_size sp <= is_table_size sp' /\
  (forall j, 0 < j < is_table_size sp ->
    let e := entry_at (is_table sp) j in let e' := entry_at (is_table sp') j in
    IE_BITS_TYPE (ie_bits e') = IE_BITS_TYPE (ie_bits e) /\
    (IE_BITS_TYPE (ie_bits e) <> MACH_PORT_TYPE_NONE -> core e' = core e)) /\
  (forall j, is_table_size sp <= j < is_table_size sp' ->
    IE_BITS_TYPE (ie_bits (entry_at (is_table sp') j)) = MACH_PORT_TYPE_NONE).

#[global] Instance wider_refl : Reflexive wider.
Proof. intros sp. split_and!; try done. intros j Hj. lia. Qed.

(** ** Growing *)

Section places.
Context {env : ipc_env} (Hsizes : sizes_ok ipc_table_entries).

Lemma chain_next_nonneg t a l x :
  chain t a l -> (forall j, j ∈ l -> 0 < j) -> x = a \/ x ∈ l -> 0 <= next_of t x.
Proof.
  revert a. induction l as [|y l IH]; intros a Hc Hl Hx; simpl in Hc.
  - destruct Hx as [->|Hx]; [lia|by apply elem_of_nil in Hx].
  - destruct Hc as [Hn Hc]. destruct Hx as [->|Hx]; [rewrite Hn; pose proof (Hl y ltac:(by left)); lia|].
    apply (IH y); [done|intros; apply Hl; by right|]. by apply elem_of_cons in Hx.
Qed.

Lemma space_words sp : space_wf sp -> is_active sp = true -> words_ok sp.
Proof.
  intros Hwf Ha. destruct (Hwf Ha) as ((H & l & HI) & He & _ & _). intros j Hj.
  assert (Hfree : j = 0 \/ j ∈ l -> 0 <= ie_request (entry_at (is_table sp) j)).
  { apply (chain_next_nonneg _ 0 l); [apply HI|]. intros x Hx. by apply (si_free _ _ _ _ HI). }
  destruct (decide (j = 0)) as [|Hz]; [by apply Hfree; left|].
  destruct (decide (IE_BITS_TYPE (ie_bits (entry_at (is_table sp) j)) = MACH_PORT_TYPE_NONE)) as [Hn|Hn].
  - apply Hfree. right. apply (si_all _ _ _ _ HI); [lia|set_solver|done].
  - specialize (He j ltac:(lia) ltac:(set_solver) Hn). unfold core, entry_ok in He. by inversion He.
Qed.

Lemma grown_wf size sp sp' :
  space_wf sp -> is_active sp = true -> is_table_size sp < size ->
  ipc_table_entries !! Z.to_nat (is_table_next sp) = Some size ->
  grown size (is_table_next sp + 1) (start_growing sp) sp' ->
  space_wf sp' /\ wider sp sp' /\
  0 < is_table_size sp < is_table_size sp' /\
  IE_BITS_TYPE (ie_bits (entry_at (is_table sp') (is_table_size sp))) = MACH_PORT_TYPE_NONE.
Proof.
  intros Hwf Ha Hlt Hsz (H & l & HI & HI' & Hs & Hn & Hg & Hact & Htask & Hold). simpl in *.
  destruct (Hwf Ha) as (_ & He & _ & Hn1 & Hos & Hlen). rewrite (proj2 (start_growing_flags sp)) in Hact.
  assert (Hnew : forall j, is_table_size sp <= j < is_table_size sp' ->
    IE_BITS_TYPE (ie_bits (entry_at (is_table sp') j)) = MACH_PORT_TYPE_NONE).
  { intros j Hj. apply (si_free _ _ _ _ HI'). apply elem_of_app. right. apply elem_of_seqZ. lia. }
  pose proof (si_bound _ _ _ _ HI) as Hb. simpl in Hb.
  assert (Hw : wider sp sp').
  { split_and!; [done|done|lia| |done]. intros j Hj. destruct (Hold j Hj) as (Ho & Hbi & Hr). cbv zeta.
    rewrite Hbi. split; [done|]. intros Hu. unfold core. by rewrite Ho, Hbi, Hr. }
  split_and!; [|done|lia|lia|apply Hnew; lia]. intros _. split_and!; [by eexists _, _| |done|].
  - intros j Hj _ Hu. destruct (Z.lt_ge_cases j (is_table_size sp)) as [Hjs|Hjs]; [|by rewrite Hnew in Hu by lia].
    destruct Hw as (_ & _ & _ & Hw & _). destruct (Hw j ltac:(lia)) as [Ht Hc]. cbv zeta in *.
    rewrite Ht in Hu. rewrite Hc by done. apply He; [lia|set_solver|done].
  - unfold sized. rewrite Hn, Hs. replace (is_table_next sp + 1 - 1) with (is_table_next sp) by lia.
    split_and!; [lia|done|]. pose proof (sizes_step _ Hsizes _ _ size Hos) as Hst.
    replace (S (Z.to_nat (is_table_next sp - 1))) with (Z.to_nat (is_table_next sp)) in Hst by lia.
    destruct (Hst Hsz) as [[_ ?]|[? _]]; lia.
Qed.

Lemma refused_wf sp :
  space_wf sp -> is_active sp = true ->
  space_wf (clear_growing (start_growing sp)) /\ wider sp (clear_growing (start_growing sp)).
Proof.
  intros Hwf Ha. destruct (Hwf Ha) as (Hok & He & _ & Hsz).
  assert (Hact : is_active (clear_growing (start_growing sp)) = is_active sp)
    by (by rewrite done_growing_active, (proj2 (start_growing_flags sp))).
  split.
  - intros _. split_and!; [|done|apply done_growing_not_growing|done].
    destruct (start_growing_ok sp Hok (space_words sp Hwf Ha) Ha) as ((H & l & HI) & _).
    exists H, l. destruct HI. by split.
  - split_and!; try done. simpl. lia.
Qed.

Lemma grow_wf alloc sp :
  space_wf sp -> is_active sp = true ->
  exists kr sp' ws, ipc_entry_grow_table ipc_table_entries ITS_SIZE_NONE sp (atomic_windows alloc) = Ok (kr, sp', ws) /\
    space_wf sp' /\ wider sp sp' /\
    (kr = KERN_SUCCESS /\ (exists j, 0 < j < is_table_size sp' /\
       IE_BITS_TYPE (ie_bits (entry_at (is_table sp') j)) = MACH_PORT_TYPE_NONE) /\ 0 < is_table_size sp < is_table_size sp' \/
     kr ∈ [KERN_NO_SPACE; KERN_RESOURCE_SHORTAGE]).
Proof.
  intros Hwf Ha. destruct (Hwf Ha) as (Hok & He & Hng & Hsz). destruct alloc.
  - destruct (grow_table_idle ipc_table_entries sp ITS_SIZE_NONE Hsizes Hok (space_words sp Hwf Ha) Ha Hng Hsz
      (or_introl eq_refl)) as [[Hrun _]|(its & size & s' & ws' & Hrun & Hits & Hlt & Htg & Hg)].
    + eexists _, _, _. split; [exact Hrun|]. split_and!; [done|done|]. right. by left.
    + change (ITS_SIZE_NONE =? ITS_SIZE_NONE) with true in Htg. cbn iota in Htg. subst its.
      destruct (grown_wf size sp s' Hwf Ha Hlt Hits Hg) as (Hwf' & Hw & Hj & Ht).
      eexists _, _, _. split; [exact Hrun|]. split_and!; [done|done|]. left. split_and!; [done|by eexists|lia..].
  - destruct (grow_table_refused ipc_table_entries sp Hsizes Ha Hng Hsz) as (kr & s' & ws & Hrun & Hres & _).
    exists kr, s', ws. split; [done|]. destruct Hres as [[-> ->]|[-> ->]].
    + split_and!; [done|done|]. right. by left.
    + destruct (refused_wf sp Hwf Ha) as [? ?]. split_and!; [done|done|]. right. right. by left.
Qed.

(** ** The ledger and wider tables *)

Lemma table_rights_app a i t1 t2 :
  table_rights a i (t1 ++ t2) = table_rights a i t1 ++ table_rights a (i + Z.of_nat (length t1)) t2.
Proof.
  revert i. induction t1 as [|e t1 IH]; intros i; simpl; [by rewrite Z.add_0_r|].
  rewrite IH, <- app_assoc. by replace (i + 1 + Z.of_nat (length t1)) with (i + Z.of_nat (S (length t1))) by lia.
Qed.

Lemma table_rights_free a i t :
  Forall (fun e => IE_BITS_TYPE (ie_bits e) = MACH_PORT_TYPE_NONE) t -> table_rights a i t = [].
Proof.
  intros Ht. revert i. induction Ht as [|e t He Ht IH]; intros i; simpl; [done|]. rewrite IH, app_nil_r.
  by apply core_rights_none.
Qed.

Lemma wider_rights a sp sp' :
  space_wf sp -> space_wf sp' -> is_active sp = true -> wider sp sp' ->
  space_rights a sp' = space_rights a sp.
Proof.
  intros Hwf Hwf' Ha (Hact & _ & Hle & Hold & Hnew). unfold space_rights. rewrite Hact, Ha. cbn [when].
  destruct (Hwf Ha) as ((H & l & HI) & _). destruct (Hwf' ltac:(congruence)) as ((H' & l' & HI') & _).
  pose proof (si_size _ _ _ _ HI) as Hs. pose proof (si_size _ _ _ _ HI') as Hs'. unfold tlen in *.
  rewrite <- (take_drop (length (is_table sp)) (is_table sp')), table_rights_app.
  rewrite (table_rights_free _ _ (drop _ _)), app_nil_r.
  - assert (Hlt : length (take (length (is_table sp)) (is_table sp')) = length (is_table sp))
      by (rewrite length_take; lia).
    apply table_rights_ext; [done|]. intros j Hj. unfold tlen in Hj.
    replace (entry_at (take (length (is_table sp)) (is_table sp')) j) with (entry_at (is_table sp') j)
      by (unfold entry_at; rewrite lookup_take_lt by lia; done).
    unfold entry_rights. destruct (decide (j = 0)) as [->|Hz].
    { rewrite (core_rights_none a 0 (core (entry_at (is_table sp) 0))), core_rights_none; [done|apply HI'|apply HI]. }
    destruct (Hold j ltac:(lia)) as [Ht Hc]. cbv zeta in *.
    destruct (decide (IE_BITS_TYPE (ie_bits (entry_at (is_table sp) j)) = MACH_PORT_TYPE_NONE)) as [Hn|Hn].
    + rewrite (core_rights_none a j (core (entry_at (is_table sp) j))), core_rights_none; [done|by rewrite <- Hn, <- Ht|done].
    + by rewrite Hc.
  - apply Forall_forall. intros e [k Hk]%list_elem_of_lookup_1. rewrite lookup_drop in Hk.
    pose proof (lookup_lt_Some _ _ _ Hk). specialize (Hnew (Z.of_nat (length (is_table sp) + k)) ltac:(lia)).
    unfold entry_at in Hnew. by rewrite Nat2Z.id, Hk in Hnew.
Qed.

(** What growing the table of a space leaves as it is *)
Definition widened (a : Z) (s s' : kstate) : Prop :=
  ks_ports s' = ks_ports s /\ ks_log s' = ks_log s /\ ks_psets s' = ks_psets s /\
  ks_kmsgs s' = ks_kmsgs s /\ same_thread s s' /\
  (forall b, b <> a -> ks_spaces s' !! b = ks_spaces s !! b) /\
  option_Forall2 wider (ks_spaces s !! a) (ks_spaces s' !! a).

Lemma widened_refl a s : widened a s s.
Proof. by split_and!. Qed.

Lemma kwf_same s s' T :
  kwf s T -> ks_ports s' = ks_ports s -> ks_log s' = ks_log s -> ks_psets s' = ks_psets s ->
  ks_kmsgs s' = ks_kmsgs s -> ks_ith_messages s' = ks_ith_messages s -> ks_spaces s' = ks_spaces s ->
  kwf s' T.
Proof.
  intros [HL HO HS] H1 H2 H3 H4 H5 H6. split; [|by eapply objects_ok_same|by rewrite H6].
  intros r. specialize (HL r). unfold accounts, held in *. by rewrite ?H1, ?H2, ?H3, ?H4, ?H5, ?H6.
Qed.

Lemma kwf_widen s T a sp sp' :
  kwf s T -> ks_spaces s !! a = Some sp -> is_active sp = true -> space_wf sp' -> wider sp sp' ->
  kwf (put_space s a sp') T /\ widened a s (put_space s a sp').
Proof.
  intros [HL HO HS] Ha Hact Hwf' Hw. split.
  - split; [|by eapply objects_ok_same|].
    + eapply ledger_ext; [by apply (ledger_space _ T a sp sp')|]. intros r. unfold plus, minus.
      rewrite (wider_rights a sp sp' (HS _ _ Ha) Hwf' Hact Hw). lia.
    + intros b spb. simpl. rewrite lookup_insert. destruct (decide _) as [<-|]; [by intros [= <-]|apply HS].
  - split_and!; try done; simpl; [intros b Hb; by rewrite lookup_insert_ne|].
    rewrite lookup_insert_eq, Ha. by constructor.
Qed.

Lemma wp_pop_kalloc s Q : (forall b l, Q b (set_ks_kalloc l s)) -> wp pop_kalloc s Q.
Proof.
  intros HQ. unfold pop_kalloc. wp_step. wp_step. destruct (ks_kalloc s) as [|b l] eqn:Hk.
  - wp_step. specialize (HQ false []). by replace (set_ks_kalloc [] s) with s in HQ by (rewrite <- Hk; by destruct s).
  - wp_step. wp_step. wp_step. apply HQ.
Qed.

Lemma wf_grow_table s T a sp Q :
  kwf s T -> ks_spaces s !! a = Some sp -> is_active sp = true ->
  (forall kr s' sp', kwf s' T -> widened a s s' -> ks_spaces s' !! a = Some sp' ->
    (kr = KERN_SUCCESS /\ (exists j, 0 < j < is_table_size sp' /\
       IE_BITS_TYPE (ie_bits (entry_at (is_table sp') j)) = MACH_PORT_TYPE_NONE) /\ 0 < is_table_size sp < is_table_size sp' \/
     kr ∈ [KERN_NO_SPACE; KERN_RESOURCE_SHORTAGE]) -> Q kr s') ->
  wp (entry_grow_table a ITS_SIZE_NONE) s Q.
Proof.
  intros HK Ha Hact HQ. unfold entry_grow_table. wp_step. apply wp_pop_kalloc. intros alloc l.
  set (s1 := set_ks_kalloc l s). assert (HK1 : kwf s1 T) by (by eapply kwf_same).
  wp_step. eapply wp_is_get; [exact Ha|]. wp_step.
  destruct (grow_wf alloc sp (kw_spaces _ _ HK _ _ Ha) Hact) as (kr & sp' & ws & Hrun & Hwf' & Hw & Hres).
  eapply wp_lift; [exact Hrun|]. cbv beta iota zeta. wp_step.
  change (wp (is_put a sp') s1 (fun x y => wp (mret kr) y Q)). apply wp_modify. wp_step.
  destruct (kwf_widen s1 T a sp sp' HK1 Ha Hact Hwf' Hw) as [HK' Hw'].
  by apply (HQ kr (put_space s1 a sp') sp'); [..|simpl; rewrite lookup_insert_eq|].
Qed.

(** ** Taking a free entry *)

Lemma at_work_claimed sp sp' name i :
  space_wf sp -> is_active sp = true -> claimed sp sp' name i -> same_but {[i]} sp sp' ->
  at_work i (IO_NULL, MACH_PORT_GEN name, IE_REQ_NONE) false sp' /\ kept i sp sp'.
Proof.
  intros Hwf Ha (Hv & Hix & Hi & _ & Hc & (H & l & HI) & _) Hsb.
  destruct (Hwf Ha) as ((H0 & l0 & HI0) & He & Hg & Hsz).
  pose proof (same_but_kept _ _ _ Hsb (si_size _ _ _ _ HI0)) as Hk. split; [|done].
  pose proof Hk as (Hb & Hs & Hn & _). split; [by unfold is_active; rewrite Hb| |done|..].
  - exists H, l. split; [done|]. split; [|done]. intros HiH. exfalso.
    apply (hr_obj _ _ (si_hash _ _ _ _ HI) i HiH). rewrite obj_of_at. unfold core in Hc. congruence.
  - apply (kept_entries_ok _ _ _ Hk). intros j Hj _. apply He; [done|set_solver].
  - unfold is_growing. by rewrite Hb.
  - unfold sized. by rewrite Hs, Hn.
Qed.

Lemma fc_claim s T a sp sp' name i :
  kwf s T -> ks_spaces s !! a = Some sp -> is_active sp = true ->
  IE_BITS_TYPE (ie_bits (entry_at (is_table sp) i)) = MACH_PORT_TYPE_NONE ->
  at_work i (IO_NULL, MACH_PORT_GEN name, IE_REQ_NONE) false sp' -> kept i sp sp' ->
  focus s a i name (put_space s a sp') (ks_ports s) (ks_log s)
    (Open (IO_NULL, MACH_PORT_GEN name, IE_REQ_NONE) false) T.
Proof.
  intros [HL HO HS] Ha Hact Ht Hw Hk. destruct (at_work_range _ _ _ _ Hw) as [Hi Hs'].
  pose proof Hk as (Hb & Hs & _). destruct (HS _ _ Ha Hact) as ((H & l & HI) & _).
  pose proof Hw as [Hact' (H' & l' & HI' & _) Hc _ _ _].
  assert (Hg : IE_BITS_GEN (MACH_PORT_GEN name) = MACH_PORT_GEN name) by apply (MACH_PORT_GEN_ok name).
  assert (Ht' : IE_BITS_TYPE (MACH_PORT_GEN name) = MACH_PORT_TYPE_NONE)
    by (rewrite <- Hg; apply IE_BITS_TYPE_GEN).
  split; try done.
  - eapply ledger_ext; [by apply (ledger_space _ T a sp sp')|]. intros r. unfold plus, minus, space_rights.
    rewrite Hact, Hact'. cbn [when ev_rights].
    pose proof (kept_rights a i r sp sp' Hk ltac:(lia) (si_size _ _ _ _ HI) Hs'
      (proj1 (si_zero _ _ _ _ HI)) (proj1 (si_zero _ _ _ _ HI'))) as Hr.
    unfold entry_rights in Hr. rewrite (core_rights_none a i (core (entry_at (is_table sp) i))) in Hr by done.
    rewrite Hc in Hr. rewrite (core_rights_none a i (IO_NULL, _, _)) in * by done. simpl in *. lia.
  - by eapply objects_ok_same.
  - intros b spb. simpl. intros Hb' Hne. rewrite lookup_insert_ne in Hb' by done. by eapply HS.
  - simpl. exists sp'. rewrite lookup_insert_eq. done.
  - split_and!; try done; simpl; [intros b Hne; by rewrite lookup_insert_ne|].
    rewrite lookup_insert_eq, Ha. by constructor.
Qed.

Lemma wf_entry_get s T a sp Q :
  kwf s T -> ks_spaces s !! a = Some sp -> is_active sp = true ->
  ((forall j, 0 < j < is_table_size sp ->
     IE_BITS_TYPE (ie_bits (entry_at (is_table sp) j)) <> MACH_PORT_TYPE_NONE) -> Q (inl KERN_NO_SPACE) s) ->
  (forall name i s', MACH_PORT_VALID name = true -> 0 <= name < 2 ^ 32 -> MACH_PORT_INDEX name = i ->
    names_entry sp name = false ->
    (forall T', kwf s T' -> focus s a i name s' (ks_ports s) (ks_log s)
       (Open (IO_NULL, MACH_PORT_GEN name, IE_REQ_NONE) false) T') ->
    Q (inr (name, i)) s') ->
  wp (in_space a ipc_entry_get) s Q.
Proof.
  intros HK Ha Hact HN HQ. pose proof (kw_spaces _ _ HK _ _ Ha) as Hwf.
  destruct (Hwf Hact) as (Hok & _). eapply wp_in_space; [done|].
  destruct (ipc_entry_get_ok sp Hok Hact) as [[Hrun Hall]|(name & i & sp' & Hrun & Hcl & Hsb & Ht & Hw32)].
  - eapply wp_Ok; [done|]. rewrite put_space_id by done. by apply HN.
  - eapply wp_Ok; [done|]. destruct (at_work_claimed sp sp' name i) as [Hw Hk]; [done..|].
    destruct Hcl as (Hv & Hix & _ & Hnm & _). apply HQ; [done..|].
    intros T' HK'. by eapply fc_claim.
Qed.

(** ** Who has a name for a port *)

(** A right that can be elsewhere than in an entry *)
Definition movable (r : right) : Prop :=
  match r with RHome _ _ n => n = MACH_PORT_NULL | RName _ _ => False | _ => True end.

Lemma movable_when b l : Forall movable l -> Forall movable (when b l).
Proof. destruct b; [done|]. constructor. Qed.

Lemma movable_bind {A} (f : A -> list right) l : (forall x, Forall movable (f x)) -> Forall movable (l ≫= f).
Proof. intros Hf. induction l as [|x l IH]; [constructor|]. by apply Forall_app_2. Qed.

Lemma movable_disposition d o : Forall movable (disposition_rights d o).
Proof. apply movable_when. constructor; [done|]. repeat apply Forall_app_2; apply movable_when; by repeat constructor. Qed.

Lemma movable_carried circular d o : Forall movable (carried_rights circular d o).
Proof. apply Forall_app_2; [apply movable_disposition|]. apply movable_when. by repeat constructor. Qed.

Lemma movable_sonce o : Forall movable (sonce_rights o).
Proof. apply movable_when. by repeat constructor. Qed.

Lemma movable_queue l l' : Forall movable ((RMsg <$> l) ++ (RPlain <$> l')).
Proof. apply Forall_app_2; apply Forall_fmap, list.Forall_true; done. Qed.

Lemma movable_port p : Forall movable (port_rights p).
Proof.
  apply Forall_app_2; [|apply movable_queue]. apply movable_when.
  repeat apply Forall_app_2; try apply movable_sonce.
  - destruct (ip_requests p) as [[|? l]|]; [constructor| |constructor].
    induction l as [|x l IH]; [constructor|]. apply Forall_app_2; [|done]. apply movable_when, movable_sonce.
  - apply movable_when. by repeat constructor.
Qed.

Lemma movable_kmsg k : Forall movable (kmsg_rights k).
Proof.
  unfold kmsg_rights. repeat apply Forall_app_2; try apply movable_disposition; apply movable_when.
  - apply movable_bind. intros []; simpl; [apply movable_carried|constructor| |constructor].
    apply movable_bind. intros. apply movable_carried.
  - by repeat constructor.
Qed.

Lemma movable_event e : Forall movable (event_rights e).
Proof. destruct e; by repeat constructor. Qed.

Lemma movable_cnt r l : ~ movable r -> Forall movable l -> cnt r l = 0.
Proof. intros Hr Hl. apply cnt_not_in. intros Hin. rewrite list.Forall_forall in Hl. by apply Hr, Hl. Qed.

Lemma mcnt_pos {A} (f : Z -> A -> list right) r (m : gmap Z A) :
  0 < mcnt f r m -> exists k v, m !! k = Some v /\ r ∈ f k v.
Proof.
  induction m as [|k v m Hk IH] using map_ind; [rewrite mcnt_empty; lia|]. rewrite mcnt_new by done.
  destruct (decide (r ∈ f k v)) as [Hin|Hin].
  - intros _. exists k, v. by rewrite lookup_insert_eq.
  - rewrite cnt_not_in by done. intros (k' & v' & Hk' & Hr)%IH. exists k', v'.
    split; [|done]. rewrite lookup_insert_ne; [done|congruence].
Qed.

Lemma table_rights_elem a i t r :
  r ∈ table_rights a i t -> exists j, 0 <= j < tlen t /\ r ∈ entry_rights a (i + j) (entry_at t j).
Proof.
  unfold tlen, entry_at. revert i. induction t as [|e t IH]; intros i; simpl; [by intros ?%elem_of_nil|].
  intros [Hr|Hr]%elem_of_app.
  - exists 0. split; [lia|]. by rewrite Z.add_0_r.
  - destruct (IH _ Hr) as (j & Hj & Hin). exists (j + 1). split; [lia|].
    replace (Z.to_nat (j + 1)) with (S (Z.to_nat j)) by lia. simpl.
    by replace (i + (j + 1)) with (i + 1 + j) by lia.
Qed.

(** Whose rights an entry's are *)
Definition owner (r : right) : option Z :=
  match r with RHome _ a _ | RName _ a => Some a | _ => None end.

Lemma core_rights_owner a i c r : r ∈ core_rights a i c -> ~ movable r -> owner r = Some a.
Proof.
  destruct c as [[o b] req]. unfold core_rights. intros Hin Hr.
  repeat (apply elem_of_app in Hin as [Hin|Hin]);
    match type of Hin with _ ∈ when ?b _ => destruct b; [|by apply elem_of_nil in Hin] end;
    apply list_elem_of_singleton in Hin as ->; simpl in *; (done || by destruct Hr).
Qed.

Lemma held_by_entry s r a :
  owner r = Some a -> ~ movable r -> 0 < held s r ->
  exists sp j, ks_spaces s !! a = Some sp /\ is_active sp = true /\ 0 <= j < tlen (is_table sp) /\
    r ∈ entry_rights a j (entry_at (is_table sp) j).
Proof.
  intros Ho Hr Hh. unfold held in Hh.
  rewrite (movable_cnt r (_ ≫= _)) in Hh by (done || apply movable_bind, movable_event).
  rewrite (movable_cnt r (reap_rights _)) in Hh by (done || apply movable_queue).
  assert (Hp : mcnt (fun _ => port_rights) r (ks_ports s) <= 0).
  { apply Z.nlt_ge. intros (k & p & _ & Hin)%mcnt_pos. pose proof (movable_port p) as Hf.
    rewrite list.Forall_forall in Hf. by apply Hr, Hf. }
  assert (Hk : mcnt (fun _ => kmsg_rights) r (ks_kmsgs s) <= 0).
  { apply Z.nlt_ge. intros (k & p & _ & Hin)%mcnt_pos. pose proof (movable_kmsg p) as Hf.
    rewrite list.Forall_forall in Hf. by apply Hr, Hf. }
  destruct (mcnt_pos space_rights r (ks_spaces s)) as (b & sp & Hb & Hin); [lia|].
  unfold space_rights in Hin. destruct (is_active sp) eqn:Ha; [|by apply elem_of_nil in Hin].
  apply table_rights_elem in Hin as (j & Hj & Hin). simpl in Hin.
  pose proof (core_rights_owner _ _ _ _ Hin Hr). assert (b = a) as -> by congruence. by exists sp, j.
Qed.

(** An entry that has a right is in use, under a name. *)
Lemma entry_named s T a sp j o b req :
  kwf s T -> ks_spaces s !! a = Some sp -> is_active sp = true -> 0 <= j < tlen (is_table sp) ->
  core (entry_at (is_table sp) j) = (o, b, req) -> IE_BITS_TYPE b <> MACH_PORT_TYPE_NONE ->
  let name := MACH_PORT_MAKE j (IE_BITS_GEN b) in
  named s a name (o, b, req) /\ MACH_PORT_INDEX name = j /\ entry_ok (o, b, req).
Proof using env. clear Hsizes.
  intros HK Ha Hact Hj Hc Hu name. destruct (kw_spaces _ _ HK _ _ Ha Hact) as ((H & l & HI) & He & _ & _).
  pose proof (si_size _ _ _ _ HI) as Hs. pose proof (si_bound _ _ _ _ HI) as Hbd.
  change (MACH_PORT_INDEX MACH_PORT_DEAD) with 0xffffff in Hbd.
  assert (Hb : ie_bits (entry_at (is_table sp) j) = b) by (unfold core in Hc; congruence).
  assert (Hz : j <> 0) by (intros ->; apply Hu; rewrite <- Hb; apply HI).
  assert (Hio : index_ok j) by (unfold index_ok; lia).
  pose proof (index_MAKE j _ Hio (gen_ok_GEN b)) as Hix. split_and!; [|done|].
  - split; [by apply MAKE_range; [|apply gen_ok_GEN]|]. exists sp. unfold name. rewrite Hix.
    split_and!; try done; [lia|lia|]. simpl. symmetry. by apply gen_MAKE; [|apply gen_ok_GEN].
  - rewrite <- Hc. apply He; [lia|set_solver|by rewrite Hb].
Qed.

Lemma entry_with_right s T a sp j r o b req :
  kwf s T -> ks_spaces s !! a = Some sp -> is_active sp = true -> 0 <= j < tlen (is_table sp) ->
  core (entry_at (is_table sp) j) = (o, b, req) -> r ∈ core_rights a j (o, b, req) ->
  let name := MACH_PORT_MAKE j (IE_BITS_GEN b) in
  named s a name (o, b, req) /\ MACH_PORT_INDEX name = j /\ entry_ok (o, b, req).
Proof using env. clear Hsizes.
  intros HK Ha Hact Hj Hc Hr. eapply entry_named; [done..|]. intros Ht. rewrite core_rights_none in Hr by done.
  by apply elem_of_nil in Hr.
Qed.

(** [RHome] and [RName] among the rights of an entry *)
Lemma core_rights_home a i o b req o' n :
  RHome o' a n ∈ core_rights a i (o, b, req) ->
  o' = o /\ n = MACH_PORT_MAKE i (IE_BITS_GEN b) /\ has b MACH_PORT_TYPE_RECEIVE = true.
Proof.
  unfold core_rights. intros Hin.
  repeat (apply elem_of_app in Hin as [Hin|Hin]);
    match type of Hin with _ ∈ when ?b _ => destruct b eqn:?; [|by apply elem_of_nil in Hin] end;
    apply list_elem_of_singleton in Hin; by simplify_eq.
Qed.

Lemma core_rights_named a i o b req o' :
  RName o' a ∈ core_rights a i (o, b, req) -> o' = o /\ has b MACH_PORT_TYPE_SEND_RECEIVE = true.
Proof.
  unfold core_rights. intros Hin.
  repeat (apply elem_of_app in Hin as [Hin|Hin]);
    match type of Hin with _ ∈ when ?b _ => destruct b eqn:?; [|by apply elem_of_nil in Hin] end;
    apply list_elem_of_singleton in Hin; by simplify_eq.
Qed.

Lemma core_home_rights a i o b req :
  has b MACH_PORT_TYPE_RECEIVE = true ->
  RHome o a (MACH_PORT_MAKE i (IE_BITS_GEN b)) ∈ core_rights a i (o, b, req).
Proof.
  intros Hb. unfold core_rights. rewrite Hb. do 6 (apply elem_of_app; right). by left.
Qed.

Lemma table_rights_held s a sp j r :
  ks_spaces s !! a = Some sp -> is_active sp = true -> 0 <= j < tlen (is_table sp) ->
  r ∈ entry_rights a j (entry_at (is_table sp) j) -> 0 < held s r.
Proof.
  intros Ha Hact Hj Hin. pose proof (held_space s a sp r Ha) as Hh. unfold space_rights in Hh.
  rewrite Hact in Hh. cbn [when] in Hh.
  pose proof (table_rights_put a (is_table sp) j entry_null r Hj) as Hp.
  pose proof (cnt_nonneg r (table_rights a 0 (put (is_table sp) j entry_null))).
  change (cnt r (entry_rights a j entry_null)) with 0 in Hp. apply cnt_in in Hin. lia.
Qed.

(** The receiver of a live port has an entry for it. *)
Lemma receiver_entry s T o p a :
  kwf s T -> ks_ports s !! o = Some p -> ip_active p = true -> ip_receiver p = a ->
  ip_receiver_name p <> MACH_PORT_NULL -> T (RHome o a (ip_receiver_name p)) = 0 ->
  exists b req, named s a (ip_receiver_name p) (o, b, req) /\ has b MACH_PORT_TYPE_RECEIVE = true /\
    entry_ok (o, b, req).
Proof.
  intros HK Ho Hact Hr Hn HT. pose proof (kw_ledger _ _ HK (RHome o a (ip_receiver_name p))) as HL.
  unfold accounts in HL. cbn [target] in HL. rewrite Ho in HL. cbn in HL. unfold home_count, ip_home in HL.
  rewrite Hact, (proj2 (Z.eqb_neq _ _) Hn), Hr, !Z.eqb_refl, HT in HL. cbn in HL.
  destruct (held_by_entry s (RHome o a (ip_receiver_name p)) a eq_refl Hn ltac:(lia)) as (sp & j & Ha & Hs & Hj & Hin).
  destruct (core (entry_at (is_table sp) j)) as [[o' b] req] eqn:Hc. unfold entry_rights in Hin. rewrite Hc in Hin.
  destruct (core_rights_home _ _ _ _ _ _ _ Hin) as (<- & Hnm & Hb).
  destruct (entry_with_right s T a sp j _ _ _ _ HK Ha Hs Hj Hc Hin) as (Hnd & _ & Hok). rewrite <- Hnm in Hnd.
  by exists b, req.
Qed.

(** A space with no entry in the hash table for a port it is not the receiver of has no name
    for the port. *)
Lemma no_name s T o p a sp H l :
  kwf s T -> hand_ok T -> ks_ports s !! o = Some p -> ks_spaces s !! a = Some sp ->
  space_inv ∅ H l sp -> ip_receiver p <> a -> (forall i, i ∈ H -> obj_of (is_table sp) i <> o) ->
  held s (RName o a) = 0.
Proof.
  intros HK HT Ho Ha HI Hr Hno. destruct (Z.le_gt_cases (held s (RName o a)) 0) as [|Hh];
    [pose proof (held_nonneg s (RName o a)); lia|]. exfalso.
  destruct (held_by_entry s (RName o a) a eq_refl (fun H => H) ltac:(lia)) as (sp' & j & Ha' & Hs & Hj & Hin). simplify_eq.
  destruct (core (entry_at (is_table sp) j)) as [[o' b] req] eqn:Hc. pose proof Hin as Hin'.
  unfold entry_rights in Hin. rewrite Hc in Hin. destruct (core_rights_named _ _ _ _ _ _ Hin) as (<- & Hb).
  destruct (entry_with_right s T a sp j _ _ _ _ HK Ha Hs Hj Hc Hin) as (Hnd & Hix & Hok).
  assert (Hrcv : has b MACH_PORT_TYPE_RECEIVE = true -> False).
  { intros Hb'. pose proof (core_home_rights a j o b req Hb') as Hhm. rewrite <- Hc in Hhm.
    pose proof (table_rights_held s a sp j _ Ha Hs Hj Hhm) as Hpos.
    set (n := MACH_PORT_MAKE j (IE_BITS_GEN b)) in *. pose proof (kw_ledger _ _ HK (RHome o a n)) as HL.
    unfold accounts in HL. cbn [target] in HL. rewrite Ho in HL. cbn in HL. unfold home_count in HL.
    pose proof (proj1 HT (RHome o a n)). destruct (_ && _) eqn:He; [|lia]. apply andb_prop in He as [[_ He]%andb_prop Hn].
    apply Z.eqb_eq in He, Hn.
    apply Hr. unfold ip_home in He. rewrite Hn in He. destruct Hnd as (_ & sp' & _ & _ & Hix' & _).
    destruct (Z.eqb_spec n MACH_PORT_NULL) as [E|]; [|done]. rewrite E in Hix'. by destruct Hix'. }
  assert (Hty : IE_BITS_TYPE b = MACH_PORT_TYPE_SEND).
  { clear - Hok Hb Hrcv. by_kind Hok; by destruct Hrcv. }
  apply (Hno j); [|rewrite obj_of_at; unfold core in Hc; congruence].
  destruct Hnd as (_ & sp' & Ha2 & _ & Hj' & _). rewrite Hix in Hj'. simplify_eq.
  apply (si_send _ _ _ _ HI); [lia|set_solver|]. unfold core in Hc. congruence.
Qed.

Lemma wp_io_bits s o p Q : ks_ports s !! o = Some p -> Q (ip_bits p) s -> wp (io_bits o) s Q.
Proof. intros Ho HQ. unfold io_bits. wp_step. eapply wp_io_is_port; [done|]. wp_step. by eapply wp_ip_get. Qed.

Lemma wp_named_get s T a name o b req Q :
  kwf s T -> named s a name (o, b, req) ->
  (forall ix, Q (mk_ipc_entry o b ix req) s) -> wp (ie_get a (MACH_PORT_INDEX name)) s Q.
Proof. intros HK Hn HQ. destruct (holding_start s a name T o b req HK Hn) as [HF _]. by eapply wf_ie_get. Qed.

(** A member of the hash table is a send right. *)
Lemma hashed_entry s T a sp H l i :
  kwf s T -> ks_spaces s !! a = Some sp -> is_active sp = true -> space_inv ∅ H l sp -> i ∈ H ->
  exists b req, named s a (entry_name (is_table sp) i) (obj_of (is_table sp) i, b, req) /\
    MACH_PORT_INDEX (entry_name (is_table sp) i) = i /\ IE_BITS_TYPE b = MACH_PORT_TYPE_SEND.
Proof.
  intros HK Ha Hact HI Hi.
  assert (Hri : 0 < i < is_table_size sp)
    by (rewrite (si_size _ _ _ _ HI); by apply (ri_mem _ _ _ _ (hr_ring _ _ (si_hash _ _ _ _ HI)))).
  assert (Hty : IE_BITS_TYPE (ie_bits (entry_at (is_table sp) i)) = MACH_PORT_TYPE_SEND)
    by (apply (si_send _ _ _ _ HI); [done|set_solver|done]).
  exists (ie_bits (entry_at (is_table sp) i)), (ie_request (entry_at (is_table sp) i)).
  rewrite obj_of_at. replace (entry_name (is_table sp) i)
    with (MACH_PORT_MAKE i (IE_BITS_GEN (ie_bits (entry_at (is_table sp) i))))
    by (unfold entry_name, entry_at; by destruct (is_table sp !! Z.to_nat i)).
  destruct (entry_with_right s T a sp i (RRef (ie_object (entry_at (is_table sp) i)))
    _ _ _ HK Ha Hact ltac:(rewrite <- (si_size _ _ _ _ HI); lia) eq_refl) as (Hnm & Hix & _); [|done].
  unfold core, core_rights. rewrite (has_type _ 0xf0000), Hty by done. by left.
Qed.

(** [ipc_right_reverse]: the entry of the space that has the port *)
Lemma wf_reverse s T a sp o p Q :
  kwf s T -> hand_ok T -> ks_spaces s !! a = Some sp -> is_active sp = true -> ks_ports s !! o = Some p ->
  (ip_active p = true -> ip_receiver p = a -> ip_receiver_name p <> MACH_PORT_NULL) ->
  (forall n, n <> MACH_PORT_NULL -> T (RHome o a n) = 0) ->
  (ip_active p = false -> Q None s) ->
  (ip_active p = true -> held s (RName o a) = 0 -> Q None s) ->
  (forall name b req, named s a name (o, b, req) -> has b MACH_PORT_TYPE_SEND_RECEIVE = true ->
    (ip_receiver p <> a -> has b MACH_PORT_TYPE_SEND = true) ->
    ip_active p = true -> Q (Some (name, MACH_PORT_INDEX name)) s) ->
  wp (ipc_right_reverse a o) s Q.
Proof.
  intros HK HT Ha Hact Ho Hal Hhm Qdead Qnone Qsome.
  pose proof (oo_ports _ (kw_objects _ _ HK) _ _ Ho) as Hpo.
  assert (Ho0 : o <> IO_NULL) by (intros ->; by destruct Hpo).
  destruct (kw_spaces _ _ HK _ _ Ha Hact) as ((H & l & HI) & _).
  unfold ipc_right_reverse. wp_step. eapply wp_is_get; [done|]. wp_step. wp_step; [done|].
  wp_step. eapply wp_io_bits; [done|]. wp_step. wp_step; [by rewrite (po_otype _ _ Hpo)|].
  wp_step. eapply wp_ip_get; [done|]. destruct (ip_active p) eqn:Hpa; cbn [negb]; [|wp_step; by apply Qdead].
  destruct (Z.eqb_spec (ip_receiver p) a) as [Hr|Hr].
  - assert (Hn : ip_receiver_name p <> MACH_PORT_NULL) by (by apply Hal).
    wp_step. wp_step; [by rewrite (proj2 (Z.eqb_neq _ _) Hn)|].
    destruct (receiver_entry s T o p a HK Ho Hpa Hr Hn (Hhm _ Hn)) as (b & req & Hnm & Hb & Hok).
    pose proof (names_entry_named s a sp (ip_receiver_name p) ∅ H l HI Ha Hact (proj1 Hnm)) as Hne.
    wp_step. eapply wp_in_space; [done|]. eapply wp_Ok; [eapply ipc_entry_lookup_ok; [done|done|apply Hnm]|].
    rewrite put_space_id by done. destruct (names_entry sp (ip_receiver_name p)); [|by apply Hne in Hnm].
    wp_step. eapply wp_named_get; [done..|]. intros ix. wp_step. wp_step; [done|]. wp_step. wp_step; [apply Z.eqb_refl|].
    wp_step. apply (Qsome _ b req); [done| |done|done]. by_kind Hok.
  - wp_step. destruct (hash_lookup_cases _ _ o (si_hash _ _ _ _ HI) Ho0) as [[Hrun Hno]|(i & Hi & Hio & Hrun)];
      (eapply wp_lift; [unfold ipc_hash_lookup; rewrite (si_size _ _ _ _ HI); exact Hrun|]; cbv beta iota).
    + wp_step. apply Qnone; [done|]. by eapply no_name.
    + destruct (hashed_entry s T a sp H l i HK Ha Hact HI Hi) as (b & req & Hnm & Hix & Hty). rewrite Hio in Hnm.
      revert Hnm Hix. generalize (entry_name (is_table sp) i) as nm. intros nm Hnm <-. wp_step. eapply wp_named_get; [done..|]. intros ix.
      wp_step. wp_step; [cbn [ie_bits]; by rewrite Hty|]. wp_step. wp_step; [apply Z.eqb_refl|]. wp_step.
      apply (Qsome _ b req); [done| |intros _|done]; by rewrite (has_type b), Hty.
Qed.

(** ** [ipc_object_copyout] up to [ipc_right_copyout] *)

Section place.
Context (T : right -> Z) (a o msgt : Z) (p : ipc_port).
Context (HT : hand_ok T) (Hname : T (RName o a) = 0) (Hhome : forall n, n <> MACH_PORT_NULL -> T (RHome o a n) = 0).
Context (Halias : ip_active p = true -> ip_receiver p = a -> ip_receiver_name p <> MACH_PORT_NULL).

Definition has_free (sp : ipc_space) : Prop :=
  exists j, 0 < j < is_table_size sp /\ IE_BITS_TYPE (ie_bits (entry_at (is_table sp) j)) = MACH_PORT_TYPE_NONE.

(** A space without a name for a port can have one. *)
Lemma kwf_new_name s : kwf s T -> held s (RName o a) = 0 -> kwf s (T ⊕ [RName o a]).
Proof.
  intros [HL HO HS] Hh. split; [|done..]. intros r. specialize (HL r). unfold plus.
  destruct (decide (r = RName o a)) as [->|Hne]; [unfold accounts; cbn [target cnt]; rewrite Hh, Hname, ind_eq; lia|].
  cbn [cnt]. rewrite ind_ne by done. by rewrite !Z.add_0_r.
Qed.

(** An entry for the right: one that has the port, or a new one *)
Definition found_place (s : kstate) (name : Z) : Prop :=
  msgt <> MACH_MSG_TYPE_PORT_SEND_ONCE /\ ip_active p = true /\
  exists b req, named s a name (o, b, req) /\ has b MACH_PORT_TYPE_SEND_RECEIVE = true.

Definition new_place (s s' : kstate) (name : Z) : Prop :=
  ip_active p = true /\ MACH_PORT_VALID name = true /\ 0 <= name < 2 ^ 32 /\ (forall c, ~ named s a name c) /\
  focus s a (MACH_PORT_INDEX name) name s' (ks_ports s) (ks_log s)
    (Open (o, MACH_PORT_GEN name, IE_REQ_NONE) false)
    (T ⊕ when (negb (msgt =? MACH_MSG_TYPE_PORT_SEND_ONCE)) [RName o a]).

Definition dead_place (s s' : kstate) : Prop :=
  ip_active p = false /\ kwf s' T /\ exists name, framed a (MACH_PORT_INDEX name) s s' /\
  ks_ports s' = ks_ports s /\ ks_log s' = ks_log s.

Lemma named_word name s c : named s a name c -> 0 <= name < 2 ^ 32.
Proof. by intros [? _]. Qed.

Lemma fresh_name s sp name :
  kwf s T -> ks_spaces s !! a = Some sp -> is_active sp = true -> names_entry sp name = false ->
  forall c, ~ named s a name c.
Proof.
  intros HK Ha Hact Hnm c Hc. destruct (kw_spaces _ _ HK _ _ Ha Hact) as ((H & l & HI) & _).
  pose proof (names_entry_named s a sp name ∅ H l HI Ha Hact (named_word _ _ _ Hc)) as Hn. rewrite Hnm in Hn.
  by apply (Hn c).
Qed.

(** The turn, once the space is known not to have the port *)
Lemma wf_copyout_new s sp Q :
  kwf s T -> ks_spaces s !! a = Some sp -> is_active sp = true -> ks_ports s !! o = Some p ->
  (ip_active p = true -> msgt <> MACH_MSG_TYPE_PORT_SEND_ONCE -> held s (RName o a) = 0) ->
  (forall s1 sp1, ~ has_free sp -> kwf s1 T -> widened a s s1 -> ks_spaces s1 !! a = Some sp1 -> has_free sp1 -> Q None s1) ->
  (forall kr s1, ~ has_free sp -> kwf s1 T -> widened a s s1 -> kr ∈ [KERN_NO_SPACE; KERN_RESOURCE_SHORTAGE] -> Q (Some (inl kr)) s1) ->
  (forall s1, dead_place s s1 -> Q (Some (inl KERN_INVALID_CAPABILITY)) s1) ->
  (forall name s1, new_place s s1 name -> Q (Some (inr (name, MACH_PORT_INDEX name))) s1) ->
  wp (r ← in_space a ipc_entry_get;
      match r with
      | inl _ =>
        kr ← entry_grow_table a ITS_SIZE_NONE;
        if decide (kr = KERN_SUCCESS) then mret None else mret (Some (inl kr))
      | inr (name, entry) =>
        e ← ie_get a entry;
        _ ← massert (IE_BITS_TYPE (ie_bits e) =? MACH_PORT_TYPE_NONE);
        _ ← massert (ie_object e =? IO_NULL);
        bits ← io_bits o;
        if negb (io_bits_active bits) then
          _ ← entry_dealloc a name entry;
          mret (Some (inl KERN_INVALID_CAPABILITY))
        else
          _ ← ie_mod a entry (set_ie_object o);
          mret (Some (inr (name, entry)))
      end) s Q.
Proof.
  intros HK Ha Hact Ho Hnone Qnone Qfull Qdead Qnew. wp_step. eapply wf_entry_get; [done..| |].
  - intros Hall. assert (Hno : ~ has_free sp) by (intros (j & Hj & Ht); by apply (Hall j)).
    wp_step. eapply wf_grow_table; [done..|]. intros kr s1 sp1 HK1 Hw Ha1 [(-> & Hfree & _)|Hkr].
    + rewrite decide_True by done. wp_step. by apply (Qnone s1 sp1).
    + rewrite decide_False by (intros ->; set_solver). wp_step. by apply Qfull.
  - intros name i s1 Hv Hw32 <- Hnm HFs. pose proof (HFs T HK) as HF. wp_step. eapply wf_ie_get; [done|exact HF|]. intros ix.
    assert (Ht : IE_BITS_TYPE (MACH_PORT_GEN name) = MACH_PORT_TYPE_NONE)
      by (rewrite <- (MACH_PORT_GEN_ok name); apply IE_BITS_TYPE_GEN).
    wp_step. wp_step; [cbn [ie_bits]; by rewrite Ht|]. wp_step. wp_step; [done|].
    wp_step. eapply wf_io_bits; [exact HF|done|]. fold (ip_active p).
    destruct (ip_active p) eqn:Hpa; cbn [negb].
    + assert (HF' : focus s a (MACH_PORT_INDEX name) name s1 (ks_ports s) (ks_log s)
        (Open (IO_NULL, MACH_PORT_GEN name, IE_REQ_NONE) false)
        (T ⊕ when (negb (msgt =? MACH_MSG_TYPE_PORT_SEND_ONCE)) [RName o a])).
      { destruct (Z.eqb_spec msgt MACH_MSG_TYPE_PORT_SEND_ONCE) as [Hm|Hm]; cbn [negb when].
        - eapply fc_ext; [exact HF|]. intros r. unfold plus. cbn [cnt]. lia.
        - apply HFs, kwf_new_name; [done|]. by apply Hnone. }
      wp_step. eapply wf_ie_mod; [done|exact HF'|entry_fields|done|apply (MACH_PORT_GEN_ok name)|]. intros s2 HF2.
      wp_step. apply Qnew. split; [done|]. split; [done|]. split; [done|]. split; [by eapply fresh_name|done].
    + wp_step. eapply wf_entry_dealloc; [done|exact HF|]. intros s2 HF2. wp_step. apply Qdead.
      split_and!; [done|by eapply fc_closed|]. exists name. split_and!; [by eapply fc_frame|by eapply fc_ports|by eapply fc_log].
Qed.

Lemma wf_copyout_turn s sp Q :
  kwf s T -> ks_spaces s !! a = Some sp -> ks_ports s !! o = Some p ->
  (is_active sp = false -> Q (Some (inl KERN_INVALID_TASK)) s) ->
  (forall s1 sp1, is_active sp = true -> ~ has_free sp -> kwf s1 T -> widened a s s1 ->
    ks_spaces s1 !! a = Some sp1 -> has_free sp1 -> Q None s1) ->
  (forall kr s1, ~ has_free sp -> kwf s1 T -> widened a s s1 -> kr ∈ [KERN_NO_SPACE; KERN_RESOURCE_SHORTAGE] -> Q (Some (inl kr)) s1) ->
  (forall s1, dead_place s s1 -> Q (Some (inl KERN_INVALID_CAPABILITY)) s1) ->
  (forall name, found_place s name -> Q (Some (inr (name, MACH_PORT_INDEX name))) s) ->
  (forall name s1, new_place s s1 name -> Q (Some (inr (name, MACH_PORT_INDEX name))) s1) ->
  wp (copyout_turn a o msgt) s Q.
Proof.
  intros HK Ha Ho Qin Qnone Qfull Qdead Qfound Qnew. unfold copyout_turn. wp_step. eapply wp_is_get; [done|].
  destruct (is_active sp) eqn:Hact; cbn [negb]; [|wp_step; by apply Qin].
  wp_step. destruct (Z.eqb_spec msgt MACH_MSG_TYPE_PORT_SEND_ONCE) as [Hm|Hm]; cbn [negb].
  - wp_step. eapply wf_copyout_new; eauto. done.
  - eapply wf_reverse; [done..| | |].
    + intros Hd. eapply wf_copyout_new; eauto. congruence.
    + intros _ Hh. eapply wf_copyout_new; eauto.
    + intros name b req Hnm Hb _ Hpa. wp_step. eapply wp_named_get; [done..|]. intros ix. wp_step. wp_step; [done|].
      wp_step. apply Qfound. split_and!; [done..|]. by exists b, req.
Qed.

(** Two turns are enough: the first leaves a free entry to the second. *)
Lemma wf_copyout_loop s sp Q :
  kwf s T -> ks_spaces s !! a = Some sp -> ks_ports s !! o = Some p ->
  (is_active sp = false -> Q (inl KERN_INVALID_TASK) s) ->
  (forall kr s1, kwf s1 T -> widened a s s1 -> kr ∈ [KERN_NO_SPACE; KERN_RESOURCE_SHORTAGE] -> Q (inl kr) s1) ->
  (forall s1 s', widened a s s1 -> dead_place s1 s' -> Q (inl KERN_INVALID_CAPABILITY) s') ->
  (forall name s1, kwf s1 T -> widened a s s1 -> found_place s1 name -> Q (inr (name, MACH_PORT_INDEX name)) s1) ->
  (forall name s1 s', kwf s1 T -> widened a s s1 -> new_place s1 s' name -> Q (inr (name, MACH_PORT_INDEX name)) s') ->
  wp (copyout_loop 2 a o msgt) s Q.
Proof.
  intros HK Ha Ho Qin Qfull Qdead Qfound Qnew. pose proof (widened_refl a s) as Hw0. cbn [copyout_loop]. wp_step.
  eapply wf_copyout_turn; [done|exact Ha|done|..].
  - intros. wp_step. by apply Qin.
  - intros s1 sp1 Hact Hfull HK1 Hw Ha1 Hfree. wp_step.
    assert (Ho1 : ks_ports s1 !! o = Some p) by (by rewrite (proj1 Hw)).
    pose proof Hw as (_ & _ & _ & _ & _ & _ & Hwd). rewrite Ha, Ha1 in Hwd. inversion Hwd as [? ? (Hact1 & _)|]; subst.
    eapply wf_copyout_turn; [done|exact Ha1|done|..].
    + intros; congruence.
    + intros; by match goal with H : ~ has_free sp1 |- _ => destruct (H Hfree) end.
    + intros; by match goal with H : ~ has_free sp1 |- _ => destruct (H Hfree) end.
    + intros s2 Hd. wp_step. by eapply Qdead.
    + intros name Hf. wp_step. by apply Qfound.
    + intros name s2 Hn. wp_step. by eapply Qnew.
  - intros. wp_step. by apply Qfull.
  - intros. wp_step. by eapply Qdead.
  - intros. wp_step. by apply Qfound.
  - intros. wp_step. by eapply Qnew.
Qed.
End place.
End places.
