(* ===== verification/IpcReceiveOk.v ===== *)
(** * Giving up receive rights (ipc_right.c)

    The operations of ipc_right.c that end in [ipc_port_destroy]: [ipc_right_delta] for receive
    rights, [ipc_right_destruct] and [ipc_right_destroy].  The entry is worked on first, as in
    the other operations; the destruction of the port sweeps the kernel afterwards. *)

From S2P Require Import IpcTypes IpcBits IpcHash IpcEntry IpcGrow IpcState IpcLedger IpcPort IpcRequest IpcDestroy IpcRight IpcObject IpcFocus IpcSample IpcRightOk IpcDeltaOk IpcPortOk IpcCopyOk IpcDesk IpcDestroyOk IpcAllocOk.

(** What an operation on entry [i] of space [a] that destroys ports leaves alone *)
Record lost (a i : Z) (s s' : kstate) : Prop := {
  lo_psets : ks_psets s' = ks_psets s;
  lo_others : forall b, b <> a -> ks_spaces s' !! b = ks_spaces s !! b;
  lo_space : option_Forall2 (kept i) (ks_spaces s !! a) (ks_spaces s' !! a);
  lo_kmsgs : forall k, ks_kmsgs s !! k = None -> ks_kmsgs s' !! k = None;
  lo_messages : ks_ith_messages s = [] -> ks_ith_messages s' = [];
  lo_assertions : ks_ith_assertions s' = ks_ith_assertions s;
}.

Lemma lost_framed a i s s' : framed a i s s' -> lost a i s s'.
Proof. intros (H1 & H2 & [H3 H4] & H5 & H6). split; try done; [by rewrite H2|by rewrite H3]. Qed.

Lemma lost_swept a i s s1 s' :
  lost a i s s1 -> swept s1 s' -> (ks_ith_messages s1 = [] -> ks_ith_messages s' = []) -> lost a i s s'.
Proof.
  intros [] [] Hi. split; [congruence| | | |auto|congruence].
  - intros b Hb. rewrite sw_spaces. by apply lo_others0.
  - by rewrite sw_spaces.
  - intros k Hk. by apply sw_kmsgs, lo_kmsgs0.
Qed.

Lemma lost_stays a i s s1 s' : lost a i s s1 -> stays s1 s' -> lost a i s s'.
Proof. intros Hl (Hsw & _ & Hi). eapply lost_swept; [done|done|]. by rewrite Hi. Qed.

Lemma destroyed_queue o p s s' : destroyed o p s s' -> ks_ith_messages s = [] -> ks_ith_messages s' = [].
Proof.
  unfold destroyed, swept_queue. intros Hd Hn. destruct (_ =? IP_NULL); destruct Hd as [_ Hq];
    rewrite decide_True in Hq by done; apply Hq.
Qed.

(** What becomes of a port that loses its receive right when the log is [L]: it is dead, and its
    messages are gone if the thread was not reaping; or, if somebody asked for the receive
    right, it is in limbo with its messages and the right is sent to them. *)
Definition port_gone (s0 : kstate) (L : list event) (p : ipc_port) (o : Z) (s' : kstate) : Prop :=
  if ip_pdrequest p =? IP_NULL then
    (forall p', ks_ports s' !! o = Some p' -> ip_active p' = false) /\
    (ks_ith_messages s0 = [] -> forall k, k ∈ imq_messages (ip_messages p) -> ks_kmsgs s' !! k = None)
  else
    (exists p', ks_ports s' !! o = Some p' /\ ip_active p' = ip_active p /\ ip_receiver_name p' = MACH_PORT_NULL /\
      ip_destination p' = IP_NULL /\ imq_messages (ip_messages p') = imq_messages (ip_messages p)) /\
    exists es1 es2, ks_log s' = L ++ es1 ++ NotifyPortDestroyed (ip_pdrequest p) o :: es2.

Lemma destroyed_gone s0 L o p q es s s' :
  destroyed o q s s' -> ks_ith_messages s = ks_ith_messages s0 -> ks_log s = L ++ es ->
  ip_pdrequest q = ip_pdrequest p -> ip_bits q = ip_bits p -> imq_messages (ip_messages q) = imq_messages (ip_messages p) ->
  port_gone s0 L p o s'.
Proof.
  unfold destroyed, port_gone. intros Hd Hi HL Hpd Hb Hm. rewrite Hpd, Hm in Hd. destruct (_ =? IP_NULL).
  - destruct Hd as ((Hdead & _) & Hq). split; [done|]. unfold swept_queue in Hq. intros Hn. rewrite decide_True in Hq by congruence. apply Hq.
  - destruct Hd as ((HP & imp & HL') & _). split.
    + exists (in_limbo q). destruct (in_limbo_fields q) as (F1 & _ & _ & _ & _ & _ & F7 & _).
      rewrite HP. split_and!; [apply lookup_insert_eq|unfold ip_active; by rewrite F1, Hb|done|done|by rewrite F7].
    + exists es, imp. by rewrite HL', HL, <- app_assoc.
Qed.

(** Only the log has grown. *)
Definition noted (s s' : kstate) : Prop := stays s s' /\ ks_ports s' = ks_ports s.

#[global] Instance noted_trans : Transitive noted.
Proof. intros s1 s2 s3 [H1 H2] [H3 H4]. split; [by etrans|congruence]. Qed.

Lemma gone_noted s0 L p o s s' : port_gone s0 L p o s -> noted s s' -> port_gone s0 L p o s'.
Proof.
  unfold port_gone. intros Hg [([_ _ _ _ _ [es HL]] & Hk & _) HP]. rewrite HP, Hk. destruct (_ =? IP_NULL); [done|].
  destruct Hg as (Hp & es1 & es2 & HL1). split; [done|]. exists es1, (es2 ++ es). by rewrite HL, HL1, <- !app_assoc.
Qed.

Lemma gone_alike s0 L p q o s :
  port_gone s0 L q o s -> ip_bits q = ip_bits p -> ip_pdrequest q = ip_pdrequest p ->
  imq_messages (ip_messages q) = imq_messages (ip_messages p) -> port_gone s0 L p o s.
Proof. unfold port_gone, ip_active. by intros Hg <- <- <-. Qed.

Lemma gone_earlier s0 L es p o s : port_gone s0 (L ++ es) p o s -> port_gone s0 L p o s.
Proof.
  unfold port_gone. destruct (_ =? IP_NULL); [done|]. intros (Hp & es1 & es2 & HL). split; [done|].
  exists (es ++ es1), es2. by rewrite HL, <- !app_assoc.
Qed.

Lemma entry_is_spaces s s' a i o b : entry_is s a i o b -> ks_spaces s' = ks_spaces s -> entry_is s' a i o b.
Proof. intros (sp & Ha & H) Hs. exists sp. by rewrite Hs. Qed.

(** Fields of a port that decide its fate *)
Definition alike (p p' : ipc_port) : Prop :=
  ip_bits p' = ip_bits p /\ ip_receiver p' = ip_receiver p /\ ip_receiver_name p' = ip_receiver_name p /\
  ip_tempowner p' = ip_tempowner p /\ ip_imp_task p' = ip_imp_task p /\ ip_pdrequest p' = ip_pdrequest p /\
  imq_messages (ip_messages p') = imq_messages (ip_messages p).

Section notifications.
Context {env : ipc_env}.

Lemma dk_send_no_senders s ev T ns Q :
  desk s ev (T ⊕ sonce_rights ns.1) -> (forall s', desk s' ev T -> noted s s' -> Q tt s') -> wp (send_no_senders ns) s Q.
Proof.
  intros HD HQ. unfold send_no_senders, sonce_rights in *. destruct (ns.1 =? IP_NULL); cbn [negb when mwhen] in *.
  - wp_step. apply HQ; [|done]. eapply dk_ext; [done|]. intros r. unfold plus. simpl. lia.
  - eapply dk_log; [done|]. intros s' HD' Hs' _ HP. by apply HQ.
Qed.

Lemma dk_send_port_deleted s ev T request name Q :
  desk s ev (T ⊕ sonce_rights request) -> (forall s', desk s' ev T -> noted s s' -> Q tt s') ->
  wp (send_port_deleted request name) s Q.
Proof.
  intros HD HQ. unfold send_port_deleted, sonce_rights in *. destruct (request =? IP_NULL); cbn [negb when mwhen] in *.
  - wp_step. apply HQ; [|done]. eapply dk_ext; [done|]. intros r. unfold plus. simpl. lia.
  - eapply dk_log; [done|]. intros s' HD' Hs' _ HP. by apply HQ.
Qed.
End notifications.

(** A space that has the name of a send right in hand is not the receiver of the port. *)
Lemma not_receiver {env : ipc_env} s T o p a :
  kwf s T -> 1 <= T (RName o a) -> ks_ports s !! o = Some p -> ip_active p = true ->
  (ip_receiver p = a -> ip_receiver_name p <> MACH_PORT_NULL /\ T (RHome o a (ip_receiver_name p)) = 0) -> ip_receiver p <> a.
Proof.
  intros HK HT Ho Ha Hh Hr. destruct (Hh Hr) as [Hn HT'].
  destruct (receiver_entry s T o p a HK Ho Ha Hr Hn HT') as (b & req & (_ & sp & Hsp & Hact & Hi & Hc & _) & Hb & Hok).
  pose proof (kw_ledger _ _ HK (RName o a)) as HL. unfold accounts in HL. cbn [target] in HL.
  destruct (kw_spaces _ _ HK _ _ Hsp Hact) as ((H & l & HI) & _). pose proof (si_size _ _ _ _ HI) as Hs.
  enough (0 < held s (RName o a)) by lia.
  eapply (table_rights_held s a sp (MACH_PORT_INDEX (ip_receiver_name p))); [done|done|lia|]. unfold entry_rights. rewrite Hc.
  assert (Hb' : has b MACH_PORT_TYPE_SEND_RECEIVE = true) by (by_kind Hok).
  unfold core_rights. rewrite Hb'. do 7 (apply elem_of_app; right). by left.
Qed.

Section receive.
Context {env : ipc_env} (s0 : kstate) (a i name : Z) (Hname : MACH_PORT_INDEX name = i)
  (Hword : 0 <= name < 2 ^ 32) (T0 : right -> Z) (HT0 : hand_ok T0).
Local Abbreviation foc := (focus s0 a i name).
Local Abbreviation hold := (holding s0 a i name).

(** What the caller has to know of the port: no other use is made of its importance field if
    it is to go in limbo, and a temporary owner's port is destroyed by a thread at the top. *)
Definition fatal (p : ipc_port) : Prop :=
  (ip_tempowner p = true -> ks_ith_assertions s0 = 0) /\
  (ip_pdrequest p <> IP_NULL -> ip_tempowner p = true \/ ip_imp_task p = IIT_NULL).

Lemma cleared_fields p :
  alike p (cleared p) /\ ip_active (cleared p) = ip_active p.
Proof using. unfold cleared, alike. by destruct (ip_in_pset p). Qed.

(** The receive right is in hand: the port loses its receiver and is destroyed. *)
Lemma wf_lose_port s P L o' b' T l o p Q :
  foc s P L (Shut o' b') (T ⊕ [RRef o; RLive o; RHome o a name] ⊕ l) -> hand_ok T -> moribund o l ->
  (ip_pdrequest p <> IP_NULL -> l = []) -> P !! o = Some p ->
  ip_active p = true -> ip_receiver p = a -> ip_receiver_name p = name -> name <> MACH_PORT_NULL -> fatal p ->
  (forall s', desk s' Rest T -> lost a i s0 s' -> entry_is s' a i o' b' ->
    port_gone s0 L p o s' -> Q tt s') ->
  wp (_ ← ipc_port_clear_receiver o; ipc_port_destroy o) s Q.
Proof using.
  intros HF HT Hl Hl0 Ho Ha Hr Hn Hn0 [Htop Hlimbo] HQ. destruct (cleared_fields p) as [(E1 & E2 & E3 & E4 & E5 & E6 & E7) E8].
  apply wp_bind. eapply wf_clear_receiver; [exact HF|done|done|]. intros s1 HF1.
  pose proof (fc_frame _ _ _ _ _ _ _ _ _ HF1) as Hfr. pose proof (fc_ports _ _ _ _ _ _ _ _ _ HF1) as HP1.
  destruct (fc_space _ _ _ _ _ _ _ _ _ HF1) as (sp & Hsp & _ & He).
  eapply (dk_ipc_port_destroy s1 T l o (cleared p)); [|done|by rewrite E6|done|rewrite HP1; apply lookup_insert_eq| |].
  - apply dk_kwf. apply fc_closed in HF1. eapply kwf_proper; [done| |exact HF1]. intros r. unfold plus, home_rights.
    rewrite E2, E3, Hr, Hn, (proj2 (Z.eqb_neq _ _) Hn0). cbn [negb orb when cnt]. lia.
  - split; [by rewrite E8|apply cleared_idle| |by rewrite E4, E5, E6]. rewrite E4. intros Ht.
    destruct Hfr as (_ & _ & [_ ->] & _). by apply Htop.
  - intros s' HD' Hsw Hde. apply HQ.
    + eapply dk_ext; [exact HD'|]. intros r. unfold plus, transit_rights. rewrite E3, Hn, (proj2 (Z.eqb_neq _ _) Hn0). simpl. lia.
    + eapply lost_swept; [by apply lost_framed|done|by eapply destroyed_queue].
    + eapply entry_is_spaces; [|apply (sw_spaces _ _ Hsw)]. by exists sp.
    + eapply destroyed_gone; [exact Hde| |exact (fc_log _ _ _ _ _ _ _ _ _ HF1)|done..]. by destruct Hfr as (_ & _ & [-> _] & _).
Qed.

(** What is left of the entry: nothing, the send right if the port survives in limbo, or a
    dead name *)
Definition lost_entry (p : ipc_port) (o b req request o' b' : Z) : Prop :=
  if has b MACH_PORT_TYPE_SEND then
    request = IP_NULL /\
    if ip_pdrequest p =? IP_NULL
    then o' = IO_NULL /\ dead_bits b (IE_BITS_UREFS b + (if req =? IE_REQ_NONE then 0 else 1)) b'
    else o' = o /\ b' = clr b MACH_PORT_TYPE_RECEIVE
  else request = request_of p req /\ o' = IO_NULL /\ b' = MACH_PORT_GEN name.

Local Abbreviation received o := [RRef o; RLive o; RHome o a name].

Section lose_receive.
Context (s : kstate) (P : gmap Z ipc_port) (L : list event) (o b req : Z) (p : ipc_port)
  (Hh : holding s0 a i name s P L o b req T0) (Ho : P !! o = Some p) (Q : Z -> kstate -> Prop)
  (HQ : forall s' P' p' o' b' request l,
    focus s0 a i name s' P' L (Shut o' b') (T0 ⊕ sonce_rights request ⊕ received o ⊕ l) -> P' !! o = Some p' -> alike p p' ->
    moribund o l -> (ip_pdrequest p <> IP_NULL -> l = []) -> lost_entry p o b req request o' b' -> Q request s').

(** The entry becomes a dead name; its send right dies with the port. *)
Lemma wf_lose_dead :
  IE_BITS_TYPE b = MACH_PORT_TYPE_SEND_RECEIVE -> ip_pdrequest p = IP_NULL ->
  wp (_ ← (let bits := Z.lor (clr b IE_BITS_TYPE_MASK) MACH_PORT_TYPE_DEAD_NAME in
           bits ← (if negb (req =? 0) then
                     _ ← ie_mod a i (set_ie_request IE_REQ_NONE); mret (bits + 1)
                   else mret bits);
           _ ← ie_mod a i (set_ie_bits bits);
           _ ← ie_mod a i (set_ie_object IO_NULL);
           entry_modified a name i);
      mret IP_NULL) s Q.
Proof using Hname Hword Hh Ho HQ.
  intros Ht Hpd. pose proof Hh as [HF Hok]. pose proof (holding_gen _ _ _ _ _ _ _ _ _ _ _ Hh) as Hg.
  assert (Hu : 0 < IE_BITS_UREFS b < MACH_PORT_UREFS_MAX) by (by_kind Hok).
  pose proof (dead_bits_of b) as (Hdt & Hdu & Hdg). set (b1 := Z.lor _ _) in *. rewrite Ht in HF.
  assert (Hend : forall n s1, n = (if req =? IE_REQ_NONE then 0 else 1) ->
    foc s1 P L (Open (o, b, IE_REQ_NONE) false) (T0 ⊕ type_rights a name o MACH_PORT_TYPE_SEND_RECEIVE req) ->
    wp (_ ← ie_mod a i (set_ie_bits (b1 + n)); _ ← ie_mod a i (set_ie_object IO_NULL); entry_modified a name i) s1
      (fun _ s' => wp (mret IP_NULL) s' Q)).
  { intros n s1 Hn HF1. assert (Hn1 : 0 <= n <= 1) by (rewrite Hn; destruct (req =? IE_REQ_NONE); lia).
    destruct (bits_urefs b1 n) as (Hbt & Hbu & Hbg); [unfold MACH_PORT_UREFS_MAX in *; lia|].
    apply wp_bind. eapply wf_ie_mod; [done|done|entry_fields|done|by rewrite Hbg, Hdg|]. intros s2 HF2.
    apply wp_bind. eapply wf_ie_mod; [done|done|entry_fields|done|by rewrite Hbg, Hdg|]. intros s3 HF3.
    eapply wf_entry_modified; [done|done|]. intros s4 HF4. wp_step.
    eapply (HQ s4 P p IO_NULL (b1 + n) IP_NULL (RSend o :: slot_held o req name)); [|done|by split_and!| |done|].
    - eapply (fc_put_back _ _ _ _ Hname Hword); [rewrite Hbt, Hdt| |].
      + apply (fc_drop _ _ _ _ _ _ _ _ _ [RName o a]) in HF4; [exact HF4|by repeat constructor].
      + unfold entry_ok. rewrite Hbt, Hbu, Hdt, Hdu. constructor. unfold MACH_PORT_UREFS_MAX in *. lia.
      + rewrite Hbt, Hdt. same_hand.
    - constructor; [done|]. unfold slot_held. destruct (negb _); by repeat constructor.
    - unfold lost_entry. rewrite has_type, Ht by done. rewrite Hpd. split; [done|]. split; [done|].
      unfold dead_bits. rewrite Hbt, Hbu, Hbg, Hdt, Hdu, Hdg, Hn. done. }
  apply wp_bind. cbv zeta. apply wp_bind. unfold IE_REQ_NONE in *. destruct (Z.eqb_spec req 0) as [Hr|Hr]; cbn [negb].
  - wp_step. replace b1 with (b1 + 0) by lia. apply Hend; [done|]. rewrite <- Hr. exact HF.
  - apply wp_bind. eapply wf_ie_mod; [done|exact HF|entry_fields|done|done|]. intros s1 HF1. wp_step. by apply Hend.
Qed.

(** The port goes in limbo: the entry keeps the send right. *)
Lemma wf_lose_limbo :
  IE_BITS_TYPE b = MACH_PORT_TYPE_SEND_RECEIVE -> ip_pdrequest p <> IP_NULL -> ip_references p + 1 < IO_MAX_REFERENCES ->
  wp (_ ← (_ ← entry_modified a name i;
           _ ← ie_mod a i (set_ie_bits (clr b MACH_PORT_TYPE_RECEIVE));
           _ ← hash_insert a o name i;
           ip_reference o);
      mret IP_NULL) s Q.
Proof using Hname Hword Hh Ho HQ.
  intros Ht Hpd Hrm. pose proof Hh as [HF Hok]. pose proof (holding_gen _ _ _ _ _ _ _ _ _ _ _ Hh) as Hg.
  assert (Hu : 0 < IE_BITS_UREFS b < MACH_PORT_UREFS_MAX) by (by_kind Hok).
  destruct (entry_ok_port _ _ _ Hok) as (Hon & Hreq & _); [by by_type Ht|].
  destruct (moved_bits b) as (Hbt & Hbu & Hbg). rewrite Ht in HF, Hbt.
  change (clr MACH_PORT_TYPE_SEND_RECEIVE MACH_PORT_TYPE_RECEIVE) with MACH_PORT_TYPE_SEND in Hbt.
  do 2 apply wp_bind. eapply wf_entry_modified; [done|exact HF|]. intros s1 HF1.
  apply wp_bind. eapply wf_ie_mod; [done|done|entry_fields|done|by rewrite Hbg|]. intros s2 HF2.
  apply wp_bind. eapply wf_hash_insert; [done|exact HF2|done|]. intros s3 HF3.
  eapply wf_reference; [done|done|done|]. intros s4 HF4. wp_step.
  eapply (HQ s4 _ (set_ip_references (ip_references p + 1) p) o (clr b MACH_PORT_TYPE_RECEIVE) IP_NULL []);
    [|apply lookup_insert_eq|by split_and!|by constructor|done|].
  - eapply (fc_put_back _ _ _ _ Hname Hword _ _ _ _ _ req); [by rewrite Hbt|unfold entry_ok; rewrite Hbt, Hbu; by constructor|].
    rewrite Hbt. same_hand.
  - unfold lost_entry. rewrite has_type, Ht by done. by rewrite (proj2 (Z.eqb_neq _ _) Hpd).
Qed.

(** The entry has nothing but the receive right. *)
Lemma wf_lose_only :
  IE_BITS_TYPE b = MACH_PORT_TYPE_RECEIVE -> ip_active p = true ->
  wp (request ← ipc_right_request_cancel_macro a o name i;
      _ ← ie_mod a i (set_ie_object IO_NULL);
      _ ← entry_dealloc a name i;
      mret request) s Q.
Proof using Hname Hword HT0 Hh Ho HQ.
  intros Ht Ha. pose proof (proj1 HT0) as HT1. pose proof Hh as [HF Hok].
  pose proof (holding_gen _ _ _ _ _ _ _ _ _ _ _ Hh) as Hg.
  pose proof (holding_slot _ _ _ _ _ _ _ _ _ _ _ HT1 Hh) as Hslot. rewrite has_type, Ht in Hslot by done. rewrite Ht in HF.
  apply wp_bind. eapply wf_request_cancel; [done|exact HF|done|done|by apply Hslot|]. intros s1 rq HF1.
  apply wp_bind. eapply wf_ie_mod; [done|done|entry_fields|done|done|]. intros s2 HF2.
  apply wp_bind. eapply wf_entry_dealloc; [done|done|]. intros s3 HF3. wp_step.
  eapply (HQ s3 _ (set_ip_requests rq p) IO_NULL (MACH_PORT_GEN name) (request_of p req) []); [|apply lookup_insert_eq|by split_and!|by constructor|done|].
  - eapply fc_ext; [apply (fc_drop _ _ _ _ _ _ _ _ _ [RName o a] HF3); by repeat constructor|].
    fold (slot_held o req name). same_hand.
  - unfold lost_entry. by rewrite has_type, Ht.
Qed.

Lemma wf_lose_receive :
  has b MACH_PORT_TYPE_RECEIVE = true -> ip_active p = true ->
  (ip_pdrequest p <> IP_NULL -> ip_references p + 1 < IO_MAX_REFERENCES) ->
  wp (lose_receive a o name i) s Q.
Proof using Hname Hword HT0 Hh Ho HQ.
  intros Hb Ha Hrm. pose proof Hh as [HF Hok].
  assert (Hty : IE_BITS_TYPE b = MACH_PORT_TYPE_RECEIVE /\ IE_BITS_UREFS b = 0 \/
                IE_BITS_TYPE b = MACH_PORT_TYPE_SEND_RECEIVE /\ 0 < IE_BITS_UREFS b < MACH_PORT_UREFS_MAX) by (by_kind Hok; auto).
  unfold lose_receive. apply wp_bind. eapply wf_ie_get; [done|done|]. intros ix. cbn [ie_bits ie_request].
  apply wp_bind. eapply wf_ip_get; [done|done|]. destruct Hty as [[Ht Hu]|[Ht Hu]].
  - assert (Hs : has b MACH_PORT_TYPE_SEND = false) by (by rewrite has_type, Ht by done). rewrite Hs, Ht, Hu.
    wp_step. wp_step; [done|]. wp_step. wp_step; [done|]. by apply wf_lose_only.
  - assert (Hs : has b MACH_PORT_TYPE_SEND = true) by (by rewrite has_type, Ht by done). rewrite Hs.
    wp_step. wp_step; [apply Z.ltb_lt; lia|]. wp_step. wp_step; [apply Z.ltb_lt; lia|].
    destruct (Z.eqb_spec (ip_pdrequest p) IP_NULL) as [Hpd|Hpd]; cbn [negb]; [by apply wf_lose_dead|by apply wf_lose_limbo; auto].
Qed.
End lose_receive.

(** What the caller of an operation that may destroy the port of an entry has to know *)
Definition destroyable (P : gmap Z ipc_port) (o b : Z) : Prop :=
  has b MACH_PORT_TYPE_RECEIVE = true -> forall p, P !! o = Some p ->
    fatal p /\ (ip_pdrequest p <> IP_NULL -> ip_references p + 1 < IO_MAX_REFERENCES).

Lemma fatal_alike p p' : alike p p' -> fatal p -> fatal p'.
Proof using. intros (_ & _ & _ & E4 & E5 & E6 & _) [H1 H2]. unfold fatal. by rewrite E4, E5, E6. Qed.

(** The entry is as it was. *)
Lemma wf_as_was s P L o b req : hold s P L o b req T0 -> kwf s T0 /\ lost a i s0 s /\ entry_is s a i o b.
Proof using Hname Hword.
  intros Hh. pose proof (hold_shut _ _ _ _ Hname Hword _ _ _ _ _ _ _ Hh) as HF.
  split_and!; [by eapply fc_closed|apply lost_framed; by eapply fc_frame|].
  destruct (fc_space _ _ _ _ _ _ _ _ _ HF) as (sp & Hsp & _ & He). by exists sp.
Qed.

(** The port goes, once its entry is what it will be. *)
Lemma wf_gone s P L o p o' b' request l Q :
  foc s P L (Shut o' b') (T0 ⊕ sonce_rights request ⊕ received o ⊕ l) -> P !! o = Some p -> ip_active p = true ->
  ip_receiver p = a -> ip_receiver_name p = name -> name <> MACH_PORT_NULL -> fatal p ->
  moribund o l -> (ip_pdrequest p <> IP_NULL -> l = []) ->
  (forall s', kwf s' T0 -> lost a i s0 s' -> entry_is s' a i o' b' -> port_gone s0 L p o s' -> Q KERN_SUCCESS s') ->
  wp (_ ← ipc_port_clear_receiver o;
      _ ← ipc_port_destroy o;
      _ ← send_port_deleted request name;
      mret KERN_SUCCESS) s Q.
Proof using HT0.
  intros HF Ho Ha Hr Hn Hn0 Hf Hmo Hl0 HQ.
  assert (Hm : wp (_ ← ipc_port_clear_receiver o; ipc_port_destroy o) s
    (fun _ s' => wp (_ ← send_port_deleted request name; mret KERN_SUCCESS) s' Q)).
  { eapply (wf_lose_port s P L o' b' (T0 ⊕ sonce_rights request) l o p); [done| |done..|].
    - apply hand_ok_plus; [done|apply backed_sonce].
    - intros s2 HD2 Hlo2 He2 Hg2. apply wp_bind. eapply dk_send_port_deleted; [done|]. intros s3 HD3 Hs3. wp_step.
      apply HQ; [by apply dk_kwf|eapply lost_stays; [done|apply Hs3]| |by eapply gone_noted].
      eapply entry_is_spaces; [done|]. destruct Hs3 as (([] & _) & _). done. }
  unfold wp in Hm |- *. unfold mbind, M_bind in *. destruct (ipc_port_clear_receiver o s) as [[[] s2]|]; [|done].
  by destruct (ipc_port_destroy o s2) as [[[] s3]|].
Qed.

(** From [lose_receive] to the end *)
Lemma wf_receive_gone s P L o b req p Q :
  hold s P L o b req T0 -> has b MACH_PORT_TYPE_RECEIVE = true -> P !! o = Some p -> destroyable P o b ->
  (forall s' o' b' request, kwf s' T0 -> lost a i s0 s' -> entry_is s' a i o' b' ->
    lost_entry p o b req request o' b' -> port_gone s0 L p o s' -> Q KERN_SUCCESS s') ->
  wp (request ← lose_receive a o name i;
      _ ← ipc_port_clear_receiver o;
      _ ← ipc_port_destroy o;
      _ ← send_port_deleted request name;
      mret KERN_SUCCESS) s Q.
Proof using Hname Hword HT0.
  intros Hh Hb Ho Hds HQ. destruct (Hds Hb p Ho) as [Hf Hrm]. pose proof (proj1 HT0) as HT1.
  destruct (holding_receive _ _ _ _ Hname _ _ _ _ _ _ _ p HT1 Hh Hb Ho) as (Ha & Hr & Hn & Hn0).
  apply wp_bind. eapply (wf_lose_receive s P L o b req p Hh Ho); [|done|done|done].
  intros s1 P1 p1 o' b' request l HF1 Ho1 Hal Hmo Hl0 Hle. pose proof Hal as (E1 & E2 & E3 & _ & _ & E6 & E7).
  eapply (wf_gone s1 P1 L o p1); [done|done| |congruence|congruence|done|by eapply fatal_alike|done|by rewrite E6|].
  - unfold ip_active in *. by rewrite E1.
  - intros s2 HK2 Hlo2 He2 Hg2. eapply HQ; [done..|]. by eapply gone_alike.
Qed.

(** [mach_port_mod_refs] on a receive right *)
Definition delta_received (P : gmap Z ipc_port) (L : list event) (o b req delta : Z) (kr : kern_return_t) (s' : kstate) (o' b' : Z) : Prop :=
  let unchanged := o' = o /\ b' = b in
  if negb (has b MACH_PORT_TYPE_RECEIVE) then kr = KERN_INVALID_RIGHT /\ unchanged else
  if delta =? 0 then kr = KERN_SUCCESS /\ unchanged else
  if negb (delta =? -1) then kr = KERN_INVALID_VALUE /\ unchanged else
  exists p, P !! o = Some p /\
    if ip_guarded p then kr = KERN_INVALID_RIGHT /\ unchanged
    else kr = KERN_SUCCESS /\ port_gone s0 L p o s' /\ exists request, lost_entry p o b req request o' b'.

Lemma wf_delta_receive s P L o b req delta Q :
  hold s P L o b req T0 -> destroyable P o b ->
  (forall kr s' o' b', kwf s' T0 -> lost a i s0 s' -> entry_is s' a i o' b' -> delta_received P L o b req delta kr s' o' b' ->
    Q kr s') ->
  wp (delta_receive a name i delta) s Q.
Proof using Hname Hword HT0.
  intros Hh Hds HQ. pose proof (proj1 HT0) as HT1. pose proof Hh as [HF Hok].
  destruct (wf_as_was _ _ _ _ _ _ Hh) as (HK & Hlo & He).
  unfold delta_receive, delta_received in *. apply wp_bind. eapply wf_ie_get; [done|done|]. intros ix. cbn [ie_bits ie_object].
  destruct (has b MACH_PORT_TYPE_RECEIVE) eqn:Hb; cbn [negb] in *; [|wp_step; by eapply HQ].
  destruct (delta =? 0); [wp_step; by eapply HQ|]. destruct (negb (delta =? -1)); [wp_step; by eapply HQ|].
  assert (Hpr : has b MACH_PORT_TYPE_PORT_RIGHTS = true) by (by_kind Hok).
  destruct (entry_ok_port _ _ _ Hok Hpr) as (Hon & _).
  destruct (holding_port _ _ _ _ _ _ _ _ _ _ _ HT1 Hh Hpr) as [p Ho].
  destruct (holding_receive _ _ _ _ Hname _ _ _ _ _ _ _ p HT1 Hh Hb Ho) as (Ha & Hr & Hn & Hn0).
  wp_step. wp_step; [by destruct (Z.eqb_spec o IP_NULL)|]. apply wp_bind. eapply wf_ip_get; [done|done|].
  wp_step. wp_step; [done|]. wp_step. wp_step; [by apply Z.eqb_eq|]. wp_step. wp_step; [by apply Z.eqb_eq|].
  destruct (ip_guarded p) eqn:Hgd.
  - apply wp_bind. eapply (dk_log s Rest T0).
    { eapply dk_ext; [by apply dk_kwf|]. intros r. unfold plus. simpl. lia. }
    intros s1 HD1 Hs1 _ _. wp_step. eapply HQ; [by apply dk_kwf|by eapply lost_stays| |exists p; by rewrite Hgd].
    eapply entry_is_spaces; [exact He|]. destruct Hs1 as ([] & _). done.
  - apply wp_bind. apply wp_mwhen; intros Hs.
    + wp_step. wp_step; [by by_kind Hok|]. wp_step; [apply Z.ltb_lt; by eapply holding_srights|].
      eapply wf_receive_gone; [done|done|done|done|]. intros s' o' b' request HK' Hlo' He' Hle Hg'.
      eapply HQ; [done|done|done|]. exists p. rewrite Hgd. eauto.
    + eapply wf_receive_gone; [done|done|done|done|]. intros s' o' b' request HK' Hlo' He' Hle Hg'.
      eapply HQ; [done|done|done|]. exists p. rewrite Hgd. eauto.
Qed.

(** *** Destroying an entry *)

(** The right that is left, by the type of the entry; the name of a send right is still there. *)
Definition last_rights (o type : Z) : list right :=
  if has type MACH_PORT_TYPE_RECEIVE then received o
  else if has type MACH_PORT_TYPE_SEND_ONCE then [RRef o; RSonce o] else [RRef o; RName o a].

Lemma wf_release_right s P L o' b' T o type p Q :
  foc s P L (Shut o' b') (T ⊕ last_rights o type) -> hand_ok T -> P !! o = Some p -> ip_active p = true ->
  (has type MACH_PORT_TYPE_RECEIVE = true -> ip_receiver p = a /\ ip_receiver_name p = name /\ name <> MACH_PORT_NULL /\ fatal p) ->
  (has type MACH_PORT_TYPE_RECEIVE = false -> ip_receiver p = a ->
    ip_receiver_name p <> MACH_PORT_NULL /\ T (RHome o a (ip_receiver_name p)) = 0) ->
  (forall s', desk s' Rest T -> lost a i s0 s' -> entry_is s' a i o' b' ->
    (has type MACH_PORT_TYPE_RECEIVE = true -> port_gone s0 L p o s') -> Q tt s') ->
  wp (release_right a o type) s Q.
Proof using Hname.
  intros HF HT Ho Ha Hrc Hsd HQ. unfold release_right, last_rights in *. pose proof (fc_ports _ _ _ _ _ _ _ _ _ HF) as HP.
  assert (Hat : entry_is s a i o' b') by (destruct (fc_space _ _ _ _ _ _ _ _ _ HF) as (sp & Hsp & _ & He); by exists sp).
  pose proof (lost_framed _ _ _ _ (fc_frame _ _ _ _ _ _ _ _ _ HF)) as Hlo.
  assert (Hend : forall s', desk s' Rest T -> stays s s' -> has type MACH_PORT_TYPE_RECEIVE = false -> Q tt s').
  { intros s' HD' Hs' Hf. apply HQ; [done|by eapply lost_stays| |by rewrite Hf].
    eapply entry_is_spaces; [done|]. destruct Hs' as ([] & _). done. }
  destruct (has type MACH_PORT_TYPE_RECEIVE).
  - destruct (Hrc eq_refl) as (Hr & Hn & Hn0 & Hf). apply wp_bind. eapply wf_ip_get; [done|done|].
    wp_step. wp_step; [done|]. wp_step. wp_step; [by apply Z.eqb_eq|].
    eapply (wf_lose_port s P L o' b' T [] o p); [|done|by constructor|done..|].
    { eapply fc_ext; [exact HF|]. intros r. unfold plus. simpl. lia. }
    intros s' HD' Hlo' He' Hg. by apply HQ.
  - destruct (has type MACH_PORT_TYPE_SEND_ONCE).
    + apply wp_bind. eapply wf_ip_get; [done|done|]. wp_step. wp_step.
      { apply Z.ltb_lt. pose proof (fc_count_ge _ _ _ _ _ _ _ _ _ HF o p (RSonce o) Ho eq_refl) as Hc.
        pose proof (proj1 HT (RSonce o)). revert Hc. unfold plus. cbn [cnt port_count]. hand_at. lia. }
      eapply (dk_log s Rest T); [|intros s' HD' Hs' _ _; by apply Hend].
      apply dk_kwf. apply fc_closed in HF. eapply kwf_proper; [done| |exact HF]. intros r. unfold plus. cbn [event_rights cnt]. lia.
    + apply wp_bind. eapply wf_ip_get; [done|done|]. wp_step. wp_step.
      { apply negb_true_iff, Z.eqb_neq. apply fc_closed in HF. eapply (not_receiver s _ o p a HF); [|by rewrite HP|done|].
        - pose proof (proj1 HT (RName o a)). unfold plus. cbn [cnt]. hand_at. lia.
        - intros Hr. destruct (Hsd eq_refl Hr) as [Hn HT']. split; [done|]. unfold plus. rewrite HT'. cbn [cnt]. by hand_at. }
      eapply (dk_release s Rest T o p); [|done|by rewrite HP|intros s' HD' Hs' _ _; by apply Hend].
      apply (fc_drop _ _ _ _ _ _ _ _ _ [RName o a]) in HF; [|by repeat constructor].
      apply dk_kwf. apply fc_closed in HF. eapply kwf_proper; [done| |exact HF]. intros r. unfold plus, minus. cbn [cnt]. lia.
Qed.

(** What the caller of [ipc_right_destroy] has to know: the port can be destroyed if this is
    its receiver; if not, the space is known as its receiver only through an entry; and no
    guard is in the way. *)
Record destroy_pre (P : gmap Z ipc_port) (o b : Z) (check_guard : bool) (guard : Z) : Prop := {
  dp_fatal : forall p, P !! o = Some p -> has b MACH_PORT_TYPE_RECEIVE = true -> fatal p;
  dp_home : forall p, P !! o = Some p -> ip_active p = true -> ip_receiver p = a -> ip_receiver_name p <> MACH_PORT_NULL;
  dp_hand : forall n, n <> MACH_PORT_NULL -> T0 (RHome o a n) = 0;
  dp_guard : forall p, P !! o = Some p -> has b MACH_PORT_TYPE_RECEIVE = true -> check_guard = true ->
    ip_guarded p = true -> guard = ip_context p;
}.

(** The port type of an entry *)
Lemma is_port_type_has b req o :
  entry_ok (o, b, req) -> is_port_type (IE_BITS_TYPE b) = has b MACH_PORT_TYPE_PORT_RIGHTS.
Proof using. intros Hok. rewrite (has_type b) by done. by_kind Hok. Qed.

Lemma has_IE_BITS_TYPE b m : Z.land IE_BITS_TYPE_MASK m = m -> has (IE_BITS_TYPE b) m = has b m.
Proof using. intros Hm. unfold has, IE_BITS_TYPE. by rewrite <- Z.land_assoc, Hm. Qed.

(** What an entry of a port right holds, besides its request *)
Lemma last_rights_type o b req r :
  entry_ok (o, b, req) -> has b MACH_PORT_TYPE_PORT_RIGHTS = true ->
  cnt r (type_rights a name o (IE_BITS_TYPE b) req) =
    cnt r (last_rights o (IE_BITS_TYPE b)) + cnt r (when (has b MACH_PORT_TYPE_SEND) [RSend o])
    + cnt r (when (has b MACH_PORT_TYPE_RECEIVE) [RName o a]) + cnt r (slot_held o req name).
Proof using.
  intros Hok Hb. unfold last_rights.
  by_kind Hok; rights_of_type; simpl; lia.

Qed.

(** The no-senders request of the send right that goes *)
Lemma wf_destroy_send s P L ev T o b p Q :
  foc s P L ev (T ⊕ when (has b MACH_PORT_TYPE_SEND) [RSend o]) -> (forall r, 0 <= T r) -> P !! o = Some p -> ip_active p = true ->
  (forall ns s' P' q, foc s' P' L ev (T ⊕ sonce_rights ns.1) -> P' !! o = Some q -> alike p q -> Q ns s') ->
  wp (if has (IE_BITS_TYPE b) MACH_PORT_TYPE_SEND then
        p ← ip_get o; _ ← massert (0 <? ip_srights p); drop_sright o
      else mret (IP_NULL, 0)) s Q.
Proof using.
  intros HF HT Ho Ha HQ. rewrite has_IE_BITS_TYPE by done. destruct (has b MACH_PORT_TYPE_SEND); cbn [when] in HF.
  - assert (Hs : 0 < ip_srights p).
    { pose proof (fc_count_ge _ _ _ _ _ _ _ _ _ HF o p (RSend o) Ho eq_refl) as Hc.
      pose proof (HT (RSend o)). revert Hc. unfold plus. cbn [cnt port_count]. hand_at. lia. }
    apply wp_bind. eapply wf_ip_get; [done|done|]. wp_step. wp_step; [by apply Z.ltb_lt|].
    eapply wf_drop_sright; [done|done|done|done|]. intros s1 HF1.
    eapply (HQ _ _ _ (drop_send p).1); [|apply lookup_insert_eq|unfold drop_send; repeat case_match; by split_and!].
    eapply fc_ext; [exact HF1|]. same_hand.
  - wp_step. eapply HQ; [|exact Ho|by split_and!]. eapply fc_ext; [exact HF|]. same_hand.
Qed.

(** The entry without its type, for a live port, from the request on *)
Lemma wf_destroy_live s P L o b req p check_guard guard Q :
  foc s P L (Open (o, clr b IE_BITS_TYPE_MASK, req) false) (T0 ⊕ type_rights a name o (IE_BITS_TYPE b) req) ->
  entry_ok (o, b, req) -> has b MACH_PORT_TYPE_PORT_RIGHTS = true -> P !! o = Some p -> ip_active p = true ->
  (has b MACH_PORT_TYPE_RECEIVE = true -> ip_receiver p = a /\ ip_receiver_name p = name /\ name <> MACH_PORT_NULL) ->
  destroy_pre P o b check_guard guard ->
  (forall s', kwf s' T0 -> lost a i s0 s' -> entry_is s' a i IO_NULL (MACH_PORT_GEN name) ->
    (has b MACH_PORT_TYPE_RECEIVE = true -> port_gone s0 L p o s') -> Q KERN_SUCCESS s') ->
  wp (request ← ipc_right_request_cancel_macro a o name i;
      _ ← ie_mod a i (set_ie_object IO_NULL);
      _ ← entry_dealloc a name i;
      ns ← (if has (IE_BITS_TYPE b) MACH_PORT_TYPE_SEND then
              p ← ip_get o; _ ← massert (0 <? ip_srights p); drop_sright o
            else mret (IP_NULL, 0));
      _ ← release_right a o (IE_BITS_TYPE b);
      _ ← send_no_senders ns;
      _ ← send_port_deleted request name;
      mret KERN_SUCCESS) s Q.
Proof using Hname HT0.
  intros HF Hok Hb Ho Ha Hrc Hpre HQ. pose proof (fc_gen _ _ _ _ _ _ _ _ _ _ _ _ HF) as Hg. pose proof (proj1 HT0) as HT1.
  apply wp_bind. eapply wf_request_cancel; [done|exact HF|done|done| |].
  { intros Hr. pose proof (HT1 (RSlot o req name)). unfold plus. rewrite last_rights_type by done. unfold slot_held.
    rewrite (proj2 (Z.eqb_neq _ _) Hr). cbn [negb when cnt]. hand_at. lia. }
  intros s1 rq HF1. fold (slot_held o req name) in HF1. set (request := request_of p req) in *.
  apply wp_bind. eapply wf_ie_mod; [done|done|entry_fields|done|done|]. intros s2 HF2.
  apply wp_bind. eapply wf_entry_dealloc; [done|done|]. intros s3 HF3.
  assert (HTr : hand_ok (T0 ⊕ sonce_rights request)) by (apply hand_ok_plus; [done|apply backed_sonce]).
  apply (fc_drop _ _ _ _ _ _ _ _ _ (when (has b MACH_PORT_TYPE_RECEIVE) [RName o a])) in HF3;
    [|destruct (has b MACH_PORT_TYPE_RECEIVE); by repeat constructor].
  apply wp_bind. eapply (wf_destroy_send s3 _ _ _ (T0 ⊕ sonce_rights request ⊕ last_rights o (IE_BITS_TYPE b)) o b (set_ip_requests rq p));
    [|intros r; pose proof (proj1 HTr r); pose proof (cnt_nonneg r (last_rights o (IE_BITS_TYPE b))); unfold plus in *; lia
     |apply lookup_insert_eq|done|].
  { eapply fc_ext; [exact HF3|]. intros r. unfold plus, minus. rewrite last_rights_type by done. lia. }
  intros ns s4 P4 q HF4 Ho4 Hal.
  assert (Haq : alike p q) by exact Hal. pose proof Haq as (E1 & E2 & E3 & E4 & E5 & E6 & E7).
  apply wp_bind. eapply (wf_release_right s4 P4 _ _ _ (T0 ⊕ sonce_rights request ⊕ sonce_rights ns.1) o (IE_BITS_TYPE b) q).
  - eapply fc_ext; [exact HF4|]. intros r. unfold plus. lia.
  - apply hand_ok_plus; [done|apply backed_sonce].
  - done.
  - unfold ip_active in *. by rewrite E1.
  - rewrite has_IE_BITS_TYPE by done. intros Hr. destruct (Hrc Hr) as (H1 & H2 & H3). split_and!; [congruence|congruence|done|].
    eapply fatal_alike; [exact Haq|]. by apply (dp_fatal _ _ _ _ _ Hpre).
  - intros _ Hra. rewrite E2 in Hra. pose proof (dp_home _ _ _ _ _ Hpre p Ho Ha Hra) as Hn. rewrite E3. split; [done|].
    unfold plus. rewrite (dp_hand _ _ _ _ _ Hpre _ Hn). by hand_at.
  - intros s5 HD5 Hlo5 He5 Hg5. rewrite has_IE_BITS_TYPE in Hg5 by done.
    apply wp_bind. eapply dk_send_no_senders; [exact HD5|]. intros s6 HD6 Hs6.
    apply wp_bind. eapply dk_send_port_deleted; [exact HD6|]. intros s7 HD7 Hs7. wp_step.
    assert (Hs : noted s5 s7) by (by etrans). apply HQ; [by apply dk_kwf|eapply lost_stays; [done|apply Hs]| |].
    + eapply entry_is_spaces; [exact He5|]. destruct Hs as (([] & _) & _). done.
    + intros Hr. eapply gone_noted; [|exact Hs]. by eapply gone_alike; [apply Hg5|..].
Qed.

(** ... and for a dead one *)
Lemma wf_destroy_buried s P L o b req p Q :
  foc s P L (Open (o, clr b IE_BITS_TYPE_MASK, req) false) (T0 ⊕ type_rights a name o (IE_BITS_TYPE b) req) ->
  entry_ok (o, b, req) -> has b MACH_PORT_TYPE_PORT_RIGHTS = true -> has b MACH_PORT_TYPE_RECEIVE = false ->
  P !! o = Some p -> ip_active p = false ->
  (forall s', kwf s' T0 -> lost a i s0 s' -> entry_is s' a i IO_NULL (MACH_PORT_GEN name) -> Q KERN_SUCCESS s') ->
  wp (_ ← ie_mod a i (set_ie_request IE_REQ_NONE);
      _ ← ie_mod a i (set_ie_object IO_NULL);
      _ ← entry_dealloc a name i;
      _ ← ip_release o;
      mret KERN_SUCCESS) s Q.
Proof using Hname HT0.
  intros HF Hok Hb Hrc Ho Ha HQ. pose proof (fc_gen _ _ _ _ _ _ _ _ _ _ _ _ HF) as Hg.
  apply wp_bind. eapply wf_ie_mod; [done|exact HF|entry_fields|done|done|]. intros s1 HF1.
  apply wp_bind. eapply wf_ie_mod; [done|exact HF1|entry_fields|done|done|]. intros s2 HF2.
  apply wp_bind. eapply wf_entry_dealloc; [done|done|]. intros s3 HF3. pose proof (fc_ports _ _ _ _ _ _ _ _ _ HF3) as HP.
  assert (Hat : entry_is s3 a i IO_NULL (MACH_PORT_GEN name))
    by (destruct (fc_space _ _ _ _ _ _ _ _ _ HF3) as (sp & Hsp & _ & He); by exists sp).
  pose proof (lost_framed _ _ _ _ (fc_frame _ _ _ _ _ _ _ _ _ HF3)) as Hlo.
  apply (fc_drop _ _ _ _ _ _ _ _ _ ((if has b MACH_PORT_TYPE_SEND then [RSend o; RName o a] else [RSonce o])
    ++ slot_held o req name)) in HF3.
  - apply wp_bind. eapply (dk_release s3 Rest T0 o p); [|done|by rewrite HP|].
    + apply dk_kwf. apply fc_closed in HF3. eapply kwf_proper; [done| |exact HF3]. intros r. unfold plus, minus.
      rewrite last_rights_type, !cnt_app, Hrc by done. unfold last_rights. rewrite !has_IE_BITS_TYPE, Hrc by done.
      by_kind Hok; simpl; lia.
    + intros s4 HD4 Hs4 _ _. wp_step. apply HQ; [by apply dk_kwf|by eapply lost_stays|].
      eapply entry_is_spaces; [exact Hat|]. destruct Hs4 as ([] & _). done.
  - unfold slot_held. destruct (has b MACH_PORT_TYPE_SEND), (negb (req =? IE_REQ_NONE)); repeat constructor; simpl; by rewrite Ho, Ha.
Qed.

(** [ipc_right_destroy] as a whole, on a name that is not a port set's *)
Lemma wf_right_destroy s P L o b req check_guard guard Q :
  hold s P L o b req T0 -> IE_BITS_TYPE b <> MACH_PORT_TYPE_PORT_SET -> destroy_pre P o b check_guard guard ->
  (forall s', kwf s' T0 -> lost a i s0 s' -> entry_is s' a i IO_NULL (MACH_PORT_GEN name) ->
    (forall p, P !! o = Some p -> has b MACH_PORT_TYPE_RECEIVE = true -> port_gone s0 L p o s') -> Q KERN_SUCCESS s') ->
  wp (ipc_right_destroy a name i check_guard guard) s Q.
Proof using Hname Hword HT0.
  intros Hh Hps Hpre HQ. pose proof (proj1 HT0) as HT1. pose proof Hh as [HF Hok].
  unfold ipc_right_destroy. apply wp_bind. eapply wf_ie_get; [done|done|]. intros ix. cbn [ie_bits ie_object ie_request].
  assert (Hg : IE_BITS_GEN (clr b IE_BITS_TYPE_MASK) = MACH_PORT_GEN name).
  { rewrite <- (holding_gen _ _ _ _ _ _ _ _ _ _ _ Hh). by apply clr_gen_disjoint. }
  apply wp_bind. eapply wf_ie_mod; [done|exact HF|entry_fields|done|exact Hg|]. intros s1 HF1.
  apply wp_bind. eapply wf_is_get; [exact HF1|]. intros sp _ [Hw _]. wp_step. wp_step; [by apply Hw|].
  rewrite (proj2 (Z.eqb_neq _ _) Hps), (is_port_type_has _ _ _ Hok).
  destruct (Z.eqb_spec (IE_BITS_TYPE b) MACH_PORT_TYPE_DEAD_NAME) as [Hd|Hd].
  - assert (Ho : o = IO_NULL /\ req = IE_REQ_NONE) by (by_kind Hok). destruct Ho as [-> ->].
    rewrite Hd in HF1. wp_step. wp_step; [done|]. wp_step. wp_step; [done|].
    apply wp_bind. eapply wf_entry_dealloc; [done|exact HF1|]. intros s2 HF2. wp_step.
    apply HQ; [| | |].
    + eapply kwf_proper; [done| |by eapply fc_closed]. same_hand.
    + apply lost_framed. by eapply fc_frame.
    + destruct (fc_space _ _ _ _ _ _ _ _ _ HF2) as (sp' & Hsp & _ & He). by exists sp'.
    + intros p _ Hb. by by_kind Hok.
  - assert (Hpr : has b MACH_PORT_TYPE_PORT_RIGHTS = true) by (by_kind Hok). rewrite Hpr.
    destruct (entry_ok_port _ _ _ Hok Hpr) as (Hon & _).
    destruct (holding_port _ _ _ _ _ _ _ _ _ _ _ HT1 Hh Hpr) as [p Ho].
    pose proof (fun Hb => holding_receive _ _ _ _ Hname _ _ _ _ _ _ _ p HT1 Hh Hb Ho) as Hrc.
    wp_step. wp_step; [by destruct (Z.eqb_spec o IP_NULL)|].
    apply wp_bind. eapply (wp_mono _ _ (fun _ s2 => foc s2 P L (Open (o, clr b IE_BITS_TYPE_MASK, req) false) (T0 ⊕ type_rights a name o (IE_BITS_TYPE b) req))).
    2:{ apply wp_mwhen; intros Hs; rewrite Hs in HF1; [|exact HF1]. eapply wf_hash_delete; [done|exact HF1|done]. }
    cbv beta. intros [] s2 HF2. apply wp_bind. eapply wf_ip_get; [done|done|].
    rewrite has_IE_BITS_TYPE by done. destruct (ip_active p) eqn:Ha; cbn [negb].
    + assert (Hgd : has b MACH_PORT_TYPE_RECEIVE && check_guard && ip_guarded p && negb (guard =? ip_context p) = false).
      { apply not_true_is_false. rewrite !andb_true_iff, negb_true_iff, Z.eqb_neq. intros (((H1 & H2) & H3) & H4).
          apply H4. by apply (dp_guard _ _ _ _ _ Hpre). }
      rewrite Hgd. eapply wf_destroy_live; [done|done|done|done|done| |exact Hpre|].
      * intros Hb. by apply Hrc.
      * intros s3 HK Hlo He Hgn. apply HQ; [done..|]. intros q Hq. by simplify_eq.
    + destruct (has b MACH_PORT_TYPE_RECEIVE) eqn:Hb; [by destruct (Hrc eq_refl); congruence|].
      wp_step. wp_step; [done|]. eapply wf_destroy_buried; [done..|]. intros s3 HK Hlo He. apply HQ; [done..|]. done.
Qed.
End receive.

(** ** Destructing a port *)

Section destruct.
Context {env : ipc_env} (s0 : kstate) (a i name : Z) (Hname : MACH_PORT_INDEX name = i)
  (Hword : 0 <= name < 2 ^ 32) (T0 : right -> Z) (HT0 : hand_ok T0).
Local Abbreviation hold := (holding s0 a i name).

(** The send rights given up with the receive right *)
Lemma wf_destruct_send s P L o b req p srdelta Q :
  hold s P L o b req T0 -> has b MACH_PORT_TYPE_RECEIVE = true -> P !! o = Some p ->
  (srdelta <> 0 -> has b MACH_PORT_TYPE_SEND = true) -> - 2 ^ 31 <= srdelta <= 0 -> 0 <= IE_BITS_UREFS b + srdelta ->
  (forall s' P' p' b' ns, hold s' P' L o b' req (T0 ⊕ sonce_rights ns.1) -> P' !! o = Some p' -> alike p p' ->
    ip_references p' = ip_references p -> ip_requests p' = ip_requests p ->
    entry_after o b false (IE_BITS_UREFS b + srdelta) o b' -> Q ns s') ->
  wp (if negb (srdelta =? 0) then
        if u32 (IE_BITS_UREFS b + srdelta) =? 0 then
          ns ← drop_sright o;
          _ ← massert (IE_BITS_TYPE b =? MACH_PORT_TYPE_SEND_RECEIVE);
          _ ← ie_mod a i (set_ie_bits (clr b (Z.lor IE_BITS_UREFS_MASK MACH_PORT_TYPE_SEND)));
          mret ns
        else
          _ ← ie_mod a i (set_ie_bits (u32 (b + srdelta)));
          mret (IP_NULL, 0)
      else mret (IP_NULL, 0)) s Q.
Proof using Hname Hword HT0.
  intros Hh Hb Ho Hsd Hd Hu HQ. pose proof (proj1 HT0) as HT1. pose proof Hh as [HF Hok].
  pose proof (holding_gen _ _ _ _ _ _ _ _ _ _ _ Hh) as Hg.
  assert (Hpr : has b MACH_PORT_TYPE_PORT_RIGHTS = true) by (by_kind Hok).
  destruct (entry_ok_port _ _ _ Hok Hpr) as (Hon & Hreq & Hur & _).
  destruct (holding_receive _ _ _ _ Hname _ _ _ _ _ _ _ p HT1 Hh Hb Ho) as (Ha & _).
  destruct (Z.eqb_spec srdelta 0) as [->|Hd0]; cbn [negb].
  { wp_step. apply (HQ s P p b); [|done|by split_and!|done|done|].
    - split; [|done]. eapply fc_ext; [exact HF|]. same_hand.
    - rewrite Z.add_0_r. unfold entry_after. rewrite Hpr. split_and!; [done|done| |done]. by by_kind Hok; case_match; try lia. }
  assert (Ht : IE_BITS_TYPE b = MACH_PORT_TYPE_SEND_RECEIVE) by (specialize (Hsd Hd0); by_kind Hok).
  rewrite u32_range by (unfold MACH_PORT_UREFS_MAX in *; lia).
  destruct (Z.eqb_spec (IE_BITS_UREFS b + srdelta) 0) as [H0|H0].
  - pose proof (holding_srights _ _ _ _ _ _ _ _ _ _ _ p HT1 Hh (Hsd Hd0) Ho) as Hs.
    destruct (receive_bits b Ht) as (Hbt & Hbu & Hbg). set (b' := clr b _) in *. rewrite Ht in HF.
    apply wp_bind. eapply wf_drop_sright; [exact HF|exact Ho|exact Ha|exact Hs|]. intros s1 HF1.
    wp_step. wp_step; [by rewrite Ht|]. apply wp_bind. eapply wf_ie_mod; [done|exact HF1|entry_fields|done|by rewrite Hbg|].
    intros s2 HF2. wp_step. apply (HQ s2 (<[o := (drop_send p).1]> P) (drop_send p).1 b'); [|apply lookup_insert_eq| | | |].
    + split; [rewrite Hbt|unfold entry_ok; rewrite Hbt, Hbu; by constructor]. eapply fc_ext; [exact HF2|]. same_hand.
    + unfold drop_send. repeat case_match; by split_and!.
    + unfold drop_send. by repeat case_match.
    + unfold drop_send. by repeat case_match.
    + rewrite H0. unfold entry_after. rewrite (has_type b') by done. by rewrite Hbt, Hbu, Hbg, Ht.
  - destruct (new_urefs_u32 b srdelta) as (Hbt & Hbu & Hbg); [unfold MACH_PORT_UREFS_MAX in *; lia|].
    set (b' := u32 (b + srdelta)) in *. apply wp_bind. eapply wf_ie_mod; [done|exact HF|entry_fields|done|by rewrite Hbg|].
    intros s1 HF1. wp_step. apply (HQ s1 P p b'); [|done|by split_and!|done|done|].
    + split; [rewrite Hbt|unfold entry_ok; rewrite Hbt, Hbu, Ht; constructor; unfold MACH_PORT_UREFS_MAX in *; lia].
      eapply fc_ext; [exact HF1|]. same_hand.
    + apply new_urefs_after; [done|lia|by left].
Qed.

(** What [ipc_right_destruct] does to a name *)
Definition destructed (P : gmap Z ipc_port) (L : list event) (o b req srdelta guard : Z) (kr : kern_return_t) (s' : kstate) (o' b' : Z) : Prop :=
  let unchanged := o' = o /\ b' = b in
  if negb (has b MACH_PORT_TYPE_RECEIVE) || (negb (srdelta =? 0) && negb (has b MACH_PORT_TYPE_SEND))
  then kr = KERN_INVALID_RIGHT /\ unchanged else
  if 0 <? srdelta then kr = KERN_INVALID_VALUE /\ unchanged else
  exists p, P !! o = Some p /\
    if ip_guarded p && negb (guard =? ip_context p) then kr = KERN_INVALID_ARGUMENT /\ unchanged
    else if IE_BITS_UREFS b + srdelta <? 0 then kr = KERN_INVALID_VALUE /\ unchanged
    else kr = KERN_SUCCESS /\ port_gone s0 L p o s' /\
      exists b1 request, entry_after o b false (IE_BITS_UREFS b + srdelta) o b1 /\ lost_entry name p o b1 req request o' b'.

Lemma wf_right_destruct s P L o b req srdelta guard Q :
  hold s P L o b req T0 -> destroyable s0 P o b -> - 2 ^ 31 <= srdelta < 2 ^ 31 ->
  (forall kr s' o' b', kwf s' T0 -> lost a i s0 s' -> entry_is s' a i o' b' ->
    destructed P L o b req srdelta guard kr s' o' b' -> Q kr s') ->
  wp (ipc_right_destruct a name i srdelta guard) s Q.
Proof using Hname Hword HT0.
  intros Hh Hds Hsr HQ. pose proof (proj1 HT0) as HT1. pose proof Hh as [HF Hok].
  destruct (wf_as_was s0 a i name Hname Hword T0 _ _ _ _ _ _ Hh) as (HK & Hlo & He).
  unfold ipc_right_destruct, destructed in *. apply wp_bind. eapply wf_ie_get; [done|done|]. intros ix. cbn [ie_bits ie_object].
  apply wp_bind. eapply wf_is_get; [exact HF|]. intros sp _ [Hw _]. wp_step. wp_step; [by apply Hw|].
  destruct (negb (has b MACH_PORT_TYPE_RECEIVE) || _) eqn:Hb; [wp_step; by eapply HQ|].
  apply orb_false_iff in Hb as [Hb Hsd]. apply negb_false_iff in Hb.
  destruct (Z.ltb_spec 0 srdelta) as [Hps|Hps]; [wp_step; by eapply HQ|].
  assert (Hpr : has b MACH_PORT_TYPE_PORT_RIGHTS = true) by (clear Hsd; by_kind Hok).
  destruct (entry_ok_port _ _ _ Hok Hpr) as (Hon & _ & Hur & _).
  destruct (holding_port _ _ _ _ _ _ _ _ _ _ _ HT1 Hh Hpr) as [p Ho]. destruct (Hds Hb p Ho) as [Hf Hrm].
  destruct (holding_receive _ _ _ _ Hname _ _ _ _ _ _ _ p HT1 Hh Hb Ho) as (Ha & Hr & Hn & Hn0).
  wp_step. wp_step; [by destruct (Z.eqb_spec o IP_NULL)|]. apply wp_bind. eapply wf_ip_get; [done|done|].
  wp_step. wp_step; [done|]. wp_step. wp_step; [by apply Z.eqb_eq|]. wp_step. wp_step; [by apply Z.eqb_eq|].
  destruct (ip_guarded p && _) eqn:Hgd.
  { apply wp_bind. eapply (dk_log s Rest T0).
    { eapply dk_ext; [by apply dk_kwf|]. intros r. unfold plus. simpl. lia. }
    intros s1 HD1 Hs1 _ _. wp_step. eapply HQ; [by apply dk_kwf|by eapply lost_stays| |exists p; by rewrite Hgd].
    eapply entry_is_spaces; [exact He|]. destruct Hs1 as ([] & _). done. }
  assert (Hsend : srdelta <> 0 -> has b MACH_PORT_TYPE_SEND = true).
  { intros Hd. rewrite (proj2 (Z.eqb_neq _ _) Hd) in Hsd. by apply negb_false_iff. }
  apply wp_bind. apply (wp_mono _ _ (fun _ s' => s' = s)); [|apply wp_mwhen; [|done]].
  2:{ intros Hd. apply wp_massert; [|done]. apply Z.ltb_lt. eapply holding_srights; [done|done|apply Hsend|done].
      by destruct (Z.eqb_spec srdelta 0). }
  intros [] ? ->. rewrite urefs_underflow by (unfold MACH_PORT_UREFS_MAX in *; lia).
  destruct (negb (srdelta =? 0) && (IE_BITS_UREFS b + srdelta <? 0)) eqn:Huf.
  { apply andb_true_iff in Huf as [_ Huf]. wp_step. eapply HQ; [done..|]. exists p. by rewrite Hgd, Huf. }
  assert (Hge : 0 <= IE_BITS_UREFS b + srdelta).
  { apply andb_false_iff in Huf as [Hz|Hz]; [apply negb_false_iff, Z.eqb_eq in Hz|apply Z.ltb_ge in Hz]; lia. }
  apply wp_bind. eapply wf_destruct_send; [exact Hh|done|exact Ho|done|lia|done|].
  intros s1 P1 p1 b1 ns Hh1 Ho1 Hal Hrf Hrq Hea. pose proof Hal as (E1 & E2 & E3 & _ & _ & E6 & E7).
  assert (Hb1 : has b1 MACH_PORT_TYPE_RECEIVE = true).
  { pose proof Hea as (_ & _ & Hty & _). rewrite has_type, Hty by done. by_kind Hok; by case_match. }
  assert (HTn : hand_ok (T0 ⊕ sonce_rights ns.1)) by (apply hand_ok_plus; [done|apply backed_sonce]).
  assert (Ha1 : ip_active p1 = true) by (unfold ip_active in *; by rewrite E1).
  apply wp_bind. eapply (wf_lose_receive s0 a i name Hname Hword _ HTn s1 P1 L o b1 req p1 Hh1 Ho1); [|done|done|by rewrite E6, Hrf].
  intros s2 P2 p2 o' b' request l HF2 Ho2 Hal2 Hmo Hl0 Hle. pose proof Hal2 as (G1 & G2 & G3 & _ & _ & G6 & G7).
  apply wp_bind. eapply wf_send_no_senders; [exact HF2|]. intros s3 HF3.
  eapply (wf_gone s0 a i name T0 HT0 s3 P2 _ o p2 o' b' request l); [|done| |congruence|congruence|done| |done|by rewrite G6|].
  - eapply fc_ext; [exact HF3|]. same_hand.
  - unfold ip_active in *. by rewrite G1.
  - do 2 (eapply fatal_alike; [done|]). done.
  - intros s4 HK4 Hlo4 He4 Hg4. eapply HQ; [done..|]. exists p. rewrite Hgd, (proj2 (Z.ltb_ge _ _) Hge).
    apply gone_earlier in Hg4.
    split_and!; [done|done|eapply gone_alike; [eapply gone_alike; [exact Hg4|done..]|done..]|]. exists b1, request. split; [done|].
    unfold lost_entry, request_of, slot_request in *. by rewrite <- Hrq, <- E6.
Qed.
End destruct.

(** ** A guard in the way *)

(** A name whose entry has lost its type but not its object: the space is out of shape. *)
Lemma untyped_entry {env : ipc_env} s0 a i name s P L o b req lk T T' :
  focus s0 a i name s P L (Open (o, b, req) lk) T -> IE_BITS_TYPE b = MACH_PORT_TYPE_NONE -> o <> IO_NULL -> ~ kwf s T'.
Proof.
  intros HF Ht Ho [_ _ HS]. pose proof (fc_space _ _ _ _ _ _ _ _ _ HF) as (sp & Hsp & Hw & _).
  destruct (HS a sp Hsp (aw_active _ _ _ _ Hw)) as ((H & l & HI) & _). destruct (at_work_range _ _ _ _ Hw) as [Hi Hsz].
  pose proof (aw_core _ _ _ _ Hw) as Hc. unfold core in Hc. injection Hc as Eo Eb _.
  assert (Hin : i ∈ l) by (apply (si_all _ _ _ _ HI); [lia|set_solver|by rewrite Eb]).
  destruct (si_free _ _ _ _ HI i Hin) as (_ & _ & _ & Hn). congruence.
Qed.

Lemma wf_destroy_guarded {env : ipc_env} s0 a i name T s P L o b req p guard Q :
  MACH_PORT_INDEX name = i -> (forall r, 0 <= T r) -> holding s0 a i name s P L o b req T -> has b MACH_PORT_TYPE_RECEIVE = true ->
  P !! o = Some p -> ip_guarded p = true -> guard <> ip_context p ->
  (forall s', entry_is s' a i o (clr b IE_BITS_TYPE_MASK) -> (forall T', ~ kwf s' T') -> Q KERN_INVALID_RIGHT s') ->
  wp (ipc_right_destroy a name i true guard) s Q.
Proof.
  intros Hname HT Hh Hb Ho Hgd Hne HQ. pose proof Hh as [HF Hok].
  assert (Hty : has b MACH_PORT_TYPE_PORT_RIGHTS = true /\ (IE_BITS_TYPE b =? MACH_PORT_TYPE_DEAD_NAME) = false /\
    (IE_BITS_TYPE b =? MACH_PORT_TYPE_PORT_SET) = false /\ (IE_BITS_TYPE b =? MACH_PORT_TYPE_SEND) = false) by (by_kind Hok).
  destruct Hty as (Hpr & Hd & Hps & Hs). destruct (entry_ok_port _ _ _ Hok Hpr) as (Hon & _).
  destruct (holding_receive _ _ _ _ Hname _ _ _ _ _ _ _ p HT Hh Hb Ho) as (Ha & _).
  unfold ipc_right_destroy. apply wp_bind. eapply wf_ie_get; [done|done|]. intros ix. cbn [ie_bits ie_object ie_request].
  apply wp_bind. eapply wf_ie_mod; [done|exact HF|entry_fields|done| |].
  { rewrite <- (holding_gen _ _ _ _ _ _ _ _ _ _ _ Hh). by apply clr_gen_disjoint. }
  intros s1 HF1. apply wp_bind. eapply wf_is_get; [exact HF1|]. intros sp _ [Hw _]. wp_step. wp_step; [by apply Hw|].
  rewrite Hd, Hps, (is_port_type_has _ _ _ Hok), Hpr. wp_step. wp_step; [by destruct (Z.eqb_spec o IP_NULL)|].
  rewrite Hs. cbn [mwhen]. wp_step. apply wp_bind. eapply wf_ip_get; [exact HF1|done|].
  rewrite Ha, has_IE_BITS_TYPE, Hb, Hgd, (proj2 (Z.eqb_neq _ _) Hne) by done. cbn [negb andb].
  apply wp_bind. eapply wf_log; [exact HF1|]. intros s2 HF2. wp_step. apply HQ.
  - destruct (fc_space _ _ _ _ _ _ _ _ _ HF2) as (sp' & Hsp & Hw' & _). exists sp'. split; [done|].
    pose proof (aw_core _ _ _ _ Hw') as Hc. unfold core in Hc. by injection Hc.
  - intros T'. eapply untyped_entry; [exact HF2| |done]. rewrite IE_BITS_TYPE_clr. apply clr_type_all.
Qed.

(** ** Theorems *)

(** C17 Giving up a name: in every balanced state, for any name but a port set's, if no guard
    is in the way ([destroy_pre]; a temporary owner's port needs a thread that drops no
    assertions, a port to go in limbo an importance field not used otherwise),
    [ipc_right_destroy] runs to its end; the name is free, the state is balanced, and no other
    name of any space has changed.  If the name stood for the receive right and nobody asked
    to get it, the port is dead and the messages in its queue are gone; if somebody did, the
    port is alive in limbo with its messages, and its receive right is sent to them. *)
Theorem ipc_right_destroy_correct {env : ipc_env} s a name T o b req check_guard guard :
  kwf s T -> hand_ok T -> named s a name (o, b, req) -> IE_BITS_TYPE b <> MACH_PORT_TYPE_PORT_SET ->
  destroy_pre s a T (ks_ports s) o b check_guard guard ->
  wp (ipc_right_destroy a name (MACH_PORT_INDEX name) check_guard guard) s (fun kr s' =>
    kr = KERN_SUCCESS /\ kwf s' T /\ lost a (MACH_PORT_INDEX name) s s' /\
    entry_is s' a (MACH_PORT_INDEX name) IO_NULL (MACH_PORT_GEN name) /\
    (forall p, ks_ports s !! o = Some p -> has b MACH_PORT_TYPE_RECEIVE = true -> port_gone s (ks_log s) p o s')).
Proof.
  intros HK HT Hn Hps Hpre. eapply wf_right_destroy; [done|apply Hn|done|by apply holding_start|done|done|]. auto.
Qed.

(** C18 Giving up the receive right of a port, with [- srdelta] send rights of the same name:
    [ipc_right_destruct] refuses a name without the rights, a bad count or a wrong guard, and
    every name is as it was then.  Otherwise, if nobody asked to get the receive right,
    the port is dead with its messages gone, and the name is free, or a dead name with the
    user references that remain and one more if the entry had a request.  If somebody did, the
    port is alive in limbo, its receive right is sent to them, and the name is free or keeps
    the send rights that remain.  The port is [destroyable] if the name has its receive right:
    as in [destroy_pre], and a port to go in limbo can take one more reference. *)
Theorem ipc_right_destruct_correct {env : ipc_env} s a name T o b req srdelta guard :
  kwf s T -> hand_ok T -> named s a name (o, b, req) -> destroyable s (ks_ports s) o b -> - 2 ^ 31 <= srdelta < 2 ^ 31 ->
  wp (ipc_right_destruct a name (MACH_PORT_INDEX name) srdelta guard) s (fun kr s' =>
    kwf s' T /\ lost a (MACH_PORT_INDEX name) s s' /\
    exists o' b', entry_is s' a (MACH_PORT_INDEX name) o' b' /\
      destructed s name (ks_ports s) (ks_log s) o b req srdelta guard kr s' o' b').
Proof.
  intros HK HT Hn Hds Hsr. eapply wf_right_destruct; [done|apply Hn|done|by apply holding_start|done|done|]. eauto 10.
Qed.

(** ** Witnesses *)
Module ReceiveExample.
Import Sample.

Definition port1 : ipc_port := sample_port true 2 0x1000 0x104 None 1 1.
Lemma port1_at : ks_ports sample !! 0x100 = Some port1.
Proof. by vm_compute. Qed.

Lemma port1_fatal : destroyable sample (ks_ports sample) 0x100 0x04030001.
Proof. intros _ p. rewrite port1_at. intros [= <-]. done. Qed.

Lemma named1 : named sample 0x1000 0x104 (0x100, 0x04030001, 0).
Proof. split; [done|]. exists space1. by vm_compute. Qed.

Lemma port1_pre : destroy_pre sample 0x1000 (hand []) (ks_ports sample) 0x100 0x04030001 true 0.
Proof. split; [|intros p; rewrite port1_at; by intros [= <-]|done|]; intros p; rewrite port1_at; by intros [= <-]. Qed.

Lemma ipc_right_destroy_witness :
  exists s', ipc_right_destroy 0x1000 0x104 1 true 0 sample = Ok (KERN_SUCCESS, s') /\
    port_gone sample [] port1 0x100 s' /\ entry_is s' 0x1000 1 IO_NULL (MACH_PORT_GEN 0x104).
Proof.
  destruct (wp_inv _ _ _ (ipc_right_destroy_correct sample 0x1000 0x104 (hand []) 0x100 0x04030001 0 true 0
    sample_kwf empty_hand named1 ltac:(done) port1_pre)) as (kr & s' & Hrun & -> & _ & _ & He & Hg).
  exists s'. split_and!; [exact Hrun|by apply Hg; [apply port1_at|]|exact He].
Defined.

Lemma ipc_right_destruct_witness :
  exists kr s', ipc_right_destruct 0x1000 0x104 1 (-1) 0 sample = Ok (kr, s') /\ kr = KERN_SUCCESS /\ port_gone sample [] port1 0x100 s'.
Proof.
  destruct (wp_inv _ _ _ (ipc_right_destruct_correct sample 0x1000 0x104 (hand []) 0x100 0x04030001 0 (-1) 0
    sample_kwf empty_hand named1 port1_fatal ltac:(lia))) as (kr & s' & Hrun & _ & _ & o' & b' & _ & Hd).
  exists kr, s'. split; [exact Hrun|]. unfold destructed in Hd. cbn [negb orb andb] in Hd. change (0 <? -1) with false in Hd.
  destruct Hd as (p & Hp & Hd). rewrite port1_at in Hp. injection Hp as <-. destruct Hd as (-> & Hg & _). split; [reflexivity|exact Hg].
Defined.
End ReceiveExample.
