(* ===== verification/IpcCopyoutOk.v ===== *)
(** * Copying rights out (ipc_right.c, ipc_object.c)

    [ipc_object_copyout] gives a right to a space, under a name: the name of the entry that
    has a right to the port already, or a new one.  Where the right goes, what it does to the
    entry, and that the kernel stays balanced: what the caller had in hand is in the entry
    afterwards, or still in hand when the call is refused. *)

From S2P Require Import IpcTypes IpcBits IpcTable IpcHash IpcEntry IpcGrow IpcState IpcLedger IpcPort IpcRequest IpcDestroy IpcRight IpcObject IpcFocus IpcSample IpcRightOk IpcDeltaOk IpcPortOk IpcCopyOk IpcAllocOk.

Lemma cnt_slot_none r o name : cnt r (slot_held o IE_REQ_NONE name) = 0.
Proof. done. Qed.

Section copyout.
Context {env : ipc_env} (s0 : kstate) (a i name : Z) (Hname : MACH_PORT_INDEX name = i)
  (Hword : 0 <= name < 2 ^ 32) (T0 : right -> Z) (HT0 : hand_ok T0).
Local Abbreviation foc := (focus s0 a i name).
Local Abbreviation hold := (holding s0 a i name).

(** *** Send-once rights *)

Lemma wf_copyout_send_once s P L o b p Q :
  foc s P L (Open (o, b, IE_REQ_NONE) false) (T0 ⊕ [RRef o; RSonce o]) ->
  IE_BITS_TYPE b = MACH_PORT_TYPE_NONE -> IE_BITS_UREFS b = 0 -> P !! o = Some p ->
  (forall s' b', IE_BITS_TYPE b' = MACH_PORT_TYPE_SEND_ONCE -> IE_BITS_UREFS b' = 1 ->
    foc s' P L (Shut o b') T0 -> Q KERN_SUCCESS s') ->
  wp (copyout_send_once a name i o) s Q.
Proof.
  intros HF Ht Hu Ho HQ. pose proof (fc_gen _ _ _ _ _ _ _ _ _ _ _ _ HF) as Hg.
  pose proof (po_valid _ _ (fc_port_ok _ _ _ _ _ _ _ _ _ HF o p Ho)) as Hv.
  set (b1 := Z.lor b (Z.lor MACH_PORT_TYPE_SEND_ONCE 1)).
  assert (Hb1 : IE_BITS_TYPE b1 = MACH_PORT_TYPE_SEND_ONCE /\ IE_BITS_UREFS b1 = 1 /\ IE_BITS_GEN b1 = IE_BITS_GEN b)
    by (unfold b1; bits_norm; rewrite Ht, Hu; split_and!; [done|done|bits_const; done]).
  destruct Hb1 as (Ht1 & Hu1 & Hg1).
  unfold copyout_send_once. apply wp_bind. eapply wf_ie_get; [done|exact HF|]. intros ix. cbn [ie_bits].
  wp_step. wp_step; [by rewrite Ht|]. apply wp_bind. eapply wf_ip_get; [exact HF|done|].
  wp_step. wp_step.
  { pose proof (fc_count_ge _ _ _ _ _ _ _ _ _ HF o p (RSonce o) Ho eq_refl) as Hc. revert Hc. cbn [port_count].
    pose proof (proj1 HT0 (RSonce o)). unfold plus. cbn [cnt]. hand_at. intros. apply Z.ltb_lt. lia. }
  apply wp_bind. eapply wf_ie_mod; [done|exact HF|entry_fields|done|by fold b1; rewrite Hg1|]. fold b1. intros s1 HF1.
  apply wp_bind. eapply wf_entry_modified; [done|exact HF1|]. intros s2 HF2. wp_step. apply (HQ s2 b1); [done|done|].
  eapply fc_put_back; [done|done|rewrite Ht1; exact HF2|..].
  - unfold entry_ok. rewrite Ht1, Hu1. constructor; [by intros ->|done].
  - intros r. rewrite Ht1. rights_of_type. rewrite cnt_slot_none. unfold plus. cbn [cnt]. lia.
Qed.

(** *** Send rights *)

Lemma add_send_bits b :
  let b' := Z.lor b MACH_PORT_TYPE_SEND + 1 in
  IE_BITS_UREFS b + 1 < 2 ^ 16 -> 0 <= IE_BITS_UREFS b ->
  IE_BITS_TYPE b' = Z.lor (IE_BITS_TYPE b) MACH_PORT_TYPE_SEND /\ IE_BITS_UREFS b' = IE_BITS_UREFS b + 1 /\
  IE_BITS_GEN b' = IE_BITS_GEN b.
Proof.
  intros b' Hu H0. unfold b'.
  assert (Hl : IE_BITS_UREFS (Z.lor b MACH_PORT_TYPE_SEND) = IE_BITS_UREFS b) by (bits_norm; by bits_const).
  destruct (bits_urefs (Z.lor b MACH_PORT_TYPE_SEND) 1) as (H1 & H2 & H3); [rewrite Hl; lia|].
  rewrite H1, H2, H3, Hl. bits_norm. by bits_const.
Qed.

(** One send right less *)
Lemma wf_less_send s P L ev T o p Q :
  foc s P L ev T -> P !! o = Some p -> 0 < ip_srights p ->
  (forall s', foc s' (<[o := set_ip_srights (ip_srights p - 1) p]> P) L ev (T ⊖ [RSend o]) -> Q tt s') ->
  wp (ip_mod o (set_ip_srights (ip_srights p - 1))) s Q.
Proof.
  intros HF Ho Hs HQ. pose proof (fc_port_ok _ _ _ _ _ _ _ _ _ HF o p Ho) as Hok.
  apply (wf_ip_counts s0 a i name s P L ev T o p _ (T ⊖ [RSend o])); try done; try apply Hok; simpl; try lia.
  intros r. unfold minus. simpl. lia.
Qed.

(** What copying out a send right does to the entry: one user reference more, unless that
    would be too many; then it depends on [overflow] what happens. *)
Definition send_copied_out (overflow : bool) (b : Z) (kr : kern_return_t) (b' : Z) : Prop :=
  if has b MACH_PORT_TYPE_SEND && (IE_BITS_UREFS b + 1 =? MACH_PORT_UREFS_MAX)
  then b' = b /\ kr = if overflow then KERN_SUCCESS else KERN_UREFS_OVERFLOW
  else kr = KERN_SUCCESS /\ IE_BITS_TYPE b' = Z.lor (IE_BITS_TYPE b) MACH_PORT_TYPE_SEND /\
       IE_BITS_UREFS b' = IE_BITS_UREFS b + 1 /\ IE_BITS_GEN b' = IE_BITS_GEN b.

(** What is still in hand after the call *)
Definition left_over (kr : kern_return_t) (l : list right) : list right :=
  when (negb (bool_decide (kr = KERN_SUCCESS))) l.

Lemma left_over_ok l : left_over KERN_SUCCESS l = [].
Proof. done. Qed.

(** The space has a send right already: the new one is given up. *)
Lemma wf_merge_send s P L o b req p R :
  hold s P L o b req (T0 ⊕ [RRef o; RSend o]) -> has b MACH_PORT_TYPE_SEND = true -> P !! o = Some p ->
  (forall s' P', hold s' P' L o b req T0 -> R s') ->
  1 < ip_srights p /\
  wp (ip_mod o (set_ip_srights (ip_srights p - 1))) s (fun _ s1 => wp (io_release o) s1 (fun _ => R)).
Proof.
  intros [HF Hok] Hb Ho HR. pose proof (live_and_ref T0 o HT0) as Hl. pose proof (proj1 HT0 (RSend o)) as Hs0.
  assert (Hs : 1 < ip_srights p).
  { pose proof (fc_count_ge _ _ _ _ _ _ _ _ _ HF o p (RSend o) Ho eq_refl) as Hc. revert Hc. cbn [port_count].
    unfold plus. cbn [cnt]. by_kind Hok; rights_of_type; hand_at; lia. }
  split; [done|]. eapply wf_less_send; [exact HF|done|lia|]. intros s1 HF1.
  eapply wf_release; [exact HF1|apply lookup_insert_eq| |].
  - unfold plus, minus. cbn [cnt]. by_kind Hok; rights_of_type; hand_at; lia.
  - intros s2 P2 HF2 _. eapply HR. split; [|done]. eapply fc_ext; [exact HF2|same_hand].
Qed.

Lemma wf_copyout_send_more s P L o b req p overflow Q :
  hold s P L o b req (T0 ⊕ [RRef o; RSend o]) -> has b MACH_PORT_TYPE_SEND = true -> P !! o = Some p ->
  (forall kr s' P' b', send_copied_out overflow b kr b' ->
    foc s' P' L (Shut o b') (T0 ⊕ left_over kr [RRef o; RSend o]) -> Q kr s') ->
  wp (copyout_send a name i overflow o) s Q.
Proof.
  intros Hh Hb Ho HQ. pose proof Hh as [HF Hok]. pose proof (holding_gen _ _ _ _ _ _ _ _ _ _ _ Hh) as Hg.
  assert (Hu : 0 < IE_BITS_UREFS b < MACH_PORT_UREFS_MAX) by (by_kind Hok).
  destruct (add_send_bits b) as (Ht1 & Hu1 & Hg1); [unfold MACH_PORT_UREFS_MAX in Hu; lia|lia|].
  destruct (wf_merge_send s P L o b req p (fun _ => True) Hh Hb Ho) as [Hs _]; [done|].
  unfold copyout_send, send_copied_out in *. apply wp_bind. eapply wf_ie_get; [done|exact HF|]. intros ix. cbn [ie_bits].
  apply wp_bind. eapply wf_ip_get; [exact HF|done|]. wp_step. wp_step; [apply Z.ltb_lt; lia|].
  rewrite Hb in *. cbn [andb] in *. destruct (Z.eqb_spec (IE_BITS_UREFS b + 1) MACH_PORT_UREFS_MAX) as [Hm|Hm].
  - wp_step. wp_step; [apply Z.ltb_lt; lia|]. wp_step. wp_step; [apply Z.ltb_lt; lia|]. wp_step. wp_step; [apply Z.ltb_lt; lia|].
    destruct overflow.
    + apply wp_bind. eapply wp_mono; [|apply (wf_merge_send s P L o b req p (fun s' => wp (mret KERN_SUCCESS) s' Q) Hh Hb Ho)].
      * intros [] s1 H1. by apply wp_bind.
      * intros s2 P2 Hh2. wp_step. eapply (HQ _ s2 P2 b); [done|].
        eapply fc_ext; [eapply hold_shut; [done..|exact Hh2]|]. rewrite left_over_ok. intros r. unfold plus. cbn [cnt]. lia.
    + wp_step. eapply (HQ _ s P b); [done|]. eapply hold_shut; [done..|exact Hh].
  - apply wp_bind. wp_step. wp_step; [apply Z.ltb_lt; lia|]. wp_step. wp_step; [apply Z.ltb_lt; lia|].
    wp_step. wp_step; [apply Z.ltb_lt; lia|]. apply wp_bind.
    eapply (wf_merge_send s P L o b req p _ Hh Hb Ho). intros s2 P2 [HF2 _].
    apply wp_bind. eapply wf_ie_mod; [done|exact HF2|entry_fields|done|by rewrite Hg1|]. intros s3 HF3.
    apply wp_bind. eapply wf_entry_modified; [done|exact HF3|]. intros s4 HF4. wp_step.
    eapply (HQ _ s4 P2); [done|]. set (b' := Z.lor b MACH_PORT_TYPE_SEND + 1) in *.
    assert (Ht' : IE_BITS_TYPE b' = IE_BITS_TYPE b) by (rewrite Ht1; by_kind Hok).
    eapply fc_put_back; [done|done|rewrite Ht'; exact HF4|..].
    + unfold entry_ok. rewrite Ht', Hu1. by_kind Hok; constructor; (done || lia).
    + rewrite Ht'. rewrite left_over_ok. intros r. unfold plus. cbn [cnt]. lia.
Qed.

(** The space has the receive right: its reference serves both. *)
Lemma wf_copyout_send_receive s P L o b req p overflow Q :
  hold s P L o b req (T0 ⊕ [RRef o; RSend o]) -> IE_BITS_TYPE b = MACH_PORT_TYPE_RECEIVE -> P !! o = Some p ->
  (forall kr s' P' b', send_copied_out overflow b kr b' -> foc s' P' L (Shut o b') (T0 ⊕ left_over kr [RRef o; RSend o]) -> Q kr s') ->
  wp (copyout_send a name i overflow o) s Q.
Proof.
  intros Hh Ht Ho HQ. pose proof Hh as [HF Hok]. pose proof (holding_gen _ _ _ _ _ _ _ _ _ _ _ Hh) as Hg.
  assert (Hu : IE_BITS_UREFS b = 0 /\ o <> IO_NULL /\ 0 <= req) by (by_kind Hok). destruct Hu as (Hu & Hon & Hreq).
  pose proof (live_and_ref T0 o HT0) as Hl. pose proof (proj1 HT0 (RSend o)) as Hs0. rewrite Ht in HF.
  destruct (add_send_bits b) as (Ht1 & Hu1 & Hg1); [lia|lia|]. rewrite Ht, Hu in *.
  change (Z.lor MACH_PORT_TYPE_RECEIVE MACH_PORT_TYPE_SEND) with MACH_PORT_TYPE_SEND_RECEIVE in Ht1.
  assert (Hs : 0 < ip_srights p).
  { pose proof (fc_count_ge _ _ _ _ _ _ _ _ _ HF o p (RSend o) Ho eq_refl) as Hc. revert Hc. cbn [port_count].
    unfold plus. cbn [cnt]. rights_of_type; hand_at; lia. }
  unfold copyout_send, send_copied_out in *. apply wp_bind. eapply wf_ie_get; [done|exact HF|]. intros ix. cbn [ie_bits].
  apply wp_bind. eapply wf_ip_get; [exact HF|done|]. wp_step. wp_step; [apply Z.ltb_lt; lia|].
  revert HQ. by_type Ht. intros HQ. apply wp_bind. wp_step. wp_step; [done|]. wp_step. wp_step; [by rewrite Hu|].
  eapply wf_release; [exact HF|done| |].
  { unfold plus. cbn [cnt]. rights_of_type; hand_at; lia. }
  intros s1 P1 HF1 _. apply wp_bind. eapply wf_ie_mod; [done|exact HF1|entry_fields|done|by rewrite Hg1|]. intros s3 HF3.
  apply wp_bind. eapply wf_entry_modified; [done|exact HF3|]. intros s4 HF4. wp_step.
  set (b' := Z.lor b MACH_PORT_TYPE_SEND + 1) in *.
  eapply (HQ _ s4 P1 b'); [split_and!; [done|done|by rewrite Hu1, ?Hu|done]|].
  eapply fc_put_back; [done|done|rewrite Ht1; exact HF4|..].
  - unfold entry_ok. rewrite Ht1, Hu1. by constructor.
  - rewrite Ht1, left_over_ok. same_hand.
Qed.

(** A new entry *)
Lemma wf_copyout_send_new s P L o b p overflow Q :
  foc s P L (Open (o, b, IE_REQ_NONE) false) (T0 ⊕ [RRef o; RSend o] ⊕ [RName o a]) ->
  IE_BITS_TYPE b = MACH_PORT_TYPE_NONE -> IE_BITS_UREFS b = 0 -> P !! o = Some p ->
  (forall kr s' b', send_copied_out overflow b kr b' -> foc s' P L (Shut o b') (T0 ⊕ left_over kr [RRef o; RSend o]) -> Q kr s') ->
  wp (copyout_send a name i overflow o) s Q.
Proof.
  intros HF Ht Hu Ho HQ. pose proof (fc_gen _ _ _ _ _ _ _ _ _ _ _ _ HF) as Hg.
  pose proof (po_valid _ _ (fc_port_ok _ _ _ _ _ _ _ _ _ HF o p Ho)) as Hv.
  assert (Hon : o <> IO_NULL) by (by intros ->).
  destruct (add_send_bits b) as (Ht1 & Hu1 & Hg1); [lia|lia|]. rewrite Ht, Hu in *.
  change (Z.lor MACH_PORT_TYPE_NONE MACH_PORT_TYPE_SEND) with MACH_PORT_TYPE_SEND in Ht1.
  assert (Hs : 0 < ip_srights p).
  { pose proof (fc_count_ge _ _ _ _ _ _ _ _ _ HF o p (RSend o) Ho eq_refl) as Hc. revert Hc. cbn [port_count].
    pose proof (proj1 HT0 (RSend o)). unfold plus. cbn [cnt]. hand_at; lia. }
  unfold copyout_send, send_copied_out in *. apply wp_bind. eapply wf_ie_get; [done|exact HF|]. intros ix. cbn [ie_bits].
  apply wp_bind. eapply wf_ip_get; [exact HF|done|]. wp_step. wp_step; [by apply Z.ltb_lt|].
  revert HQ. by_type Ht. intros HQ. apply wp_bind. wp_step. wp_step; [done|]. wp_step. wp_step; [by rewrite Hu|].
  eapply wf_hash_insert; [done|exact HF|done|]. intros s1 HF1.
  apply wp_bind. eapply wf_ie_mod; [done|exact HF1|entry_fields|done|by rewrite Hg1|]. intros s3 HF3.
  apply wp_bind. eapply wf_entry_modified; [done|exact HF3|]. intros s4 HF4. wp_step.
  set (b' := Z.lor b MACH_PORT_TYPE_SEND + 1) in *.
  eapply (HQ _ s4 b'); [split_and!; [done|done|by rewrite Hu1, ?Hu|done]|].
  eapply fc_put_back; [done|done|rewrite Ht1; exact HF4|..].
  - unfold entry_ok. rewrite Ht1, Hu1. constructor; [done|unfold MACH_PORT_UREFS_MAX; lia|done].
  - rewrite Ht1, left_over_ok. intros r. rights_of_type. rewrite cnt_slot_none. unfold plus. cbn [cnt]. lia.
Qed.

(** *** Receive rights *)

(** A port with a receiver *)
Definition settled (b n : Z) (p : ipc_port) : ipc_port := set_ip_receiver b (set_ip_receiver_name n p).

Lemma wf_settle s P L ev T o p n b k Q :
  foc s P L ev (T ⊕ home_rights o p) -> hand_ok T -> P !! o = Some p -> ip_active p = true ->
  ip_receiver_name p = MACH_PORT_NULL -> n <> MACH_PORT_NULL ->
  (forall s', foc s' (<[o := settled b n p]> P) L ev (T ⊕ transit_rights p ⊕ [RHome o b n]) -> wp k s' Q) ->
  wp (_ ← ip_mod o (set_ip_receiver_name n); _ ← ip_mod o (set_ip_receiver b); k : K kern_return_t) s Q.
Proof.
  intros HF HT Ho Ha Hn Hn0 HQ. pose proof (fc_port_ok _ _ _ _ _ _ _ _ _ HF o p Ho) as Hok.
  apply (wp_ip_mod_mod o p); [by rewrite (fc_ports _ _ _ _ _ _ _ _ _ HF)|].
  eapply (wf_ip_mod _ _ _ _ _ _ _ _ _ o p _ (T ⊕ transit_rights p ⊕ [RHome o b n]));
    [exact (fc_transit _ _ _ _ _ _ _ _ _ _ _ HF HT Ho Ha)|done| |done| |done].
  - eapply port_ok_change; [done|done|apply Hok|apply Hok|apply Hok|apply Hok|done|by left|done|apply Hok|].
    intros [_ Him]. split; [by intros _ ?|done].
  - intros r. rewrite move_active by done. rewrite slot_move_transit by done. unfold plus, minus. simpl.
    set (p' := set_ip_receiver b (set_ip_receiver_name n p)). assert (Hn' : (ip_receiver_name p' =? MACH_PORT_NULL) = false)
      by (by apply Z.eqb_neq).
    assert (Ht : transit_rights p' = []) by (unfold transit_rights; by rewrite Hn').
    assert (Hc : transit_count p' = 0) by (unfold transit_count; by rewrite Hn', andb_true_r; change (ip_active p') with (ip_active p); rewrite Ha).
    assert (Hh : home_rights o p' = [RHome o b n]) by (unfold home_rights; by rewrite Hn').
    rewrite Ht, Hc, Hh. cbn [cnt]. lia.
Qed.

(** The end of the transit: the destination is let go. *)
Lemma wf_let_go s P L ev dest cntr Q :
  foc s P L ev (T0 ⊕ when (negb (dest =? IP_NULL)) [RRef dest; RPort dest]) -> hand_ok T0 -> 0 <= cntr ->
  (forall s' P', foc s' P' L ev T0 -> Q KERN_SUCCESS s') ->
  wp (_ ← mwhen (negb (dest =? IP_NULL)) (_ ← ipc_port_impcount_delta dest (0 - cntr); io_release dest);
      mret KERN_SUCCESS) s Q.
Proof.
  intros HF0 HT Hc HQ. destruct (Z.eqb_spec dest IP_NULL) as [->|Hn]; cbn [negb mwhen when] in *.
  { apply wp_bind. wp_step. wp_step. apply (HQ s P). eapply fc_ext; [exact HF0|]. intros r. unfold plus. simpl. lia. }
  destruct (fc_noted _ _ _ _ _ _ _ _ _ dest HF0 HT) as [[p Hd] HF]. set (T := T0 ⊕ [RRef dest]) in *.
  pose proof (fc_port_ok _ _ _ _ _ _ _ _ _ HF dest p Hd) as Hok. pose proof (po_impcount _ _ Hok) as Hi.
  assert (Himp : forall (R : Z -> kstate -> Prop), (forall x s' p', foc s' (<[dest := p']> P) L ev T ->
      R x s') -> wp (ipc_port_impcount_delta dest (0 - cntr)) s R).
  { intros R HR. unfold ipc_port_impcount_delta. apply wp_bind. eapply wf_ip_get; [exact HF|done|].
    assert (Hset : forall v, 0 <= v < 2 ^ 24 -> forall (R : kstate -> Prop),
      (forall s', foc s' (<[dest := set_ip_impcount v p]> P) L ev T -> R s') ->
      wp (ip_mod dest (set_ip_impcount v)) s (fun _ => R)).
    { intros v Hv R' HR'. apply (wf_ip_counts s0 a i name s P L ev T dest p _ T); try done; try apply Hok.
      intros r. simpl. lia. }
    destruct (ip_active p); cbn [negb]; [|wp_step; apply (HR _ s p); by rewrite insert_id].
    destruct (Z.leb_spec 0 (0 - cntr)).
    - apply wp_bind, Hset; [unfold u24; apply Z.mod_pos_bound; lia|]. intros s1 HF1. wp_step. by eapply HR.
    - destruct (Z.leb_spec (0 - (0 - cntr)) (ip_impcount p)); apply wp_bind, Hset; try lia; intros s1 HF1; wp_step; by eapply HR. }
  apply wp_bind, wp_bind, Himp. intros x s1 p1 HF1. eapply wf_release; [exact HF1|apply lookup_insert_eq| |].
  - pose proof (live_and_ref T0 dest HT). unfold T, plus. cbn [cnt]. hand_at. lia.
  - intros s2 P2 HF2 _. wp_step. eapply (HQ s2 P2), fc_ext; [exact HF2|].
    intros r. unfold T, plus, minus. cbn [cnt]. lia.
Qed.

Lemma add_receive_bits b :
  let b' := Z.lor b MACH_PORT_TYPE_RECEIVE in
  IE_BITS_TYPE b' = Z.lor (IE_BITS_TYPE b) MACH_PORT_TYPE_RECEIVE /\ IE_BITS_UREFS b' = IE_BITS_UREFS b /\
  IE_BITS_GEN b' = IE_BITS_GEN b.
Proof. intros b'. unfold b'. bits_norm. by bits_const. Qed.

(** The last part: the entry becomes one for a receive right. *)
Lemma wf_copyout_receive_tail s P L o b req lk p T Q :
  foc s P L (Open (o, b, req) lk) T -> ip_receiver_name p = MACH_PORT_NULL -> o <> IO_NULL -> 0 <= req -> 0 <= ip_impcount p ->
  (IE_BITS_TYPE b = MACH_PORT_TYPE_NONE /\ IE_BITS_UREFS b = 0 \/
   IE_BITS_TYPE b = MACH_PORT_TYPE_SEND /\ 0 < IE_BITS_UREFS b < MACH_PORT_UREFS_MAX) -> lk = false ->
  (forall r, T r = T0 r + cnt r (type_rights a name o (Z.lor (IE_BITS_TYPE b) MACH_PORT_TYPE_RECEIVE) req) + cnt r (transit_rights p)) ->
  (forall s' P' b', IE_BITS_TYPE b' = Z.lor (IE_BITS_TYPE b) MACH_PORT_TYPE_RECEIVE ->
    IE_BITS_UREFS b' = IE_BITS_UREFS b -> IE_BITS_GEN b' = IE_BITS_GEN b ->
    foc s' P' L (Shut o b') T0 -> Q KERN_SUCCESS s') ->
  wp (_ ← ie_mod a i (set_ie_bits (Z.lor b MACH_PORT_TYPE_RECEIVE));
      _ ← entry_modified a name i;
      _ ← mwhen (negb (ip_destination p =? IP_NULL))
            (_ ← ipc_port_impcount_delta (ip_destination p) (0 - ip_impcount p);
             ip_release (ip_destination p));
      mret KERN_SUCCESS) s Q.
Proof.
  intros HF Hrn Hon Hreq Hi Hty -> HT HQ. pose proof (fc_gen _ _ _ _ _ _ _ _ _ _ _ _ HF) as Hg.
  destruct (add_receive_bits b) as (Ht1 & Hu1 & Hg1). set (b1 := Z.lor b MACH_PORT_TYPE_RECEIVE) in *.
  apply wp_bind. eapply wf_ie_mod; [done|exact HF|entry_fields|done|by rewrite Hg1|]. intros s1 HF1.
  apply wp_bind. eapply wf_entry_modified; [done|exact HF1|]. intros s2 HF2.
  assert (Hlk : (IE_BITS_TYPE b1 =? MACH_PORT_TYPE_SEND) = false) by (rewrite Ht1; by destruct Hty as [[-> _]|[-> _]]).
  assert (Hok : entry_ok (o, b1, req)).
  { unfold entry_ok. rewrite Ht1, Hu1. by destruct Hty as [[-> ->]|[-> ?]]; constructor. }
  assert (HF3 : foc s2 P L (Shut o b1) (T0 ⊕ transit_rights p)).
  { eapply fc_put_back; [done|done|rewrite Hlk; exact HF2|done|]. intros r. rewrite HT, Ht1. unfold plus. lia. }
  unfold transit_rights in HF3. rewrite Hrn in HF3.
  eapply wf_let_go; [exact HF3|done|done|]. intros s3 P3 HF4. by eapply (HQ s3 P3 b1).
Qed.

(** The receive right in hand *)
Local Abbreviation adrift o := [RRef o; RLive o; RHome o IS_NULL MACH_PORT_NULL].

Lemma wf_adrift s P L ev T o p :
  foc s P L ev T -> 0 < T (RHome o IS_NULL MACH_PORT_NULL) -> P !! o = Some p ->
  ip_active p = true /\ ip_receiver_name p = MACH_PORT_NULL /\ ip_mscount p = 0 /\
  home_rights o p = [RHome o IS_NULL MACH_PORT_NULL].
Proof.
  intros HF HT Ho. destruct (fc_home _ _ _ _ _ _ _ _ _ HF o p _ _ Ho HT) as (Ha & Hh & Hn).
  destruct (proj1 (po_transit _ _ (fc_port_ok _ _ _ _ _ _ _ _ _ HF o p Ho)) Ha Hn) as [(Hms & _) _].
  split_and!; try done. by rewrite home_rights_eq, Hh, Hn.
Qed.

Lemma wf_copyout_receive_new s P L o b p Q :
  foc s P L (Open (o, b, IE_REQ_NONE) false) (T0 ⊕ adrift o ⊕ [RName o a]) ->
  IE_BITS_TYPE b = MACH_PORT_TYPE_NONE -> IE_BITS_UREFS b = 0 -> P !! o = Some p -> name <> MACH_PORT_NULL ->
  (forall s' P' b', IE_BITS_TYPE b' = Z.lor (IE_BITS_TYPE b) MACH_PORT_TYPE_RECEIVE ->
    IE_BITS_UREFS b' = IE_BITS_UREFS b -> IE_BITS_GEN b' = IE_BITS_GEN b ->
    foc s' P' L (Shut o b') T0 -> Q KERN_SUCCESS s') ->
  wp (copyout_receive a name i o) s Q.
Proof.
  intros HF Ht Hu Ho Hn HQ. pose proof (fc_port_ok _ _ _ _ _ _ _ _ _ HF o p Ho) as Hok.
  destruct (wf_adrift _ _ _ _ _ o p HF) as (Ha & Hrn & Hms & Hhm); [|done|].
  { pose proof (proj1 HT0 (RHome o IS_NULL MACH_PORT_NULL)). unfold plus. cbn [cnt]. hand_at. lia. }
  assert (Hon : o <> IO_NULL) by (intros ->; by destruct Hok).
  unfold copyout_receive. apply wp_bind. eapply wf_ie_get; [done|exact HF|]. intros ix. cbn [ie_bits].
  apply wp_bind. eapply wf_ip_get; [exact HF|done|]. wp_step. wp_step; [by rewrite Hms|]. wp_step. wp_step; [by rewrite Hrn|].
  eapply (wf_settle _ _ _ _ (T0 ⊕ [RRef o; RLive o; RName o a]));
    [eapply fc_ext; [exact HF|]; rewrite Hhm; same_hand| |done..|].
  { apply hand_ok_plus; [done|]. intros x. cnt_simpl. destruct (decide _); lia. }
  intros s1 HF1.
  by_type Ht. wp_step. wp_step; [done|]. apply wp_bind. wp_step. wp_step; [done|]. wp_step; [by rewrite Hu|].
  eapply wf_copyout_receive_tail; [exact HF1|done|done|done|apply Hok|by left|done| |done].
  intros r. rewrite Ht. change (Z.lor MACH_PORT_TYPE_NONE MACH_PORT_TYPE_RECEIVE) with MACH_PORT_TYPE_RECEIVE.
  rights_of_type. rewrite cnt_slot_none. unfold plus, minus. cbn [app cnt]. lia.
Qed.

Lemma wf_copyout_receive_send s P L o b req p Q :
  hold s P L o b req (T0 ⊕ adrift o) -> IE_BITS_TYPE b = MACH_PORT_TYPE_SEND ->
  P !! o = Some p -> name <> MACH_PORT_NULL ->
  (forall s' P' b', IE_BITS_TYPE b' = Z.lor (IE_BITS_TYPE b) MACH_PORT_TYPE_RECEIVE ->
    IE_BITS_UREFS b' = IE_BITS_UREFS b -> IE_BITS_GEN b' = IE_BITS_GEN b ->
    foc s' P' L (Shut o b') T0 -> Q KERN_SUCCESS s') ->
  wp (copyout_receive a name i o) s Q.
Proof.
  intros [HF Hok] Ht Ho Hn HQ. pose proof (fc_gen _ _ _ _ _ _ _ _ _ _ _ _ HF) as Hg.
  pose proof (fc_port_ok _ _ _ _ _ _ _ _ _ HF o p Ho) as Hpo. pose proof (live_and_ref T0 o HT0) as Hl.
  destruct (wf_adrift _ _ _ _ _ o p HF) as (Ha & Hrn & Hms & Hhm); [|done|].
  { pose proof (proj1 HT0 (RHome o IS_NULL MACH_PORT_NULL)). unfold plus. cbn [cnt]. rewrite Ht. rights_of_type. hand_at. lia. }
  pose proof (proj1 HT0 (RSend o)) as Hs0. rewrite Ht in HF.
  assert (Hsh : o <> IO_NULL /\ 0 < IE_BITS_UREFS b < MACH_PORT_UREFS_MAX /\ 0 <= req) by (by_kind Hok).
  destruct Hsh as (Hon & Hu & Hreq).
  unfold copyout_receive. apply wp_bind. eapply wf_ie_get; [done|exact HF|]. intros ix. cbn [ie_bits].
  apply wp_bind. eapply wf_ip_get; [exact HF|done|]. wp_step. wp_step; [by rewrite Hms|]. wp_step. wp_step; [by rewrite Hrn|].
  eapply (wf_settle _ _ _ _ (T0 ⊕ [RRef o; RLive o] ⊕ type_rights a name o MACH_PORT_TYPE_SEND req));
    [eapply fc_ext; [exact HF|]; rewrite Hhm; intros r; unfold plus; cbn [cnt]; lia| |done..|].
  { rewrite <- Ht, <- (core_rights_name a i name o b req) by done. apply hand_ok_plus, backed_core.
    apply hand_ok_plus; [done|]. intros x. cnt_simpl. destruct (decide _); lia. }
  intros s1 HF1.
  by_type Ht. wp_step. wp_step; [done|]. apply wp_bind. wp_step. wp_step; [done|].
  wp_step. wp_step; [apply Z.ltb_lt; lia|]. wp_step. wp_step.
  { pose proof (fc_count_ge _ _ _ _ _ _ _ _ _ HF o p (RSend o) Ho eq_refl) as Hc. revert Hc. cbn [port_count].
    unfold plus. cbn [cnt]. rights_of_type. hand_at. intros. apply Z.ltb_lt. lia. }
  pose proof (cnt_nonneg (RRef o) (transit_rights p)) as Htr1.
  assert (Htr2 : cnt (RLive o) (transit_rights p) = 0) by (unfold transit_rights; by destruct (_ && _)).
  apply wp_bind. eapply wf_release; [exact HF1|apply lookup_insert_eq| |].
  { unfold plus, minus. rewrite Htr2. cbn [cnt]. rights_of_type. hand_at. lia. }
  destruct (fc_refs _ _ _ _ _ _ _ _ _ HF1 o _ (lookup_insert_eq _ _ _)) as (Hrf & _).
  assert (Hr2 : (ip_references (settled a name p) =? 1) = false).
  { apply Z.eqb_neq. revert Hrf. unfold plus, minus. cbn [cnt]. rights_of_type. hand_at. lia. }
  intros s2 P2 HF2 HP2. unfold unref in HP2. rewrite Hr2, insert_insert_eq in HP2. subst P2.
  eapply wf_hash_delete; [done|exact HF2|]. intros s3 HF3.
  eapply wf_copyout_receive_tail; [exact HF3|done|done|done|apply Hpo|by right|done| |done].
  intros r. rewrite Ht. change (Z.lor MACH_PORT_TYPE_SEND MACH_PORT_TYPE_RECEIVE) with MACH_PORT_TYPE_SEND_RECEIVE.
  unfold plus, minus. rights_of_type. cbn [app cnt]. lia.
Qed.

(** *** [ipc_right_copyout] *)

(** What the right makes of an entry with bits [b] *)
Definition copied_out (msgt : Z) (overflow : bool) (b : Z) (kr : kern_return_t) (b' : Z) : Prop :=
  if msgt =? MACH_MSG_TYPE_PORT_SEND_ONCE
  then kr = KERN_SUCCESS /\ IE_BITS_TYPE b' = MACH_PORT_TYPE_SEND_ONCE /\ IE_BITS_UREFS b' = 1
  else if msgt =? MACH_MSG_TYPE_PORT_SEND then send_copied_out overflow b kr b'
  else kr = KERN_SUCCESS /\ IE_BITS_TYPE b' = Z.lor (IE_BITS_TYPE b) MACH_PORT_TYPE_RECEIVE /\
       IE_BITS_UREFS b' = IE_BITS_UREFS b /\ IE_BITS_GEN b' = IE_BITS_GEN b.

Lemma arriving_send o : IO_VALID o = true -> disposition_rights MACH_MSG_TYPE_PORT_SEND o = [RRef o; RSend o].
Proof. unfold disposition_rights. by intros ->. Qed.
Lemma arriving_send_once o : IO_VALID o = true -> disposition_rights MACH_MSG_TYPE_PORT_SEND_ONCE o = [RRef o; RSonce o].
Proof. unfold disposition_rights. by intros ->. Qed.
Lemma arriving_receive o :
  IO_VALID o = true -> disposition_rights MACH_MSG_TYPE_PORT_RECEIVE o = adrift o.
Proof. unfold disposition_rights. by intros ->. Qed.

(** The checks at the start *)
Lemma wf_copyout_checks s P L o b req lk T p (k : K kern_return_t) Q :
  foc s P L (Open (o, b, req) lk) T -> P !! o = Some p -> ip_active p = true -> wp k s Q ->
  wp (_ ← massert (IO_VALID o);
      bits ← io_bits o;
      _ ← massert (io_bits_otype bits =? IOT_PORT);
      _ ← massert (io_bits_active bits);
      e ← ie_get a i;
      _ ← massert (ie_object e =? o);
      k) s Q.
Proof.
  intros HF Ho Ha Hk. pose proof (fc_port_ok _ _ _ _ _ _ _ _ _ HF o p Ho) as Hok.
  wp_step. wp_step; [apply (po_valid _ _ Hok)|]. apply wp_bind. eapply wf_io_bits; [exact HF|done|].
  wp_step. wp_step; [by rewrite (po_otype _ _ Hok)|]. wp_step. wp_step; [exact Ha|].
  apply wp_bind. eapply wf_ie_get; [done|exact HF|]. intros ix. wp_step. wp_step; [apply Z.eqb_refl|]. done.
Qed.

(** The space has a right to the port already. *)
Lemma wf_right_copyout_found s P L o b req p msgt overflow Q :
  hold s P L o b req (T0 ⊕ disposition_rights msgt o) -> has b MACH_PORT_TYPE_SEND_RECEIVE = true ->
  P !! o = Some p -> ip_active p = true -> name <> MACH_PORT_NULL ->
  msgt ∈ dispositions -> msgt <> MACH_MSG_TYPE_PORT_SEND_ONCE ->
  (forall kr s' P' b', copied_out msgt overflow b kr b' ->
    foc s' P' L (Shut o b') (T0 ⊕ left_over kr (disposition_rights msgt o)) -> Q kr s') ->
  wp (ipc_right_copyout a name i msgt overflow o) s Q.
Proof.
  intros Hh Hb Ho Ha Hn Hd Hso HQ. pose proof Hh as [HF Hok].
  pose proof (po_valid _ _ (fc_port_ok _ _ _ _ _ _ _ _ _ HF o p Ho)) as Hv.
  unfold ipc_right_copyout. eapply wf_copyout_checks; [exact HF|done|done|]. unfold copied_out in HQ.
  rewrite (proj2 (Z.eqb_neq _ _) Hso) in *.
  apply elem_of_cons in Hd as [->|[->|[->|[]%elem_of_nil]%elem_of_cons]%elem_of_cons]; [|done|].
  - rewrite arriving_send in * by done. ground. cbn iota.
    assert (Hty : has b MACH_PORT_TYPE_SEND = true \/ IE_BITS_TYPE b = MACH_PORT_TYPE_RECEIVE) by (by_kind Hok; auto).
    destruct Hty; [eapply wf_copyout_send_more|eapply wf_copyout_send_receive]; done.
  - rewrite arriving_receive in * by done. ground. cbn iota.
    assert (Hty : IE_BITS_TYPE b = MACH_PORT_TYPE_SEND).
    { pose proof (fc_count_ge _ _ _ _ _ _ _ _ _ HF o p (RLive o) Ho eq_refl) as Hc. revert Hc. cbn [port_count].
      rewrite Ha. pose proof (proj1 HT0 (RLive o)). unfold plus. cbn [cnt]. by_kind Hok; rights_of_type; hand_at; lia. }
    eapply wf_copyout_receive_send; [done|done|done|done|]. intros s' P' b' H1 H2 H3 HF'.
    eapply (HQ _ s' P' b'); [done|]. eapply fc_ext; [exact HF'|]. rewrite left_over_ok. same_hand.
Qed.

(** The space gets a new entry. *)
Lemma wf_right_copyout_new s P L o p msgt overflow Q :
  let b := MACH_PORT_GEN name in
  foc s P L (Open (o, b, IE_REQ_NONE) false)
    (T0 ⊕ disposition_rights msgt o ⊕ when (negb (msgt =? MACH_MSG_TYPE_PORT_SEND_ONCE)) [RName o a]) ->
  P !! o = Some p -> ip_active p = true -> name <> MACH_PORT_NULL -> msgt ∈ dispositions ->
  (forall kr s' P' b', copied_out msgt overflow b kr b' ->
    foc s' P' L (Shut o b') (T0 ⊕ left_over kr (disposition_rights msgt o)) -> Q kr s') ->
  wp (ipc_right_copyout a name i msgt overflow o) s Q.
Proof.
  intros b HF Ho Ha Hn Hd HQ. pose proof (po_valid _ _ (fc_port_ok _ _ _ _ _ _ _ _ _ HF o p Ho)) as Hv.
  assert (Hb : IE_BITS_TYPE b = MACH_PORT_TYPE_NONE /\ IE_BITS_UREFS b = 0)
    by (unfold b; rewrite <- (MACH_PORT_GEN_ok name); split; [apply IE_BITS_TYPE_GEN|apply IE_BITS_UREFS_GEN]).
  destruct Hb as [Ht Hu]. unfold ipc_right_copyout. eapply wf_copyout_checks; [exact HF|done|done|].
  unfold copied_out in HQ.
  apply elem_of_cons in Hd as [->|[->|[->|[]%elem_of_nil]%elem_of_cons]%elem_of_cons].
  - rewrite arriving_send in * by done. ground. cbn iota.
    eapply wf_copyout_send_new; [exact HF|done|done|done|]. intros kr s' b' H1 HF'. by eapply (HQ kr s' P b').
  - rewrite arriving_send_once in * by done. ground. cbn iota.
    eapply wf_copyout_send_once; [eapply fc_ext; [exact HF|]|done|done|done|].
    + intros r. unfold plus. cbn. lia.
    + intros s' b' H1 H2 HF'. eapply (HQ _ s' P b'); [done|]. eapply fc_ext; [exact HF'|]. rewrite left_over_ok. same_hand.
  - rewrite arriving_receive in * by done. ground. cbn iota.
    eapply wf_copyout_receive_new; [exact HF|done|done|done|done|]. intros s' P' b' H1 H2 H3 HF'.
    eapply (HQ _ s' P' b'); [done|]. eapply fc_ext; [exact HF'|]. rewrite left_over_ok. same_hand.
Qed.
End copyout.

(** ** [ipc_object_copyout] *)

(** The entry the right went to: one that had the port, or a new one *)
Definition place (s : kstate) (a o name b : Z) : Prop :=
  (exists req, named s a name (o, b, req) /\ has b MACH_PORT_TYPE_SEND_RECEIVE = true) \/
  ((forall c, ~ named s a name c) /\ b = MACH_PORT_GEN name).

(** Why a right was refused *)
Definition copyout_refused (s1 : kstate) (a o msgt : Z) (overflow : bool) (sp : ipc_space) (p : ipc_port)
    (kr : kern_return_t) : Prop :=
  (kr = KERN_INVALID_TASK /\ is_active sp = false) \/
  kr ∈ [KERN_NO_SPACE; KERN_RESOURCE_SHORTAGE] \/
  (kr = KERN_INVALID_CAPABILITY /\ ip_active p = false) \/
  (kr = KERN_UREFS_OVERFLOW /\ overflow = false /\ msgt = MACH_MSG_TYPE_PORT_SEND /\
   exists name b, place s1 a o name b /\ IE_BITS_UREFS b + 1 = MACH_PORT_UREFS_MAX).

Lemma copied_out_refused msgt overflow b kr b' :
  copied_out msgt overflow b kr b' -> kr <> KERN_SUCCESS ->
  kr = KERN_UREFS_OVERFLOW /\ overflow = false /\ msgt = MACH_MSG_TYPE_PORT_SEND /\ IE_BITS_UREFS b + 1 = MACH_PORT_UREFS_MAX.
Proof.
  unfold copied_out, send_copied_out. intros Hc Hk. destruct (Z.eqb_spec msgt MACH_MSG_TYPE_PORT_SEND_ONCE); [by destruct Hc|].
  destruct (Z.eqb_spec msgt MACH_MSG_TYPE_PORT_SEND); [|by destruct Hc].
  destruct (_ && _) eqn:He; [|by destruct Hc]. apply andb_true_iff in He as [_ He]. apply Z.eqb_eq in He.
  destruct Hc as [_ ->]. by destruct overflow.
Qed.

(** The result of [ipc_object_copyout] *)
Definition object_copied_out (s : kstate) (T : right -> Z) (a o msgt : Z) (overflow : bool) (sp : ipc_space)
    {env : ipc_env} (p : ipc_port) (r : kern_return_t + Z) (s' : kstate) : Prop :=
  exists s1, widened a s s1 /\
    match r with
    | inl kr => copyout_refused s1 a o msgt overflow sp p kr /\ ks_log s' = ks_log s /\
        (exists i, framed a i s1 s') /\ kwf s' (T ⊕ disposition_rights msgt o)
    | inr name => exists b b', place s1 a o name b /\ copied_out msgt overflow b KERN_SUCCESS b' /\
        entry_is s' a (MACH_PORT_INDEX name) o b' /\ framed a (MACH_PORT_INDEX name) s1 s' /\
        ks_log s' = ks_log s /\ kwf s' T
    end.

Lemma copyout_end {env : ipc_env} s T a o msgt overflow sp p s1 name kr s' P' b b' :
  widened a s s1 -> place s1 a o name b -> copied_out msgt overflow b kr b' ->
  focus s1 a (MACH_PORT_INDEX name) name s' P' (ks_log s1) (Shut o b') (T ⊕ left_over kr (disposition_rights msgt o)) ->
  wp (if decide (kr = KERN_SUCCESS) then mret (inr name) else mret (inl kr)) s'
    (object_copied_out s T a o msgt overflow sp p).
Proof.
  intros Hw Hp Hc HF. apply shut_end in HF as (HK' & Hfr & HL & He).
  assert (HLg : ks_log s' = ks_log s) by (rewrite HL; apply Hw).
  destruct (decide (kr = KERN_SUCCESS)) as [->|Hk]; wp_step; exists s1; (split; [done|]).
  - exists b, b'. split_and!; try done. rewrite left_over_ok in HK'. eapply kwf_proper; [done| |exact HK'].
    intros r. unfold plus. cbn [cnt]. lia.
  - unfold left_over in HK'. rewrite bool_decide_eq_false_2 in HK' by done. split; [|by eauto].
    destruct (copied_out_refused _ _ _ _ _ Hc Hk) as (-> & -> & -> & Hu). right. right. right.
    split_and!; try done. by exists name, b.
Qed.

Lemma wf_object_copyout {env : ipc_env} s T a sp o p msgt overflow :
  sizes_ok ipc_table_entries -> kwf s (T ⊕ disposition_rights msgt o) -> hand_ok T -> msgt ∈ dispositions ->
  ks_spaces s !! a = Some sp -> ks_ports s !! o = Some p ->
  (ip_active p = true -> ip_receiver p = a -> ip_receiver_name p <> MACH_PORT_NULL) ->
  T (RName o a) = 0 -> (forall n, n <> MACH_PORT_NULL -> T (RHome o a n) = 0) ->
  wp (ipc_object_copyout a o msgt overflow) s (object_copied_out s T a o msgt overflow sp p).
Proof.
  intros Hsz HK HT Hd Ha Ho Hal Hnm Hhm. pose proof (oo_ports _ (kw_objects _ _ HK) _ _ Ho) as Hok.
  assert (HTd : hand_ok (T ⊕ disposition_rights msgt o)) by (by apply hand_ok_plus, backed_disposition).
  assert (Hmov : forall r, ~ movable r -> (T ⊕ disposition_rights msgt o) r = T r).
  { intros r Hr. unfold plus. rewrite (movable_cnt r _ Hr); [lia|]. apply movable_disposition. }
  unfold ipc_object_copyout. wp_step. wp_step; [apply (po_valid _ _ Hok)|]. wp_step. eapply wp_io_bits; [done|].
  wp_step. wp_step; [by rewrite (po_otype _ _ Hok)|]. wp_step.
  eapply (wf_copyout_loop Hsz _ a o msgt p HTd);
    [by rewrite Hmov by (by intros [])|intros n Hn; rewrite Hmov by done; by apply Hhm|done|done|done|done|..].
  - intros Hin. wp_step. exists s. split; [apply widened_refl|]. split; [by left|].
    split_and!; [done| |done]. exists 0. apply framed_refl.
  - intros kr s1 HK1 Hw Hkr. wp_step. exists s1. split; [done|]. split; [by right; left|].
    split_and!; [apply Hw| |done]. exists 0. apply framed_refl.
  - intros s1 s' Hw (Hpa & HK' & nm & Hfr & HP & HL). wp_step. exists s1. split; [done|].
    split; [right; right; by left|]. split_and!; [rewrite HL; apply Hw|by exists (MACH_PORT_INDEX nm)|done].
  - intros name s1 HK1 Hw (Hso & Hpa & b & req & Hnd & Hb). wp_step.
    pose proof (holding_start s1 a name _ o b req HK1 Hnd) as Hh. pose proof Hw as (HP & _).
    eapply wf_right_copyout_found; [done|apply Hnd|exact HT|exact Hh|done|by rewrite HP|done| |done|done|].
    + intros ->. destruct Hnd as (_ & sp1 & _ & _ & Hi & _). change (MACH_PORT_INDEX MACH_PORT_NULL) with 0 in Hi. lia.
    + intros kr s' P' b' Hc HF. eapply copyout_end; [exact Hw| |done|exact HF]. left. by exists req.
  - intros name s1 s' HK1 Hw (Hpa & Hv & Hw32 & Hnn & HF). wp_step. pose proof Hw as (HP & _).
    eapply wf_right_copyout_new; [done|done|exact HT|exact HF|by rewrite HP|done| |done|].
    + by intros ->.
    + intros kr s2 P' b' Hc HF'. eapply copyout_end; [exact Hw| |done|exact HF']. by right.
Qed.

(** C32 Copying out: in every balanced state in which the caller has the right in hand,
    [ipc_object_copyout] never fails an assertion, and two turns of its loop are enough.  The
    name it returns is the one under which the space knows the port, or a new one that named
    nothing; the entry has the right in addition to what it had (one user reference more for
    a send right), and the state is balanced without the caller's right.  Nothing else
    changes, but that the table may have grown.  When the right is refused it is still in
    hand: the space or the port is dead, the table cannot grow, or the user references of a
    send right would overflow. *)
Theorem ipc_object_copyout_correct {env : ipc_env} s T a sp o p msgt overflow :
  sizes_ok ipc_table_entries -> kwf s (T ⊕ disposition_rights msgt o) -> hand_ok T -> msgt ∈ dispositions ->
  ks_spaces s !! a = Some sp -> ks_ports s !! o = Some p ->
  (ip_active p = true -> ip_receiver p = a -> ip_receiver_name p <> MACH_PORT_NULL) ->
  T (RName o a) = 0 -> (forall n, n <> MACH_PORT_NULL -> T (RHome o a n) = 0) ->
  wp (ipc_object_copyout a o msgt overflow) s (object_copied_out s T a o msgt overflow sp p).
Proof. apply wf_object_copyout. Qed.

(** ** Witness: a kernel port's send right goes to a space *)
Module CopyoutExample.
Import Sample.

Lemma sample_sizes : sizes_ok ipc_table_entries.
Proof.
  split.
  - exists [16; 32], 32. split_and!; [done| |done]. intros [|[|]] [|[|]] x y Hij Hx Hy; simplify_eq/=; lia.
  - intros x Hx. change (MACH_PORT_INDEX MACH_PORT_DEAD) with 0xffffff.
    cbn in Hx. rewrite !elem_of_cons in Hx. set_solver by lia.
Qed.

Definition kept_rights : list right := [RLive 0x800; RRef 0x800; RHome 0x800 0 0; RSend 0x800; RRef 0x800].

Lemma busy_out : kwf busy (hand kept_rights ⊕ disposition_rights MACH_MSG_TYPE_PORT_SEND 0x800).
Proof. eapply kwf_proper; [done| |exact busy_kwf]. intros r. unfold plus, hand. cbn. lia. Qed.

Lemma kept_hand : hand_ok (hand kept_rights).
Proof.
  split; [intros r; apply cnt_nonneg|]. intros o. unfold hand, kept_rights.
  cnt_simpl. destruct (decide (o = 0x800)); lia.
Qed.

Lemma ipc_object_copyout_witness :
  exists name s', ipc_object_copyout 0x1000 0x800 MACH_MSG_TYPE_PORT_SEND false busy = Ok (inr name, s') /\
    kwf s' (hand kept_rights).
Proof.
  destruct (wp_inv _ _ _ (ipc_object_copyout_correct busy (hand kept_rights) 0x1000 space1 0x800 kernel_port
    MACH_MSG_TYPE_PORT_SEND false sample_sizes busy_out kept_hand ltac:(by left) eq_refl eq_refl
    ltac:(done) ltac:(done) ltac:(done))) as (r & s' & Hrun & s1 & _ & Hpost).
  assert (Hr : match ipc_object_copyout 0x1000 0x800 MACH_MSG_TYPE_PORT_SEND false busy with
               | Ok (inr _, _) => True
               | _ => False
               end) by (vm_compute; exact I).
  rewrite Hrun in Hr. destruct r as [kr|name]; [destruct Hr|]. exists name, s'. split; [exact Hrun|].
  destruct Hpost as (b & b' & _ & _ & _ & _ & _ & HK). exact HK.
Defined.
End CopyoutExample.
