(* ===== verification/IpcBodyOk.v ===== *)
(** * Bodies of messages on the way out (ipc_kmsg.c)

    Copying the body of a message out gives every right it carries to the receiver's space, or
    gives it up when the space cannot take it: [ipc_kmsg_copyout_object], the descriptors, and
    [ipc_kmsg_copyout_body].  The kernel stays balanced, and the size the message has then is
    the one [ipc_kmsg_copyout_size] announced. *)

From S2P Require Import IpcTypes IpcBits IpcHash IpcEntry IpcGrow IpcState IpcLedger IpcPort IpcRequest IpcDestroy IpcRight IpcObject MachPort IpcKmsg IpcGentle IpcFocus IpcSample IpcRightOk IpcDeltaOk IpcPortOk IpcCopyOk IpcDesk IpcDestroyOk IpcCircularOk IpcFrame IpcAllocOk IpcCopyoutOk IpcTable.

(** ** No port appears *)
Definition barren {A} (m : K A) : Prop :=
  forall s a s', m s = Ok (a, s') -> forall o, ks_ports s !! o = None -> ks_ports s' !! o = None.

Lemma barren_portless {A} (m : K A) : portless m -> barren m.
Proof. intros H s a s' Hm o Ho. by rewrite (H s a s' Hm). Qed.

Lemma barren_gentle {A} n (m : K A) : gentle n m -> barren m.
Proof.
  intros H s a s' Hm o Ho. destruct (ks_ports s' !! o) as [p'|] eqn:Hp; [|done].
  destruct (H s a s' Hm o p' Hp) as (p & Hp' & _). congruence.
Qed.

Lemma barren_bind {A B} (m : K A) (f : A -> K B) : barren m -> (forall a, barren (f a)) -> barren (m ≫= f).
Proof. intros Hm Hf s b s' (a & s1 & H1 & H2)%bind_Ok o Ho. eapply Hf; [done|]. by eapply Hm. Qed.

Lemma barren_ip_mod o f : barren (ip_mod o f).
Proof.
  intros s a s' (p & s1 & H1 & H2)%bind_Ok x Hx. unfold ip_get in H1. destruct (ks_ports s !! o) as [q|] eqn:Ho; [|done].
  injection H1 as <- <-. injection H2 as <- <-. simpl. rewrite lookup_insert_ne; [done|congruence].
Qed.

Lemma barren_mwhen b (m : K unit) : barren m -> barren (mwhen b m).
Proof. destruct b; [done|]. intros _. apply barren_portless, portless_ret. Qed.

Ltac barren :=
  cbv zeta;
  lazymatch goal with
  | |- barren (_ ≫= _) => apply barren_bind; [barren|intros ?; barren]
  | |- barren (mwhen _ _) => apply barren_mwhen; barren
  | |- barren (ip_mod _ _) => apply barren_ip_mod
  | |- barren (match ?x with _ => _ end) => destruct x; barren
  | |- _ => first [ apply barren_portless; solve [portless] | eapply barren_gentle; solve [eauto with gentle]
                  | progress autounfold with gentle; barren ]
  end.

Section copyout.
Context {env : ipc_env}.

Lemma portless_right_reverse a o : portless (ipc_right_reverse a o).
Proof. unfold ipc_right_reverse. portless. Qed.
Hint Resolve portless_right_reverse : gentle.

Lemma barren_right_copyout a name i msgt overflow o : barren (ipc_right_copyout a name i msgt overflow o).
Proof. unfold ipc_right_copyout, copyout_send_once, copyout_send, copyout_receive, ipc_port_impcount_delta. barren. Qed.

Lemma portless_grow a size : portless (entry_grow_table a size).
Proof. unfold entry_grow_table, pop_kalloc. portless. Qed.
Hint Resolve portless_grow : gentle.

Lemma barren_object_copyout a o msgt overflow : barren (ipc_object_copyout a o msgt overflow).
Proof.
  unfold ipc_object_copyout, copyout_loop, copyout_turn. repeat (apply barren_bind; [barren|intros ?]).
  destruct (_ : _ + _) as [kr|[name entry]]; [barren|]. apply barren_bind; [apply barren_right_copyout|]. intros kr. barren.
Qed.

(** ** One right *)

(** The thread that receives is not inside a destruction; the receiver's space is there, and is
    no port. *)
Record ready (a : Z) (s : kstate) : Prop := {
  rd_space : is_Some (ks_spaces s !! a);
  rd_apart : ks_ports s !! a = None;
  rd_valid : a <> IS_NULL;
  rd_queue : ks_ith_messages s = [];
  rd_top : ks_ith_assertions s = 0;
}.

(** No right in hand is a name of the space. *)
Definition foreign (a : Z) (T : right -> Z) : Prop :=
  (forall o, T (RName o a) = 0) /\ (forall o n, n <> MACH_PORT_NULL -> T (RHome o a n) = 0).

Lemma foreign_plus a T l : foreign a T -> Forall movable l -> foreign a (T ⊕ l).
Proof.
  intros [H1 H2] Hl. split; intros; unfold plus; rewrite movable_cnt by (done || by intros []); [by rewrite H1|].
  by rewrite H2.
Qed.

Lemma ready_framed a i s s1 s' :
  ready a s -> widened a s s1 -> framed a i s1 s' -> (forall o, ks_ports s !! o = None -> ks_ports s' !! o = None) -> ready a s'.
Proof.
  intros [[sp Hsp] H2 H3 H4 H5] (_ & _ & _ & _ & [E1 E2] & _ & E3) (_ & _ & [F1 F2] & _ & F3) Hp.
  rewrite Hsp in E3. inversion E3 as [? sp1 _ Hs1 E|]. rewrite <- E in F3. inversion F3 as [? sp2 _ Hs2 F|].
  split; [by eexists|auto|done|congruence|congruence].
Qed.

Lemma ready_swept a s s' : ready a s -> sweeps s s' -> ready a s'.
Proof.
  intros [H1 H2 H3 H4 H5] [[] Hq]. split; [congruence| |done|auto|congruence].
  destruct (ks_ports s' !! a) as [p'|] eqn:Hp; [|done]. destruct (sw_ports _ _ Hp) as (p & ? & _). congruence.
Qed.

(** The code and the name for an object: a name of the space, whose entry has the right in
    addition to what it had; or that the port is dead, or that the space is dead or its table
    cannot grow, and then the right is given up. *)
Definition object_out (s : kstate) (a o d : Z) (r : Z * Z) (s' : kstate) : Prop :=
  if IO_VALID o then exists s1, widened a s s1 /\
    ((r.1 = MACH_MSG_SUCCESS /\ exists b b', place s1 a o r.2 b /\ copied_out d true b KERN_SUCCESS b' /\
        entry_is s' a (MACH_PORT_INDEX r.2) o b' /\ framed a (MACH_PORT_INDEX r.2) s1 s') \/
     ((r = (MACH_MSG_SUCCESS, MACH_PORT_DEAD) /\ port_dead (ks_ports s) o = true \/
       r.1 ∈ [MACH_MSG_IPC_KERNEL; MACH_MSG_IPC_SPACE] /\ r.2 = MACH_PORT_NULL) /\
      exists i s2, framed a i s1 s2 /\ sweeps s2 s'))
  else r = (MACH_MSG_SUCCESS, CAST_MACH_PORT_TO_NAME o) /\ s' = s.

(** Between the two, no port and no space changed. *)
Definition unmoved (s s' : kstate) : Prop :=
  ks_ports s' = ks_ports s /\ ks_spaces s' = ks_spaces s /\ ks_log s `prefix_of` ks_log s'.

#[global] Instance unmoved_refl : Reflexive unmoved.
Proof. done. Qed.
#[global] Instance unmoved_trans : Transitive unmoved.
Proof. intros s1 s2 s3 (E1 & E2 & E3) (F1 & F2 & F3). split_and!; [congruence..|]. by etrans. Qed.

Lemma unmoved_without k s s' : without k s' = without k s -> unmoved s s'.
Proof.
  intros H. split_and!; [exact (f_equal ks_ports H)|exact (f_equal ks_spaces H)|].
  by rewrite (f_equal ks_log H : ks_log s' = ks_log s).
Qed.

Lemma unmoved_log s e : unmoved s (set_ks_log (ks_log s ++ [e]) s).
Proof. split_and!; [done..|]. by exists [e]. Qed.

(** It does not matter any more that the port is in transit. *)
Lemma kwf_carried s T c d o : kwf s (T ⊕ carried_rights c d o) -> kwf s (T ⊕ disposition_rights d o).
Proof.
  intros HK. apply dk_kwf in HK. apply dk_kwf.
  set (l := when (IO_VALID o && (d =? MACH_MSG_TYPE_PORT_RECEIVE) && negb c) [RTransit o]).
  eapply dk_ext; [apply (dk_drop _ _ _ l HK)|].
  - unfold l. destruct (_ && _); by repeat constructor.
  - intros r. unfold carried_rights, plus, minus. rewrite cnt_app. fold l. lia.
Qed.

(** A port received in the space has a name there. *)
Lemma receiver_named s T a d o p :
  kwf s (T ⊕ disposition_rights d o) -> hand_ok T -> ready a s -> ks_ports s !! o = Some p ->
  ip_active p = true -> ip_receiver p = a -> ip_receiver_name p <> MACH_PORT_NULL.
Proof.
  intros HK HT [_ Hap Hnull _ _] Ho Ha Hra Hn. assert (Hlk : linked (ks_ports s)).
  { eapply kwf_linked; [exact HK|]. apply hand_ok_plus; [done|apply backed_disposition]. }
  change (ip_destination p = a) in Hra. destruct (Hlk o p Ho) as [q Hq']; [|congruence].
  unfold ip_in_transit. rewrite Ha, Hn, Hra. by destruct (Z.eqb_spec a IP_NULL).
Qed.

Lemma wf_copyout_object s T a c d o :
  sizes_ok ipc_table_entries -> kwf s (T ⊕ carried_rights c d o) -> hand_ok T -> foreign a T ->
  (IO_VALID o = true -> d ∈ dispositions) -> ready a s ->
  wp (ipc_kmsg_copyout_object a o d) s (fun r s' => kwf s' T /\ ready a s' /\ object_out s a o d r s').
Proof.
  intros Hsz HK HT [Hf1 Hf2] Hd Hr. unfold ipc_kmsg_copyout_object, object_out. destruct (IO_VALID o) eqn:Hv; cbn [negb].
  2:{ wp_step. split_and!; [|done..]. rewrite (carried_invalid c) in HK by done. eapply kwf_proper; [done| |exact HK].
      intros r. unfold plus. simpl. lia. }
  specialize (Hd eq_refl). destruct (dk_carried c s Rest T d o) as [p Ho]; [by apply dk_kwf|done|done|done|].
  apply kwf_carried in HK. pose proof Hr as [[sp Hsp] Hap Hnull Hq Hass].
  pose proof (receiver_named s T a d o p HK HT Hr Ho) as Hreceiver.
  apply wp_bind.
  destruct (wp_inv _ _ _ (wf_object_copyout s T a sp o p d true Hsz HK HT Hd Hsp Ho Hreceiver (Hf1 o) (Hf2 o)))
    as (r & s' & Hrun & s1 & Hw & Hpost). eapply wp_Ok; [exact Hrun|].
  pose proof (barren_object_copyout _ _ _ _ _ _ _ Hrun) as Hbar. destruct r as [kr|name].
  - destruct Hpost as (Hwhy & _ & [i Hfr] & HK'). pose proof (ready_framed _ _ _ _ _ Hr Hw Hfr Hbar) as Hr'.
    apply wp_bind. assert (Hw' : wp (mwhen (IO_VALID o) (ipc_object_destroy o d)) s' (fun _ s2 => kwf s2 T /\ sweeps s' s2)).
    { eapply (dk_object_destroy _ _ mode_top _ destroys_top true s' Rest T); [|done|done|by split; [|apply Hr']|intros _; apply Hr'|].
      - rewrite carried_circular. by apply dk_kwf.
      - intros s2 HD2 Hsw. split; [by apply dk_kwf|done]. }
    rewrite Hv in Hw'. eapply wp_mono; [|exact Hw']. cbv beta. intros _ s2 [HK2 Hsw]. wp_step.
    split; [done|]. split; [by eapply ready_swept|]. exists s1. split; [done|]. right. split; [|by exists i, s'].
    destruct Hwhy as [[-> _]|[Hkr|[[-> Hdead]|(_ & ? & _)]]]; [| | |done].
    + right. by split; [right; left|].
    + right. rewrite !elem_of_cons in Hkr. destruct Hkr as [->|[->|[]%elem_of_nil]]; (split; [|done]); [right|]; by left.
    + left. split; [done|]. unfold port_dead. by rewrite Ho, Hdead.
  - destruct Hpost as (b & b' & Hpl & Hco & He & Hfr & _ & HK'). wp_step.
    split; [done|]. split; [by eapply ready_framed|]. exists s1. split; [done|]. left. split; [done|]. by exists b, b'.
Qed.
End copyout.

(** ** All rights of a body *)
Section body_out.
Context {env : ipc_env} {vm : vm_env} (a : Z) (Hsz : sizes_ok ipc_table_entries) (k : Z) (m : ipc_kmsg).
Context (Hvm : forall s n addr, mach_vm_allocate s n = inr addr -> addr <> 0).

Lemma ready_without s : ready a (without k s) <-> ready a s.
Proof. split; intros []; by split. Qed.

Lemma ob_copyout_object o d : oblivious (ipc_kmsg_copyout_object a o d).
Proof.
  unfold ipc_kmsg_copyout_object. destruct (negb _); [apply ob_ret|]. apply ob_bind; [apply ob_object_copyout|].
  intros [kr|name]; [|apply ob_ret]. apply ob_bind; [apply ob_object_destroy, ob_destroy|]. intros ?. apply ob_ret.
Qed.

Lemma aside_copyout_object s T c d o Q :
  aside k m s (T ⊕ carried_rights c d o) -> hand_ok T -> foreign a T -> (IO_VALID o = true -> d ∈ dispositions) -> ready a s ->
  (forall r s', aside k m s' T -> ready a s' -> object_out (without k s) a o d r (without k s') -> Q r s') ->
  wp (ipc_kmsg_copyout_object a o d) s Q.
Proof using Hsz.
  intros [Hk HK] HT Hf Hd Hr HQ. eapply (wp_aside _ k m); [apply ob_copyout_object|done|].
  eapply wp_mono; [|eapply (wf_copyout_object _ T a c d o); [done|done|done|done|done|by apply ready_without]].
  cbv beta. intros r s' (HK' & Hr' & Ho) Hk'. apply HQ; [by apply aside_put| |by rewrite without_with].
  apply ready_without. by rewrite without_with.
Qed.

(** A right of the message is out, with its code and its name; so are all of an array. *)
Definition right_out (o d : Z) (r : Z * Z) (s s' : kstate) : Prop :=
  exists s0 s1, unmoved s s0 /\ object_out s0 a o d r s1 /\ unmoved s1 s'.

Fixpoint rights_out (d : Z) (objects names : list Z) (mr mr' : Z) (s s' : kstate) : Prop :=
  match objects, names with
  | [], [] => mr' = mr /\ unmoved s s'
  | o :: objects, name :: names =>
    exists mr1 s1, right_out o d (mr1, name) s s1 /\ rights_out d objects names (Z.lor mr mr1) mr' s1 s'
  | _, _ => False
  end.

Lemma aside_copyout_ports c d objects : forall s T mr Q,
  aside k m s (T ⊕ (objects ≫= carried_rights c d)) -> hand_ok T -> foreign a T ->
  (forall o, o ∈ objects -> IO_VALID o = true -> d ∈ dispositions) -> ready a s ->
  (forall mr' names s', aside k m s' T -> ready a s' -> rights_out d objects names mr mr' s s' -> Q (mr', names) s') ->
  wp (copyout_ports a d objects mr) s Q.
Proof using Hsz.
  induction objects as [|o objects IH]; intros s T mr Q HA HT Hf Hd Hr HQ; cbn [copyout_ports].
  { wp_step. apply HQ; [|done..]. eapply aside_ext; [exact HA|]. intros r. unfold plus. simpl. lia. }
  apply wp_bind. eapply (aside_copyout_object _ (T ⊕ (objects ≫= carried_rights c d)) c).
  - eapply aside_ext; [exact HA|]. intros r. unfold plus. rewrite bind_cons, cnt_app. lia.
  - apply hand_ok_plus; [done|]. apply backed_bind. intros. apply backed_carried.
  - apply foreign_plus; [done|]. apply movable_bind. intros. apply movable_carried.
  - apply Hd. by left.
  - done.
  - intros [mr1 name] s1 HA1 Hr1 Hout. apply wp_bind. eapply IH; [exact HA1|done|done| |done|].
    { intros x Hx. apply Hd. by right. }
    intros mr2 names s2 HA2 Hr2 Hall. wp_step. apply HQ; [done|done|]. exists mr1, s1. split; [|done].
    by exists (without k s), (without k s1).
Qed.

(** What the code expects of a descriptor: it knows it, and memory out of line is a copy of
    the size it says. *)
Definition deliverable (d : mach_msg_descriptor) : Prop :=
  match d with
  | OolDescriptor _ address size copy =>
    copy <> MACH_MSG_KALLOC_COPY_T /\ (address <> 0 -> forall s, vm_map_copy_validate_size s address size = true)
  | OtherDescriptor _ => False
  | PortDescriptor _ _ | OolPortsDescriptor _ _ _ => True
  end.

(** What the receiver sees of it *)
Definition delivered (d : mach_msg_descriptor) (ud : user_descriptor) : Prop :=
  match d, ud with
  | PortDescriptor _ disposition, UPort _ disposition' => disposition' = disposition
  | OolDescriptor type _ size copy, UOol type' _ size' deallocate copy' =>
    type' = type /\ (size' = size \/ size' = 0) /\ deallocate = (copy =? MACH_MSG_VIRTUAL_COPY) /\ copy' = copy
  | OolPortsDescriptor _ disposition objects, UOolPorts _ count disposition' deallocate copy =>
    count = Z.of_nat (length objects) /\ disposition' = disposition /\ deallocate = true /\ copy = MACH_MSG_VIRTUAL_COPY
  | _, _ => False
  end.

(** The codes for memory that could not be mapped, and addresses as the receiver sees them *)
Definition vm_code (kr : kern_return_t) : Z :=
  if bool_decide (kr = KERN_RESOURCE_SHORTAGE) then MACH_MSG_VM_KERNEL else MACH_MSG_VM_SPACE.
Definition out_address (wide : bool) (addr : Z) : Z := if wide then addr else u32 addr.

(** How a descriptor goes out: with which code, names and addresses, and what that does to the
    kernel.  Where there is no memory for an array of names, its rights are given up. *)
Definition handed_out (d : mach_msg_descriptor) (ud : user_descriptor) (mr : Z) (s s' : kstate) : Prop :=
  match d, ud with
  | PortDescriptor o disposition, UPort told _ =>
    exists name, right_out o disposition (mr, name) s s' /\
      told = (if current_task_is_kernel then CAST_MACH_NAME_TO_PORT name else CAST_MACH_PORT_TO_NAME name)
  | OolDescriptor _ address size _, UOol _ addr size' _ _ =>
    unmoved s s' /\
    if address =? 0 then mr = MACH_MSG_SUCCESS /\ addr = 0 /\ size' = 0
    else exists s0, unmoved s s0 /\
      match vm_map_copyout s0 address with
      | inr there => mr = MACH_MSG_SUCCESS /\ addr = out_address (current_task_is_kernel || is_task_64bit) there /\ size' = size
      | inl kr => mr = vm_code kr /\ addr = 0 /\ size' = 0
      end
  | OolPortsDescriptor _ disposition objects, UOolPorts addr count _ _ _ =>
    if count =? 0 then mr = MACH_MSG_SUCCESS /\ addr = 0 /\ unmoved s s'
    else exists s0, unmoved s s0 /\
      match mach_vm_allocate s0 (count * sizeof_mach_port_name) with
      | inr there => addr = out_address is_task_64bit there /\
          exists names mr1 s1, rights_out disposition objects names MACH_MSG_SUCCESS mr1 s s1 /\ unmoved s1 s' /\
            CopyOutMap there names ∈ ks_log s' /\
            mr = (if vm_copyoutmap s1 there names then mr1 else Z.lor mr1 MACH_MSG_VM_SPACE)
      | inl kr => mr = vm_code kr /\ addr = 0 /\ ks_spaces s' = ks_spaces s
      end
  | _, _ => False
  end.

(** The last descriptor goes first. *)
Fixpoint all_out (ds : list mach_msg_descriptor) (uds : list user_descriptor) (mr : Z) (s s' : kstate) : Prop :=
  match ds, uds with
  | [], [] => mr = MACH_MSG_SUCCESS /\ unmoved s s'
  | d :: ds, ud :: uds =>
    exists mr1 mr2 s1, all_out ds uds mr1 s s1 /\ delivered d ud /\ handed_out d ud mr2 s1 s' /\ mr = Z.lor mr1 mr2
  | _, _ => False
  end.

Lemma all_out_delivered ds : forall uds mr s s', all_out ds uds mr s s' -> Forall2 delivered ds uds.
Proof.
  induction ds as [|d ds IH]; intros [|ud uds] mr s s' H; simpl in H; try done.
  destruct H as (mr1 & mr2 & s1 & H & Hd & _). constructor; [done|by eapply IH].
Qed.

Lemma rights_out_unmoved d objects : forall names mr mr' s s1 s2,
  rights_out d objects names mr mr' s s1 -> unmoved s1 s2 -> rights_out d objects names mr mr' s s2.
Proof using.
  induction objects as [|o objects IH]; intros [|name names] mr mr' s s1 s2 H H12; simpl in *; try done.
  - destruct H as [-> H]. split; [done|by etrans].
  - destruct H as (mr1 & s3 & Ho & H). exists mr1, s3. split; [done|by eapply IH].
Qed.

Lemma handed_out_unmoved d ud mr s s1 s2 : handed_out d ud mr s s1 -> unmoved s1 s2 -> handed_out d ud mr s s2.
Proof using.
  intros H H12. destruct d, ud; simpl in *; try done.
  - destruct H as (name' & (s3 & s4 & H3 & Ho & H4) & Hn). exists name'. split; [|done]. exists s3, s4. split; [done|].
    split; [done|by etrans].
  - destruct H as [H1 H]. split; [by etrans|done].
  - destruct (_ =? 0); [destruct H as (? & ? & ?); split; [done|]; split; [done|by etrans]|].
    destruct H as (s0 & Hs0 & H). exists s0. split; [done|]. destruct (mach_vm_allocate _ _) as [kr|there].
    + destruct H as (? & ? & E). split_and!; [done..|]. destruct H12 as (_ & F & _). congruence.
    + destruct H as (? & names & mr1 & s3 & Hr & H31 & Hin & Hmr). split; [done|]. exists names, mr1, s3.
      split; [done|]. split; [by etrans|]. split; [|done]. destruct H12 as (_ & _ & [es ->]). apply elem_of_app. by left.
Qed.

Lemma all_out_unmoved ds uds mr s s1 s2 : all_out ds uds mr s s1 -> unmoved s1 s2 -> all_out ds uds mr s s2.
Proof using.
  destruct ds, uds; simpl; try done.
  - intros [-> H] H12. split; [done|by etrans].
  - intros (mr1 & mr2 & s3 & H & Hd & Ho & ->) H12. exists mr1, mr2, s3. split_and!; [done|done|by eapply handed_out_unmoved|done].
Qed.

Definition out_size (d : mach_msg_descriptor) : Z :=
  match d with
  | PortDescriptor _ _ => if current_task_is_kernel then 16 else 12
  | OolDescriptor _ _ _ _ => if current_task_is_kernel then 16 else if is_task_64bit then 16 else 12
  | OolPortsDescriptor _ _ _ => (if current_task_is_kernel then 16 else 0) + (if is_task_64bit then 16 else 12)
  | OtherDescriptor _ => 0
  end.

Lemma aside_log s T e Q :
  aside k m s T -> event_rights e = [] -> ready a s -> (forall s', aside k m s' T -> ready a s' -> s' = set_ks_log (ks_log s ++ [e]) s -> Q tt s') -> wp (log e) s Q.
Proof.
  intros [Hk HK] He Hr HQ. unfold log. wp_step. apply HQ; [|by destruct Hr|done]. split; [done|].
  change (kwf (set_ks_log (ks_log (without k s) ++ [e]) (without k s)) T). apply dk_kwf, dk_logged, dk_kwf.
  eapply kwf_proper; [done| |exact HK]. intros r. unfold plus. simpl. rewrite He. simpl. lia.
Qed.

Lemma aside_copyout_ool s T type address size copy Q :
  aside k m s T -> ready a s -> deliverable (OolDescriptor type address size copy) ->
  (forall mr ud s', aside k m s' T -> ready a s' -> delivered (OolDescriptor type address size copy) ud ->
    handed_out (OolDescriptor type address size copy) ud mr s s' ->
    Q (mr, ud, out_size (OolDescriptor type address size copy)) s') ->
  wp (ipc_kmsg_copyout_ool_descriptor type address size copy) s Q.
Proof using.
  intros HA Hr [Hc Hval] HQ. unfold ipc_kmsg_copyout_ool_descriptor. wp_step. wp_step; [by apply negb_true_iff, Z.eqb_neq|].
  apply wp_bind. apply (wp_mono _ _ (fun '(mr, there, size') s' => aside k m s' T /\ ready a s' /\ (size' = size \/ size' = 0) /\
    handed_out (OolDescriptor type address size copy)
      (UOol type (out_address (current_task_is_kernel || is_task_64bit) there) size' (copy =? MACH_MSG_VIRTUAL_COPY) copy) mr s s')).
  - intros [[mr addr] size'] s' (HA' & Hr' & Hs' & Ho). cbv zeta. wp_step. unfold out_address in Ho.
    destruct current_task_is_kernel eqn:E1; [|destruct is_task_64bit eqn:E2];
      match goal with |- _ (?mr, ?ud, ?n) _ => replace n with (out_size (OolDescriptor type address size copy));
      [apply (HQ mr ud); [done|done|by split_and!|exact Ho]|by unfold out_size; rewrite ?E1, ?E2] end.
  - assert (Hzero : forall wide, out_address wide 0 = 0) by (by intros []). cbn [handed_out].
    destruct (Z.eqb_spec address 0) as [->|Ha]; cbn [negb].
    { wp_step. rewrite Hzero. split; [done|]. split; [done|]. split; [by right|]. by split. }
    apply wp_bind, wp_get. rewrite Hval by done. cbn [negb]. destruct (vm_map_copyout s address) as [kr|addr] eqn:Hmap.
    + apply wp_bind. eapply aside_log; [done|done|done|]. intros s1 HA1 Hr1 ->. wp_step. split; [done|]. split; [done|]. split; [by right|].
      split; [apply unmoved_log|]. exists s. split; [done|]. by rewrite Hmap, Hzero.
    + wp_step. split; [done|]. split; [done|]. split; [by left|]. split; [done|]. exists s. split; [done|]. by rewrite Hmap.
Qed.

Lemma aside_clean_descriptor s T c d Q :
  aside k m s (T ⊕ descriptor_rights c d) -> hand_ok T -> descriptor_ok d -> ready a s ->
  (forall s', aside k m s' T -> ready a s' -> ks_spaces s' = ks_spaces s -> Q tt s') -> wp (ipc_kmsg_clean_body [d]) s Q.
Proof using.
  intros [Hk HK] HT Hd Hr HQ. eapply (wp_aside _ k m); [apply ob_clean_body, ob_destroy|done|].
  unfold ipc_kmsg_clean_body. pose proof Hr as Hr0. apply ready_without in Hr0.
  eapply (dk_clean_body _ _ mode_top _ destroys_top c [d] (without k s) Rest T); [|done|by constructor|by split; [|apply Hr]| |].
  - simpl. rewrite app_nil_r. by apply dk_kwf.
  - intros _. apply Hr.
  - intros s' HD' Hsw Hk'. apply HQ; [apply aside_put; [done|by apply dk_kwf]| |apply Hsw].
    apply ready_without. rewrite without_with by done. by eapply ready_swept.
Qed.

Lemma aside_copyout_descriptor s T c d Q :
  aside k m s (T ⊕ descriptor_rights c d) -> hand_ok T -> foreign a T -> descriptor_ok d -> deliverable d -> ready a s ->
  (forall mr ud s', aside k m s' T -> ready a s' -> delivered d ud -> handed_out d ud mr s s' -> Q (mr, ud, out_size d) s') ->
  wp (copyout_descriptor a d) s Q.
Proof using Hsz Hvm.
  intros HA HT Hf Hok Hdel Hr HQ. destruct d as [o disp|type address size copy|address disp objects|type];
    cbn [copyout_descriptor descriptor_rights descriptor_ok] in *; [| | |done].
  - unfold ipc_kmsg_copyout_port_descriptor. apply wp_bind. eapply aside_copyout_object; [exact HA|done|done|done|done|].
    intros [mr name] s' HA' Hr' Hout.
    assert (Ho : right_out o disp (mr, name) s s') by (by exists (without k s), (without k s')). wp_step. destruct current_task_is_kernel eqn:E;
      match goal with |- _ (?mr, ?ud, ?n) _ => replace n with (out_size (PortDescriptor o disp));
      [apply (HQ mr ud); [done|done|done|cbn [handed_out]; exists name; rewrite ?E; split; [exact Ho|done]]|by unfold out_size; rewrite E] end.
  - eapply aside_copyout_ool; [|done|done|exact HQ]. eapply aside_ext; [exact HA|]. intros r. unfold plus. simpl. lia.
  - unfold ipc_kmsg_copyout_ool_ports_descriptor. cbv zeta. apply wp_bind.
    apply (wp_mono _ _ (fun '(mr, there) s' => aside k m s' T /\ ready a s' /\ handed_out (OolPortsDescriptor address disp objects)
      (UOolPorts (out_address is_task_64bit there) (Z.of_nat (length objects)) disp true MACH_MSG_VIRTUAL_COPY) mr s s')).
    { intros [mr addr] s' (HA' & Hr' & Ho). wp_step.
      apply (HQ mr (UOolPorts _ (Z.of_nat (length objects)) disp true MACH_MSG_VIRTUAL_COPY)); [done|done|by split_and!|done]. }
    assert (Hzero : forall wide, out_address wide 0 = 0) by (by intros []). cbn [handed_out].
    destruct Hok as [Haddr Hok]. destruct objects as [|o objects].
    { apply wp_ret. split; [|by rewrite Hzero]. eapply aside_ext; [exact HA|]. intros r. unfold plus. simpl. lia. }
    rewrite (proj2 (Z.eqb_neq (Z.of_nat _) 0)) by (simpl; lia). rewrite (proj2 (Z.eqb_neq _ 0)) by (unfold sizeof_mach_port; simpl; lia).
    rewrite (proj2 (Z.eqb_neq address 0)) by (by apply Haddr). cbn [negb andb]. apply wp_bind, wp_get.
    destruct (mach_vm_allocate _ _) as [kr|addr] eqn:Hall.
    + apply wp_bind. eapply (aside_clean_descriptor s T c); [exact HA|done|by split|done|]. intros s' HA' Hr' Hsp. wp_step.
      split; [done|]. split; [done|]. exists s. split; [done|]. by rewrite Hall, Hzero.
    + rewrite (proj2 (Z.eqb_neq addr 0)) by (by eapply Hvm). apply wp_bind.
      eapply aside_copyout_ports; [exact HA|done|done|done|done|]. intros mr names s1 HA1 Hr1 Hout. apply wp_bind, wp_get.
      apply wp_bind. eapply aside_log; [done|done|done|]. intros s2 HA2 Hr2 E2. apply wp_bind. eapply aside_log; [done|done|done|].
      intros s3 HA3 Hr3 E3. wp_step. split; [done|]. split; [done|]. exists s. split; [done|]. rewrite Hall. split; [done|].
      assert (H13 : unmoved s1 s3) by (subst; etrans; apply unmoved_log).
      exists names, mr, s1. split; [done|]. split; [done|]. split; [|done]. rewrite E3, E2. simpl. set_solver.
Qed.

Lemma aside_copyout_descriptors c ds : forall s T Q,
  aside k m s (T ⊕ (ds ≫= descriptor_rights c)) -> hand_ok T -> foreign a T -> Forall descriptor_ok ds -> Forall deliverable ds ->
  ready a s ->
  (forall mr uds s', aside k m s' T -> ready a s' -> all_out ds uds mr s s' ->
    Q (mr, uds, foldr (fun d n => n + out_size d) 0 ds) s') ->
  wp (copyout_descriptors a ds) s Q.
Proof using Hsz Hvm.
  induction ds as [|d ds IH]; intros s T Q HA HT Hf Hok Hdel Hr HQ; cbn [copyout_descriptors foldr] in *.
  { wp_step. apply HQ; [|done|done]. eapply aside_ext; [exact HA|]. intros r. unfold plus. simpl. lia. }
  apply Forall_cons in Hok as [Hd Hds]. apply Forall_cons in Hdel as [Hl Hls].
  apply wp_bind. eapply (IH _ (T ⊕ descriptor_rights c d)); [| | |done|done|done|].
  - eapply aside_ext; [exact HA|]. intros r. unfold plus. rewrite bind_cons, cnt_app. lia.
  - apply hand_ok_plus; [done|apply backed_descriptor].
  - apply foreign_plus; [done|]. destruct d; simpl; [apply movable_carried|constructor| |constructor].
    apply movable_bind. intros. apply movable_carried.
  - intros mr uds s1 HA1 Hr1 Hall. apply wp_bind. eapply aside_copyout_descriptor; [exact HA1|done|done|done|done|done|].
    intros mr1 ud s2 HA2 Hr2 Hud Hout. wp_step. apply HQ; [done|done|by exists mr, mr1, s1].
Qed.

(** The message once its body is out *)
Definition emptied : ipc_kmsg :=
  set_msgh_size (u32 (msgh_size m - (16 * Z.of_nat (length (msgh_descriptors m))
    - foldr (fun d n => n + out_size d) 0 (msgh_descriptors m)))) (set_msgh_descriptors [] m).

Lemma aside_copyout_body c s T Q :
  aside k m s (T ⊕ (msgh_descriptors m ≫= descriptor_rights c)) -> hand_ok T -> foreign a T -> ready a s ->
  Forall descriptor_ok (msgh_descriptors m) -> Forall deliverable (msgh_descriptors m) ->
  (forall mr uds s', aside k emptied s' T -> ready a s' -> all_out (msgh_descriptors m) uds mr s s' -> Q (mr, uds) s') ->
  wp (ipc_kmsg_copyout_body k a) s Q.
Proof using Hsz Hvm.
  intros HA HT Hf Hr Hok Hdel HQ. unfold ipc_kmsg_copyout_body. apply wp_bind, (wp_ikm_get k m); [apply HA|]. cbv zeta. apply wp_bind.
  eapply (aside_copyout_descriptors c); [exact HA|done..|]. intros mr uds s1 HA1 Hr1 Hall.
  apply wp_bind. eapply aside_mod; [exact HA1|]. intros s2 HA2 Hw. wp_step. apply HQ; [done| |].
  - apply ready_without. rewrite Hw. by apply ready_without.
  - eapply all_out_unmoved; [exact Hall|by eapply unmoved_without].
Qed.

Lemma wf_copyout_body s T :
  kwf s (T ⊕ [RMsg k]) -> hand_ok T -> foreign a T -> ready a s -> ks_kmsgs s !! k = Some m ->
  has (msgh_bits m) MACH_MSGH_BITS_COMPLEX = true -> Forall deliverable (msgh_descriptors m) ->
  wp (ipc_kmsg_copyout_body k a) s (fun r s' =>
    kwf s' (T ⊕ [RMsg k]) /\ ready a s' /\ all_out (msgh_descriptors m) r.2 r.1 s s' /\ ks_kmsgs s' !! k = Some emptied).
Proof using Hsz Hvm.
  intros HK HT Hf Hr Hk Hc Hdel. pose proof (oo_kmsgs _ (kw_objects _ _ HK) _ _ Hk) as Hok.
  set (c := has (msgh_bits m) MACH_MSGH_BITS_CIRCULAR).
  eapply (aside_copyout_body c s (T ⊕ kmsg_rights emptied)); [| | |done|apply Hok|done|].
  - eapply aside_ext; [by apply aside_start|]. intros r. unfold plus, kmsg_rights, emptied.
    cbn [msgh_bits msgh_remote_port msgh_local_port ikm_voucher ikm_prealloc msgh_descriptors set_msgh_size set_msgh_descriptors].
    rewrite Hc, !cnt_app. fold c. cbn [when]. simpl. lia.
  - apply hand_ok_plus; [done|apply backed_kmsg].
  - apply foreign_plus; [done|apply movable_kmsg].
  - intros mr uds s1 HA1 Hr1 Hall. assert (Hok' : kmsg_ok emptied) by (destruct Hok; by split).
    split_and!; [by eapply aside_end|done|done|apply HA1].
Qed.

Lemma copyout_size_fold ds : forall n,
  current_task_is_kernel = false -> Forall deliverable ds ->
  u32 (fold_left (fun size d => u32 (size - descriptor_shrinks d)) ds (u32 n)) =
  u32 (n - (16 * Z.of_nat (length ds) - foldr (fun d n => n + out_size d) 0 ds)).
Proof.
  induction ds as [|d ds IH]; intros n Hk Hd; cbn [fold_left foldr length].
  { unfold u32. rewrite Zmod_mod. f_equal. lia. }
  apply Forall_cons in Hd as [Hd Hds].
  assert (Hs : descriptor_shrinks d = 16 - out_size d).
  { destruct d; simpl in *; rewrite ?Hk; try done; by destruct is_task_64bit. }
  rewrite Hs. replace (u32 (u32 n - (16 - out_size d))) with (u32 (n - (16 - out_size d))).
  - rewrite IH by done. f_equal. lia.
  - unfold u32. by rewrite Zminus_mod_idemp_l.
Qed.

Lemma u32_u32 n : u32 (u32 n) = u32 n.
Proof. unfold u32. apply Zmod_mod. Qed.

Lemma copyout_size_u32 ds : forall n, u32 n = n ->
  u32 (fold_left (fun size d => u32 (size - descriptor_shrinks d)) ds n) =
  fold_left (fun size d => u32 (size - descriptor_shrinks d)) ds n.
Proof. induction ds as [|d ds IH]; intros n Hn; simpl; [done|]. apply IH, u32_u32. Qed.

Lemma emptied_size :
  current_task_is_kernel = false -> has (msgh_bits m) MACH_MSGH_BITS_COMPLEX = true -> Forall deliverable (msgh_descriptors m) ->
  ipc_kmsg_copyout_size m = u32 (msgh_size emptied - LEGACY_HEADER_SIZE_DELTA).
Proof.
  intros Hk Hc Hd. unfold ipc_kmsg_copyout_size. rewrite Hc.
  rewrite <- (copyout_size_u32 (msgh_descriptors m) _ (u32_u32 _)), copyout_size_fold by done. unfold emptied. simpl. unfold u32.
  rewrite Zminus_mod_idemp_l. f_equal. lia.
Qed.
End body_out.

(** Copying out one right of a message: [ipc_kmsg_copyout_object] consumes the right in
    every case.  The receiver gets a name of the port in its space, [MACH_PORT_DEAD] for a dead
    port, or [MACH_PORT_NULL] with an error code when the space could not take the right, which
    is then given up: a receive right is destroyed.  The kernel is balanced without it. *)
Theorem ipc_kmsg_copyout_object_correct {env : ipc_env} s T a c d o :
  sizes_ok ipc_table_entries -> kwf s (T ⊕ carried_rights c d o) -> hand_ok T -> foreign a T ->
  (IO_VALID o = true -> d ∈ dispositions) -> ready a s ->
  wp (ipc_kmsg_copyout_object a o d) s (fun r s' => kwf s' T /\ object_out s a o d r s').
Proof.
  intros. eapply wp_mono; [|by eapply wf_copyout_object]. cbv beta. by intros r s' (? & _ & ?).
Qed.

(** Copying out the body of a message, whatever its ports and memory: every right the body
    carries goes to the receiver's space or is given up, also where memory runs out half-way;
    the message keeps its header, and the kernel is balanced.  The receiver sees one
    descriptor for each, of the same kind, disposition and count, and each name in them stands
    for the object in the receiver's space at the moment it was copied out. *)
Theorem ipc_kmsg_copyout_body_correct {env : ipc_env} {vm : vm_env} s T a k m :
  sizes_ok ipc_table_entries -> (forall s n addr, mach_vm_allocate s n = inr addr -> addr <> 0) ->
  kwf s (T ⊕ [RMsg k]) -> hand_ok T -> foreign a T -> ready a s -> ks_kmsgs s !! k = Some m ->
  has (msgh_bits m) MACH_MSGH_BITS_COMPLEX = true -> Forall deliverable (msgh_descriptors m) ->
  wp (ipc_kmsg_copyout_body k a) s (fun r s' =>
    kwf s' (T ⊕ [RMsg k]) /\ all_out a (msgh_descriptors m) r.2 r.1 s s' /\
    exists m', ks_kmsgs s' !! k = Some m' /\ msgh_descriptors m' = [] /\ msgh_remote_port m' = msgh_remote_port m).
Proof.
  intros. eapply wp_mono; [|by eapply wf_copyout_body]. cbv beta. intros r s' (? & _ & ? & Hk). split_and!; [done|done|].
  by eexists.
Qed.

(** C16 [ipc_kmsg_copyout_size], by which a receiver's buffer is measured before anything is
    copied out, is right for a complex message that a task other than the kernel's receives:
    it is the size the message has once its body is copied out, whether or not its rights and
    memory could be, less the [LEGACY_HEADER_SIZE_DELTA] by which the kernel's header,
    with pointers for ports, is larger than the user's. *)
Theorem ipc_kmsg_copyout_size_correct {env : ipc_env} {vm : vm_env} s T a k m :
  sizes_ok ipc_table_entries -> (forall s n addr, mach_vm_allocate s n = inr addr -> addr <> 0) ->
  kwf s (T ⊕ [RMsg k]) -> hand_ok T -> foreign a T -> ready a s -> ks_kmsgs s !! k = Some m ->
  has (msgh_bits m) MACH_MSGH_BITS_COMPLEX = true -> Forall deliverable (msgh_descriptors m) ->
  current_task_is_kernel = false ->
  wp (ipc_kmsg_copyout_body k a) s (fun _ s' =>
    exists m', ks_kmsgs s' !! k = Some m' /\ ipc_kmsg_copyout_size m = u32 (msgh_size m' - LEGACY_HEADER_SIZE_DELTA)).
Proof.
  intros. eapply wp_mono; [|by eapply wf_copyout_body]. cbv beta. intros r s' (_ & _ & _ & Hk). eexists. split; [exact Hk|].
  by apply emptied_size.
Qed.

(** ** A message arrives *)
Module BodyExample.
Import Sample DestroyExample CopyoutExample.

#[export] Instance sample_vm : vm_env := {
  is_task_64bit := true;
  current_task_is_kernel := false;
  msg_ool_size_small := 8192;
  vm_allocate_copy_map := fun _ _ => Some 0x10000;
  vm_copyin := fun _ _ _ => true;
  vm_map_copyin := fun _ _ addr _ _ => inr addr;
  vm_copyinmap := fun _ _ length => if length =? 8 then Some [0x204; 0] else None;
  vm_map_copy_validate_size := fun _ _ _ => true;
  vm_map_copyout := fun _ copy => inr copy;
  mach_vm_allocate := fun _ _ => inr 0x10000;
  vm_copyoutmap := fun _ _ _ => true;
}.

Lemma sample_allocate s n addr : mach_vm_allocate s n = inr addr -> addr <> 0.
Proof. intros H. injection H as H. lia. Qed.

Definition kernel_hand : right -> Z := hand [RRef 0x800; RLive 0x800; RHome 0x800 0 0].

Lemma kernel_hand_ok : hand_ok kernel_hand.
Proof. split; [intros r; apply cnt_nonneg|]. intros o. unfold kernel_hand, hand. cnt_simpl. destruct (decide _); lia. Qed.

Lemma kernel_hand_foreign : foreign 0x1000 kernel_hand.
Proof. split; intros; unfold kernel_hand, hand; cbn [cnt]; rewrite !ind_ne by congruence; done. Qed.

Lemma posted_ready : ready 0x1000 posted.
Proof. split; [by eexists|done..]. Qed.

(** The receive right of port 0x900 and a page out of line arrive in space 0x1000. *)
Lemma ipc_kmsg_copyout_body_witness :
  exists mr uds s', ipc_kmsg_copyout_body 0xa00 0x1000 posted = Ok ((mr, uds), s') /\ kwf s' (kernel_hand ⊕ [RMsg 0xa00]).
Proof.
  destruct (wp_inv _ _ _ (ipc_kmsg_copyout_body_correct posted kernel_hand 0x1000 0xa00 top_mail sample_sizes
    sample_allocate posted_kwf kernel_hand_ok kernel_hand_foreign posted_ready eq_refl eq_refl
    ltac:(by repeat constructor))) as ([mr uds] & s' & Hrun & HK & _). by exists mr, uds, s'.
Defined.

Lemma ipc_kmsg_copyout_size_witness :
  exists r s' m', ipc_kmsg_copyout_body 0xa00 0x1000 posted = Ok (r, s') /\ ks_kmsgs s' !! 0xa00 = Some m' /\
    ipc_kmsg_copyout_size top_mail = u32 (msgh_size m' - LEGACY_HEADER_SIZE_DELTA) /\
    msgh_size m' = 64 /\ ipc_kmsg_copyout_size top_mail = 64 - LEGACY_HEADER_SIZE_DELTA.
Proof.
  destruct (wp_inv _ _ _ (ipc_kmsg_copyout_size_correct posted kernel_hand 0x1000 0xa00 top_mail sample_sizes
    sample_allocate posted_kwf kernel_hand_ok kernel_hand_foreign posted_ready eq_refl eq_refl
    ltac:(by repeat constructor) eq_refl)) as (r & s' & Hrun & m' & Hm' & Hsize).
  exists r, s', m'. split; [exact Hrun|]. split; [exact Hm'|]. split; [exact Hsize|]. split; [|reflexivity].
  assert (Hs : match ipc_kmsg_copyout_body 0xa00 0x1000 posted with
               | Ok (_, s1) => option_map msgh_size (ks_kmsgs s1 !! 0xa00)
               | Fail _ => None
               end = Some 64) by (by vm_compute).
  rewrite Hrun, Hm' in Hs. by injection Hs.
Defined.

Lemma ipc_kmsg_copyout_object_witness :
  exists name s', ipc_kmsg_copyout_object 0x1000 0x800 MACH_MSG_TYPE_PORT_SEND busy = Ok ((MACH_MSG_SUCCESS, name), s') /\
    kwf s' (hand kept_rights).
Proof.
  destruct (wp_inv _ _ _ (ipc_kmsg_copyout_object_correct busy (hand kept_rights) 0x1000 true MACH_MSG_TYPE_PORT_SEND 0x800
    sample_sizes ltac:(rewrite carried_circular; exact busy_out) kept_hand
    ltac:(split; intros; unfold hand, kept_rights; cbn [cnt]; rewrite !ind_ne by congruence; done)
    ltac:(intros _; by left) ltac:(split; [by eexists|done..]))) as ([mr name] & s' & Hrun & HK & _).
  exists name, s'. split; [|done].
  assert (Hr : match ipc_kmsg_copyout_object 0x1000 0x800 MACH_MSG_TYPE_PORT_SEND busy with
               | Ok (r, _) => r.1
               | Fail _ => -1
               end = MACH_MSG_SUCCESS) by (by vm_compute).
  rewrite Hrun in Hr. simpl in Hr. by rewrite Hrun, Hr.
Defined.
End BodyExample.
