(* ===== verification/IpcSendOk.v ===== *)
(** * Bodies of messages on the way in (ipc_kmsg.c)

    Copying the body of a message in takes the rights it names from the sender's space, port by
    port, and puts receive rights in transit; when a right cannot be taken, or memory cannot be
    read, all that was taken, and the rights of the header, are given up again.  The kernel
    stays balanced either way. *)

From S2P Require Import IpcTypes IpcBits IpcHash IpcEntry IpcGrow IpcState IpcLedger IpcPort IpcRequest IpcDestroy IpcRight IpcObject MachPort IpcKmsg IpcGentle IpcFocus IpcSample IpcRightOk IpcDeltaOk IpcPortOk IpcCopyOk IpcDesk IpcDestroyOk IpcCircularOk IpcFrame IpcBodyOk.

(** ** The port whose receive right was copied in *)
Section limbo.
Context {env : ipc_env}.

Definition in_limbo_now (s : kstate) (o : Z) : Prop :=
  exists p, ks_ports s !! o = Some p /\ ip_destination p = IP_NULL /\ ip_tempowner p = true.

Lemma ip_mod_run o f s s' : ip_mod o f s = Ok (tt, s') -> exists p, ks_ports s !! o = Some p /\ s' = put_port s o (f p).
Proof.
  intros (p & s1 & H1 & H2)%bind_Ok. unfold ip_get in H1. destruct (ks_ports s !! o) as [q|] eqn:Ho; [|done].
  injection H1 as <- <-. injection H2 as <-. by exists q.
Qed.

Lemma portless_run {A} (m : K A) s a s' : m s = Ok (a, s') -> portless m -> ks_ports s' = ks_ports s.
Proof. intros H Hm. by eapply Hm. Qed.

(** The end of [copyin_move_receive] *)
Lemma limbo_run s o s' n :
  (_ ← ip_mod o (set_ip_destination IP_NULL);
   p ← ip_get o;
   (if negb (ip_tempowner p) then
      _ ← massert (ip_imp_task p =? IIT_NULL); _ ← ip_mod o (set_ip_tempowner true); mret (ip_impcount p)
    else mret 0)) s = Ok (n, s') -> in_limbo_now s' o.
Proof.
  intros ([] & s1 & (p & Hp & ->)%ip_mod_run & H1)%bind_Ok. rewrite (ip_get_bind _ _ (set_ip_destination IP_NULL p)) in H1
    by apply lookup_insert_eq. simpl in H1. destruct (ip_tempowner p) eqn:Ht; cbn [negb] in H1.
  - injection H1 as <- <-. eexists. split; [apply lookup_insert_eq|]. done.
  - apply bind_Ok in H1 as ([] & s2 & H1 & H2). destruct (_ =? _); [|done]. injection H1 as <-.
    apply bind_Ok in H2 as ([] & s3 & (q & Hq & ->)%ip_mod_run & H3). injection H3 as <- <-.
    simpl in Hq. rewrite lookup_insert_eq in Hq. injection Hq as <-. eexists. split; [apply lookup_insert_eq|]. done.
Qed.

Lemma move_receive_limbo a name i s c s' :
  copyin_move_receive a name i s = Ok (c, s') -> ci_kr c = KERN_SUCCESS -> in_limbo_now s' (ci_object c) /\ ci_release c = IP_NULL.
Proof.
  unfold copyin_move_receive. intros (e & s1 & _ & H)%bind_Ok Hc. cbv zeta in H. destruct (negb _); [by injection H as <- <-|].
  apply bind_Ok in H as (o & s2 & _ & H). apply bind_Ok in H as (request & s3 & _ & H).
  do 4 (apply bind_Ok in H as ([] & ? & _ & H)). 
  apply bind_Ok in H as ([] & s4 & H1 & H). apply bind_Ok in H as (p & s5 & H2 & H). apply bind_Ok in H as (n & s6 & H3 & H).
  injection H as <- <-. split; [|done]. eapply (limbo_run _ o _ n). unfold mbind, M_bind at 1. rewrite H1.
  unfold mbind, M_bind at 1. rewrite H2. exact H3.
Qed.

Lemma object_copyin_limbo a name s o s' :
  ipc_object_copyin a name MACH_MSG_TYPE_MOVE_RECEIVE s = Ok (inr o, s') -> in_limbo_now s' o.
Proof.
  unfold ipc_object_copyin. intros (found & s1 & _ & H)%bind_Ok. destruct found as [kr|i]; [done|].
  apply bind_Ok in H as (c & s2 & Hc & H). apply bind_Ok in H as (e & s3 & H3 & H). apply bind_Ok in H as ([] & s4 & H4 & H).
  apply bind_Ok in H as ([] & s5 & H5 & H). apply bind_Ok in H as ([] & s6 & H6 & H).
  destruct (decide (ci_kr c = KERN_SUCCESS)) as [Hkr|]; [|done]. apply bind_Ok in H as ([] & s7 & H7 & H8). injection H8 as <- <-.
  assert (Hin : in_limbo_now s2 (ci_object c) /\ ci_release c = IP_NULL).
  { unfold ipc_right_copyin in Hc. apply bind_Ok in Hc as (sp & s8 & _ & Hc). apply bind_Ok in Hc as ([] & s9 & _ & Hc).
    exact (move_receive_limbo _ _ _ _ _ _ Hc Hkr). }
  destruct Hin as [Hin Hrel]. rewrite Hrel in H6. injection H6 as <-.
  apply portless_run in H3; [|portless]. apply portless_run in H4; [|portless]. apply portless_run in H5; [|portless].
  apply portless_run in H7; [|portless]. unfold in_limbo_now in *. by rewrite H7, H5, H4, H3.
Qed.
End limbo.

(** ** What a message carries, piece by piece *)
Section loads.
Context {env : ipc_env}.

(** Descriptors that are done, and the objects of one that is being done *)
Definition load (circular : bool) (ds : list mach_msg_descriptor) (disp : Z) (objects : list Z) : list right :=
  (ds ≫= descriptor_rights circular) ++ (objects ≫= carried_rights circular disp).

Lemma backed_load circular ds disp objects : backed (load circular ds disp objects).
Proof. apply backed_app; apply backed_bind; intros; [apply backed_descriptor|apply backed_carried]. Qed.

Lemma cnt_load_nil r c ds disp disp' : cnt r (load c ds disp []) = cnt r (load c ds disp' []).
Proof. unfold load. by rewrite !cnt_app. Qed.

Lemma cnt_load_object r c ds disp objects o :
  cnt r (load c ds disp (objects ++ [o])) = cnt r (load c ds disp objects) + cnt r (carried_rights c disp o).
Proof. unfold load. rewrite bind_app, !cnt_app. simpl. rewrite app_nil_r. lia. Qed.

Lemma cnt_load_done r c ds d disp :
  cnt r (load c (ds ++ [d]) disp []) = cnt r (load c ds disp []) + cnt r (descriptor_rights c d).
Proof. unfold load. rewrite bind_app, !cnt_app. simpl. rewrite app_nil_r. lia. Qed.

(** Nobody has to know that a port is in transit. *)
Lemma kwf_loosen s T T' :
  kwf s T -> (forall r, match r with RTransit _ => T' r <= T r | _ => T' r = T r end) -> kwf s T'.
Proof.
  intros [HL HO HS] HT. split; [|done|done]. intros r. specialize (HL r). specialize (HT r).
  destruct r as [| | | | | | | | | |o|]; try (by rewrite HT). unfold accounts in *. cbn [target port_exact] in *.
  destruct (ks_ports s !! o); [unfold agree in *; lia|]. destruct (ks_psets s !! o); [simpl in *; lia|done].
Qed.

Lemma carried_loosen r c disp o :
  match r with
  | RTransit _ => cnt r (carried_rights true disp o) <= cnt r (carried_rights c disp o)
  | _ => cnt r (carried_rights true disp o) = cnt r (carried_rights c disp o)
  end.
Proof.
  unfold carried_rights. rewrite !cnt_app, andb_false_r. cbn [when cnt].
  destruct (_ && _); cbn [when cnt]; [|by destruct r; lia]. destruct r; try (rewrite ind_ne by done; lia).
  pose proof (ind_bound (RTransit port) (RTransit o)). lia.
Qed.

Lemma bind_loosen {A} (f g : A -> list right) l r :
  (forall x, match r with RTransit _ => cnt r (g x) <= cnt r (f x) | _ => cnt r (g x) = cnt r (f x) end) ->
  match r with RTransit _ => cnt r (l ≫= g) <= cnt r (l ≫= f) | _ => cnt r (l ≫= g) = cnt r (l ≫= f) end.
Proof.
  intros H. induction l as [|x l IH]; [by destruct r|]. specialize (H x). destruct r; rewrite !bind_cons, !cnt_app; lia.
Qed.

Lemma load_loosen r c ds disp objects :
  match r with
  | RTransit _ => cnt r (load true ds disp objects) <= cnt r (load c ds disp objects)
  | _ => cnt r (load true ds disp objects) = cnt r (load c ds disp objects)
  end.
Proof.
  unfold load. pose proof (bind_loosen (carried_rights c disp) (carried_rights true disp) objects r (carried_loosen r c disp)) as H1.
  assert (H2 : forall d, match r with
    | RTransit _ => cnt r (descriptor_rights true d) <= cnt r (descriptor_rights c d)
    | _ => cnt r (descriptor_rights true d) = cnt r (descriptor_rights c d) end).
  { intros [o d| | address d os|]; simpl; [apply carried_loosen|by destruct r| |by destruct r].
    apply bind_loosen. intros. apply carried_loosen. }
  pose proof (bind_loosen (descriptor_rights c) (descriptor_rights true) ds r H2) as H3.
  destruct r; rewrite !cnt_app; lia.
Qed.
End loads.

(** ** The sender *)
Section sender.
Context {env : ipc_env} (a : Z) (Ha : a <> IS_NULL).

(** The thread is not inside a destruction. *)
Definition quiet_thread (s : kstate) : Prop := ks_ith_messages s = [] /\ ks_ith_assertions s = 0.

(** The field [ip_imp_task] of a port the space receives from names no task, unless the port
    is temporarily owned: [ipc_right_copyin] asserts it of the receive rights it moves.  (The
    field shares its place with [ip_kobject], which ports of the kernel alone use.) *)
Definition unboosted (s : kstate) : Prop :=
  forall o p, ks_ports s !! o = Some p -> ip_active p = true -> ip_receiver_name p <> MACH_PORT_NULL -> ip_receiver p = a -> imp_free p.

Record sending (n : Z) (s : kstate) : Prop := {
  sg_sendable : sendable n s;
  sg_unboosted : unboosted s;
  sg_space : is_Some (ks_spaces s !! a);
  sg_thread : quiet_thread s;
}.

Lemma sending_without k n s : sending n (without k s) <-> sending n s.
Proof. split; (intros [[] ? ? ?]; split; [by split|done..]). Qed.

Lemma sending_mono n n' s : sending n s -> n' <= n -> sending n' s.
Proof.
  intros [[H1 H2 H4] ? ? ?] Hn. split; [|done..]. split; try done. intros o p Ho. specialize (H2 o p Ho). lia.
Qed.

(** A right the message's header has to its destination *)
Lemma dest_port s T dest :
  kwf s T -> hand_ok T -> 0 < T (RSend dest) \/ 0 < T (RSonce dest) -> is_Some (ks_ports s !! dest).
Proof.
  intros HK [HT Hdom] Hd. pose proof (fc_rest s 0 0 0 T HK) as HF. pose proof (Hdom dest).
  destruct Hd as [Hd|Hd].
  - destruct (fc_port _ _ _ _ _ _ _ _ _ HF dest (RSend dest)) as [p Hp]; [done|done|lia|done|]. by exists p.
  - destruct (fc_port _ _ _ _ _ _ _ _ _ HF dest (RSonce dest)) as [p Hp]; [done|done|lia|done|]. by exists p.
Qed.

Lemma copied_disposition s name msgt o s' : object_copied s a name msgt (inr o) s' -> ipc_object_copyin_type msgt ∈ dispositions.
Proof.
  intros (o1 & b & req & c & L1 & P1 & o' & b' & req' & _ & Hc & _ & _ & _ & Hr & _). unfold copied_in in Hc.
  destruct (Z.eqb_spec msgt MACH_MSG_TYPE_MAKE_SEND) as [->|]; [by left|].
  destruct (Z.eqb_spec msgt MACH_MSG_TYPE_MAKE_SEND_ONCE) as [->|]; [by right; left|].
  destruct (Z.eqb_spec msgt MACH_MSG_TYPE_MOVE_RECEIVE) as [->|]; [by right; right; left|].
  destruct (Z.eqb_spec msgt MACH_MSG_TYPE_COPY_SEND) as [->|]; [by left|].
  destruct (Z.eqb_spec msgt MACH_MSG_TYPE_MOVE_SEND) as [->|]; [by left|].
  destruct (Z.eqb_spec msgt MACH_MSG_TYPE_MOVE_SEND_ONCE) as [->|]; [by right; left|].
  destruct Hc as [-> _]. by destruct (decide _).
Qed.

Lemma copyin_type_receive msgt : ipc_object_copyin_type msgt = MACH_MSG_TYPE_PORT_RECEIVE -> msgt = MACH_MSG_TYPE_MOVE_RECEIVE.
Proof.
  unfold ipc_object_copyin_type. destruct (Z.eqb_spec msgt MACH_MSG_TYPE_MOVE_RECEIVE); [done|].
  by repeat case_match.
Qed.

(** The right a name of the sender stands for goes into the message as object [o]: it is
    copied in from the entry of the name, which is left with what the disposition leaves, no
    other entry changing; a receive right is then in transit to the destination, unless that
    would close a circle. *)
Definition shipped (dest disp o : Z) (circular : bool) (s s' : kstate) : Prop :=
  ks_spaces s' = ks_spaces s /\
  if disp =? MACH_MSG_TYPE_PORT_RECEIVE then
    (circular = true <-> exists l, path (ks_ports s) dest l o) /\
    (if circular then ks_ports s' = ks_ports s else departed (ks_ports s) o dest (ks_ports s'))
  else circular = false /\ ks_ports s' = ks_ports s.

Definition right_taken (dest name msgt o : Z) (circular : bool) (s s' : kstate) : Prop :=
  exists s0 s1, unmoved s s0 /\ object_copied s0 a name msgt (inr o) s1 /\ framed a (MACH_PORT_INDEX name) s0 s1 /\
    shipped dest (ipc_object_copyin_type msgt) o circular s1 s'.

(** Null and dead names stand for themselves. *)
Definition port_taken (dest name msgt o : Z) (circular : bool) (s s' : kstate) : Prop :=
  if MACH_PORT_VALID name then right_taken dest name msgt o circular s s'
  else o = CAST_MACH_NAME_TO_PORT name /\ circular = false /\ unmoved s s'.

Fixpoint ports_taken (dest msgt : Z) (names objects : list Z) (circular : bool) (s s' : kstate) : Prop :=
  match names, objects with
  | [], [] => circular = false /\ unmoved s s'
  | name :: names, o :: objects =>
    exists c1 c2 s1, port_taken dest name msgt o c1 s s1 /\ ports_taken dest msgt names objects c2 s1 s' /\ circular = c1 || c2
  | _, _ => False
  end.

Lemma right_taken_unmoved dest name msgt o c s1 s2 s3 s4 :
  unmoved s1 s2 -> right_taken dest name msgt o c s2 s3 -> unmoved s3 s4 -> right_taken dest name msgt o c s1 s4.
Proof.
  intros H12 (s0 & s5 & H20 & Hc & Hf & Hsp & Hs) (E1 & E2 & _). exists s0, s5. split_and!; [by etrans|done|done|].
  unfold shipped. by rewrite E1, E2.
Qed.

Lemma port_taken_unmoved dest name msgt o c s1 s2 s3 s4 :
  unmoved s1 s2 -> port_taken dest name msgt o c s2 s3 -> unmoved s3 s4 -> port_taken dest name msgt o c s1 s4.
Proof.
  unfold port_taken. intros H1 H H2. destruct (MACH_PORT_VALID name); [by eapply right_taken_unmoved|].
  destruct H as (? & ? & ?). split_and!; [done..|]. by repeat (etrans; [eassumption|]).
Qed.

Lemma ports_taken_unmoved dest msgt names : forall objects c s1 s2 s3 s4,
  unmoved s1 s2 -> ports_taken dest msgt names objects c s2 s3 -> unmoved s3 s4 -> ports_taken dest msgt names objects c s1 s4.
Proof.
  induction names as [|name names IH]; intros [|o objects] c s1 s2 s3 s4 H12 H H34; simpl in *; try done.
  - destruct H as [-> H]. split; [done|]. by repeat (etrans; [eassumption|]).
  - destruct H as (c1 & c2 & s5 & H1 & H2 & ->). exists c1, c2, s5. split_and!; [|by eapply IH|done].
    by eapply port_taken_unmoved.
Qed.

Lemma ports_taken_length dest msgt names : forall objects c s s',
  ports_taken dest msgt names objects c s s' -> length objects = length names.
Proof.
  induction names as [|name names IH]; intros [|o objects] c s s' H; simpl in *; try done.
  destruct H as (c1 & c2 & s1 & _ & H & _). f_equal. by eapply IH.
Qed.

Lemma unboosted_tame n s s' : unboosted s -> tame n (ks_ports s) (ks_ports s') -> unboosted s'.
Proof.
  intros H Ht o p' Ho Hact Hn Hr. destruct (Ht o p' Ho) as (p & Hp & []). destruct (tp_home Hact Hn) as [E1 E2].
  apply tp_imp, (H o); [done|auto|congruence|congruence].
Qed.

Lemma unboosted_departed s s' o dest :
  unboosted s -> departed (ks_ports s) o dest (ks_ports s') ->
  (forall p, ks_ports s !! o = Some p -> ip_receiver_name p = MACH_PORT_NULL) -> unboosted s'.
Proof.
  intros H (p & d & Hp & Hd & Hrc)%departed_recounted Hn x q' Hx Hact Hqn Hr.
  destruct (recounted_back _ _ _ _ Hrc Hx) as (q & v & Hq & ->). revert Hq. unfold linked_up. rewrite lookup_insert.
  destruct (decide (o = x)) as [<-|]; [intros [= <-]; by destruct Hqn; apply (Hn p)|]. rewrite lookup_insert.
  destruct (decide (dest = x)) as [<-|]; [intros [= <-]; by apply (H dest d)|]. intros Hq. by apply (H x q).
Qed.

(** One right is taken. *)
Lemma wf_take s T name msgt n :
  kwf s T -> hand_ok T -> 0 <= n -> sending (1 + n) s -> 0 <= name < 2 ^ 32 ->
  wp (ipc_object_copyin a name msgt) s (fun r s' => sending n s' /\
    match r with
    | inl _ => kwf s' T
    | inr o => let disp := ipc_object_copyin_type msgt in
      disp ∈ dispositions /\ kwf s' (T ⊕ disposition_rights disp o) /\
      (disp = MACH_MSG_TYPE_PORT_RECEIVE -> in_limbo_now s' o) /\
      object_copied s a name msgt (inr o) s' /\ framed a (MACH_PORT_INDEX name) s s'
    end).
Proof using Ha.
  intros HK HT Hn Hsd Hname. pose proof Hsd as [Hs Hub [sp Hsp] [Hq Hass]].
  assert (Hports : forall o b req p, named s a name (o, b, req) -> ks_ports s !! o = Some p ->
    ip_references p + 1 < IO_MAX_REFERENCES /\
    (msgt = MACH_MSG_TYPE_MOVE_RECEIVE -> has b MACH_PORT_TYPE_RECEIVE = true -> ip_tempowner p = true \/ ip_imp_task p = IIT_NULL)).
  { intros o b req p Hnm Ho. pose proof (sd_refs _ _ Hs o p Ho). split; [lia|]. intros _ Hb.
    destruct (holding_receive _ _ _ _ eq_refl _ _ _ _ _ _ _ p (proj1 HT) (holding_start s a name T o b req HK Hnm) Hb Ho) as (? & ? & E & ?).
    apply (Hub o p); [done|done|by rewrite E|done]. }
  destruct (wp_inv _ _ _ (wf_object_copyin s T a sp name msgt HK HT Hsp Ha Hname Hports)) as (r & s' & Hrun & Hpost).
  eapply wp_Ok; [exact Hrun|]. destruct Hpost as [(_ & -> & ->)|[(_ & -> & ->)|(Hc & Hfr & HK')]].
  - split; [by apply (sending_mono (1 + n)); [|lia]|done].
  - split; [by apply (sending_mono (1 + n)); [|lia]|done].
  - pose proof Hfr as (_ & _ & [F1 F2] & Hoth & Hkept).
    pose proof (gentle_object_copyin _ _ _ _ _ _ Hrun) as Hgentle.
    assert (Hspaces : forall b, is_Some (ks_spaces s !! b) -> is_Some (ks_spaces s' !! b)).
    { intros b Hb. destruct (decide (b = a)) as [->|Hne]; [|by rewrite Hoth]. rewrite Hsp in Hkept. inversion Hkept. by eexists. }
    split.
    + split; [by eapply (sendable_tame 1)|by eapply unboosted_tame|by apply Hspaces; eexists|split; congruence].
    + destruct r as [kr|o]; [eapply kwf_proper; [done| |exact HK']; intros r; unfold plus; simpl; lia|].
      split_and!; [by eapply copied_disposition|done| |done|done]. intros Hd. apply copyin_type_receive in Hd as ->.
      by eapply object_copyin_limbo.
Qed.

(** ** With the message in hand *)
Section message.
Context (k : Z) (m0 : ipc_kmsg) (Hplain : has (msgh_bits m0) MACH_MSGH_BITS_CIRCULAR = false).
Context (B : right -> Z) (HB : hand_ok B) (dest : Z) (Hdest : 0 < B (RSend dest) \/ 0 < B (RSonce dest)).

(** The message, circular or not *)
Definition circle (m : ipc_kmsg) : ipc_kmsg := set_msgh_bits (Z.lor (msgh_bits m) MACH_MSGH_BITS_CIRCULAR) m.
Definition marked (circular : bool) : ipc_kmsg := if circular then circle m0 else m0.

Lemma circle_marked b : circle (marked b) = marked true.
Proof. destruct b; [|done]. unfold marked, circle. simpl. by rewrite <- Z.lor_assoc, Z.lor_diag. Qed.

Lemma marked_circular b : has (msgh_bits (marked b)) MACH_MSGH_BITS_CIRCULAR = b.
Proof using Hplain.
  destruct b; [|done]. unfold marked, circle, has. simpl. rewrite Z.land_lor_distr_l. apply negb_true_iff, Z.eqb_neq.
  intros H. apply Z.lor_eq_0_iff in H as [_ H]. done.
Qed.

Local Abbreviation carrying b s ds disp objects := (aside k (marked b) s (B ⊕ load b ds disp objects)).

Lemma hand_load b ds disp objects : hand_ok (B ⊕ load b ds disp objects).
Proof using HB. apply hand_ok_plus; [done|apply backed_load]. Qed.

Lemma aside_check b s ds disp objects o n Q :
  aside k (marked b) s (B ⊕ load b ds disp objects ⊕ disposition_rights disp o) -> 0 <= n -> sending (1 + n) s ->
  (disp = MACH_MSG_TYPE_PORT_RECEIVE -> in_limbo_now s o) ->
  (forall c s', carrying (c || b) s' ds disp (objects ++ [o]) -> sending n s' -> shipped dest disp o c s s' -> Q tt s') ->
  wp (circular ← (if disp =? MACH_MSG_TYPE_PORT_RECEIVE then ipc_port_check_circularity o dest else mret false);
      mwhen circular (ikm_mod k circle)) s Q.
Proof using All.
  intros HA Hn Hs Hlimbo HQ. apply wp_bind. destruct (Z.eqb_spec disp MACH_MSG_TYPE_PORT_RECEIVE) as [Hd|Hd].
  2:{ wp_step. cbn [mwhen]. wp_step. apply (HQ false); [|by apply (sending_mono (1 + n)); [|lia]|].
      - eapply aside_ext; [exact HA|]. intros r. unfold plus. cbn [orb]. rewrite cnt_load_object, carried_plain by done. lia.
      - split; [done|]. by rewrite (proj2 (Z.eqb_neq _ _) Hd). }
  subst disp. destruct (Hlimbo eq_refl) as (p & Ho & Hpd & Hpt). pose proof HA as [Hk HK]. pose proof (hand_load b ds MACH_MSG_TYPE_PORT_RECEIVE objects) as Hh.
  pose proof (proj2 (sending_without k _ _) Hs) as [Hsd Hub Hsp Hth].
  assert (Hex : is_Some (ks_ports (without k s) !! dest)).
  { eapply (dest_port _ _ dest HK); [by apply hand_ok_plus; [|apply backed_disposition]|].
    assert (Hge : forall r, B r <= (B ⊕ load b ds MACH_MSG_TYPE_PORT_RECEIVE objects ⊕ disposition_rights MACH_MSG_TYPE_PORT_RECEIVE o) r).
    { intros r. unfold plus. pose proof (cnt_nonneg r (load b ds MACH_MSG_TYPE_PORT_RECEIVE objects)).
      pose proof (cnt_nonneg r (disposition_rights MACH_MSG_TYPE_PORT_RECEIVE o)). lia. }
    destruct Hdest as [H|H]; [left|right]; (eapply Z.lt_le_trans; [exact H|apply Hge]). }
  eapply (wp_aside _ k (marked b)); [apply ob_check_circularity|done|].
  eapply wp_mono; [|eapply (wf_check_circularity (without k s) _ o dest p n HK Hh Hn Hsd Ho Hpd Hpt Hex)].
  cbv beta. intros circular s' [Hcirc Hpost] Hk'. destruct circular; cbn [mwhen].
  - subst s'. rewrite with_without by done. eapply aside_mod; [exact HA|]. intros s2 HA2 Hw.
    destruct (unmoved_without _ _ _ Hw) as (Ep & Es & _). apply (HQ true).
    + rewrite circle_marked in HA2. destruct HA2 as [Hk2 HK2]. cbn [orb]. split; [done|].
      eapply kwf_loosen; [exact HK2|]. intros r.
      unfold plus. rewrite cnt_load_object, carried_circular. pose proof (load_loosen r b ds MACH_MSG_TYPE_PORT_RECEIVE objects).
      destruct r; lia.
    + apply (sending_without k). rewrite Hw. apply sending_without. by apply (sending_mono (1 + n)); [|lia].
    + done.
  - destruct Hpost as (HK' & (E1 & E2 & E3 & E4 & E5) & Hs' & Hdep & _). wp_step. apply (HQ false).
    + cbn [orb]. apply aside_put; [done|]. eapply kwf_loosen; [exact HK'|]. intros r. unfold plus. rewrite cnt_load_object.
      pose proof (carried_loosen r false MACH_MSG_TYPE_PORT_RECEIVE o). destruct b; destruct r; lia.
    + apply (sending_without k). rewrite without_with by done. split; [done| |by rewrite E1|destruct Hth as [Hq1 Hq2]; split; congruence].
      eapply unboosted_departed; [exact Hub|exact Hdep|]. intros q Hq. by apply (limbo_port _ _ _ _ HK Hh Hq).
    + done.
Qed.

Lemma wp_assoc {A C D} (m : K A) (f : A -> K C) (g : C -> K D) s Q :
  wp (m ≫= f) s (fun c s' => wp (g c) s' Q) -> wp (m ≫= fun x => f x ≫= g) s Q.
Proof.
  unfold wp, mbind, M_bind. destruct (m s) as [[x s1]|]; [|done]. by destruct (f x s1) as [[c s2]|].
Qed.

Lemma aside_take {A} b s ds objects name msgt n (F : kern_return_t -> K A) (G : Z -> K A) Q :
  let disp := ipc_object_copyin_type msgt in
  carrying b s ds disp objects -> 0 <= n -> sending (2 + n) s -> 0 <= name < 2 ^ 32 ->
  (forall kr s', carrying b s' ds disp objects -> sending n s' -> wp (F kr) s' Q) ->
  (forall o c s', carrying (c || b) s' ds disp (objects ++ [o]) -> sending n s' -> disp ∈ dispositions ->
    right_taken dest name msgt o c s s' -> wp (G o) s' Q) ->
  wp (r ← ipc_object_copyin a name msgt;
      match r with
      | inl kr => F kr
      | inr o =>
        circular ← (if disp =? MACH_MSG_TYPE_PORT_RECEIVE then ipc_port_check_circularity o dest else mret false);
        _ ← mwhen circular (ikm_mod k (fun k => set_msgh_bits (Z.lor (msgh_bits k) MACH_MSGH_BITS_CIRCULAR) k));
        G o
      end) s Q.
Proof using All.
  intros disp [Hk HK] Hn Hs Hname HF HG. apply wp_bind. eapply (wp_aside _ k (marked b)); [apply ob_object_copyin|done|].
  replace (2 + n) with (1 + (1 + n)) in Hs by lia. pose proof (proj2 (sending_without k _ _) Hs) as Hs0.
  eapply wp_mono; [|apply (wf_take _ _ name msgt (1 + n) HK (hand_load _ _ _ _) ltac:(lia) Hs0 Hname)].
  cbv beta. intros r s' [Hs' Hr] Hk'.
  assert (Hs1 : sending (1 + n) (with_kmsg k (marked b) s')) by (apply (sending_without k); by rewrite without_with).
  destruct r as [kr|o].
  - apply HF; [by apply aside_put|by apply (sending_mono (1 + n)); [|lia]].
  - destruct Hr as (Hd & HK' & Hl & Hoc & Hfr). fold disp in Hd, HK', Hl.
    assert (Hw : wp (circular ← (if disp =? MACH_MSG_TYPE_PORT_RECEIVE then ipc_port_check_circularity o dest else mret false);
      mwhen circular (ikm_mod k circle)) (with_kmsg k (marked b) s') (fun _ s2 => wp (G o) s2 Q)).
    { eapply (aside_check b _ ds disp objects o n); [by apply aside_put|done|done|done|]. intros c s2 HA2 Hs2 Hsh.
      eapply HG; [done|done|done|]. by exists (without k s), s'. }
    exact (wp_assoc _ _ (fun _ => G o) _ _ Hw).
Qed.

(** *** Descriptors *)

Context {vm : vm_env}.

(** The copy that stands for memory out of line: none when there is no memory; otherwise one
    of the sender's memory itself, or of what was read into the kernel's copy map. *)
Definition memory_taken (s : kstate) (addr size : Z) (deallocate : bool) (address : Z) : Prop :=
  if size =? 0 then address = 0
  else vm_map_copyin false s addr size deallocate = inr address \/
       vm_copyin s addr size = true /\ exists paddr, vm_map_copyin true s paddr size true = inr address.

(** What a descriptor of the user becomes, and what that does to the kernel *)
Definition taken_as (ud : user_descriptor) (d : mach_msg_descriptor) (circular : bool) (s s' : kstate) : Prop :=
  match ud, d with
  | UPort name disp, PortDescriptor o disp' =>
    disp' = ipc_object_copyin_type disp /\ port_taken dest name disp o circular s s'
  | UOol type addr size deallocate copy, OolDescriptor type' address size' copy' =>
    type' = type /\ size' = size /\ copy' = copy /\ circular = false /\ unmoved s s' /\
    exists s0, unmoved s s0 /\ memory_taken s0 addr size deallocate address
  | UOolPorts addr count disp _ _, OolPortsDescriptor _ disp' objects =>
    disp' = ipc_object_copyin_type disp /\
    exists names, Z.of_nat (length names) = count /\ ports_taken dest disp names objects circular s s' /\
      (count <> 0 -> exists s0, unmoved s s0 /\ vm_copyinmap s0 addr (count * sizeof_mach_port_name) = Some names)
  | _, _ => False
  end.

Fixpoint all_taken (uds : list user_descriptor) (ds : list mach_msg_descriptor) (circular : bool) (s s' : kstate) : Prop :=
  match uds, ds with
  | [], [] => circular = false /\ unmoved s s'
  | ud :: uds, d :: ds => exists c1 c2 s1, taken_as ud d c1 s s1 /\ all_taken uds ds c2 s1 s' /\ circular = c1 || c2
  | _, _ => False
  end.

Lemma taken_as_unmoved ud d c s1 s2 s3 s4 : unmoved s1 s2 -> taken_as ud d c s2 s3 -> unmoved s3 s4 -> taken_as ud d c s1 s4.
Proof.
  intros H12 H H34. destruct ud, d; simpl in *; try done.
  - destruct H as [-> H]. split; [done|]. by eapply port_taken_unmoved.
  - destruct H as (? & ? & ? & ? & H & s0 & H0 & Hm). do 4 (split; [done|]). split; [etrans; [exact H12|]; etrans; [exact H|exact H34]|].
    exists s0. split; [by etrans|done].
  - destruct H as (? & names & Hl & H & Hn). split; [done|]. exists names. split_and!; [done|by eapply ports_taken_unmoved|].
    intros Hc. destruct (Hn Hc) as (s0 & Hs0 & Hr). exists s0. split; [by etrans|done].
Qed.

Lemma all_taken_unmoved uds : forall ds c s1 s2 s3 s4,
  unmoved s1 s2 -> all_taken uds ds c s2 s3 -> unmoved s3 s4 -> all_taken uds ds c s1 s4.
Proof.
  induction uds as [|ud uds IH]; intros [|d ds] c s1 s2 s3 s4 H12 H H34; simpl in *; try done.
  - destruct H as [-> H]. split; [done|]. by repeat (etrans; [eassumption|]).
  - destruct H as (c1 & c2 & s5 & H1 & H2 & ->). exists c1, c2, s5. split_and!; [|by eapply IH|done].
    by eapply taken_as_unmoved.
Qed.

(** Reading [length] bytes of names gives that many names of 32 bits. *)
Context (Hread : forall s addr length names, vm_copyinmap s addr length = Some names ->
  length = Z.of_nat (List.length names) * sizeof_mach_port_name /\ Forall (fun name => 0 <= name < 2 ^ 32) names).

(** The fields of a descriptor are unsigned; the names it stands for *)
Definition user_ok (ud : user_descriptor) : Prop :=
  match ud with UPort name _ => 0 <= name < 2 ^ 32 | UOolPorts _ count _ _ _ => 0 <= count | _ => True end.
Definition names_in (ud : user_descriptor) : Z :=
  match ud with UPort _ _ => 1 | UOolPorts _ count _ _ _ => count | _ => 0 end.

Lemma cast_invalid name : MACH_PORT_VALID name = false -> IO_VALID (CAST_MACH_NAME_TO_PORT name) = false.
Proof.
  unfold MACH_PORT_VALID, CAST_MACH_NAME_TO_PORT. destruct (Z.eqb_spec name MACH_PORT_DEAD) as [->|]; [done|].
  destruct (Z.eqb_spec name MACH_PORT_NULL) as [->|]; [done|]. done.
Qed.

Lemma aside_copyin_port b s ds name disp n Q :
  carrying b s ds 0 [] -> 0 <= n -> sending (2 + n) s -> 0 <= name < 2 ^ 32 ->
  (forall mr b' s', carrying b' s' ds 0 [] -> quiet_thread s' -> mr <> MACH_MSG_SUCCESS -> Q (inl mr) s') ->
  (forall c s' d, carrying (c || b) s' (ds ++ [d]) 0 [] -> sending n s' -> descriptor_ok d -> taken_as (UPort name disp) d c s s' ->
    Q (inr d) s') ->
  wp (ipc_kmsg_copyin_port_descriptor k a dest name disp) s Q.
Proof using All.
  intros HA Hn Hs Hname HF HG. unfold ipc_kmsg_copyin_port_descriptor. cbv zeta. set (rd := ipc_object_copyin_type disp).
  assert (HA' : carrying b s ds rd []) by (eapply aside_ext; [exact HA|]; intros r; unfold plus; by rewrite (cnt_load_nil r b ds rd 0)).
  destruct (MACH_PORT_VALID name) eqn:Hv.
  - eapply (aside_take b s ds [] name disp n); [exact HA'|done|done|done| |].
    + intros kr s' HA1 Hs1. wp_step. apply (HF _ b); [|apply Hs1|done]. eapply aside_ext; [exact HA1|]. intros r. unfold plus.
      by rewrite (cnt_load_nil r b ds 0 rd).
    + intros o c s' HA1 Hs1 Hd Ht. wp_step. apply (HG c); [|done|by intros _|split; [done|]; unfold port_taken; by rewrite Hv].
      eapply aside_ext; [exact HA1|]. intros r. unfold plus.
      fold rd. rewrite cnt_load_done. rewrite (cnt_load_object r (c || b) ds rd []), (cnt_load_nil r (c || b) ds 0 rd). simpl. lia.
  - wp_step. apply (HG false); [|by apply (sending_mono (2 + n)); [|lia]| |split; [done|]; unfold port_taken; by rewrite Hv].
    + eapply aside_ext; [exact HA|]. intros r. unfold plus. rewrite cnt_load_done. simpl.
      rewrite carried_invalid by (by apply cast_invalid). simpl. lia.
    + simpl. rewrite cast_invalid by done. done.
Qed.

Lemma quiet_sweeps s s' : quiet_thread s -> sweeps s s' -> quiet_thread s'.
Proof. intros [H1 H2] [Hsw Hq]. split; [auto|]. by rewrite (sw_thread _ _ Hsw). Qed.

(** The ports taken so far are given up. *)
Lemma aside_clean_ports b s ds disp objects Q :
  carrying b s ds disp objects -> (forall o, o ∈ objects -> IO_VALID o = true -> disp ∈ dispositions) -> quiet_thread s ->
  (forall s', carrying b s' ds disp [] -> quiet_thread s' -> Q tt s') -> wp (clean_ports ipc_port_destroy objects disp) s Q.
Proof using HB.
  intros [Hk HK] Hd Hq HQ. eapply (wp_aside _ k (marked b)); [apply ob_clean_ports, ob_destroy|done|].
  eapply (dk_clean_ports _ _ mode_top _ destroys_top b objects disp (without k s) Rest (B ⊕ load b ds disp []));
    [|apply hand_load|done|by split; [|apply Hq]|by intros _; apply Hq|].
  - apply dk_kwf. eapply kwf_proper; [done| |exact HK]. intros r. unfold plus, load. rewrite !cnt_app. simpl. lia.
  - intros s' HD Hsw Hk'. apply HQ; [apply aside_put; [done|by apply dk_kwf]|]. exact (quiet_sweeps (without k s) s' Hq Hsw).
Qed.

Lemma aside_copyin_ports ds msgt names : forall b s objects n Q,
  let disp := ipc_object_copyin_type msgt in
  carrying b s ds disp objects -> (forall o, o ∈ objects -> IO_VALID o = true -> disp ∈ dispositions) ->
  0 <= n -> sending (2 * Z.of_nat (length names) + n) s -> Forall (fun name => 0 <= name < 2 ^ 32) names ->
  (forall b' s', carrying b' s' ds disp [] -> quiet_thread s' -> Q None s') ->
  (forall c s' os, carrying (c || b) s' ds disp (objects ++ os) -> sending n s' -> ports_taken dest msgt names os c s s' ->
    (forall o, o ∈ objects ++ os -> IO_VALID o = true -> disp ∈ dispositions) -> Q (Some (objects ++ os)) s') ->
  wp (copyin_ports k a dest msgt disp names objects) s Q.
Proof using All.
  induction names as [|name names IH]; intros b s objects n Q disp HA Hd Hn Hs Hall HF HG; cbn [copyin_ports].
  { wp_step. specialize (HG false s []). rewrite app_nil_r in HG.
    apply HG; [done|by apply (sending_mono (2 * 0 + n)); [|lia]|done|done]. }
  apply Forall_cons in Hall as [Hname Hnames].
  destruct (MACH_PORT_VALID name) eqn:Hv; cbn [negb].
  - eapply (aside_take b s ds objects name msgt (2 * Z.of_nat (length names) + n)); [exact HA|lia| |done| |].
    { apply (sending_mono (2 * Z.of_nat (length (name :: names)) + n)); [done|simpl; lia]. }
    + intros kr s' HA1 Hs1. apply wp_bind. eapply aside_clean_ports; [exact HA1|done|apply Hs1|]. intros s2 HA2 Hq2. wp_step.
      by apply (HF b).
    + intros o c s' HA1 Hs1 Hdisp Ht. eapply (IH (c || b) s' (objects ++ [o]) n); [exact HA1|by intros|done|done|done|done|].
      intros c2 s2 os HA2 Hs2 Hts Hok. rewrite <- app_assoc in *. apply (HG (c || c2) s2 (o :: os)); [|done| |done].
      { by rewrite (orb_comm c), <- orb_assoc. }
      exists c, c2, s'. split_and!; [|done|done]. unfold port_taken. by rewrite Hv.
  - eapply (IH b s (objects ++ [CAST_MACH_NAME_TO_PORT name]) n); [| |done| |done|done|].
    + fold disp. eapply aside_ext; [exact HA|]. intros r. unfold plus.
      rewrite cnt_load_object, carried_invalid by (by apply cast_invalid). simpl. lia.
    + intros o [Ho|Ho%list_elem_of_singleton]%elem_of_app; [by apply Hd|]. subst o. by rewrite cast_invalid by done.
    + apply (sending_mono (2 * Z.of_nat (length (name :: names)) + n)); [done|simpl; lia].
    + intros c2 s2 os HA2 Hs2 Hts Hok. rewrite <- app_assoc in *.
      apply (HG c2 s2 (CAST_MACH_NAME_TO_PORT name :: os)); [done|done| |done]. exists false, c2, s. split_and!; [|done|done].
      unfold port_taken. by rewrite Hv.
Qed.

(** A change the ledger does not see *)
Lemma carrying_same b s s' ds disp objects n :
  carrying b s ds disp objects -> sending n s -> ks_ports s' = ks_ports s -> ks_psets s' = ks_psets s -> ks_spaces s' = ks_spaces s ->
  ks_kmsgs s' = ks_kmsgs s -> ks_log s' = ks_log s -> ks_ith_messages s' = ks_ith_messages s ->
  ks_ith_assertions s' = ks_ith_assertions s -> carrying b s' ds disp objects /\ sending n s'.
Proof.
  intros [Hk HK] [[] Hub ? []] E1 E2 E3 E4 E5 E6 E7. split.
  - split; [by rewrite E4|]. apply dk_kwf. eapply (dk_same (without k s)); [by apply dk_kwf|..]; simpl; congruence.
  - split; [split; rewrite ?E1, ?E3; done|unfold unboosted; by rewrite E1|by rewrite E3|split; congruence].
Qed.

Lemma aside_pop_zalloc b s ds disp objects n Q :
  carrying b s ds disp objects -> sending n s -> 
  (forall addr s', carrying b s' ds disp objects -> sending n s' -> unmoved s s' -> Q addr s') ->
  wp pop_zalloc s Q.
Proof.
  intros HA Hs HQ. unfold pop_zalloc. apply wp_bind, wp_get. destruct (ks_zalloc s) as [|addr l]; [wp_step; by apply HQ|].
  wp_step. wp_step. wp_step. destruct (carrying_same b s (set_ks_zalloc l s) ds disp objects n); try done. by apply HQ.
Qed.

Lemma aside_log_free m s T e Q :
  aside k m s T -> event_rights e = [] -> (forall s', aside k m s' T -> s' = set_ks_log (ks_log s ++ [e]) s -> Q tt s') -> wp (log e) s Q.
Proof.
  intros [Hk HK] He HQ. unfold log. wp_step. apply HQ; [|done]. split; [done|].
  change (kwf (set_ks_log (ks_log (without k s) ++ [e]) (without k s)) T). apply dk_kwf, dk_logged, dk_kwf.
  eapply kwf_proper; [done| |exact HK]. intros r. unfold plus. simpl. rewrite He. simpl. lia.
Qed.

Lemma carrying_log b s ds disp objects n e Q :
  carrying b s ds disp objects -> sending n s -> event_rights e = [] ->
  (forall s', carrying b s' ds disp objects -> sending n s' -> unmoved s s' -> Q tt s') -> wp (log e) s Q.
Proof.
  intros HA Hs He HQ. eapply aside_log_free; [exact HA|done|]. intros s' HA' ->. apply HQ; [done| |apply unmoved_log].
  destruct Hs as [[] ? ? ?]. by split; [split|..].
Qed.

Lemma aside_copyin_ool_ports b s ds addr count disp deallocate copy n Q :
  carrying b s ds 0 [] -> 0 <= n -> 0 <= count -> sending (2 * count + n) s ->
  (forall mr b' s', carrying b' s' ds 0 [] -> quiet_thread s' -> mr <> MACH_MSG_SUCCESS -> Q (inl mr) s') ->
  (forall c s' d, carrying (c || b) s' (ds ++ [d]) 0 [] -> sending n s' -> descriptor_ok d ->
    taken_as (UOolPorts addr count disp deallocate copy) d c s s' -> Q (inr d) s') ->
  wp (ipc_kmsg_copyin_ool_ports_descriptor k a dest addr count disp deallocate) s Q.
Proof using All.
  intros HA Hn Hc Hs HF HG. unfold ipc_kmsg_copyin_ool_ports_descriptor. cbv zeta. set (rd := ipc_object_copyin_type disp).
  destruct (_ <? count); [wp_step; apply (HF _ b); [done|apply Hs|done]|].
  destruct (Z.eqb_spec (count * sizeof_mach_port) 0) as [H0|H0].
  { assert (count = 0) as -> by (unfold sizeof_mach_port in H0; lia). wp_step.
    apply (HG false); [|by apply (sending_mono (2 * 0 + n)); [|lia]| |by split; [|exists []]].
    - eapply aside_ext; [exact HA|]. intros r. unfold plus. rewrite cnt_load_done. simpl. lia.
    - split; [done|]. by intros o ?%elem_of_nil. }
  assert (HA' : carrying b s ds rd []) by (eapply aside_ext; [exact HA|]; intros r; unfold plus; by rewrite (cnt_load_nil r b ds rd 0)).
  assert (Hfail : forall mr b' s', mr <> MACH_MSG_SUCCESS -> carrying b' s' ds rd [] -> quiet_thread s' -> Q (inl mr) s').
  { intros mr b' s' Hmr HA1 Hq. apply (HF mr b'); [|done|done]. eapply aside_ext; [exact HA1|]. intros r. unfold plus. by rewrite (cnt_load_nil r b' ds 0 rd). }
  apply wp_bind. eapply aside_pop_zalloc; [exact HA'|exact Hs|]. intros data s1 HA1 Hs1 Hst1.
  destruct (Z.eqb_spec data 0) as [|Hdata]; [wp_step; apply (Hfail _ b); [done|done|apply Hs1]|].
  apply wp_bind, wp_get. destruct (vm_copyinmap _ _ _) as [names|] eqn:Hread'.
  2:{ apply wp_bind. eapply carrying_log; [exact HA1|exact Hs1|done|]. intros s2 HA2 Hs2 _. wp_step. apply (Hfail _ b); [done|done|apply Hs2]. }
  pose proof (Hread _ _ _ _ Hread') as [Hlen Hnames]. apply wp_bind.
  apply (wp_mono _ _ (fun _ s' => carrying b s' ds rd [] /\ sending (2 * count + n) s' /\ unmoved s1 s')).
  2:{ destruct deallocate; cbn [mwhen]; [|wp_step; done]. eapply carrying_log; [exact HA1|exact Hs1|done|]. by intros. }
  intros _ s2 (HA2 & Hs2 & Hst2). apply wp_bind.
  assert (Hcount : Z.of_nat (length names) = count) by (unfold sizeof_mach_port_name in Hlen; lia).
  assert (Hst : unmoved s s2) by (by etrans). rewrite <- Hcount in Hs2.
  eapply (aside_copyin_ports ds disp names b s2 [] n); [exact HA2|by intros o ?%elem_of_nil|done|done|done| |].
  - intros b' s3 HA3 Hq3. apply wp_bind. eapply aside_log_free; [exact HA3|done|]. intros s4 HA4 ->. wp_step. by apply (Hfail _ b').
  - intros c s3 objects HA3 Hs3 Hts Hok. wp_step. apply (HG c); [|done|by split|].
    2:{ split; [done|]. exists names. split_and!; [done|by eapply ports_taken_unmoved; [exact Hst| |]|]. intros _. by exists s1. }
    eapply aside_ext; [exact HA3|]. intros r. fold rd. unfold plus. rewrite cnt_load_done. unfold load. rewrite !cnt_app. simpl. lia.
Qed.

Lemma aside_copyin_descriptor b s ds ud area n Q :
  carrying b s ds 0 [] -> 0 <= n -> user_ok ud -> sending (2 * names_in ud + n) s ->
  (forall mr b' s' area', carrying b' s' ds 0 [] -> quiet_thread s' -> mr <> MACH_MSG_SUCCESS -> Q (inl mr, area') s') ->
  (forall c s' d area', carrying (c || b) s' (ds ++ [d]) 0 [] -> sending n s' -> descriptor_ok d -> taken_as ud d c s s' ->
    Q (inr d, area') s') ->
  wp (copyin_descriptor k a dest ud area) s Q.
Proof using All.
  intros HA Hn Hok Hs HF HG. destruct ud as [name disp|type addr size deallocate copy|addr count disp deallocate copy|type];
    cbn [copyin_descriptor names_in user_ok] in *.
  - apply wp_bind. eapply (aside_copyin_port b s ds name disp n); [exact HA|done|exact Hs|done| |].
    + intros mr b' s' HA1 Hq1 Hmr. wp_step. by apply (HF mr b').
    + intros c s' d HA1 Hs1 Hd Ht. wp_step. by apply (HG c).
  - unfold ipc_kmsg_copyin_ool_descriptor. destruct area as [paddr needed]. apply wp_bind, wp_get.
    assert (Hfail : forall mr area', mr <> MACH_MSG_SUCCESS -> Q (inl mr, area') s) by (intros; apply (HF _ b); [done|apply Hs|done]).
    assert (Hdone : forall address area', memory_taken s addr size deallocate address ->
      Q (inr (OolDescriptor type address size copy), area') s).
    { intros address area' Hm. apply (HG false); [|by apply (sending_mono (2 * 0 + n)); [|lia]| |].
      2:{ intros ->. exact Hm. }
      - eapply aside_ext; [exact HA|]. intros r. unfold plus. rewrite cnt_load_done. simpl. lia.
      - do 5 (split; [done|]). by exists s. }
    unfold memory_taken in Hdone. destruct (Z.eqb_spec size 0) as [->|Hsz]; [wp_step; by apply Hdone|].
    destruct (_ && _).
    + destruct (vm_copyin s addr size) eqn:Hin; cbn [negb]; [|wp_step; by apply Hfail].
      destruct (vm_map_copyin true s paddr size true) eqn:Hcopy; wp_step; [by apply Hfail|]. apply Hdone. right. split; [done|by exists paddr].
    + destruct (vm_map_copyin false s addr size deallocate) eqn:Hcopy; wp_step; [apply Hfail; by case_bool_decide|]. apply Hdone. by left.
  - apply wp_bind. eapply (aside_copyin_ool_ports b s ds addr count disp deallocate copy n); [exact HA|done|done|exact Hs| |].
    + intros mr b' s' HA1 Hq1 Hmr. wp_step. by apply (HF mr b').
    + intros c s' d HA1 Hs1 Hd Ht. wp_step. by apply (HG c).
  - wp_step. apply (HF _ b); [done|apply Hs|done].
Qed.
End message.

(** ** The rights of the header *)
Definition header_rights (m : ipc_kmsg) : list right :=
  disposition_rights (MACH_MSGH_BITS_REMOTE (msgh_bits m)) (msgh_remote_port m)
  ++ disposition_rights (MACH_MSGH_BITS_LOCAL (msgh_bits m)) (msgh_local_port m)
  ++ disposition_rights MACH_MSG_TYPE_PORT_SEND (ikm_voucher m).

Lemma backed_header m : backed (header_rights m).
Proof. repeat apply backed_app; apply backed_disposition. Qed.

Lemma land_lor_other x c mask : Z.land c mask = 0 -> Z.land (Z.lor x c) mask = Z.land x mask.
Proof. intros H. by rewrite Z.land_lor_distr_l, H, Z.lor_0_r. Qed.

(** Marking a message as circular changes nothing else. *)
Lemma circle_fields m :
  MACH_MSGH_BITS_REMOTE (msgh_bits (circle m)) = MACH_MSGH_BITS_REMOTE (msgh_bits m) /\
  MACH_MSGH_BITS_LOCAL (msgh_bits (circle m)) = MACH_MSGH_BITS_LOCAL (msgh_bits m) /\
  MACH_MSGH_BITS_VOUCHER (msgh_bits (circle m)) = MACH_MSGH_BITS_VOUCHER (msgh_bits m) /\
  has (msgh_bits (circle m)) MACH_MSGH_BITS_COMPLEX = has (msgh_bits m) MACH_MSGH_BITS_COMPLEX /\
  MACH_MSGH_BITS_RAISED_IMPORTANCE (msgh_bits (circle m)) = MACH_MSGH_BITS_RAISED_IMPORTANCE (msgh_bits m).
Proof.
  unfold circle, MACH_MSGH_BITS_REMOTE, MACH_MSGH_BITS_LOCAL, MACH_MSGH_BITS_VOUCHER, MACH_MSGH_BITS_RAISED_IMPORTANCE, has. simpl.
  split_and!; by rewrite land_lor_other.
Qed.

Lemma circle_ok m : kmsg_ok m -> kmsg_ok (circle m).
Proof.
  intros []. destruct (circle_fields m) as (E1 & E2 & E3 & _ & E5). split; try done.
  - by rewrite E1.
  - by rewrite E2.
  - by rewrite E3.
  - by rewrite E5.
Qed.

Lemma circle_header m : header_rights (circle m) = header_rights m.
Proof. destruct (circle_fields m) as (E1 & E2 & _). unfold header_rights. by rewrite E1, E2. Qed.

Section partial.
Context (k : Z).

(** Something is given up while the message is laid aside. *)
Lemma aside_sweep (p : K unit) m s T Q :
  oblivious p -> ks_kmsgs s !! k = Some m -> quiet_thread s ->
  wp p (without k s) (fun _ s' => desk s' Rest T /\ sweeps (without k s) s') ->
  (forall s', aside k m s' T -> quiet_thread s' -> Q tt s') -> wp p s Q.
Proof.
  intros Hp Hk Hq Hw HQ. eapply wp_aside; [done|exact Hk|]. eapply wp_mono; [|exact Hw]. cbv beta. intros [] s' [HD Hsw] Hk'.
  apply HQ; [apply aside_put; [done|by apply dk_kwf]|]. exact (quiet_sweeps (without k s) s' Hq Hsw).
Qed.

Lemma aside_importance_clean m s T Q :
  aside k m s T -> kmsg_ok m -> quiet_thread s ->
  (forall s', aside k (set_ikm_importance 0 m) s' T -> quiet_thread s' -> Q tt s') -> wp (ipc_importance_clean k) s Q.
Proof.
  intros HA Hok Hq HQ. unfold ipc_importance_clean. apply wp_bind, (wp_ikm_get k m); [apply HA|]. rewrite (ko_importance _ Hok).
  apply wp_bind. destruct (Z.eqb_spec (ikm_importance m) 0) as [Hi|Hi]; cbn [negb mwhen].
  - wp_step. wp_step. apply HQ; [|done]. by replace (set_ikm_importance 0 m) with m by (destruct m; simpl in *; by subst).
  - apply wp_bind. eapply aside_mod; [exact HA|]. intros s1 HA1 Hw. eapply aside_log_free; [exact HA1|done|]. intros s2 HA2 ->. wp_step.
    apply HQ; [done|]. unfold quiet_thread in *. by change (ks_ith_messages (without k s1) = [] /\ ks_ith_assertions (without k s1) = 0); rewrite Hw.
Qed.

Lemma send_disposition d o :
  (IO_VALID o = true -> d ∈ [MACH_MSG_TYPE_PORT_SEND; MACH_MSG_TYPE_PORT_SEND_ONCE]) -> IO_VALID o = true ->
  d ∈ dispositions /\ d <> MACH_MSG_TYPE_PORT_RECEIVE.
Proof.
  intros Hd Hv. specialize (Hd Hv). unfold dispositions. rewrite !elem_of_cons in *. 
  destruct Hd as [->|[->|[]%elem_of_nil]]; (split; [tauto|done]).
Qed.

Lemma aside_destroy_dest m s T d o Q :
  aside k m s (T ⊕ disposition_rights d o) -> hand_ok T -> quiet_thread s ->
  (IO_VALID o = true -> d ∈ [MACH_MSG_TYPE_PORT_SEND; MACH_MSG_TYPE_PORT_SEND_ONCE]) ->
  (forall s', aside k m s' T -> quiet_thread s' -> Q tt s') -> wp (mwhen (IO_VALID o) (ipc_object_destroy_dest o d)) s Q.
Proof.
  intros HA HT Hq Hd HQ. eapply (aside_sweep _ m s T); [apply ob_mwhen, ob_destroy_dest|apply HA|done| |done].
  eapply dk_destroy_dest; [apply dk_kwf, HA|done|done|]. intros s' HD Hst. split; [done|by apply (md_stays _ _ mode_top)].
Qed.

Lemma aside_object_destroy m s T d o Q :
  aside k m s (T ⊕ disposition_rights d o) -> hand_ok T -> quiet_thread s ->
  (IO_VALID o = true -> d ∈ [MACH_MSG_TYPE_PORT_SEND; MACH_MSG_TYPE_PORT_SEND_ONCE]) ->
  (forall s', aside k m s' T -> quiet_thread s' -> Q tt s') -> wp (mwhen (IO_VALID o) (ipc_object_destroy o d)) s Q.
Proof.
  intros HA HT Hq Hd HQ. eapply (aside_sweep _ m s T); [apply ob_mwhen, ob_object_destroy, ob_destroy|apply HA|done| |done].
  eapply (dk_object_destroy _ _ mode_top _ destroys_top false _ Rest T);
    [|done|intros Hv; by apply (send_disposition _ _ Hd)|by split; [|apply Hq]|done|intros s' HD Hsw; by split].
  apply dk_kwf. destruct (IO_VALID o) eqn:Hv.
  - rewrite carried_plain; [apply HA|]. by apply (send_disposition _ _ ltac:(by intros _; apply Hd) Hv).
  - rewrite carried_invalid by done. unfold disposition_rights in HA. rewrite Hv in HA. apply HA.
Qed.

Lemma aside_clean_body m b s T ds Q :
  aside k m s (T ⊕ (ds ≫= descriptor_rights b)) -> hand_ok T -> Forall descriptor_ok ds -> quiet_thread s ->
  (forall s', aside k m s' T -> quiet_thread s' -> Q tt s') -> wp (ipc_kmsg_clean_body ds) s Q.
Proof.
  intros HA HT Hds Hq HQ. eapply (aside_sweep _ m s T); [apply ob_clean_body, ob_destroy|apply HA|done| |done].
  unfold ipc_kmsg_clean_body. eapply (dk_clean_body _ _ mode_top _ destroys_top b ds _ Rest T);
    [apply dk_kwf, HA|done|done|by split; [|apply Hq]|by intros _; apply Hq|intros s' HD Hsw; by split].
Qed.

Lemma aside_mod_quiet m s T f Q :
  aside k m s T -> quiet_thread s -> (forall s', aside k (f m) s' T -> quiet_thread s' -> Q tt s') -> wp (ikm_mod k f) s Q.
Proof.
  intros HA Hq HQ. eapply aside_mod; [exact HA|]. intros s1 HA1 Hw. apply HQ; [done|].
  by change (quiet_thread (without k s1)); rewrite Hw.
Qed.

Lemma aside_voucher_destroy m s T Q :
  aside k m s (T ⊕ disposition_rights MACH_MSG_TYPE_PORT_SEND (ikm_voucher m)) -> hand_ok T -> quiet_thread s -> kmsg_ok m ->
  (forall m' s', aside k m' s' T -> quiet_thread s' -> IP_VALID (ikm_voucher m') = false -> ikm_prealloc m' = IP_NULL -> Q tt s') ->
  wp (mwhen (IO_VALID (ikm_voucher m))
        (_ ← massert (MACH_MSGH_BITS_VOUCHER (msgh_bits m) =? MACH_MSG_TYPE_MOVE_SEND);
         _ ← ipc_object_destroy (ikm_voucher m) MACH_MSG_TYPE_PORT_SEND;
         ikm_mod k (set_ikm_voucher IP_NULL))) s Q.
Proof.
  intros HA HT Hq Hok HQ. apply wp_mwhen; intros Hv.
  - wp_step. wp_step; [apply Z.eqb_eq; by apply Hok|]. apply wp_bind.
    assert (Hw : wp (mwhen (IO_VALID (ikm_voucher m)) (ipc_object_destroy (ikm_voucher m) MACH_MSG_TYPE_PORT_SEND)) s
      (fun _ s' => aside k m s' T /\ quiet_thread s')).
    { eapply aside_object_destroy; [exact HA|done|done|intros _; by left|]. by intros. }
    rewrite Hv in Hw. eapply wp_mono; [|exact Hw]. cbv beta. intros _ s1 [HA1 Hq1].
    eapply aside_mod_quiet; [exact HA1|done|]. intros s2 HA2 Hq2. eapply HQ; [exact HA2|done|done|apply Hok].
  - eapply HQ; [|done|done|apply Hok]. eapply aside_ext; [exact HA|]. intros r. unfold disposition_rights. rewrite Hv. unfold plus. simpl. lia.
Qed.

(** All that the message has is given up; what is left of it is a buffer to be freed. *)
Lemma aside_clean_partial m b s T ds area Q :
  aside k m s (T ⊕ header_rights m ⊕ (ds ≫= descriptor_rights b)) -> kmsg_ok m -> hand_ok T ->
  IO_VALID (msgh_remote_port m) = true -> Forall descriptor_ok ds -> quiet_thread s ->
  (forall m' s', aside k m' s' T -> IP_VALID (ikm_voucher m') = false -> ikm_prealloc m' = IP_NULL -> Q tt s') ->
  wp (ipc_kmsg_clean_partial k ds area) s Q.
Proof.
  intros HA Hok HT Hv Hds Hq HQ. destruct area as [paddr length].
  set (remote := disposition_rights (MACH_MSGH_BITS_REMOTE (msgh_bits m)) (msgh_remote_port m)).
  set (local := disposition_rights (MACH_MSGH_BITS_LOCAL (msgh_bits m)) (msgh_local_port m)).
  set (voucher := disposition_rights MACH_MSG_TYPE_PORT_SEND (ikm_voucher m)).
  set (body := ds ≫= descriptor_rights b).
  assert (H1 : hand_ok (T ⊕ body)) by (apply hand_ok_plus; [done|apply backed_bind, backed_descriptor]).
  assert (H2 : hand_ok (T ⊕ body ⊕ voucher)) by (apply hand_ok_plus; [done|apply backed_disposition]).
  assert (H3 : hand_ok (T ⊕ body ⊕ voucher ⊕ local)) by (apply hand_ok_plus; [done|apply backed_disposition]).
  unfold ipc_kmsg_clean_partial. apply wp_bind, (wp_ikm_get k m); [apply HA|]. cbv zeta.
  apply wp_bind. eapply (aside_importance_clean m s (T ⊕ body ⊕ voucher ⊕ local ⊕ remote)); [|done|done|].
  { eapply aside_ext; [exact HA|]. intros r. unfold plus, header_rights. rewrite !cnt_app. fold remote local voucher body. lia. }
  set (m1 := set_ikm_importance 0 m). intros s1 HA1 Hq1. wp_step. wp_step; [done|].
  assert (Hw : wp (mwhen (IO_VALID (msgh_remote_port m)) (ipc_object_destroy_dest (msgh_remote_port m) (MACH_MSGH_BITS_REMOTE (msgh_bits m))))
    s1 (fun _ s' => aside k m1 s' (T ⊕ body ⊕ voucher ⊕ local) /\ quiet_thread s')).
  { eapply aside_destroy_dest; [exact HA1|done|done|apply Hok|]. by intros. }
  rewrite Hv in Hw. apply wp_bind. eapply wp_mono; [|exact Hw]. cbv beta. intros _ s2 [HA2 Hq2].
  apply wp_bind. eapply (aside_object_destroy m1 s2 (T ⊕ body ⊕ voucher)); [exact HA2|done|done|apply Hok|]. intros s3 HA3 Hq3.
  apply wp_bind. eapply (aside_voucher_destroy m1 s3 (T ⊕ body)); [exact HA3|done|done|by destruct Hok|]. intros m4 s4 HA4 Hq4 Hv4 Hp4.
  apply wp_bind. apply (wp_mono _ _ (fun _ s' => aside k m4 s' (T ⊕ body) /\ quiet_thread s')).
  - intros _ s5 [HA5 Hq5]. eapply aside_clean_body; [exact HA5|done|done|done|]. intros s6 HA6 _. by eapply HQ.
  - destruct (_ =? 0); cbn [negb mwhen]; [wp_step; done|]. eapply aside_log_free; [exact HA4|done|]. by intros s5 HA5 ->.
Qed.
End partial.

(** ** The body *)
Section body.
Context {vm : vm_env} (k : Z) (T : right -> Z) (HT : hand_ok T).
Context (Hread : forall s addr length names, vm_copyinmap s addr length = Some names ->
  length = Z.of_nat (List.length names) * sizeof_mach_port_name /\ Forall (fun name => 0 <= name < 2 ^ 32) names).

(** What is left of a message whose body could not be copied in *)
Definition abandoned (s : kstate) : Prop :=
  exists m, aside k m s T /\ IP_VALID (ikm_voucher m) = false /\ ikm_prealloc m = IP_NULL.

Definition all_names (uds : list user_descriptor) : Z := foldr (fun ud n => names_in ud + n) 0 uds.

Lemma all_names_nonneg uds : Forall user_ok uds -> 0 <= all_names uds.
Proof. induction 1 as [|ud uds Hud _ IH]; simpl; [lia|]. destruct ud; simpl in *; lia. Qed.

Section one_message.
Context (m0 : ipc_kmsg) (Hok : kmsg_ok m0) (Hplain : has (msgh_bits m0) MACH_MSGH_BITS_CIRCULAR = false).
Context (Hv : IO_VALID (msgh_remote_port m0) = true).
Local Abbreviation B := (T ⊕ header_rights m0).
Local Abbreviation carrying b s ds := (aside k (marked m0 b) s (B ⊕ load b ds 0 [])).

Lemma header_hand : hand_ok B.
Proof using HT. apply hand_ok_plus; [done|apply backed_header]. Qed.

Lemma header_dest : 0 < B (RSend (msgh_remote_port m0)) \/ 0 < B (RSonce (msgh_remote_port m0)).
Proof using HT Hok Hv.
  pose proof (ko_remote _ Hok Hv) as Hd. unfold header_rights, plus. rewrite !cnt_app.
  set (o := msgh_remote_port m0) in *. set (d := MACH_MSGH_BITS_REMOTE (msgh_bits m0)) in *.
  assert (Hge : forall r, cnt r (disposition_rights d o) <= T r + (cnt r (disposition_rights d o) +
    (cnt r (disposition_rights (MACH_MSGH_BITS_LOCAL (msgh_bits m0)) (msgh_local_port m0)) +
     cnt r (disposition_rights MACH_MSG_TYPE_PORT_SEND (ikm_voucher m0))))).
  { intros r. pose proof (proj1 HT r). pose proof (cnt_nonneg r (disposition_rights MACH_MSG_TYPE_PORT_SEND (ikm_voucher m0))).
    pose proof (cnt_nonneg r (disposition_rights (MACH_MSGH_BITS_LOCAL (msgh_bits m0)) (msgh_local_port m0))). lia. }
  rewrite !elem_of_cons in Hd. destruct Hd as [Hd|[Hd|[]%elem_of_nil]]; [left|right];
    (eapply Z.lt_le_trans; [|apply Hge]); rewrite Hd; unfold disposition_rights; rewrite Hv; cbn; rewrite ind_eq, ind_ne by done; lia.
Qed.

Lemma marked_ok b : kmsg_ok (marked m0 b) /\ header_rights (marked m0 b) = header_rights m0 /\
  IO_VALID (msgh_remote_port (marked m0 b)) = true.
Proof using Hok Hv. destruct b; [|done]. split_and!; [by apply circle_ok|apply circle_header|done]. Qed.

Lemma aside_copyin_descriptors uds : forall b s ds area Q,
  carrying b s ds -> Forall user_ok uds -> Forall descriptor_ok ds -> sending (2 * all_names uds) s ->
  (forall mr s', abandoned s' -> mr <> MACH_MSG_SUCCESS -> Q (inl mr) s') ->
  (forall c s' ds', carrying (c || b) s' (ds ++ ds') -> sending 0 s' -> Forall descriptor_ok (ds ++ ds') ->
    all_taken (msgh_remote_port m0) uds ds' c s s' -> Q (inr (ds ++ ds')) s') ->
  wp (copyin_descriptors k a (msgh_remote_port m0) uds area ds) s Q.
Proof using All.
  induction uds as [|ud uds IH]; intros b s ds area Q HA Hu Hds Hs HF HG; cbn [copyin_descriptors all_names foldr] in *.
  { wp_step. specialize (HG false s []). rewrite app_nil_r in HG. by apply HG. }
  fold (all_names uds) in *. apply Forall_cons in Hu as [Hud Hu]. pose proof (all_names_nonneg uds Hu).
  apply wp_bind. eapply (aside_copyin_descriptor k m0 Hplain B header_hand _ header_dest Hread b s ds ud area (2 * all_names uds));
    [exact HA|lia|done|by eapply sending_mono; [exact Hs|lia]| |].
  - intros mr b' s1 area' HA1 Hq1 Hmr. cbv beta iota. apply wp_bind. destruct (marked_ok b') as (Hok' & Hh' & Hv').
    eapply (aside_clean_partial k (marked m0 b') b'); [|done|done|done|done|done|].
    + rewrite Hh'. eapply aside_ext; [exact HA1|]. intros r. unfold plus, load. rewrite cnt_app. simpl. lia.
    + intros m' s2 HA2 Hv2 Hp2. wp_step. apply HF; [|done]. by exists m'.
  - intros c s1 d area' HA1 Hs1 Hd Ht. cbv beta iota. eapply (IH (c || b) s1 (ds ++ [d])); [exact HA1|done|by apply Forall_app_2; [|constructor]|done|done|].
    intros c2 s2 ds2 HA2 Hs2 Hds2 Hall. rewrite <- !app_assoc in *. apply (HG (c || c2) s2 (d :: ds2)); [|done|done|by exists c, c2, s1].
    by rewrite (orb_comm c), <- orb_assoc.
Qed.
End one_message.

Definition user_size (uds : list user_descriptor) : Z := foldr (fun ud n => user_descriptor_size ud + n) 0 uds.

Lemma body_pass_size uds : forall size dsz needed,
  match body_pass uds size dsz needed with inl mr => mr <> MACH_MSG_SUCCESS | inr (_, dsz') => dsz' = dsz + user_size uds end.
Proof.
  induction uds as [|ud uds IH]; intros size dsz needed; cbn [body_pass user_size foldr]; [lia|]. cbv zeta. fold (user_size uds).
  destruct (_ <? _); [done|].
  assert (Hnext : forall needed', match body_pass uds size (dsz + user_descriptor_size ud) needed' with
    inl mr => mr <> MACH_MSG_SUCCESS | inr (_, dsz') => dsz' = dsz + (user_descriptor_size ud + user_size uds) end).
  { intros needed'. specialize (IH size (dsz + user_descriptor_size ud) needed'). destruct (body_pass _ _ _ _) as [mr|[n dsz']]; [done|lia]. }
  destruct ud; try apply Hnext. destruct (_ && _); [done|]. destruct (_ && _); [|apply Hnext].
  destruct (_ <=? _); [done|]. destruct (_ <? _); [done|apply Hnext].
Qed.

Lemma filled_rights m b ds r :
  kmsg_ok m -> has (msgh_bits m) MACH_MSGH_BITS_COMPLEX = true -> has (msgh_bits m) MACH_MSGH_BITS_CIRCULAR = false ->
  cnt r (kmsg_rights (set_msgh_descriptors ds (marked m b))) =
  cnt r (header_rights (marked m b)) + cnt r (ds ≫= descriptor_rights b).
Proof.
  intros Hok Hc Hplain. unfold kmsg_rights, header_rights.
  cbn [msgh_bits msgh_remote_port msgh_local_port ikm_voucher ikm_prealloc msgh_descriptors set_msgh_descriptors].
  rewrite (marked_circular m Hplain b).
  assert (E : has (msgh_bits (marked m b)) MACH_MSGH_BITS_COMPLEX = true /\ ikm_prealloc (marked m b) = IP_NULL).
  { destruct b; [|by split; [|apply Hok]]. split; [|apply Hok]. destruct (circle_fields m) as (_ & _ & _ & E & _).
    exact (eq_trans E Hc). }
  destruct E as [-> ->]. rewrite !cnt_app. simpl. lia.
Qed.

(** The message with its body: marked circular when one of the rights taken would have closed
    a circle *)
Definition filled (m : ipc_kmsg) (uds : list user_descriptor) (s : kstate) (m' : ipc_kmsg) (s' : kstate) : Prop :=
  exists b ds, all_taken (msgh_remote_port m) uds ds b s s' /\
    m' = set_msgh_descriptors ds (marked (set_msgh_size (u32 (msgh_size m + (16 * Z.of_nat (length uds) - user_size uds))) m) b).

Lemma wf_copyin_body s m um :
  kwf s (T ⊕ [RMsg k]) -> ks_kmsgs s !! k = Some m -> msgh_descriptors m = [] ->
  has (msgh_bits m) MACH_MSGH_BITS_COMPLEX = true -> has (msgh_bits m) MACH_MSGH_BITS_CIRCULAR = false ->
  IO_VALID (msgh_remote_port m) = true -> Forall user_ok (um_descriptors um) -> um_descriptors um <> [] ->
  sending (2 * all_names (um_descriptors um)) s ->
  wp (ipc_kmsg_copyin_body k um a) s (fun mr s' =>
    if mr =? MACH_MSG_SUCCESS
    then kwf s' (T ⊕ [RMsg k]) /\ acyclic (ks_ports s') /\ exists m', ks_kmsgs s' !! k = Some m' /\ filled m (um_descriptors um) s m' s'
    else abandoned s').
Proof using All.
  intros HK Hk Hds Hc Hplain Hv Hu Hne Hs. pose proof (oo_kmsgs _ (kw_objects _ _ HK) _ _ Hk) as Hok.
  assert (HA : aside k m s (T ⊕ header_rights m)).
  { eapply aside_ext; [by apply aside_start|]. intros r. unfold plus, kmsg_rights, header_rights.
    rewrite Hc, Hds, (ko_prealloc _ Hok), !cnt_app. simpl. lia. }
  assert (Hfail : forall mr, mr <> MACH_MSG_SUCCESS ->
    wp (_ ← ipc_kmsg_clean_partial k [] (0, 0); mret mr) s (fun mr s' =>
      if mr =? MACH_MSG_SUCCESS
      then kwf s' (T ⊕ [RMsg k]) /\ acyclic (ks_ports s') /\ exists m', ks_kmsgs s' !! k = Some m' /\ filled m (um_descriptors um) s m' s'
      else abandoned s')).
  { intros mr Hmr. apply wp_bind. eapply (aside_clean_partial k m false); [|done|done|done|constructor|apply Hs|].
    - eapply aside_ext; [exact HA|]. intros r. unfold plus. simpl. lia.
    - intros m' s' HA' Hv' Hp'. wp_step. rewrite (proj2 (Z.eqb_neq _ _) Hmr). by exists m'. }
  unfold ipc_kmsg_copyin_body. apply wp_bind, (wp_ikm_get k m); [done|]. cbv zeta. rewrite bool_decide_false by done.
  pose proof (body_pass_size (um_descriptors um) (msgh_size m) 0 0) as Hpass. destruct (body_pass _ _ _ _) as [mr|[needed dsz]]; [by apply Hfail|].
  apply wp_bind, wp_get. destruct (if needed =? 0 then Some 0 else _) as [paddr|]; [|by apply Hfail].
  rewrite Hpass, Z.add_0_l. apply wp_bind. eapply aside_mod; [exact HA|]. intros s1 HA1 Hw1.
  set (m1 := set_msgh_size _ m) in HA1. assert (Hok1 : kmsg_ok m1) by (by destruct Hok). apply wp_bind.
  eapply (aside_copyin_descriptors m1 Hok1 Hplain Hv (um_descriptors um) false s1 []); [|done|constructor| | |].
  - eapply aside_ext; [exact HA1|]. intros r. unfold plus. simpl. unfold header_rights. simpl. lia.
  - apply (sending_without k). rewrite Hw1. by apply sending_without.
  - intros mr s2 Hab Hmr. wp_step. by rewrite (proj2 (Z.eqb_neq _ _) Hmr).
  - intros b s2 ds HA2 Hs2 Hdok Hall. rewrite orb_false_r in HA2. apply wp_bind. eapply aside_mod; [exact HA2|]. intros s3 HA3 Hw3. wp_step.
    change (MACH_MSG_SUCCESS =? MACH_MSG_SUCCESS) with true. cbv beta iota.
    change ([] ++ ds) with ds in *. destruct (marked_ok m1 Hok1 Hv b) as (Hok3 & Hh3 & _). split_and!.
    + eapply (aside_end k (set_msgh_descriptors ds (marked m1 b))); [|destruct Hok3; by split|done].
      eapply aside_ext; [exact HA3|]. intros r. unfold plus. rewrite filled_rights by done. rewrite Hh3. unfold load.
      rewrite !cnt_app. simpl. lia.
    + change (ks_ports s3) with (ks_ports (without k s3)). rewrite Hw3. apply Hs2.
    + exists (set_msgh_descriptors ds (marked m1 b)). split; [apply HA3|]. exists b, ds. split; [|done].
      eapply all_taken_unmoved; [by eapply unmoved_without|exact Hall|by eapply unmoved_without].
Qed.
End body.
End sender.

(** C10 Copying in the body of a message, whatever its descriptors, from a space of a balanced
    kernel: no assertion fails.  When it succeeds, the descriptors were done one after
    the other, and for each name in them, in order, the object the message now carries is the
    one the name stood for at that moment: it was copied in from the entry of the name, which
    has left what the disposition leaves, no other entry changing, and a receive right is in
    transit to the message's destination, or would have closed a circle, and exactly then the
    message is marked circular.  Null and dead names stand for themselves; memory out of line
    and arrays of names are what the memory system read.  The kernel is balanced, and no cycle
    of ports in transit arose.
    When it fails, half-way or before, all that was taken is given up, the header's rights
    too: once the message is freed, as the callers do, the kernel is balanced without it. *)
Theorem ipc_kmsg_copyin_body_correct {env : ipc_env} {vm : vm_env} s T k m um a :
  a <> IS_NULL -> hand_ok T ->
  (forall s addr length names, vm_copyinmap s addr length = Some names ->
    length = Z.of_nat (List.length names) * sizeof_mach_port_name /\ Forall (fun name => 0 <= name < 2 ^ 32) names) ->
  kwf s (T ⊕ [RMsg k]) -> ks_kmsgs s !! k = Some m -> msgh_descriptors m = [] ->
  has (msgh_bits m) MACH_MSGH_BITS_COMPLEX = true -> has (msgh_bits m) MACH_MSGH_BITS_CIRCULAR = false ->
  IO_VALID (msgh_remote_port m) = true -> Forall user_ok (um_descriptors um) -> um_descriptors um <> [] ->
  sending a (2 * all_names (um_descriptors um)) s ->
  wp (ipc_kmsg_copyin_body k um a) s (fun mr s' =>
    if mr =? MACH_MSG_SUCCESS
    then kwf s' (T ⊕ [RMsg k]) /\ acyclic (ks_ports s') /\ exists m', ks_kmsgs s' !! k = Some m' /\ filled a m (um_descriptors um) s m' s'
    else wp (ipc_kmsg_free k) s' (fun _ s'' => kwf s'' T)).
Proof.
  intros. eapply wp_mono; [|by eapply wf_copyin_body]. cbv beta. intros mr s'. destruct (mr =? _); [done|].
  intros (m' & HA & Hv & Hp). eapply wp_mono; [|by eapply aside_free]. by intros _ s'' [].
Qed.

(** ** What the kernel cannot send *)

(** A program fails when what follows its first part fails. *)
Lemma bind_fails {S A B} (m : M S A) (k : A -> M S B) s f :
  wp m s (fun a s' => k a s' = Fail f) -> (m ≫= k) s = Fail f.
Proof. unfold wp, mbind, M_bind. by destruct (m s) as [[a s']|]. Qed.

Lemma bind_failed {S A B} (m : M S A) (k : A -> M S B) s f : m s = Fail f -> (m ≫= k) s = Fail f.
Proof. unfold mbind, M_bind. by intros ->. Qed.

Lemma start_transit_unowned {env : ipc_env} s o d base locked p q :
  ks_ports s !! o = Some p -> ip_active p = true -> ip_receiver_name p = MACH_PORT_NULL -> ip_destination p = IP_NULL ->
  ip_tempowner p = false -> ks_ports s !! d = Some q -> d <> o -> 0 < ip_references q < IO_MAX_REFERENCES ->
  start_transit o d base locked s = Fail FAssert.
Proof.
  intros Ho Ha Hn Hd Ht Hq Hne Hr. unfold start_transit.
  apply bind_fails, wp_get. apply bind_fails, (wp_ip_get _ p); [done|].
  apply bind_fails. wp_step; [done|]. apply bind_fails. wp_step; [by rewrite Hn|]. apply bind_fails. wp_step; [by rewrite Hd|].
  apply bind_fails, (wp_reference _ _ q); [done|done|]. apply bind_fails, (wp_ip_mod _ _ p); [by cbn; rewrite lookup_insert_ne|].
  apply bind_failed. by rewrite Ht.
Qed.

(** C39 A receive right of the kernel cannot be sent by the kernel: [ipc_object_copyin_from_kernel]
    puts the port in limbo without setting [ip_tempowner], as [ipc_right_copyin] does for the
    right of a task, and [ipc_importance_check_circularity], which is called next for any
    destination outside the kernel that is not in transit, asserts that it is set. *)
Theorem kernel_descriptor_receive {env : ipc_env} {vm : vm_env} s k o p d q :
  ks_ports s !! o = Some p -> IO_VALID o = true -> ip_active p = true -> ip_receiver p = ipc_space_kernel ->
  ipc_space_kernel <> IS_NULL -> ip_tempowner p = false ->
  ks_ports s !! d = Some q -> d <> o -> d <> IP_NULL -> ip_in_transit q = false -> ip_receiver q <> ipc_space_kernel ->
  0 < ip_references q < IO_MAX_REFERENCES ->
  kernel_descriptor k d (PortDescriptor o MACH_MSG_TYPE_MOVE_RECEIVE) s = Fail FAssert.
Proof.
  intros Ho Hv Ha Hr Hk Ht Hq Hne Hdn Htr Hqr Href. unfold kernel_descriptor. rewrite Hv. cbn [mwhen].
  apply bind_failed, bind_fails. unfold ipc_object_copyin_from_kernel. rewrite Hv. wp_step. wp_step; [done|].
  apply wp_bind, (wp_ip_get _ p); [done|]. change (MACH_MSG_TYPE_MOVE_RECEIVE =? MACH_MSG_TYPE_MOVE_RECEIVE) with true. cbv iota.
  wp_step. wp_step; [done|]. rewrite Hr, (proj2 (Z.eqb_neq _ IP_NULL) Hk), Z.eqb_refl. cbn [negb mwhen]. wp_step. wp_step; [done|].
  apply wp_bind. unfold ipc_port_set_mscount. apply wp_bind, (wp_ip_get _ p); [done|]. wp_step. wp_step; [done|].
  apply (wp_ip_mod _ _ p); [done|]. apply wp_bind, (wp_ip_mod _ _ (set_ip_mscount 0 p)); [apply lookup_insert_eq|].
  apply (wp_ip_mod _ _ (set_ip_receiver_name MACH_PORT_NULL (set_ip_mscount 0 p))); [apply lookup_insert_eq|].
  set (s1 := put_port _ _ _). set (p1 := set_ip_destination _ _) in s1.
  assert (Ho1 : ks_ports s1 !! o = Some p1) by apply lookup_insert_eq.
  assert (Hd1 : ks_ports s1 !! d = Some q) by (unfold s1; cbn; rewrite !insert_insert_eq; by rewrite lookup_insert_ne).
  apply bind_fails, (wp_ip_get _ q); [done|]. rewrite (proj2 (Z.eqb_neq _ _) Hqr). cbn [negb mwhen].
  unfold kernel_circularity. change (MACH_MSG_TYPE_PORT_RECEIVE) with (ipc_object_copyin_type MACH_MSG_TYPE_MOVE_RECEIVE).
  rewrite Z.eqb_refl. apply bind_failed. unfold ipc_port_check_circularity, ipc_importance_check_circularity.
  assert (Hon : o <> IP_NULL) by (by intros ->).
  apply bind_fails. wp_step; [by rewrite (proj2 (Z.eqb_neq _ _) Hon)|]. apply bind_fails. wp_step; [by rewrite (proj2 (Z.eqb_neq _ _) Hdn)|].
  rewrite (proj2 (Z.eqb_neq o d)) by congruence. apply bind_fails, wp_get. apply bind_fails, (wp_ip_get _ p1); [done|].
  apply bind_fails, (wp_ip_get _ q); [done|]. apply bind_fails. unfold wp.
  rewrite (chain_base_run _ _ _ [] d) by (try (by apply (path_end _ _ q)); simpl; lia).
  rewrite (proj2 (Z.eqb_neq o d)) by congruence. apply bind_failed. by apply (start_transit_unowned _ _ _ _ _ p1 q).
Qed.

(** An entry that was freed is not freed again: on the free list its request field is the
    link to the next entry. *)
Lemma entry_dealloc_freed s a sp X H i j l name :
  ks_spaces s !! a = Some sp -> is_active sp = true -> space_inv X H (i :: j :: l) sp -> entry_dealloc a name i s = Fail FAssert.
Proof.
  intros Ha Hact HI. destruct (si_free _ _ _ _ HI i) as (Hi & _ & _ & Ho); [by left|].
  destruct (si_free _ _ _ _ HI j) as (Hj & _); [by right; left|]. destruct (si_chain _ _ _ _ HI) as (_ & Hnext & _).
  pose proof (si_size _ _ _ _ HI) as Hsz. unfold entry_dealloc, in_space. apply bind_fails. eapply wp_is_get; [done|].
  apply bind_failed. unfold lift. assert (Hrun : ipc_entry_dealloc name i sp = Fail FAssert); [|by rewrite Hrun].
  unfold ipc_entry_dealloc. apply bind_fails, wp_get. apply bind_fails. wp_step; [done|]. apply bind_fails, wp_tget; [lia|].
  apply bind_fails. wp_step; [by apply Z.eqb_eq|]. apply bind_failed. unfold next_of in Hnext. rewrite Hnext.
  by rewrite (proj2 (Z.eqb_neq j IE_REQ_NONE)) by (change IE_REQ_NONE with 0; lia).
Qed.

(** C40 A message whose destination and reply port have one name, from which both rights are
    moved, panics the kernel: [ipc_kmsg_copyin_header] frees the entry that the copyin left
    empty, sets [dest_entry] to [IE_NULL], and then takes the same entry for a second one,
    because it compares [reply_entry] with [dest_entry].  The second [ipc_entry_dealloc] finds
    the link of the free list where it expects no request, whenever another entry is free. *)
Theorem header_dealloc_same_entry {env : ipc_env} s a sp H j l name voucher_name hp :
  let i := MACH_PORT_INDEX name in
  ks_spaces s !! a = Some sp -> is_active sp = true -> space_inv {[i]} H (j :: l) sp -> i ∉ H ->
  core (entry_at (is_table sp) i) = (IO_NULL, MACH_PORT_GEN name, IE_REQ_NONE) ->
  hp_dest_entry hp = Some i -> hp_reply_entry hp = Some i ->
  header_dealloc a name name voucher_name hp s = Fail FAssert.
Proof.
  intros i Ha Hact HI HiH Hc Hd Hr. assert (Hi : 0 < i < is_table_size sp) by (apply (si_X _ _ _ _ HI); set_solver).
  pose proof (si_size _ _ _ _ HI) as Hsz. injection Hc as Hob Hb Hrq.
  assert (Hg : IE_BITS_GEN (MACH_PORT_GEN name) = MACH_PORT_GEN name) by apply (MACH_PORT_GEN_ok name).
  assert (Ht : IE_BITS_TYPE (MACH_PORT_GEN name) = MACH_PORT_TYPE_NONE) by (rewrite <- Hg; apply IE_BITS_TYPE_GEN).
  unfold header_dealloc. rewrite Hd, Hr. apply bind_fails, (wp_mderef _ _ _ i); [done|].
  apply bind_fails. unfold ie_get. eapply wp_in_space; [done|]. apply wp_tget; [lia|]. rewrite put_space_id by done.
  rewrite Hb, Ht. change (MACH_PORT_TYPE_NONE =? MACH_PORT_TYPE_NONE) with true. cbv iota.
  apply bind_fails, wp_bind. unfold entry_dealloc. eapply wp_in_space; [done|].
  eapply wp_mono; [|eapply (ipc_entry_dealloc_ok {[i]} H (j :: l)); [done|done|set_solver|done|done|done|done|by rewrite Hb, Hg]].
  cbv beta. intros [] sp1 (HI1 & (Hb1 & _ & _) & Hbits & _). wp_step. apply bind_failed. unfold dealloc_other.
  rewrite bool_decide_eq_false_2 by done. set (s1 := put_space s a sp1). assert (Ha1 : ks_spaces s1 !! a = Some sp1) by apply lookup_insert_eq.
  assert (Hi1 : 0 < i < is_table_size sp1) by (destruct (si_free _ _ _ _ HI1 i) as (? & _); [by left|done]).
  pose proof (si_size _ _ _ _ HI1) as Hsz1. apply bind_fails. unfold ie_get. eapply wp_in_space; [exact Ha1|]. apply wp_tget; [lia|].
  rewrite put_space_id by done. rewrite Hbits, Hb, Hg, Ht. change (MACH_PORT_TYPE_NONE =? MACH_PORT_TYPE_NONE) with true. cbn [mwhen].
  eapply entry_dealloc_freed; [exact Ha1| |exact HI1]. unfold is_active in *. by rewrite Hb1.
Qed.

(** ** A message is sent *)
Module SendExample.
Import Sample CircularExample BodyExample.

(** The message's header has a send right to port 0x100. *)
Definition letter : ipc_kmsg :=
  mk_ipc_kmsg (Z.lor MACH_MSGH_BITS_COMPLEX MACH_MSG_TYPE_PORT_SEND) 0x100 0 [] 0 0 0 80 0.
Definition letter_kernel : kstate :=
  set_ks_kmsgs {[0xa00 := letter]}
    (set_ks_ports (<[0x100 := sample_port true 3 0x1000 0x104 None 2 1]> (ks_ports sample)) sample).

(** Its body the receive right of port 0x300, and send rights to port 0x200. *)
Definition letter_body : mach_msg_user :=
  mk_mach_msg_user 0 0x104 0 [UPort 0x504 MACH_MSG_TYPE_MOVE_RECEIVE; UPort 0x204 MACH_MSG_TYPE_COPY_SEND;
    UOolPorts 0xc000 2 MACH_MSG_TYPE_COPY_SEND false MACH_MSG_VIRTUAL_COPY].

Lemma letter_kwf : kwf letter_kernel (hand [] ⊕ [RMsg 0xa00]).
Proof.
  pose proof sample_kwf as [_ [H1 H2 H3 H4] HS]. split; [| |done].
  - eapply ledger_ext; [apply (ledger_check_sound _ [RMsg 0xa00]); by vm_compute|]. intros r. unfold plus, hand. cbn [cnt]. lia.
  - split; [|done| |].
    + intros o q Hq. unfold letter_kernel in Hq. cbn [ks_ports set_ks_ports set_ks_kmsgs] in Hq.
      apply lookup_insert_Some in Hq as [[<- <-]|[_ Hq]]; [by apply sample_port_ok|by apply H1].
    + intros o [q Hq]. change (ks_psets letter_kernel) with (ks_psets sample). unfold sample. cbn [ks_psets].
      apply lookup_singleton_None. intros <-. by vm_compute in Hq.
    + intros k m Hm. unfold letter_kernel in Hm. cbn [ks_kmsgs set_ks_kmsgs] in Hm. apply lookup_singleton_Some in Hm as [<- <-].
      split; try done; intros _; vm_compute; set_solver.
Qed.

Definition letter_ports : list (Z * ipc_port) := Eval vm_compute in map_to_list (ks_ports letter_kernel).

Lemma letter_sending : sending 0x1000 8 letter_kernel.
Proof.
  split; [split|unfold unboosted; each_port letter_ports; intros _ _ _; first [by right|by left]|by eexists|done].
  - exists (fun _ => 0%nat). each_port letter_ports; by vm_compute.
  - each_port letter_ports; done.
  - each_port letter_ports; intros Ha H; first [by destruct H|by vm_compute in Ha|vm_compute; by eexists].
Qed.

Lemma sample_read s addr length names :
  vm_copyinmap s addr length = Some names ->
  length = Z.of_nat (List.length names) * sizeof_mach_port_name /\ Forall (fun name => 0 <= name < 2 ^ 32) names.
Proof.
  cbn. destruct (Z.eqb_spec length 8) as [->|]; intros H; [|done]. injection H as <-. split; [done|]. by repeat constructor.
Qed.

Lemma ipc_kmsg_copyin_body_witness :
  exists s', ipc_kmsg_copyin_body 0xa00 letter_body 0x1000 letter_kernel = Ok (MACH_MSG_SUCCESS, s') /\
    kwf s' (hand [] ⊕ [RMsg 0xa00]) /\
    exists m', ks_kmsgs s' !! 0xa00 = Some m' /\ filled 0x1000 letter (um_descriptors letter_body) letter_kernel m' s'.
Proof.
  destruct (wp_inv _ _ _ (ipc_kmsg_copyin_body_correct letter_kernel (hand []) 0xa00 letter letter_body 0x1000
    ltac:(done) empty_hand sample_read letter_kwf eq_refl eq_refl eq_refl eq_refl eq_refl ltac:(by repeat constructor)
    ltac:(done) letter_sending)) as (mr & s' & Hrun & Hpost).
  assert (Hr : match ipc_kmsg_copyin_body 0xa00 letter_body 0x1000 letter_kernel with
               | Ok (mr, _) => mr
               | Fail _ => -1
               end = MACH_MSG_SUCCESS) by (by vm_compute).
  rewrite Hrun in Hr. subst mr. exists s'. split; [exact Hrun|]. destruct Hpost as (HK & _ & Hm). split; [exact HK|exact Hm].
Defined.

(** Port 0x800 is the kernel's, and its receive right is sent to port 0x100. *)
Lemma kernel_descriptor_receive_witness :
  let s := set_ks_ports (<[0x800 := sample_port true 1 0x9000 0x900 None 0 0]> (ks_ports sample)) sample in
  kernel_descriptor 0xa00 0x100 (PortDescriptor 0x800 MACH_MSG_TYPE_MOVE_RECEIVE) s = Fail FAssert.
Proof.
  intros s. apply (kernel_descriptor_receive s 0xa00 0x800 (sample_port true 1 0x9000 0x900 None 0 0) 0x100
    (sample_port true 2 0x1000 0x104 None 1 1)); done.
Defined.

(** Name 0x204 has two references to a send right, and both are moved. *)
Definition twice : mach_msg_user :=
  mk_mach_msg_user (MACH_MSGH_BITS MACH_MSG_TYPE_MOVE_SEND MACH_MSG_TYPE_MOVE_SEND) 0x204 0x204 [].
Definition twice_kernel : kstate := set_ks_kmsgs {[0xa00 := mk_ipc_kmsg 0 0 0 [] 0 0 0 36 0]} sample.
Definition twice_copied : (header_ports * kstate) + fault :=
  Eval vm_compute in
    match copyin_dest_reply 0x1000 0x204 MACH_MSG_TYPE_MOVE_SEND MACH_MSG_TYPE_MOVE_SEND twice_kernel with
    | Ok (_, hp, s) => inl (hp, s)
    | Fail f => inr f
    end.

Lemma header_dealloc_same_entry_witness :
  match twice_copied with
  | inl (hp, s) => header_dealloc 0x1000 0x204 0x204 0 hp s = Fail FAssert
  | inr _ => False
  end /\
  ipc_kmsg_copyin_header 0xa00 twice 0x1000 0 twice_kernel = Fail FAssert.
Proof.
  split; [|by vm_compute]. unfold twice_copied.
  eapply (header_dealloc_same_entry _ 0x1000 _ {[6]} 8 (seqZ 9 7)); [reflexivity|reflexivity| | |reflexivity..].
  - apply space_check_sound. by vm_compute.
  - by vm_compute.
Defined.
End SendExample.
