(* ===== verification/IpcBuffer.v ===== *)
(** * Arrays of ports, converted in place (ipc_kmsg.c)

    The kernel's copy of an out-of-line array of ports is one buffer: on the way in, the names
    the user gave lie in its upper half and the pointers are written from its beginning; on
    the way out, the names are written over the pointers.  [copyin_ports] and [copyout_ports]
    work on lists.  Here the loops run on the buffer, as the code has them, and are shown to
    do the same: no pointer is read after a name was written over it, and no name after a
    pointer. *)

From S2P Require Import IpcTypes IpcState IpcPort IpcDestroy IpcRight IpcObject IpcKmsg IpcSample IpcBodyOk IpcSendOk.

(** ** The buffer, in words of 32 bits *)

Definition word (data : list Z) (i : nat) : Z := default 0 (data !! i).

(** A pointer is two words, the lower one first; it has 64 bits, so its upper half is a word. *)
Definition pointer (data : list Z) (i : nat) : Z := word data (2 * i) + 2 ^ 32 * word data (2 * i + 1).
Definition set_pointer (i : nat) (object : Z) (data : list Z) : list Z :=
  <[(2 * i + 1)%nat := object / 2 ^ 32]> (<[(2 * i)%nat := object mod 2 ^ 32]> data).

(** [objects[0]] to [objects[n - 1]], and an array of pointers *)
Definition pointers (data : list Z) (n : nat) : list Z := pointer data <$> seq 0 n.
Definition pointer_words (objects : list Z) : list Z := objects ≫= fun o => [o mod 2 ^ 32; o / 2 ^ 32].

Section loops.
Context `{!ipc_env} `{!vm_env}.

(** [for ( i = 0; i < count ; i++)] of [ipc_kmsg_copyout_ool_ports_descriptor], the last [n] turns:
    [objects] and [names] both point to [dsc->address]. *)
Fixpoint copyout_buffer (n : nat) (space disp : Z) (i : nat) (data : list Z) (mr : Z) : K (Z * list Z) :=
  match n with
  | O => mret (mr, data)
  | S n =>
    '(mr1, name) ← ipc_kmsg_copyout_object space (pointer data i) disp;
    copyout_buffer n space disp (S i) (<[i := name]> data) (Z.lor mr mr1)
  end.

(** [for ( i = 0; i < count; i++)] of [ipc_kmsg_copyin_ool_ports_descriptor], the last [n] turns:
    [names] points to the upper half of the buffer. *)
Fixpoint copyin_buffer (n : nat) (kmsg space dest user_disp result_disp : Z) (count i : nat) (data : list Z)
    : K (option (list Z)) :=
  match n with
  | O => mret (Some data)
  | S n =>
    let name := word data (count + i) in
    if negb (MACH_PORT_VALID name) then
      copyin_buffer n kmsg space dest user_disp result_disp count (S i) (set_pointer i (CAST_MACH_NAME_TO_PORT name) data)
    else
      r ← ipc_object_copyin space name user_disp;
      match r with
      | inl _ => _ ← clean_ports ipc_port_destroy (pointers data i) result_disp; mret None
      | inr object =>
        circular ← (if result_disp =? MACH_MSG_TYPE_PORT_RECEIVE
                    then ipc_port_check_circularity object dest else mret false);
        _ ← mwhen circular (ikm_mod kmsg (fun k => set_msgh_bits (Z.lor (msgh_bits k) MACH_MSGH_BITS_CIRCULAR) k));
        copyin_buffer n kmsg space dest user_disp result_disp count (S i) (set_pointer i object data)
      end
  end.
End loops.

(** ** Reading and writing *)

Lemma word_insert data i j x : word (<[i := x]> data) j = if decide (i = j /\ (j < length data)%nat) then x else word data j.
Proof.
  unfold word. destruct (decide _) as [[-> Hj]|Hn]; [by rewrite list_lookup_insert_eq|].
  destruct (decide (i = j)) as [->|Hne]; [|by rewrite list_lookup_insert_ne].
  rewrite !lookup_ge_None_2; [done|..]; rewrite ?length_insert; lia.
Qed.

Lemma pointer_set_eq i object data : (2 * i + 1 < length data)%nat -> pointer (set_pointer i object data) i = object.
Proof.
  intros Hi. unfold pointer, set_pointer. rewrite !word_insert, !length_insert.
  rewrite decide_False, decide_True, decide_True by lia. pose proof (Z.div_mod object (2 ^ 32)). lia.
Qed.

Lemma word_set_ne i object data j : (j <> 2 * i)%nat -> (j <> 2 * i + 1)%nat -> word (set_pointer i object data) j = word data j.
Proof. intros. unfold set_pointer. by rewrite !word_insert, !decide_False by lia. Qed.

Lemma pointer_set_ne i object data j : i <> j -> pointer (set_pointer i object data) j = pointer data j.
Proof. intros. unfold pointer. by rewrite !word_set_ne by lia. Qed.

Lemma length_set_pointer i object data : length (set_pointer i object data) = length data.
Proof. unfold set_pointer. by rewrite !length_insert. Qed.

Lemma pointers_snoc i object data :
  (2 * i + 1 < length data)%nat -> pointers (set_pointer i object data) (S i) = pointers data i ++ [object].
Proof.
  intros Hi. unfold pointers. rewrite seq_S, fmap_app, list_fmap_singleton, Nat.add_0_l, pointer_set_eq by done. f_equal.
  apply list_fmap_ext. intros j x Hx. apply lookup_seq in Hx as [-> ?]. apply pointer_set_ne. lia.
Qed.

Lemma pointer_words_lookup objects i o :
  objects !! i = Some o -> pointer (pointer_words objects) i = o.
Proof.
  revert i. induction objects as [|x objects IH]; intros [|i] Ho; simplify_eq/=.
  - unfold pointer, word. cbn. pose proof (Z.div_mod o (2 ^ 32)). lia.
  - rewrite <- (IH i) by done. unfold pointer, word. replace (2 * S i)%nat with (S (S (2 * i))) by lia. done.
Qed.

Lemma length_pointer_words objects : length (pointer_words objects) = (2 * length objects)%nat.
Proof.
  induction objects as [|x objects IH]; [done|]. change (pointer_words (x :: objects)) with ([x mod 2 ^ 32; x / 2 ^ 32] ++ pointer_words objects).
  rewrite length_app, IH. simpl. lia.
Qed.

Section buffers.
Context {env : ipc_env} {vm : vm_env}.

(** ** The way out *)
Lemma copyout_buffer_run space disp objects : forall i data mr s,
  (forall j o, objects !! j = Some o -> pointer data (i + j) = o) -> (i + length objects <= length data)%nat ->
  copyout_buffer (length objects) space disp i data mr s =
    ('(mr', names) ← copyout_ports space disp objects mr; mret (mr', take i data ++ names ++ drop (i + length objects) data)) s.
Proof.
  induction objects as [|o objects IH]; intros i data mr s Hp Hl; cbn [copyout_buffer copyout_ports length].
  - unfold mbind, M_bind, mret, M_ret. by rewrite Nat.add_0_r, app_nil_l, take_drop.
  - replace (pointer data i) with o by (rewrite <- (Hp 0%nat o) by done; by rewrite Nat.add_0_r).
    unfold mbind, M_bind, mret, M_ret in *. destruct (ipc_kmsg_copyout_object space o disp s) as [[[mr1 name] s1]|]; [|done].
    rewrite (IH (S i)); [|intros j o' Ho'|rewrite length_insert; cbn [length] in Hl; lia].
    2:{ unfold pointer. rewrite !word_insert, !decide_False by lia. rewrite <- (Hp (S j) o' Ho').
        by replace (i + S j)%nat with (S i + j)%nat by lia. }
    destruct (copyout_ports space disp objects (Z.lor mr mr1) s1) as [[[mr' names] s2]|]; [|done].
    do 3 f_equal. cbn [length] in Hl. rewrite (take_S_r _ _ name) by (rewrite list_lookup_insert_eq; [done|lia]).
    rewrite take_insert_ge, drop_insert_lt by lia. by rewrite <- app_assoc, Nat.add_succ_r.
Qed.

(** ** The way in *)
Lemma bind_ext {A B} (m : K A) (f g : A -> K B) s : (forall a s', f a s' = g a s') -> (m ≫= f) s = (m ≫= g) s.
Proof. intros H. unfold mbind, M_bind. destruct (m s) as [[a s']|]; [apply H|done]. Qed.

Lemma bind_assoc {A B C} (m : K A) (f : A -> K B) (g : B -> K C) s : ((m ≫= f) ≫= g) s = (m ≫= fun a => f a ≫= g) s.
Proof. unfold mbind, M_bind. by destruct (m s) as [[a s']|]. Qed.

(** The objects are read from the buffer at the end. *)
Lemma copyin_buffer_run kmsg space dest user_disp result_disp names : forall count i data s,
  (i + length names = count)%nat -> length data = (2 * count)%nat ->
  (forall j name, names !! j = Some name -> word data (count + (i + j)) = name) ->
  (d ← copyin_buffer (length names) kmsg space dest user_disp result_disp count i data;
   mret (option_map (fun data => pointers data count) d)) s =
  copyin_ports kmsg space dest user_disp result_disp names (pointers data i) s.
Proof.
  induction names as [|name names IH]; intros count i data s Hc Hl Hn; cbn [copyin_buffer copyin_ports length] in *.
  { unfold mbind, M_bind, mret, M_ret. simpl. by rewrite <- Hc, Nat.add_0_r. }
  assert (Hword : word data (count + i) = name) by (rewrite <- (Hn 0%nat name) by done; by rewrite Nat.add_0_r).
  assert (Hrest : forall object s, (d ← copyin_buffer (length names) kmsg space dest user_disp result_disp count (S i) (set_pointer i object data);
      mret (option_map (fun data => pointers data count) d)) s =
    copyin_ports kmsg space dest user_disp result_disp names (pointers data i ++ [object]) s).
  { intros object s'. rewrite IH, pointers_snoc; [done|lia|lia|by rewrite length_set_pointer|].
    intros j name' Hj. rewrite word_set_ne by lia. rewrite <- (Hn (S j) name' Hj). f_equal. lia. }
  rewrite Hword. destruct (negb (MACH_PORT_VALID name)); [apply Hrest|].
  rewrite bind_assoc. apply bind_ext. intros [kr|object] s1.
  - unfold mbind, M_bind, mret, M_ret. by destruct (clean_ports _ _ _ s1) as [[[] s2]|].
  - rewrite bind_assoc. apply bind_ext. intros circular s2. rewrite bind_assoc. apply bind_ext. intros _ s3. apply Hrest.
Qed.
End buffers.

(** C15 Arrays of ports are converted in place, and nothing is overwritten before it is read: on
    the way out, the loop that writes the names over the pointers of the same buffer gives the
    codes, the names and the kernel that going through the pointers one by one gives, and the
    names lie at the beginning of the buffer; on the way in, the loop that writes the pointers
    from the beginning of the buffer over the names in its upper half gives the pointers, or
    the failure with its clean-up, and the kernel that going through the names gives. *)
Theorem port_arrays_in_place {env : ipc_env} {vm : vm_env} :
  (forall space disp objects mr s,
    copyout_buffer (length objects) space disp 0 (pointer_words objects) mr s =
      ('(mr', names) ← copyout_ports space disp objects mr;
       mret (mr', names ++ drop (length objects) (pointer_words objects))) s) /\
  (forall kmsg space dest user_disp result_disp names lower s, length lower = length names ->
    (d ← copyin_buffer (length names) kmsg space dest user_disp result_disp (length names) 0 (lower ++ names);
     mret (option_map (fun data => pointers data (length names)) d)) s =
      copyin_ports kmsg space dest user_disp result_disp names [] s).
Proof.
  split.
  - intros. rewrite (copyout_buffer_run _ _ _ 0); [done| |by rewrite length_pointer_words; lia].
    intros j o Ho. by apply pointer_words_lookup.
  - intros. rewrite (copyin_buffer_run _ _ _ _ _ _ _ 0); [done|done|rewrite length_app; lia|].
    intros j name Hj. unfold word. rewrite lookup_app_r by lia. replace (_ - _)%nat with j by lia. by rewrite Hj.
Qed.


(** ** Two names, one of them no name *)
Module BufferExample.
Import Sample BodyExample SendExample.

Lemma port_arrays_in_place_witness :
  exists data s', copyin_buffer 2 0xa00 0x1000 0x100 MACH_MSG_TYPE_COPY_SEND MACH_MSG_TYPE_PORT_SEND 2 0 [7; 7; 0x204; 0] letter_kernel
      = Ok (Some data, s') /\ pointers data 2 = [0x200; 0].
Proof.
  pose proof (proj2 port_arrays_in_place 0xa00 0x1000 0x100 MACH_MSG_TYPE_COPY_SEND MACH_MSG_TYPE_PORT_SEND [0x204; 0] [7; 7]
    letter_kernel eq_refl) as H.
  assert (Hr : match copyin_ports 0xa00 0x1000 0x100 MACH_MSG_TYPE_COPY_SEND MACH_MSG_TYPE_PORT_SEND [0x204; 0] [] letter_kernel with
               | Ok (r, _) => r
               | Fail _ => None
               end = Some [0x200; 0]) by (by vm_compute).
  rewrite <- H in Hr. unfold mbind, M_bind, mret, M_ret in Hr. cbn [length app] in Hr.
  destruct (copyin_buffer _ _ _ _ _ _ _ _ _ _) as [[[data|] s']|]; cbn [option_map] in Hr; [|done|done].
  exists data, s'. split; [done|]. congruence.
Defined.
End BufferExample.
