(* ===== verification/IpcArriveOk.v ===== *)
(** * The steps of a receive (ipc_kmsg.c, ipc_port.c)

    What [ipc_kmsg_copyout_header] does, one step at a time: the send-possible notifications
    of the destination are sent; entries are held in the receiver's space; the reply port and
    the voucher are given names there; the destination is told under the name it has.  Each
    step consumes the right it is about, whichever of the ports are dead, and the kernel stays
    balanced. *)

From S2P Require Import IpcTypes IpcBits IpcHash IpcEntry IpcGrow IpcState IpcLedger IpcPort IpcRequest IpcDestroy IpcRight IpcObject MachPort IpcKmsg IpcGentle IpcFocus IpcSample IpcRightOk IpcDeltaOk IpcPortOk IpcCopyOk IpcDesk IpcDestroyOk IpcCircularOk IpcFrame IpcAllocOk IpcCopyoutOk IpcBodyOk IpcSendOk IpcTable.

(** ** Send-possible notifications *)

(** The slot [k] of a table once its notification is sent *)
Definition table_disarm (t : list ipc_port_request) (k : Z) : list ipc_port_request :=
  rput t k (set_ipr_soright IP_NULL (rat t k)).

Section disarm.
Context `{!ipc_env}.

Lemma rat_disarm t k j :
  0 < k < rlen t -> 0 <= j -> rat (table_disarm t k) j = if decide (k = j) then set_ipr_soright IP_NULL (rat t k) else rat t j.
Proof. intros. unfold table_disarm. by rewrite rat_put by lia. Qed.

Lemma name_disarm t k j : 0 < k < rlen t -> 0 <= j -> ipr_name (rat (table_disarm t k) j) = ipr_name (rat t j).
Proof. intros. rewrite rat_disarm by done. by destruct (decide (k = j)) as [->|]. Qed.

Lemma table_disarm_ok t k l :
  requests_free t l -> 0 < k < rlen t -> ipr_name (rat t k) <> MACH_PORT_NULL -> requests_free (table_disarm t k) l.
Proof.
  intros [Hs Hl Hc Hnd Hf Hd] Hk Hn.
  assert (Hlen : rlen (table_disarm t k) = rlen t) by apply rlen_put.
  assert (Hkl : k ∉ l) by (intros [_ ?]%Hf; done).
  split; rewrite ?Hlen; try done.
  - rewrite rat_disarm by lia. by rewrite decide_False by lia.
  - rewrite rat_disarm by lia. rewrite decide_False by lia. eapply rchain_ext; [|done]. intros j Hj.
    assert (Hjr := Hj). apply Hf in Hjr as [Hjr _]. rewrite rat_disarm by lia. by rewrite decide_False by (by intros ->).
  - intros j. rewrite Hf. unfold slot_free. rewrite Hlen. split; (intros [Hj Hnm]; split; [done|]).
    + by rewrite name_disarm by lia.
    + by rewrite name_disarm in Hnm by lia.
  - intros j Hj. rewrite name_disarm by lia. by apply Hd.
Qed.

Lemma table_disarm_rights t k r :
  0 < k < rlen t -> ipr_name (rat t k) <> MACH_PORT_NULL ->
  cnt r (requests_rights (Some (table_disarm t k))) =
    cnt r (requests_rights (Some t)) - cnt r (sonce_rights (IPR_SOR_PORT (ipr_soright (rat t k)))).
Proof.
  intros Hk Hn. unfold table_disarm. rewrite requests_rights_put by done. unfold slot_rights.
  change (ipr_name (set_ipr_soright _ ?x)) with (ipr_name x). rewrite (proj2 (Z.eqb_neq _ _) Hn). cbn [negb when].
  change (sonce_rights (IPR_SOR_PORT (ipr_soright (set_ipr_soright IP_NULL _)))) with (@nil right). simpl. lia.
Qed.

Lemma table_disarm_count t k j n : 0 < k < rlen t -> slot_count (Some (table_disarm t k)) j n = slot_count (Some t) j n.
Proof.
  intros Hk. destruct (Z.le_gt_cases j 0) as [Hj|Hj]; [by rewrite !(slot_count_nonpos _ j)|].
  rewrite !slot_count_at by lia. by rewrite name_disarm by lia.
Qed.
End disarm.

(** The ports keep their references, their state and their receivers. *)
Definition alike (p p' : ipc_port) : Prop :=
  ip_references p' = ip_references p /\ ip_bits p' = ip_bits p /\ ip_receiver p' = ip_receiver p /\
  ip_receiver_name p' = ip_receiver_name p.
Definition all_alike (P P' : gmap Z ipc_port) : Prop := forall x, option_Forall2 alike (P !! x) (P' !! x).

#[global] Instance all_alike_refl : Reflexive all_alike.
Proof. intros P x. destruct (P !! x); by constructor. Qed.

Lemma all_alike_insert P P' o p p' :
  P !! o = Some p -> alike p p' -> all_alike (<[o := p']> P) P' -> all_alike P P'.
Proof.
  intros Ho Hp Hall x. specialize (Hall x). rewrite lookup_insert in Hall. destruct (decide (o = x)) as [<-|]; [|done].
  rewrite Ho. inversion Hall as [? p2 Hp2 E1 E2|]; subst. constructor. destruct Hp as (? & ? & ? & ?), Hp2 as (? & ? & ? & ?).
  split_and!; congruence.
Qed.

Lemma all_alike_none P P' x : all_alike P P' -> P !! x = None -> P' !! x = None.
Proof. intros Hall Hx. specialize (Hall x). rewrite Hx in Hall. by inversion Hall. Qed.

Section spnotify.
Context {env : ipc_env} (s0 : kstate) (a i name : Z).
Local Abbreviation foc := (focus s0 a i name).

(** A notification leaves the table. *)
Lemma wf_disarm s P L ev T o p t l k Q :
  foc s P L ev T -> P !! o = Some p -> ip_active p = true -> ip_requests p = Some t -> requests_free t l -> 0 < k < rlen t ->
  ipr_name (rat t k) <> MACH_PORT_NULL ->
  (forall s', foc s' (<[o := set_ip_requests (Some (table_disarm t k)) p]> P) L ev
    (T ⊕ sonce_rights (IPR_SOR_PORT (ipr_soright (rat t k)))) -> Q tt s') ->
  wp (ipr_mod o k (set_ipr_soright IP_NULL)) s Q.
Proof.
  intros HF Ho Ha Ht Hf Hk Hn HQ. pose proof (fc_port_ok _ _ _ _ _ _ _ _ _ HF o p Ho) as Hok.
  eapply (wp_ipr_mod o k _ p t); [by rewrite (fc_ports _ _ _ _ _ _ _ _ _ HF)|done|lia|]. apply HQ.
  eapply fc_ext; [eapply (fc_put_port _ _ _ _ _ _ _ _ _ o p)|]; [done|done| |done|].
  - eapply port_ok_change; [done|done|apply Hok|apply Hok|apply Hok| |done|by left|done|apply Hok|done].
    simpl. eexists. by apply (table_disarm_ok t k l).
  - intros r. cbv beta. rewrite move_active by done.
    change (ip_requests (set_ip_requests ?q _)) with q. rewrite Ht. fold (table_disarm t k).
    rewrite table_disarm_rights by done.
    change (transit_rights (set_ip_requests _ _)) with (transit_rights p).
    change (home_rights o (set_ip_requests _ _)) with (home_rights o p).
    assert (Hsm : slot_move o p (set_ip_requests (Some (table_disarm t k)) p) r = 0).
    { destruct r; cbn [slot_move]; try done.
      - change (ip_requests (set_ip_requests ?q _)) with q. destruct (decide _); [|lia]. rewrite Ht, table_disarm_count by done. lia.
      - change (transit_count (set_ip_requests _ p)) with (transit_count p). destruct (decide _); lia. }
    rewrite Hsm. unfold plus. simpl. lia.
Qed.

Lemma wf_spnotify_loop fuel : forall s P L ev T o p t index Q,
  foc s P L ev T -> P !! o = Some p -> ip_requests p = Some t -> 0 <= index < rlen t ->
  (Z.to_nat (rlen t - index) <= S fuel)%nat ->
  (forall s' P' L', foc s' P' L' ev T -> all_alike P P' -> Q tt s') ->
  wp (spnotify_loop fuel o index (rlen t)) s Q.
Proof.
  induction fuel as [|fuel IH]; intros s P L ev T o p t index Q HF Ho Ht Hi Hfuel HQ;
    cbn [spnotify_loop]; cbv zeta; apply wp_bind; (eapply wf_ip_get; [done|done|]);
    destruct (ip_active p) eqn:Ha; cbn [negb orb]; try (wp_step; by apply (HQ s P L));
    destruct (Z.leb_spec (rlen t) (index + 1)) as [Hle|Hlt]; try (wp_step; by apply (HQ s P L)); [lia|].
  pose proof (po_requests _ _ (fc_port_ok _ _ _ _ _ _ _ _ _ HF o p Ho)) as Hrq. rewrite Ht in *. destruct Hrq as [l Hf].
  wp_step. wp_step; [by apply bool_decide_eq_true; eexists|]. apply wp_bind, (wp_mderef _ _ _ t); [done|].
  apply wp_bind, (wp_lift _ _ _ (rat t (index + 1))); [apply ipr_get_at; lia|]. set (ipr := rat t (index + 1)). apply wp_bind.
  destruct (MACH_PORT_VALID (ipr_name ipr)) eqn:Hn; cbn [andb]; [|wp_step; by eapply (IH s P L ev T o p); try lia].
  destruct (IPR_SOR_SPARMED (ipr_soright ipr)); cbn [andb]; [|wp_step; by eapply (IH s P L ev T o p); try lia].
  destruct (IP_VALID (IPR_SOR_PORT (ipr_soright ipr))) eqn:Hv; [|wp_step; by eapply (IH s P L ev T o p); try lia].
  apply wp_bind. eapply wf_disarm; [exact HF|done|done|done|done|lia| |].
  { fold ipr. intros H0. by rewrite H0 in Hn. }
  fold ipr. intros s1 HF1. eapply wf_log; [exact HF1|]. intros s2 HF2.
  assert (Hlen : rlen (table_disarm t (index + 1)) = rlen t) by apply rlen_put. rewrite <- Hlen.
  eapply fc_ext with (T' := T) in HF2.
  2:{ intros r. unfold plus, minus, sonce_rights. destruct (Z.eqb_spec (IPR_SOR_PORT (ipr_soright ipr)) IP_NULL) as [He|];
        [by rewrite He in Hv|]. simpl. lia. }
  eapply IH; [exact HF2|apply lookup_insert_eq|done|rewrite Hlen; lia|rewrite Hlen; lia|].
  intros s' P' L' HF' Hdom. eapply HQ; [exact HF'|]. eapply all_alike_insert; [exact Ho| |exact Hdom]. done.
Qed.

(** A port with send-possible requests has a table. *)
Definition tabled (p : ipc_port) : Prop := ip_sprequests p = true -> ip_active p = true -> is_Some (ip_requests p).

Lemma wf_impcount_less s P L ev T o p Q :
  foc s P L ev T -> P !! o = Some p ->
  (forall s' n v, foc s' (<[o := set_ip_impcount n p]> P) L ev T -> Q v s') -> wp (ipc_port_impcount_delta o (-1)) s Q.
Proof.
  intros HF Ho HQ. pose proof (fc_port_ok _ _ _ _ _ _ _ _ _ HF o p Ho) as Hok. pose proof (po_impcount _ _ Hok) as Hc.
  unfold ipc_port_impcount_delta. apply wp_bind. eapply wf_ip_get; [done|done|].
  assert (Hmod : forall n (v : Z), 0 <= n < 2 ^ 24 -> wp (_ ← ip_mod o (set_ip_impcount n); mret v) s Q).
  { intros n v Hn. apply wp_bind. eapply (wf_ip_counts _ _ _ _ _ _ _ _ _ _ p); [done|done|..]; try done; simpl; try apply Hok.
    intros s1 HF1. wp_step. eapply HQ. eapply fc_ext; [exact HF1|]. intros r. cbv beta. lia. }
  destruct (ip_active p); cbn [negb].
  - change (0 <=? -1) with false. cbv iota zeta. destruct (Z.leb_spec (0 - -1) (ip_impcount p)); apply Hmod; lia.
  - wp_step. apply (HQ s (ip_impcount p)). by replace (set_ip_impcount (ip_impcount p) p) with p by (by destruct p); rewrite insert_id.
Qed.

(** ** The destination *)

(** The name under which a space has the receive right of a live port *)
Definition home_name (space : Z) (p : ipc_port) : Z := if ip_receiver p =? space then ip_receiver_name p else MACH_PORT_NULL.

Lemma wf_object_copyout_dest s P L ev T space o d p Q :
  foc s P L ev (T ⊕ disposition_rights d o) -> hand_ok T -> d ∈ [MACH_MSG_TYPE_PORT_SEND; MACH_MSG_TYPE_PORT_SEND_ONCE] ->
  P !! o = Some p -> ip_active p = true ->
  (forall s' p' L', foc s' (<[o := p']> P) L' ev T -> Q (home_name space p) s') ->
  wp (ipc_object_copyout_dest space o d) s Q.
Proof.
  intros HF HT Hd Ho Ha HQ. pose proof (fc_port_ok _ _ _ _ _ _ _ _ _ HF o p Ho) as Hok. assert (Hv : IO_VALID o = true) by exact (po_valid _ _ Hok).
  unfold ipc_object_copyout_dest, home_name in *. wp_step. wp_step; [done|]. apply wp_bind. eapply wf_io_bits; [done|done|].
  wp_step. wp_step; [done|].
  set (x := if d =? MACH_MSG_TYPE_PORT_SEND then RSend o else RSonce o).
  assert (Hdr : disposition_rights d o = [RRef o; x]).
  { unfold x, disposition_rights. rewrite Hv. rewrite !elem_of_cons in Hd. by destruct Hd as [->|[->|[]%elem_of_nil]]. }
  assert (Hx : x <> RLive o /\ x <> RRef o) by (unfold x; destruct (d =? MACH_MSG_TYPE_PORT_SEND); split; intros He; discriminate He).
  rewrite Hdr in HF. pose proof (proj1 HT (RLive o)). destruct (proj2 HT o) as (Hlr & _).
  assert (Hlive : 0 <= (T ⊕ [RRef o; x]) (RLive o) < (T ⊕ [RRef o; x]) (RRef o)).
  { unfold plus. cbn [cnt]. rewrite ind_eq, !ind_ne by naive_solver. lia. }
  destruct (fc_refs _ _ _ _ _ _ _ _ _ HF o p Ho) as (_ & _ & _ & Hlast).
  assert (Hr : ip_references p <> 1) by (intros Hr; specialize (Hlast Hlive Hr); congruence).
  apply wp_bind. eapply wf_release; [exact HF|done|done|]. unfold unref. rewrite (proj2 (Z.eqb_neq _ _) Hr).
  intros s1 P1 HF1 ->. set (p1 := set_ip_references _ p) in HF1. apply wp_bind. eapply wf_ip_get; [exact HF1|apply lookup_insert_eq|].
  change (ip_receiver p1) with (ip_receiver p). change (ip_receiver_name p1) with (ip_receiver_name p).
  assert (Hp1 : <[o := p1]> P !! o = Some p1) by apply lookup_insert_eq. pose proof (fc_count_ge _ _ _ _ _ _ _ _ _ HF1 o p1) as Hge.
  pose proof (proj1 HT (RSend o)). pose proof (proj1 HT (RSonce o)). unfold x in *. clear x.
  rewrite !elem_of_cons in Hd. destruct Hd as [->|[->|[]%elem_of_nil]].
  - change (MACH_MSG_TYPE_PORT_SEND =? MACH_MSG_TYPE_PORT_SEND) with true in *. cbv iota in *.
    assert (Hs : 0 < ip_srights p1).
    { specialize (Hge (RSend o) Hp1 eq_refl). revert Hge. unfold plus, minus. cbn [cnt port_count]. hand_at. lia. }
    wp_step. wp_step; [by apply Z.ltb_lt|]. apply wp_bind. eapply wf_drop_sright; [exact HF1|done|done|done|].
    rewrite insert_insert_eq. intros s2 HF2. apply wp_bind. eapply wf_send_no_senders; [exact HF2|]. intros s3 HF3. wp_step.
    eapply HQ. eapply fc_ext; [exact HF3|]. same_hand.
  - change (MACH_MSG_TYPE_PORT_SEND_ONCE =? MACH_MSG_TYPE_PORT_SEND) with false in *.
    change (MACH_MSG_TYPE_PORT_SEND_ONCE =? MACH_MSG_TYPE_PORT_SEND_ONCE) with true. cbv iota in *.
    assert (Hs : 0 < ip_sorights p1).
    { specialize (Hge (RSonce o) Hp1 eq_refl). revert Hge. unfold plus, minus. cbn [cnt port_count]. hand_at. lia. }
    wp_step. wp_step; [by apply Z.ltb_lt|]. destruct (ip_receiver p =? space).
    + apply wp_bind. pose proof (fc_port_ok _ _ _ _ _ _ _ _ _ HF1 o p1 Hp1) as Hok1.
      eapply (wf_ip_counts _ _ _ _ _ _ _ _ _ o p1 _ T); [exact HF1|done|..]; try done; try apply Hok1; change (ip_sorights p1) with (ip_sorights p) in *;
        simpl; [lia|intros r; unfold plus, minus; cbn [cnt]; lia|].
      rewrite insert_insert_eq. intros s2 HF2. wp_step. by eapply HQ.
    + apply wp_bind. eapply wf_reference; [exact HF1|done|simpl; pose proof (po_refs _ _ Hok); lia|]. rewrite insert_insert_eq. intros s2 HF2.
      apply wp_bind. eapply wf_log; [exact HF2|]. intros s3 HF3. wp_step. eapply HQ. eapply fc_ext; [exact HF3|].
      intros r. unfold plus, minus, event_rights, sonce_rights. destruct (Z.eqb_spec o IP_NULL) as [He|]; [by rewrite He in Hv|]. cbn [cnt]. lia.
Qed.

Lemma wf_spnotify s P L ev T o p Q :
  foc s P L ev T -> P !! o = Some p -> tabled p ->
  (forall s' P' L', foc s' P' L' ev T -> all_alike P P' -> Q tt s') ->
  wp (ipc_port_spnotify o) s Q.
Proof.
  intros HF Ho Htab HQ. unfold ipc_port_spnotify. apply wp_bind. eapply wf_ip_get; [done|done|].
  destruct (ip_sprequests p) eqn:Hsp; cbn [negb]; [|wp_step; by apply (HQ s P L)]. apply wp_bind.
  set (rest := fun (b : bool) s1 => exists p1, foc s1 (<[o := p1]> P) L ev T /\ alike p p1 /\ ip_requests p1 = ip_requests p).
  apply (wp_mono _ _ rest).
  2:{ destruct (ip_spimportant p).
      - apply wp_bind. eapply wf_ip_quiet; [exact HF|done|quiet_port|]. intros s1 HF1. apply wp_bind.
        eapply wf_impcount_less; [exact HF1|apply lookup_insert_eq|]. intros s2 n v HF2. wp_step. rewrite insert_insert_eq in HF2. by eexists.
      - wp_step. exists p. by rewrite insert_id. }
  intros dropped s1 (p1 & HF1 & Ha1 & Hr1). apply wp_bind. eapply wf_ip_quiet; [exact HF1|apply lookup_insert_eq|quiet_port|].
  rewrite insert_insert_eq. intros s2 HF2. apply wp_bind.
  apply (wp_mono _ _ (fun _ s' => exists P' L', foc s' P' L' ev T /\ all_alike P P')).
  { intros _ s3 (P3 & L3 & HF3 & Hdom). destruct (_ && _); cbn [mwhen].
    - eapply wf_log; [exact HF3|]. intros s4 HF4. eapply HQ; [|exact Hdom]. eapply fc_ext; [exact HF4|]. intros r. unfold minus. simpl. lia.
    - apply (wp_ret tt). by eapply HQ. }
  assert (Hdom2 : forall P', all_alike (<[o := set_ip_sprequests false p1]> P) P' -> all_alike P P').
  { intros P'. by apply all_alike_insert with p. }
  destruct (ip_active p) eqn:Ha; cbn [mwhen]; [|apply (wp_ret tt); eexists _, _; split; [exact HF2|by apply Hdom2]].
  destruct (Htab Hsp Ha) as [t Ht]. rewrite Ht in Hr1 |- *. clear rest. wp_step. wp_step; [by apply bool_decide_eq_true; eexists|].
  pose proof (po_requests _ _ (fc_port_ok _ _ _ _ _ _ _ _ _ HF o p Ho)) as Hrq. rewrite Ht in Hrq. destruct Hrq as [l Hf].
  apply wp_bind, (wp_mderef _ _ _ t); [done|]. pose proof (rf_len _ _ Hf).
  apply wp_bind, (wp_lift _ _ _ (rat t 0)); [apply ipr_get_at; lia|]. apply wp_bind, (wp_lift _ _ _ (rlen t)); [apply Hf|].
  eapply wf_spnotify_loop; [exact HF2|apply lookup_insert_eq|done|lia|lia|].
  intros s3 P3 L3 HF3 Hdom. exists P3, L3. split; [done|]. auto.
Qed.
End spnotify.

(** ** Programs that leave a port's state and its receiver alone *)

Definition same_place (p p' : ipc_port) : Prop :=
  ip_bits p' = ip_bits p /\ ip_receiver p' = ip_receiver p /\ ip_receiver_name p' = ip_receiver_name p.

Definition steady {A} (m : K A) : Prop :=
  forall s a s', m s = Ok (a, s') -> forall o p', ks_ports s' !! o = Some p' -> exists p, ks_ports s !! o = Some p /\ same_place p p'.

Lemma steady_portless {A} (m : K A) : portless m -> steady m.
Proof. intros H s a s' Hm o p' Ho. rewrite (H s a s' Hm) in Ho. by exists p'. Qed.

Lemma steady_barren {A} (m : K A) : steady m -> barren m.
Proof.
  intros H s a s' Hm o Ho. destruct (ks_ports s' !! o) as [p'|] eqn:Hp; [|done].
  destruct (H s a s' Hm o p' Hp) as (p & Hp' & _). congruence.
Qed.

Lemma steady_bind {A B} (m : K A) (f : A -> K B) : steady m -> (forall a, steady (f a)) -> steady (m ≫= f).
Proof.
  intros Hm Hf s b s' (a & s1 & H1 & H2)%bind_Ok o p2 Ho. destruct (Hf a s1 b s' H2 o p2 Ho) as (p1 & Ho1 & E1 & E2 & E3).
  destruct (Hm s a s1 H1 o p1 Ho1) as (p & Hp & F1 & F2 & F3). exists p. split; [done|]. split_and!; congruence.
Qed.

Lemma steady_ip_mod o f : (forall p, same_place p (f p)) -> steady (ip_mod o f).
Proof.
  intros Hf s a s' (p & s1 & H1 & H2)%bind_Ok x px Hx. unfold ip_get in H1. destruct (ks_ports s !! o) as [q|] eqn:Ho; [|done].
  injection H1 as <- <-. injection H2 as <- <-. simpl in Hx. rewrite lookup_insert in Hx.
  destruct (decide (o = x)) as [<-|]; [injection Hx as <-; by exists q|by exists px].
Qed.

Lemma steady_delete o : steady (modify (fun s => set_ks_ports (delete o (ks_ports s)) s) : K unit).
Proof. intros s a s' [= <- <-] x p Hx. simpl in Hx. apply lookup_delete_Some in Hx as [_ Hx]. by exists p. Qed.

Lemma steady_mwhen b (m : K unit) : steady m -> steady (mwhen b m).
Proof. destruct b; [done|]. intros _. apply steady_portless, portless_ret. Qed.

Create HintDb steady.
Ltac steady :=
  cbv zeta;
  lazymatch goal with
  | |- steady (_ ≫= _) => apply steady_bind; [steady|intros ?; steady]
  | |- steady (mwhen _ _) => apply steady_mwhen; steady
  | |- steady (ip_mod _ _) => by apply steady_ip_mod
  | |- steady (modify (fun s => set_ks_ports _ _)) => apply steady_delete
  | |- steady (match ?x with _ => _ end) => destruct x; steady
  | |- _ => first [ solve [auto with steady] | apply steady_portless; solve [portless]
                  | progress autounfold with gentle; steady ]
  end.

Lemma steady_io_reference o : steady (io_reference o).
Proof. unfold io_reference, io_references, io_set_references. steady. Qed.
Lemma steady_io_release o : steady (io_release o).
Proof. unfold io_release, io_references, io_set_references, io_free, ipc_port_finalize, ipc_mqueue_deinit. steady. Qed.
#[export] Hint Resolve steady_io_reference steady_io_release : steady.

Lemma steady_right_copyout {env : ipc_env} a name i d overflow o :
  d <> MACH_MSG_TYPE_PORT_RECEIVE -> steady (ipc_right_copyout a name i d overflow o).
Proof.
  intros Hd. unfold ipc_right_copyout, copyout_send_once, copyout_send. rewrite (proj2 (Z.eqb_neq d MACH_MSG_TYPE_PORT_RECEIVE)) by done.
  steady.
Qed.

Lemma steady_reply {env : ipc_env} a o d n : d <> MACH_MSG_TYPE_PORT_RECEIVE -> steady (copyout_reply a o d n).
Proof.
  intros Hd. pose proof (steady_right_copyout (env := env) a). pose proof (portless_right_reverse a).
  unfold copyout_reply, copyout_claim. steady.
Qed.

(** ** Free entries *)

Lemma take_NoDup {A} n (l : list A) : NoDup l -> NoDup (take n l).
Proof. rewrite <- (take_drop n l) at 1. by intros [? _]%NoDup_app. Qed.

(** [n] free entries *)
Definition frees (n : nat) (sp : ipc_space) : Prop :=
  exists l, length l = n /\ NoDup l /\ Forall (fun j => 0 < j < is_table_size sp /\
    IE_BITS_TYPE (ie_bits (entry_at (is_table sp) j)) = MACH_PORT_TYPE_NONE) l.

Lemma frees_list sp H l n : space_inv ∅ H l sp -> frees n sp <-> (n <= length l)%nat.
Proof.
  intros HI. split.
  - intros (js & <- & Hnd & Hjs). apply submseteq_length, NoDup_submseteq; [done|]. intros j Hj.
    rewrite Forall_forall in Hjs. destruct (Hjs j Hj) as [Hr Ht]. apply (si_all _ _ _ _ HI); [done|set_solver|done].
  - intros Hn. exists (take n l). split_and!; [by apply length_take_le|apply take_NoDup, HI|].
    apply Forall_take, Forall_forall. intros j Hj. by destruct (si_free _ _ _ _ HI j Hj) as (? & _ & ? & _).
Qed.

Lemma frees_less n m sp : frees m sp -> (n <= m)%nat -> frees n sp.
Proof.
  intros (l & Hl & Hnd & Hfr) Hn. exists (take n l). split_and!; [rewrite length_take; lia|by apply take_NoDup|by apply Forall_take].
Qed.

(** A wider table has one more. *)
Lemma frees_wider n sp sp' :
  frees n sp -> wider sp sp' -> 0 < is_table_size sp < is_table_size sp' -> frees (S n) sp'.
Proof.
  intros (l & Hl & Hnd & Hfr) (_ & _ & _ & Hold & Hnew) Hs. exists (is_table_size sp :: l). rewrite Forall_forall in Hfr.
  split_and!; [simpl; by rewrite Hl| |].
  - constructor; [|done]. intros Hin. destruct (Hfr _ Hin). lia.
  - constructor; [split; [lia|apply Hnew; lia]|]. apply Forall_forall. intros j Hj. destruct (Hfr j Hj) as [Hr Ht].
    split; [lia|]. by rewrite (proj1 (Hold j Hr)).
Qed.

(** Work on one entry leaves the others. *)
Lemma frees_kept n i sp sp' : frees (S n) sp -> kept i sp sp' -> frees n sp'.
Proof.
  intros (l & Hl & Hnd & Hfr) (_ & Hs & _ & _ & Hk). apply (frees_less n (length (filter (fun j => j <> i) l))).
  - exists (filter (fun j => j <> i) l). split_and!; [done|by apply NoDup_filter|]. apply Forall_forall.
    intros j [Hj Hin]%list_elem_of_filter. rewrite Forall_forall in Hfr. destruct (Hfr j Hin) as [Hr Ht]. rewrite Hs.
    split; [done|]. by rewrite (proj1 (Hk j Hr Hj)).
  - assert (Hle : (length l <= length (i :: filter (fun j => j <> i) l))%nat); [|simpl in Hle; lia].
    apply submseteq_length, NoDup_submseteq; [done|]. intros j Hj. apply elem_of_cons. destruct (decide (j = i)) as [|Hne]; [by left|].
    right. by apply list_elem_of_filter.
Qed.

(** ** Between the steps of a receive *)

Lemma wider_trans sp1 sp2 sp3 : 0 < is_table_size sp1 -> wider sp1 sp2 -> wider sp2 sp3 -> wider sp1 sp3.
Proof.
  intros Hpos (A1 & A2 & A3 & A4 & A5) (B1 & B2 & B3 & B4 & B5). split_and!; [congruence|congruence|lia| |].
  - intros j Hj. destruct (A4 j Hj) as [E1 E2]. destruct (B4 j ltac:(lia)) as [F1 F2]. cbv zeta in *. split; [congruence|].
    intros Hne. rewrite F2 by congruence. by apply E2.
  - intros j Hj. destruct (decide (j < is_table_size sp2)) as [Hlt|Hge]; [|apply B5; lia].
    rewrite (proj1 (B4 j ltac:(lia))). apply A5. lia.
Qed.

Lemma widened_trans a s1 s2 s3 sp :
  ks_spaces s1 !! a = Some sp -> 0 < is_table_size sp -> widened a s1 s2 -> widened a s2 s3 -> widened a s1 s3.
Proof.
  intros Hsp Hpos (A1 & A2 & A3 & A4 & [A5 A5'] & A6 & A7) (B1 & B2 & B3 & B4 & [B5 B5'] & B6 & B7).
  split_and!; try congruence; [split; congruence|intros b Hb; by rewrite B6, A6|].
  rewrite Hsp in A7 |- *. inversion A7 as [x y Hxy E1 E2|]; subst. rewrite <- E2 in B7. inversion B7; subst. constructor.
  by eapply wider_trans.
Qed.
Section steps.
Context {env : ipc_env} (a : Z) (Hsz : sizes_ok ipc_table_entries).

Lemma ready_ports s s' :
  ready a s -> only_ports s s' -> (forall o, ks_ports s !! o = None -> ks_ports s' !! o = None) -> ready a s'.
Proof. intros [H1 H2 H3 H4 H5] (E1 & _ & _ & [E2 E3]) Hp. split; [by rewrite E1|auto|done|congruence|congruence]. Qed.

Lemma ready_widened s s' : ready a s -> widened a s s' -> ready a s'.
Proof.
  intros [[sp Hsp] H2 H3 H4 H5] (E1 & _ & _ & _ & [E2 E3] & _ & E4). rewrite Hsp in E4. inversion E4 as [? sp1 _ Hs1 E|].
  split; [by eexists|by rewrite E1|done|congruence|congruence].
Qed.

Lemma kwf_spnotify s T o p :
  kwf s T -> ready a s -> ks_ports s !! o = Some p -> tabled p ->
  wp (ipc_port_spnotify o) s (fun _ s' => kwf s' T /\ ready a s' /\ all_alike (ks_ports s) (ks_ports s') /\ ks_psets s' = ks_psets s).
Proof.
  intros HK Hr Ho Ht. eapply wf_spnotify; [exact (fc_rest s (nowhere s) 0 0 _ HK)|done|done|].
  intros s' P' L' HF Hdom. apply rest_end in HF as (HK' & HP & _ & Hon). rewrite HP.
  split_and!; [done| |done|apply Hon]. eapply ready_ports; [done|done|]. rewrite HP. intros x. by apply all_alike_none.
Qed.

(** A port that is in hand *)
Lemma port_in_hand s T o : kwf s T -> 0 < T (RRef o) -> ks_psets s !! o = None -> exists p, ks_ports s !! o = Some p.
Proof. intros HK. apply dk_kwf in HK. by eapply dk_port. Qed.

(** The name of the destination: the receiver's name for it, or that it died *)
Definition dest_out (space : Z) (p : ipc_port) (name : Z) : Prop :=
  if ip_active p then name = home_name space p else name ∈ [MACH_PORT_DEAD; MACH_PORT_NULL].

Lemma kwf_dest_live s T o d p :
  kwf s (T ⊕ disposition_rights d o) -> hand_ok T -> d ∈ [MACH_MSG_TYPE_PORT_SEND; MACH_MSG_TYPE_PORT_SEND_ONCE] ->
  ready a s -> ks_ports s !! o = Some p -> ip_active p = true ->
  wp (ipc_object_copyout_dest a o d) s (fun n s' =>
    kwf s' T /\ ready a s' /\ (ks_spaces s' = ks_spaces s /\ ks_psets s' = ks_psets s) /\ n = home_name a p).
Proof.
  intros HK HT Hd Hr Ho Ha. eapply wf_object_copyout_dest; [exact (fc_rest s (nowhere s) 0 0 _ HK)|done|done|done|done|]. intros s' p' L' HF.
  apply rest_end in HF as (HK' & HP & _ & Hon). split_and!; [done| |apply Hon|apply Hon|done]. eapply ready_ports; [done|done|].
  rewrite HP. intros x Hx. rewrite lookup_insert_ne; [done|congruence].
Qed.

(** The right to a dead port is forgotten with the reference. *)
Lemma kwf_dest_dead s T o d p :
  kwf s (T ⊕ disposition_rights d o) -> hand_ok T -> d ∈ [MACH_MSG_TYPE_PORT_SEND; MACH_MSG_TYPE_PORT_SEND_ONCE] ->
  ready a s -> ks_ports s !! o = Some p -> ip_active p = false ->
  wp (io_release o) s (fun _ s' => kwf s' T /\ ready a s' /\ ks_spaces s' = ks_spaces s /\ ks_psets s' = ks_psets s).
Proof.
  intros HK HT Hd Hr Ho Ha. pose proof (oo_ports _ (kw_objects _ _ HK) _ _ Ho) as Hok. assert (HD : desk s Rest (T ⊕ [RRef o])).
  { eapply dk_ext; [eapply (dk_drop s Rest (T ⊕ disposition_rights d o) [if d =? MACH_MSG_TYPE_PORT_SEND then RSend o else RSonce o])|].
    - by apply dk_kwf.
    - repeat constructor. by destruct (_ =? _); unfold slack; simpl; rewrite Ho, Ha.
    - intros r. unfold plus, minus. rewrite !elem_of_cons in Hd.
      destruct Hd as [->|[->|[]%elem_of_nil]]; [rewrite arriving_send|rewrite arriving_send_once]; try apply Hok; simpl; lia. }
  eapply dk_release; [exact HD|done|done|]. intros s1 HD1 (Hsw & _ & Hith) _ _.
  split_and!; [by apply dk_kwf| |apply Hsw|apply Hsw]. eapply ready_swept; [done|]. split; [done|by rewrite Hith].
Qed.

Lemma kwf_header_dest s T o d p reply :
  kwf s (T ⊕ disposition_rights d o) -> hand_ok T -> d ∈ [MACH_MSG_TYPE_PORT_SEND; MACH_MSG_TYPE_PORT_SEND_ONCE] ->
  ready a s -> ks_ports s !! o = Some p ->
  (IP_VALID reply = true -> 0 < T (RRef reply) /\ ks_psets s !! reply = None) ->
  wp (copyout_header_dest a o d reply) s (fun n s' =>
    kwf s' T /\ ready a s' /\ (ks_spaces s' = ks_spaces s /\ ks_psets s' = ks_psets s) /\ dest_out a p n).
Proof.
  intros HK HT Hd Hr Ho Hreply. unfold copyout_header_dest, dest_out. apply wp_bind, (wp_ip_get o p); [done|].
  destruct (ip_active p) eqn:Ha; [by apply kwf_dest_live|]. apply wp_bind. eapply wp_mono; [|by eapply kwf_dest_dead]. cbv beta.
  intros _ s1 (HK1 & Hr1 & Hsp & Hps). destruct (IP_VALID reply) eqn:Hv.
  - destruct (Hreply eq_refl) as [Hp Hs]. destruct (port_in_hand s1 T reply) as [q Hq]; [done|done|by rewrite Hps|].
    apply wp_bind, (wp_ip_get reply q); [done|]. wp_step. split_and!; try done. destruct (_ || _); set_solver.
  - wp_step. split_and!; try done. set_solver.
Qed.

(** *** Entries held for the ports *)

(** A space with free entries *)
Definition roomy (n : nat) (s : kstate) : Prop :=
  exists sp, ks_spaces s !! a = Some sp /\ is_active sp = true /\ frees n sp.

Lemma roomy_framed n i s s' : roomy (S n) s -> framed a i s s' -> roomy n s'.
Proof using.
  intros (sp & Ha & Hact & Hf) (_ & _ & _ & _ & Hk). rewrite Ha in Hk. inversion Hk as [? sp' Hkept E1 E2|]; subst.
  exists sp'. split_and!; [done| |by eapply frees_kept]. destruct Hkept as (Hb & _). unfold is_active. by rewrite Hb.
Qed.

(** One turn of the loop *)
Definition hold_turn (n : Z) (next : K bool) : K bool :=
  sp ← is_get a;
  if negb (is_active sp) then mret false else
  kr ← in_space a (ipc_entries_hold n);
  if bool_decide (kr = KERN_SUCCESS) then mret true else
  kr ← entry_grow_table a ITS_SIZE_NONE;
  if negb (bool_decide (kr = KERN_SUCCESS)) then mret false else next.

Lemma wf_hold_turn n next s T sp Q :
  kwf s T -> ks_spaces s !! a = Some sp ->
  (forall s', kwf s' T -> widened a s s' -> Q false s') ->
  (forall s', kwf s' T -> widened a s s' -> roomy n s' -> Q true s') ->
  (forall s' sp', kwf s' T -> widened a s s' -> ks_spaces s' !! a = Some sp' ->
    0 < is_table_size sp < is_table_size sp' -> ~ frees n sp -> wp next s' Q) ->
  wp (hold_turn (Z.of_nat n) next) s Q.
Proof using Hsz.
  intros HK Ha Qf Qt Qnext. unfold hold_turn.
  apply wp_bind. eapply wp_is_get; [done|]. destruct (is_active sp) eqn:Hact; cbn [negb]; [|wp_step; apply Qf; [done|apply widened_refl]].
  destruct (kw_spaces _ _ HK _ _ Ha Hact) as ((H & l & HI) & _). pose proof (frees_list _ _ _ n HI) as Hfr.
  apply wp_bind. eapply wp_in_space; [done|]. eapply wp_Ok; [by apply (ipc_entries_hold_ok _ _ _ _ HI)|]. rewrite put_space_id by done.
  destruct (Z.leb_spec (Z.of_nat n) (Z.of_nat (length l))).
  - rewrite bool_decide_eq_true_2 by done. wp_step. apply Qt; [done|apply widened_refl|].
    exists sp. split_and!; [done|done|]. apply Hfr. lia.
  - rewrite bool_decide_eq_false_2 by done. apply wp_bind.
    eapply (wf_grow_table Hsz); [done..|]. intros kr s2 sp2 HK2 Hw Ha2 [(-> & _ & Hgrow)|Hkr].
    + rewrite bool_decide_eq_true_2 by done. cbn [negb]. eapply Qnext; [done|done|exact Ha2|done|]. intros ?%Hfr. lia.
    + rewrite bool_decide_eq_false_2 by (intros ->; set_solver). cbn [negb]. wp_step. by apply Qf.
Qed.

(** Every turn adds an entry, so [n] turns are enough. *)
Lemma wf_hold_turns n T Q : forall turns m s sp,
  kwf s T -> ks_spaces s !! a = Some sp -> frees m sp -> (n <= m + turns)%nat -> n <> O ->
  (forall s', kwf s' T -> widened a s s' -> Q false s') ->
  (forall s', kwf s' T -> widened a s s' -> roomy n s' -> Q true s') ->
  wp (copyout_hold turns a (Z.of_nat n)) s Q.
Proof using Hsz.
  induction turns as [|turns IH]; intros m s sp HK Ha Hm Hn Hpos Qf Qt; cbn [copyout_hold];
    rewrite (proj2 (Z.eqb_neq _ 0)) by lia.
  - change (wp (hold_turn (Z.of_nat n) (fail FFuel)) s Q). eapply wf_hold_turn; [done|done|done|done|].
    intros s1 sp1 _ _ _ _ Hno. destruct Hno. eapply frees_less; [exact Hm|lia].
  - change (wp (hold_turn (Z.of_nat n) (copyout_hold turns a (Z.of_nat n))) s Q). eapply wf_hold_turn; [done|done|done|done|].
    intros s1 sp1 HK1 Hw1 Ha1 Hgrow _. pose proof Hw1 as (_ & _ & _ & _ & _ & _ & Hwd). rewrite Ha, Ha1 in Hwd.
    inversion Hwd as [? ? Hwide|]; subst. eapply (IH (S m)); [done|exact Ha1|by eapply frees_wider|lia|done|..].
    + intros s2 HK2 Hw2. apply Qf; [done|]. by eapply widened_trans; [|apply Hgrow|..].
    + intros s2 HK2 Hw2. apply Qt; [done|]. by eapply widened_trans; [|apply Hgrow|..].
Qed.

(** For up to two entries; nothing is looked at for none. *)
Lemma wf_hold n s T sp Q :
  kwf s T -> ks_spaces s !! a = Some sp -> (n <= 2)%nat ->
  (forall s', kwf s' T -> widened a s s' -> Q false s') ->
  (forall s', kwf s' T -> widened a s s' -> (n <> O -> roomy n s') -> Q true s') ->
  wp (copyout_hold 2 a (Z.of_nat n)) s Q.
Proof using Hsz.
  intros HK Ha Hn Qf Qt. destruct n as [|n]; [apply (wp_ret true); apply Qt; [done|apply widened_refl|done]|].
  eapply (wf_hold_turns (S n) T Q 2 0); [done|done| |lia|done|done|].
  - exists []. by split_and!; [|constructor|constructor].
  - intros s' HK' Hw Hr. by apply Qt.
Qed.

Definition vacant (s : kstate) (i : Z) : Prop :=
  forall sp, ks_spaces s !! a = Some sp -> IE_BITS_TYPE (ie_bits (entry_at (is_table sp) i)) = MACH_PORT_TYPE_NONE.

Lemma wf_entry_claim s T Q :
  kwf s T -> roomy 1 s ->
  (forall name s', MACH_PORT_VALID name = true -> 0 <= name < 2 ^ 32 -> (forall c, ~ named s a name c) -> vacant s (MACH_PORT_INDEX name) ->
    (forall T', kwf s T' -> focus s a (MACH_PORT_INDEX name) name s' (ks_ports s) (ks_log s)
       (Open (IO_NULL, MACH_PORT_GEN name, IE_REQ_NONE) false) T') ->
    Q (name, MACH_PORT_INDEX name) s') ->
  wp (in_space a ipc_entry_claim) s Q.
Proof using Hsz.
  intros HK (sp & Ha & Hact & Hfrees) HQ. pose proof (kw_spaces _ _ HK _ _ Ha) as Hwf.
  destruct (Hwf Hact) as (Hok & _). pose proof Hok as (H & l & HI). eapply wp_in_space; [done|].
  apply (frees_list _ _ _ _ HI) in Hfrees. destruct l as [|j l]; [simpl in Hfrees; lia|].
  destruct (ipc_entry_get_ok sp Hok Hact) as [[Hrun Hall]|(name & i & sp' & Hrun & Hcl & Hsb & Ht & Hw32)].
  { destruct (si_free _ _ _ _ HI j) as (Hj & _ & Htj & _); [by left|]. by destruct (Hall j Hj). }
  rewrite (ipc_entry_get_cons _ _ _ _ _ HI Hact) in Hrun. unfold mbind, M_bind in Hrun.
  destruct (ipc_entry_claim sp) as [[r sp1]|] eqn:Hclaim; [|done]. injection Hrun as -> ->.
  eapply wp_Ok; [exact Hclaim|]. destruct (at_work_claimed Hsz sp sp' name i) as [Hw Hk]; [done..|].
  destruct Hcl as (Hv & <- & _ & Hnm & _). apply HQ; [done|done|by eapply fresh_name| |].
  - intros sp1. rewrite Ha. by intros [= <-].
  - intros T' HK'. by eapply fc_claim.
Qed.

Lemma wf_claim s T o d p n Q :
  0 < n -> kwf s T -> T (RName o a) = 0 -> roomy 1 s -> ip_active p = true -> (d <> MACH_MSG_TYPE_PORT_SEND_ONCE -> held s (RName o a) = 0) ->
  (forall name s', new_place T a o d p s s' name -> vacant s (MACH_PORT_INDEX name) -> Q (name, MACH_PORT_INDEX name) s') ->
  wp (copyout_claim a o n) s Q.
Proof using Hsz.
  intros Hn HK Hnm Hroom Hpa Hnone HQ. unfold copyout_claim. wp_step. wp_step; [by apply Z.ltb_lt|]. apply wp_bind.
  eapply wf_entry_claim; [done|done|]. intros name s1 Hv Hw32 Hfresh Hvac HFs. pose proof (HFs T HK) as HF.
  apply wp_bind. eapply wf_ie_get; [done|exact HF|]. intros ix.
  assert (Ht : IE_BITS_TYPE (MACH_PORT_GEN name) = MACH_PORT_TYPE_NONE)
    by (rewrite <- (MACH_PORT_GEN_ok name); apply IE_BITS_TYPE_GEN).
  wp_step. wp_step; [cbn [ie_bits]; by rewrite Ht|]. wp_step. wp_step; [done|].
  assert (HF' : focus s a (MACH_PORT_INDEX name) name s1 (ks_ports s) (ks_log s)
    (Open (IO_NULL, MACH_PORT_GEN name, IE_REQ_NONE) false) (T ⊕ when (negb (d =? MACH_MSG_TYPE_PORT_SEND_ONCE)) [RName o a])).
  { destruct (Z.eqb_spec d MACH_MSG_TYPE_PORT_SEND_ONCE) as [Hm|Hm]; cbn [negb when].
    - eapply fc_ext; [exact HF|]. intros r. unfold plus. cbn [cnt]. lia.
    - apply HFs, kwf_new_name; [done|done|]. by apply Hnone. }
  apply wp_bind. eapply wf_ie_mod; [done|exact HF'|entry_fields|done|apply (MACH_PORT_GEN_ok name)|]. intros s2 HF2. wp_step.
  by apply HQ.
Qed.

(** *** A right that lands in an entry *)

Definition has_port (s : kstate) (i o : Z) : Prop :=
  exists sp, ks_spaces s !! a = Some sp /\ 0 < i < is_table_size sp /\ ie_object (entry_at (is_table sp) i) = o /\
    IE_BITS_TYPE (ie_bits (entry_at (is_table sp) i)) <> MACH_PORT_TYPE_NONE.

Lemma has_port_kept i s s' j o : has_port s j o -> framed a i s s' -> j <> i -> has_port s' j o.
Proof using.
  intros (sp & Ha & Hj & Ho & Ht) (_ & _ & _ & _ & Hk) Hne. rewrite Ha in Hk. inversion Hk as [? sp' (_ & Hs & _ & _ & He) E1 E2|]; subst.
  destruct (He j Hj Hne) as [Ht' Hc]. specialize (Hc Ht). exists sp'. rewrite Hs, Ht'. split_and!; [done|lia|lia| |done].
  unfold core in Hc. congruence.
Qed.

Lemma copied_out_type d b kr b' :
  d ∈ [MACH_MSG_TYPE_PORT_SEND; MACH_MSG_TYPE_PORT_SEND_ONCE] -> copied_out d true b kr b' ->
  kr = KERN_SUCCESS /\ IE_BITS_TYPE b' <> MACH_PORT_TYPE_NONE.
Proof using.
  intros Hd Hc. split.
  { destruct (decide (kr = KERN_SUCCESS)) as [|Hk]; [done|]. by destruct (copied_out_refused _ _ _ _ _ Hc Hk) as (_ & ? & _). }
  revert Hc. rewrite !elem_of_cons in Hd. destruct Hd as [->|[->|[]%elem_of_nil]]; [|by intros (_ & -> & _)].
  change (send_copied_out true b kr b' -> IE_BITS_TYPE b' <> MACH_PORT_TYPE_NONE). unfold send_copied_out. destruct (_ && _) eqn:He.
  - intros [-> _]. apply andb_true_iff in He as [He _]. rewrite (has_type b) in He by done. intros H0. by rewrite H0 in He.
  - intros (_ & -> & _ & _) H0. apply Z.lor_eq_0_iff in H0. naive_solver.
Qed.

Lemma landed s T o d name s1 P L c lk Th s' P' b b' kr l :
  focus s a (MACH_PORT_INDEX name) name s1 P L (Open c lk) Th -> d ∈ [MACH_MSG_TYPE_PORT_SEND; MACH_MSG_TYPE_PORT_SEND_ONCE] ->
  copied_out d true b kr b' ->
  focus s a (MACH_PORT_INDEX name) name s' P' (ks_log s) (Shut o b') (T ⊕ left_over kr l) ->
  kr = KERN_SUCCESS /\ kwf s' T /\ framed a (MACH_PORT_INDEX name) s s' /\ has_port s' (MACH_PORT_INDEX name) o.
Proof using.
  intros HF1 Hd Hc HF. destruct (copied_out_type _ _ _ _ Hd Hc) as [-> Ht]. apply shut_end in HF as (HK' & Hfr & _ & sp' & Ha' & Ho & Hb).
  split_and!; [done| |done|].
  - rewrite left_over_ok in HK'. eapply kwf_proper; [done| |exact HK']. intros r. unfold plus. cbn [cnt]. lia.
  - destruct (fc_space _ _ _ _ _ _ _ _ _ HF1) as (sp1 & Ha1 & Hw & _). destruct (at_work_range _ _ _ _ Hw) as [Hi _].
    destruct (fc_frame _ _ _ _ _ _ _ _ _ HF1) as (_ & _ & _ & _ & Hk1). destruct Hfr as (_ & _ & _ & _ & Hk).
    rewrite Ha1 in Hk1. rewrite Ha' in Hk. inversion Hk1 as [sp ? (_ & Hs1 & _) E1|]; subst. rewrite <- E1 in Hk.
    inversion Hk as [? ? (_ & Hs & _)|]; subst. exists sp'. split_and!; [done|lia|lia|done|done].
Qed.

(** What becomes of a valid reply port: its name, the port to go on with and the one to release *)
Definition reply_out (s s' : kstate) (T : right -> Z) (o : Z) (p : ipc_port) (name reply release : Z) : Prop :=
  (reply = o /\ release = IP_NULL /\ kwf s' (T ⊕ [RRef o]) /\ has_port s' (MACH_PORT_INDEX name) o) \/
  (name = MACH_PORT_DEAD /\ reply = IP_DEAD /\ release = o /\ ip_active p = false /\ s' = s).

Section reply.
Context (s : kstate) (T : right -> Z) (o d : Z) (p : ipc_port).
Context (HT : hand_ok T) (Hd : d ∈ [MACH_MSG_TYPE_PORT_SEND; MACH_MSG_TYPE_PORT_SEND_ONCE]).
Context (Ho : ks_ports s !! o = Some p) (Hmax : ip_references p + 1 < IO_MAX_REFERENCES).

Definition reply_last (name n : Z) : K (Z * Z * Z * Z) :=
  _ ← ip_reference o;
  kr ← ipc_right_copyout a name (MACH_PORT_INDEX name) d true o;
  _ ← massert (bool_decide (kr = KERN_SUCCESS));
  mret (name, o, IP_NULL, n).

Lemma reply_done name (n : Z) s1 s2 P' P c lk Th b b' kr :
  focus s a (MACH_PORT_INDEX name) name s1 P (ks_log s) (Open c lk) Th -> copied_out d true b kr b' ->
  focus s a (MACH_PORT_INDEX name) name s2 P' (ks_log s) (Shut o b') (T ⊕ [RRef o] ⊕ left_over kr (disposition_rights d o)) ->
  wp (_ ← massert (bool_decide (kr = KERN_SUCCESS)); mret (name, o, IP_NULL, n)) s2 (fun '(name, reply, release, h) s' =>
    (exists i, framed a i s s') /\ reply_out s s' T o p name reply release /\ h = n).
Proof using Hd.
  intros HF1 Hc HF. destruct (landed _ _ _ _ _ _ _ _ _ _ _ _ _ _ _ _ _ HF1 Hd Hc HF) as (-> & HK & Hfr & Hp).
  wp_step. wp_step; [done|]. wp_step. split_and!; [by eexists|by left|done].
Qed.

Lemma dispositions_any : d ∈ dispositions.
Proof using Hd. rewrite !elem_of_cons in Hd. destruct Hd as [->|[->|[]%elem_of_nil]]; [left|right; left]. Qed.

Lemma wf_reply_found name (n : Z) b req :
  kwf s (T ⊕ disposition_rights d o) -> named s a name (o, b, req) -> has b MACH_PORT_TYPE_SEND_RECEIVE = true ->
  ip_active p = true -> d <> MACH_MSG_TYPE_PORT_SEND_ONCE ->
  wp (reply_last name n) s (fun '(name, reply, release, h) s' =>
    (exists i, framed a i s s') /\ reply_out s s' T o p name reply release /\ h = n).
Proof using HT Hd Ho Hmax.
  intros HK Hnd Hb Hpa Hso. destruct (holding_start s a name _ o b req HK Hnd) as [HF Hok].
  unfold reply_last. apply wp_bind. eapply wf_reference; [exact HF|done|done|]. intros s1 HF1. apply wp_bind.
  eapply wf_right_copyout_found with (p := set_ip_references (ip_references p + 1) p); [done|apply Hnd| | |done|apply lookup_insert_eq|done| |apply dispositions_any|done|].
  - apply (hand_ok_plus T [RRef o]); [done|apply backed_ref].
  - split; [|exact Hok]. eapply fc_ext; [exact HF1|]. intros r. unfold plus. lia.
  - intros ->. destruct Hnd as (_ & sp1 & _ & _ & Hi & _). change (MACH_PORT_INDEX MACH_PORT_NULL) with 0 in Hi. lia.
  - intros kr s2 P' b' Hc HF2. by eapply reply_done; [exact HF1|..].
Qed.

Lemma wf_reply_new name (n : Z) s1 :
  new_place (T ⊕ disposition_rights d o) a o d p s s1 name ->
  wp (reply_last name n) s1 (fun '(name, reply, release, h) s' =>
    (exists i, framed a i s s') /\ reply_out s s' T o p name reply release /\ h = n).
Proof using HT Hd Ho Hmax.
  intros (Hpa & Hv & Hw32 & _ & HF). unfold reply_last. apply wp_bind. eapply wf_reference; [exact HF|done|done|].
  intros s2 HF2. apply wp_bind.
  eapply wf_right_copyout_new with (p := set_ip_references (ip_references p + 1) p); [done|done| | |apply lookup_insert_eq|done| |apply dispositions_any|].
  - apply (hand_ok_plus T [RRef o]); [done|apply backed_ref].
  - eapply fc_ext; [exact HF2|]. intros r. unfold plus. lia.
  - by intros ->.
  - intros kr s3 P' b' Hc HF3. by eapply reply_done; [exact HF2|..].
Qed.
End reply.

Lemma wf_reply_parts s T o d p n :
  0 < n -> kwf s (T ⊕ disposition_rights d o) -> hand_ok T -> foreign a T ->
  d ∈ [MACH_MSG_TYPE_PORT_SEND; MACH_MSG_TYPE_PORT_SEND_ONCE] -> ready a s -> roomy 1 s ->
  ks_ports s !! o = Some p -> ip_references p + 1 < IO_MAX_REFERENCES ->
  wp (copyout_reply a o d n) s (fun '(name, reply, release, h) s' =>
    (exists i, framed a i s s') /\ reply_out s s' T o p name reply release /\ n - 1 <= h).
Proof using Hsz.
  intros Hn HK HT [Hf1 Hf2] Hd Hr Hroom Ho Hmax. pose proof (oo_ports _ (kw_objects _ _ HK) _ _ Ho) as Hok.
  assert (Hmov : forall r, ~ movable r -> (T ⊕ disposition_rights d o) r = T r).
  { intros r Hr'. unfold plus. rewrite (movable_cnt r _ Hr'); [lia|]. apply movable_disposition. }
  assert (Hnm : (T ⊕ disposition_rights d o) (RName o a) = 0) by (rewrite Hmov by (by intros []); apply Hf1).
  unfold copyout_reply. rewrite (po_valid _ _ Hok : IP_VALID o = true). cbn [negb]. apply wp_bind.
  assert (Hfresh : (ip_active p = true -> d <> MACH_MSG_TYPE_PORT_SEND_ONCE -> held s (RName o a) = 0) ->
    wp (place ← (p0 ← ip_get o;
          if negb (ip_active p0) then mret None else
          '(name, entry) ← copyout_claim a o n; mret (Some (name, entry, n - 1)));
        match place with
        | None => mret (MACH_PORT_DEAD, IP_DEAD, o, n)
        | Some (name, entry, entries_held) =>
          _ ← ip_reference o;
          kr ← ipc_right_copyout a name entry d true o;
          _ ← massert (bool_decide (kr = KERN_SUCCESS));
          mret (name, o, IP_NULL, entries_held)
        end) s (fun '(name, reply, release, h) s' => (exists i, framed a i s s') /\ reply_out s s' T o p name reply release /\ n - 1 <= h)).
  { intros Hnone. apply wp_bind, wp_bind, (wp_ip_get o p); [done|]. destruct (ip_active p) eqn:Hpa; cbn [negb].
    - apply wp_bind. eapply wf_claim with (d := d); [done|exact HK|done|done|exact Hpa|by auto|]. intros name s1 Hnew _. wp_step.
      eapply wp_mono; [|by eapply wf_reply_new]. intros [[[? ?] ?] h] s2 (? & ? & ->). split_and!; [done|done|lia].
    - wp_step. wp_step. split_and!; [exists 0; apply framed_refl|by right|lia]. }
  destruct (Z.eqb_spec d MACH_MSG_TYPE_PORT_SEND_ONCE) as [Hso|Hso]; cbn [negb]; [wp_step; apply Hfresh; congruence|].
  destruct Hroom as (sp & Ha & Hact & _).
  eapply (wf_reverse Hsz s _ a sp o p); [exact HK|by apply hand_ok_plus, backed_disposition|done|done|done|by eapply receiver_named| | | |].
  - intros m Hm. rewrite Hmov by done. by apply Hf2.
  - intros Hpa. apply Hfresh. congruence.
  - intros _ Hh. by apply Hfresh.
  - intros name b req Hnd Hb _ Hpa. apply wp_bind, wp_bind. eapply wp_named_get; [done..|]. intros ix. wp_step. wp_step; [done|].
    wp_step. eapply wp_mono; [|by eapply wf_reply_found]. intros [[[? ?] ?] h] s2 (? & ? & ->). split_and!; [done|done|lia].
Qed.


(** *** The voucher *)

Definition voucher_last (v : Z) (vt : Z) (name entry : Z) : K (Z * Z * Z) :=
  p ← ip_get v;
  _ ← massert (ip_active p);
  _ ← massert (io_bits_kotype (ip_bits p) =? IKOT_VOUCHER);
  _ ← ipc_right_copyout a name entry MACH_MSG_TYPE_MOVE_SEND true v;
  mret (name, vt, IP_NULL).

Definition voucher_tail (v vt n : Z) : K (Z * Z * Z) :=
  found ← ipc_right_reverse a v;
  '(name, entry) ← (match found with
                    | Some (name, entry) =>
                      e ← ie_get a entry;
                      _ ← massert (has (ie_bits e) MACH_PORT_TYPE_SEND);
                      mret (name, entry)
                    | None => copyout_claim a v n
                    end);
  voucher_last v vt name entry.

(** A voucher's port: alive, and received by the kernel *)
Definition voucher_port (p : ipc_port) : Prop :=
  ip_active p = true /\ io_bits_kotype (ip_bits p) = IKOT_VOUCHER /\ ip_receiver p <> a.

Definition voucher_out (s s' : kstate) (T : right -> Z) (v vt : Z) (r : Z * Z * Z) : Prop :=
  (exists i, framed a i s s') /\ kwf s' T /\ (forall j o, has_port s j o -> has_port s' j o) /\
  exists name, r = (name, vt, IP_NULL) /\ has_port s' (MACH_PORT_INDEX name) v.

Section voucher.
Context (s : kstate) (T : right -> Z) (v vt : Z) (p : ipc_port) (HT : hand_ok T).
Context (Ho : ks_ports s !! v = Some p) (Hp : voucher_port p).

Lemma wf_voucher_last s1 name P c lk Th :
  focus s a (MACH_PORT_INDEX name) name s1 P (ks_log s) (Open c lk) Th -> P !! v = Some p ->
  (forall o, has_port s (MACH_PORT_INDEX name) o -> o = v) ->
  wp (ipc_right_copyout a name (MACH_PORT_INDEX name) MACH_MSG_TYPE_MOVE_SEND true v) s1 (fun kr s' => exists P' b b',
    copied_out MACH_MSG_TYPE_MOVE_SEND true b kr b' /\
    focus s a (MACH_PORT_INDEX name) name s' P' (ks_log s) (Shut v b') (T ⊕ left_over kr (disposition_rights MACH_MSG_TYPE_MOVE_SEND v))) ->
  wp (voucher_last v vt name (MACH_PORT_INDEX name)) s1 (fun r s' => voucher_out s s' T v vt r).
Proof using Hp.
  intros HF HP Hsame Hw. destruct Hp as (Ha & Hk & _). unfold voucher_last. apply wp_bind. eapply wf_ip_get; [exact HF|done|].
  wp_step. wp_step; [done|]. wp_step. wp_step; [by apply Z.eqb_eq|]. apply wp_bind. eapply wp_mono; [|exact Hw]. cbv beta.
  intros kr s' (P' & b & b' & Hc & HF').
  destruct (landed _ _ _ MACH_MSG_TYPE_PORT_SEND _ _ _ _ _ _ _ _ _ _ _ _ _ HF ltac:(left) Hc HF') as (-> & HK' & Hfr & Hport). wp_step.
  split_and!; [by eexists|done| |by exists name]. intros j o Hj. destruct (decide (j = MACH_PORT_INDEX name)) as [->|Hne].
  - by rewrite (Hsame o Hj).
  - by eapply has_port_kept.
Qed.

Lemma wf_voucher n :
  0 < n -> kwf s (T ⊕ disposition_rights MACH_MSG_TYPE_PORT_SEND v) -> foreign a T -> ready a s -> roomy 1 s ->
  wp (voucher_tail v vt n) s (fun r s' => voucher_out s s' T v vt r).
Proof using Hsz HT Ho Hp.
  intros Hn HK [Hf1 Hf2] Hr Hroom. pose proof Hp as (Hpa & Hk & Hrec).
  assert (Hmov : forall r, ~ movable r -> (T ⊕ disposition_rights MACH_MSG_TYPE_PORT_SEND v) r = T r).
  { intros r Hr'. unfold plus. rewrite (movable_cnt r _ Hr'); [lia|]. apply movable_disposition. }
  pose proof Hroom as (sp & Ha & Hact & _). unfold voucher_tail. apply wp_bind.
  eapply (wf_reverse Hsz s _ a sp v p); [exact HK|by apply hand_ok_plus, backed_disposition|done|done|done|by eapply receiver_named|..].
  - intros m Hm. rewrite Hmov by done. by apply Hf2.
  - congruence.
  - intros _ Hh. apply wp_bind. eapply wf_claim with (d := MACH_MSG_TYPE_PORT_SEND); [done|exact HK| |done|exact Hpa|done|].
    { rewrite Hmov by (by intros []). apply Hf1. }
    intros name s1 (_ & Hv & Hw32 & _ & HF) Hvac. eapply wf_voucher_last; [exact HF|done| |].
    { intros o (sp1 & Ha1 & _ & _ & Ht). by destruct (Ht (Hvac sp1 Ha1)). }
    eapply wf_right_copyout_new; [done|done|exact HT|exact HF|done|done|by intros ->|left|]. intros kr s3 P' b' Hc HF3. by eexists _, _, _.
  - intros name b req Hnd Hb Hsend _. apply wp_bind, wp_bind. eapply wp_named_get; [done..|]. intros ix.
    wp_step. wp_step; [by apply Hsend|]. wp_step. pose proof (holding_start s a name _ v b req HK Hnd) as Hh.
    eapply wf_voucher_last; [apply Hh|done| |].
    { intros o (sp1 & Ha1 & _ & <- & _). destruct Hnd as (_ & sp2 & Ha2 & _ & _ & Hc & _). rewrite Ha1 in Ha2. injection Ha2 as <-.
      unfold core in Hc. congruence. }
    eapply wf_right_copyout_found; [done|apply Hnd|exact HT|exact Hh|done|done|done| |left|done|].
    + intros ->. destruct Hnd as (_ & sp1 & _ & _ & Hi & _). change (MACH_PORT_INDEX MACH_PORT_NULL) with 0 in Hi. lia.
    + intros kr s3 P' b' Hc HF3. by eexists _, _, _.
Qed.
End voucher.
End steps.
