(* ===== verification/IpcDeliverOk.v ===== *)
(** * Messages received (ipc_kmsg.c)

    [ipc_kmsg_copyout_header] and [ipc_kmsg_copyout]: every right of the message goes to the
    receiver's space or is given up, the message is empty afterwards, and the receiver is told
    the names. *)

From S2P Require Import IpcTypes IpcBits IpcHash IpcEntry IpcGrow IpcState IpcLedger IpcPort IpcRequest IpcDestroy IpcRight IpcObject MachPort IpcKmsg IpcGentle IpcFocus IpcSample IpcRightOk IpcDeltaOk IpcPortOk IpcCopyOk IpcDesk IpcDestroyOk IpcCircularOk IpcFrame IpcAllocOk IpcCopyoutOk IpcBodyOk IpcSendOk IpcTable IpcArriveOk.

(** ** The steps do not look at the message *)

Section oblivious.
Context {env : ipc_env} (a : Z).

Lemma ob_spnotify o : oblivious (ipc_port_spnotify o).
Proof.
  assert (Hl : forall fuel i n, oblivious (spnotify_loop fuel o i n)).
  { induction fuel; intros; simpl; unfold ipr_mod; oblivious. }
  unfold ipc_port_spnotify, ipc_port_impcount_delta. oblivious.
Qed.

Lemma ob_hold turns : forall n, oblivious (copyout_hold turns a n).
Proof. pose proof (ob_grow a ITS_SIZE_NONE). induction turns; intros; simpl; oblivious. Qed.

Lemma ob_reply o d n : oblivious (copyout_reply a o d n).
Proof.
  pose proof ob_right_reverse. pose proof ob_right_copyout. unfold copyout_reply, copyout_claim. oblivious.
Qed.

Lemma ob_header_dest o d reply : oblivious (copyout_header_dest a o d reply).
Proof. unfold copyout_header_dest, ipc_object_copyout_dest, drop_sright. oblivious. Qed.
End oblivious.

Lemma steady_voucher {env : ipc_env} a v vt n : steady (voucher_tail a v vt n).
Proof.
  pose proof (fun name i overflow o => steady_right_copyout (env := env) a name i MACH_MSG_TYPE_MOVE_SEND overflow o ltac:(done)).
  pose proof (portless_right_reverse a). unfold voucher_tail, voucher_last, copyout_claim. steady.
Qed.

Lemma ob_held {env : ipc_env} a (b : bool) n (x : bool) : oblivious (if b then copyout_hold 2 a n else mret x).
Proof. destruct b; [apply ob_hold|apply ob_ret]. Qed.

Lemma ob_give_up {env : ipc_env} o d :
  oblivious (mwhen (IP_VALID o) (if d =? MACH_MSG_TYPE_PORT_SEND_ONCE then ipc_port_release_sonce o else ipc_port_release_send o)).
Proof. apply ob_mwhen. destruct (d =? _); [apply ob_release_sonce|apply ob_release_send]. Qed.

Lemma ob_voucher {env : ipc_env} a v vt n : oblivious (voucher_tail a v vt n).
Proof.
  pose proof ob_right_reverse. pose proof ob_right_copyout. unfold voucher_tail, voucher_last, copyout_claim. oblivious.
Qed.

(** ** Ports through the steps *)

(** No port is new, none changed hands or died. *)
Definition calm (t t' : kstate) : Prop :=
  ks_psets t' = ks_psets t /\
  forall o p', ks_ports t' !! o = Some p' -> exists p, ks_ports t !! o = Some p /\ same_place p p'.

#[global] Instance calm_refl : Reflexive calm.
Proof. intros t. split; [done|]. intros o p Ho. by exists p. Qed.

#[global] Instance calm_trans : Transitive calm.
Proof.
  intros t1 t2 t3 [E1 H1] [E2 H2]. split; [congruence|]. intros o p3 Ho. destruct (H2 o p3 Ho) as (p2 & Ho2 & F1 & F2 & F3).
  destruct (H1 o p2 Ho2) as (p1 & Ho1 & G1 & G2 & G3). exists p1. split; [done|]. split_and!; congruence.
Qed.

Lemma calm_alike t t' : ks_psets t' = ks_psets t -> all_alike (ks_ports t) (ks_ports t') -> calm t t'.
Proof.
  intros Hs Hall. split; [done|]. intros o p' Ho. specialize (Hall o). rewrite Ho in Hall.
  inversion Hall as [p ? (_ & Hp) E1|]; subst. by exists p.
Qed.

Lemma calm_widened a t t' : widened a t t' -> calm t t'.
Proof. intros (HP & _ & Hs & _). split; [done|]. intros o p Ho. rewrite HP in Ho. by exists p. Qed.

Lemma calm_steady {A} (m : K A) a i t x t' : steady m -> m t = Ok (x, t') -> framed a i t t' -> calm t t'.
Proof. intros Hm Hrun (Hs & _). split; [done|]. by eapply Hm. Qed.

Section calm.
Context {env : ipc_env}.

(** A port in hand is still there, in the same place. *)
Lemma calm_port t t' T o p :
  calm t t' -> objects_ok t -> ks_ports t !! o = Some p -> kwf t' T -> 0 < T (RRef o) ->
  exists p', ks_ports t' !! o = Some p' /\ same_place p p'.
Proof.
  intros [Hs Hc] HO Ho HK HT. destruct (port_in_hand t' T o) as [p' Ho']; [done|done| |].
  - rewrite Hs. by apply (oo_disjoint _ HO); eexists.
  - destruct (Hc o p' Ho') as (q & Hq & Hsame). exists p'. split; [done|]. congruence.
Qed.

Lemma kwf_release a t T o p :
  kwf t (T ⊕ [RRef o]) -> hand_ok T -> ks_ports t !! o = Some p -> ready a t ->
  wp (io_release o) t (fun _ t' => kwf t' T /\ ready a t' /\ ks_spaces t' = ks_spaces t).
Proof.
  intros HK HT Ho Hr. eapply dk_release; [by apply dk_kwf|done|done|]. intros t' HD (Hsw & _ & Hith) _ _.
  split_and!; [by apply dk_kwf| |apply Hsw]. eapply ready_swept; [done|]. split; [done|by rewrite Hith].
Qed.

(** Giving up a send or send-once right, as the end of the routine does *)
Lemma kwf_give_up a t T o d :
  kwf t (T ⊕ when (IP_VALID o) (disposition_rights d o)) -> hand_ok T -> ready a t ->
  (IP_VALID o = true -> d ∈ [MACH_MSG_TYPE_PORT_SEND; MACH_MSG_TYPE_PORT_SEND_ONCE]) ->
  wp (mwhen (IP_VALID o) (if d =? MACH_MSG_TYPE_PORT_SEND_ONCE then ipc_port_release_sonce o else ipc_port_release_send o)) t
    (fun _ t' => kwf t' T /\ ready a t' /\ ks_spaces t' = ks_spaces t).
Proof.
  intros HK HT Hr Hd. destruct (IP_VALID o) eqn:Hv; cbn [mwhen when] in *.
  2:{ apply (wp_ret tt). split_and!; [|done|done]. eapply kwf_proper; [done| |exact HK]. intros r. unfold plus. simpl. lia. }
  assert (Hend : forall t', desk t' Rest T -> stays t t' -> kwf t' T /\ ready a t' /\ ks_spaces t' = ks_spaces t).
  { intros t' HD (Hsw & _ & Hith). split_and!; [by apply dk_kwf| |apply Hsw]. eapply ready_swept; [done|]. split; [done|by rewrite Hith]. }
  specialize (Hd eq_refl). rewrite !elem_of_cons in Hd. destruct Hd as [->|[->|[]%elem_of_nil]].
  - rewrite arriving_send in HK by done. eapply dk_release_send; [|done|done|exact Hend]. apply dk_kwf.
    eapply kwf_proper; [done| |exact HK]. intros r. unfold plus. simpl. lia.
  - rewrite arriving_send_once in HK by done. eapply dk_release_sonce; [|done|done|exact Hend]. apply dk_kwf.
    eapply kwf_proper; [done| |exact HK]. intros r. unfold plus. simpl. lia.
Qed.
End calm.

(** ** The message once its header is out *)

Lemma bits_kept x y z bits :
  has (MACH_MSGH_BITS_SET x y z bits) MACH_MSGH_BITS_COMPLEX = has bits MACH_MSGH_BITS_COMPLEX /\
  has (MACH_MSGH_BITS_SET x y z bits) MACH_MSGH_BITS_CIRCULAR = has bits MACH_MSGH_BITS_CIRCULAR /\
  MACH_MSGH_BITS_RAISED_IMPORTANCE (MACH_MSGH_BITS_SET x y z bits) = MACH_MSGH_BITS_RAISED_IMPORTANCE bits.
Proof.
  assert (Hm : forall mask, Z.land 0x1f mask = 0 -> Z.land 0x1f00 mask = 0 -> Z.land 0x1f0000 mask = 0 ->
    Z.land (Z.lnot MACH_MSGH_BITS_PORTS_MASK) mask = mask -> Z.land (MACH_MSGH_BITS_SET x y z bits) mask = Z.land bits mask).
  { intros mask H1 H2 H3 H4. unfold MACH_MSGH_BITS_SET, MACH_MSGH_BITS_SET_PORTS, clr.
    by rewrite Z.ldiff_land, !Z.land_lor_distr_l, <- !Z.land_assoc, H1, H2, H3, H4, !Z.land_0_r. }
  unfold has, MACH_MSGH_BITS_RAISED_IMPORTANCE, has. split_and!; by rewrite Hm.
Qed.

Definition arrived (m : ipc_kmsg) (voucher_type voucher_name : Z) : ipc_kmsg :=
  set_msgh_voucher_port voucher_name (set_msgh_local_port IP_NULL (set_msgh_remote_port IP_NULL
    (set_msgh_bits (MACH_MSGH_BITS_SET (MACH_MSGH_BITS_LOCAL (msgh_bits m)) (MACH_MSGH_BITS_REMOTE (msgh_bits m)) voucher_type (msgh_bits m))
      (set_ikm_voucher (if IP_VALID (ikm_voucher m) then IP_NULL else ikm_voucher m) m)))).

Definition body_rights (m : ipc_kmsg) : list right :=
  when (has (msgh_bits m) MACH_MSGH_BITS_COMPLEX) (msgh_descriptors m ≫= descriptor_rights (has (msgh_bits m) MACH_MSGH_BITS_CIRCULAR))
  ++ when (negb (ikm_prealloc m =? IP_NULL)) [RRef (ikm_prealloc m)].

Lemma kmsg_split m : kmsg_rights m = header_rights m ++ body_rights m.
Proof. unfold kmsg_rights, header_rights, body_rights. by rewrite <- !app_assoc. Qed.

Lemma arrived_rights m vt vn : kmsg_rights (arrived m vt vn) = body_rights m.
Proof.
  unfold kmsg_rights, body_rights, arrived. simpl. destruct (bits_kept (MACH_MSGH_BITS_LOCAL (msgh_bits m)) (MACH_MSGH_BITS_REMOTE (msgh_bits m)) vt (msgh_bits m)) as (-> & -> & _).
  assert (Hv : IO_VALID (if IP_VALID (ikm_voucher m) then IP_NULL else ikm_voucher m) = false).
  { by destruct (IP_VALID (ikm_voucher m)) eqn:Hv. }
  unfold disposition_rights. by rewrite Hv.
Qed.

Lemma arrived_ok m vt vn : kmsg_ok m -> kmsg_ok (arrived m vt vn).
Proof.
  intros []. split; try done; simpl.
  - destruct (IP_VALID (ikm_voucher m)) eqn:Hv; [done|]. intros H. change (IP_VALID (ikm_voucher m) = true) in H. congruence.
  - by destruct (bits_kept (MACH_MSGH_BITS_LOCAL (msgh_bits m)) (MACH_MSGH_BITS_REMOTE (msgh_bits m)) vt (msgh_bits m)) as (_ & _ & ->).
Qed.

Lemma backed_body m : backed (body_rights m).
Proof. rewrite <- (arrived_rights m 0 0). apply backed_kmsg. Qed.
Lemma movable_body m : Forall movable (body_rights m).
Proof. rewrite <- (arrived_rights m 0 0). apply movable_kmsg. Qed.

(** ** The steps, with the message laid aside *)
Section header.
Context {env : ipc_env} (a : Z) (Hsz : sizes_ok ipc_table_entries) (k : Z).

Lemma aside_step {A} (p : K A) m s (R : A -> kstate -> Prop) Q :
  oblivious p -> ks_kmsgs s !! k = Some m -> wp p (without k s) R ->
  (forall x s', ks_kmsgs s' !! k = Some m -> R x (without k s') -> Q x s') -> wp p s Q.
Proof using.
  intros Hp Hk Hw HQ. eapply (wp_aside p k m); [done|done|]. eapply wp_mono; [|exact Hw]. cbv beta. intros x s' Hx Hs.
  apply HQ; [apply lookup_insert_eq|]. by rewrite without_with.
Qed.

(** What the reply port came to *)
Definition reply_named (t t' : kstate) (o name reply release : Z) : Prop :=
  if IP_VALID o then
    (reply = o /\ release = IP_NULL /\ has_port a t' (MACH_PORT_INDEX name) o) \/
    (name = MACH_PORT_DEAD /\ reply = IP_DEAD /\ release = o /\ exists p, ks_ports t !! o = Some p /\ ip_active p = false)
  else name = CAST_MACH_PORT_TO_NAME o /\ reply = o /\ release = IP_NULL.

Lemma wf_reply t W o d n :
  kwf t (W ⊕ disposition_rights d o) -> hand_ok W -> foreign a W -> ready a t ->
  (IP_VALID o = true -> d ∈ [MACH_MSG_TYPE_PORT_SEND; MACH_MSG_TYPE_PORT_SEND_ONCE] /\ 0 < n /\ roomy a 1 t /\
    exists p, ks_ports t !! o = Some p /\ ip_references p + 1 < IO_MAX_REFERENCES) ->
  wp (copyout_reply a o d n) t (fun '(name, reply, release, h) t' =>
    kwf t' (W ⊕ when (IP_VALID reply) [RRef reply] ⊕ when (IP_VALID release) (disposition_rights d release)) /\
    ready a t' /\ calm t t' /\ reply_named t t' o name reply release /\
    if IP_VALID o then (exists i, framed a i t t') /\ n - 1 <= h else h = n /\ t' = t).
Proof using Hsz.
  intros HK HW Hf Hr Ho. unfold reply_named. destruct (IP_VALID o) eqn:Hv.
  2:{ unfold copyout_reply. rewrite Hv. cbn [negb]. wp_step. split_and!; try done. eapply kwf_proper; [done| |exact HK]. intros r. unfold plus.
      rewrite Hv. unfold disposition_rights. change (IO_VALID o) with (IP_VALID o). rewrite Hv. simpl. lia. }
  destruct (Ho eq_refl) as (Hd & Hn & Hroom & p & Hp & Hmax).
  assert (Hrec : d <> MACH_MSG_TYPE_PORT_RECEIVE) by (intros ->; rewrite !elem_of_cons in Hd; by destruct Hd as [|[|[]%elem_of_nil]]).
  destruct (wp_inv _ _ _ (wf_reply_parts a Hsz t W o d p n Hn HK HW Hf Hd Hr Hroom Hp Hmax))
    as ([[[name reply] release] h] & t' & Hrun & [i Hfr] & Hout & Hh). eapply wp_Ok; [exact Hrun|].
  pose proof (steady_reply a o d n Hrec) as Hst. pose proof (calm_steady _ _ _ _ _ _ Hst Hrun Hfr) as Hcalm.
  pose proof (ready_framed _ _ _ _ _ Hr (widened_refl a t) Hfr (steady_barren _ Hst _ _ _ Hrun)) as Hr'.
  destruct Hout as [(-> & -> & HK' & Hport)|(-> & -> & -> & Hdead & ->)].
  - split_and!; [|done|done|by left|by eexists|done]. eapply kwf_proper; [done| |exact HK']. intros r. unfold plus. rewrite Hv. simpl. lia.
  - split_and!; [|done|done| |by eexists|done].
    + eapply kwf_proper; [done| |exact HK]. intros r. unfold plus. rewrite Hv. simpl. lia.
    + right. split_and!; try done. by exists p.
Qed.

Lemma aside_voucher m s W v vt option h :
  ks_kmsgs s !! k = Some m -> ikm_voucher m = v -> kwf (without k s) (W ⊕ disposition_rights MACH_MSG_TYPE_PORT_SEND v) ->
  hand_ok W -> foreign a W -> ready a (without k s) -> (IP_VALID v = true -> vt = MACH_MSG_TYPE_MOVE_SEND) ->
  vt ∈ [MACH_MSGH_BITS_ZERO; MACH_MSG_TYPE_MOVE_SEND] ->
  (IP_VALID v = true -> has option MACH_RCV_VOUCHER = true -> 0 < h /\ roomy a 1 (without k s) /\
    exists p, ks_ports s !! v = Some p /\ voucher_port a p) ->
  wp (copyout_voucher k a v vt option h) s (fun '(name, vt', release) s' =>
    ks_kmsgs s' !! k = Some (set_ikm_voucher (if IP_VALID v then IP_NULL else v) m) /\
    kwf (without k s') (W ⊕ when (IP_VALID release) (disposition_rights MACH_MSG_TYPE_PORT_SEND release)) /\
    ready a (without k s') /\ calm (without k s) (without k s') /\
    (forall j o, has_port a (without k s) j o -> has_port a (without k s') j o) /\
    vt' = (if has option MACH_RCV_VOUCHER then vt else MACH_MSGH_BITS_ZERO) /\
    (IP_VALID v = true -> has option MACH_RCV_VOUCHER = true -> has_port a (without k s') (MACH_PORT_INDEX name) v)).
Proof using Hsz.
  intros Hk Hm HK HW Hf Hr Hvt Hvts Hv. unfold copyout_voucher.
  assert (Hinv : IP_VALID v = false ->
    kwf (without k s) (W ⊕ when (IP_VALID IP_NULL) (disposition_rights MACH_MSG_TYPE_PORT_SEND IP_NULL)) /\
    set_ikm_voucher v m = m).
  { intros Hv0. split; [|subst v; by destruct m]. eapply kwf_proper; [done| |exact HK]. intros r. unfold plus. unfold disposition_rights at 2.
    change (IO_VALID v) with (IP_VALID v). rewrite Hv0. done. }
  destruct (Z.eqb_spec vt MACH_MSGH_BITS_ZERO) as [->|Hz].
  { destruct (IP_VALID v) eqn:Hv0; [by specialize (Hvt eq_refl)|]. destruct (Hinv eq_refl) as [HK' Hm'].
    apply wp_bind, (wp_ikm_get k m); [done|]. wp_step. rewrite Hm'. split_and!; try done. by destruct (has _ _). }
  assert (Hmove : vt = MACH_MSG_TYPE_MOVE_SEND) by (rewrite !elem_of_cons in Hvts; by destruct Hvts as [|[|[]%elem_of_nil]]).
  wp_step. wp_step; [by apply Z.eqb_eq|]. destruct (IP_VALID v) eqn:Hv0; cbn [negb].
  2:{ destruct (Hinv eq_refl) as [HK' Hm']. wp_step. rewrite Hm'. by split_and!. }
  apply wp_bind. eapply (aside_mod k m s); [by split|]. intros s1 [Hk1 HK1] Hw1. destruct (has option MACH_RCV_VOUCHER) eqn:Hopt; cbn [negb].
  - destruct (Hv eq_refl eq_refl) as (Hh & Hroom & p & Ho & Hp). 
    match goal with |- wp _ _ ?Q => change (wp (voucher_tail a v vt h) s1 Q) end.
    destruct (wp_inv _ _ _ (wf_voucher a Hsz (without k s) W v vt p HW Ho Hp h Hh HK Hf Hr Hroom))
      as (r & t' & Hrun & [i Hfr] & HK' & Hkeep & name & -> & Hport).
    eapply (aside_step _ _ _ (fun r t1 => r = (name, vt, IP_NULL) /\ t1 = t')); [apply ob_voucher|exact Hk1|rewrite Hw1; by eapply wp_Ok|].
    intros r s2 Hk2 [-> ->]. pose proof (steady_voucher a v vt h) as Hst. split_and!; try done.
    + eapply kwf_proper; [done| |exact HK']. intros r. unfold plus. simpl. lia.
    + eapply (ready_framed a i); [exact Hr|apply widened_refl|done|]. by eapply steady_barren.
    + by eapply calm_steady.
  - wp_step. rewrite Hw1. rewrite Hv0. split_and!; try done.
Qed.

(** How many entries are held *)
Definition entries (reply voucher : bool) (option : Z) : nat :=
  ((if reply then 1 else 0) + (if voucher && has option MACH_RCV_VOUCHER then 1 else 0))%nat.

Lemma wf_held t W sp reply voucher option :
  kwf t W -> ks_spaces t !! a = Some sp -> let n := entries reply voucher option in
  wp (if reply || voucher then copyout_hold 2 a (Z.of_nat n) else mret (is_active sp)) t (fun b t' =>
    kwf t' W /\ widened a t t' /\ (b = true -> n <> O -> roomy a n t')).
Proof using Hsz.
  intros HK Ha n. destruct (reply || voucher) eqn:Hor.
  - eapply wf_hold; [done|exact HK|exact Ha|unfold n, entries; destruct reply, (_ && _); lia|..].
    + intros t' HK' Hw. by split_and!.
    + intros t' HK' Hw Hroom. by split_and!.
  - wp_step. split_and!; [done|apply widened_refl|]. by destruct reply, voucher.
Qed.

(** What the header needs of the state *)
Record receivable (s : kstate) (m : ipc_kmsg) (option : Z) (dest : ipc_port) : Prop := {
  rc_dest : ks_ports s !! msgh_remote_port m = Some dest;
  rc_table : tabled dest;
  rc_reply : forall p, ks_ports s !! msgh_local_port m = Some p -> ip_references p + 1 < IO_MAX_REFERENCES;
  rc_type : MACH_MSGH_BITS_VOUCHER (msgh_bits m) ∈ [MACH_MSGH_BITS_ZERO; MACH_MSG_TYPE_MOVE_SEND];
  rc_voucher : forall p, ks_ports s !! ikm_voucher m = Some p -> voucher_port a p;
}.

(** What the receiver is told about the reply port *)
Definition reply_told (s s' : kstate) (o name : Z) : Prop :=
  if IP_VALID o then has_port a s' (MACH_PORT_INDEX name) o \/
    (name = MACH_PORT_DEAD /\ exists p, ks_ports s !! o = Some p /\ ip_active p = false)
  else name = CAST_MACH_PORT_TO_NAME o.

Definition header_out (s s' : kstate) (m : ipc_kmsg) (option : Z) (dest : ipc_port) (um : mach_msg_user) : Prop :=
  exists reply_name dest_name voucher_name,
    let vt := if has option MACH_RCV_VOUCHER then MACH_MSGH_BITS_VOUCHER (msgh_bits m) else MACH_MSGH_BITS_ZERO in
    ks_kmsgs s' !! k = Some (arrived m vt voucher_name) /\
    um = mk_mach_msg_user (msgh_bits (arrived m vt voucher_name)) (CAST_MACH_NAME_TO_PORT reply_name)
           (CAST_MACH_NAME_TO_PORT dest_name) [] /\
    reply_told s s' (msgh_local_port m) reply_name /\ dest_out a dest dest_name /\
    (IP_VALID (ikm_voucher m) = true -> has option MACH_RCV_VOUCHER = true ->
      has_port a s' (MACH_PORT_INDEX voucher_name) (ikm_voucher m)).

(** *** From the destination on *)
Section last.
Context (m : ipc_kmsg) (option : Z) (T : right -> Z) (HT : hand_ok T) (Hm : kmsg_ok m).

Let U := T ⊕ body_rights m.
Let dt := MACH_MSGH_BITS_REMOTE (msgh_bits m).
Let rt := MACH_MSGH_BITS_LOCAL (msgh_bits m).

Definition header_last (vt vn reply_name reply release vrelease : Z) : K (Z + mach_msg_user) :=
  dest_name ← copyout_header_dest a (msgh_remote_port m) dt reply;
  _ ← mwhen (IP_VALID reply) (ip_release reply);
  _ ← mwhen (IP_VALID release)
        (if rt =? MACH_MSG_TYPE_PORT_SEND_ONCE then ipc_port_release_sonce release else ipc_port_release_send release);
  _ ← mwhen (IP_VALID vrelease) (ipc_port_release_send vrelease);
  let bits := MACH_MSGH_BITS_SET rt dt vt (msgh_bits m) in
  _ ← ikm_mod k (fun k => set_msgh_voucher_port vn (set_msgh_local_port IP_NULL
        (set_msgh_remote_port IP_NULL (set_msgh_bits bits k))));
  mret (inr (mk_mach_msg_user bits (CAST_MACH_NAME_TO_PORT reply_name) (CAST_MACH_NAME_TO_PORT dest_name) [])).

Lemma aside_header_last s vt vn reply_name reply release vrelease p :
  ks_kmsgs s !! k = Some (set_ikm_voucher (if IP_VALID (ikm_voucher m) then IP_NULL else ikm_voucher m) m) ->
  kwf (without k s) (U ⊕ when (IP_VALID reply) [RRef reply] ⊕ when (IP_VALID release) (disposition_rights rt release)
    ⊕ when (IP_VALID vrelease) (disposition_rights MACH_MSG_TYPE_PORT_SEND vrelease) ⊕ disposition_rights dt (msgh_remote_port m)) ->
  ready a (without k s) -> ks_ports s !! msgh_remote_port m = Some p ->
  (IP_VALID reply = true -> exists q, ks_ports s !! reply = Some q) -> (IP_VALID release = true -> IP_VALID (msgh_local_port m) = true) ->
  wp (header_last vt vn reply_name reply release vrelease) s (fun r s' =>
    kwf s' (T ⊕ [RMsg k]) /\ ready a s' /\ ks_spaces s' = ks_spaces s /\ ks_kmsgs s' !! k = Some (arrived m vt vn) /\
    exists dest_name, dest_out a p dest_name /\
      r = inr (mk_mach_msg_user (msgh_bits (arrived m vt vn)) (CAST_MACH_NAME_TO_PORT reply_name) (CAST_MACH_NAME_TO_PORT dest_name) [])).
Proof using HT Hm Hsz.
  intros Hk HK Hr Hp Hreply Hrel. unfold header_last.
  assert (HU : hand_ok U) by (apply hand_ok_plus; [done|apply backed_body]).
  set (l1 := when (IP_VALID reply) [RRef reply]) in *. set (l2 := when (IP_VALID release) (disposition_rights rt release)) in *.
  set (l3 := when (IP_VALID vrelease) (disposition_rights MACH_MSG_TYPE_PORT_SEND vrelease)) in *.
  assert (H3 : hand_ok (U ⊕ l3)) by (apply hand_ok_plus; [done|apply backed_when, backed_disposition]).
  assert (H2 : hand_ok (U ⊕ l3 ⊕ l2)) by (apply hand_ok_plus; [done|apply backed_when, backed_disposition]).
  assert (H1 : hand_ok (U ⊕ l3 ⊕ l2 ⊕ l1)) by (apply hand_ok_plus; [done|apply backed_when, backed_ref]).
  pose proof (kw_objects _ _ HK) as HO. pose proof (oo_ports _ HO _ _ Hp) as Hpok. 
  assert (Hds : dt ∈ [MACH_MSG_TYPE_PORT_SEND; MACH_MSG_TYPE_PORT_SEND_ONCE]) by (apply Hm, Hpok).
  apply wp_bind. eapply (aside_step _ _ _ _ _ (ob_header_dest a _ _ _) Hk).
  { eapply (kwf_header_dest a Hsz _ (U ⊕ l3 ⊕ l2 ⊕ l1)); [|done|done|done|exact Hp|].
    - eapply kwf_proper; [done| |exact HK]. intros r. unfold plus. lia.
    - intros Hv. split; [|by apply (oo_disjoint _ HO), Hreply]. unfold plus at 1, l1. rewrite Hv. cbn [when cnt]. rewrite ind_eq.
      pose proof (proj1 H2 (RRef reply)). lia. }
  intros dest_name s1 Hk1 (HK1 & Hr1 & Hsp1 & Hdest).
  apply wp_bind. eapply (aside_step _ _ _ (fun _ t' => kwf t' (U ⊕ l3 ⊕ l2) /\ ready a t' /\ ks_spaces t' = ks_spaces s) _
    (ob_mwhen _ _ (ob_io_release _)) Hk1).
  { unfold l1 in HK1. destruct (IP_VALID reply) eqn:Hv; cbn [mwhen when] in *.
    - destruct (port_in_hand (without k s1) _ reply HK1) as [q Hq].
      + unfold plus at 1. cbn [cnt]. rewrite ind_eq. pose proof (proj1 H2 (RRef reply)). lia.
      + rewrite (proj2 Hsp1). by apply (oo_disjoint _ HO), Hreply.
      + eapply wp_mono; [|eapply kwf_release; [exact HK1|done|done|exact Hr1]]. cbv beta. intros _ t' (? & ? & E). split_and!; [done|done|].
        rewrite E. apply Hsp1.
    - apply (wp_ret tt). split_and!; [|done|apply Hsp1]. eapply kwf_proper; [done| |exact HK1]. intros r. unfold plus. simpl. lia. }
  intros _ s2 Hk2 (HK2 & Hr2 & Hsp2). apply wp_bind. eapply (aside_step _ _ _ _ _ (ob_give_up _ _) Hk2).
  { eapply kwf_give_up; [exact HK2|done|exact Hr2|]. intros Hv. apply Hm. by apply Hrel. }
  intros _ s3 Hk3 (HK3 & Hr3 & Hsp3). apply wp_bind. eapply (aside_step _ _ _ _ _ (ob_give_up _ MACH_MSG_TYPE_PORT_SEND) Hk3).
  { eapply (kwf_give_up a _ _ _ MACH_MSG_TYPE_PORT_SEND); [exact HK3|done|exact Hr3|]. intros _. left. }
  intros _ s4 Hk4 (HK4 & Hr4 & Hsp4). apply wp_bind. eapply (aside_mod k _ s4 U); [by split|]. intros s5 HA5 Hw5. wp_step.
  change (aside k (arrived m vt vn) s5 U) in HA5. split_and!.
  - eapply aside_end; [|by apply arrived_ok|done]. rewrite arrived_rights. exact HA5.
  - apply (ready_without a k). by rewrite Hw5.
  - change (ks_spaces (without k s5) = ks_spaces s). rewrite Hw5. etrans; [exact Hsp4|]. etrans; [exact Hsp3|]. exact Hsp2.
  - apply HA5.
  - by exists dest_name.
Qed.
End last.

Lemma reply_told_calm s t t' s' o name reply release :
  reply_named t t' o name reply release -> calm s t -> (forall i x, has_port a t' i x -> has_port a s' i x) -> reply_told s s' o name.
Proof using.
  unfold reply_named, reply_told. destruct (IP_VALID o); [|by intros []]. intros [(_ & _ & Hp)|(-> & _ & _ & p' & Ho & Hd)] [_ Hc] Hk; [by left; apply Hk|].
  right. split; [done|]. destruct (Hc o p' Ho) as (p & Hp & Hb & _). exists p. split; [done|]. unfold ip_active in *. by rewrite <- Hb.
Qed.

(** Held entries are enough for both ports. *)
Lemma roomy_less n n' t : roomy a n t -> (n' <= n)%nat -> roomy a n' t.
Proof using. intros (sp & Ha & Hact & Hf) Hn. exists sp. split_and!; [done|done|]. by eapply frees_less. Qed.

(** A port whose right is in hand *)
Lemma disposition_port t W d o :
  kwf t (W ⊕ disposition_rights d o) -> hand_ok W -> IO_VALID o = true ->
  d ∈ [MACH_MSG_TYPE_PORT_SEND; MACH_MSG_TYPE_PORT_SEND_ONCE] -> exists p, ks_ports t !! o = Some p.
Proof using.
  intros HK HW Hv Hd. eapply (dk_carried true t Rest W d o); [|done|done|by apply dispositions_any]. rewrite carried_circular. by apply dk_kwf.
Qed.

(** *** From the reply port on *)
Definition header_rest (m : ipc_kmsg) (option n : Z) : K (Z + mach_msg_user) :=
  '(reply_name, reply, release_reply, entries_held) ←
    copyout_reply a (msgh_local_port m) (MACH_MSGH_BITS_LOCAL (msgh_bits m)) n;
  '(voucher_name, voucher_type, release_voucher) ←
    copyout_voucher k a (ikm_voucher m) (MACH_MSGH_BITS_VOUCHER (msgh_bits m)) option entries_held;
  header_last m voucher_type voucher_name reply_name reply release_reply release_voucher.

Section rest.
Context (s0 : kstate) (m : ipc_kmsg) (option : Z) (dest : ipc_port) (T : right -> Z) (HT : hand_ok T) (Hf : foreign a T) (Hm : kmsg_ok m).
Context (HO : objects_ok (without k s0)) (Hrc : receivable s0 m option dest).

Let n := entries (IP_VALID (msgh_local_port m)) (IP_VALID (ikm_voucher m)) option.
Let U := T ⊕ body_rights m.
Let R := disposition_rights (MACH_MSGH_BITS_REMOTE (msgh_bits m)) (msgh_remote_port m).
Let V := disposition_rights MACH_MSG_TYPE_PORT_SEND (ikm_voucher m).

(** The voucher's port is where it was. *)
Lemma voucher_there t W :
  kwf t (W ⊕ V) -> hand_ok W -> IP_VALID (ikm_voucher m) = true -> calm (without k s0) t ->
  exists p, ks_ports t !! ikm_voucher m = Some p /\ voucher_port a p.
Proof using Hrc.
  intros HK HW Hv Hc. destruct (disposition_port _ _ _ _ HK HW Hv ltac:(left)) as [p Hp]. exists p. split; [done|].
  destruct (proj2 Hc _ _ Hp) as (q & Hq & Hb & Hrec & _). destruct (rc_voucher _ _ _ _ Hrc q Hq) as (Ha & Hko & Hr0).
  unfold voucher_port, ip_active. by rewrite Hb, Hrec.
Qed.

(** There is an entry left for it. *)
Lemma entries_left t t' h :
  IP_VALID (ikm_voucher m) = true -> has option MACH_RCV_VOUCHER = true -> (n <> O -> roomy a n t) ->
  (if IP_VALID (msgh_local_port m) then (exists i, framed a i t t') /\ Z.of_nat n - 1 <= h else h = Z.of_nat n /\ t' = t) ->
  0 < h /\ roomy a 1 t'.
Proof using.
  unfold n, entries. intros Hv Hopt Hroom Hheld. rewrite Hv, Hopt in Hroom, Hheld. destruct (IP_VALID (msgh_local_port m)).
  - destruct Hheld as [[i Hfr] Hh]. split; [simpl in Hh; lia|]. eapply roomy_framed; [by apply Hroom|exact Hfr].
  - destruct Hheld as [-> ->]. split; [done|by apply Hroom].
Qed.

(** What is in hand of the reply port *)
Definition reply_rights (reply release : Z) : list right :=
  when (IP_VALID reply) [RRef reply] ++ when (IP_VALID release) (disposition_rights (MACH_MSGH_BITS_LOCAL (msgh_bits m)) release).

Lemma hand_foreign W l : hand_ok W /\ foreign a W -> backed l -> Forall movable l -> hand_ok (W ⊕ l) /\ foreign a (W ⊕ l).
Proof using. intros [H1 H2] Hb Hl. split; [by apply hand_ok_plus|by apply foreign_plus]. Qed.

Lemma hand_body : hand_ok U /\ foreign a U.
Proof using HT Hf. apply hand_foreign; [done|apply backed_body|apply movable_body]. Qed.

Lemma hand_reply W reply release : hand_ok W /\ foreign a W -> hand_ok (W ⊕ reply_rights reply release) /\ foreign a (W ⊕ reply_rights reply release).
Proof using.
  intros HW. apply hand_foreign; [done|..].
  - apply backed_app; apply backed_when; [apply backed_ref|apply backed_disposition].
  - apply Forall_app_2; apply movable_when; [by repeat constructor|apply movable_disposition].
Qed.

Lemma hand_disposition W d o : hand_ok W /\ foreign a W -> hand_ok (W ⊕ disposition_rights d o) /\ foreign a (W ⊕ disposition_rights d o).
Proof using. intros HW. apply hand_foreign; [done|apply backed_disposition|apply movable_disposition]. Qed.

(** *** From the voucher on *)
Lemma wf_header_voucher s reply_name reply release h :
  let vt := if has option MACH_RCV_VOUCHER then MACH_MSGH_BITS_VOUCHER (msgh_bits m) else MACH_MSGH_BITS_ZERO in
  ks_kmsgs s !! k = Some m -> kwf (without k s) (U ⊕ R ⊕ reply_rights reply release ⊕ V) ->
  ready a (without k s) -> calm (without k s0) (without k s) ->
  (IP_VALID (ikm_voucher m) = true -> has option MACH_RCV_VOUCHER = true -> 0 < h /\ roomy a 1 (without k s)) ->
  (IP_VALID reply = true -> exists p, ks_ports s0 !! reply = Some p) ->
  (IP_VALID release = true -> IP_VALID (msgh_local_port m) = true) ->
  wp ('(vn, vt, vrelease) ← copyout_voucher k a (ikm_voucher m) (MACH_MSGH_BITS_VOUCHER (msgh_bits m)) option h;
      header_last m vt vn reply_name reply release vrelease) s (fun r s' =>
    kwf s' (T ⊕ [RMsg k]) /\ ready a s' /\ (forall j o, has_port a s j o -> has_port a s' j o) /\
    exists vn dest_name, ks_kmsgs s' !! k = Some (arrived m vt vn) /\ dest_out a dest dest_name /\
      (IP_VALID (ikm_voucher m) = true -> has option MACH_RCV_VOUCHER = true -> has_port a s' (MACH_PORT_INDEX vn) (ikm_voucher m)) /\
      r = inr (mk_mach_msg_user (msgh_bits (arrived m vt vn)) (CAST_MACH_NAME_TO_PORT reply_name) (CAST_MACH_NAME_TO_PORT dest_name) [])).
Proof using Hsz HT Hf Hm HO Hrc.
  intros vt Hk HK Hr Hc Hroom Hreply Hrel. pose proof (hand_disposition _ _ _ hand_body : hand_ok (U ⊕ R) /\ _) as HUR.
  pose proof (hand_reply _ reply release HUR) as Hl.
  apply wp_bind. eapply wp_mono; [|eapply (aside_voucher m s); [exact Hk|done|exact HK|apply Hl|apply Hl|done|apply Hm|apply Hrc|]].
  2:{ intros Hv Hopt. destruct (Hroom Hv Hopt). split_and!; try done. by eapply (voucher_there (without k s)); [exact HK|apply Hl|..]. }
  intros [[vn vt'] vrelease] s1 (Hk1 & HK1 & Hr1 & Hc1 & Hkeep & -> & Hvn). fold vt.
  set (l := when (IP_VALID vrelease) (disposition_rights MACH_MSG_TYPE_PORT_SEND vrelease)) in *.
  assert (HK2 : kwf (without k s1) (U ⊕ when (IP_VALID reply) [RRef reply]
    ⊕ when (IP_VALID release) (disposition_rights (MACH_MSGH_BITS_LOCAL (msgh_bits m)) release) ⊕ l ⊕ R)).
  { eapply kwf_proper; [done| |exact HK1]. intros r. unfold reply_rights, plus. rewrite cnt_app. lia. }
  assert (Hc2 : calm (without k s0) (without k s1)) by (by etrans).
  assert (Hin : forall o p, ks_ports s0 !! o = Some p -> RRef o ∈ R ++ reply_rights reply release ->
    exists p', ks_ports s1 !! o = Some p' /\ same_place p p').
  { intros o p Hp Hpos. eapply (calm_port (without k s0) (without k s1)); [done|done|exact Hp|exact HK1|].
    apply cnt_in in Hpos. rewrite cnt_app in Hpos. unfold plus. pose proof (proj1 (proj1 hand_body) (RRef o)). pose proof (cnt_nonneg (RRef o) l).
    unfold U in *. unfold plus in *. lia. }
  destruct (Hin (msgh_remote_port m) dest) as (p & Hp & Hsame); [apply Hrc| |].
  { apply elem_of_app. left. unfold R, disposition_rights. rewrite (po_valid _ _ (oo_ports _ HO _ _ (rc_dest _ _ _ _ Hrc)) : IO_VALID _ = true). left. }
  eapply wp_mono; [|eapply (aside_header_last m T); [done|done|exact Hk1|exact HK2|done|exact Hp| |done]].
  2:{ intros Hv. destruct (Hreply Hv) as [q Hq]. destruct (Hin reply q Hq) as (q' & Hq' & _); [|by exists q'].
      apply elem_of_app. right. unfold reply_rights. rewrite Hv. left. }
  intros r s' (HK' & Hr' & Hsp & Hk' & dest_name & Hdest & ->).
  assert (Hkept : forall j o, has_port a (without k s1) j o -> has_port a s' j o) by (unfold has_port; by rewrite Hsp).
  split_and!; [done|done|intros j o Hj; by apply Hkept, Hkeep|]. exists vn, dest_name. split_and!; [done| |by auto|done].
  unfold dest_out, home_name, ip_active in *. destruct Hsame as (E1 & E2 & E3). by rewrite E1, E2, E3 in Hdest.
Qed.

Lemma wf_header_rest s :
  ks_kmsgs s !! k = Some m -> kwf (without k s) (T ⊕ kmsg_rights m) -> ready a (without k s) -> calm (without k s0) (without k s) ->
  (n <> O -> roomy a n (without k s)) ->
  (forall p, ks_ports s !! msgh_local_port m = Some p -> ip_references p + 1 < IO_MAX_REFERENCES) ->
  wp (header_rest m option (Z.of_nat n)) s (fun r s' => kwf s' (T ⊕ [RMsg k]) /\ ready a s' /\
    exists um, r = inr um /\ header_out s0 s' m option dest um).
Proof using Hsz HT Hf Hm HO Hrc.
  intros Hk HK Hr Hc Hroom Href. unfold header_rest.
  pose proof (hand_disposition _ _ _ (hand_disposition _ _ _ hand_body) : hand_ok (U ⊕ R ⊕ V) /\ _) as HURV.
  assert (HK2 : kwf (without k s) (U ⊕ R ⊕ V ⊕ disposition_rights (MACH_MSGH_BITS_LOCAL (msgh_bits m)) (msgh_local_port m))).
  { eapply kwf_proper; [done| |exact HK]. intros r. unfold U, plus. rewrite kmsg_split. unfold header_rights. rewrite !cnt_app. fold R V. lia. }
  assert (Hlocal : IP_VALID (msgh_local_port m) = true -> exists p, ks_ports s !! msgh_local_port m = Some p).
  { intros Hv. eapply (disposition_port (without k s)); [exact HK2|apply HURV|done|by apply Hm]. }
  apply wp_bind. eapply (aside_step _ _ _ _ _ (ob_reply a _ _ _) Hk); [eapply wf_reply; [exact HK2|apply HURV|apply HURV|done|]|].
  { intros Hv. assert (Hn : (1 <= n)%nat) by (unfold n, entries; rewrite Hv; lia).
    split_and!; [by apply Hm|lia|eapply roomy_less; [apply Hroom; lia|done]|].
    destruct (Hlocal Hv) as [p Hp]. exists p. split; [done|]. by apply Href. }
  intros [[[reply_name reply] release] h] s3 Hk3 (HK3 & Hr3 & Hc3 & Hnamed & Hheld).
  eapply wp_mono; [|eapply (wf_header_voucher s3 reply_name reply release h); [done| |done|by etrans| | |]].
  - intros r s' (HK' & Hr' & Hkeep & vn & dest_name & Hk' & Hdest & Hvn & ->). split_and!; [done|done|]. eexists. split; [done|].
    exists reply_name, dest_name, vn. split_and!; [done|done| |done|done]. by eapply reply_told_calm.
  - eapply kwf_proper; [done| |exact HK3]. intros r. unfold reply_rights, plus. rewrite cnt_app. lia.
  - intros Hv Hopt. by eapply entries_left.
  - unfold reply_named in Hnamed. intros Hv. destruct (IP_VALID (msgh_local_port m)) eqn:Hlv; [|destruct Hnamed as (_ & -> & _); congruence].
    destruct Hnamed as [(-> & _)|(_ & -> & _)]; [|done]. destruct (Hlocal eq_refl) as [p Hp].
    destruct (proj2 Hc _ _ Hp) as (q & Hq & _). by exists q.
  - unfold reply_named in Hnamed. destruct (IP_VALID (msgh_local_port m)); [done|]. by destruct Hnamed as (_ & _ & ->).
Qed.
End rest.

Lemma wf_copyout_header s T m option dest :
  kwf s (T ⊕ [RMsg k]) -> hand_ok T -> foreign a T -> ready a s -> ks_kmsgs s !! k = Some m -> receivable s m option dest ->
  wp (ipc_kmsg_copyout_header k a option) s (fun r s' => kwf s' (T ⊕ [RMsg k]) /\ ready a s' /\
    match r with
    | inl mr => mr = Z.lor MACH_RCV_HEADER_ERROR MACH_MSG_IPC_SPACE /\ ks_kmsgs s' !! k = Some m
    | inr um => header_out s s' m option dest um
    end).
Proof using Hsz.
  intros HK HT Hf Hr Hk Hrc. pose proof Hrc as [Hdest Htab Hreply _ _]. pose proof (oo_kmsgs _ (kw_objects _ _ HK) _ _ Hk) as Hm.
  destruct (aside_start _ _ _ _ HK Hk) as [_ HK0]. pose proof (kw_objects _ _ HK0) as HO.
  pose proof (oo_ports _ HO _ _ Hdest) as Hdok. apply (ready_without a k) in Hr.
  unfold ipc_kmsg_copyout_header. apply wp_bind, (wp_ikm_get k m); [done|]. cbv zeta.
  wp_step. wp_step; [exact (po_valid _ _ Hdok)|]. apply wp_bind.
  eapply (aside_step _ _ _ _ _ (ob_spnotify _) Hk); [by eapply (kwf_spnotify a (without k s))|].
  intros _ s1 Hk1 (HK1 & Hr1 & Hal & Hps). pose proof (calm_alike _ _ Hps Hal) as Hc1.
  set (v := ikm_voucher m) in *. set (reply := msgh_local_port m) in *. set (vt := MACH_MSGH_BITS_VOUCHER (msgh_bits m)) in *.
  set (rt := MACH_MSGH_BITS_LOCAL (msgh_bits m)). set (dt := MACH_MSGH_BITS_REMOTE (msgh_bits m)).
  assert (Hvt : IP_VALID v = true -> vt = MACH_MSG_TYPE_MOVE_SEND) by (apply Hm).
  wp_step. apply (wp_mono _ _ (fun _ s' => s' = s1)).
  2:{ destruct (IP_VALID v); cbn [mwhen]; [|by apply (wp_ret tt)]. wp_step; [by apply Z.eqb_eq, Hvt|]. done. }
  intros _ ? ->. destruct (rd_space _ _ Hr1) as [sp Hsp]. apply wp_bind. eapply wp_is_get; [exact Hsp|].
  set (n := entries (IP_VALID reply) (IP_VALID v) option).
  replace ((if IP_VALID reply then 1 else 0) + _) with (Z.of_nat n) by (unfold n, entries; destruct (IP_VALID reply), (_ && _); done).
  apply wp_bind. eapply (aside_step _ _ _ _ _ (ob_held _ _ _ _) Hk1); [by eapply wf_held|].
  intros held s2 Hk2 (HK2 & Hw & Hroom). pose proof (ready_widened _ _ _ Hr1 Hw) as Hr2. pose proof (calm_widened _ _ _ Hw) as Hc2.
  destruct held; cbn [negb].
  2:{ wp_step. split_and!; [|by apply (ready_without a k)|done|done]. by eapply aside_end; [split|..]. }
  apply (ready_without a k) in Hr. change (wp (header_rest m option (Z.of_nat n)) s2 (fun r s' => kwf s' (T ⊕ [RMsg k]) /\ ready a s' /\
    match r with
    | inl mr => mr = Z.lor MACH_RCV_HEADER_ERROR MACH_MSG_IPC_SPACE /\ ks_kmsgs s' !! k = Some m
    | inr um => header_out s s' m option dest um
    end)).
  eapply wp_mono; [|eapply (wf_header_rest s m option dest T HT Hf Hm HO Hrc); [done|done|done|by etrans|by apply Hroom|]].
  - cbv beta. by intros r s' (? & ? & um & -> & ?).
  - intros p Hp. destruct Hw as (HP & _). specialize (Hal reply). change (ks_ports s2 = ks_ports s1) in HP. rewrite HP in Hp.
    unfold reply in *. simpl in Hal. rewrite Hp in Hal. inversion Hal as [q ? (Hrf & _) E1|]; subst. rewrite Hrf. by apply Hreply.
Qed.
End header.

(** What is left of a message that was received: nothing but its frame *)
Definition received (s' : kstate) (k : Z) : Prop := exists m', ks_kmsgs s' !! k = Some m' /\ kmsg_rights m' = [].


(** ** A request with a reply port arrives *)
Module DeliverExample.
Import Sample DestroyExample CopyoutExample BodyExample.

(** A send-once right to port 0x100 of space 0x1000, and a send right to a port of the kernel
    for the reply *)
Definition request : ipc_kmsg :=
  mk_ipc_kmsg (Z.lor (Z.shiftl MACH_MSG_TYPE_PORT_SEND 8) MACH_MSG_TYPE_PORT_SEND_ONCE) 0x100 0x800 [] 0 0 0 36 0.

Definition requested : kstate :=
  set_ks_kmsgs {[0xb00 := request]}
    (set_ks_ports (<[0x100 := sample_port true 3 0x1000 0x104 None 1 2]> (<[0x800 := sample_port true 2 0 0 None 1 0]> (ks_ports sample))) sample).

Lemma request_ok : kmsg_ok request.
Proof. split; try done; try (intros _; vm_compute; set_solver). Qed.

Lemma requested_kwf : kwf requested (kernel_hand ⊕ [RMsg 0xb00]).
Proof.
  pose proof sample_kwf as [_ [H1 H2 H3 H4] HS]. split; [| |done].
  { eapply ledger_ext; [apply (ledger_check_sound _ [RRef 0x800; RLive 0x800; RHome 0x800 0 0; RMsg 0xb00]); by vm_compute|].
    intros r. unfold kernel_hand, plus, hand. cbn [cnt]. lia. }
  split; [|done| |].
  - intros o q Hq. unfold requested in Hq. cbn [ks_ports set_ks_ports set_ks_kmsgs] in Hq.
    apply lookup_insert_Some in Hq as [[<- <-]|[_ Hq]]; [by apply sample_port_ok|].
    apply lookup_insert_Some in Hq as [[<- <-]|[_ Hq]]; [by apply sample_port_ok|by apply H1].
  - intros o [q Hq]. change (ks_psets requested) with (ks_psets sample). unfold sample. cbn [ks_psets].
    apply lookup_singleton_None. intros <-. by vm_compute in Hq.
  - intros k m Hm. unfold requested in Hm. cbn [ks_kmsgs set_ks_kmsgs] in Hm. apply lookup_singleton_Some in Hm as [<- <-]. apply request_ok.
Qed.

Lemma requested_receivable : receivable 0x1000 requested request 0 (sample_port true 3 0x1000 0x104 None 1 2).
Proof.
  split; [done|done| |by left|done]. intros p Hp. by injection Hp as <-.
Qed.


End DeliverExample.
