(* ===== verification/IpcReturnOk.v ===== *)
(** * Messages that are not received (ipc_kmsg.c)

    When the header of a message cannot be copied out, or the message is too large for the
    receiver, [ipc_kmsg_copyout_dest] tells the receiver only of the destination and gives up
    everything else; when a message comes back to its sender, [ipc_kmsg_copyout_pseudo] gives
    all its rights to the sender's space.  Both empty the message. *)

From S2P Require Import IpcTypes IpcBits IpcHash IpcEntry IpcGrow IpcState IpcLedger IpcPort IpcRequest IpcDestroy IpcRight IpcObject MachPort IpcKmsg IpcGentle IpcFocus IpcSample IpcRightOk IpcDeltaOk IpcPortOk IpcCopyOk IpcDesk IpcDestroyOk IpcCircularOk IpcFrame IpcAllocOk IpcCopyoutOk IpcBodyOk IpcSendOk IpcTable IpcArriveOk IpcDeliverOk.

(** A message without rights *)
Record bare (m : ipc_kmsg) : Prop := {
  br_remote : msgh_remote_port m = IP_NULL;
  br_local : msgh_local_port m = IP_NULL;
  br_voucher : IO_VALID (ikm_voucher m) = false;
  br_body : has (msgh_bits m) MACH_MSGH_BITS_COMPLEX = true -> msgh_descriptors m = [];
}.

Lemma bare_rights m : bare m -> ikm_prealloc m = IP_NULL -> kmsg_rights m = [].
Proof.
  intros [H1 H2 H3 H4] Hp. unfold kmsg_rights. rewrite H1, H2, Hp. unfold disposition_rights. rewrite H3. simpl. rewrite app_nil_r.
  destruct (has (msgh_bits m) MACH_MSGH_BITS_COMPLEX); [|done]. by rewrite H4.
Qed.

Section back.
Context {env : ipc_env} (a : Z) (k : Z).

(** The message is put down empty. *)
Lemma aside_bare m s T :
  aside k m s T -> bare m -> kmsg_ok m -> hand_ok T -> kwf s (T ⊕ [RMsg k]) /\ received s k.
Proof.
  intros HA Hb Hm HT. pose proof (bare_rights m Hb (ko_prealloc _ Hm)) as Hr. split.
  - eapply aside_end; [|done|done]. rewrite Hr. eapply aside_ext; [exact HA|]. intros r. unfold plus. simpl. lia.
  - exists m. split; [apply HA|done].
Qed.

Lemma aside_object_given_up m s T d o Q :
  aside k m s (T ⊕ disposition_rights d o) -> hand_ok T -> (IO_VALID o = true -> d ∈ dispositions) -> ready a s -> IO_VALID o = true ->
  (forall s', aside k m s' T -> ready a s' -> ks_spaces s' = ks_spaces s -> Q tt s') -> wp (ipc_object_destroy o d) s Q.
Proof.
  intros [Hk HK] HT Hd Hr Hv HQ. apply (ready_without a k) in Hr.
  eapply (aside_step k _ _ _ (fun _ t => kwf t T /\ ready a t /\ ks_spaces t = ks_spaces s) _ (ob_object_destroy _ ob_destroy _ _) Hk).
  - assert (Hw : wp (mwhen (IO_VALID o) (ipc_object_destroy o d)) (without k s) (fun _ t => kwf t T /\ ready a t /\ ks_spaces t = ks_spaces s));
      [|by rewrite Hv in Hw].
    eapply (dk_object_destroy _ _ mode_top _ destroys_top true (without k s) Rest T); [|done|done|by split; [|apply Hr]|intros _; apply Hr|].
    + rewrite carried_circular. by apply dk_kwf.
    + intros t HD Hsw. split_and!; [by apply dk_kwf|by eapply ready_swept|apply Hsw].
  - intros [] s' Hk' (HK' & Hr' & Hsp). apply HQ; [by split|by apply (ready_without a k)|done].
Qed.

Lemma aside_body_given_up m s T c ds Q :
  aside k m s (T ⊕ (ds ≫= descriptor_rights c)) -> hand_ok T -> Forall descriptor_ok ds -> ready a s ->
  (forall s', aside k m s' T -> ready a s' -> ks_spaces s' = ks_spaces s -> Q tt s') -> wp (ipc_kmsg_clean_body ds) s Q.
Proof.
  intros [Hk HK] HT Hd Hr HQ. apply (ready_without a k) in Hr.
  eapply (aside_step k _ _ _ (fun _ t => kwf t T /\ ready a t /\ ks_spaces t = ks_spaces s) _ (ob_clean_body _ ob_destroy _) Hk).
  - unfold ipc_kmsg_clean_body.
    eapply (dk_clean_body _ _ mode_top _ destroys_top c ds (without k s) Rest T); [by apply dk_kwf|done|done|by split; [|apply Hr]|intros _; apply Hr|].
    intros t HD Hsw. split_and!; [by apply dk_kwf|by eapply ready_swept|apply Hsw].
  - intros [] s' Hk' (HK' & Hr' & Hsp). apply HQ; [by split|by apply (ready_without a k)|done].
Qed.

(** The name of the destination *)
Definition dest_told (p : ipc_port) : Z := if ip_active p then home_name a p else MACH_PORT_DEAD.

Lemma aside_dest_name m s T d o p Q :
  aside k m s (T ⊕ disposition_rights d o) -> hand_ok T -> d ∈ [MACH_MSG_TYPE_PORT_SEND; MACH_MSG_TYPE_PORT_SEND_ONCE] -> ready a s ->
  ks_ports s !! o = Some p ->
  (forall s', aside k m s' T -> ready a s' -> ks_spaces s' = ks_spaces s -> Q (dest_told p) s') -> wp (copyout_dest_name a o d) s Q.
Proof.
  intros [Hk HK] HT Hd Hr Ho HQ. apply (ready_without a k) in Hr.
  assert (Hob : oblivious (copyout_dest_name a o d)).
  { unfold copyout_dest_name, ipc_object_copyout_dest, drop_sright. oblivious. }
  eapply (aside_step k _ _ _ (fun n t => n = dest_told p /\ kwf t T /\ ready a t /\ ks_spaces t = ks_spaces s) _ Hob Hk).
  - unfold copyout_dest_name, dest_told. apply wp_bind. eapply wp_io_bits; [exact Ho|]. fold (ip_active p). destruct (ip_active p) eqn:Ha.
    + eapply wp_mono; [|by eapply kwf_dest_live]. cbv beta. by intros n t (? & ? & [? _] & ->).
    + apply wp_bind. eapply wp_mono; [|by eapply kwf_dest_dead]. cbv beta. intros _ t (? & ? & ? & _). by wp_step.
  - intros n s' Hk' (-> & HK' & Hr' & Hsp). apply HQ; [by split|by apply (ready_without a k)|done].
Qed.

Lemma ready_aside s s' : without k s' = without k s -> ready a s -> ready a s'.
Proof. intros Hw Hr. apply (ready_without a k). rewrite Hw. by apply ready_without. Qed.

Lemma spaces_aside s s' : without k s' = without k s -> ks_spaces s' = ks_spaces s.
Proof. intros Hw. exact (f_equal ks_spaces Hw). Qed.

Lemma hand_kmsg m T : hand_ok T -> forall r,
  (T ⊕ kmsg_rights m) r = (T ⊕ body_rights m ⊕ disposition_rights MACH_MSG_TYPE_PORT_SEND (ikm_voucher m)
    ⊕ disposition_rights (MACH_MSGH_BITS_LOCAL (msgh_bits m)) (msgh_local_port m)
    ⊕ disposition_rights (MACH_MSGH_BITS_REMOTE (msgh_bits m)) (msgh_remote_port m)) r.
Proof. intros HT r. unfold plus. rewrite kmsg_split. unfold header_rights. rewrite !cnt_app. lia. Qed.

Lemma body_descriptors m r :
  ikm_prealloc m = IP_NULL -> cnt r (body_rights m) =
  cnt r (when (has (msgh_bits m) MACH_MSGH_BITS_COMPLEX) (msgh_descriptors m ≫= descriptor_rights (has (msgh_bits m) MACH_MSGH_BITS_CIRCULAR))).
Proof. intros Hp. unfold body_rights. rewrite Hp, cnt_app. simpl. lia. Qed.

(** The name of a reply port that is given up *)
Definition reply_dropped (o : Z) : Z := if IO_VALID o then MACH_PORT_NULL else CAST_MACH_PORT_TO_NAME o.

Lemma aside_reply_dropped m s T d o Q :
  aside k m s (T ⊕ disposition_rights d o) -> hand_ok T -> (IO_VALID o = true -> d ∈ [MACH_MSG_TYPE_PORT_SEND; MACH_MSG_TYPE_PORT_SEND_ONCE]) ->
  ready a s -> (forall s', aside k m s' T -> ready a s' -> ks_spaces s' = ks_spaces s -> Q (reply_dropped o) s') ->
  wp (if IO_VALID o then _ ← ipc_object_destroy o d; mret MACH_PORT_NULL else mret (CAST_MACH_PORT_TO_NAME o)) s Q.
Proof.
  intros HA HT Hd Hr HQ. unfold reply_dropped in HQ. destruct (IO_VALID o) eqn:Hv.
  - apply wp_bind. eapply aside_object_given_up; [exact HA|done| |done|done|].
    + intros _. by apply dispositions_any, Hd.
    + intros s' HA' Hr' Hsp. wp_step. by apply HQ.
  - wp_step. apply HQ; [|done|done]. eapply aside_ext; [exact HA|]. intros r. unfold plus, disposition_rights. rewrite Hv. simpl. lia.
Qed.

(** The message without its voucher *)
Definition unvouched (m : ipc_kmsg) (name : Z) : ipc_kmsg :=
  set_msgh_voucher_port name (set_ikm_voucher (if IO_VALID (ikm_voucher m) then IP_NULL else ikm_voucher m) m).

Lemma aside_voucher_dropped m s T Q :
  aside k m s (T ⊕ disposition_rights MACH_MSG_TYPE_PORT_SEND (ikm_voucher m)) -> hand_ok T -> kmsg_ok m -> ready a s ->
  (forall s', aside k (unvouched m (if IO_VALID (ikm_voucher m) then MACH_PORT_NULL else msgh_voucher_port m)) s' T -> ready a s' ->
    ks_spaces s' = ks_spaces s -> Q tt s') ->
  wp (mwhen (IO_VALID (ikm_voucher m))
        (_ ← massert (MACH_MSGH_BITS_VOUCHER (msgh_bits m) =? MACH_MSG_TYPE_MOVE_SEND);
         _ ← ikm_mod k (set_ikm_voucher IP_NULL);
         _ ← ipc_object_destroy (ikm_voucher m) (MACH_MSGH_BITS_VOUCHER (msgh_bits m));
         ikm_mod k (set_msgh_voucher_port MACH_PORT_NULL))) s Q.
Proof.
  intros HA HT Hm Hr HQ. unfold unvouched in HQ. destruct (IO_VALID (ikm_voucher m)) eqn:Hv; cbn [mwhen].
  - pose proof (ko_voucher _ Hm Hv) as Hvt. rewrite Hvt. wp_step. wp_step; [done|]. apply wp_bind. eapply aside_mod; [exact HA|].
    intros s1 HA1 Hw1. apply wp_bind. eapply aside_object_given_up; [exact HA1|done| |by eapply ready_aside|done|]; [intros _; left|].
    intros s2 HA2 Hr2 Hsp2. eapply aside_mod; [exact HA2|]. intros s3 HA3 Hw3. eapply HQ; [exact HA3|by eapply ready_aside|].
    rewrite (spaces_aside _ _ Hw3), Hsp2. by apply spaces_aside.
  - apply (wp_ret tt). apply HQ; [|done|done].
    replace (set_msgh_voucher_port (msgh_voucher_port m) (set_ikm_voucher (ikm_voucher m) m)) with m by (by destruct m).
    eapply aside_ext; [exact HA|]. intros r. unfold plus, disposition_rights. rewrite Hv. simpl. lia.
Qed.

(** A message whose header is out loses its body. *)
Record beheaded (m m' : ipc_kmsg) : Prop := {
  bh_remote : msgh_remote_port m' = IP_NULL;
  bh_local : msgh_local_port m' = IP_NULL;
  bh_voucher : IO_VALID (ikm_voucher m') = false;
  bh_complex : has (msgh_bits m') MACH_MSGH_BITS_COMPLEX = has (msgh_bits m) MACH_MSGH_BITS_COMPLEX;
  bh_importance : MACH_MSGH_BITS_RAISED_IMPORTANCE (msgh_bits m') = false;
  bh_descriptors : msgh_descriptors m' = msgh_descriptors m;
  bh_prealloc : ikm_prealloc m' = IP_NULL;
}.

Lemma beheaded_ok m m' : beheaded m m' -> kmsg_ok m -> kmsg_ok m'.
Proof. intros [H1 H2 H3 H4 H5 H6 H7] []. split; rewrite ?H1, ?H2, ?H3, ?H6; done. Qed.

Lemma aside_body_dropped m m' s T Q :
  aside k m' s (T ⊕ body_rights m) -> hand_ok T -> kmsg_ok m -> ready a s -> beheaded m m' ->
  (forall s', kwf s' (T ⊕ [RMsg k]) -> ready a s' -> received s' k -> ks_spaces s' = ks_spaces s ->
    ks_kmsgs s' !! k = Some (if has (msgh_bits m) MACH_MSGH_BITS_COMPLEX then set_msgh_descriptors [] m' else m') -> Q tt s') ->
  wp (mwhen (has (msgh_bits m) MACH_MSGH_BITS_COMPLEX)
        (_ ← ipc_kmsg_clean_body (msgh_descriptors m); ikm_mod k (set_msgh_descriptors []))) s Q.
Proof.
  intros HA HT Hm Hr Hb HQ. pose proof (beheaded_ok _ _ Hb Hm) as Hm'.
  eapply aside_ext with (T' := T ⊕ when (has (msgh_bits m) MACH_MSGH_BITS_COMPLEX)
    (msgh_descriptors m ≫= descriptor_rights (has (msgh_bits m) MACH_MSGH_BITS_CIRCULAR))) in HA.
  2:{ intros r. unfold plus. by rewrite body_descriptors by apply Hm. }
  destruct (has (msgh_bits m) MACH_MSGH_BITS_COMPLEX) eqn:Hc; cbn [mwhen when] in *.
  - apply wp_bind. eapply aside_body_given_up; [exact HA|done|apply Hm|done|]. intros s1 HA1 Hr1 Hsp1.
    eapply aside_mod; [exact HA1|]. intros s2 HA2 Hw2. destruct (aside_bare _ s2 T HA2) as [? ?]; [by destruct Hb|by destruct Hm'|done|].
    apply HQ; [done|by eapply ready_aside|done|by rewrite (spaces_aside _ _ Hw2)|apply HA2].
  - apply (wp_ret tt). pose proof (proj1 HA) as Hk. eapply aside_ext with (T' := T) in HA; [|intros r; unfold plus; simpl; lia].
    destruct (aside_bare _ s T HA) as [? ?]; [|done|done|by apply HQ]. destruct Hb as [? ? ? Hcx]. split; [done..|].
    rewrite Hcx, Hc. done.
Qed.

(** What is left of the message, and what the receiver reads *)
Definition stripped (m : ipc_kmsg) : ipc_kmsg :=
  let bits := MACH_MSGH_BITS_SET (MACH_MSGH_BITS_LOCAL (msgh_bits m)) (MACH_MSGH_BITS_REMOTE (msgh_bits m))
                (MACH_MSGH_BITS_VOUCHER (msgh_bits m)) (msgh_bits m) in
  let m' := set_msgh_local_port IP_NULL (set_msgh_remote_port IP_NULL (set_msgh_bits bits
              (unvouched m (if IO_VALID (ikm_voucher m) then MACH_PORT_NULL else msgh_voucher_port m)))) in
  if has (msgh_bits m) MACH_MSGH_BITS_COMPLEX then set_msgh_descriptors [] m' else m'.

Definition only_dest (m : ipc_kmsg) (p : ipc_port) : mach_msg_user :=
  mk_mach_msg_user (msgh_bits (stripped m)) (CAST_MACH_NAME_TO_PORT (reply_dropped (msgh_local_port m)))
    (CAST_MACH_NAME_TO_PORT (dest_told p)) [].

Lemma wf_copyout_dest s T m p :
  kwf s (T ⊕ [RMsg k]) -> hand_ok T -> ready a s -> ks_kmsgs s !! k = Some m -> ks_ports s !! msgh_remote_port m = Some p ->
  ikm_importance m = 0 ->
  wp (ipc_kmsg_copyout_dest k a) s (fun um s' => kwf s' (T ⊕ [RMsg k]) /\ received s' k /\
    ks_kmsgs s' !! k = Some (stripped m) /\ um = only_dest m p /\ ks_spaces s' = ks_spaces s).
Proof.
  intros HK HT Hr Hk Hp Himp. pose proof (oo_kmsgs _ (kw_objects _ _ HK) _ _ Hk) as Hm. pose proof (oo_ports _ (kw_objects _ _ HK) _ _ Hp) as Hpok.
  pose proof (aside_start _ _ _ _ HK Hk) as HA. eapply aside_ext in HA; [|intros r; symmetry; by apply hand_kmsg].
  set (U := T ⊕ body_rights m) in *. assert (HU : hand_ok U) by (apply hand_ok_plus; [done|apply backed_body]).
  set (V := disposition_rights MACH_MSG_TYPE_PORT_SEND (ikm_voucher m)) in *.
  assert (HV : hand_ok (U ⊕ V)) by (apply hand_ok_plus; [done|apply backed_disposition]).
  unfold ipc_kmsg_copyout_dest. apply wp_bind, (wp_ikm_get k m); [done|]. cbv zeta.
  wp_step. wp_step; [apply Hpok|]. wp_step. wp_step; [by apply Z.eqb_eq|]. wp_step. wp_step; [by rewrite (ko_importance _ Hm)|].
  apply wp_bind. eapply aside_dest_name; [exact HA| |by apply Hm, Hpok|done|done|].
  { apply hand_ok_plus; [done|apply backed_disposition]. }
  intros s1 HA1 Hr1 Hsp1. apply wp_bind. eapply aside_reply_dropped; [exact HA1|done|apply Hm|done|]. intros s2 HA2 Hr2 Hsp2.
  apply wp_bind. eapply aside_voucher_dropped; [exact HA2|done|done|done|]. intros s3 HA3 Hr3 Hsp3.
  apply wp_bind. eapply aside_mod; [exact HA3|]. intros s4 HA4 Hw4. pose proof (ready_aside _ _ Hw4 Hr3) as Hr4.
  destruct (bits_kept (MACH_MSGH_BITS_LOCAL (msgh_bits m)) (MACH_MSGH_BITS_REMOTE (msgh_bits m)) (MACH_MSGH_BITS_VOUCHER (msgh_bits m)) (msgh_bits m)) as (Hcx & _ & Hri).
  set (bits := MACH_MSGH_BITS_SET _ _ _ _) in *. apply wp_bind.
  eapply (aside_body_dropped m); [exact HA4|done|done|done| |].
  { split; try done; [simpl; by destruct (IO_VALID (ikm_voucher m)) eqn:Hv|simpl; by rewrite Hri, (ko_importance _ Hm)|apply Hm]. }
  intros s5 HK5 Hr5 Hrec Hsp5 Hk5. wp_step. split_and!; [done|done|done| |].
  - unfold only_dest, stripped. by destruct (has (msgh_bits m) MACH_MSGH_BITS_COMPLEX).
  - rewrite Hsp5, (spaces_aside _ _ Hw4). congruence.
Qed.
End back.

(** C13 When a message cannot be received, [ipc_kmsg_copyout_dest] empties it: the receiver is
    told under which name it has the destination, [MACH_PORT_DEAD] if the destination died,
    and reads [MACH_PORT_NULL] for the reply port and, in what is left of the message, for the
    voucher (a port that is no port is told as it is), and no descriptor.  No right goes to
    the receiver: no space changes, and the reply port, the voucher and everything in the body
    is given up, receive rights by destroying their ports.  It never fails an assertion and
    the kernel is balanced. *)
Theorem ipc_kmsg_copyout_dest_correct {env : ipc_env} s T a k m p :
  kwf s (T ⊕ [RMsg k]) -> hand_ok T -> ready a s -> ks_kmsgs s !! k = Some m -> ks_ports s !! msgh_remote_port m = Some p ->
  ikm_importance m = 0 ->
  wp (ipc_kmsg_copyout_dest k a) s (fun um s' => kwf s' (T ⊕ [RMsg k]) /\ received s' k /\
    ks_kmsgs s' !! k = Some (stripped m) /\ um = only_dest a m p /\ ks_spaces s' = ks_spaces s).
Proof. intros. by eapply wf_copyout_dest. Qed.

(** ** A message comes back to its sender *)
Section pseudo.
Context {env : ipc_env} {vm : vm_env} (a : Z) (Hsz : sizes_ok ipc_table_entries) (k : Z).
Context (Hvm : forall s n addr, mach_vm_allocate s n = inr addr -> addr <> 0).

Lemma aside_object_back m s T d o Q :
  aside k m s (T ⊕ disposition_rights d o) -> hand_ok T -> foreign a T ->
  (IO_VALID o = true -> d ∈ [MACH_MSG_TYPE_PORT_SEND; MACH_MSG_TYPE_PORT_SEND_ONCE]) -> ready a s ->
  (forall mr name s', aside k m s' T -> ready a s' -> Q (mr, name) s') -> wp (ipc_kmsg_copyout_object a o d) s Q.
Proof using Hsz.
  intros HA HT Hf Hd Hr HQ. eapply (aside_copyout_object a Hsz k m s T true); [by rewrite carried_circular|done|done| |done|].
  - intros Hv. by apply dispositions_any, Hd.
  - intros [mr name] s' HA' Hr' _. by apply HQ.
Qed.

Lemma bits_user bits :
  has (Z.land bits MACH_MSGH_BITS_USER) MACH_MSGH_BITS_COMPLEX = has bits MACH_MSGH_BITS_COMPLEX /\
  MACH_MSGH_BITS_RAISED_IMPORTANCE (Z.land bits MACH_MSGH_BITS_USER) = false.
Proof using.
  unfold has, MACH_MSGH_BITS_RAISED_IMPORTANCE, has. rewrite <- !Z.land_assoc. split; [done|]. by rewrite Z.land_0_r.
Qed.

Lemma aside_voucher_back m m1 s T Q :
  aside k m1 s (T ⊕ disposition_rights MACH_MSG_TYPE_PORT_SEND (ikm_voucher m)) -> hand_ok T -> foreign a T -> kmsg_ok m -> ready a s ->
  ikm_voucher m1 = ikm_voucher m ->
  (forall mr n s', aside k (unvouched m1 n) s' T -> ready a s' -> Q mr s') ->
  wp (if IO_VALID (ikm_voucher m) then
        _ ← massert (MACH_MSGH_BITS_VOUCHER (msgh_bits m) =? MACH_MSG_TYPE_MOVE_SEND);
        _ ← ikm_mod k (set_ikm_voucher IP_NULL);
        '(mr3, voucher_name) ← ipc_kmsg_copyout_object a (ikm_voucher m) (MACH_MSGH_BITS_VOUCHER (msgh_bits m));
        _ ← ikm_mod k (set_msgh_voucher_port voucher_name);
        mret mr3
      else mret MACH_MSG_SUCCESS) s Q.
Proof using Hsz.
  intros HA HT Hf Hm Hr Hv1 HQ. unfold unvouched in HQ. rewrite Hv1 in HQ. destruct (IO_VALID (ikm_voucher m)) eqn:Hv.
  - rewrite (ko_voucher _ Hm Hv). wp_step. wp_step; [done|]. apply wp_bind. eapply aside_mod; [exact HA|].
    intros s1 HA1 Hw1. apply wp_bind. eapply aside_object_back; [exact HA1|done|done| |by eapply ready_aside|]; [intros _; left|].
    intros mr name s2 HA2 Hr2. apply wp_bind. eapply aside_mod; [exact HA2|]. intros s3 HA3 Hw3. wp_step.
    eapply HQ; [exact HA3|by eapply ready_aside].
  - wp_step. eapply (HQ _ (msgh_voucher_port m1)); [|done].
    replace (set_msgh_voucher_port (msgh_voucher_port m1) (set_ikm_voucher (ikm_voucher m) m1)) with m1 by (rewrite <- Hv1; by destruct m1).
    eapply aside_ext; [exact HA|]. intros r. unfold plus, disposition_rights. rewrite Hv. simpl. lia.
Qed.

Lemma aside_body_back m m' s T Q :
  aside k m' s (T ⊕ body_rights m) -> hand_ok T -> foreign a T -> kmsg_ok m -> ready a s -> beheaded m m' ->
  Forall deliverable (msgh_descriptors m) ->
  (forall mr uds s', kwf s' (T ⊕ [RMsg k]) -> received s' k ->
    (has (msgh_bits m) MACH_MSGH_BITS_COMPLEX = true -> Forall2 delivered (msgh_descriptors m) uds) -> Q (mr, uds) s') ->
  wp (if has (msgh_bits m) MACH_MSGH_BITS_COMPLEX then ipc_kmsg_copyout_body k a else mret (MACH_MSG_SUCCESS, [])) s Q.
Proof using Hsz Hvm.
  intros HA HT Hf Hm Hr Hb Hdel HQ. pose proof (beheaded_ok _ _ Hb Hm) as Hm'.
  eapply aside_ext with (T' := T ⊕ when (has (msgh_bits m) MACH_MSGH_BITS_COMPLEX)
    (msgh_descriptors m ≫= descriptor_rights (has (msgh_bits m) MACH_MSGH_BITS_CIRCULAR))) in HA.
  2:{ intros r. unfold plus. by rewrite body_descriptors by apply Hm. }
  destruct (has (msgh_bits m) MACH_MSGH_BITS_COMPLEX) eqn:Hc; cbn [when] in *.
  - rewrite <- (bh_descriptors _ _ Hb) in HA, Hdel, HQ.
    eapply (aside_copyout_body a Hsz k m' Hvm); [exact HA|done|done|done|apply Hm'|done|]. intros mr uds s' HA' Hr' Hall%all_out_delivered.
    destruct (aside_bare k _ s' T HA') as [? ?]; [by destruct Hb|by destruct Hm'|done|]. by apply HQ.
  - wp_step. eapply aside_ext with (T' := T) in HA; [|intros r; unfold plus; simpl; lia].
    destruct (aside_bare k _ s T HA) as [? ?]; [|done|done|by apply HQ]. destruct Hb as [? ? ? Hcx]. split; [done..|]. by rewrite Hcx, Hc.
Qed.

Lemma wf_copyout_pseudo s T m :
  kwf s (T ⊕ [RMsg k]) -> hand_ok T -> foreign a T -> ready a s -> ks_kmsgs s !! k = Some m ->
  IO_VALID (msgh_remote_port m) = true -> ikm_importance m = 0 -> Forall deliverable (msgh_descriptors m) ->
  wp (ipc_kmsg_copyout_pseudo k a) s (fun r s' => kwf s' (T ⊕ [RMsg k]) /\ received s' k /\
    (has (msgh_bits m) MACH_MSGH_BITS_COMPLEX = true -> Forall2 delivered (msgh_descriptors m) (um_descriptors r.2))).
Proof using Hsz Hvm.
  intros HK HT Hf Hr Hk Hv Himp Hdel. pose proof (oo_kmsgs _ (kw_objects _ _ HK) _ _ Hk) as Hm.
  pose proof (aside_start _ _ _ _ HK Hk) as HA. eapply aside_ext in HA; [|intros r; symmetry; by apply hand_kmsg].
  assert (HU : hand_ok (T ⊕ body_rights m) /\ foreign a (T ⊕ body_rights m))
    by (apply hand_foreign; [done|apply backed_body|apply movable_body]). set (U := T ⊕ body_rights m) in *.
  pose proof (hand_disposition a _ MACH_MSG_TYPE_PORT_SEND (ikm_voucher m) HU) as HV. set (V := disposition_rights _ (ikm_voucher m)) in *.
  pose proof (hand_disposition a _ (MACH_MSGH_BITS_LOCAL (msgh_bits m)) (msgh_local_port m) HV) as HL.
  unfold ipc_kmsg_copyout_pseudo. apply wp_bind, (wp_ikm_get k m); [done|]. cbv zeta.
  wp_step. wp_step; [done|]. wp_step. wp_step; [by apply Z.eqb_eq|]. wp_step. wp_step; [by rewrite (ko_importance _ Hm)|].
  apply wp_bind. eapply aside_object_back; [exact HA|apply HL|apply HL|apply Hm|done|]. intros mr1 dn s1 HA1 Hr1.
  apply wp_bind. eapply aside_object_back; [exact HA1|apply HV|apply HV|apply Hm|done|]. intros mr2 rn s2 HA2 Hr2.
  apply wp_bind. eapply aside_mod; [exact HA2|]. intros s3 HA3 Hw3. pose proof (ready_aside a k _ _ Hw3 Hr2) as Hr3.
  apply wp_bind. eapply aside_voucher_back; [exact HA3|apply HU|apply HU|done|done|done|]. intros mr3 vn s4 HA4 Hr4.
  destruct (bits_user (msgh_bits m)) as [Hcx Hri]. apply wp_bind.
  eapply (aside_body_back m); [exact HA4|done|done|done|done| |done|].
  { split; try done; [simpl; by destruct (IO_VALID (ikm_voucher m)) eqn:Hv0|apply Hm]. }
  intros mr4 uds s5 HK5 Hrec Hall. wp_step. by split_and!.
Qed.
End pseudo.

(** C14 When a message comes back to its sender, [ipc_kmsg_copyout_pseudo] empties it: every
    right of its header and body goes to the sender's space or is given up, whatever goes
    wrong with any of them, and the kernel is balanced.  (The mark of a circular message is
    removed before its body is copied out.) *)
Theorem ipc_kmsg_copyout_pseudo_correct {env : ipc_env} {vm : vm_env} s T a k m :
  sizes_ok ipc_table_entries -> (forall s n addr, mach_vm_allocate s n = inr addr -> addr <> 0) ->
  kwf s (T ⊕ [RMsg k]) -> hand_ok T -> foreign a T -> ready a s -> ks_kmsgs s !! k = Some m ->
  IO_VALID (msgh_remote_port m) = true -> ikm_importance m = 0 -> Forall deliverable (msgh_descriptors m) ->
  wp (ipc_kmsg_copyout_pseudo k a) s (fun r s' => kwf s' (T ⊕ [RMsg k]) /\ received s' k /\
    (has (msgh_bits m) MACH_MSGH_BITS_COMPLEX = true -> Forall2 delivered (msgh_descriptors m) (um_descriptors r.2))).
Proof. intros. by eapply wf_copyout_pseudo. Qed.

(** ** The message to port 0x800 is not received *)
Module ReturnExample.
Import Sample DestroyExample CopyoutExample BodyExample.

Lemma ipc_kmsg_copyout_dest_witness :
  exists um s', ipc_kmsg_copyout_dest 0xa00 0x1000 posted = Ok (um, s') /\ received s' 0xa00 /\
    ks_spaces s' = ks_spaces posted /\ um_local_port um = MACH_PORT_NULL /\ um_remote_port um = MACH_PORT_NULL.
Proof.
  destruct (wp_inv _ _ _ (ipc_kmsg_copyout_dest_correct posted kernel_hand 0x1000 0xa00 top_mail (sample_port true 3 0 0 None 1 0)
    posted_kwf kernel_hand_ok posted_ready eq_refl eq_refl eq_refl)) as (um & s' & Hrun & _ & Hrec & _ & Hum & Hsp).
  exists um, s'. rewrite Hum. split; [rewrite <- Hum; exact Hrun|]. split; [exact Hrec|]. split; [exact Hsp|]. split; reflexivity.
Defined.

Lemma ipc_kmsg_copyout_pseudo_witness :
  exists r s', ipc_kmsg_copyout_pseudo 0xa00 0x1000 posted = Ok (r, s') /\ received s' 0xa00 /\ r.1 = MACH_MSG_SUCCESS.
Proof.
  destruct (wp_inv _ _ _ (ipc_kmsg_copyout_pseudo_correct posted kernel_hand 0x1000 0xa00 top_mail sample_sizes sample_allocate
    posted_kwf kernel_hand_ok kernel_hand_foreign posted_ready eq_refl eq_refl eq_refl ltac:(by repeat constructor)))
    as (r & s' & Hrun & _ & Hrec & _).
  assert (Hr : match ipc_kmsg_copyout_pseudo 0xa00 0x1000 posted with Ok (r, _) => r.1 | Fail _ => -1 end = MACH_MSG_SUCCESS)
    by (by vm_compute).
  rewrite Hrun in Hr. exists r, s'. split_and!; [exact Hrun|exact Hrec|exact Hr].
Defined.
End ReturnExample.
