(* ===== verification/IpcBirthOk.v ===== *)
(** * New spaces and new ports (ipc_space.c, ipc_object.c, ipc_port.c)

    Creating a space, allocating a port in a space and allocating a kernel port: each gives a
    balanced state again, with the new object in it. *)

From S2P Require Import IpcTypes IpcBits IpcTable IpcHash IpcEntry IpcGrow IpcState IpcLedger IpcPort IpcRequest IpcDestroy IpcRight IpcObject IpcSpace IpcFocus IpcSample IpcRightOk IpcDeltaOk IpcPortOk IpcCopyOk IpcAllocOk IpcCopyoutOk.

Section births.
Context {env : ipc_env} (Hsizes : sizes_ok ipc_table_entries).

(** ** A free entry of a space, growing its table if need be *)

Definition taken_entry (sp sp' : ipc_space) (name i : Z) : Prop :=
  claimed sp sp' name i /\ same_but {[i]} sp sp' /\
  IE_BITS_TYPE (ie_bits (entry_at (is_table sp) i)) = MACH_PORT_TYPE_NONE /\ 0 <= name < 2 ^ 32.

Lemma entry_alloc_wf alloc sp :
  space_wf sp -> is_active sp = true ->
  exists r sp1 sp' ws, ipc_entry_alloc ipc_table_entries 2 sp (atomic_windows alloc) = Ok (r, sp', ws) /\
    space_wf sp1 /\ wider sp sp1 /\
    match r with
    | inl kr => kr ∈ [KERN_NO_SPACE; KERN_RESOURCE_SHORTAGE] /\ sp' = sp1
    | inr (name, i) => taken_entry sp1 sp' name i
    end.
Proof.
  intros Hwf Ha. destruct (Hwf Ha) as (Hok & _). cbn [ipc_entry_alloc]. rewrite Ha. cbn [negb].
  destruct (ipc_entry_get_ok sp Hok Ha) as [[-> Hfull]|(name & i & sp' & -> & Hcl)]; cbn [mbind res_bind].
  2:{ eexists _, sp, _, _. split; [reflexivity|]. by split_and!. }
  destruct (grow_wf Hsizes alloc sp Hwf Ha) as (kr & sp1 & ws & -> & Hwf1 & Hw & Hres). cbn [mbind res_bind].
  destruct Hres as [(-> & Hfree & _)|Hkr].
  2:{ rewrite decide_False by (intros ->; set_solver). eexists _, sp1, _, _. split; [reflexivity|]. by split_and!. }
  rewrite decide_True by done. assert (Ha1 : is_active sp1 = true) by (by rewrite (proj1 Hw)).
  destruct (Hwf1 Ha1) as (Hok1 & _). rewrite Ha1. cbn [negb].
  destruct (ipc_entry_get_ok sp1 Hok1 Ha1) as [[_ Hfull1]|(name & i & sp' & -> & Hcl)]; cbn [mbind res_bind].
  - exfalso. destruct Hfree as (j & Hj & Ht). by apply (Hfull1 j).
  - eexists _, sp1, _, _. split; [reflexivity|]. by split_and!.
Qed.

(** ** Objects nobody has a reference to *)

(** The object a right is about *)
Definition object_of (r : right) : option Z :=
  match r with RName o _ | RPort o => Some o | _ => target r end.

(** Rights to an object come with a reference of it. *)
Definition attached (l : list right) : Prop := forall r o, r ∈ l -> object_of r = Some o -> RRef o ∈ l.

Lemma attached_nil : attached [].
Proof. by intros r o ?%elem_of_nil. Qed.

Lemma attached_app l1 l2 : attached l1 -> attached l2 -> attached (l1 ++ l2).
Proof. intros H1 H2 r o Hr Ho. apply elem_of_app in Hr as [Hr|Hr]; apply elem_of_app; eauto. Qed.

Lemma attached_when b l : attached l -> attached (when b l).
Proof. destruct b; [done|]. intros _. apply attached_nil. Qed.

Lemma attached_bind {A} (f : A -> list right) l : (forall x, attached (f x)) -> attached (l ≫= f).
Proof. intros Hf. induction l as [|x l IH]; [apply attached_nil|]. by apply attached_app. Qed.

(** Rights to one object, its reference among them *)
Lemma attached_one o l : RRef o ∈ l -> Forall (fun r => object_of r = Some o) l -> attached l.
Proof. intros Hin Hl r o' Hr Ho. rewrite list.Forall_forall in Hl. specialize (Hl r Hr). cbv beta in Hl. congruence. Qed.

Lemma attached_sonce o : attached (sonce_rights o).
Proof. apply attached_when, (attached_one o); [set_solver|by repeat constructor]. Qed.

Lemma attached_disposition d o : attached (disposition_rights d o).
Proof.
  apply attached_when, (attached_one o); [by left|].
  constructor; [done|]. repeat apply Forall_app_2; destruct (_ =? _); by repeat constructor.
Qed.

Lemma attached_carried circular d o : attached (carried_rights circular d o).
Proof.
  unfold carried_rights, disposition_rights. destruct (IO_VALID o); [|apply attached_nil]. cbn [when andb].
  apply (attached_one o); [by left|]. constructor; [done|].
  repeat apply Forall_app_2; repeat destruct (_ =? _); try destruct circular; by repeat constructor.
Qed.

Lemma attached_queue l l' : attached ((RMsg <$> l) ++ (RPlain <$> l')).
Proof. intros r o [Hr|Hr]%elem_of_app Ho; by apply list_elem_of_fmap in Hr as (k & -> & _). Qed.

Lemma attached_core a i c : attached (core_rights a i c).
Proof.
  destruct c as [[o b] req]. destruct (has b 0xf0000) eqn:Hb.
  - apply (attached_one o); [unfold core_rights; rewrite Hb; by left|].
    unfold core_rights. repeat apply Forall_app_2;
      match goal with |- context [when ?c _] => destruct c end; by repeat constructor.
  - unfold core_rights.
    assert (Hno : forall m, Z.land m 0xf0000 = m -> has b m = false).
    { intros m Hm. destruct (has b m) eqn:Hm'; [|done]. by rewrite (has_sub b m 0xf0000 Hm Hm') in Hb. }
    rewrite Hb, !Hno by done. apply attached_nil.
Qed.

Lemma attached_space a sp : attached (space_rights a sp).
Proof.
  apply attached_when. generalize 0 as i. induction (is_table sp) as [|e t IH]; intros i; [apply attached_nil|].
  apply attached_app; [apply attached_core|apply IH].
Qed.

Lemma attached_port p : attached (port_rights p).
Proof.
  apply attached_app; [|apply attached_queue]. apply attached_when.
  repeat apply attached_app; try apply attached_sonce.
  - destruct (ip_requests p) as [[|? l]|]; [apply attached_nil| |apply attached_nil].
    simpl. induction l as [|x l IH]; [apply attached_nil|]. apply attached_app; [|done]. apply attached_when, attached_sonce.
  - apply attached_when, (attached_one (ip_destination p)); [by left|by repeat constructor].
Qed.

Lemma attached_kmsg k : attached (kmsg_rights k).
Proof.
  unfold kmsg_rights. repeat apply attached_app; try apply attached_disposition; apply attached_when.
  - apply attached_bind. intros []; simpl; [apply attached_carried|apply attached_nil| |apply attached_nil].
    apply attached_bind. intros. apply attached_carried.
  - apply (attached_one (ikm_prealloc k)); [by left|by repeat constructor].
Qed.

Lemma attached_event e : attached (event_rights e).
Proof.
  destruct e; simpl; try apply attached_nil; try (apply (attached_one port); [set_solver|by repeat constructor]).
  change (attached ([RSonce port; RRef port] ++ [RLive right; RRef right; RHome right IS_NULL MACH_PORT_NULL])).
  apply attached_app; [apply (attached_one port)|apply (attached_one right)]; (set_solver || by repeat constructor).
Qed.

Lemma attached_mcnt {A} (f : Z -> A -> list right) r o (m : gmap Z A) :
  (forall k v, attached (f k v)) -> object_of r = Some o -> 0 < mcnt f r m -> 0 < mcnt f (RRef o) m.
Proof.
  intros Hf Ho (k & v & Hk & Hr)%mcnt_pos. pose proof (mcnt_ge f (RRef o) m k v Hk).
  pose proof (cnt_in _ _ (Hf k v r o Hr Ho)). lia.
Qed.

Lemma attached_cnt l r o : attached l -> object_of r = Some o -> 0 < cnt r l -> 0 < cnt (RRef o) l.
Proof.
  intros Hl Ho Hc. destruct (decide (r ∈ l)) as [Hin|Hin]; [|by rewrite cnt_not_in in Hc].
  pose proof (cnt_in _ _ (Hl r o Hin Ho)). lia.
Qed.

(** Without references there are no rights. *)
Lemma held_nothing s r o : object_of r = Some o -> held s (RRef o) = 0 -> held s r = 0.
Proof.
  intros Ho. unfold held.
  pose proof (attached_mcnt space_rights r o (ks_spaces s) attached_space Ho) as H1.
  pose proof (attached_mcnt (fun _ => port_rights) r o (ks_ports s) (fun _ => attached_port) Ho) as H2.
  pose proof (attached_mcnt (fun _ => kmsg_rights) r o (ks_kmsgs s) (fun _ => attached_kmsg) Ho) as H3.
  pose proof (attached_cnt _ r o (attached_bind event_rights (ks_log s) attached_event) Ho) as H4.
  pose proof (attached_cnt _ r o (attached_queue (ks_ith_messages s) (tail (ks_ith_messages s))) Ho) as H5.
  pose proof (mcnt_nonneg space_rights r (ks_spaces s)). pose proof (mcnt_nonneg space_rights (RRef o) (ks_spaces s)).
  pose proof (mcnt_nonneg (fun _ => port_rights) r (ks_ports s)).
  pose proof (mcnt_nonneg (fun _ => port_rights) (RRef o) (ks_ports s)).
  pose proof (mcnt_nonneg (fun _ => kmsg_rights) r (ks_kmsgs s)).
  pose proof (mcnt_nonneg (fun _ => kmsg_rights) (RRef o) (ks_kmsgs s)).
  pose proof (cnt_nonneg r (ks_log s ≫= event_rights)). pose proof (cnt_nonneg (RRef o) (ks_log s ≫= event_rights)).
  fold (reap_rights (ks_ith_messages s)) in H5.
  pose proof (cnt_nonneg r (reap_rights (ks_ith_messages s))). pose proof (cnt_nonneg (RRef o) (reap_rights (ks_ith_messages s))).
  lia.
Qed.

(** ** A new port *)

(** A port that is about to be used: live, with one reference, nothing registered, nothing
    queued *)
Definition newborn (p : ipc_port) : Prop :=
  ip_active p = true /\ ip_references p = 1 /\ ip_srights p = 0 /\ ip_sorights p = 0 /\ ip_requests p = None /\
  port_rights p = [].

Lemma fc_new_port s0 a i name s P L ev T o p :
  focus s0 a i name s P L ev T -> P !! o = None -> ks_psets s !! o = None ->
  (forall r, target r = Some o -> T r = 0) -> port_ok o p -> newborn p ->
  focus s0 a i name (put_port s o p) (<[o := p]> P) L ev (T ⊕ [RRef o; RLive o] ⊕ home_rights o p).
Proof.
  intros HF Ho Hps HT Hok (Ha & Hr & Hs & Hso & Hq & Hrt).
  destruct (fc_without _ _ _ _ _ _ _ _ _ HF) as [s1 Hh]. pose proof HF as [HP HLg HL HO HS HSp HFr].
  assert (Href : held s1 (RRef o) = 0).
  { specialize (HL (RRef o)). unfold accounts in HL. cbn [target] in HL. rewrite HP, Ho, Hps in HL.
    unfold minus in HL. rewrite HT in HL by done. rewrite Hh. lia. }
  assert (Hnone : forall r, object_of r = Some o -> held s r - cnt r (ev_rights a i ev) = 0).
  { intros r Hr'. rewrite <- Hh. by apply (held_nothing s1 r o). }
  split; try done.
  - simpl. by rewrite HP.
  - intros r. specialize (HL r). unfold accounts, plus, minus in *.
    assert (Hhd : held (put_port s o p) r = held s r).
    { unfold held. simpl. rewrite mcnt_new by (by rewrite HP). rewrite Hrt. simpl. lia. }
    rewrite Hhd. destruct (decide (target r = Some o)) as [Ht|Ht].
    + rewrite Ht. simpl. rewrite lookup_insert_eq. assert (Hob : object_of r = Some o) by (by destruct r).
      specialize (Hnone r Hob). rewrite (HT r Ht).
      destruct r; simpl in Ht; simplify_eq; cbn [cnt port_exact port_count agree];
        rewrite ?Ha, ?Hr, ?Hs, ?Hso, ?Hq, ?ind_eq; repeat (rewrite ind_ne by done);
        rewrite ?(home_rights_other o p) by done;
        rewrite <- ?home_count_rights by done; simpl; try lia.
      unfold transit_count. destruct (_ && _); lia.
    + assert (Hz : cnt r [RRef o; RLive o] = 0) by (apply cnt_not_in; set_solver).
      assert (Hz2 : cnt r (home_rights o p) = 0) by (apply cnt_not_in; rewrite home_rights_eq; set_solver).
      rewrite Hz, Hz2. destruct (target r) as [x|]; simpl.
      * rewrite lookup_insert_ne by congruence. by replace (T r + 0 + 0) with (T r) by lia.
      * by replace (T r + 0 + 0) with (T r) by lia.
  - destruct HO as [H1 H2 H3 H4]. split; [|done| |done]; simpl.
    + intros x q. rewrite lookup_insert. destruct (decide _) as [<-|]; [by intros [= <-]|apply H1].
    + intros x [q Hq']. rewrite lookup_insert in Hq'. destruct (decide _) as [<-|]; [done|]. apply H3. by exists q.
Qed.

(** ** Allocation *)

(** What the zone allocator promises: an address where nothing is, or 0 *)
Definition fresh_address (s : kstate) (o : Z) : Prop :=
  IP_VALID o = true /\ Z.land o 3 = 0 /\ ks_ports s !! o = None /\ ks_psets s !! o = None /\ ks_spaces s !! o = None.
Definition zalloc_ok (s : kstate) : Prop :=
  match ks_zalloc s with [] => True | o :: _ => o = 0 \/ fresh_address s o end.

(** Rights in hand come with references in hand. *)
Definition hand_attached (T : right -> Z) : Prop :=
  forall r o, object_of r = Some o -> T (RRef o) = 0 -> T r = 0.

Lemma wp_pop_zalloc s Q :
  zalloc_ok s ->
  (forall l, Q 0 (set_ks_zalloc l s)) ->
  (forall l o, o <> 0 -> fresh_address s o -> Q o (set_ks_zalloc l s)) ->
  wp pop_zalloc s Q.
Proof.
  intros Hz Q0 Qo. unfold pop_zalloc, zalloc_ok in *. wp_step. wp_step. destruct (ks_zalloc s) as [|o l] eqn:Hl.
  - wp_step. specialize (Q0 []). by replace (set_ks_zalloc [] s) with s in Q0 by (rewrite <- Hl; by destruct s).
  - wp_step. wp_step. wp_step. destruct (decide (o = 0)) as [->|Hn]; [apply Q0|].
    destruct Hz as [|Hz]; [done|]. by apply Qo.
Qed.

Lemma wp_ip_put s o p Q : Q tt (put_port s o p) -> wp (ip_put o p) s Q.
Proof. done. Qed.

Lemma kwf_no_rights s T o r :
  kwf s T -> hand_ok T -> hand_attached T -> ks_ports s !! o = None -> ks_psets s !! o = None ->
  object_of r = Some o -> T r = 0.
Proof.
  intros HK HT Ha Ho Hps Hr. apply (Ha r o Hr). pose proof (kw_ledger _ _ HK (RRef o)) as HL.
  unfold accounts in HL. cbn [target] in HL. rewrite Ho, Hps in HL. pose proof (held_nonneg s (RRef o)).
  pose proof (proj1 HT (RRef o)). lia.
Qed.

(** What [ipc_port_init] makes of a port *)
Definition born (b n : Z) (p : ipc_port) : ipc_port :=
  let p := set_ip_receiver_name n (set_ip_receiver b p) in
  let p := set_ip_sorights 0 (set_ip_srights 0 (set_ip_mscount 0 p)) in
  let p := set_ip_requests None (set_ip_pdrequest IP_NULL (set_ip_nsrequest IP_NULL p)) in
  let p := set_ip_context 0 (set_ip_premsg IKM_NULL p) in
  let p := set_ip_tempowner false (set_ip_impdonation false (set_ip_spimportant false (set_ip_sprequests false p))) in
  let p := set_ip_impcount 0 (set_ip_strict_guard false (set_ip_guarded false p)) in
  set_ip_messages (ipc_mqueue_init (ip_messages p)) p.

Definition new_port (b n : Z) : ipc_port :=
  Eval cbv in born b n (set_ip_bits (io_makebits true IOT_PORT 0) (set_ip_references 1 port_zero)).

Lemma new_port_born b n :
  born b n (set_ip_bits (io_makebits true IOT_PORT 0) (set_ip_references 1 port_zero)) = new_port b n.
Proof. vm_compute. reflexivity. Qed.

Lemma new_port_ok o b n :
  IP_VALID o = true -> Z.land o 3 = 0 -> n <> MACH_PORT_NULL -> port_ok o (new_port b n) /\ newborn (new_port b n).
Proof.
  intros Hv Hal Hn. split; [by split|]. split_and!; try done.
  unfold port_rights. change (ip_active (new_port b n)) with true. cbn [when].
  change (ip_receiver_name (new_port b n)) with n. by rewrite (proj2 (Z.eqb_neq _ _) Hn).
Qed.

Lemma new_port_home o b n : n <> MACH_PORT_NULL -> home_rights o (new_port b n) = [RHome o b n].
Proof.
  intros Hn. unfold home_rights. change (ip_receiver_name (new_port b n)) with n.
  by rewrite (proj2 (Z.eqb_neq _ _) Hn).
Qed.

(** A kernel port: its receive right is in the caller's hand. *)
Lemma wf_alloc_special s T b Q :
  kwf s T -> hand_ok T -> hand_attached T -> zalloc_ok s ->
  (forall s', kwf s' T -> ks_ports s' = ks_ports s -> ks_spaces s' = ks_spaces s -> same_thread s s' -> Q IP_NULL s') ->
  (forall s' o, kwf s' (T ⊕ [RRef o; RLive o] ⊕ [RHome o b 1]) -> fresh_address s o ->
    ks_ports s' = <[o := new_port b 1]> (ks_ports s) -> ks_spaces s' = ks_spaces s -> same_thread s s' -> Q o s') ->
  wp (ipc_port_alloc_special b) s Q.
Proof.
  intros HK HT Hat Hz Qno Qyes. unfold ipc_port_alloc_special. wp_step. apply wp_pop_zalloc; [done|..].
  - intros l. change (0 =? IP_NULL) with true. cbn iota. wp_step. apply Qno; [by eapply kwf_same|done..].
  - intros l o Hn Hf. rewrite (proj2 (Z.eqb_neq o IP_NULL)) by done.
    pose proof Hf as (Hv & Hal & Ho & Hps & Hsp). set (s1 := set_ks_zalloc l s).
    assert (HK1 : kwf s1 T) by (by eapply kwf_same).
    wp_step. apply wp_ip_put. wp_step. change (ipc_port_init o b 1) with (ip_mod o (born b 1)).
    eapply wp_ip_mod; [apply ks_ports_put|]. wp_step. rewrite put_port_put.
    rewrite new_port_born. destruct (new_port_ok o b 1 Hv Hal) as [Hok Hnb]; [done|].
    apply Qyes; [|done..]. eapply (fc_rested s1 0 0 0). rewrite <- (new_port_home o b 1) by done.
    apply (fc_new_port s1 0 0 0 s1 (ks_ports s1) (ks_log s1) Rest T o); try done; [by apply fc_rest|].
    intros r Hr'. apply (kwf_no_rights s T o); try done. by destruct r.
Qed.

(** ** A port in a space *)

(** An object nobody knows does not matter to the tables of spaces: [u] puts it in place. *)
Record overlay (u : kstate -> kstate) : Prop := {
  ov_spaces : forall s, ks_spaces (u s) = ks_spaces s;
  ov_put : forall s m, u (set_ks_spaces m s) = set_ks_spaces m (u s);
  ov_heap : forall s, ks_kalloc (u s) = ks_kalloc s;
  ov_pop : forall s l, u (set_ks_kalloc l s) = set_ks_kalloc l (u s);
}.

Lemma overlay_port o q : overlay (fun s => put_port s o q).
Proof. by split. Qed.
Lemma overlay_pset o q : overlay (fun s => put_pset s o q).
Proof. by split. Qed.

Section overlays.
Context (u : kstate -> kstate) (Hu : overlay u).

Lemma wp_in_space_over {A} a (f : M ipc_space A) t (Q : A -> kstate -> Prop) :
  wp (in_space a f) t (fun x t' => Q x (u t')) -> wp (in_space a f) (u t) Q.
Proof using Hu.
  unfold wp, in_space, is_get, is_put, lift, modify, mbind, M_bind, mret, M_ret. simpl. rewrite (ov_spaces _ Hu).
  destruct (ks_spaces t !! a) as [sp|]; simpl; [|done]. destruct (f sp) as [[x sp']|]; simpl; [|done].
  by rewrite (ov_put _ Hu), (ov_spaces _ Hu).
Qed.

Lemma wp_entry_alloc_over a t (Q : kern_return_t + Z * Z -> kstate -> Prop) :
  wp (entry_alloc a) t (fun x t' => Q x (u t')) -> wp (entry_alloc a) (u t) Q.
Proof using Hu.
  unfold wp, entry_alloc, pop_kalloc, get, is_get, is_put, lift, modify, rderef, mbind, M_bind, res_bind, mret, M_ret, res_ret.
  rewrite (ov_heap _ Hu). destruct (ks_kalloc t) as [|b l]; rewrite <- ?(ov_pop _ Hu), !(ov_spaces _ Hu).
  all: destruct (_ !! a) as [sp|]; [|done].
  all: destruct (ipc_entry_alloc ipc_table_entries 2 sp _) as [[[x sp'] w]|]; [|done]; cbv beta iota.
  all: by rewrite (ov_put _ Hu), (ov_spaces _ Hu).
Qed.
End overlays.

Lemma wf_entry_alloc s T a sp Q :
  kwf s T -> ks_spaces s !! a = Some sp ->
  (forall s', is_active sp = false -> kwf s' T -> widened a s s' -> Q (inl KERN_INVALID_TASK) s') ->
  (forall kr s', kr ∈ [KERN_NO_SPACE; KERN_RESOURCE_SHORTAGE] -> kwf s' T -> widened a s s' -> Q (inl kr) s') ->
  (forall name i s1 s', MACH_PORT_VALID name = true -> 0 <= name < 2 ^ 32 -> MACH_PORT_INDEX name = i ->
    kwf s1 T -> widened a s s1 -> (forall c, ~ named s1 a name c) ->
    (forall T', kwf s1 T' -> focus s1 a i name s' (ks_ports s) (ks_log s)
       (Open (IO_NULL, MACH_PORT_GEN name, IE_REQ_NONE) false) T') -> Q (inr (name, i)) s') ->
  wp (entry_alloc a) s Q.
Proof.
  intros HK Ha Qdead Qfull Qyes. unfold entry_alloc. wp_step. apply wp_pop_kalloc. intros alloc l.
  set (s1 := set_ks_kalloc l s). assert (HK1 : kwf s1 T) by (by eapply kwf_same).
  wp_step. eapply wp_is_get; [exact Ha|]. wp_step. pose proof (kw_spaces _ _ HK _ _ Ha) as Hwf.
  destruct (is_active sp) eqn:Hact.
  2:{ eapply wp_lift; [cbn [ipc_entry_alloc]; rewrite Hact; cbn [negb]; reflexivity|]. cbv beta iota zeta. wp_step.
      change (wp (is_put a sp) s1 (fun x y => wp (mret (inl KERN_INVALID_TASK)) y Q)). apply wp_modify. wp_step.
      change (Q (inl KERN_INVALID_TASK) (put_space s1 a sp)).
      rewrite (put_space_id s1 a sp) by exact Ha. apply Qdead; [done|done|]. by split_and!. }
  destruct (entry_alloc_wf alloc sp Hwf Hact) as (r & sp1 & sp' & ws & Hrun & Hwf1 & Hw & Hr).
  eapply wp_lift; [exact Hrun|]. cbv beta iota zeta. wp_step.
  change (wp (is_put a sp') s1 (fun x y => wp (mret r) y Q)). apply wp_modify. wp_step.
  change (Q r (put_space s1 a sp')). destruct (kwf_widen s1 T a sp sp1 HK1 Ha Hact Hwf1 Hw) as [HKw Hww].
  destruct r as [kr|[name i]].
  - destruct Hr as [Hkr ->]. by apply Qfull.
  - destruct Hr as (Hcl & Hsb & Ht & Hw32). assert (Hact1 : is_active sp1 = true) by (by rewrite (proj1 Hw)).
    destruct (at_work_claimed Hsizes sp1 sp' name i) as [Hwk Hk]; [done..|].
    pose proof Hcl as (Hv & Hix & _ & Hnm & _).
    assert (Ha1 : ks_spaces (put_space s1 a sp1) !! a = Some sp1) by (simpl; apply lookup_insert_eq).
    apply (Qyes name i (put_space s1 a sp1) (put_space s1 a sp')); try done.
    + by eapply fresh_name.
    + intros T' HK'. replace (put_space s1 a sp') with (put_space (put_space s1 a sp1) a sp')
        by (unfold put_space; simpl; unfold set_ks_spaces; simpl; by rewrite insert_insert_eq).
      apply (fc_claim (put_space s1 a sp1) T' a sp1 sp' name i HK' Ha1 Hact1 Ht Hwk Hk).
Qed.

(** The port that could not be given an entry is freed. *)
Lemma wf_unborn s o (Q : unit -> kstate -> Prop) :
  ks_ports s !! o = None -> Q tt s -> wp (io_free IOT_PORT o) (put_port s o port_zero) Q.
Proof.
  intros Ho HQ. unfold io_free, ipc_port_finalize, ipc_mqueue_deinit. change (IOT_PORT =? IOT_PORT) with true. cbn iota.
  wp_step. wp_step. eapply wp_ip_get; [apply ks_ports_put|]. wp_step. wp_step; [done|].
  wp_step. change (ip_requests port_zero) with (@None (list ipc_port_request)). cbv beta iota. wp_step.
  wp_step. eapply wp_ip_mod; [apply ks_ports_put|]. rewrite put_port_put. wp_step.
  eapply wp_ip_get; [apply ks_ports_put|]. wp_step; [done|]. wp_step.
  replace (set_ks_ports _ _) with s; [done|]. unfold put_port, set_ks_ports. simpl.
  rewrite delete_insert_id by done. by destruct s.
Qed.

(** The entry of the object that is being born *)
Lemma wf_unborn_entry u t1 a name t P L T o type {A} (k : K A) Q :
  let i := MACH_PORT_INDEX name in
  overlay u -> focus t1 a i name t P L (Open (IO_NULL, MACH_PORT_GEN name, IE_REQ_NONE) false) T -> IE_BITS_GEN type = 0 ->
  (forall t', focus t1 a i name t' P L (Open (o, Z.lor (MACH_PORT_GEN name) type, IE_REQ_NONE) false) T ->
    wp k (u t') Q) ->
  wp (_ ← ie_mod a i (fun e => set_ie_bits (Z.lor (ie_bits e) type) e);
      _ ← ie_mod a i (set_ie_object o);
      _ ← entry_modified a name i;
      k) (u t) Q.
Proof.
  intros i Hu HF Hg HQ. set (b := Z.lor (MACH_PORT_GEN name) type).
  assert (Hgb : IE_BITS_GEN b = MACH_PORT_GEN name)
    by (unfold b; rewrite IE_BITS_GEN_lor, Hg, Z.lor_0_r; apply (MACH_PORT_GEN_ok name)).
  wp_step. apply (wp_in_space_over u Hu). eapply wf_ie_mod; [done|exact HF|entry_fields|done|done|]. intros t2 HF2.
  wp_step. apply (wp_in_space_over u Hu). eapply wf_ie_mod; [done|exact HF2|entry_fields|done|done|]. intros t3 HF3.
  wp_step. apply (wp_in_space_over u Hu). eapply wf_entry_modified; [done|exact HF3|]. intros t4 HF4. by apply HQ.
Qed.

(** The port is born. *)
Lemma fc_born t1 a name t P L T o :
  let i := MACH_PORT_INDEX name in
  let b := Z.lor (MACH_PORT_GEN name) MACH_PORT_TYPE_RECEIVE in
  focus t1 a i name t P L (Open (o, b, IE_REQ_NONE) false) (T ⊕ [RName o a]) ->
  P !! o = None -> ks_psets t1 !! o = None -> (forall r, object_of r = Some o -> T r = 0) ->
  IP_VALID o = true -> Z.land o 3 = 0 -> MACH_PORT_VALID name = true -> 0 <= name < 2 ^ 32 ->
  focus t1 a i name (put_port t o (new_port a name)) (<[o := new_port a name]> P) L (Shut o b) T.
Proof.
  intros i b HF Ho Hps Hno Hv Hal Hnv Hw32. assert (Hn0 : name <> MACH_PORT_NULL) by (by intros ->).
  destruct (new_port_ok o a name Hv Hal Hn0) as [Hpok Hnb].
  assert (Hb : IE_BITS_TYPE b = MACH_PORT_TYPE_RECEIVE /\ IE_BITS_UREFS b = 0).
  { unfold b. by rewrite <- (MACH_PORT_GEN_ok name), IE_BITS_TYPE_lor, IE_BITS_UREFS_lor, IE_BITS_TYPE_GEN, IE_BITS_UREFS_GEN. }
  destruct Hb as [Ht Hu]. eapply fc_put_back; [done|done|rewrite Ht; eapply fc_new_port; [exact HF|..]|..]; try done.
  - by rewrite (proj1 (fc_frame _ _ _ _ _ _ _ _ _ HF)).
  - intros r Hr. unfold plus. rewrite Hno by (by destruct r). cbn [cnt]. rewrite ind_ne; [done|]. by intros ->.
  - unfold entry_ok. rewrite Ht, Hu. constructor; [by intros ->|done].
  - rewrite Ht, new_port_home by done. intros r. rights_of_type. rewrite cnt_slot_none. unfold plus. cbn [cnt]. lia.
Qed.

(** What [ipc_port_alloc] needs to know, and what it does *)
Lemma wf_port_alloc s T a sp Q :
  kwf s T -> hand_ok T -> hand_attached T -> zalloc_ok s -> ks_spaces s !! a = Some sp ->
  (forall kr s', kwf s' T -> widened a s s' ->
    (kr = KERN_INVALID_TASK /\ is_active sp = false \/ kr ∈ [KERN_NO_SPACE; KERN_RESOURCE_SHORTAGE]) -> Q (inl kr) s') ->
  (forall name o s1 s', MACH_PORT_VALID name = true -> fresh_address s o -> widened a s s1 ->
    (forall c, ~ named s1 a name c) -> kwf s' T -> framed a (MACH_PORT_INDEX name) s1 s' -> ks_log s' = ks_log s ->
    ks_ports s' = <[o := new_port a name]> (ks_ports s) ->
    entry_is s' a (MACH_PORT_INDEX name) o (Z.lor (MACH_PORT_GEN name) MACH_PORT_TYPE_RECEIVE) -> Q (inr (name, o)) s') ->
  wp (ipc_port_alloc a) s Q.
Proof.
  intros HK HT Hat Hz Ha Qno Qyes. unfold ipc_port_alloc, ipc_object_alloc, object_alloc_asserts.
  do 2 wp_step. wp_step. wp_step; [done|]. wp_step. wp_step; [done|]. wp_step. wp_step; [done|]. wp_step; [done|].
  wp_step. unfold io_alloc. wp_step. apply wp_pop_zalloc; [done|..].
  { intros l. wp_step. change (negb (0 =? IO_NULL)) with false. cbn [mwhen]. wp_step. wp_step.
    change (0 =? IO_NULL) with true. cbn iota. wp_step. wp_step.
    apply Qno; [by eapply kwf_same|by split_and!|]. right. right. by left. }
  intros l o Hn Hf. pose proof Hf as (Hv & Hal & Ho & Hps & Hsp). set (t := set_ks_zalloc l s).
  assert (HKt : kwf t T) by (by eapply kwf_same).
  rewrite !(proj2 (Z.eqb_neq o IO_NULL)) by done. cbn [negb mwhen]. wp_step.
  change (IOT_PORT =? IOT_PORT) with true. cbn iota. apply wp_ip_put. wp_step.
  rewrite (proj2 (Z.eqb_neq o IO_NULL)) by done. wp_step.
  apply (wp_entry_alloc_over _ (overlay_port o port_zero)). eapply (wf_entry_alloc t T a sp); [done|done|..].
  - intros t' Hin HK' Hw. wp_step. apply wf_unborn; [by rewrite (proj1 Hw)|]. wp_step. wp_step. apply Qno; [done|done|by left].
  - intros kr t' Hkr HK' Hw. wp_step. apply wf_unborn; [by rewrite (proj1 Hw)|]. wp_step. wp_step. apply Qno; [done|done|by right].
  - intros name i t1 t' Hnv Hw32 <- HK1 Hw Hnn HFs.
    assert (Hno : forall r, object_of r = Some o -> T r = 0) by (intros; by apply (kwf_no_rights t T o)).
    assert (HKn : kwf t1 (T ⊕ [RName o a])).
    { apply kwf_new_name; [by apply Hno|done|]. apply (held_nothing t1 (RName o a) o eq_refl).
      pose proof (kw_ledger _ _ HK1 (RRef o)) as HL. unfold accounts in HL. cbn [target] in HL.
      destruct Hw as (HP & _ & HPS & _). rewrite HP, HPS in HL. cbn in HL. rewrite Ho, Hps in HL.
      rewrite (Hno (RRef o)) in HL by done. lia. }
    pose proof (HFs _ HKn) as HF. change (Z.lor MACH_PORT_TYPE_RECEIVE 0) with MACH_PORT_TYPE_RECEIVE.
    eapply (wf_unborn_entry (fun s => put_port s o port_zero) t1 a name t'); [apply overlay_port|exact HF|done|]. intros t2 HF2. wp_step. unfold io_activate.
    change (IOT_PORT =? IOT_PORT) with true. cbn iota. eapply wp_ip_mod; [apply ks_ports_put|]. rewrite put_port_put.
    wp_step. wp_step. change (ipc_port_init o a name) with (ip_mod o (born a name)).
    eapply wp_ip_mod; [apply ks_ports_put|]. rewrite put_port_put, new_port_born. wp_step.
    assert (Hps1 : ks_psets t1 !! o = None) by (by destruct Hw as (_ & _ & -> & _)).
    pose proof (fc_born t1 a name t2 _ _ T o HF2 Ho Hps1 Hno Hv Hal Hnv Hw32) as HF3.
    pose proof (fc_ports _ _ _ _ _ _ _ _ _ HF3) as HP3.
    apply shut_end in HF3 as (HK3 & Hfr & HL & He). by eapply (Qyes name o t1).
Qed.

(** ** A new port set *)

Definition new_pset (n : Z) : ipc_pset := mk_ipc_pset (io_makebits true IOT_PORT_SET 0) 1 n [].

Lemma fc_new_pset s0 a i name s P L ev T o ps :
  focus s0 a i name s P L ev T -> P !! o = None -> ks_psets s !! o = None ->
  (forall r, object_of r = Some o -> T r = 0) -> pset_ok o ps -> ips_active ps = true -> ips_references ps = 1 ->
  focus (put_pset s0 o ps) a i name (put_pset s o ps) P L ev (T ⊕ [RRef o; RSet o]).
Proof.
  intros HF Ho Hps HT Hok Ha Hr.
  destruct (fc_without _ _ _ _ _ _ _ _ _ HF) as [s1 Hh]. pose proof HF as [HP HLg HL HO HS HSp HFr].
  assert (Href : held s1 (RRef o) = 0).
  { specialize (HL (RRef o)). unfold accounts in HL. cbn [target] in HL. rewrite HP, Ho, Hps in HL.
    unfold minus in HL. rewrite HT in HL by done. rewrite Hh. lia. }
  assert (Hnone : forall r, object_of r = Some o -> held s r - cnt r (ev_rights a i ev) = 0).
  { intros r Hr'. rewrite <- Hh. by apply (held_nothing s1 r o). }
  split; try done.
  - intros r. specialize (HL r). unfold accounts, plus, minus in *. change (held (put_pset s o ps) r) with (held s r).
    change (ks_ports (put_pset s o ps)) with (ks_ports s). change (ks_kmsgs (put_pset s o ps)) with (ks_kmsgs s).
    change (ks_psets (put_pset s o ps)) with (<[o := ps]> (ks_psets s)).
    destruct (decide (target r = Some o)) as [Ht|Ht].
    + rewrite Ht, HP, Ho, lookup_insert_eq. assert (Hob : object_of r = Some o) by (by destruct r).
      specialize (Hnone r Hob). rewrite (HT r Hob).
      destruct r; simpl in Ht; simplify_eq; cbn [cnt pset_agree]; rewrite ?Ha, ?Hr, ?ind_eq; repeat (rewrite ind_ne by done); lia.
    + assert (Hz : cnt r [RRef o; RSet o] = 0) by (apply cnt_not_in; set_solver).
      rewrite Hz. replace (T r + 0) with (T r) by lia. destruct (target r) as [x|] eqn:Htr; [by rewrite lookup_insert_ne by congruence|].
      destruct r as [| | | | | | | | |x| |]; try done. rewrite lookup_insert. destruct (decide (o = x)) as [<-|]; [|done].
      specialize (Hnone (RPort o) eq_refl). rewrite (HT (RPort o) eq_refl). lia.
  - destruct HO as [H1 H2 H3 H4]. split; [done| | |done]; simpl.
    + intros x q. rewrite lookup_insert. destruct (decide _) as [<-|]; [by intros [= <-]|apply H2].
    + intros x Hx. rewrite lookup_insert. destruct (decide _) as [<-|]; [|by apply H3].
      rewrite HP, Ho in Hx. by destruct Hx.
  - destruct HFr as (F1 & F2 & F3 & F4 & F5). split_and!; try done. simpl. by rewrite F1.
Qed.

(** What [ipc_pset_alloc] needs to know, and what it does *)
Lemma wf_pset_alloc s T a sp Q :
  kwf s T -> hand_ok T -> hand_attached T -> zalloc_ok s -> ks_spaces s !! a = Some sp ->
  (forall kr s', kwf s' T -> widened a s s' ->
    (kr = KERN_INVALID_TASK /\ is_active sp = false \/ kr ∈ [KERN_NO_SPACE; KERN_RESOURCE_SHORTAGE]) -> Q (inl kr) s') ->
  (forall name o s1 s', MACH_PORT_VALID name = true -> fresh_address s o -> widened a s s1 ->
    (forall c, ~ named s1 a name c) -> kwf s' T -> framed a (MACH_PORT_INDEX name) (put_pset s1 o (new_pset name)) s' ->
    ks_log s' = ks_log s -> ks_ports s' = ks_ports s ->
    entry_is s' a (MACH_PORT_INDEX name) o (Z.lor (MACH_PORT_GEN name) MACH_PORT_TYPE_PORT_SET) -> Q (inr (name, o)) s') ->
  wp (ipc_pset_alloc a) s Q.
Proof.
  intros HK HT Hat Hz Ha Qno Qyes. unfold ipc_pset_alloc, ipc_object_alloc, object_alloc_asserts.
  do 2 wp_step. wp_step. wp_step; [done|]. wp_step. wp_step; [done|]. wp_step. wp_step; [done|]. wp_step; [done|].
  wp_step. unfold io_alloc. wp_step. apply wp_pop_zalloc; [done|..].
  { intros l. wp_step. change (negb (0 =? IO_NULL)) with false. cbn [mwhen]. wp_step. wp_step.
    change (0 =? IO_NULL) with true. cbn iota. wp_step. wp_step.
    apply Qno; [by eapply kwf_same|by split_and!|]. right. right. by left. }
  intros l o Hn Hf. pose proof Hf as (Hv & Hal & Ho & Hps & Hsp). set (t := set_ks_zalloc l s).
  assert (HKt : kwf t T) by (by eapply kwf_same).
  assert (Hfree : forall kr t', kwf t' T -> widened a t t' -> kr = KERN_INVALID_TASK /\ is_active sp = false \/
      kr ∈ [KERN_NO_SPACE; KERN_RESOURCE_SHORTAGE] ->
    wp (_ ← io_free IOT_PORT_SET o; mret (inl kr)) (put_pset t' o pset_zero)
      (fun x s' => wp (match x with inl kr => mret (inl kr) | inr (name, pset) =>
          _ ← ips_mod pset (fun ps => set_ips_receivers [] (set_ips_local_name name ps)); mret (inr (name, pset)) end) s' Q)).
  { intros kr t' HK' Hw Hkr. unfold io_free. change (IOT_PORT_SET =? IOT_PORT) with false. cbn iota. wp_step. apply wp_modify.
    wp_step. wp_step. replace (set_ks_psets _ _) with t'; [by apply Qno|]. unfold put_pset, set_ks_psets. simpl.
    rewrite delete_insert_id; [by destruct t'|]. by destruct Hw as (_ & _ & -> & _). }
  rewrite !(proj2 (Z.eqb_neq o IO_NULL)) by done. cbn [negb mwhen]. wp_step.
  change (IOT_PORT_SET =? IOT_PORT) with false. cbn iota. apply wp_modify. wp_step.
  rewrite (proj2 (Z.eqb_neq o IO_NULL)) by done. wp_step.
  apply (wp_entry_alloc_over _ (overlay_pset o pset_zero)). eapply (wf_entry_alloc t T a sp); [done|done|..].
  - intros t' Hin HK' Hw. apply Hfree; [done|done|by left].
  - intros kr t' Hkr HK' Hw. apply Hfree; [done|done|by right].
  - intros name i t1 t' Hnv Hw32 <- HK1 Hw Hnn HFs.
    assert (Hno : forall r, object_of r = Some o -> T r = 0) by (intros; by apply (kwf_no_rights t T o)).
    pose proof (HFs _ HK1) as HF. change (Z.lor MACH_PORT_TYPE_PORT_SET 0) with MACH_PORT_TYPE_PORT_SET.
    eapply (wf_unborn_entry (fun s => put_pset s o pset_zero) t1 a name t'); [apply overlay_pset|exact HF|done|]. intros t2 HF2.
    wp_step. unfold io_activate. change (IOT_PORT_SET =? IOT_PORT) with false. cbn iota.
    eapply wp_ips_mod; [apply ks_psets_put|]. rewrite put_pset_put. wp_step. wp_step.
    eapply wp_ips_mod; [apply ks_psets_put|]. rewrite put_pset_put. wp_step.
    change (set_ips_receivers [] _) with (new_pset name).
    set (b := Z.lor (MACH_PORT_GEN name) MACH_PORT_TYPE_PORT_SET) in *.
    assert (Hb : IE_BITS_TYPE b = MACH_PORT_TYPE_PORT_SET /\ IE_BITS_UREFS b = 0).
    { unfold b. by rewrite <- (MACH_PORT_GEN_ok name), IE_BITS_TYPE_lor, IE_BITS_UREFS_lor, IE_BITS_TYPE_GEN, IE_BITS_UREFS_GEN. }
    destruct Hb as [Ht Hu]. pose proof (proj1 (fc_frame _ _ _ _ _ _ _ _ _ HF2)) as Hps2.
    apply (fc_new_pset _ _ _ _ _ _ _ _ _ o (new_pset name)) in HF2; [|done| | |by split|done|done].
    + change false with (MACH_PORT_TYPE_PORT_SET =? MACH_PORT_TYPE_SEND) in HF2. rewrite <- Ht in HF2.
      apply (fc_put_back _ _ _ _ eq_refl Hw32 _ _ _ o b IE_REQ_NONE _ T) in HF2.
      * pose proof (fc_ports _ _ _ _ _ _ _ _ _ HF2) as HP3. apply shut_end in HF2 as (HK3 & Hfr & HL & He). by eapply (Qyes name o t1).
      * unfold entry_ok. rewrite Ht, Hu. by constructor.
      * intros r. rewrite Ht. rights_of_type. unfold plus. cbn [cnt]. lia.
    + rewrite Hps2. by destruct Hw as (_ & _ & -> & _).
    + intros r Hr. apply Hno. by destruct r.
Qed.

(** ** A new dead name *)
Lemma wf_alloc_dead s T a sp Q :
  kwf s T -> ks_spaces s !! a = Some sp ->
  (forall kr s', kwf s' T -> widened a s s' ->
    (kr = KERN_INVALID_TASK /\ is_active sp = false \/ kr ∈ [KERN_NO_SPACE; KERN_RESOURCE_SHORTAGE]) -> Q (inl kr) s') ->
  (forall name s1 s', MACH_PORT_VALID name = true -> widened a s s1 -> (forall c, ~ named s1 a name c) -> kwf s' T ->
    framed a (MACH_PORT_INDEX name) s1 s' -> ks_ports s' = ks_ports s -> ks_log s' = ks_log s ->
    entry_is s' a (MACH_PORT_INDEX name) IO_NULL (Z.lor (MACH_PORT_GEN name) (Z.lor MACH_PORT_TYPE_DEAD_NAME 1)) -> Q (inr name) s') ->
  wp (ipc_object_alloc_dead a) s Q.
Proof.
  intros HK Ha Qno Qyes. unfold ipc_object_alloc_dead. apply wp_bind. eapply wf_entry_alloc; [done|done|..].
  - intros s' Hin HK' Hw. wp_step. apply Qno; [done|done|by left].
  - intros kr s' Hkr HK' Hw. wp_step. apply Qno; [done|done|by right].
  - intros name i s1 s' Hnv Hw32 <- HK1 Hw Hnn HFs. pose proof (HFs _ HK1) as HF.
    set (b := Z.lor (MACH_PORT_GEN name) (Z.lor MACH_PORT_TYPE_DEAD_NAME 1)) in *.
    assert (Hb : IE_BITS_TYPE b = MACH_PORT_TYPE_DEAD_NAME /\ IE_BITS_UREFS b = 1 /\ IE_BITS_GEN b = MACH_PORT_GEN name).
    { unfold b. rewrite <- (MACH_PORT_GEN_ok name), IE_BITS_TYPE_lor, IE_BITS_UREFS_lor, IE_BITS_GEN_lor,
        IE_BITS_TYPE_GEN, IE_BITS_UREFS_GEN, IE_BITS_GEN_idemp. split_and!; [done|done|]. apply Z.lor_0_r. }
    destruct Hb as (Ht & Hu & Hg). apply wp_bind. eapply wf_ie_get; [done|exact HF|]. intros ix. cbn [ie_object ie_bits].
    wp_step. wp_step; [done|].
    apply wp_bind. eapply wf_ie_mod; [done|exact HF|entry_fields|done|exact Hg|]. intros s2 HF2.
    apply wp_bind. eapply wf_entry_modified; [done|exact HF2|]. intros s3 HF3. wp_step.
    change false with (MACH_PORT_TYPE_DEAD_NAME =? MACH_PORT_TYPE_SEND) in HF3. fold b in HF3. rewrite <- Ht in HF3.
    apply (fc_put_back _ _ _ _ eq_refl Hw32 _ _ _ IO_NULL b IE_REQ_NONE _ T) in HF3.
    + pose proof (fc_ports _ _ _ _ _ _ _ _ _ HF3) as HP3. apply shut_end in HF3 as (HK3 & Hfr & HL & He). by eapply (Qyes name s1).
    + unfold entry_ok. rewrite Ht, Hu. by constructor.
    + intros r. rewrite Ht. rights_of_type. lia.
Qed.

(** ** A new space *)

Definition new_space (initial size : Z) : ipc_space :=
  mk_ipc_space 2 size (u32 (size - 1)) (initial_table size) TASK_NULL (initial + 1) size 0.

Lemma initial_table_at size i :
  0 <= i < size ->
  entry_at (initial_table size) i = mk_ipc_entry 0 IE_BITS_GEN_MASK 0 (if i =? size - 1 then 0 else i + 1).
Proof.
  intros Hi. unfold entry_at, initial_table. rewrite list_lookup_fmap, lookup_seqZ_lt by lia. simpl.
  by replace (0 + Z.of_nat (Z.to_nat i)) with i by lia.
Qed.

(** The free list of a new space has the entries in ascending order. *)
Lemma new_space_inv initial size :
  1 < size <= MACH_PORT_INDEX MACH_PORT_DEAD -> space_inv ∅ ∅ (seqZ 1 (size - 1)) (new_space initial size).
Proof.
  intros Hs. change (MACH_PORT_INDEX MACH_PORT_DEAD) with 0xffffff in Hs.
  assert (Hlen : tlen (initial_table size) = size) by (unfold tlen, initial_table; rewrite length_map, length_seqZ; lia).
  assert (Hslot : forall h, 0 <= h < size -> slot_of (initial_table size) h = 0)
    by (intros h Hh; by rewrite slot_of_at, initial_table_at).
  split; simpl; change (MACH_PORT_INDEX MACH_PORT_DEAD) with 0xffffff; try done; try lia; try set_solver.
  - pose proof (chain_fresh (initial_table size) size (Z.to_nat (size - 1)) 0 ltac:(lia)) as Hc.
    rewrite Z2Nat.id in Hc by lia. apply Hc. intros i Hi. unfold next_of. by rewrite initial_table_at.
  - apply NoDup_seqZ.
  - rewrite length_seqZ. unfold u32. rewrite Z.mod_small by lia. lia.
  - by rewrite initial_table_at by lia.
  - intros i Hi%elem_of_seqZ. split_and!; [lia|lia|set_solver|..]; by rewrite initial_table_at by lia.
  - intros i Hi _ _. apply elem_of_seqZ. lia.
  - unfold tlen in Hlen. split; [lia|split|set_solver]; try set_solver.
    + intros h Hh. left. apply Hslot. lia.
    + intros h k Hh _ Hnz. destruct Hnz. apply Hslot. lia.
    + intros h k Hh _ Hnz. destruct Hnz. apply Hslot. lia.
  - intros i Hi _. split; [set_solver|]. by rewrite initial_table_at by lia.
Qed.

Lemma new_space_wf initial size :
  1 < size <= MACH_PORT_INDEX MACH_PORT_DEAD -> 0 <= initial -> ipc_table_entries !! Z.to_nat initial = Some size ->
  (Z.to_nat initial + 1 < length ipc_table_entries)%nat -> space_wf (new_space initial size).
Proof.
  intros Hs H0 Hsz Hlen _. split_and!.
  - by eexists _, _; apply new_space_inv.
  - intros j Hj _ Ht. simpl in Hj, Ht. by rewrite initial_table_at in Ht by lia.
  - done.
  - unfold sized. simpl. replace (initial + 1 - 1) with initial by lia. split_and!; [lia|done|lia].
Qed.

Lemma new_space_rights a initial size : space_rights a (new_space initial size) = [].
Proof.
  unfold space_rights. cbn [is_active new_space is_table]. change (is_active (new_space initial size)) with true. cbn [when].
  apply table_rights_free. unfold initial_table. apply Forall_forall. intros e (i & -> & _)%list_elem_of_fmap. done.
Qed.

(** What creating a space leaves as it is *)
Definition but_spaces (s s' : kstate) : Prop :=
  ks_ports s' = ks_ports s /\ ks_psets s' = ks_psets s /\ ks_kmsgs s' = ks_kmsgs s /\
  same_thread s s' /\ ks_log s' = ks_log s.

Lemma kwf_new_space s T a sp :
  kwf s T -> ks_spaces s !! a = None -> space_wf sp -> space_rights a sp = [] -> kwf (put_space s a sp) T.
Proof.
  intros [HL HO HS] Ha Hwf Hr. split; [|by eapply objects_ok_same|].
  - intros r. specialize (HL r). assert (Hh : held (put_space s a sp) r = held s r).
    { unfold held. simpl. rewrite mcnt_new, Hr by done. simpl. lia. }
    unfold accounts. rewrite Hh. exact HL.
  - intros b spb. simpl. rewrite lookup_insert. destruct (decide _) as [<-|]; [by intros [= <-]|apply HS].
Qed.

Lemma wf_space_create s T initial size Q :
  kwf s T -> zalloc_ok s -> 1 < size -> 0 <= initial -> ipc_table_entries !! Z.to_nat initial = Some size ->
  (Z.to_nat initial + 1 < length ipc_table_entries)%nat ->
  (forall s', kwf s' T -> but_spaces s s' -> ks_spaces s' = ks_spaces s -> Q (inl KERN_RESOURCE_SHORTAGE) s') ->
  (forall a s', kwf s' T -> but_spaces s s' -> fresh_address s a ->
    ks_spaces s' = <[a := new_space initial size]> (ks_spaces s) -> Q (inr a) s') ->
  wp (ipc_space_create initial) s Q.
Proof.
  intros HK Hz Hs H0 Hsz Hlen Qno Qyes.
  assert (Hmax : size <= MACH_PORT_INDEX MACH_PORT_DEAD)
    by (apply (so_range _ Hsizes); by apply list_elem_of_lookup_2 in Hsz).
  unfold ipc_space_create. wp_step. apply wp_pop_zalloc; [done|..].
  - intros l. change (0 =? IS_NULL) with true. cbn iota. wp_step. apply Qno; [by eapply kwf_same|by split_and!|done].
  - intros l a Hn Hf. rewrite (proj2 (Z.eqb_neq a IS_NULL)) by done. wp_step. apply wp_pop_kalloc. intros alloc l2.
    set (t := set_ks_kalloc l2 (set_ks_zalloc l s)). assert (HKt : kwf t T) by (by eapply kwf_same).
    pose proof Hf as (_ & _ & _ & _ & Ha). destruct alloc; cbn [negb].
    + wp_step. eapply wp_lift; [by apply its_size_at|]. wp_step.
      change (wp (is_put a (new_space initial size)) t (fun x y => wp (mret (inr a)) y Q)). apply wp_modify. wp_step.
      change (Q (inr a) (put_space t a (new_space initial size))). apply Qyes; [|by split_and!|done|done].
      apply kwf_new_space; [done|done|by apply new_space_wf|apply new_space_rights].
    + wp_step. unfold is_free. apply wp_modify. wp_step. apply Qno.
      * eapply kwf_same; [exact HKt|done..|]. simpl. by rewrite delete_id.
      * by split_and!.
      * simpl. by rewrite delete_id.
Qed.
End births.

(** C33 A new space is in shape: [ipc_space_create] returns a space at a fresh address whose
    table has the requested size, no rights, and every entry but the first on the free list;
    the list has the entries in ascending order.  When there is no memory nothing changes. *)
Theorem ipc_space_create_correct {env : ipc_env} s T initial size :
  sizes_ok ipc_table_entries -> kwf s T -> zalloc_ok s -> 1 < size -> 0 <= initial ->
  ipc_table_entries !! Z.to_nat initial = Some size -> (Z.to_nat initial + 1 < length ipc_table_entries)%nat ->
  wp (ipc_space_create initial) s (fun r s' => kwf s' T /\ but_spaces s s' /\
    match r with
    | inl kr => kr = KERN_RESOURCE_SHORTAGE /\ ks_spaces s' = ks_spaces s
    | inr a => fresh_address s a /\ exists sp, ks_spaces s' = <[a := sp]> (ks_spaces s) /\ is_active sp = true /\
        is_table_size sp = size /\ space_wf sp /\ space_rights a sp = [] /\ space_inv ∅ ∅ (seqZ 1 (size - 1)) sp
    end).
Proof.
  intros Hsizes HK Hz Hs H0 Hsz Hlen.
  assert (Hmax : size <= MACH_PORT_INDEX MACH_PORT_DEAD)
    by (apply (so_range _ Hsizes); by apply list_elem_of_lookup_2 in Hsz).
  eapply (wf_space_create Hsizes); [done..| |].
  - intros s' HK' Hb Hsp. by split_and!.
  - intros a s' HK' Hb Hf Hsp. split_and!; [done|done|done|]. exists (new_space initial size).
    split_and!; [done|done|done|by apply new_space_wf|apply new_space_rights|by apply new_space_inv].
Qed.

(** C34 Allocating a port: [ipc_port_alloc] gives the space a name that was not in use, for the
    receive right of a port at a fresh address; the port is in its initial state, its receiver
    is the space, under that name.  The state stays balanced with nothing in the caller's hand,
    nothing else changes, but that the table may have grown; an error changes no port and no
    entry. *)
Theorem ipc_port_alloc_correct {env : ipc_env} s T a sp :
  sizes_ok ipc_table_entries -> kwf s T -> hand_ok T -> hand_attached T -> zalloc_ok s -> ks_spaces s !! a = Some sp ->
  wp (ipc_port_alloc a) s (fun r s' => kwf s' T /\
    match r with
    | inl kr => widened a s s' /\
        (kr = KERN_INVALID_TASK /\ is_active sp = false \/ kr ∈ [KERN_NO_SPACE; KERN_RESOURCE_SHORTAGE])
    | inr (name, o) => MACH_PORT_VALID name = true /\ fresh_address s o /\
        ks_ports s' = <[o := new_port a name]> (ks_ports s) /\ ks_log s' = ks_log s /\
        entry_is s' a (MACH_PORT_INDEX name) o (Z.lor (MACH_PORT_GEN name) MACH_PORT_TYPE_RECEIVE) /\
        exists s1, widened a s s1 /\ (forall c, ~ named s1 a name c) /\ framed a (MACH_PORT_INDEX name) s1 s'
    end).
Proof.
  intros Hsizes HK HT Hat Hz Ha. eapply (wf_port_alloc Hsizes); [done..| |].
  - intros kr s' HK' Hw Hkr. by split_and!.
  - intros name o s1 s' Hv Hf Hw Hnn HK' Hfr HL HP He. split_and!; try done. by exists s1.
Qed.

(** ** Witnesses, on the sample kernel *)
Module BirthExample.
Import Sample.

Lemma zone_ok : zalloc_ok sample.
Proof. right. by vm_compute. Qed.

Lemma ipc_space_create_witness :
  exists s' (sp : ipc_space), ipc_space_create 0 sample = Ok (inr 0x600, s') /\ ks_spaces s' !! 0x600 = Some sp /\
    space_inv ∅ ∅ (seqZ 1 15) sp.
Proof.
  destruct (wp_inv _ _ _ (ipc_space_create_correct sample (hand []) 0 16 CopyoutExample.sample_sizes sample_kwf zone_ok ltac:(done)
    ltac:(done) eq_refl ltac:(simpl; lia))) as (r & s' & Hrun & _ & _ & Hr).
  assert (Hv : match ipc_space_create 0 sample with Ok (r, _) => r = inr 0x600 | Fail _ => False end)
    by (vm_compute; reflexivity).
  rewrite Hrun in Hv. subst r. destruct Hr as (_ & sp & Hs & _ & _ & _ & _ & HI).
  exists s', sp. split_and!; [exact Hrun|rewrite Hs; apply lookup_insert_eq|exact HI].
Defined.

Lemma ipc_port_alloc_witness :
  exists s', ipc_port_alloc 0x1000 sample = Ok (inr (0x803, 0x600), s') /\ kwf s' (hand []) /\
    ks_ports s' = <[0x600 := new_port 0x1000 0x803]> (ks_ports sample).
Proof.
  destruct (wp_inv _ _ _ (ipc_port_alloc_correct sample (hand []) 0x1000 space1 CopyoutExample.sample_sizes sample_kwf empty_hand
    ltac:(by intros r o) zone_ok eq_refl)) as (r & s' & Hrun & HK & Hr).
  assert (Hv : match ipc_port_alloc 0x1000 sample with Ok (r, _) => r = inr (0x803, 0x600) | Fail _ => False end)
    by (vm_compute; reflexivity).
  rewrite Hrun in Hv. subst r. destruct Hr as (_ & _ & HP & _). exists s'. split_and!; [exact Hrun|exact HK|exact HP].
Defined.
End BirthExample.
