(* ===== verification/MachPortOk.v ===== *)
(** * The kernel calls on ports, verified (mach_port.c)

    What the calls of MachPort.v do in a balanced state: the lookup of a receive right, the
    guards, the context, the queue limit, the report of references, types and names. *)

From S2P Require Import IpcTypes IpcBits IpcTable IpcHash IpcEntry IpcGrow IpcState IpcLedger IpcPort IpcRequest IpcDestroy IpcRight IpcObject MachPort IpcFocus IpcSample IpcRightOk IpcDeltaOk IpcPortOk IpcCopyOk IpcDesk IpcDestroyOk IpcAllocOk IpcReceiveOk.

Section receive.
Context {env : ipc_env}.

(** ** Receive rights by name *)

(** [name] is the name of the receive right of port [o] in space [a]. *)
Record receives (s : kstate) (a name o : Z) (p : ipc_port) : Prop := {
  rc_named : exists b req, named s a name (o, b, req) /\ has b MACH_PORT_TYPE_RECEIVE = true;
  rc_port : ks_ports s !! o = Some p;
  rc_active : ip_active p = true;
  rc_receiver : ip_receiver p = a;
  rc_name : ip_receiver_name p = name;
}.

(** Why a name has no receive right *)
Definition no_receive (s : kstate) (a : Z) (sp : ipc_space) (name : Z) (kr : kern_return_t) : Prop :=
  (kr = KERN_INVALID_TASK /\ is_active sp = false) \/
  (kr = KERN_INVALID_NAME /\ is_active sp = true /\ forall c, ~ named s a name c) \/
  (kr = KERN_INVALID_RIGHT /\ exists o b req, named s a name (o, b, req) /\ has b MACH_PORT_TYPE_RECEIVE = false).

Lemma named_receives s T a name o b req :
  kwf s T -> hand_ok T -> named s a name (o, b, req) -> has b MACH_PORT_TYPE_RECEIVE = true ->
  exists p, receives s a name o p.
Proof.
  intros HK [HT _] Hn Hb. pose proof (holding_start s a name T o b req HK Hn) as Hh.
  destruct (holding_port _ _ _ _ _ _ _ _ _ _ _ HT Hh) as [p Hp]; [by apply (has_sub b MACH_PORT_TYPE_RECEIVE)|].
  destruct (holding_receive _ _ _ _ eq_refl _ _ _ _ _ _ _ _ HT Hh Hb Hp) as (Ha & Hr & Hm & _).
  exists p. split; eauto.
Qed.

Lemma wf_with_receive {A} s T a sp name (body : Z -> K (kern_return_t + A)) Q :
  kwf s T -> hand_ok T -> ks_spaces s !! a = Some sp -> a <> IS_NULL -> 0 <= name < 2 ^ 32 ->
  (forall kr, no_receive s a sp name kr -> Q (inl kr) s) ->
  (forall o p, receives s a name o p -> wp (body o) s Q) ->
  wp (with_receive a name body) s Q.
Proof.
  intros HK HT Ha Hn Hw Hno Hyes. unfold with_receive, ipc_port_translate_receive, ipc_object_translate.
  do 2 apply wp_bind. eapply wf_lookup_write; [done|done|done|done|..].
  - intros Hact. wp_step. wp_step. apply Hno. by left.
  - intros Hc Hact. wp_step. wp_step. apply Hno. right. by left.
  - intros [[o b] req] Hnm. apply wp_bind. eapply wp_named_get; [done|done|]. intros ix. cbn [ie_bits ie_object].
    change (MACH_PORT_TYPE MACH_PORT_RIGHT_RECEIVE) with MACH_PORT_TYPE_RECEIVE. change MACH_PORT_TYPE_NONE with 0.
    destruct (has b MACH_PORT_TYPE_RECEIVE) eqn:Hb; unfold has in Hb.
    + apply negb_true_iff in Hb. rewrite Hb.
      destruct (named_receives s T a name o b req HK HT Hnm) as [p Hp]; [unfold has; by rewrite Hb|].
      pose proof (po_valid _ _ (oo_ports _ (kw_objects _ _ HK) _ _ (rc_port _ _ _ _ _ Hp))) as Hv.
      wp_step. wp_step. { unfold IP_VALID in Hv. apply andb_prop in Hv as [Hv _]. exact Hv. }
      wp_step. by eapply Hyes.
    + apply negb_false_iff in Hb. rewrite Hb. wp_step. wp_step. apply Hno. right. right. split; [done|].
      exists o, b, req. split; [done|]. unfold has. by rewrite Hb.
Qed.

(** ** Changing what the ledger does not see *)
Definition untouched (p p' : ipc_port) : Prop :=
  ip_bits p' = ip_bits p /\ ip_references p' = ip_references p /\ ip_srights p' = ip_srights p /\
  ip_sorights p' = ip_sorights p /\ ip_requests p' = ip_requests p /\ ip_receiver p' = ip_receiver p /\
  ip_receiver_name p' = ip_receiver_name p /\ ip_nsrequest p' = ip_nsrequest p /\
  ip_pdrequest p' = ip_pdrequest p /\ ip_impcount p' = ip_impcount p /\
  imq_messages (ip_messages p') = imq_messages (ip_messages p) /\
  ip_tempowner p' = ip_tempowner p /\ ip_imp_task p' = ip_imp_task p /\
  (ip_impdonation p = true -> ip_impdonation p' = true).

Lemma receives_null s a name o p : receives s a name o p -> ip_receiver_name p <> MACH_PORT_NULL.
Proof.
  intros [(b & req & (Hw & sp & Ha & Hact & Hi & _) & _) _ _ _ Hn]. rewrite Hn. intros ->.
  change (MACH_PORT_INDEX MACH_PORT_NULL) with 0 in Hi. lia.
Qed.

Lemma kwf_touch s T a name o p p' :
  kwf s T -> receives s a name o p -> untouched p p' -> kwf (put_port s o p') T.
Proof.
  intros HK Hrc (H1 & H2 & H3 & H4 & H5 & H6 & H7 & H8 & H9 & H10 & H11 & H12 & H13 & H14).
  pose proof (receives_null _ _ _ _ _ Hrc) as Hnn. destruct Hrc as [_ Ho Hact _ _].
  pose proof (oo_ports _ (kw_objects _ _ HK) _ _ Ho) as Hok.
  assert (Ha : ip_active p' = ip_active p) by (unfold ip_active; by rewrite H1).
  pose proof (fc_rest s (nowhere s) 0 0 T HK) as HF.
  assert (Hok' : port_ok o p').
  { pose proof (proj2 (po_transit _ _ Hok)) as Him. destruct Hok. unfold IP_PREALLOC in *. split; unfold IP_PREALLOC; rewrite ?H1, ?H2, ?H3, ?H4, ?H5, ?H10; try done.
    - rewrite Ha, Hact. done.
    - split; [intros _ Hn; congruence|]. rewrite H12, H13. intros Ht Hi. destruct (Him Ht Hi). auto. }
  eapply (fc_rested s (nowhere s) 0 0), fc_ext; [eapply fc_put_port; [exact HF|done|done|by rewrite Ha]|].
  intros r. cbv beta. rewrite move_counts, H2, H3, H4; [lia| |done..].
  unfold port_rights. by rewrite Ha, H5, H8, H9, H11, H7, H6.
Qed.

Lemma kwf_log s T e : kwf s T -> event_rights e = [] -> kwf (put_log s e) T.
Proof.
  intros HK He. eapply (fc_rested s (nowhere s) 0 0), fc_ext.
  - by apply fc_put_log, fc_rest.
  - intros r. unfold minus. rewrite He. simpl. lia.
Qed.
End receive.

Create HintDb touch.
#[export] Hint Extern 1 (untouched _ _) => (unfold untouched; split_and!; (reflexivity || trivial)) : touch.

(** ** Guards *)

Section guards.
Context {env : ipc_env} (s : kstate) (a name : Z) (o : Z) (p : ipc_port).

Definition guarded (g : Z) (strict : bool) (p : ipc_port) : ipc_port :=
  set_ip_strict_guard strict (set_ip_guarded true (set_ip_context g p)).
Definition unguarded (p : ipc_port) : ipc_port :=
  set_ip_strict_guard false (set_ip_guarded false (set_ip_context 0 p)).

Lemma wp_guard_locked g strict Q :
  ks_ports s !! o = Some p ->
  (ip_context p <> 0 -> Q (inl KERN_INVALID_ARGUMENT) s) ->
  (ip_context p = 0 -> Q (inr tt) (put_port s o (guarded g strict p))) ->
  wp (mach_port_guard_locked o g strict) s Q.
Proof.
  intros Ho Hno Hyes. unfold mach_port_guard_locked. apply wp_bind, (wp_ip_get o p); [done|].
  destruct (Z.eqb_spec (ip_context p) 0); cbn [negb]; [|wp_step; by apply Hno].
  apply wp_bind, (wp_ip_mod o _ p); [done|]. wp_step. by apply Hyes.
Qed.

Lemma wp_unguard_locked g Q :
  ks_ports s !! o = Some p ->
  (ip_guarded p = false -> Q (inl KERN_INVALID_ARGUMENT) (put_log s (GuardException name g 0 kGUARD_EXC_UNGUARDED))) ->
  (ip_guarded p = true -> ip_context p <> g ->
    Q (inl KERN_INVALID_ARGUMENT) (put_log s (GuardException name g (ip_context p) kGUARD_EXC_INCORRECT_GUARD))) ->
  (ip_guarded p = true -> ip_context p = g -> Q (inr tt) (put_port s o (unguarded p))) ->
  wp (mach_port_unguard_locked o name g) s Q.
Proof.
  intros Ho Hun Hne Heq. unfold mach_port_unguard_locked. apply wp_bind, (wp_ip_get o p); [done|].
  destruct (ip_guarded p); cbn [negb]; [|apply wp_bind, wp_log; wp_step; by apply Hun].
  destruct (Z.eqb_spec (ip_context p) g); cbn [negb]; [|apply wp_bind, wp_log; wp_step; by apply Hne].
  apply wp_bind, (wp_ip_mod o _ p); [done|]. wp_step. by apply Heq.
Qed.
End guards.

(** ** The calls on a receive right that is there *)
Section calls.
Context {env : ipc_env}.

Lemma named_fun s a name c c' : named s a name c -> named s a name c' -> c = c'.
Proof. intros (_ & sp & Ha & _ & _ & <- & _) (_ & sp' & Ha' & _ & _ & <- & _). by simplify_eq. Qed.

Lemma named_valid s T a name c : kwf s T -> named s a name c -> MACH_PORT_VALID name = true.
Proof.
  intros HK (Hw & sp & Ha & Hact & Hi & _). destruct (kw_spaces _ _ HK _ _ Ha Hact) as ((H & l & HI) & _).
  pose proof (si_bound _ _ _ _ HI) as Hm. unfold MACH_PORT_VALID.
  destruct (Z.eqb_spec name MACH_PORT_NULL) as [->|]; [change (MACH_PORT_INDEX MACH_PORT_NULL) with 0 in Hi; lia|].
  destruct (Z.eqb_spec name MACH_PORT_DEAD) as [->|]; [|done].
  change (MACH_PORT_INDEX MACH_PORT_DEAD) with 0xffffff in *. lia.
Qed.

Lemma wp_receives {A} s T a name o p (body : Z -> K (kern_return_t + A)) Q :
  kwf s T -> hand_ok T -> a <> IS_NULL -> receives s a name o p ->
  wp (body o) s Q -> wp (with_receive a name body) s Q.
Proof.
  intros HK HT Hn Hr HQ. destruct (rc_named _ _ _ _ _ Hr) as (b & req & Hnm & Hb).
  pose proof Hnm as (Hw & sp & Ha & Hact & _). eapply wf_with_receive; [done..| |].
  - intros kr [[_ Hi]|[(_ & _ & Hc)|(_ & o' & b' & req' & Hnm' & Hb')]]; [congruence|by destruct (Hc (o, b, req) Hnm)|].
    pose proof (named_fun _ _ _ _ _ Hnm Hnm'). simplify_eq. congruence.
  - intros o' p' Hr'. destruct (rc_named _ _ _ _ _ Hr') as (b' & req' & Hnm' & _).
    pose proof (named_fun _ _ _ _ _ Hnm Hnm'). by simplify_eq.
Qed.

(** The receive right is there after the port was changed. *)
Lemma receives_put s a name o p p' :
  receives s a name o p -> untouched p p' -> receives (put_port s o p') a name o p'.
Proof.
  intros [Hn Ho Ha Hr Hm] (H1 & _ & _ & _ & _ & H6 & H7 & _).
  split; [exact Hn|apply lookup_insert_eq|unfold ip_active in *; by rewrite H1|by rewrite H6|by rewrite H7].
Qed.

(** Enter a call on a receive right: its guards, then the port. *)
Lemma wp_receive_call {A} s T a name o p (kr : kern_return_t) (body : Z -> K (kern_return_t + A)) Q :
  kwf s T -> hand_ok T -> a <> IS_NULL -> receives s a name o p -> wp (body o) s Q ->
  wp (if a =? IS_NULL then mret (inl KERN_INVALID_TASK) else
      if negb (MACH_PORT_VALID name) then mret (inl kr) else with_receive a name body) s Q.
Proof.
  intros HK HT Hn Hr HQ. destruct (rc_named _ _ _ _ _ Hr) as (b & req & Hnm & _).
  rewrite (proj2 (Z.eqb_neq _ _) Hn), (named_valid _ _ _ _ _ HK Hnm). cbn [negb]. by eapply wp_receives.
Qed.
End calls.

(** C35 Guarding a port and taking the guard off again with the same value leaves the kernel
    exactly as it was, for any guard, strict or not. *)
Theorem mach_port_guard_unguard {env : ipc_env} s T a name o p guard strict :
  kwf s T -> hand_ok T -> a <> IS_NULL -> receives s a name o p ->
  ip_context p = 0 -> ip_guarded p = false -> ip_strict_guard p = false ->
  (_ ← mach_port_guard a name guard strict; mach_port_unguard a name guard) s = Ok (inr tt, s).
Proof.
  intros HK HT Hn Hr Hc Hg Hs. pose proof (rc_port _ _ _ _ _ Hr) as Ho.
  cut (wp (_ ← mach_port_guard a name guard strict; mach_port_unguard a name guard) s (fun r s' => r = inr tt /\ s' = s)).
  { intros (r & s' & -> & -> & ->)%wp_inv. done. }
  assert (Ht : untouched p (guarded guard strict p)) by eauto with touch.
  apply wp_bind, (wp_receive_call s T a name o p); [done..|]. eapply wp_guard_locked; [done|done|]. intros _.
  eapply (wp_receive_call _ T a name o (guarded guard strict p));
    [by eapply (kwf_touch s T a name o p)|done|done|by apply (receives_put _ _ _ _ p)|].
  eapply wp_unguard_locked; [apply ks_ports_put|done|done|]. intros _ _. split; [done|].
  rewrite put_port_put. apply put_port_id. rewrite Ho. f_equal. destruct p. simpl in *. by subst.
Qed.

(** A strict guard keeps the context of a port: once set, the context is neither shown
    nor replaced, and no other value takes the guard off.  Each attempt is refused, raises the
    guard exception that belongs to it, and changes nothing else. *)
Theorem mach_port_strict_guard {env : ipc_env} s T a name o p guard :
  kwf s T -> hand_ok T -> a <> IS_NULL -> receives s a name o p -> ip_context p = 0 ->
  wp (mach_port_guard a name guard true) s (fun r s' => r = inr tt /\ kwf s' T /\
    mach_port_get_context a name s' = Ok (inr 0, s') /\
    (forall context, mach_port_set_context a name context s' =
       Ok (inl KERN_INVALID_ARGUMENT, put_log s' (GuardException name context guard kGUARD_EXC_SET_CONTEXT))) /\
    (forall other, other <> guard -> mach_port_unguard a name other s' =
       Ok (inl KERN_INVALID_ARGUMENT, put_log s' (GuardException name other guard kGUARD_EXC_INCORRECT_GUARD)))).
Proof.
  intros HK HT Hn Hr Hc. pose proof (rc_port _ _ _ _ _ Hr) as Ho. set (q := guarded guard true p).
  assert (Ht : untouched p q) by (unfold q; eauto with touch).
  apply (wp_receive_call s T a name o p); [done..|]. eapply wp_guard_locked; [done|done|]. intros _. fold q.
  assert (HK' : kwf (put_port s o q) T) by (by eapply (kwf_touch s T a name o p)).
  pose proof (receives_put _ _ _ _ p q Hr Ht) as Hr'. set (s' := put_port s o q) in *.
  assert (Ho' : ks_ports s' !! o = Some q) by apply ks_ports_put. clearbody s'.
  assert (Hrun : forall B (m : K B) x t, wp m s' (fun r t' => r = x /\ t' = t) -> m s' = Ok (x, t)).
  { intros B m x t (r & t' & -> & -> & ->)%wp_inv. done. }
  split_and!; [done|done|apply Hrun|intros context; apply Hrun|intros other Hne; apply Hrun];
    (apply (wp_receive_call s' T a name o q); [done..|]).
  - apply wp_bind, (wp_ip_get o q); [done|]. by wp_step.
  - apply wp_bind, (wp_ip_get o q); [done|]. apply wp_bind, wp_log. by wp_step.
  - eapply wp_unguard_locked; [done|done|done|]. intros _ He. by destruct Hne.
Qed.

(** A guard of 0 guards nothing against a second call: [mach_port_guard] looks at the
    context, not at the guard bit, so a port guarded with 0 takes any other guard. *)
Theorem mach_port_guard_zero {env : ipc_env} s T a name o p guard strict :
  kwf s T -> hand_ok T -> a <> IS_NULL -> receives s a name o p -> ip_context p = 0 -> ip_guarded p = true ->
  mach_port_guard a name guard strict s = Ok (inr tt, put_port s o (guarded guard strict p)).
Proof.
  intros HK HT Hn Hr Hc Hg.
  cut (wp (mach_port_guard a name guard strict) s (fun r s' => r = inr tt /\ s' = put_port s o (guarded guard strict p))).
  { intros (r & s' & -> & -> & ->)%wp_inv. done. }
  apply (wp_receive_call s T a name o p); [done..|]. eapply wp_guard_locked; [by apply Hr|done|done].
Qed.

(** ** The queue limit *)

Section qlimit.
Context {env : ipc_env} (o : Z).

(** The queue after [n] wakeups at most *)
Definition woken (n : nat) (m : ipc_mqueue) : ipc_mqueue :=
  mk_ipc_mqueue (imq_messages m) (imq_seqno m) (imq_receiver_name m)
    (imq_msgcount m + Z.of_nat (n `min` length (imq_senders m))) (imq_qlimit m)
    (if (length (imq_senders m) <? n)%nat then false else imq_fullwaiters m) (imq_set_links m) (imq_receivers m)
    (drop n (imq_senders m)).

Lemma wp_wake_senders n s p Q :
  ks_ports s !! o = Some p -> 0 <= imq_msgcount (ip_messages p) ->
  imq_msgcount (ip_messages p) + Z.of_nat (length (imq_senders (ip_messages p))) < 2 ^ 32 ->
  (forall s', ks_ports s' = <[o := set_ip_messages (woken n (ip_messages p)) p]> (ks_ports s) ->
    only_ports s s' -> ks_log s' = ks_log s ++ (SenderAwakened <$> take n (imq_senders (ip_messages p))) -> Q tt s') ->
  wp (wake_senders n o) s Q.
Proof.
  revert s p. induction n as [|n IH]; intros s p Ho Hm Hmax HQ.
  - apply wp_ret, HQ; [|done|simpl; by rewrite app_nil_r].
    replace (set_ip_messages _ p) with p; [by rewrite insert_id|]. destruct p as [? ? m]. unfold woken. simpl.
    rewrite Z.add_0_r. by destruct m.
  - cbn [wake_senders]. apply wp_bind, (wp_ip_get o p); [done|].
    destruct (imq_senders (ip_messages p)) as [|th l] eqn:Hs.
    + unfold ip_put. apply wp_modify, HQ; [|done|simpl; by rewrite app_nil_r]. simpl. do 2 f_equal.
      unfold woken, set_imq_fullwaiters. rewrite Hs. simpl. by rewrite Z.add_0_r.
    + apply wp_bind, wp_modify, wp_bind, wp_log.
      eapply IH; [apply lookup_insert_eq|simpl in *..|]; [rewrite u32_range; lia|rewrite u32_range; lia|].
      intros s' HP Hon HL. rewrite u32_range in HP by (simpl in *; lia). apply HQ; [|done|].
      * rewrite HP. simpl. rewrite insert_insert_eq. f_equal. unfold set_ip_messages, woken. rewrite Hs. simpl.
        do 2 f_equal. lia.
      * rewrite HL. simpl. by rewrite <- app_assoc.
Qed.

Lemma wp_set_qlimit s p qlimit Q :
  ks_ports s !! o = Some p -> qlimit <= MACH_PORT_QLIMIT_MAX -> 0 <= imq_msgcount (ip_messages p) ->
  imq_msgcount (ip_messages p) + Z.of_nat (length (imq_senders (ip_messages p))) < 2 ^ 32 ->
  (forall s', let n := Z.to_nat (qlimit - imq_qlimit (ip_messages p)) in
    ks_ports s' = <[o := set_ip_messages (set_imq_qlimit qlimit (woken n (ip_messages p))) p]> (ks_ports s) ->
    only_ports s s' -> ks_log s' = ks_log s ++ (SenderAwakened <$> take n (imq_senders (ip_messages p))) -> Q tt s') ->
  wp (ipc_mqueue_set_qlimit o qlimit) s Q.
Proof.
  intros Ho Hq Hm Hmax HQ. unfold ipc_mqueue_set_qlimit. wp_step. wp_step; [by apply Z.leb_le|].
  apply wp_bind, (wp_ip_get o p); [done|]. apply wp_bind. eapply wp_wake_senders; [done..|].
  intros s1 HP Hon HL. eapply wp_ip_mod; [rewrite HP; apply lookup_insert_eq|]. apply HQ; simpl.
  - rewrite HP, insert_insert_eq. done.
  - exact Hon.
  - exact HL.
Qed.
End qlimit.


(** ** References *)

(** The references a name has for [right]; [type] and [urefs] as [ipc_right_info] tells them *)
Definition refs_of (type urefs right : Z) : Z :=
  if has type (MACH_PORT_TYPE right)
  then if (right =? MACH_PORT_RIGHT_SEND) || (right =? MACH_PORT_RIGHT_DEAD_NAME) then urefs else 1
  else 0.

(** What a name stands for: a right to a dead port is a dead name. *)
Definition type_found (P : gmap Z ipc_port) (o b req : Z) : Z * Z :=
  match P !! o, has b MACH_PORT_TYPE_PORT_RIGHTS with
  | Some p, true => if ip_active p then (IE_BITS_TYPE b, IE_BITS_UREFS b)
                    else (MACH_PORT_TYPE_DEAD_NAME, dead_urefs p b req)
  | _, _ => (IE_BITS_TYPE b, IE_BITS_UREFS b)
  end.

Section refs.
Context {env : ipc_env}.

Lemma right_cases right :
  0 <= right < MACH_PORT_RIGHT_NUMBER ->
  right ∈ [MACH_PORT_RIGHT_SEND; MACH_PORT_RIGHT_RECEIVE; MACH_PORT_RIGHT_SEND_ONCE; MACH_PORT_RIGHT_PORT_SET;
           MACH_PORT_RIGHT_DEAD_NAME; MACH_PORT_RIGHT_LABELH].
Proof.
  unfold MACH_PORT_RIGHT_NUMBER, MACH_PORT_RIGHT_SEND, MACH_PORT_RIGHT_RECEIVE, MACH_PORT_RIGHT_SEND_ONCE,
    MACH_PORT_RIGHT_PORT_SET, MACH_PORT_RIGHT_DEAD_NAME, MACH_PORT_RIGHT_LABELH. intros Hr. rewrite !elem_of_cons, elem_of_nil. lia.
Qed.

(** The request bits are no rights. *)
Lemma has_request_bits p req type right :
  0 <= right < MACH_PORT_RIGHT_NUMBER -> has (Z.lor (request_bits p req) type) (MACH_PORT_TYPE right) = has type (MACH_PORT_TYPE right).
Proof.
  intros Hr. unfold has. rewrite Z.land_lor_distr_l.
  assert (Hz : Z.land (request_bits p req) (MACH_PORT_TYPE right) = 0); [|by rewrite Hz].
  unfold request_bits. destruct (req =? IE_REQ_NONE); [done|]. unfold slot_type, request_type.
  destruct (ip_requests p) as [t|]; [|done]. generalize (ipr_soright (rat t req)). intros sor.
  apply right_cases in Hr. rewrite !elem_of_cons, elem_of_nil in Hr.
  destruct (IP_VALID (IPR_SOR_PORT sor)), (IPR_SOR_SPREQ sor), (IPR_SOR_SPARMED sor); destruct Hr as [->|[->|[->|[->|[->|[->|[]]]]]]]; done.
Qed.

(** The assertions of [mach_port_get_refs] hold for what an entry can be. *)
Lemma wp_get_refs_right s o req type urefs right Q :
  0 <= right < MACH_PORT_RIGHT_NUMBER -> entry_shape o type urefs req -> Q (refs_of type urefs right) s ->
  wp (get_refs_right type urefs right) s Q.
Proof.
  intros Hr Hs HQ. unfold get_refs_right, refs_of in *. apply right_cases in Hr. rewrite !elem_of_cons, elem_of_nil in Hr.
  destruct Hr as [->|[->|[->|[->|[->|[->|[]]]]]]]; inversion Hs; subst;
    repeat match goal with
    | H : context [has ?x (MACH_PORT_TYPE ?y)] |- _ =>
      let v := eval vm_compute in (has x (MACH_PORT_TYPE y)) in change (has x (MACH_PORT_TYPE y)) with v in *
    end; cbn in *; repeat first [wp_step | done | by apply Z.ltb_lt; lia].
Qed.

(** What a name is found to be is in shape. *)
Lemma found_shape s T a name o b req :
  kwf s T -> hand_ok T -> named s a name (o, b, req) ->
  exists o' req', entry_shape o' (type_found (ks_ports s) o b req).1 (type_found (ks_ports s) o b req).2 req'.
Proof.
  intros HK HT Hn. destruct (holding_start s a name T o b req HK Hn) as [_ Hok]. unfold type_found.
  destruct (ks_ports s !! o) as [p|] eqn:Hp; [|by exists o, req].
  destruct (has b MACH_PORT_TYPE_PORT_RIGHTS) eqn:Hb; [|by exists o, req].
  destruct (ip_active p) eqn:Ha; [by exists o, req|]. cbn [fst snd].
  pose proof (holding_start s a name T o b req HK Hn) as Hh.
  assert (Hr : has b MACH_PORT_TYPE_RECEIVE = false).
  { destruct (has b MACH_PORT_TYPE_RECEIVE) eqn:Hr; [|done].
    destruct (holding_receive _ _ _ _ eq_refl _ _ _ _ _ _ _ p (proj1 HT) Hh Hr Hp) as [Ha' _]. congruence. }
  exists IO_NULL, IE_REQ_NONE. apply shape_dead_name. unfold dead_urefs. rewrite has_type in Hb, Hr by done.
  unfold entry_ok in Hok. inversion Hok; subst;
    try match goal with H : _ = IE_BITS_TYPE b |- _ => rewrite <- H in Hb, Hr; done end;
    destruct (IP_VALID _); unfold MACH_PORT_UREFS_MAX in *; lia.
Qed.
End refs.

(** The bits of a pending request of a live port *)
Definition request_found (P : gmap Z ipc_port) (o b req : Z) : Z :=
  match P !! o, has b MACH_PORT_TYPE_PORT_RIGHTS with
  | Some p, true => if ip_active p then request_bits p req else 0
  | _, _ => 0
  end.

(** Why a name cannot be looked up *)
Definition not_found (s : kstate) (a : Z) (sp : ipc_space) (name : Z) (kr : kern_return_t) : Prop :=
  (kr = KERN_INVALID_TASK /\ is_active sp = false) \/
  (kr = KERN_INVALID_NAME /\ is_active sp = true /\ forall c, ~ named s a name c).

Section info.
Context {env : ipc_env}.

Lemma wf_info s T a name o b req Q :
  kwf s T -> hand_ok T -> named s a name (o, b, req) ->
  (forall s', kwf s' T -> framed a (MACH_PORT_INDEX name) s s' -> ks_log s' = ks_log s ->
    Q (Z.lor (request_found (ks_ports s) o b req) (type_found (ks_ports s) o b req).1, (type_found (ks_ports s) o b req).2) s') ->
  wp (ipc_right_info a name (MACH_PORT_INDEX name)) s Q.
Proof.
  intros HK HT Hn HQ. eapply wf_right_info; [done|apply Hn|done|by apply holding_start|].
  intros info s' P' o' b' Hi HF. apply shut_end in HF as (HK' & Hfr & Hl & _). specialize (HQ s' HK' Hfr Hl).
  unfold informed, request_found, type_found in *.
  destruct (ks_ports s !! o) as [p|], (has b MACH_PORT_TYPE_PORT_RIGHTS);
    try (destruct (ip_active p)); destruct Hi as [-> _]; exact HQ.
Qed.

(** Look a name up and go on with its entry. *)
Lemma wf_lookup {A} s T a sp name (fail : kern_return_t -> A) (k : Z -> K A) Q :
  kwf s T -> ks_spaces s !! a = Some sp -> a <> IS_NULL -> 0 <= name < 2 ^ 32 ->
  (forall kr, not_found s a sp name kr -> Q (fail kr) s) ->
  (forall o b req, named s a name (o, b, req) -> wp (k (MACH_PORT_INDEX name)) s Q) ->
  wp (found ← ipc_right_lookup_write a name;
      match found with inl kr => mret (fail kr) | inr entry => k entry end) s Q.
Proof.
  intros HK Ha Hn Hw Hno Hyes. apply wp_bind. eapply wf_lookup_write; [done..| | |].
  - intros Hi. wp_step. apply Hno. by left.
  - intros Hc Hi. wp_step. apply Hno. by right.
  - intros [[o b] req] Hc. by eapply Hyes.
Qed.

Lemma wf_get_refs s T a sp name right Q :
  kwf s T -> hand_ok T -> ks_spaces s !! a = Some sp -> a <> IS_NULL -> 0 <= name < 2 ^ 32 ->
  0 <= right < MACH_PORT_RIGHT_NUMBER -> MACH_PORT_VALID name = true ->
  (forall kr, not_found s a sp name kr -> Q (inl kr) s) ->
  (forall o b req s', named s a name (o, b, req) -> kwf s' T -> framed a (MACH_PORT_INDEX name) s s' ->
    ks_log s' = ks_log s -> let tu := type_found (ks_ports s) o b req in Q (inr (refs_of tu.1 tu.2 right)) s') ->
  wp (mach_port_get_refs a name right) s Q.
Proof.
  intros HK HT Ha Hn Hw Hr Hv Hno Hyes. unfold mach_port_get_refs.
  rewrite (proj2 (Z.eqb_neq _ _) Hn), Hv, (proj2 (Z.leb_gt _ _)) by lia. cbn [negb].
  eapply (wf_lookup s T a sp name inl); [done..|]. intros o b req Hnm.
  apply wp_bind. eapply wf_info; [done|done|done|]. intros s' HK' Hfr Hl. cbv beta iota.
  specialize (Hyes o b req s' Hnm HK' Hfr Hl). destruct (found_shape s T a name o b req HK HT Hnm) as (o' & req' & Hs).
  apply wp_bind. revert Hyes Hs. cbv zeta. generalize (type_found (ks_ports s) o b req). intros [type urefs] Hyes Hs.
  cbn [fst snd] in *.
  assert (Hhas : has (Z.lor (request_found (ks_ports s) o b req) type) (MACH_PORT_TYPE right) = has type (MACH_PORT_TYPE right)).
  { unfold request_found. destruct (ks_ports s !! o), (has b MACH_PORT_TYPE_PORT_RIGHTS); try done.
    destruct (ip_active i); [|done]. by apply has_request_bits. }
  replace (get_refs_right (Z.lor (request_found (ks_ports s) o b req) type) urefs right) with (get_refs_right type urefs right)
    by (unfold get_refs_right; by rewrite Hhas).
  eapply wp_get_refs_right; [done|exact Hs|]. by wp_step.
Qed.

Lemma wf_type s T a sp name Q :
  kwf s T -> hand_ok T -> ks_spaces s !! a = Some sp -> a <> IS_NULL -> 0 <= name < 2 ^ 32 ->
  MACH_PORT_VALID name = true ->
  (forall kr, not_found s a sp name kr -> Q (inl kr) s) ->
  (forall o b req s', named s a name (o, b, req) -> kwf s' T -> framed a (MACH_PORT_INDEX name) s s' ->
    ks_log s' = ks_log s ->
    Q (inr (clr (Z.lor (request_found (ks_ports s) o b req) (type_found (ks_ports s) o b req).1)
              (Z.lor MACH_PORT_TYPE_SPREQUEST MACH_PORT_TYPE_SPREQUEST_DELAYED))) s') ->
  wp (mach_port_type a name) s Q.
Proof.
  intros HK HT Ha Hn Hw Hv Hno Hyes. unfold mach_port_type. unfold MACH_PORT_VALID in Hv.
  apply andb_prop in Hv as [H1 H2]. apply negb_true_iff in H1, H2. rewrite (proj2 (Z.eqb_neq _ _) Hn), H1, H2.
  eapply (wf_lookup s T a sp name inl); [done..|]. intros o b req Hnm.
  apply wp_bind. eapply wf_info; [done|done|done|]. intros s' HK' Hfr Hl. cbv beta iota. wp_step. by eapply Hyes.
Qed.
End info.

(** [mach_port_get_refs] tells the references a name has for a right, in every balanced
    state and without failing an assertion: the user references for a send right and for a
    dead name, 1 for a receive right, a send-once right and a port set, 0 for a right the name
    does not stand for.  A right to a dead port counts as a dead name, with the reference of
    the notification that was pending; the entry is changed accordingly, and nothing else. *)
Theorem mach_port_get_refs_correct {env : ipc_env} s T a sp name right :
  kwf s T -> hand_ok T -> ks_spaces s !! a = Some sp -> a <> IS_NULL -> 0 <= name < 2 ^ 32 ->
  0 <= right < MACH_PORT_RIGHT_NUMBER -> MACH_PORT_VALID name = true ->
  wp (mach_port_get_refs a name right) s (fun r s' =>
    kwf s' T /\ framed a (MACH_PORT_INDEX name) s s' /\ ks_log s' = ks_log s /\
    ((exists kr, r = inl kr /\ not_found s a sp name kr /\ s' = s) \/
     (exists o b req, named s a name (o, b, req) /\
        let '(type, urefs) := type_found (ks_ports s) o b req in r = inr (refs_of type urefs right)))).
Proof.
  intros HK HT Ha Hn Hw Hr Hv. eapply wf_get_refs; [done..| |].
  - intros kr Hkr. split_and!; [done| |done|left; by exists kr]. by split_and!.
  - intros o b req s' Hnm HK' Hfr Hl. split_and!; [done|done|done|]. right. exists o, b, req. split; [done|].
    by destruct (type_found _ o b req).
Qed.

(** ** Names *)

(** The type [mach_port_names] tells for a name; a port that died after [timestamp] counts as
    alive. *)
Definition names_type (timestamp : Z) (P : gmap Z ipc_port) (o b req : Z) : Z :=
  match P !! o, has b MACH_PORT_TYPE_PORT_RIGHTS with
  | Some p, true =>
    if ip_active p || IP_TIMESTAMP_ORDER timestamp (ip_timestamp p)
    then Z.lor (request_bits p req) (IE_BITS_TYPE b) else MACH_PORT_TYPE_DEAD_NAME
  | _, _ => IE_BITS_TYPE b
  end.

Lemma TYPE_u32 x : IE_BITS_TYPE (u32 x) = IE_BITS_TYPE x.
Proof.
  unfold IE_BITS_TYPE, u32. rewrite <- Z.land_ones by done. rewrite <- Z.land_assoc. by vm_compute (Z.land (Z.ones 32) _).
Qed.

Lemma TYPE_dead b (n : Z) :
  0 <= n <= 1 -> IE_BITS_UREFS b < MACH_PORT_UREFS_MAX ->
  IE_BITS_TYPE (Z.lor (clr b IE_BITS_TYPE_MASK) MACH_PORT_TYPE_DEAD_NAME + n) = MACH_PORT_TYPE_DEAD_NAME.
Proof.
  intros Hn Hu. destruct (dead_bits_of b) as (Ht & Hd & _). rewrite IE_BITS_TYPE_add; [done|].
  rewrite Hd. pose proof (IE_BITS_UREFS_range b). unfold MACH_PORT_UREFS_MAX in Hu. lia.
Qed.

Section names.
Context {env : ipc_env} (s : kstate) (T : right -> Z) (HK : kwf s T) (HT : hand_ok T) (a : Z).

Lemma wf_names_helper ts name o b req ix Q :
  named s a name (o, b, req) -> Q (name, names_type ts (ks_ports s) o b req) s ->
  wp (mach_port_names_helper ts (mk_ipc_entry o b ix req) name) s Q.
Proof.
  intros Hn HQ. pose proof (holding_start s a name T o b req HK Hn) as Hh. pose proof Hh as [HF Hok].
  unfold mach_port_names_helper. cbn [ie_bits ie_object ie_request]. apply wp_bind. unfold names_type in HQ.
  destruct (has b MACH_PORT_TYPE_PORT_RIGHTS) eqn:Hb.
  - destruct (holding_port _ _ _ _ _ _ _ _ _ _ _ (proj1 HT) Hh Hb) as [p Hp]. rewrite Hp in HQ.
    pose proof (po_valid _ _ (oo_ports _ (kw_objects _ _ HK) _ _ Hp)) as Hv.
    assert (Hreq : forall R, R (request_bits p req) s ->
      wp (if negb (req =? IE_REQ_NONE) then ipc_port_request_type o name req else mret 0) s R)
      by (intros R HR; by eapply wf_request_bits).
    destruct (has b MACH_PORT_TYPE_RECEIVE) eqn:Hr.
    + destruct (holding_receive _ _ _ _ eq_refl _ _ _ _ _ _ _ p (proj1 HT) Hh Hr Hp) as (Ha & _). rewrite Ha in HQ.
      wp_step. wp_step; [done|]. apply wp_bind. eapply (wp_mono _ _ (fun x t => x = request_bits p req /\ t = s)).
      { intros x t [-> ->]. wp_step. wp_step. exact HQ. }
      specialize (Hreq (fun x t => x = request_bits p req /\ t = s) (conj eq_refl eq_refl)).
      destruct (negb (req =? IE_REQ_NONE)); [|exact Hreq]. apply wp_bind, (wp_ip_get o p); [done|].
      wp_step. by wp_step.
    + assert (Hs : has b MACH_PORT_TYPE_SEND_RIGHTS = true /\ IE_BITS_UREFS b < MACH_PORT_UREFS_MAX).
      { rewrite has_type in Hb, Hr |- * by done.
        destruct (entry_ok_inv _ _ _ Hok) as [(Ht & _ & Hu & _)|[(Ht & _)|[(Ht & _)|[(Ht & _ & Hu & _)|[(Ht & _)|(Ht & _)]]]]];
          rewrite Ht in Hb, Hr |- *; try done; (split; [done|unfold MACH_PORT_UREFS_MAX in *; lia]). }
      destruct Hs as [Hs Hu]. rewrite Hs. wp_step. wp_step; [done|]. apply wp_bind, (wp_ip_get o p); [done|].
      apply wp_bind, Hreq. destruct (_ || _); [by wp_step; wp_step|]. wp_step. wp_step.
      rewrite Z.lor_0_l. destruct (negb (request_bits p req =? 0)); [rewrite TYPE_u32, TYPE_dead by (done || lia); done|].
      rewrite <- (Z.add_0_r (Z.lor _ _)), TYPE_dead by (done || lia). done.
  - assert (Hno : forall m, Z.land m MACH_PORT_TYPE_PORT_RIGHTS = m -> has b m = false).
    { intros m Hm. destruct (has b m) eqn:Hm'; [|done]. by rewrite (has_sub b m _ Hm Hm') in Hb. }
    rewrite !Hno by done. wp_step. wp_step. rewrite Z.lor_0_l. by destruct (ks_ports s !! o).
Qed.

(** The entries from index [k] on, and what the loop makes of them *)
Lemma wf_names_loop ts table k Q :
  (forall j e, table !! j = Some e -> IE_BITS_TYPE (ie_bits e) <> MACH_PORT_TYPE_NONE ->
    let name := MACH_PORT_MAKE (k + Z.of_nat j) (IE_BITS_GEN (ie_bits e)) in
    named s a name (core e) /\ MACH_PORT_INDEX name = k + Z.of_nat j) ->
  (forall l, NoDup l.*1 ->
    (forall x, x ∈ l <-> exists j e, table !! j = Some e /\ IE_BITS_TYPE (ie_bits e) <> MACH_PORT_TYPE_NONE /\
      x = (MACH_PORT_MAKE (k + Z.of_nat j) (IE_BITS_GEN (ie_bits e)),
           names_type ts (ks_ports s) (ie_object e) (ie_bits e) (ie_request e))) -> Q l s) ->
  wp (names_loop ts table k) s Q.
Proof.
  revert k Q. induction table as [|e table IH]; intros k Q Hn HQ; cbn [names_loop].
  { apply wp_ret, HQ; [constructor|]. intros x. split; [by intros ?%elem_of_nil|]. by intros (j & e & ? & _). }
  assert (Hn' : forall j e', table !! j = Some e' -> IE_BITS_TYPE (ie_bits e') <> MACH_PORT_TYPE_NONE ->
    let name := MACH_PORT_MAKE (k + 1 + Z.of_nat j) (IE_BITS_GEN (ie_bits e')) in
    named s a name (core e') /\ MACH_PORT_INDEX name = k + 1 + Z.of_nat j).
  { intros j e' He' Ht. replace (k + 1 + Z.of_nat j) with (k + Z.of_nat (S j)) by lia. by apply Hn. }
  assert (Hstep : forall x, (exists j e', (e :: table) !! j = Some e' /\ IE_BITS_TYPE (ie_bits e') <> MACH_PORT_TYPE_NONE /\
      x = (MACH_PORT_MAKE (k + Z.of_nat j) (IE_BITS_GEN (ie_bits e')),
           names_type ts (ks_ports s) (ie_object e') (ie_bits e') (ie_request e'))) <->
    (IE_BITS_TYPE (ie_bits e) <> MACH_PORT_TYPE_NONE /\
      x = (MACH_PORT_MAKE k (IE_BITS_GEN (ie_bits e)), names_type ts (ks_ports s) (ie_object e) (ie_bits e) (ie_request e))) \/
    (exists j e', table !! j = Some e' /\ IE_BITS_TYPE (ie_bits e') <> MACH_PORT_TYPE_NONE /\
      x = (MACH_PORT_MAKE (k + 1 + Z.of_nat j) (IE_BITS_GEN (ie_bits e')),
           names_type ts (ks_ports s) (ie_object e') (ie_bits e') (ie_request e')))).
  { intros x. split.
    - intros ([|j] & e' & He' & Ht & ->); [left|right].
      + simpl in He'. simplify_eq. by rewrite Z.add_0_r.
      + exists j, e'. split_and!; [done..|]. by replace (k + 1 + Z.of_nat j) with (k + Z.of_nat (S j)) by lia.
    - intros [[Ht ->]|(j & e' & He' & Ht & ->)].
      + exists 0%nat, e. by rewrite Z.add_0_r.
      + exists (S j), e'. split_and!; [done..|]. by replace (k + 1 + Z.of_nat j) with (k + Z.of_nat (S j)) by lia. }
  destruct (Z.eqb_spec (IE_BITS_TYPE (ie_bits e)) MACH_PORT_TYPE_NONE) as [Ht|Ht]; cbn [negb].
  - apply IH; [done|]. intros l Hd Hl. apply HQ; [done|]. intros x. rewrite Hstep, Hl. naive_solver.
  - apply wp_bind. destruct (Hn 0%nat e eq_refl Ht) as [Hnm Hix]. rewrite Z.add_0_r in Hnm, Hix.
    destruct e as [o b ix req]. eapply wf_names_helper; [exact Hnm|]. apply wp_bind, IH; [done|].
    intros l Hd Hl. wp_step. apply HQ.
    { rewrite fmap_cons. constructor; [|done]. intros ([n ty] & Heq & (j & e' & He' & Ht' & Hx)%Hl)%list_elem_of_fmap.
      injection Hx as -> ->. destruct (Hn' j e' He' Ht') as [_ Hj]. cbn [fst ie_bits] in Heq, Hix. rewrite Heq in Hix. lia. }
    intros x. rewrite elem_of_cons, Hstep, Hl. cbn [ie_bits ie_object ie_request]. naive_solver.
Qed.
End names.

(** The answer of [mach_port_names]: the names in use, each once, with their types *)
Definition snapshot (s : kstate) (a : Z) (l : list (Z * Z)) : Prop :=
  NoDup l.*1 /\ forall name type, (name, type) ∈ l <->
    exists o b req, named s a name (o, b, req) /\ type = names_type (ks_timestamp s) (ks_ports s) o b req.

(** Only the clock and the allocator moved. *)
Definition ticked (s s' : kstate) : Prop :=
  ks_ports s' = ks_ports s /\ ks_psets s' = ks_psets s /\ ks_spaces s' = ks_spaces s /\ ks_kmsgs s' = ks_kmsgs s /\
  same_thread s s' /\ ks_log s' = ks_log s.

Section snapshots.
Context {env : ipc_env}.

Lemma kwf_ticked s s' T : kwf s T -> ticked s s' -> kwf s' T.
Proof. intros HK (H1 & H2 & H3 & H4 & [H5 _] & H6). by eapply kwf_same. Qed.

Lemma wf_names_memory n s Q :
  (forall s' ok, ticked s s' -> ks_timestamp s' = ks_timestamp s ->
    (ok = false -> take n (ks_kalloc s) <> repeat true n) -> Q ok s') ->
  wp (names_memory n) s Q.
Proof.
  revert s. induction n as [|n IH]; intros s HQ; cbn [names_memory]; [by wp_step; apply HQ|].
  unfold pop_kalloc. do 2 apply wp_bind. apply wp_get. destruct (ks_kalloc s) as [|[] l] eqn:Hl.
  - wp_step. wp_step. by apply HQ.
  - wp_step. wp_step. wp_step. apply IH. intros s' ok Ht Hs Hok. apply HQ; [done|done|].
    intros Hf. specialize (Hok Hf). simpl in *. congruence.
  - wp_step. wp_step. wp_step. wp_step. by apply HQ.
Qed.

Lemma named_ticked s s' a name c : ticked s s' -> named s a name c <-> named s' a name c.
Proof. intros (_ & _ & H3 & _). unfold named. by rewrite H3. Qed.

Lemma table_names s T a sp :
  kwf s T -> ks_spaces s !! a = Some sp -> is_active sp = true ->
  take (Z.to_nat (is_table_size sp)) (is_table sp) = is_table sp /\
  forall j e, is_table sp !! j = Some e -> IE_BITS_TYPE (ie_bits e) <> MACH_PORT_TYPE_NONE ->
    let name := MACH_PORT_MAKE (0 + Z.of_nat j) (IE_BITS_GEN (ie_bits e)) in
    named s a name (core e) /\ MACH_PORT_INDEX name = 0 + Z.of_nat j.
Proof.
  intros HK Ha Hact. destruct (kw_spaces _ _ HK _ _ Ha Hact) as ((H & l & HI) & _).
  pose proof (si_size _ _ _ _ HI) as Hs. unfold tlen in Hs. split; [by rewrite Hs, Nat2Z.id, firstn_all|].
  intros j e Hj Ht. rewrite Z.add_0_l.
  assert (He : entry_at (is_table sp) (Z.of_nat j) = e) by (unfold entry_at; by rewrite Nat2Z.id, Hj).
  destruct (core e) as [[o b] req] eqn:Hc. replace (ie_bits e) with b in * by (unfold core in Hc; congruence).
  apply lookup_lt_Some in Hj.
  destruct (entry_named s T a sp (Z.of_nat j) o b req HK Ha Hact) as (H1 & H2 & _); [unfold tlen; lia|by rewrite He|done|].
  done.
Qed.

Lemma wf_names s T a sp Q :
  kwf s T -> hand_ok T -> ks_spaces s !! a = Some sp -> a <> IS_NULL ->
  (is_active sp = false -> Q (inl KERN_INVALID_TASK) s) ->
  (forall s', is_active sp = true -> ticked s s' -> take 4 (ks_kalloc s) <> [true; true; true; true] ->
    Q (inl KERN_RESOURCE_SHORTAGE) s') ->
  (forall s' l, is_active sp = true -> ticked s s' -> snapshot s a l -> Q (inr l) s') ->
  wp (mach_port_names a) s Q.
Proof.
  intros HK HT Ha Hn Hin Hmem HQ. unfold mach_port_names. rewrite (proj2 (Z.eqb_neq _ _) Hn).
  apply wp_bind. eapply wp_is_get; [done|]. destruct (is_active sp) eqn:Hact; cbn [negb]; [|wp_step; by apply Hin].
  apply wp_bind, wf_names_memory. intros s1 ok Ht1 Hs1 Hok. destruct ok; cbn [negb]; [|wp_step; apply Hmem; auto].
  apply wp_bind. unfold ipc_port_timestamp. do 2 wp_step. wp_step. wp_step. wp_step. apply wp_bind.
  set (s2 := set_ks_timestamp _ s1). assert (Ht : ticked s s2) by exact Ht1.
  assert (HK2 : kwf s2 T) by (by eapply kwf_ticked). pose proof Ht as (HP & _ & HS & _).
  destruct (table_names s2 T a sp HK2) as [-> Hnm]; [by rewrite HS|done|].
  eapply (wf_names_loop s2 T HK2 HT a); [exact Hnm|]. intros l Hd Hl. wp_step. apply HQ; [done|done|].
  split; [done|]. intros name type. rewrite Hl, Hs1, HP. split.
  - intros (j & e & He & Htp & [= -> ->]). exists (ie_object e), (ie_bits e), (ie_request e). split; [|done].
    rewrite (named_ticked s s2) by done. by apply (Hnm j e).
  - intros (o & b & req & (Hw & sp' & Ha' & _ & Hi & Hc & Htp & Hg) & ->). simplify_eq. cbn [fst snd] in Hg.
    destruct (kw_spaces _ _ HK _ _ Ha Hact) as ((H & l' & HI) & _). pose proof (si_size _ _ _ _ HI) as Hs. unfold tlen in Hs.
    destruct (lookup_lt_is_Some_2 (is_table sp) (Z.to_nat (MACH_PORT_INDEX name))) as [e He]; [lia|].
    unfold entry_at in Hc. rewrite He in Hc. cbn [default] in Hc. unfold core in Hc. injection Hc as <- <- <-.
    exists (Z.to_nat (MACH_PORT_INDEX name)), e. split_and!; [done|done|]. rewrite Z2Nat.id, Z.add_0_l by lia.
    f_equal. rewrite Hg. symmetry. by apply MAKE_index_gen.
Qed.
End snapshots.

(** [mach_port_names] gives an accurate snapshot of a space: exactly the names in use, each
    once, with what each stands for, or it refuses because the space is dead or there is no
    memory for the answer.  The kernel is left as it was, but for the clock. *)
Theorem mach_port_names_correct {env : ipc_env} s T a sp :
  kwf s T -> hand_ok T -> ks_spaces s !! a = Some sp -> a <> IS_NULL ->
  wp (mach_port_names a) s (fun r s' => ticked s s' /\
    match r with
    | inl kr => (kr = KERN_INVALID_TASK /\ is_active sp = false) \/
        (kr = KERN_RESOURCE_SHORTAGE /\ take 4 (ks_kalloc s) <> [true; true; true; true])
    | inr l => is_active sp = true /\ snapshot s a l
    end).
Proof.
  intros HK HT Ha Hn. eapply wf_names; [done..| | |].
  - intros Hi. split; [by split_and!|]. by left.
  - intros s' Hact Ht Hk. split; [done|]. by right.
  - done.
Qed.

(** Where [mach_port_names] lists a name with a type, [mach_port_type] on that name answers
    the same type without the two bits of a send-possible request: the second masks them, the
    first does not.  A port that died did so before the call. *)
Theorem mach_port_type_names {env : ipc_env} s T a sp :
  kwf s T -> hand_ok T -> ks_spaces s !! a = Some sp -> a <> IS_NULL ->
  (forall o p, ks_ports s !! o = Some p -> ip_active p = false ->
    IP_TIMESTAMP_ORDER (ks_timestamp s) (ip_timestamp p) = false) ->
  wp (mach_port_names a) s (fun listed s' => forall l name type, listed = inr l -> (name, type) ∈ l ->
    wp (mach_port_type a name) s' (fun r _ =>
      r = inr (clr type (Z.lor MACH_PORT_TYPE_SPREQUEST MACH_PORT_TYPE_SPREQUEST_DELAYED)))).
Proof.
  intros HK HT Ha Hn Hts. eapply wf_names; [done..|by intros|by intros|].
  intros s' ? Hact Ht [_ Hl] l name type [= <-] (o & b & req & Hnm & ->)%Hl.
  pose proof (kwf_ticked _ _ _ HK Ht) as HK'. pose proof Ht as (HP & _ & HS & _).
  apply (named_ticked s s') in Hnm; [|done]. pose proof Hnm as (Hw & _).
  eapply wf_type; [exact HK'|done|by rewrite HS|done|done|by eapply named_valid|..].
  - intros kr [[_ Hi]|(_ & _ & Hc)]; [congruence|by destruct (Hc _ Hnm)].
  - intros o' b' req' s2 Hnm' _ _ _. pose proof (named_fun _ _ _ _ _ Hnm Hnm'). simplify_eq. do 2 f_equal.
    rewrite <- HP. unfold request_found, type_found, names_type. destruct (ks_ports s' !! o') as [p|] eqn:Hp; [|done].
    destruct (has b' MACH_PORT_TYPE_PORT_RIGHTS); [|done]. destruct (ip_active p) eqn:Hact'; [done|].
    rewrite HP in Hp. by rewrite (Hts o' p Hp Hact').
Qed.

(** C37 Any task can panic the kernel: [mach_port_mod_refs] lets [MACH_PORT_RIGHT_LABELH] pass
    as a legal right, and [ipc_right_delta] has no case for it.  For every name in use, and
    every delta, the call ends in [panic]. *)
Theorem mach_port_mod_refs_panics {env : ipc_env} s T a name c delta :
  kwf s T -> a <> IS_NULL -> named s a name c ->
  mach_port_mod_refs a name MACH_PORT_RIGHT_LABELH delta s = Fail FPanic.
Proof.
  intros HK Hn Hnm. pose proof Hnm as (Hw & sp & Ha & Hact & _). unfold mach_port_mod_refs.
  rewrite (proj2 (Z.eqb_neq _ _) Hn), (named_valid _ _ _ _ _ HK Hnm).
  change (MACH_PORT_RIGHT_NUMBER <=? MACH_PORT_RIGHT_LABELH) with false. cbn [negb].
  assert (Hl : ipc_right_lookup_write a name s = Ok (inr (MACH_PORT_INDEX name), s)).
  { cut (wp (ipc_right_lookup_write a name) s (fun r s' => r = inr (MACH_PORT_INDEX name) /\ s' = s)).
    { intros (r & s' & -> & -> & ->)%wp_inv. done. }
    eapply wf_lookup_write; [exact HK|exact Ha|exact Hn|exact Hw|congruence| |done]. intros Hc _. by destruct (Hc c). }
  unfold mbind, M_bind. rewrite Hl. unfold ipc_right_delta, mbind, M_bind, is_get. rewrite Ha. simpl. by rewrite Hact.
Qed.

(** C38 A guard leaves a broken space behind: [mach_port_destroy] on the receive right of a
    port guarded with anything but 0 is refused, but [ipc_right_destroy] has erased the type of
    the entry before it looks at the guard.  The entry keeps its object and is on no free list:
    the space is out of shape, whatever rights are thought to be in hand. *)
Theorem mach_port_destroy_guarded {env : ipc_env} s T a name o p :
  kwf s T -> hand_ok T -> a <> IS_NULL -> receives s a name o p -> ip_guarded p = true -> ip_context p <> 0 ->
  wp (mach_port_destroy a name) s (fun kr s' =>
    kr = KERN_INVALID_RIGHT /\ (exists b, entry_is s' a (MACH_PORT_INDEX name) o b /\ IE_BITS_TYPE b = MACH_PORT_TYPE_NONE) /\
    forall T', ~ kwf s' T').
Proof.
  intros HK [HT _] Hn [(b & req & Hnm & Hb) Ho _ _ _] Hg Hc. pose proof Hnm as (Hw & sp & Ha & Hact & _).
  unfold mach_port_destroy. rewrite (proj2 (Z.eqb_neq _ _) Hn), (named_valid _ _ _ _ _ HK Hnm). cbn [negb].
  apply wp_bind. eapply wf_lookup_write; [exact HK|exact Ha|exact Hn|exact Hw|congruence| |].
  { intros Hno _. by destruct (Hno _ Hnm). }
  intros c _. eapply wf_destroy_guarded; [done|exact HT|by apply holding_start|done|done|done|done|].
  intros s' He Hk. split_and!; [done| |exact Hk]. eexists. split; [exact He|]. rewrite IE_BITS_TYPE_clr. apply clr_type_all.
Qed.

(** ** Witnesses, on the sample kernel *)
Module MachExample.
Import Sample.

Definition port3 : ipc_port := sample_port true 1 0x1000 0x504 None 0 0.

Lemma sample_receives : receives sample 0x1000 0x504 0x300 port3.
Proof.
  split; [|by vm_compute..]. exists 0x04020000, 0. split; [|done]. split; [done|]. exists space1. by vm_compute.
Qed.

Lemma mach_port_guard_unguard_witness :
  (_ ← mach_port_guard 0x1000 0x504 7 true; mach_port_unguard 0x1000 0x504 7) sample = Ok (inr tt, sample).
Proof.
  exact (mach_port_guard_unguard sample (hand []) 0x1000 0x504 0x300 port3 7 true sample_kwf empty_hand
    ltac:(done) sample_receives eq_refl eq_refl eq_refl).
Defined.

Lemma mach_port_strict_guard_witness :
  exists s', mach_port_guard 0x1000 0x504 7 true sample = Ok (inr tt, s') /\
    mach_port_get_context 0x1000 0x504 s' = Ok (inr 0, s').
Proof.
  destruct (wp_inv _ _ _ (mach_port_strict_guard sample (hand []) 0x1000 0x504 0x300 port3 7 sample_kwf empty_hand
    ltac:(done) sample_receives eq_refl)) as (r & s' & Hrun & -> & _ & Hc & _).
  exists s'. split; [exact Hrun|exact Hc].
Defined.

(** Port 0x300, guarded with 0 *)
Definition guarded0 : kstate := put_port sample 0x300 (guarded 0 true port3).
Lemma guarded0_kwf : kwf guarded0 (hand []).
Proof. eapply (kwf_touch sample _ 0x1000 0x504 0x300 port3); [apply sample_kwf|apply sample_receives|eauto with touch]. Qed.
Lemma guarded0_receives : receives guarded0 0x1000 0x504 0x300 (guarded 0 true port3).
Proof. apply (receives_put _ _ _ _ port3); [apply sample_receives|eauto with touch]. Qed.

Lemma mach_port_guard_zero_witness :
  exists s', mach_port_guard 0x1000 0x504 7 false guarded0 = Ok (inr tt, s').
Proof.
  eexists. exact (mach_port_guard_zero guarded0 (hand []) 0x1000 0x504 0x300 (guarded 0 true port3) 7 false guarded0_kwf
    empty_hand ltac:(done) guarded0_receives eq_refl eq_refl).
Defined.

(** Port 0x300, guarded with 7 *)
Definition guarded7 : kstate := put_port sample 0x300 (guarded 7 false port3).
Lemma guarded7_kwf : kwf guarded7 (hand []).
Proof. eapply (kwf_touch sample _ 0x1000 0x504 0x300 port3); [apply sample_kwf|apply sample_receives|eauto with touch]. Qed.
Lemma guarded7_receives : receives guarded7 0x1000 0x504 0x300 (guarded 7 false port3).
Proof. apply (receives_put _ _ _ _ port3); [apply sample_receives|eauto with touch]. Qed.

Lemma mach_port_destroy_guarded_witness :
  exists s', mach_port_destroy 0x1000 0x504 guarded7 = Ok (KERN_INVALID_RIGHT, s') /\ ~ kwf s' (hand []).
Proof.
  destruct (wp_inv _ _ _ (mach_port_destroy_guarded guarded7 (hand []) 0x1000 0x504 0x300 (guarded 7 false port3) guarded7_kwf
    empty_hand ltac:(done) guarded7_receives eq_refl ltac:(done))) as (kr & s' & Hrun & -> & _ & Hno).
  exists s'. split; [exact Hrun|apply Hno].
Defined.

(** A queue with eight messages whose limit was lowered from eight to five *)
Definition full_port : ipc_port :=
  set_ip_messages (mk_ipc_mqueue [] 0 0x504 8 5 true [] [] [0x77; 0x78]) port3.


Lemma mach_port_get_refs_witness :
  exists s', mach_port_get_refs 0x1000 0x204 MACH_PORT_RIGHT_SEND sample = Ok (inr 2, s') /\ kwf s' (hand []).
Proof.
  destruct (wp_inv _ _ _ (mach_port_get_refs_correct sample (hand []) 0x1000 space1 0x204 MACH_PORT_RIGHT_SEND
    sample_kwf empty_hand eq_refl ltac:(done) ltac:(done) ltac:(done) eq_refl)) as (r & s' & Hrun & HK & _).
  exists s'. split; [|exact HK]. rewrite Hrun. revert Hrun. vm_compute. by intros [= <- _].
Defined.

Definition roomy : kstate := set_ks_kalloc [true; true; true; true] sample.
Lemma roomy_kwf : kwf roomy (hand []).
Proof. by eapply kwf_same; [apply sample_kwf|..]. Qed.

Lemma mach_port_names_witness :
  exists s', mach_port_names 0x1000 roomy = Ok (inr
      [(0x104, MACH_PORT_TYPE_SEND_RECEIVE); (0x204, Z.lor MACH_PORT_TYPE_DNREQUEST MACH_PORT_TYPE_SEND);
       (0x304, MACH_PORT_TYPE_SEND_ONCE); (0x404, MACH_PORT_TYPE_DEAD_NAME); (0x504, MACH_PORT_TYPE_RECEIVE);
       (0x604, MACH_PORT_TYPE_DEAD_NAME); (0x704, MACH_PORT_TYPE_PORT_SET)], s') /\ ticked roomy s'.
Proof.
  destruct (wp_inv _ _ _ (mach_port_names_correct roomy (hand []) 0x1000 space1
    roomy_kwf empty_hand eq_refl ltac:(done))) as (r & s' & Hrun & Ht & _).
  exists s'. split; [|exact Ht]. rewrite Hrun. revert Hrun. vm_compute. by intros [= <- _].
Defined.

Lemma roomy_dead o p :
  ks_ports roomy !! o = Some p -> ip_active p = false -> IP_TIMESTAMP_ORDER (ks_timestamp roomy) (ip_timestamp p) = false.
Proof.
  intros Hp. change (ks_ports roomy) with (ks_ports sample) in Hp. unfold sample in Hp. cbn [ks_ports] in Hp.
  repeat (apply lookup_insert_Some in Hp as [[<- <-]|[_ Hp]]; [by vm_compute|]).
  apply lookup_singleton_Some in Hp as [<- <-]. by vm_compute.
Qed.

Lemma mach_port_type_names_witness :
  exists l s', mach_port_names 0x1000 roomy = Ok (inr l, s') /\
    (0x204, Z.lor MACH_PORT_TYPE_DNREQUEST MACH_PORT_TYPE_SEND) ∈ l /\
    exists s2, mach_port_type 0x1000 0x204 s' = Ok (inr (Z.lor MACH_PORT_TYPE_DNREQUEST MACH_PORT_TYPE_SEND), s2).
Proof.
  destruct (wp_inv _ _ _ (mach_port_type_names roomy (hand []) 0x1000 space1 roomy_kwf empty_hand eq_refl ltac:(done) roomy_dead))
    as (r & s' & Hrun & Hr).
  destruct r as [kr|l]; [by vm_compute in Hrun|]. exists l, s'.
  assert (Hin : (0x204, Z.lor MACH_PORT_TYPE_DNREQUEST MACH_PORT_TYPE_SEND) ∈ l).
  { revert Hrun. vm_compute. intros [= <- _]. right. left. }
  destruct (wp_inv _ _ _ (Hr l _ _ eq_refl Hin)) as (r2 & s2 & Hrun2 & ->).
  split; [exact Hrun|split; [exact Hin|]]. exists s2. exact Hrun2.
Defined.

Lemma mach_port_mod_refs_panics_witness :
  mach_port_mod_refs 0x1000 0x204 MACH_PORT_RIGHT_LABELH 0 sample = Fail FPanic.
Proof.
  exact (mach_port_mod_refs_panics sample (hand []) 0x1000 0x204 (0x200, 0x04010002, 1) 0 sample_kwf ltac:(done)
    ltac:(split; [done|]; exists space1; by vm_compute)).
Defined.
End MachExample.
