(* ===== verification/IpcAge.v ===== *)
(** * Dead ports stay dead

    No operation on names or rights brings a dead port back to life, and none makes a port but
    the allocators.  Like IpcGentle.v this goes through the programs themselves, whatever
    state they are run in. *)

From S2P Require Import IpcTypes IpcBits IpcHash IpcEntry IpcGrow IpcState IpcLedger IpcPort IpcRequest IpcDestroy IpcRight IpcObject MachPort IpcKmsg IpcGentle IpcBodyOk.

(** A port that is there afterwards was there before, and alive before if it is now. *)
Definition older (P P' : gmap Z ipc_port) : Prop :=
  forall o p', P' !! o = Some p' -> exists p, P !! o = Some p /\ (ip_active p' = true -> ip_active p = true).

#[global] Instance older_refl : Reflexive older.
Proof. intros P o p Ho. by exists p. Qed.

#[global] Instance older_trans : Transitive older.
Proof.
  intros P1 P2 P3 H1 H2 o p3 H. destruct (H2 o p3 H) as (p2 & Hp2 & Ha2). destruct (H1 o p2 Hp2) as (p1 & Hp1 & Ha1).
  exists p1. auto.
Qed.

Lemma older_insert P o p p' : P !! o = Some p -> (ip_active p' = true -> ip_active p = true) -> older P (<[o := p']> P).
Proof.
  intros Ho Ha x q. rewrite lookup_insert. destruct (decide (o = x)) as [<-|]; [intros [= <-]; by exists p|]. intros Hx. by exists q.
Qed.

Definition aging {A} (m : K A) : Prop := forall s a s', m s = Ok (a, s') -> older (ks_ports s) (ks_ports s').

Lemma aging_portless {A} (m : K A) : portless m -> aging m.
Proof. intros H s a s' Hm. by rewrite (H s a s' Hm). Qed.

Lemma aging_gentle {A} n (m : K A) : gentle n m -> aging m.
Proof. intros H s a s' Hm o p' Ho. destruct (H s a s' Hm o p' Ho) as (p & Hp & []). by exists p. Qed.

Lemma aging_bind {A B} (m : K A) (f : A -> K B) : aging m -> (forall a, aging (f a)) -> aging (m ≫= f).
Proof. intros Hm Hf s b s' (a & s1 & H1 & H2)%bind_Ok. etrans; [by eapply Hm|by eapply Hf]. Qed.

Lemma aging_mwhen b (m : K unit) : aging m -> aging (mwhen b m).
Proof. destruct b; [done|]. intros _. apply aging_portless, portless_ret. Qed.

Lemma aging_ip_mod o f : (forall p, ip_active (f p) = true -> ip_active p = true) -> aging (ip_mod o f).
Proof.
  intros Hf s a s' (p & s1 & H1 & H2)%bind_Ok. unfold ip_get in H1. destruct (ks_ports s !! o) as [q|] eqn:Ho; [|done].
  injection H1 as <- <-. injection H2 as <- <-. eapply older_insert; [done|apply Hf].
Qed.

(** Go through a program. *)
Ltac aging :=
  cbv zeta;
  lazymatch goal with
  | |- aging (_ ≫= _) => apply aging_bind; [aging|intros ?; aging]
  | |- aging (mwhen _ _) => apply aging_mwhen; aging
  | |- aging (match ?x with _ => _ end) => destruct x; aging
  | |- aging (ip_mod _ _) => apply aging_ip_mod; done
  | |- _ => first [ solve [auto with aging]
                  | apply aging_portless; solve [portless]
                  | eapply aging_gentle; solve [eauto with gentle]
                  | progress autounfold with gentle; aging ]
  end.

Create HintDb aging.

Section operations.
Context {env : ipc_env}.
Hint Resolve gentle_release_send gentle_release_sonce gentle_destroy gentle_request_cancel gentle_right_check
  gentle_clear_receiver gentle_right_copyin gentle_object_copyin gentle_importance_delta gentle_impcount : gentle.

Lemma aging_pset_destroy o : aging (ipc_pset_destroy o).
Proof.
  assert (H : aging (ipc_mqueue_remove_all o)).
  { intros s a s' [= <- <-] x q. simpl. rewrite lookup_fmap. destruct (ks_ports s !! x) as [p|]; [|done]. intros [= <-]. by exists p. }
  unfold ipc_pset_destroy, ips_put. aging.
Qed.

Lemma aging_drop_sright o : aging (drop_sright o).
Proof. unfold drop_sright. aging. Qed.
Hint Resolve aging_pset_destroy aging_drop_sright : aging.

Lemma aging_release_right a o type : aging (release_right a o type).
Proof. unfold release_right. aging. Qed.
Hint Resolve aging_release_right : aging.

Lemma aging_right_destroy a name i check guard : aging (ipc_right_destroy a name i check guard).
Proof. unfold ipc_right_destroy. aging. Qed.
Lemma aging_right_dealloc a name i : aging (ipc_right_dealloc a name i).
Proof. unfold ipc_right_dealloc, dealloc_dead_name. aging. Qed.
Lemma aging_lose_receive a o name i : aging (lose_receive a o name i).
Proof. unfold lose_receive. aging. Qed.
Hint Resolve aging_right_destroy aging_right_dealloc aging_lose_receive : aging.

Lemma aging_right_delta a name i right delta : aging (ipc_right_delta a name i right delta).
Proof. unfold ipc_right_delta, delta_port_set, delta_receive, delta_send_once, delta_dead_name, delta_send. aging. Qed.
Lemma aging_right_destruct a name i srdelta guard : aging (ipc_right_destruct a name i srdelta guard).
Proof. unfold ipc_right_destruct. aging. Qed.
Lemma aging_right_info a name i : aging (ipc_right_info a name i).
Proof. unfold ipc_right_info, ipc_port_request_type. aging. Qed.
Lemma aging_right_copyout a name i msgt overflow o : aging (ipc_right_copyout a name i msgt overflow o).
Proof. unfold ipc_right_copyout, copyout_send_once, copyout_send, copyout_receive, ipc_port_impcount_delta. aging. Qed.
Hint Resolve aging_right_delta aging_right_destruct aging_right_info aging_right_copyout : aging.
Hint Resolve portless_right_reverse portless_grow : gentle.

Lemma aging_object_copyout a o msgt overflow : aging (ipc_object_copyout a o msgt overflow).
Proof. unfold ipc_object_copyout, copyout_loop, copyout_turn. aging. Qed.

Lemma portless_names_loop ts table : forall i, portless (names_loop ts table i).
Proof. induction table as [|e table IH]; intros i; simpl; unfold mach_port_names_helper, ipc_port_request_type; portless. Qed.
Hint Resolve portless_names_loop : gentle.

Lemma aging_names a : aging (mach_port_names a).
Proof. unfold mach_port_names, names_memory, pop_kalloc. aging. Qed.

(** *** Calls on a name, and on a receive right *)
Lemma aging_destroy a name : aging (mach_port_destroy a name).
Proof. unfold mach_port_destroy. aging. Qed.
Lemma aging_destruct a name srdelta guard : aging (mach_port_destruct a name srdelta guard).
Proof. unfold mach_port_destruct. aging. Qed.
Lemma aging_deallocate a name : aging (mach_port_deallocate a name).
Proof. unfold mach_port_deallocate. aging. Qed.
Lemma aging_mod_refs a name right delta : aging (mach_port_mod_refs a name right delta).
Proof. unfold mach_port_mod_refs. aging. Qed.
Lemma aging_get_refs a name right : aging (mach_port_get_refs a name right).
Proof. unfold mach_port_get_refs, get_refs_right. aging. Qed.
Lemma aging_type a name : aging (mach_port_type a name).
Proof. unfold mach_port_type. aging. Qed.
Lemma aging_extract a name msgt : aging (mach_port_extract_right a name msgt).
Proof. unfold mach_port_extract_right. aging. Qed.

Lemma aging_with_receive {A} a name (body : Z -> K (kern_return_t + A)) : (forall o, aging (body o)) -> aging (with_receive a name body).
Proof. intros H. unfold with_receive, ipc_port_translate_receive, ipc_object_translate. aging. Qed.

Lemma aging_wake_senders n o : aging (wake_senders n o).
Proof.
  induction n as [|n IH]; cbn [wake_senders]; [aging|]. intros s a s' (p & s1 & H1 & H2)%bind_Ok. unfold ip_get in H1.
  destruct (ks_ports s !! o) as [q|] eqn:Ho; [|done]. injection H1 as <- <-. cbv zeta in H2.
  destruct (imq_senders (ip_messages q)) as [|th l]; [injection H2 as <- <-; by eapply older_insert|].
  apply bind_Ok in H2 as ([] & s2 & H2 & H3). injection H2 as <-. apply bind_Ok in H3 as ([] & s3 & H3 & H4).
  apply portless_log in H3. apply IH in H4. rewrite H3 in H4. etrans; [|exact H4]. by eapply older_insert.
Qed.

Lemma aging_set_qlimit o qlimit : aging (ipc_mqueue_set_qlimit o qlimit).
Proof. pose proof aging_wake_senders. unfold ipc_mqueue_set_qlimit. aging. Qed.
Hint Resolve aging_set_qlimit aging_with_receive : aging.

Ltac receiving := repeat (case_match; [solve [aging]|]); apply aging_with_receive; intros ?; aging.

Lemma aging_set_mscount a name v : aging (mach_port_set_mscount a name v).
Proof. unfold mach_port_set_mscount, ipc_port_set_mscount. receiving. Qed.
Lemma aging_set_seqno a name v : aging (mach_port_set_seqno a name v).
Proof. unfold mach_port_set_seqno, ipc_mqueue_set_seqno. receiving. Qed.
Lemma aging_get_context a name : aging (mach_port_get_context a name).
Proof. unfold mach_port_get_context. receiving. Qed.
Lemma aging_set_context a name v : aging (mach_port_set_context a name v).
Proof. unfold mach_port_set_context. receiving. Qed.
Lemma aging_guard a name g strict : aging (mach_port_guard a name g strict).
Proof. unfold mach_port_guard, mach_port_guard_locked. receiving. Qed.
Lemma aging_unguard a name g : aging (mach_port_unguard a name g).
Proof. unfold mach_port_unguard, mach_port_unguard_locked. receiving. Qed.

Lemma aging_set_attributes a name flavor info count :
  flavor <> MACH_PORT_DNREQUESTS_SIZE -> flavor <> MACH_PORT_TEMPOWNER -> aging (mach_port_set_attributes a name flavor info count).
Proof.
  intros H1 H2. unfold mach_port_set_attributes. rewrite (proj2 (Z.eqb_neq _ _) H1), (proj2 (Z.eqb_neq _ _) H2).
  destruct (a =? IS_NULL); [aging|]. destruct (flavor =? MACH_PORT_LIMITS_INFO); [receiving|].
  destruct (_ || _); [receiving|aging].
Qed.

Lemma aging_request a name id sync notify :
  id <> MACH_NOTIFY_SEND_POSSIBLE -> id <> MACH_NOTIFY_DEAD_NAME -> aging (mach_port_request_notification a name id sync notify).
Proof.
  intros H1 H2. unfold mach_port_request_notification. rewrite (proj2 (Z.eqb_neq _ _) H1), (proj2 (Z.eqb_neq _ _) H2). cbn [orb].
  do 2 (case_match; [aging|]). destruct (id =? MACH_NOTIFY_PORT_DESTROYED); [unfold ipc_port_pdrequest; receiving|].
  destruct (id =? MACH_NOTIFY_NO_SENDERS); [unfold ipc_port_nsrequest; receiving|aging].
Qed.

(** *** Naked rights *)
Lemma aging_make_send o : aging (ipc_port_make_send o).
Proof. unfold ipc_port_make_send. aging. Qed.
Lemma aging_copy_send o : aging (ipc_port_copy_send o).
Proof. unfold ipc_port_copy_send. aging. Qed.
Lemma aging_make_sonce o : aging (ipc_port_make_sonce o).
Proof. unfold ipc_port_make_sonce. aging. Qed.
Lemma aging_release_send o : aging (ipc_port_release_send o).
Proof. aging. Qed.
Lemma aging_release_sonce o : aging (ipc_port_release_sonce o).
Proof. aging. Qed.
End operations.

#[export] Hint Resolve aging_object_copyout aging_names aging_destroy aging_destruct aging_deallocate aging_mod_refs aging_get_refs
  aging_type aging_extract aging_set_mscount aging_set_seqno aging_get_context aging_set_context aging_guard aging_unguard
  aging_set_attributes aging_request aging_make_send aging_copy_send aging_make_sonce aging_release_send aging_release_sonce : aging.
