(* ===== verification/IpcSystem.v ===== *)
(** * The system: calls in any order

    The kernel as a transition system.  A state is a kernel state, the rights in the hands of
    the rest of the kernel, and the references that [ipc_right_delta] forgot to release, which
    nobody has; a step is one call, made with the arguments its callers owe it.  The invariant
    of IpcFocus.v holds in every state that can be reached from an empty kernel, and in each
    of them every call that may be made runs to its end without a fault. *)

From S2P Require Import IpcTypes IpcBits IpcTable IpcHash IpcEntry IpcGrow IpcState IpcLedger IpcPort IpcRequest IpcDestroy IpcRight IpcObject IpcSpace MachPort IpcGentle IpcFocus IpcSample IpcRightOk IpcDeltaOk IpcPortOk IpcPsetOk IpcCopyOk IpcDesk IpcDestroyOk IpcAllocOk IpcReceiveOk IpcCopyoutOk IpcBirthOk MachPortOk IpcAge.

Record system := mk_system {
  sys_kernel : kstate;
  sys_hand : right -> Z;
  sys_leaked : list Z;  (** a port for each forgotten reference *)
}.

(** The calls: those of tasks on their own space, the transfer of rights into a space, and
    those of the kernel on naked rights. *)
Inductive call :=
  | SpaceCreate (initial : Z)
  | PortAllocSpecial
  | Allocate (space right : Z)
  | Destroy (space name : Z)
  | Destruct (space name srdelta guard : Z)
  | Deallocate (space name : Z)
  | ModRefs (space name right delta : Z)
  | GetRefs (space name right : Z)
  | TypeOf (space name : Z)
  | Names (space : Z)
  | ExtractRight (space name msgt_name : Z)
  | Copyout (space object msgt_name : Z) (overflow : bool)
  | RequestNotification (space name id sync notify : Z)
  | SetMscount (space name mscount : Z)
  | SetSeqno (space name seqno : Z)
  | GetContext (space name : Z)
  | SetContext (space name context : Z)
  | Guard (space name guard : Z) (strict : bool)
  | Unguard (space name guard : Z)
  | SetAttributes (space name flavor info count : Z)
  | MakeSend (port : Z)
  | CopySend (port : Z)
  | ReleaseSend (port : Z)
  | MakeSonce (port : Z)
  | ReleaseSonce (port : Z).

(** What a call answers: an error, or a name, an object or a number *)
Definition answer : Type := kern_return_t + Z.

Definition of_kr (kr : kern_return_t) : answer := if decide (kr = KERN_SUCCESS) then inr 0 else inl kr.
Definition of_unit (r : kern_return_t + unit) : answer := match r with inl kr => inl kr | inr _ => inr 0 end.
Definition of_first {A} (f : A -> Z) (r : kern_return_t + A) : answer :=
  match r with inl kr => inl kr | inr x => inr (f x) end.

Section system.
Context {env : ipc_env}.

Definition exec (c : call) : K answer :=
  match c with
  | SpaceCreate initial => ipc_space_create initial
  | PortAllocSpecial => o ← ipc_port_alloc_special ipc_space_kernel; mret (inr o)
  | Allocate space right => mach_port_allocate space right
  | Destroy space name => kr ← mach_port_destroy space name; mret (of_kr kr)
  | Destruct space name srdelta guard => kr ← mach_port_destruct space name srdelta guard; mret (of_kr kr)
  | Deallocate space name => kr ← mach_port_deallocate space name; mret (of_kr kr)
  | ModRefs space name right delta => kr ← mach_port_mod_refs space name right delta; mret (of_kr kr)
  | GetRefs space name right => mach_port_get_refs space name right
  | TypeOf space name => mach_port_type space name
  | Names space => r ← mach_port_names space; mret (of_first (fun l => Z.of_nat (length l)) r)
  | ExtractRight space name msgt_name => r ← mach_port_extract_right space name msgt_name; mret (of_first fst r)
  | Copyout space object msgt_name overflow => ipc_object_copyout space object msgt_name overflow
  | RequestNotification space name id sync notify => mach_port_request_notification space name id sync notify
  | SetMscount space name mscount => r ← mach_port_set_mscount space name mscount; mret (of_unit r)
  | SetSeqno space name seqno => r ← mach_port_set_seqno space name seqno; mret (of_unit r)
  | GetContext space name => mach_port_get_context space name
  | SetContext space name context => r ← mach_port_set_context space name context; mret (of_unit r)
  | Guard space name guard strict => r ← mach_port_guard space name guard strict; mret (of_unit r)
  | Unguard space name guard => r ← mach_port_unguard space name guard; mret (of_unit r)
  | SetAttributes space name flavor info count =>
      r ← mach_port_set_attributes space name flavor info count; mret (of_unit r)
  | MakeSend port => o ← ipc_port_make_send port; mret (inr o)
  | CopySend port => o ← ipc_port_copy_send port; mret (inr o)
  | ReleaseSend port => _ ← ipc_port_release_send port; mret (inr 0)
  | MakeSonce port => o ← ipc_port_make_sonce port; mret (inr o)
  | ReleaseSonce port => _ ← ipc_port_release_sonce port; mret (inr 0)
  end.

(** The rights the caller hands over *)
Definition used (c : call) : list right :=
  match c with
  | Copyout _ object msgt_name _ => disposition_rights msgt_name object
  | RequestNotification _ _ _ _ notify => when (IP_VALID notify) [RSonce notify; RRef notify]
  | ReleaseSend port => [RSend port; RRef port]
  | ReleaseSonce port => [RSonce port; RRef port]
  | _ => []
  end.

Definition dead_port (s : kstate) (o : Z) : bool :=
  match ks_ports s !! o with Some p => negb (ip_active p) | None => false end.

(** The reference [ipc_right_delta] forgets: see [ipc_right_delta_leaks].  The name stood for a
    send or send-once right to a dead port. *)
Definition forgotten (s : kstate) (c : call) (r : answer) : list Z :=
  match c, r with
  | ModRefs space name right _, inl kr =>
    match ks_spaces s !! space with
    | Some sp =>
      let '(o, b, req) := core (entry_at (is_table sp) (MACH_PORT_INDEX name)) in
      if (right =? MACH_PORT_RIGHT_DEAD_NAME) && bool_decide (kr = KERN_INVALID_VALUE \/ kr = KERN_UREFS_OVERFLOW)
         && has b MACH_PORT_TYPE_SEND_RIGHTS && dead_port s o
      then [o] else []
    | None => []
    end
  | _, _ => []
  end.

(** The rights the caller has got *)
Definition gained (c : call) (r : answer) : list right :=
  match c, r with
  | PortAllocSpecial, inr o => when (IP_VALID o) [RRef o; RLive o; RHome o ipc_space_kernel 1]
  | ExtractRight _ _ msgt_name, inr object => disposition_rights (ipc_object_copyin_type msgt_name) object
  | Copyout _ object msgt_name _, inl _ => disposition_rights msgt_name object
  | RequestNotification _ _ _ _ notify, inl _ => when (IP_VALID notify) [RSonce notify; RRef notify]
  | RequestNotification _ _ _ _ _, inr previous => sonce_rights previous
  | (MakeSend _ | CopySend _), inr o => when (IP_VALID o) [RSend o; RRef o]
  | MakeSonce _, inr o => when (IP_VALID o) [RSonce o; RRef o]
  | _, _ => []
  end.

(** ** What callers owe *)

(** Rights in hand come with references; receive rights in hand are the kernel's own, or on
    their way. *)
Record hand_good (T : right -> Z) : Prop := {
  hg_ok : hand_ok T;
  hg_attached : hand_attached T;
  hg_name : forall o b, T (RName o b) = 0;
  hg_home : forall o b n, T (RHome o b n) <> 0 -> b = ipc_space_kernel \/ n = MACH_PORT_NULL;
}.

Definition name_ok (s : kstate) (space name : Z) : Prop := is_Some (ks_spaces s !! space) /\ 0 <= name < 2 ^ 32.

(** A port that can take one more reference *)
Definition has_room (s : kstate) (port : Z) : Prop :=
  IP_VALID port = true -> exists p, ks_ports s !! port = Some p /\ ip_references p + 1 < IO_MAX_REFERENCES.

(** A port that dies with its receive right: nothing depends on its importance field, and if it
    is to go in limbo it can take one more reference. *)
Definition mortal (s : kstate) (space name : Z) : Prop :=
  forall o b req p, named s space name (o, b, req) -> ks_ports s !! o = Some p -> has b MACH_PORT_TYPE_RECEIVE = true ->
    ip_pdrequest p <> IP_NULL -> (ip_tempowner p = true \/ ip_imp_task p = IIT_NULL) /\ ip_references p + 1 < IO_MAX_REFERENCES.

Definition owed (s : kstate) (c : call) : Prop :=
  match c with
  | SpaceCreate initial => zalloc_ok s /\ 0 <= initial /\ (Z.to_nat initial + 1 < length ipc_table_entries)%nat /\
      exists size, ipc_table_entries !! Z.to_nat initial = Some size /\ 1 < size
  | PortAllocSpecial => zalloc_ok s
  | Allocate space _ => zalloc_ok s /\ is_Some (ks_spaces s !! space)
  | Destroy space name => name_ok s space name /\ space <> ipc_space_kernel /\ mortal s space name /\
      forall o b req p, named s space name (o, b, req) -> ks_ports s !! o = Some p ->
        (has b MACH_PORT_TYPE_RECEIVE = true -> ip_guarded p = true -> ip_context p = 0) /\
        (ip_active p = true -> ip_receiver p = space -> ip_receiver_name p <> MACH_PORT_NULL)
  | Destruct space name srdelta _ => name_ok s space name /\ - 2 ^ 31 <= srdelta < 2 ^ 31 /\ mortal s space name
  | ModRefs space name right delta => name_ok s space name /\ - 2 ^ 31 <= delta < 2 ^ 31 /\
      right ∈ [MACH_PORT_RIGHT_SEND; MACH_PORT_RIGHT_SEND_ONCE; MACH_PORT_RIGHT_DEAD_NAME; MACH_PORT_RIGHT_RECEIVE;
               MACH_PORT_RIGHT_PORT_SET] /\ (right = MACH_PORT_RIGHT_RECEIVE -> mortal s space name)
  | GetRefs space name right => name_ok s space name /\ 0 <= right
  | Deallocate space name | TypeOf space name | SetMscount space name _ | SetSeqno space name _
  | GetContext space name | SetContext space name _ | Guard space name _ _ | Unguard space name _ => name_ok s space name
  | Names space => is_Some (ks_spaces s !! space)
  | ExtractRight space name msgt_name => name_ok s space name /\
      forall o b req p, named s space name (o, b, req) -> ks_ports s !! o = Some p ->
        ip_references p + 1 < IO_MAX_REFERENCES /\
        (msgt_name = MACH_MSG_TYPE_MOVE_RECEIVE -> has b MACH_PORT_TYPE_RECEIVE = true ->
         ip_tempowner p = true \/ ip_imp_task p = IIT_NULL)
  | Copyout space object msgt_name _ => is_Some (ks_spaces s !! space) /\ space <> ipc_space_kernel /\ msgt_name ∈ dispositions /\
      exists p, ks_ports s !! object = Some p /\
        (ip_active p = true -> ip_receiver p = space -> ip_receiver_name p <> MACH_PORT_NULL)
  | RequestNotification space name id _ _ => name_ok s space name /\
      id <> MACH_NOTIFY_SEND_POSSIBLE /\ id <> MACH_NOTIFY_DEAD_NAME
  | SetAttributes space name flavor _ _ => name_ok s space name /\
      flavor <> MACH_PORT_DNREQUESTS_SIZE /\ flavor <> MACH_PORT_TEMPOWNER /\
      forall o p, receives s space name o p -> 0 <= imq_msgcount (ip_messages p) /\
        imq_msgcount (ip_messages p) + Z.of_nat (length (imq_senders (ip_messages p))) < 2 ^ 32
  | MakeSend port => has_room s port /\ forall p, ks_ports s !! port = Some p -> ip_active p = true -> ip_receiver_name p <> MACH_PORT_NULL
  | MakeSonce port => has_room s port
  | CopySend port => has_room s port /\
      forall p, ks_ports s !! port = Some p -> ip_active p = true -> 0 < ip_srights p
  | ReleaseSend port | ReleaseSonce port => IP_VALID port = true
  end.

Definition allowed (st : system) (c : call) : Prop :=
  hand_good (sys_hand st ⊖ used c) /\ owed (sys_kernel st) c.

(** ** Steps *)

Inductive step : system -> call -> answer -> system -> Prop :=
  | step_call s T L c r s' :
      allowed (mk_system s T L) c -> exec c s = Ok (r, s') ->
      step (mk_system s T L) c r (mk_system s' (T ⊖ used c ⊕ gained c r) (forgotten s c r ++ L)).

(** What [ipc_bootstrap] leaves: the kernel's own space, made by [ipc_space_create_special]; and
    what the allocators are going to answer *)
Definition special_space : ipc_space := mk_ipc_space (Z.lor IS_INACTIVE 1) 0 0 [] TASK_NULL 0 0 0.
Definition boot (zone : list Z) (heap : list bool) : system :=
  mk_system (mk_kstate ∅ ∅ {[ipc_space_kernel := special_space]} ∅ 0 [] 0 zone heap []) (fun _ => 0) [].

Inductive reachable : system -> Prop :=
  | reachable_boot zone heap : reachable (boot zone heap)
  | reachable_step st c r st' : reachable st -> step st c r st' -> reachable st'.

(** ** The invariant *)

(** Between calls the thread has no message to reap and no boost to drop. *)
Definition idle (s : kstate) : Prop := ks_ith_messages s = [] /\ ks_ith_assertions s = 0.

Record system_ok (st : system) : Prop := {
  sy_kernel : kwf (sys_kernel st) (sys_hand st ⊕ (RRef <$> sys_leaked st));
  sy_hand : hand_good (sys_hand st);
  sy_leaked : forall o p, o ∈ sys_leaked st -> ks_ports (sys_kernel st) !! o = Some p -> ip_active p = false;
  sy_null : ks_spaces (sys_kernel st) !! IS_NULL = None;
  sy_space : is_Some (ks_spaces (sys_kernel st) !! ipc_space_kernel);
  sy_idle : idle (sys_kernel st);
}.

(** What the calls see of it: all rights that are held outside the kernel state, forgotten ones
    as well *)
Record books (s : kstate) (T : right -> Z) : Prop := {
  bk_kernel : kwf s T;
  bk_hand : hand_good T;
  bk_null : ks_spaces s !! IS_NULL = None;
  bk_space : is_Some (ks_spaces s !! ipc_space_kernel);
  bk_idle : idle s;
}.

Definition yield (s : kstate) (c : call) (r : answer) : list right := gained c r ++ (RRef <$> forgotten s c r).

(** *** The hand *)
Record rights_good (l : list right) : Prop := {
  rg_backed : backed l;
  rg_attached : attached l;
  rg_name : forall o b, RName o b ∉ l;
  rg_home : forall o b n, RHome o b n ∈ l -> b = ipc_space_kernel \/ n = MACH_PORT_NULL;
}.

Lemma hand_good_plus T l : hand_good T -> rights_good l -> hand_good (T ⊕ l).
Proof.
  intros [H1 H2 H3 H4] [L1 L2 L3 L4]. split.
  - by apply hand_ok_plus.
  - intros r o Hr. unfold plus. intros H0. pose proof (proj1 H1 (RRef o)). pose proof (cnt_nonneg (RRef o) l).
    pose proof (cnt_nonneg r l). rewrite (H2 r o Hr) by lia.
    destruct (Z.le_gt_cases (cnt r l) 0); [lia|]. pose proof (attached_cnt l r o L2 Hr). lia.
  - intros o b. unfold plus. by rewrite H3, (cnt_not_elem _ _ (L3 o b)).
  - intros o b n. unfold plus. intros Hne. destruct (decide (RHome o b n ∈ l)) as [Hin|Hin]; [by eapply L4|].
    rewrite (cnt_not_elem _ _ Hin) in Hne. apply (H4 o b n). lia.
Qed.

Lemma hand_good_ext T T' : hand_good T' -> (forall r, T r = T' r) -> hand_good T.
Proof.
  intros [H1 H2 H3 H4] HT. split.
  - by apply (hand_ok_proper T' T (fun r => eq_sym (HT r))).
  - intros r o Ho. rewrite !HT. by apply H2.
  - intros o b. by rewrite HT.
  - intros o b n. rewrite HT. apply H4.
Qed.

(** Nothing is taken from the hand. *)
Lemma hand_good_minus_nil T : hand_good T -> hand_good (T ⊖ []).
Proof. intros HT. eapply hand_good_ext; [done|]. intros r. unfold minus. simpl. lia. Qed.

Lemma rights_good_nil : rights_good [].
Proof. split; [apply backed_nil|apply attached_nil|..]; by intros * ?%elem_of_nil. Qed.

Lemma rights_good_when c l : rights_good l -> rights_good (when c l).
Proof. destruct c; [done|]. intros _. apply rights_good_nil. Qed.

(** Rights to one port, its reference among them, and no name *)
Lemma rights_good_port o l :
  RRef o ∈ l -> backed l ->
  Forall (fun r => match r with RRef x | RLive x | RSend x | RSonce x => x = o | RHome x b n => x = o /\ (b = ipc_space_kernel \/ n = MACH_PORT_NULL) | _ => False end) l ->
  rights_good l.
Proof.
  intros Hin Hb Hl. split; [done| | |].
  - apply (attached_one o); [done|]. eapply Forall_impl; [exact Hl|]. intros []; simpl; try done; [by intros ->..|by intros [-> _]].
  - intros x b Hx. rewrite list.Forall_forall in Hl. by specialize (Hl _ Hx).
  - intros x b n Hx. rewrite list.Forall_forall in Hl. by destruct (Hl _ Hx).
Qed.

Lemma rights_good_sonce o : rights_good (sonce_rights o).
Proof.
  apply rights_good_when, (rights_good_port o); [set_solver| |by repeat constructor].
  intros x. cnt_simpl. destruct (decide _); lia.
Qed.

Lemma rights_good_disposition d o : rights_good (disposition_rights d o).
Proof.
  unfold disposition_rights. apply rights_good_when. apply (rights_good_port o); [by left| |].
  - pose proof (backed_disposition d o) as Hb. unfold disposition_rights in Hb.
    destruct (IO_VALID o) eqn:Hv; [exact Hb|]. intros x.
    destruct (d =? MACH_MSG_TYPE_PORT_SEND), (d =? MACH_MSG_TYPE_PORT_SEND_ONCE), (d =? MACH_MSG_TYPE_PORT_RECEIVE);
      cnt_simpl; destruct (decide _); lia.
  - constructor; [done|]. repeat apply Forall_app_2; destruct (_ =? _);
      repeat apply Forall_cons_2; try apply Forall_nil_2; simpl; auto.
Qed.

Lemma gained_good c r : rights_good (gained c r).
Proof.
  assert (Hs : forall o, rights_good [RSend o; RRef o]) by (intros o; apply (rights_good_port o);
    [set_solver|intros x; cnt_simpl; destruct (decide _); lia|by repeat constructor]).
  assert (Ho : forall o, rights_good [RSonce o; RRef o]) by (intros o; apply (rights_good_port o);
    [set_solver|intros x; cnt_simpl; destruct (decide _); lia|by repeat constructor]).
  destruct c, r as [kr|v]; simpl; try apply rights_good_nil; try apply rights_good_sonce; try apply rights_good_disposition;
    try (by apply rights_good_when).
  apply rights_good_when, (rights_good_port v); [set_solver| |repeat apply Forall_cons_2; try apply Forall_nil_2; simpl; auto].
  intros x. cnt_simpl. destruct (decide _); lia.
Qed.

Lemma hand_good_refs L : forall T, hand_good T -> hand_good (T ⊕ (RRef <$> L)).
Proof.
  induction L as [|o L IH]; intros T HT; [apply hand_good_plus; [done|apply rights_good_nil]|].
  eapply hand_good_ext; [apply IH, (hand_good_plus T [RRef o] HT)|].
  - apply (rights_good_port o); [set_solver|intros x; cnt_simpl; destruct (decide _); lia|by repeat constructor].
  - intros r. unfold plus. rewrite fmap_cons. cbn [cnt]. lia.
Qed.

Lemma yield_plain s c r : forgotten s c r = [] -> yield s c r = gained c r.
Proof. unfold yield. intros ->. apply app_nil_r. Qed.

Lemma hand_good_yield s T c r : hand_good T -> hand_good (T ⊕ yield s c r).
Proof.
  intros HT. eapply hand_good_ext; [apply (hand_good_refs (forgotten s c r)), (hand_good_plus T (gained c r) HT), gained_good|].
  intros x. unfold plus, yield. rewrite cnt_app. lia.
Qed.

(** *** Ends of calls *)
Record steady (s s' : kstate) : Prop := {
  st_spaces : forall a, is_Some (ks_spaces s' !! a) <-> is_Some (ks_spaces s !! a);
  st_idle : idle s -> idle s';
}.

Lemma idle_same s s' : same_thread s s' -> idle s -> idle s'.
Proof. intros [H1 H2] [H3 H4]. split; congruence. Qed.

Lemma steady_eq s s' : ks_spaces s' = ks_spaces s -> same_thread s s' -> steady s s'.
Proof. intros H Ht. split; [intros a; by rewrite H|by apply idle_same]. Qed.

Lemma steady_trans s1 s2 s3 : steady s1 s2 -> steady s2 s3 -> steady s1 s3.
Proof. intros [H1 I1] [H2 I2]. split; [intros a; by rewrite (H2 a)|auto]. Qed.

Lemma steady_forall (R : ipc_space -> ipc_space -> Prop) a s s' :
  (forall b, b <> a -> ks_spaces s' !! b = ks_spaces s !! b) ->
  option_Forall2 R (ks_spaces s !! a) (ks_spaces s' !! a) -> (idle s -> idle s') -> steady s s'.
Proof.
  intros H1 H2 Hi. split; [|done]. intros b. destruct (decide (b = a)) as [->|Hne]; [|by rewrite H1].
  inversion H2 as [x y _ Hx Hy|Hx Hy]; split; intros []; congruence || eauto.
Qed.

Lemma steady_framed a i s s' : framed a i s s' -> steady s s'.
Proof. intros (_ & _ & Ht & H1 & H2). eapply steady_forall; [done|done|by apply idle_same]. Qed.

Lemma steady_widened a s s' : widened a s s' -> steady s s'.
Proof. intros (_ & _ & _ & _ & Ht & H1 & H2). eapply steady_forall; [done|done|by apply idle_same]. Qed.

Lemma steady_lost a i s s' : lost a i s s' -> steady s s'.
Proof. intros [_ H1 H2 _ Hm Ha]. eapply steady_forall; [done|done|]. intros [I1 I2]. split; [by apply Hm|congruence]. Qed.

Lemma steady_unset o ps s s' : unset o ps s s' -> steady s s'.
Proof. intros []. by apply steady_eq. Qed.

Definition ends (s : kstate) (T : right -> Z) (c : call) (r : answer) (s' : kstate) : Prop :=
  books s' (T ⊖ used c ⊕ yield s c r).

Lemma ends_intro s T c r s' T' :
  books s T -> hand_good (T ⊖ used c) -> kwf s' T' ->
  (forall x, T' x = (T ⊖ used c ⊕ yield s c r) x) -> steady s s' -> ends s T c r s'.
Proof.
  intros [HK HT Hnl Hsp Hi] Hg HK' HT' [Hn Hid]. split; simpl in *.
  - eapply kwf_proper; [done| |exact HK']. intros x. by rewrite HT'.
  - by apply hand_good_yield.
  - apply eq_None_not_Some. rewrite (Hn IS_NULL), Hnl. by intros [].
  - by apply Hn.
  - by apply Hid.
Qed.

(** *** The calls, one by one *)
Section calls.
Context (Hsizes : sizes_ok ipc_table_entries) (s : kstate) (T : right -> Z) (HS : books s T).

(** A call that takes and gives no rights *)
Lemma ends_plain c r s' :
  used c = [] -> yield s c r = [] -> kwf s' T -> steady s s' -> ends s T c r s'.
Proof.
  intros Hu Hg HK Hd. eapply ends_intro; [done| |exact HK| |done]; rewrite Hu; [|rewrite Hg].
  - by apply hand_good_minus_nil, HS.
  - intros x. unfold plus, minus. simpl. lia.
Qed.

Lemma ends_unchanged c r : used c = [] -> yield s c r = [] -> ends s T c r s.
Proof. intros Hu Hg. apply ends_plain; [done|done|apply HS|by apply steady_eq]. Qed.

Lemma space_arg a : is_Some (ks_spaces s !! a) -> a <> IS_NULL /\ exists sp, ks_spaces s !! a = Some sp.
Proof.
  intros [sp Ha]. split; [|by exists sp]. intros ->. pose proof (bk_null _ _ HS) as Hn. simpl in Hn. by rewrite Ha in Hn.
Qed.

(** Ports that were there are there, alive if they are alive, or are new. *)
Definition ages (c : call) (r : answer) (s' : kstate) : Prop :=
  ends s T c r s' /\
  forall o p', ks_ports s' !! o = Some p' -> fresh_address s o \/ exists p, ks_ports s !! o = Some p /\ (ip_active p' = true -> ip_active p = true).

Lemma ages_same c r s' : ends s T c r s' -> ks_ports s' = ks_ports s -> ages c r s'.
Proof. intros He HP. split; [done|]. intros o p'. rewrite HP. intros Ho. right. by exists p'. Qed.

Lemma ages_born c r s' o p : ends s T c r s' -> fresh_address s o -> ks_ports s' = <[o := p]> (ks_ports s) -> ages c r s'.
Proof.
  intros He Hf HP. split; [done|]. intros x p'. rewrite HP, lookup_insert. destruct (decide (o = x)) as [<-|]; [by left|].
  intros Hx. right. by exists p'.
Qed.

Lemma ages_aging c : aging (exec c) -> wp (exec c) s (ends s T c) -> wp (exec c) s (ages c).
Proof.
  intros Ha Hw. destruct (wp_inv _ _ _ Hw) as (r & s' & Hrun & He). eapply wp_Ok; [exact Hrun|]. split; [done|].
  intros o p' Ho. right. by eapply Ha.
Qed.

Lemma call_space_create initial : owed s (SpaceCreate initial) -> wp (exec (SpaceCreate initial)) s (ages (SpaceCreate initial)).
Proof.
  intros (Hz & H0 & Hlen & size & Hsz & H1). cbn [exec].
  eapply (wf_space_create Hsizes s T initial size); [apply HS|done..| |].
  - intros s' HK Hb Hsp. apply ages_same; [|apply Hb]. apply ends_plain; [done|done|done|apply steady_eq; [done|by destruct Hb as (_ & _ & _ & ? & _)]].
  - intros a s' HK Hb (Hv & _ & _ & _ & Hf) Hsp. apply ages_same; [|apply Hb]. destruct HS as [_ HT Hnl Hk Hi]. simpl in *. split; simpl.
    + eapply kwf_proper; [done| |exact HK]. intros x. unfold plus, minus. simpl. lia.
    + apply hand_good_plus; [by apply hand_good_minus_nil|apply rights_good_nil].
    + rewrite Hsp, lookup_insert_ne; [done|]. intros ->. done.
    + rewrite Hsp, lookup_insert_ne; [done|]. intros ->. rewrite Hf in Hk. by destruct Hk.
    + eapply idle_same; [|exact Hi]. by destruct Hb as (_ & _ & _ & ? & _).
Qed.

Lemma call_alloc_special : owed s PortAllocSpecial -> wp (exec PortAllocSpecial) s (ages PortAllocSpecial).
Proof.
  intros Hz. pose proof (bk_hand _ _ HS) as HT. cbn [exec]. apply wp_bind.
  eapply (wf_alloc_special Hsizes s T ipc_space_kernel); [apply HS|apply HT|apply HT|done| |].
  - intros s' HK HP Hsp Hth. wp_step. apply ages_same; [|done]. apply ends_plain; [done|done|done|by apply steady_eq].
  - intros s' o HK Hf HP Hsp Hth. pose proof Hf as [Hv _]. wp_step. eapply ages_born; [|done|exact HP]. eapply ends_intro; [done| |exact HK| |by apply steady_eq].
    + by apply hand_good_minus_nil.
    + intros x. rewrite yield_plain by done. cbn [used gained]. rewrite Hv. unfold plus, minus. cbn [when cnt]. lia.
Qed.

Lemma call_allocate a right : owed s (Allocate a right) -> wp (exec (Allocate a right)) s (ages (Allocate a right)).
Proof.
  intros [Hz Ha]. destruct (space_arg a Ha) as (Hn & sp & Hsp). pose proof (bk_hand _ _ HS) as HT. cbn [exec].
  unfold mach_port_allocate, mach_port_allocate_full. rewrite (proj2 (Z.eqb_neq _ _) Hn).
  change (negb (MACH_PORT_NULL =? MACH_PORT_NULL)) with false. cbn [qos_name qos_prealloc qos_template andb].
  apply wp_bind. unfold allocate_prealloc. cbn [qos_name qos_prealloc qos_template negb]. wp_step.
  assert (Hfail : forall kr s', kwf s' T -> widened a s s' -> ages (Allocate a right) (inl kr) s')
    by (intros kr s' HK Hw; apply ages_same; [apply ends_plain; [done|done|done|by eapply steady_widened]|apply Hw]).
  destruct (right =? MACH_PORT_RIGHT_RECEIVE); [|destruct (right =? MACH_PORT_RIGHT_PORT_SET);
    [|destruct (right =? MACH_PORT_RIGHT_DEAD_NAME); [|wp_step; apply ages_same; [by apply ends_unchanged|done]]]].
  - unfold allocate_receive. cbn [qos_name qos_template]. apply wp_bind.
    change (negb (IKM_NULL =? IKM_NULL)) with false. cbn [mwhen].
    eapply (wf_port_alloc Hsizes s T a sp); [apply HS|apply HT|apply HT|done|done| |].
    + intros kr s' HK Hw _. wp_step. wp_step. wp_step. by apply Hfail.
    + intros name o s1 s' _ Hf Hw _ HK Hfr _ HP _. wp_step. wp_step. wp_step. eapply ages_born; [|exact Hf|exact HP].
      apply ends_plain; [done|done|done|]. eapply steady_trans; [by eapply steady_widened|by eapply steady_framed].
  - unfold allocate_port_set. cbn [qos_name qos_template]. apply wp_bind.
    eapply (wf_pset_alloc Hsizes s T a sp); [apply HS|apply HT|apply HT|done|done| |].
    + intros kr s' HK Hw _. wp_step. by apply Hfail.
    + intros name o s1 s' _ _ Hw _ HK Hfr _ HP _. wp_step. apply ages_same; [|done]. apply ends_plain; [done|done|done|].
      eapply steady_trans; [by eapply steady_widened|]. apply (steady_trans _ (put_pset s1 o (new_pset name))); [by apply steady_eq|by eapply steady_framed].
  - eapply (wf_alloc_dead Hsizes s T a sp); [apply HS|done| |].
    + intros kr s' HK Hw _. by apply Hfail.
    + intros name s1 s' _ Hw _ HK Hfr HP _ _. apply ages_same; [|done]. apply ends_plain; [done|done|done|].
      eapply steady_trans; [by eapply steady_widened|by eapply steady_framed].
Qed.

(** A call on a name: refused with a status that gives nothing, or made on the name's entry *)
Lemma call_name {A} a name (fail : kern_return_t -> A) (k : Z -> K A) (Q : A -> kstate -> Prop) :
  name_ok s a name -> (forall kr, Q (fail kr) s) ->
  (forall o b req, named s a name (o, b, req) -> wp (k (MACH_PORT_INDEX name)) s Q) ->
  wp (found ← ipc_right_lookup_write a name;
      match found with inl kr => mret (fail kr) | inr entry => k entry end) s Q.
Proof.
  intros [Ha Hw] Hno Hyes. destruct (space_arg a Ha) as (Hn & sp & Hsp).
  eapply (wf_lookup s T a sp name fail); [apply HS|done|done|done|intros; apply Hno|done].
Qed.

Lemma call_deallocate a name : owed s (Deallocate a name) -> wp (exec (Deallocate a name)) s (ends s T (Deallocate a name)).
Proof.
  intros Hnm. pose proof (bk_hand _ _ HS) as HT. cbn [exec]. apply wp_bind. unfold mach_port_deallocate.
  destruct (space_arg a (proj1 Hnm)) as (Hn & _). rewrite (proj2 (Z.eqb_neq _ _) Hn).
  destruct (MACH_PORT_VALID name); cbn [negb]; [|wp_step; wp_step; by apply ends_unchanged].
  apply (call_name a name id); [done|intros; wp_step; by apply ends_unchanged|]. intros o b req Hc.
  eapply wf_right_dealloc; [done|apply Hc|apply HT|apply holding_start; [apply HS|exact Hc]|].
  intros kr s' P' L' o' b' _ HF. apply shut_end in HF as (HK & Hfr & _). wp_step.
  apply ends_plain; [done|done|done|by eapply steady_framed].
Qed.

(** The port of the name can be destroyed. *)
Lemma mortal_fatal a name o b req :
  mortal s a name -> named s a name (o, b, req) -> destroyable s (ks_ports s) o b.
Proof.
  intros Hm Hn Hb p Hp. pose proof (bk_idle _ _ HS) as [_ Hi]. simpl in Hi. split; [split; [done|]|].
  - intros Hpd. by apply (Hm o b req p).
  - intros Hpd. by apply (Hm o b req p).
Qed.

Lemma steady_set a i name o s' : set_gone a i name o s s' -> steady s s'.
Proof.
  intros (_ & ps & s1 & _ & Hfr & _ & _ & Hu). eapply steady_trans; [by eapply steady_framed|by eapply steady_unset].
Qed.

Lemma call_destroy a name : owed s (Destroy a name) -> wp (exec (Destroy a name)) s (ends s T (Destroy a name)).
Proof.
  intros (Hnm & Hk & Hmo & Hp). pose proof (bk_hand _ _ HS) as HT. pose proof (bk_kernel _ _ HS) as HK. cbn [exec]. apply wp_bind. unfold mach_port_destroy.
  destruct (space_arg a (proj1 Hnm)) as (Hn & _). rewrite (proj2 (Z.eqb_neq _ _) Hn).
  destruct (MACH_PORT_VALID name); cbn [negb]; [|wp_step; wp_step; by apply ends_unchanged].
  apply (call_name a name id); [done|intros; wp_step; by apply ends_unchanged|]. intros o b req Hc.
  pose proof (holding_start s a name T o b req HK Hc) as Hh.
  destruct (Z.eq_dec (IE_BITS_TYPE b) MACH_PORT_TYPE_PORT_SET) as [Ht|Ht].
  - eapply wf_destroy_set; [done|apply HT|exact Hh|done|]. intros s' HK' Hg. wp_step.
    apply ends_plain; [done|done|done|by eapply steady_set].
  - eapply wf_right_destroy; [done|apply Hc|apply HT|exact Hh|done| |].
    + split.
      * intros p Ho Hb. by apply (mortal_fatal a name o b req Hmo Hc Hb p Ho).
      * intros p Ho. by apply (Hp o b req p Hc Ho).
      * intros n Hn0. destruct (Z.eq_dec (T (RHome o a n)) 0) as [|Hne]; [done|]. by apply (hg_home _ HT) in Hne as [|].
      * intros p Ho Hb _ Hg. symmetry. by apply (Hp o b req p Hc Ho).
    + intros s' HK' Hlo _ _. wp_step. apply ends_plain; [done|done|done|by eapply steady_lost].
Qed.

Lemma call_destruct a name srdelta guard :
  owed s (Destruct a name srdelta guard) -> wp (exec (Destruct a name srdelta guard)) s (ends s T (Destruct a name srdelta guard)).
Proof.
  intros (Hnm & Hsr & Hmo). pose proof (bk_hand _ _ HS) as HT. cbn [exec]. apply wp_bind. unfold mach_port_destruct.
  destruct (space_arg a (proj1 Hnm)) as (Hn & _). rewrite (proj2 (Z.eqb_neq _ _) Hn).
  destruct (MACH_PORT_VALID name); cbn [negb]; [|wp_step; wp_step; by apply ends_unchanged].
  apply (call_name a name id); [done|intros; wp_step; by apply ends_unchanged|]. intros o b req Hc.
  eapply wf_right_destruct; [done|apply Hc|apply HT|apply holding_start; [apply HS|exact Hc]|by eapply mortal_fatal|done|].
  intros kr s' o' b' HK' Hlo _ _. wp_step. apply ends_plain; [done|done|done|by eapply steady_lost].
Qed.

(** [ipc_right_delta] on a receive right or a port set *)
Lemma delta_lose a name o b req right delta (Q : kern_return_t -> kstate -> Prop) :
  named s a name (o, b, req) -> right ∈ [MACH_PORT_RIGHT_RECEIVE; MACH_PORT_RIGHT_PORT_SET] ->
  (right = MACH_PORT_RIGHT_RECEIVE -> mortal s a name) ->
  (forall kr s', kwf s' T -> steady s s' -> Q kr s') ->
  wp (ipc_right_delta a name (MACH_PORT_INDEX name) right delta) s Q.
Proof.
  intros Hc Hr Hmo HQ. pose proof (bk_hand _ _ HS) as HT. pose proof (bk_kernel _ _ HS) as HK.
  pose proof (holding_start s a name T o b req HK Hc) as Hh. pose proof Hh as [HF _]. unfold ipc_right_delta.
  apply wp_bind. eapply wf_is_get; [exact HF|]. intros sp _ [Haw _]. wp_step. wp_step; [by apply Haw|].
  wp_step. rewrite !elem_of_cons, elem_of_nil in Hr. destruct Hr as [->|[->|[]]]; (wp_step; [done|]); cbn.
  - eapply wf_delta_receive; [done|apply Hc|apply HT|exact Hh|eapply mortal_fatal; [by apply Hmo|done]|].
    intros kr s' o' b' HK' Hlo _ _. apply HQ; [done|by eapply steady_lost].
  - eapply wf_delta_port_set; [done|apply Hc|apply HT|exact Hh|exact HK|]. intros kr s' HK' Hd. apply HQ; [done|].
    unfold delta_set in Hd. repeat case_match; destruct Hd as [_ Hd]; try (subst s'; by apply steady_eq). by eapply steady_set.
Qed.

(** Only a failure to change the references of a dead name forgets one. *)
Lemma nothing_forgotten a name right delta kr :
  (right = MACH_PORT_RIGHT_DEAD_NAME -> kr <> KERN_INVALID_VALUE /\ kr <> KERN_UREFS_OVERFLOW) ->
  yield s (ModRefs a name right delta) (of_kr kr) = [].
Proof.
  intros Hkr. rewrite yield_plain; [done|]. cbn [forgotten]. unfold of_kr. destruct (decide _); [done|].
  destruct (ks_spaces s !! a) as [sp|]; [|done]. destruct (core _) as [[o b] req].
  destruct (Z.eqb_spec right MACH_PORT_RIGHT_DEAD_NAME) as [->|]; [|done].
  rewrite (bool_decide_eq_false_2 (kr = KERN_INVALID_VALUE \/ kr = KERN_UREFS_OVERFLOW)) by (destruct (Hkr eq_refl); naive_solver).
  done.
Qed.

Lemma delta_forgets a sp name delta L o b req kr L' o' b' leaked :
  ks_spaces s !! a = Some sp -> core (entry_at (is_table sp) (MACH_PORT_INDEX name)) = (o, b, req) ->
  delta_deadened (ks_ports s) L o b req delta kr L' o' b' leaked ->
  leaked = yield s (ModRefs a name MACH_PORT_RIGHT_DEAD_NAME delta) (of_kr kr).
Proof.
  intros Ha Hc Hd. unfold delta_deadened, found_dead in Hd.
  assert (Hy : kr = KERN_INVALID_VALUE \/ kr = KERN_UREFS_OVERFLOW ->
    yield s (ModRefs a name MACH_PORT_RIGHT_DEAD_NAME delta) (of_kr kr) =
    if has b MACH_PORT_TYPE_SEND_RIGHTS && dead_port s o then [RRef o] else []).
  { intros Hkr. unfold yield. cbn [gained forgotten]. assert (of_kr kr = inl kr) as -> by (by destruct Hkr as [-> | ->]).
    rewrite Ha, Hc, (bool_decide_eq_true_2 _ Hkr). by destruct (_ && _). }
  assert (Hnone : kr = KERN_INVALID_RIGHT /\ refused L o b L' o' b' /\ leaked = [] ->
    leaked = yield s (ModRefs a name MACH_PORT_RIGHT_DEAD_NAME delta) (of_kr kr)).
  { intros (-> & _ & ->). by rewrite nothing_forgotten. }
  unfold dead_port in Hy. destruct (has b MACH_PORT_TYPE_SEND_RIGHTS); cbn [andb] in Hy.
  - destruct (ks_ports s !! o) as [p|]; [destruct (ip_active p)|]; [by apply Hnone| |by apply Hnone].
    destruct Hd as [_ Hd]. destruct (_ <? _); [destruct Hd as (-> & _ & ->); rewrite Hy; auto|].
    destruct (_ <? _); destruct Hd as (-> & _ & ->); [rewrite Hy; auto|by rewrite nothing_forgotten].
  - destruct (has b MACH_PORT_TYPE_DEAD_NAME); [|by apply Hnone].
    destruct Hd as [_ Hd]. destruct (_ <? _); [destruct Hd as (-> & _ & ->); rewrite Hy; auto|].
    destruct (_ <? _); destruct Hd as (-> & _ & ->); [rewrite Hy; auto|by rewrite nothing_forgotten].
Qed.

Lemma call_mod_refs a name right delta :
  owed s (ModRefs a name right delta) -> wp (exec (ModRefs a name right delta)) s (ends s T (ModRefs a name right delta)).
Proof.
  intros (Hnm & Hd & Hr & Hmo). pose proof (bk_hand _ _ HS) as HT. cbn [exec]. apply wp_bind. unfold mach_port_mod_refs.
  destruct (space_arg a (proj1 Hnm)) as (Hn & sp0 & Ha0). rewrite (proj2 (Z.eqb_neq _ _) Hn).
  replace (MACH_PORT_RIGHT_NUMBER <=? right) with false
    by (rewrite !elem_of_cons, elem_of_nil in Hr; destruct Hr as [->|[->|[->|[->|[->|[]]]]]]; done).
  assert (Hplain : forall kr, kr <> KERN_INVALID_VALUE -> kr <> KERN_UREFS_OVERFLOW -> ends s T (ModRefs a name right delta) (of_kr kr) s).
  { intros kr H1 H2. apply ends_unchanged; [done|]. by apply nothing_forgotten. }
  destruct (MACH_PORT_VALID name); cbn [negb]; [|wp_step; wp_step; destruct (_ || _); by apply Hplain].
  eapply (wf_lookup s T a sp0 name id); [apply HS|done|done|apply Hnm| |].
  { intros kr [[-> _]|[-> _]]; wp_step; by apply Hplain. }
  intros o b req Hc.
  assert (Hor : right ∈ [MACH_PORT_RIGHT_RECEIVE; MACH_PORT_RIGHT_PORT_SET] \/
    right ∈ [MACH_PORT_RIGHT_SEND; MACH_PORT_RIGHT_SEND_ONCE; MACH_PORT_RIGHT_DEAD_NAME]) by set_solver.
  destruct Hor as [Hl|Hr'].
  { eapply delta_lose; [exact Hc|done|done|]. intros kr s' HK Hst. wp_step. apply ends_plain; [done| |done|done].
    apply nothing_forgotten. intros ->. by rewrite !elem_of_cons, elem_of_nil in Hl; destruct Hl as [|[|[]]]. }
  clear Hr. rename Hr' into Hr. eapply wp_mono; [|eapply (wf_right_delta s a name T o b req); [apply HS|apply HT|done|done|done]].
  intros kr s' (Hfr & o' & b' & leaked & _ & HK & Hdd). wp_step.
  eapply ends_intro; [done|by apply hand_good_minus_nil|exact HK| |by eapply steady_framed].
  assert (Hl : leaked = yield s (ModRefs a name right delta) (of_kr kr)).
  { unfold delta_done in Hdd. rewrite !elem_of_cons, elem_of_nil in Hr.
    destruct Hr as [->|[->|[->|[]]]]; cbn in Hdd; [rewrite nothing_forgotten by done; by destruct Hdd as [_ ->]..|].
    destruct Hc as (_ & sp & Ha & _ & _ & Hcore & _). rewrite Ha0 in Ha. injection Ha as <-. by eapply delta_forgets. }
  intros x. rewrite Hl. unfold plus, minus. simpl. lia.
Qed.

Lemma call_get_refs a name right : owed s (GetRefs a name right) -> wp (exec (GetRefs a name right)) s (ends s T (GetRefs a name right)).
Proof.
  intros [Hnm Hr]. pose proof (bk_hand _ _ HS) as HT. destruct (space_arg a (proj1 Hnm)) as (Hn & sp & Ha). cbn [exec].
  destruct (Z.leb_spec MACH_PORT_RIGHT_NUMBER right) as [Hr'|Hr'].
  { unfold mach_port_get_refs. rewrite (proj2 (Z.eqb_neq _ _) Hn), (proj2 (Z.leb_le _ _)) by lia. wp_step. by apply ends_unchanged. }
  destruct (MACH_PORT_VALID name) eqn:Hv.
  - eapply (wf_get_refs s T a sp name right); [apply HS|apply HT|done|done|apply Hnm|lia|done|intros; by apply ends_unchanged|].
    intros o b req s' _ HK Hfr _. apply ends_plain; [done|done|done|by eapply steady_framed].
  - unfold mach_port_get_refs. rewrite (proj2 (Z.eqb_neq _ _) Hn), (proj2 (Z.leb_gt _ _)), Hv by lia. cbn [negb]. wp_step.
    destruct (_ || _); by apply ends_unchanged.
Qed.

Lemma call_type a name : owed s (TypeOf a name) -> wp (exec (TypeOf a name)) s (ends s T (TypeOf a name)).
Proof.
  intros Hnm. pose proof (bk_hand _ _ HS) as HT. destruct (space_arg a (proj1 Hnm)) as (Hn & sp & Ha). cbn [exec].
  destruct (MACH_PORT_VALID name) eqn:Hv.
  - eapply (wf_type s T a sp name); [apply HS|apply HT|done|done|apply Hnm|done|intros; by apply ends_unchanged|].
    intros o b req s' _ HK Hfr _. apply ends_plain; [done|done|done|by eapply steady_framed].
  - unfold mach_port_type, MACH_PORT_VALID in *. rewrite (proj2 (Z.eqb_neq _ _) Hn).
    destruct (name =? MACH_PORT_NULL); [wp_step; by apply ends_unchanged|].
    destruct (name =? MACH_PORT_DEAD); [wp_step; by apply ends_unchanged|done].
Qed.

Lemma call_names a : owed s (Names a) -> wp (exec (Names a)) s (ends s T (Names a)).
Proof.
  intros Ha. pose proof (bk_hand _ _ HS) as HT. destruct (space_arg a Ha) as (Hn & sp & Hsp). cbn [exec]. apply wp_bind.
  assert (Hend : forall r s', ticked s s' -> ends s T (Names a) r s').
  { intros r s' Ht. apply ends_plain; [done|done|eapply kwf_ticked; [apply HS|done]|]. apply steady_eq; by destruct Ht as (_ & _ & ? & _ & ? & _). }
  eapply (wf_names s T a sp); [apply HS|apply HT|done|done|intros; wp_step; by apply ends_unchanged|intros; wp_step; by apply Hend..].
Qed.

Lemma call_extract a name msgt : owed s (ExtractRight a name msgt) -> wp (exec (ExtractRight a name msgt)) s (ends s T (ExtractRight a name msgt)).
Proof.
  intros [Hnm Hp]. pose proof (bk_hand _ _ HS) as HT. destruct (space_arg a (proj1 Hnm)) as (Hn & sp & Ha). cbn [exec].
  apply wp_bind. unfold mach_port_extract_right. rewrite (proj2 (Z.eqb_neq _ _) Hn).
  destruct (MACH_MSG_TYPE_PORT_ANY msgt); cbn [negb]; [|wp_step; wp_step; by apply ends_unchanged].
  destruct (MACH_PORT_VALID name); cbn [negb]; [|wp_step; wp_step; by apply ends_unchanged].
  apply wp_bind. eapply wp_mono; [|eapply (wf_object_copyin s T a sp name msgt); [apply HS|apply HT|done|done|apply Hnm|done]].
  intros r s' [(_ & -> & ->)|[(_ & -> & ->)|(_ & Hfr & HK)]]; wp_step; wp_step; [by apply ends_unchanged..|].
  eapply ends_intro; [done|by apply hand_good_minus_nil|exact HK| |by eapply steady_framed].
  intros x. rewrite yield_plain by done. unfold plus, minus. destruct r; simpl; lia.
Qed.

(** What is left in hand, with what was handed over *)
Lemma kwf_used c : kwf s (T ⊖ used c ⊕ used c).
Proof. eapply kwf_proper; [done| |apply HS]. intros x. unfold plus, minus. simpl. lia. Qed.

Lemma call_copyout a o msgt overflow :
  hand_good (T ⊖ used (Copyout a o msgt overflow)) -> owed s (Copyout a o msgt overflow) ->
  wp (exec (Copyout a o msgt overflow)) s (ends s T (Copyout a o msgt overflow)).
Proof.
  intros HT (Ha & Hk & Hd & p & Ho & Hal). destruct (space_arg a Ha) as (Hn & sp & Hsp). cbn [exec].
  eapply wp_mono; [|eapply (wf_object_copyout s (T ⊖ used (Copyout a o msgt overflow)) a sp o p msgt overflow);
    [done|exact (kwf_used (Copyout a o msgt overflow))|apply HT|done|done|done|done|apply HT|]].
  - intros r s' (s1 & Hw & Hr). destruct r as [kr|name].
    + destruct Hr as (_ & _ & (i & Hfr) & HK). eapply ends_intro; [done|done|exact HK|intros x; by rewrite yield_plain|].
      eapply steady_trans; [by eapply steady_widened|by eapply steady_framed].
    + destruct Hr as (b & b' & _ & _ & _ & Hfr & _ & HK). eapply ends_intro; [done|done|exact HK| |].
      * intros x. rewrite yield_plain by done. unfold plus. simpl. lia.
      * eapply steady_trans; [by eapply steady_widened|by eapply steady_framed].
  - intros n Hn0. destruct (Z.eq_dec ((T ⊖ used (Copyout a o msgt overflow)) (RHome o a n)) 0) as [|Hne]; [done|].
    by apply (hg_home _ HT) in Hne as [|].
Qed.

(** A call on a receive right: refused, or made on the port *)
Lemma call_receive {A} a name (body : Z -> K (kern_return_t + A)) (Q : kern_return_t + A -> kstate -> Prop) :
  name_ok s a name -> (forall kr, Q (inl kr) s) -> (forall o p, receives s a name o p -> wp (body o) s Q) ->
  wp (with_receive a name body) s Q.
Proof.
  intros [Ha Hw] Hno Hyes. destruct (space_arg a Ha) as (Hn & sp & Hsp). pose proof (bk_hand _ _ HS) as HT.
  eapply wf_with_receive; [apply HS|apply HT|done|done|done|intros; apply Hno|done].
Qed.

Lemma kept_request a name id sync notify kr :
  let c := RequestNotification a name id sync notify in
  hand_good (T ⊖ used c) -> ends s T c (inl kr) s.
Proof.
  intros c HT. eapply ends_intro; [done|done|exact (kwf_used c)|intros x; by rewrite yield_plain|by apply steady_eq].
Qed.

Lemma call_request a name id sync notify :
  let c := RequestNotification a name id sync notify in
  hand_good (T ⊖ used c) -> owed s c -> wp (exec c) s (ends s T c).
Proof.
  intros c HT (Hnm & Hsp & Hdn). pose proof (fun kr => kept_request a name id sync notify kr HT) as Hkr. fold c in Hkr.
  pose proof (kwf_used c) as HK. cbn [exec c]. unfold mach_port_request_notification.
  destruct (space_arg a (proj1 Hnm)) as (Hn & _). rewrite (proj2 (Z.eqb_neq _ _) Hn).
  destruct (Z.eqb_spec notify IP_DEAD) as [|Hnd]; [wp_step; apply Hkr|].
  assert (Hu : used c = sonce_rights notify).
  { unfold c, used, sonce_rights, IP_VALID. by rewrite (proj2 (Z.eqb_neq _ _) Hnd), andb_true_r. }
  rewrite Hu in HK. set (T0 := T ⊖ used c) in *.
  assert (Hend : forall s' previous, kwf s' (T0 ⊕ sonce_rights previous) -> only_ports s s' -> ends s T c (inr previous) s').
  { intros s' previous HK' (Hs & _ & _ & Hth). eapply ends_intro; [done|done|exact HK'|intros x; by rewrite yield_plain|by apply steady_eq]. }
  pose proof (fc_rest s (nowhere s) 0 0 (T0 ⊕ sonce_rights notify)) as HF. specialize (HF ltac:(by rewrite <- Hu; apply kwf_used)).
  destruct (Z.eqb_spec id MACH_NOTIFY_PORT_DESTROYED).
  { destruct (negb (sync =? 0)); [wp_step; apply Hkr|]. destruct (negb (MACH_PORT_VALID name)); [wp_step; apply Hkr|].
    apply call_receive; [done|done|]. intros o p Hr. apply wp_bind.
    eapply wf_pdrequest; [exact HF|by apply Hr|by apply Hr|]. intros s' HF'. wp_step.
    apply rest_end in HF' as (HK' & _ & _ & Hon). by apply Hend. }
  destruct (Z.eqb_spec id MACH_NOTIFY_NO_SENDERS).
  { destruct (negb (MACH_PORT_VALID name)); [wp_step; apply Hkr|].
    apply call_receive; [done|done|]. intros o p Hr. apply wp_bind.
    eapply wf_nsrequest; [exact HF|apply HT|by apply Hr|by apply Hr|]. intros s' HF'. wp_step.
    destruct (_ && _ && _); apply rest_end in HF' as (HK' & _ & _ & Hon); by apply Hend. }
  rewrite (proj2 (Z.eqb_neq _ _) Hsp), (proj2 (Z.eqb_neq _ _) Hdn). cbn [orb]. wp_step. apply Hkr.
Qed.

(** The calls that change what the ledger does not see *)
Lemma ends_touched c r a name o p p' :
  used c = [] -> yield s c r = [] -> receives s a name o p -> untouched p p' ->
  ends s T c r (put_port s o p').
Proof.
  intros Hu Hg Hr Ht. apply ends_plain; [done|done| |by apply steady_eq].
  eapply kwf_touch; [apply HS|done|done].
Qed.

Lemma ends_logged c r e : used c = [] -> yield s c r = [] -> event_rights e = [] -> ends s T c r (put_log s e).
Proof.
  intros Hu Hg He. apply ends_plain; [done|done| |by apply steady_eq]. apply kwf_log; [apply HS|done].
Qed.

Lemma call_set_mscount a name v : owed s (SetMscount a name v) -> wp (exec (SetMscount a name v)) s (ends s T (SetMscount a name v)).
Proof.
  intros Hnm. cbn [exec]. apply wp_bind. unfold mach_port_set_mscount.
  destruct (space_arg a (proj1 Hnm)) as (Hn & _). rewrite (proj2 (Z.eqb_neq _ _) Hn).
  destruct (negb (MACH_PORT_VALID name)); [wp_step; wp_step; by apply ends_unchanged|].
  apply call_receive; [done|intros; wp_step; by apply ends_unchanged|]. intros o p Hr. pose proof Hr as [_ Ho Ha _ _].
  apply wp_bind. unfold ipc_port_set_mscount. apply wp_bind, (wp_ip_get o p); [done|]. wp_step. wp_step; [done|].
  apply (wp_ip_mod o _ p); [done|]. wp_step. wp_step. eapply ends_touched; eauto with touch.
Qed.

Lemma call_set_seqno a name v : owed s (SetSeqno a name v) -> wp (exec (SetSeqno a name v)) s (ends s T (SetSeqno a name v)).
Proof.
  intros Hnm. cbn [exec]. apply wp_bind. unfold mach_port_set_seqno.
  destruct (space_arg a (proj1 Hnm)) as (Hn & _). rewrite (proj2 (Z.eqb_neq _ _) Hn).
  destruct (negb (MACH_PORT_VALID name)); [wp_step; wp_step; by apply ends_unchanged|].
  apply call_receive; [done|intros; wp_step; by apply ends_unchanged|]. intros o p Hr. pose proof Hr as [_ Ho Ha _ _].
  apply wp_bind, (wp_ip_mod o _ p); [done|]. wp_step. wp_step. eapply ends_touched; eauto with touch.
Qed.

Lemma call_get_context a name : owed s (GetContext a name) -> wp (exec (GetContext a name)) s (ends s T (GetContext a name)).
Proof.
  intros Hnm. cbn [exec]. unfold mach_port_get_context.
  destruct (space_arg a (proj1 Hnm)) as (Hn & _). rewrite (proj2 (Z.eqb_neq _ _) Hn).
  destruct (negb (MACH_PORT_VALID name)); [wp_step; by apply ends_unchanged|].
  apply call_receive; [done|intros; by apply ends_unchanged|]. intros o p Hr. pose proof Hr as [_ Ho Ha _ _].
  apply wp_bind, (wp_ip_get o p); [done|]. wp_step. by apply ends_unchanged.
Qed.

Lemma call_set_context a name v : owed s (SetContext a name v) -> wp (exec (SetContext a name v)) s (ends s T (SetContext a name v)).
Proof.
  intros Hnm. cbn [exec]. apply wp_bind. unfold mach_port_set_context.
  destruct (space_arg a (proj1 Hnm)) as (Hn & _). rewrite (proj2 (Z.eqb_neq _ _) Hn).
  destruct (negb (MACH_PORT_VALID name)); [wp_step; wp_step; by apply ends_unchanged|].
  apply call_receive; [done|intros; wp_step; by apply ends_unchanged|]. intros o p Hr. pose proof Hr as [_ Ho Ha _ _].
  apply wp_bind, (wp_ip_get o p); [done|]. destruct (ip_strict_guard p).
  - apply wp_bind, wp_log. wp_step. wp_step. by apply ends_logged.
  - apply wp_bind, (wp_ip_mod o _ p); [done|]. wp_step. wp_step. eapply ends_touched; eauto with touch.
Qed.

Lemma call_guard a name g strict : owed s (Guard a name g strict) -> wp (exec (Guard a name g strict)) s (ends s T (Guard a name g strict)).
Proof.
  intros Hnm. cbn [exec]. apply wp_bind. unfold mach_port_guard.
  destruct (space_arg a (proj1 Hnm)) as (Hn & _). rewrite (proj2 (Z.eqb_neq _ _) Hn).
  destruct (negb (MACH_PORT_VALID name)); [wp_step; wp_step; by apply ends_unchanged|].
  apply call_receive; [done|intros; wp_step; by apply ends_unchanged|]. intros o p Hr. pose proof Hr as [_ Ho Ha _ _].
  eapply wp_guard_locked; [done|intros; wp_step; by apply ends_unchanged|]. intros _. wp_step.
  eapply ends_touched; eauto with touch.
Qed.

Lemma call_unguard a name g : owed s (Unguard a name g) -> wp (exec (Unguard a name g)) s (ends s T (Unguard a name g)).
Proof.
  intros Hnm. cbn [exec]. apply wp_bind. unfold mach_port_unguard.
  destruct (space_arg a (proj1 Hnm)) as (Hn & _). rewrite (proj2 (Z.eqb_neq _ _) Hn).
  destruct (negb (MACH_PORT_VALID name)); [wp_step; wp_step; by apply ends_unchanged|].
  apply call_receive; [done|intros; wp_step; by apply ends_unchanged|]. intros o p Hr. pose proof Hr as [_ Ho Ha _ _].
  eapply wp_unguard_locked; [done|intros; wp_step; by apply ends_logged..|]. intros _ _. wp_step.
  eapply ends_touched; eauto with touch.
Qed.

Lemma kwf_logs s1 T1 es : kwf s1 T1 -> es ≫= event_rights = [] -> kwf (set_ks_log (ks_log s1 ++ es) s1) T1.
Proof.
  revert s1. induction es as [|e es IH]; intros s1 HK He.
  - rewrite app_nil_r. by replace (set_ks_log (ks_log s1) s1) with s1 by (by destruct s1).
  - cbn in He. apply app_eq_nil in He as [He Hes]. specialize (IH (put_log s1 e) (kwf_log _ _ _ HK He) Hes).
    simpl in IH. by rewrite <- app_assoc in IH.
Qed.

Lemma call_set_attributes a name flavor info count :
  owed s (SetAttributes a name flavor info count) ->
  wp (exec (SetAttributes a name flavor info count)) s (ends s T (SetAttributes a name flavor info count)).
Proof.
  intros (Hnm & Hd & Ht & Hq). cbn [exec]. apply wp_bind. unfold mach_port_set_attributes.
  destruct (space_arg a (proj1 Hnm)) as (Hn & _).
  rewrite (proj2 (Z.eqb_neq _ _) Hn), (proj2 (Z.eqb_neq _ _) Hd), (proj2 (Z.eqb_neq _ _) Ht).
  assert (Hno : forall kr, wp (mret (of_unit (inl kr))) s (ends s T (SetAttributes a name flavor info count)))
    by (intros; wp_step; by apply ends_unchanged).
  destruct (Z.eqb_spec flavor MACH_PORT_LIMITS_INFO) as [->|_].
  - destruct (_ <? _); [by wp_step|]. destruct (Z.ltb_spec MACH_PORT_QLIMIT_MAX info); [by wp_step|].
    destruct (negb (MACH_PORT_VALID name)); [by wp_step|]. apply call_receive; [done|done|].
    intros o p Hr. destruct (Hq o p Hr) as [H1 H2]. pose proof Hr as [_ Ho Ha _ _]. apply wp_bind.
    eapply (wp_set_qlimit o s p info); [done|done|done|done|]. cbv zeta. intros s' HP (HSp & HPs & HKm & HI) HL.
    wp_step. wp_step. apply ends_plain; [done|done| |by apply steady_eq].
    set (p' := set_ip_messages _ p) in HP. set (es := _ <$> _) in HL.
    assert (HK1 : kwf (set_ks_log (ks_log s ++ es) (put_port s o p')) T).
    { apply (kwf_logs (put_port s o p')); [eapply kwf_touch; [apply HS|exact Hr|unfold p'; eauto with touch]|].
      unfold es. generalize (take (Z.to_nat (info - imq_qlimit (ip_messages p))) (imq_senders (ip_messages p))).
      intros l. by induction l. }
    destruct HI as [HI _]. by eapply kwf_same.
  - destruct (_ || _); [|by wp_step]. destruct (negb (MACH_PORT_VALID name)); [by wp_step|].
    apply call_receive; [done|done|]. intros o p Hr. pose proof Hr as [_ Ho Ha _ _]. apply wp_bind, (wp_ip_get o p); [done|].
    destruct (is_ipc_kobject _); [by wp_step|]. apply wp_bind, (wp_ip_mod o _ p); [done|]. wp_step. wp_step.
    eapply ends_touched; eauto with touch.
Qed.

(** The calls on naked rights: the kernel's focus is on no space. *)
Lemma ends_rest c r s' P L T' :
  hand_good (T ⊖ used c) -> focus s (nowhere s) 0 0 s' P L Rest T' ->
  (forall x, T' x = (T ⊖ used c ⊕ yield s c r) x) -> ends s T c r s'.
Proof.
  intros HT HF HT'. apply rest_end in HF as (HK & _ & _ & Hon). eapply ends_intro; [done|done|exact HK|done|].
  apply steady_eq; by destruct Hon as (? & _ & _ & ?).
Qed.

Lemma rest_start : focus s (nowhere s) 0 0 s (ks_ports s) (ks_log s) Rest T.
Proof. apply fc_rest, HS. Qed.

Lemma call_make_send o : owed s (MakeSend o) -> wp (exec (MakeSend o)) s (ends s T (MakeSend o)).
Proof.
  intros [Hr Hrn]. pose proof (bk_hand _ _ HS) as HT. cbn [exec]. apply wp_bind.
  eapply wf_make_send; [apply rest_start|apply HT| | | |].
  { intros Hv. destruct (Hr Hv) as (p & Ho & Hrf). exists p. split_and!; [done|done|by apply Hrn]. }
  - intros Hv. wp_step. apply ends_unchanged; [done|]. rewrite yield_plain by done. cbn [gained]. by rewrite Hv.
  - intros p _ _. wp_step. by apply ends_unchanged.
  - intros s' p Ho Ha HF. wp_step. pose proof (po_valid _ _ (oo_ports _ (kw_objects _ _ (bk_kernel _ _ HS)) _ _ Ho)) as Hv.
    eapply ends_rest; [by apply hand_good_minus_nil|exact HF|]. intros x. rewrite yield_plain by done. cbn [used gained]. rewrite Hv. cbn [when]. unfold plus, minus. simpl. lia.
Qed.

Lemma call_copy_send o : owed s (CopySend o) -> wp (exec (CopySend o)) s (ends s T (CopySend o)).
Proof.
  intros [Hr Hs]. pose proof (bk_hand _ _ HS) as HT. cbn [exec]. apply wp_bind.
  eapply wf_copy_send; [apply rest_start|apply HT| | | |].
  - intros Hv. destruct (Hr Hv) as (p & Ho & Hrf). exists p. split_and!; [done|done|by apply Hs].
  - intros Hv. wp_step. apply ends_unchanged; [done|]. rewrite yield_plain by done. cbn [gained]. by rewrite Hv.
  - intros p _ _. wp_step. by apply ends_unchanged.
  - intros s' p Ho Ha HF. wp_step. pose proof (po_valid _ _ (oo_ports _ (kw_objects _ _ (bk_kernel _ _ HS)) _ _ Ho)) as Hv.
    eapply ends_rest; [by apply hand_good_minus_nil|exact HF|]. intros x. rewrite yield_plain by done. cbn [used gained]. rewrite Hv. cbn [when]. unfold plus, minus. simpl. lia.
Qed.

Lemma call_make_sonce o : owed s (MakeSonce o) -> wp (exec (MakeSonce o)) s (ends s T (MakeSonce o)).
Proof.
  intros Hr. pose proof (bk_hand _ _ HS) as HT. cbn [exec]. apply wp_bind.
  eapply wf_make_sonce; [apply rest_start|apply HT|exact Hr| | |].
  - intros Hv. wp_step. apply ends_unchanged; [done|]. rewrite yield_plain by done. cbn [gained]. by rewrite Hv.
  - intros p _ _. wp_step. by apply ends_unchanged.
  - intros s' p Ho Ha HF. wp_step. pose proof (po_valid _ _ (oo_ports _ (kw_objects _ _ (bk_kernel _ _ HS)) _ _ Ho)) as Hv.
    eapply ends_rest; [by apply hand_good_minus_nil|exact HF|]. intros x. rewrite yield_plain by done. cbn [used gained]. rewrite Hv. cbn [when]. unfold plus, minus. simpl. lia.
Qed.

Lemma used_start c : focus s (nowhere s) 0 0 s (ks_ports s) (ks_log s) Rest (T ⊖ used c ⊕ used c).
Proof. apply fc_rest, kwf_used. Qed.

Lemma call_release_send o :
  hand_good (T ⊖ used (ReleaseSend o)) -> owed s (ReleaseSend o) -> wp (exec (ReleaseSend o)) s (ends s T (ReleaseSend o)).
Proof.
  intros HT Hv. cbn [exec]. apply wp_bind. eapply wf_release_send; [apply (used_start (ReleaseSend o))|apply HT|done|].
  intros s' p _ _ HF. wp_step. eapply ends_rest; [done|exact HF|]. intros x. rewrite yield_plain by done. unfold plus. simpl. lia.
Qed.

Lemma call_release_sonce o :
  hand_good (T ⊖ used (ReleaseSonce o)) -> owed s (ReleaseSonce o) -> wp (exec (ReleaseSonce o)) s (ends s T (ReleaseSonce o)).
Proof.
  intros HT Hv. cbn [exec]. apply wp_bind. eapply wf_release_sonce; [apply (used_start (ReleaseSonce o))|apply HT|done|].
  intros s' p _ _ HF. wp_step. eapply ends_rest; [done|exact HF|]. intros x. rewrite yield_plain by done. unfold plus. simpl. lia.
Qed.

(** The calls that make no port *)
Lemma exec_aging c :
  owed s c -> match c with SpaceCreate _ | PortAllocSpecial | Allocate _ _ => True | _ => aging (exec c) end.
Proof.
  destruct c; try done; intros Ho; cbn [exec owed] in *; destruct_and?; aging.
Qed.

(** Every call that may be made runs to its end and leaves good books. *)
Lemma call_ok c : hand_good (T ⊖ used c) -> owed s c -> wp (exec c) s (ages c).
Proof.
  intros HT Ho. pose proof (exec_aging c Ho) as Ha. destruct c;
    [by apply call_space_create|by apply call_alloc_special|by apply call_allocate|..]; (apply ages_aging; [done|..]);
    [by apply call_destroy|by apply call_destruct
    |by apply call_deallocate
    |by apply call_mod_refs|by apply call_get_refs|by apply call_type|by apply call_names|by apply call_extract
    |by apply call_copyout|by apply call_request|by apply call_set_mscount|by apply call_set_seqno
    |by apply call_get_context|by apply call_set_context|by apply call_guard|by apply call_unguard
    |by apply call_set_attributes|by apply call_make_send|by apply call_copy_send|by apply call_release_send
    |by apply call_make_sonce|by apply call_release_sonce].
Qed.
End calls.

(** *** Forgotten references *)
Lemma cnt_refs o L : cnt (RRef o) (RRef <$> L) = Z.of_nat (length (filter (fun x => x = o) L)).
Proof.
  induction L as [|x L IH]; [done|]. rewrite fmap_cons, filter_cons. cbn [cnt]. rewrite IH.
  destruct (decide (x = o)) as [->|Hne]; [rewrite ind_eq; simpl; lia|]. rewrite ind_ne by congruence. lia.
Qed.

Lemma cnt_refs_other r L : match r with RRef _ => False | _ => True end -> cnt r (RRef <$> L) = 0.
Proof. intros Hr. apply cnt_not_elem. by intros (x & -> & _)%list_elem_of_fmap. Qed.

Lemma refs_absent (o : Z) L : o ∉ L -> filter (fun x => x = o) L = [].
Proof.
  intros Ho. induction L as [|x L IH]; [done|]. rewrite filter_cons_False by (intros ->; apply Ho; by left). apply IH. set_solver.
Qed.

(** *** Reachable states *)
Section reach.
Context (Hsizes : sizes_ok ipc_table_entries) (Hkernel : ipc_space_kernel <> IS_NULL).

Lemma hand_good_empty : hand_good (fun _ => 0).
Proof. by split; [split; [|intros o; simpl]|..]. Qed.

Lemma boot_ok zone heap : system_ok (boot zone heap).
Proof.
  split; [split| | | | |]; simpl.
  - intros r. assert (Hh : held (sys_kernel (boot zone heap)) r = 0).
    { unfold held. simpl. rewrite !mcnt_empty. unfold mcnt. rewrite map_fold_singleton. done. }
    simpl in Hh. rewrite Hh. unfold accounts. simpl. destruct r; simpl; try done.
  - split; simpl; try done; by intros * ?%lookup_empty_Some.
  - intros a sp. rewrite lookup_singleton_Some. by intros [_ <-].
  - apply hand_good_empty.
  - by intros o p ?%elem_of_nil.
  - by rewrite lookup_singleton_ne.
  - rewrite lookup_singleton_eq. by eexists.
  - done.
Qed.

Lemma system_books s T L : system_ok (mk_system s T L) -> books s (T ⊕ (RRef <$> L)).
Proof. intros [HK HT _ Hn Hs Hi]. split; try done. by apply hand_good_refs. Qed.

Lemma system_call s T L c :
  system_ok (mk_system s T L) -> allowed (mk_system s T L) c -> wp (exec c) s (ages s (T ⊕ (RRef <$> L)) c).
Proof.
  intros HS [HT Ho]. apply call_ok; [done|by apply system_books| |done].
  eapply hand_good_ext; [by apply (hand_good_refs L)|]. intros r. unfold plus, minus. simpl. lia.
Qed.

(** A port with a forgotten reference is there. *)
Lemma leaked_known s T o L : kwf s (T ⊕ (RRef <$> L)) -> hand_good T -> o ∈ L -> ~ fresh_address s o.
Proof.
  intros [HL _ _] HT Ho (_ & _ & Hp & Hps & _). specialize (HL (RRef o)). unfold accounts in HL. cbn [target] in HL.
  rewrite Hp, Hps in HL. unfold plus in HL. pose proof (proj1 (hg_ok _ HT) (RRef o)). pose proof (held_nonneg s (RRef o)).
  assert (1 <= cnt (RRef o) (RRef <$> L)) by (apply cnt_in; by apply list_elem_of_fmap_2). lia.
Qed.

Lemma forgotten_dead s c r o : o ∈ forgotten s c r -> exists p, ks_ports s !! o = Some p /\ ip_active p = false.
Proof.
  intros Ho. destruct c, r as [kr|]; simpl in Ho; try (by apply elem_of_nil in Ho).
  destruct (ks_spaces s !! space) as [sp|]; [|by apply elem_of_nil in Ho]. set (o' := ie_object _) in Ho.
  destruct (_ && dead_port s o') eqn:Hd; [|by apply elem_of_nil in Ho]. apply list_elem_of_singleton in Ho as ->.
  apply andb_true_iff in Hd as [_ Hd]. unfold dead_port in Hd. destruct (ks_ports s !! o') as [p|]; [|done].
  exists p. split; [done|by apply negb_true_iff].
Qed.

Lemma step_ok st c r st' : system_ok st -> step st c r st' -> system_ok st'.
Proof.
  intros HS Hs. inversion Hs as [s T L c' r' s' Ha Hrun]; subst. pose proof (system_call s T L c HS Ha) as Hw.
  unfold wp in Hw. rewrite Hrun in Hw. destruct Hw as [[HK HT' Hn Hsp Hi] Hage]. destruct HS as [HK0 HT Hd _ _ _]. simpl in *.
  split; simpl; try done.
  - eapply kwf_proper; [done| |exact HK]. intros x. unfold plus, minus, yield. rewrite fmap_app, !cnt_app. lia.
  - destruct Ha as [Ha _]. simpl in Ha. by apply hand_good_plus, gained_good.
  - intros o p Ho Hp.
    assert (Hdead : ~ fresh_address s o /\ forall q, ks_ports s !! o = Some q -> ip_active q = false).
    { apply elem_of_app in Ho as [Ho|Ho]; [|split; [by eapply leaked_known|by intros; eapply Hd]].
      destruct (forgotten_dead _ _ _ _ Ho) as (q & Hq & Hqd). split; [intros (_ & _ & ? & _); congruence|]. intros; by simplify_eq. }
    destruct Hdead as [Hnf Hdd]. destruct (Hage o p Hp) as [|(q & Hq & Haq)]; [done|].
    apply not_true_iff_false. intros Hpa. by rewrite (Hdd q Hq) in Haq; specialize (Haq Hpa).
Qed.

Lemma reachable_ok st : reachable st -> system_ok st.
Proof. induction 1 as [|st c r st' _ IH Hs]; [apply boot_ok|by eapply step_ok]. Qed.
End reach.
End system.


(** C2 Safety: in a reachable state no call that may be made ends in a failed assertion, a
    panic, a use of memory that is not there, or a loop that does not end: it has an answer,
    and leads to a state. *)
Theorem system_safe {env : ipc_env} st c :
  sizes_ok ipc_table_entries -> ipc_space_kernel <> IS_NULL -> reachable st -> allowed st c ->
  exists r st', step st c r st'.
Proof.
  intros Hsz Hk Hr Ha. apply reachable_ok in Hr; [|done|done]. destruct st as [s T L].
  destruct (wp_inv _ _ _ (system_call Hsz s T L c Hr Ha)) as (r & s' & Hrun & _). eexists r, _. by constructor.
Qed.

(** C3 Reference counting is exact: in a reachable state a live port has as many references as
    there are holders, exactly one receive right, and its send and send-once counts are the
    numbers of such rights that exist.  A dead port has no receive right, and as many
    references as there are holders and references that [ipc_right_delta] forgot to release:
    these are never released, and keep the port from being freed. *)
Theorem references_exact {env : ipc_env} st o p :
  sizes_ok ipc_table_entries -> ipc_space_kernel <> IS_NULL -> reachable st ->
  ks_ports (sys_kernel st) !! o = Some p ->
  let total r := held (sys_kernel st) r + sys_hand st r in
  (ip_active p = true -> ip_references p = total (RRef o) /\ total (RLive o) = 1 /\
    ip_srights p = total (RSend o) /\ ip_sorights p = total (RSonce o)) /\
  (ip_active p = false -> ip_references p = total (RRef o) + Z.of_nat (length (filter (fun x => x = o) (sys_leaked st))) /\
    total (RLive o) = 0).
Proof.
  intros Hsz Hk Hr Ho total. apply reachable_ok in Hr; [|done|done]. destruct Hr as [[HL _ _] _ Hd _ _ _].
  specialize (Hd o p). pose proof (HL (RRef o)) as H1. pose proof (HL (RLive o)) as H2. pose proof (HL (RSend o)) as H3.
  pose proof (HL (RSonce o)) as H4. unfold accounts in *. cbn [target] in *. rewrite Ho in *. unfold plus in *.
  rewrite cnt_refs in H1. rewrite !cnt_refs_other in * by done. cbn in *. unfold agree, total in *.
  destruct (ip_active p) eqn:Ha; (split; [|try done]); try done.
  - assert (Hn : o ∉ sys_leaked st) by (intros Hin; by specialize (Hd Hin eq_refl)).
    intros _. rewrite (refs_absent _ _ Hn) in H1. simpl in H1. split_and!; lia.
  - intros _. split; lia.
Qed.

(** C4 Capabilities are typed: in a reachable state what a name stands for has one of the
    six legal shapes; a port right stands for a port that exists; a receive right stands for a
    live port whose receiver is this space under this name. *)
Theorem capabilities_typed {env : ipc_env} st a name o b req :
  sizes_ok ipc_table_entries -> ipc_space_kernel <> IS_NULL -> reachable st ->
  named (sys_kernel st) a name (o, b, req) ->
  entry_shape o (IE_BITS_TYPE b) (IE_BITS_UREFS b) req /\
  (has b MACH_PORT_TYPE_PORT_RIGHTS = true -> exists p, ks_ports (sys_kernel st) !! o = Some p /\
    (has b MACH_PORT_TYPE_SEND = true -> 0 < ip_srights p) /\
    (has b MACH_PORT_TYPE_RECEIVE = true -> ip_active p = true /\ ip_receiver p = a /\ ip_receiver_name p = name)).
Proof.
  intros Hsz Hk Hr Hn. apply reachable_ok in Hr; [|done|done]. destruct st as [s T L].
  destruct (system_books _ _ _ Hr) as [HK HT _ _ _]. simpl in *.
  pose proof (holding_start s a name _ o b req HK Hn) as Hh. split; [apply Hh|]. intros Hb.
  destruct HT as [[HT _] _ _ _]. destruct (holding_port _ _ _ _ _ _ _ _ _ _ _ HT Hh Hb) as [p Hp].
  exists p. split_and!; [done|intros Hs; by eapply holding_srights|]. intros Hrc.
  destruct (holding_receive _ _ _ _ eq_refl _ _ _ _ _ _ _ p HT Hh Hrc Hp) as (H1 & H2 & H3 & _). done.
Qed.

(** C5 A port has one receiver: two names of a reachable state that both stand for the
    receive right of a port are the same name of the same space. *)
Theorem one_receiver {env : ipc_env} st o a1 n1 b1 q1 a2 n2 b2 q2 :
  sizes_ok ipc_table_entries -> ipc_space_kernel <> IS_NULL -> reachable st ->
  named (sys_kernel st) a1 n1 (o, b1, q1) -> has b1 MACH_PORT_TYPE_RECEIVE = true ->
  named (sys_kernel st) a2 n2 (o, b2, q2) -> has b2 MACH_PORT_TYPE_RECEIVE = true ->
  a1 = a2 /\ n1 = n2.
Proof.
  intros Hsz Hk Hr Hn1 Hb1 Hn2 Hb2. apply reachable_ok in Hr; [|done|done]. destruct st as [s T0 L].
  destruct (system_books _ _ _ Hr) as [HK HT _ _ _]. simpl in *. set (T := T0 ⊕ _) in HK, HT.
  destruct (named_receives s T a1 n1 o b1 q1 HK (hg_ok _ HT) Hn1 Hb1) as [p1 [_ P1 _ R1 N1]].
  destruct (named_receives s T a2 n2 o b2 q2 HK (hg_ok _ HT) Hn2 Hb2) as [p2 [_ P2 _ R2 N2]]. by simplify_eq.
Qed.

(** ** Witness: a space, a port in it, a send right made from the port's receive right *)
Module SystemExample.
Import Sample.

Definition next (st : system) (c : call) : system :=
  match exec c (sys_kernel st) with
  | Ok (r, s') => mk_system s' (sys_hand st ⊖ used c ⊕ gained c r) (forgotten (sys_kernel st) c r ++ sys_leaked st)
  | Fail _ => st
  end.

Lemma reachable_next st c :
  reachable st -> allowed st c -> match exec c (sys_kernel st) with Ok _ => True | Fail _ => False end ->
  reachable (next st c).
Proof.
  intros Hr Ha He. unfold next. destruct (exec c (sys_kernel st)) as [[r s']|] eqn:Hx; [|done].
  eapply reachable_step; [done|]. destruct st. by constructor.
Qed.

Definition st0 : system := boot [0x1000; 0x100] [true].
Definition st1 : system := next st0 (SpaceCreate 0).
Definition st2 : system := next st1 (Allocate 0x1000 MACH_PORT_RIGHT_RECEIVE).
Definition st3 : system := next st2 (ExtractRight 0x1000 0x103 MACH_MSG_TYPE_MAKE_SEND).

Lemma hand_nothing T : (forall r, T r = 0) -> hand_good T.
Proof. intros HT. eapply hand_good_ext; [apply hand_good_empty|done]. Qed.

Lemma reachable1 : reachable st1.
Proof.
  apply reachable_next; [apply reachable_boot| |by vm_compute]. split; [by apply hand_nothing|].
  split_and!; [right; by vm_compute|done|simpl; lia|]. by exists 16.
Qed.

Lemma reachable2 : reachable st2.
Proof.
  apply reachable_next; [apply reachable1| |by vm_compute]. split; [by apply hand_nothing|].
  split; [right; by vm_compute|]. by eexists.
Qed.

Definition entry2 : Z * Z * Z := (0x100, 0x03020000, 0).
Definition port2 : ipc_port := new_port 0x1000 0x103.
Lemma named2 : named (sys_kernel st2) 0x1000 0x103 entry2.
Proof. split; [done|]. eexists. split; [by vm_compute|]. by vm_compute. Qed.

Lemma port2_at : ks_ports (sys_kernel st2) !! 0x100 = Some port2.
Proof. by vm_compute. Qed.

Lemma reachable3 : reachable st3.
Proof.
  apply reachable_next; [apply reachable2| |by vm_compute]. split; [by apply hand_nothing|].
  split; [split; [by eexists|done]|]. intros o b req p Hn Hp.
  pose proof (named_fun _ _ _ _ _ named2 Hn) as He. injection He as <- <- <-. rewrite port2_at in Hp. injection Hp as <-. by split.
Qed.

Definition port3 : ipc_port :=
  set_ip_references 2 (set_ip_srights 1 (set_ip_mscount 1 port2)).
Lemma port3_at : ks_ports (sys_kernel st3) !! 0x100 = Some port3.
Proof. by vm_compute. Qed.

Definition give_back : call := Copyout 0x1000 0x100 MACH_MSG_TYPE_PORT_SEND false.
Lemma give_back_allowed : allowed st3 give_back.
Proof.
  split.
  - apply hand_nothing. intros r. change (0 - 0 + 0 - 0 + 0 - 0 + cnt r [RRef 0x100; RSend 0x100] - cnt r [RRef 0x100; RSend 0x100] = 0). lia.
  - split_and!; [by eexists|done|by left|]. exists port3. split; [apply port3_at|done].
Qed.


Lemma system_safe_witness : exists r st', step st3 give_back r st'.
Proof. exact (system_safe st3 give_back CopyoutExample.sample_sizes ltac:(done) reachable3 give_back_allowed). Defined.

Lemma references_exact_witness :
  ip_references port3 = held (sys_kernel st3) (RRef 0x100) + sys_hand st3 (RRef 0x100).
Proof.
  exact (proj1 (proj1 (references_exact st3 0x100 port3 CopyoutExample.sample_sizes ltac:(done) reachable3 port3_at) eq_refl)).
Defined.

Lemma capabilities_typed_witness : entry_shape 0x100 MACH_PORT_TYPE_RECEIVE 0 0.
Proof.
  exact (proj1 (capabilities_typed st2 0x1000 0x103 0x100 0x03020000 0 CopyoutExample.sample_sizes ltac:(done)
    reachable2 named2)).
Defined.

Lemma one_receiver_witness : 0x1000 = 0x1000 /\ 0x103 = 0x103.
Proof.
  exact (one_receiver st2 0x100 0x1000 0x103 0x03020000 0 0x1000 0x103 0x03020000 0 CopyoutExample.sample_sizes
    ltac:(done) reachable2 named2 eq_refl named2 eq_refl).
Defined.
End SystemExample.
